(* ===== verification/_CoqProject ===== *)
-Q . S2P
Prelude.v
Double.v
Wire.v
Command.v
CommandFacts.v
Msgblock.v
Sched.v
SchedFacts.v
Basecmd.v
BasecmdFacts.v
World.v
WorldFacts.v
Stepper.v
StepperFacts.v
Trsync.v
TrsyncFacts.v
Gpiocmds.v
GpiocmdsFacts.v
Sensors.v
SensorsFacts.v
Tmcuart.v
TmcuartFacts.v
Bus.v
BusFacts.v
DeviceFacts.v
Angle.v
AngleFacts.v
Accel.v
AccelFacts.v
Display.v
DisplayFacts.v
Stepcompress.v
StepcompressFacts.v
CompressFacts.v
SyncFacts.v
AppendFacts.v
Trapq.v
TrapqFacts.v
Kinematics.v
KinFacts.v
Itersolve.v
ItersolveFacts.v
Pollreactor.v
PollreactorFacts.v
Serialqueue.v
SerialqueueFacts.v
ReceiveFacts.v
Session.v
SessionFacts.v
SerialProps.v
Trdispatch.v
TrdispatchFacts.v
Rxbuf.v
SerialIrq.v
SerialIrqFacts.v
Canserial.v
CanserialFacts.v
Usbcdc.v
UsbcdcFacts.v
Usbcan.v
UsbcanFacts.v
Avrtimer.v
AvrtimerFacts.v
