(* ===== verification/Prelude.v ===== *)
(** * Verification of the Klipper motion core

    Klipper splits the control of a 3D printer between a host (Python with a C helper
    library, klippy/chelper) and one or more micro-controllers (C firmware, src).  The host
    plans moves, computes the time of every motor step, compresses the step times into
    short commands and sends these over a serial link; the firmware parses the commands and
    runs them from a timer queue at exact clock values.  This development models the C code
    of both sides that carries this pipeline and proves what makes it correct.  Paths below
    are relative to src/klipper-master.

    ** The parts and their files

    Every component has a file with its data and operations and, where the proofs are long,
    a second file with its properties (suffix Facts).

    - Prelude: fixed-width integers, arrays as lists, the state monad [M] with the outcomes
      [Ret], [Shut] (the firmware's shutdown, a longjmp) and [Stuck] (undefined behaviour or
      exhausted fuel), component lenses ([Part], [zoom]), record updates, reachability.
    - Double: C doubles as the class [DoubleOps], with the IEEE 754 format of SpecFloat (the
      models run on it bit for bit) and the real numbers (formulas are proved there).
    - Wire: variable length integers and the CRC (src/command.c, src/generic/crc16_ccitt.c).
    - Command, CommandFacts: framing, dispatch and responses (src/command.c).  The command
      table and the console are an interface, the class [CommandEnv].
    - Rxbuf: the receive buffer that a console shares with its interrupt, against the
      interface [RxBuf] with its laws [RxLaws], which both following consoles implement.
    - SerialIrq, SerialIrqFacts: the buffers of the serial console and their interrupts
      (src/generic/serial_irq.c).
    - Canserial, CanserialFacts: the CAN console and the assignment of node identifiers
      (src/generic/canserial.c, canbus.c).
    - Usbcdc, UsbcdcFacts: the USB console, its descriptors and the requests of endpoint 0
      (src/generic/usb_cdc.c).  What it needs of the firmware is the class [Usb_link], which
      [usb_link_of_table] derives from the command table.
    - Usbcan, UsbcanFacts: the bridge between USB and a CAN bus (src/generic/usb_canbus.c).
    - Avrtimer, AvrtimerFacts: the 32-bit time of the AVR boards (src/avr/timer.c).
    - Msgblock: the host's side of the wire format and the clock estimate
      (klippy/chelper/msgblock.c).
    - Sched, SchedFacts: the timer list, tasks and shutdown (src/sched.c) and the dispatch
      from the timer interrupt (src/generic/timer_irq.c).
    - Basecmd, BasecmdFacts: memory chunks, the pool of move nodes and the queues over it,
      object ids (src/basecmd.c).
    - World, WorldFacts: the state of a firmware with its objects, timers, pins and trace, to
      which the components below belong.
    - Stepper, StepperFacts: step generation (src/stepper.c), in each of its builds.
    - Trsync, TrsyncFacts: trigger synchronisation and end stops (src/trsync.c,
      src/endstop.c).
    - Gpiocmds, GpiocmdsFacts: digital and PWM outputs (src/gpiocmds.c, src/pwmcmds.c).
    - Sensors, SensorsFacts: analog inputs, buttons, pulse counters (src/adccmds.c,
      src/buttons.c, src/pulse_counter.c).
    - Tmcuart, TmcuartFacts: the bit-banged UART of the stepper drivers (src/tmcuart.c).
    - Bus, BusFacts: SPI and I2C devices, software SPI, thermocouples (src/spicmds.c,
      src/spi_software.c, src/i2ccmds.c, src/thermocouple.c).
    - DeviceFacts: what an access to a bus leaves alone, and reports in numbered blocks,
      shared by the following.
    - Angle, AngleFacts: magnetic angle sensors (src/sensor_angle.c).
    - Accel, AccelFacts: accelerometers (src/sensor_adxl345.c, src/sensor_mpu9250.c), with
      the host's decoder of the samples (klippy/extras/adxl345.py).
    - Display, DisplayFacts: displays and LED strips (src/lcd_st7920.c, src/lcd_hd44780.c,
      src/neopixel.c).
    - Stepcompress with StepcompressFacts, CompressFacts, AppendFacts, SyncFacts: step
      compression and the merge of the commands of the steppers
      (klippy/chelper/stepcompress.c).
    - Trapq, TrapqFacts: the queue of moves (klippy/chelper/trapq.c).
    - Kinematics, KinFacts: stepper positions for each printer geometry, pressure advance and
      input shaping (klippy/chelper/kin_*.c).
    - Itersolve, ItersolveFacts: the search for step times (klippy/chelper/itersolve.c), over
      the interface [StepSink], which the step compression implements.
    - Pollreactor, PollreactorFacts: timers and main loop of the background thread
      (klippy/chelper/pollreactor.c).
    - Serialqueue with SerialqueueFacts (transmission), ReceiveFacts (reception) and
      SerialProps: the serial queue of the host (klippy/chelper/serialqueue.c).
    - Session, SessionFacts: the serial queue and the command parser of the firmware joined
      by a line that loses blocks.  What the host needs of the firmware is the class
      [Firmware_link], which [firmware_link_of_table] derives from a console that answers
      and handlers that leave the parser alone.
    - Trdispatch, TrdispatchFacts: propagation of triggers and timeouts between the
      micro-controllers of a homing move (klippy/chelper/trdispatch.c).

    A definition keeps the name of the C function it translates.  A loop body or a block of a
    long function that is a definition of its own says which in its comment.  Pointers into
    linked structures are keys into finite maps (timers, objects, move nodes) where the code
    shares them, and lists where it does not.  Integers are kept at their width with [u8] to
    [u64] and [i8] to [i64] wherever the code can wrap.

    ** What is proved

    - Link: a correct block with the expected sequence number is accepted and others are not;
      corrupted blocks are rejected for error bursts of up to two bytes; dispatch runs the
      encoded commands and stays within the buffer for every input; the codecs round-trip;
      the CRC routine is the CRC.
    - Transport: over a line that loses blocks in both directions the firmware accepts the
      blocks of the host in order and exactly once, and one retransmission brings everything
      through; blocks are filled by priority; the window of blocks and the receive window of
      the firmware are respected; the input buffer is never overrun; the reactor never sleeps
      past a timer; the buffers of the serial and the CAN console lose and reorder nothing
      under any interleaving with the interrupts; the USB console sends whole messages and
      never blocks on a full buffer; descriptors reach the host; the bridge routes every frame
      once and in order; no two nodes of a CAN bus keep the same identifier.
    - Homing: the first trigger is sent to every micro-controller, and the timeout of each
      follows the slowest of the others.
    - Scheduler: the linked list with its sentinels refines an ordered queue of timers, also
      when the 32-bit clock wraps; a shutdown leaves a working system; the time of the AVR
      boards is exact, and their comparison is that of the others.
    - Memory: move queues are first-in first-out over one pool, nodes neither leak nor alias;
      object ids are typed.
    - Steppers: a queued move steps at interval*k + add*k*(k-1)/2 ticks; the reported position
      counts the steps; a trigger stops every registered stepper and keeps its position.
    - Outputs and sensors: the limit of the time away from the default, defaults on shutdown,
      debouncing and reporting.
    - Devices: an exchange with a stepper driver puts the bits on the line, stores the reply
      and ends; software SPI shifts in all four modes; every event of an angle sensor gives
      one entry; the samples of the accelerometers reach the host, and stopping loses none;
      the displays receive the bytes sent to them; the line of an LED strip returns to low,
      and updates stay within its data.
    - Host: the commands of a flush reproduce the requested step times, never late and at most
      [max_error] early, with the same formula as the firmware; flushing succeeds; commands
      are merged in order and never overcommit the move queue; the tool head follows the
      trapezoid profile; the solver submits steps in order and its position counts them; the
      kinematics satisfy the geometry of the printers.

    ** Concurrency

    The host's critical sections (under the lock of a serial queue or of a dispatcher) are
    single steps, and [session_step] interleaves them with deliveries and losses on the line.
    The interrupts of the serial console run at the points marked [irq], those of the CAN
    console at [can_irq] and those of the bridge at [br_irq], driven by an oracle in the
    state; a theorem for every oracle covers every interleaving.  The clock of the world is an
    oracle too: what it returns can include the time that interrupts take.

    ** Bounds and fuel

    Loops whose recursion is not structural take fuel.  The list loops of the scheduler and of
    the pools take the size of the map they walk over; the loops over message bytes and step
    buffers take the number of elements left; [compress_bisect_add] takes 2^17 rounds, more
    than the 2^16 values of [add], each round dropping one.  The theorems show these
    to be enough.  The seek loop of the solver has no bound in the code: its fuel is an
    argument, and its safety is stated for every iteration.  The transmission loop of the
    serial queue takes 14 rounds more than there are messages, the removal from the receive
    buffer 193 (each retry follows a stored byte); both are shown to be enough, as are the 235
    events of a UART exchange, the 256 rounds over its bits, the 1366 turns that drain an
    MPU9250, the 18 turns of a transfer on endpoint 0, and the turns of the CAN tasks and of the bridge, one
    more than there are frames and answers to come.  Busy waits take [wait_fuel] readings of
    the clock, and their theorems ask that it passes their end within them.  Sequence
    numbers are taken to stay below 2^63 ([seq_room]), queued bytes below 2^31.  [flush_succeeds] is stated for up
    to 128 pending steps within 2^28 ticks, where no [int32_t] of the compression overflows.

    ** Not modelled

    - klippy/chelper/pyhelper.c: clock and logging of the system; system calls of the serial
      queue and the reactor are parameters of their models.
    - klippy/chelper/kin_coreuv.c: it uses members that [struct coord] does not have and is not
      part of the helper library.
    - The register access of the boards (src/avr, src/stm32 and so on) but for the time of the
      AVR, their interrupt handlers and linker set-up, and the controllers of USB and CAN:
      hardware behind the interfaces of the models.
    - The requests of endpoint 0 in src/generic/usb_canbus.c, which repeat those of usb_cdc.c
      with other descriptors.
    - src/debugcmds.c and src/initial_pins.c: access to memory for debugging, and set-up.
    - The functions that only free memory, and the Python side of the host. *)

From stdpp Require Export prelude gmap strings.
From Stdlib Require Export ZArith Lia.

#[export] Set Default Proof Using "Type".

Declare Scope mcu_scope.
Delimit Scope mcu_scope with mcu.
#[global] Open Scope Z_scope.

(** ** Fixed-width integers

    A C integer of width [w] is a [Z]; [u8] .. [u64] convert to the unsigned
    type, [i16] .. [i64] to the signed type (two's complement wrap-around, as
    gcc defines the conversion). *)

Definition u8 (z : Z) : Z := z mod 256.
Definition u16 (z : Z) : Z := z mod 65536.
Definition u32 (z : Z) : Z := z mod 4294967296.
Definition u64 (z : Z) : Z := z mod 18446744073709551616.
Definition i8 (z : Z) : Z := (z + 128) mod 256 - 128.
Definition i16 (z : Z) : Z := (z + 32768) mod 65536 - 32768.
Definition i32 (z : Z) : Z := (z + 2147483648) mod 4294967296 - 2147483648.
Definition i64 (z : Z) : Z :=
  (z + 9223372036854775808) mod 18446744073709551616 - 9223372036854775808.

(** The value [-1] of an unsigned 64-bit type. *)
Definition UINT64_MAX : Z := 18446744073709551615.

(** C truth values. *)
Definition b2z (b : bool) : Z := if b then 1 else 0.
Definition z2b (z : Z) : bool := negb (z =? 0).

(** C flag test: a bit mask intersected with a value. *)
Definition has (flags mask : Z) : bool := negb (Z.land flags mask =? 0).

(** [x & ~m] for an unsigned operand. *)
Definition clear (flags mask : Z) : Z := Z.ldiff flags mask.

(** Unfold every width conversion and let [lia] decide the resulting linear
    arithmetic with quotients and remainders. *)
Ltac wrap_lia :=
  unfold u8, u16, u32, u64, i8, i16, i32, i64, UINT64_MAX, b2z in *;
  Z.div_mod_to_equations; lia.

(** Case analysis on every boolean comparison of integers in sight. *)
Ltac zcases :=
  repeat match goal with
  | |- context [?a <? ?b] => destruct (Z.ltb_spec a b)
  | |- context [?a <=? ?b] => destruct (Z.leb_spec a b)
  | |- context [?a =? ?b] => destruct (Z.eqb_spec a b)
  | H : context [?a <? ?b] |- _ => destruct (Z.ltb_spec a b)
  | H : context [?a <=? ?b] |- _ => destruct (Z.leb_spec a b)
  | H : context [?a =? ?b] |- _ => destruct (Z.eqb_spec a b)
  end.

Lemma u8_range z : 0 <= u8 z < 256.
Proof. wrap_lia. Qed.
Lemma u16_range z : 0 <= u16 z < 65536.
Proof. wrap_lia. Qed.
Lemma u32_range z : 0 <= u32 z < 4294967296.
Proof. wrap_lia. Qed.
Lemma u64_range z : 0 <= u64 z < 18446744073709551616.
Proof. wrap_lia. Qed.
Lemma i32_range z : -2147483648 <= i32 z < 2147483648.
Proof. wrap_lia. Qed.
Lemma i16_range z : -32768 <= i16 z < 32768.
Proof. wrap_lia. Qed.

Lemma u8_small z : 0 <= z < 256 -> u8 z = z.
Proof. intros; apply Z.mod_small; lia. Qed.
Lemma u16_small z : 0 <= z < 65536 -> u16 z = z.
Proof. intros; apply Z.mod_small; lia. Qed.
Lemma u32_small z : 0 <= z < 4294967296 -> u32 z = z.
Proof. intros; apply Z.mod_small; lia. Qed.
Lemma u64_small z : 0 <= z < 18446744073709551616 -> u64 z = z.
Proof. intros; apply Z.mod_small; lia. Qed.
Lemma i32_small z : -2147483648 <= z < 2147483648 -> i32 z = z.
Proof. wrap_lia. Qed.
Lemma i16_small z : -32768 <= z < 32768 -> i16 z = z.
Proof. wrap_lia. Qed.

Create HintDb width.
#[export] Hint Resolve u8_range u16_range u32_range u64_range i32_range
  i16_range : width.
#[export] Hint Rewrite u8_small u16_small u32_small u64_small i32_small
  i16_small using lia : width.

(** ** Bit operations as arithmetic *)

Lemma land_mask7 z : Z.land z 127 = z mod 128.
Proof. change 127 with (Z.ones 7). by rewrite Z.land_ones. Qed.

Lemma land_mask8 z : Z.land z 255 = z mod 256.
Proof. change 255 with (Z.ones 8). by rewrite Z.land_ones. Qed.

Lemma shiftr_div z n : 0 <= n -> Z.shiftr z n = z / 2 ^ n.
Proof. apply Z.shiftr_div_pow2. Qed.

(** Disjoint bits: an [or] of a shifted value and a small one is a sum. *)
Lemma testbit_high b n i : 0 <= b < 2 ^ n -> 0 <= n <= i -> Z.testbit b i = false.
Proof.
  intros Hb Hi. rewrite <- (Z.mod_small b (2 ^ n)) by lia.
  apply Z.mod_pow2_bits_high. lia.
Qed.

Lemma land_shiftl_small a n b :
  0 <= n -> 0 <= b < 2 ^ n -> Z.land (Z.shiftl a n) b = 0.
Proof.
  intros Hn Hb. apply Z.bits_inj'; intros i Hi. rewrite Z.land_spec, Z.bits_0.
  destruct (Z.ltb_spec i n).
  - by rewrite Z.shiftl_spec_low by lia.
  - by rewrite (testbit_high b n), andb_false_r by lia.
Qed.

Lemma lor_shiftl_lxor a n b :
  0 <= n -> 0 <= b < 2 ^ n -> Z.lor (Z.shiftl a n) b = Z.lxor (Z.shiftl a n) b.
Proof. intros. symmetry. by apply Z.lxor_lor, land_shiftl_small. Qed.

Lemma lor_shiftl_add a n b :
  0 <= n -> 0 <= b < 2 ^ n -> Z.lor (Z.shiftl a n) b = a * 2 ^ n + b.
Proof.
  intros Hn Hb. rewrite lor_shiftl_lxor, <- Z.add_nocarry_lxor, Z.shiftl_mul_pow2;
    auto using land_shiftl_small.
Qed.

(** A property of every value below a small bound is decided by evaluation. *)
Lemma forall_below (n : nat) (P : Z -> bool) :
  forallb P (seqZ 0 (Z.of_nat n)) = true ->
  forall z, 0 <= z < Z.of_nat n -> P z = true.
Proof.
  intros H z Hz. apply Is_true_true.
  assert (Forall (fun x => Is_true (P x)) (seqZ 0 (Z.of_nat n))) as HF.
  { clear z Hz. induction (seqZ 0 (Z.of_nat n)); [done|].
    simpl in H. apply andb_true_iff in H as [??].
    constructor; [by apply Is_true_true|auto]. }
  rewrite Forall_forall in HF. apply HF, elem_of_seqZ. lia.
Qed.

Lemma forall_byte (P : Z -> bool) :
  forallb P (seqZ 0 256) = true -> forall z, 0 <= z < 256 -> P z = true.
Proof. apply (forall_below 256). Qed.

(** ** Lists as arrays *)

(** A byte string: every element is the value of a [uint8_t]. *)
Definition bytes (l : list Z) : Prop := Forall (fun b => 0 <= b < 256) l.

Definition zlen {A} (l : list A) : Z := Z.of_nat (length l).

(** [a[i]] for an integer index, 0 for an index outside the list (every use is
    guarded by a bound check of the code). *)
Definition nthZ (l : list Z) (i : Z) : Z := nth (Z.to_nat i) l 0.

Definition takeZ {A} (n : Z) (l : list A) : list A := take (Z.to_nat n) l.
Definition dropZ {A} (n : Z) (l : list A) : list A := drop (Z.to_nat n) l.

Lemma bytes_app l k : bytes (l ++ k) <-> bytes l /\ bytes k.
Proof. apply Forall_app. Qed.

Lemma bytes_take n l : bytes l -> bytes (take n l).
Proof. apply Forall_take. Qed.

Lemma bytes_drop n l : bytes l -> bytes (drop n l).
Proof. apply Forall_drop. Qed.

Lemma bytes_nthZ l i : bytes l -> 0 <= nthZ l i < 256.
Proof.
  intros Hl. unfold nthZ.
  destruct (nth_in_or_default (Z.to_nat i) l 0) as [Hin | ->]; [|lia].
  unfold bytes in Hl. rewrite Forall_forall in Hl. by apply Hl, list_elem_of_In.
Qed.

Lemma zlen_app {A} (l k : list A) : zlen (l ++ k) = zlen l + zlen k.
Proof. unfold zlen. rewrite length_app. lia. Qed.

Lemma zlen_nonneg {A} (l : list A) : 0 <= zlen l.
Proof. unfold zlen. lia. Qed.

Lemma zlen_cons {A} (x : A) l : zlen (x :: l) = 1 + zlen l.
Proof. unfold zlen. simpl. lia. Qed.

Lemma nthZ_app_l l k i : 0 <= i < zlen l -> nthZ (l ++ k) i = nthZ l i.
Proof. intros. unfold nthZ, zlen in *. apply app_nth1. lia. Qed.

Lemma nthZ_app_r l k i : zlen l <= i -> nthZ (l ++ k) i = nthZ k (i - zlen l).
Proof.
  intros. unfold nthZ, zlen in *. rewrite app_nth2 by lia. f_equal. lia.
Qed.

#[export] Hint Resolve bytes_take bytes_drop bytes_nthZ zlen_nonneg : width.
#[export] Hint Rewrite @zlen_app @zlen_cons : zlen.

(** ** Computations with emergency stop

    Firmware code runs in a state monad over a world [W].  [shutdown(reason)]
    is a [longjmp]: the computation ends, and the state changes made before it
    stay.  [Stuck] is undefined behaviour (a NULL or out-of-range access) or a
    loop that exhausted its fuel; theorems exclude it. *)

Inductive outcome (W A : Type) : Type :=
| Ret (a : A) (w : W)
| Shut (reason : string) (w : W)
| Stuck.

Arguments Ret {W A} a w.
Arguments Shut {W A} reason w.
Arguments Stuck {W A}.

Definition M (W A : Type) : Type := W -> outcome W A.

Definition ret {W A} (a : A) : M W A := fun w => Ret a w.

Definition bind {W A B} (m : M W A) (k : A -> M W B) : M W B := fun w =>
  match m w with
  | Ret a w' => k a w'
  | Shut r w' => Shut r w'
  | Stuck => Stuck
  end.

(** [shutdown(msg)] of command.h: sched_shutdown() with a static string. *)
Definition shutdown {W A} (reason : string) : M W A := fun w => Shut reason w.
Definition stuck {W A} : M W A := fun _ => Stuck.
Definition gets {W A} (f : W -> A) : M W A := fun w => Ret (f w) w.
Definition modify {W} (f : W -> W) : M W unit := fun w => Ret tt (f w).

Notation "x <- c ;; k" := (bind c (fun x => k))
  (at level 100, c at next level, right associativity) : mcu_scope.
Notation "' p <- c ;; k" := (bind c (fun p => k))
  (at level 100, p pattern, c at next level, right associativity) : mcu_scope.
Notation "c1 ;; c2" := (bind c1 (fun _ => c2))
  (at level 100, right associativity) : mcu_scope.
#[global] Open Scope mcu_scope.

Definition when {W} (b : bool) (m : M W unit) : M W unit :=
  if b then m else ret tt.

(** The dereference of a pointer that may be NULL. *)
Definition deref {W A} (o : option A) : M W A :=
  match o with Some a => ret a | None => stuck end.

Lemma bind_ret_l {W A B} (a : A) (k : A -> M W B) w : bind (ret a) k w = k a w.
Proof. done. Qed.

Lemma bind_bind {W A B C} (m : M W A) (f : A -> M W B) (g : B -> M W C) w :
  bind (bind m f) g w = bind m (fun a => bind (f a) g) w.
Proof. unfold bind. by destruct (m w). Qed.

Lemma bind_Ret {W A B} (m : M W A) (k : A -> M W B) w a w' :
  m w = Ret a w' -> bind m k w = k a w'.
Proof. unfold bind. by intros ->. Qed.

Lemma bind_Ret_inv {W A B} (m : M W A) (k : A -> M W B) w b w'' :
  bind m k w = Ret b w'' -> exists a w', m w = Ret a w' /\ k a w' = Ret b w''.
Proof. unfold bind. destruct (m w); naive_solver. Qed.

(** ** Components of a world

    [Part W S] states that [S] is a component of the world [W]: what a module
    of the firmware promises to its clients is proved on its own state [S], and
    [zoom] runs it inside a larger world. *)

Class Part (W S : Type) := {
  part_get : W -> S;
  part_set : S -> W -> W;
  part_get_set : forall s w, part_get (part_set s w) = s;
  part_set_get : forall w, part_set (part_get w) w = w;
  part_set_set : forall s s' w, part_set s (part_set s' w) = part_set s w;
}.

#[global, program] Instance Part_refl S : Part S S := {
  part_get s := s;
  part_set s _ := s;
}.
Solve Obligations with done.

(** The components of a pair. *)
#[program] Definition Part_fst A B : Part (A * B) A := {|
  part_get w := w.1;
  part_set s w := (s, w.2);
|}.
Solve Obligations with by intros; destruct_and?; repeat (match goal with w : _ * _ |- _ => destruct w end).

#[program] Definition Part_snd A B : Part (A * B) B := {|
  part_get w := w.2;
  part_set s w := (w.1, s);
|}.
Solve Obligations with by intros; destruct_and?; repeat (match goal with w : _ * _ |- _ => destruct w end).

Definition zoom {W S A} `{Part W S} (m : M S A) : M W A := fun w =>
  match m (part_get w) with
  | Ret a s => Ret a (part_set s w)
  | Shut r s => Shut r (part_set s w)
  | Stuck => Stuck
  end.

Lemma zoom_Ret {W S A} `{Part W S} (m : M S A) w a s :
  m (part_get w) = Ret a s -> zoom m w = Ret a (part_set s w).
Proof. unfold zoom. by intros ->. Qed.

Lemma zoom_bind {W S A B} `{Part W S} (m : M S A) (k : A -> M S B) w :
  zoom (bind m k) w = bind (zoom m) (fun a => zoom (k a)) w.
Proof.
  unfold zoom, bind. destruct (m (part_get w)); [|done|done].
  rewrite part_get_set. destruct (k a w0); by rewrite ?part_set_set.
Qed.

(** ** Record updates

    [r <| field := v |>] and [r <| field ::= f |>] update one field.  A record
    supports them once its eta expansion is declared ([Settable]): the update of
    a field is the eta expansion with the projection replaced. *)

Class Settable (R : Type) := record_eta : R -> R.
Class Updates {R T : Type} (field : R -> T) := upd : (T -> T) -> R -> R.
Arguments upd {R T} field {_} _ _ /.

Ltac derive_update field :=
  lazymatch type of field with
  | ?R -> _ =>
      let inst := constr:(_ : Settable R) in
      let eta := eval red in inst in
      lazymatch eval pattern field in eta with
      | ?abstracted _ => exact (fun f => abstracted (fun r => f (field r)))
      end
  end.

#[export] Hint Extern 1 (Updates ?field) => derive_update field : typeclass_instances.

Notation "r <| field ::= f |>" := (upd field f r)
  (at level 12, f at next level, left associativity) : mcu_scope.
Notation "r <| field := v |>" := (upd field (fun _ => v) r)
  (at level 12, left associativity) : mcu_scope.

(** ** Reachability

    Reflexive-transitive closure of a step relation, with invariants by rule
    induction. *)

Section reach.
Context {S : Type} (step : S -> S -> Prop).

Inductive reach (s : S) : S -> Prop :=
| reach_refl : reach s s
| reach_step t u : reach s t -> step t u -> reach s u.

Lemma reach_invariant (I : S -> Prop) s t :
  I s -> (forall a b, I a -> step a b -> I b) -> reach s t -> I t.
Proof. induction 3; eauto. Qed.

Lemma reach_trans s t u : reach s t -> reach t u -> reach s u.
Proof. induction 2; eauto using reach. Qed.
End reach.

#[export] Hint Constructors reach : core.
