(* ===== verification/Double.v ===== *)
(** * Double precision arithmetic

    The host code computes with C doubles.  [DoubleOps] lists the operations it
    uses; definitions that use doubles are generic in it.  Two instances: the
    IEEE 754 binary64 format of [SpecFloat] (53-bit mantissa, round to nearest
    even), on which the models run bit for bit, and the real numbers, on which
    properties of the formulas themselves are proved. *)

From S2P Require Import Prelude.
From Stdlib Require Import Reals Lra SpecFloat.

Class DoubleOps (D : Type) := {
  dadd : D -> D -> D;
  dsub : D -> D -> D;
  dmul : D -> D -> D;
  ddiv : D -> D -> D;
  dopp : D -> D;
  dabs : D -> D;
  dsqrt : D -> D;
  dltb : D -> D -> bool;
  dleb : D -> D -> bool;
  deqb : D -> D -> bool;
  dofZ : Z -> D;
  dtruncZ : D -> Z;
}.

Declare Scope double_scope.
Delimit Scope double_scope with D.
Infix "+" := dadd : double_scope.
Infix "-" := dsub : double_scope.
Infix "*" := dmul : double_scope.
Infix "/" := ddiv : double_scope.
Notation "- x" := (dopp x) : double_scope.
Infix "<?" := dltb : double_scope.
Infix "<=?" := dleb : double_scope.
Infix "=?" := deqb : double_scope.

Section literals.
Context {D : Type} `{DoubleOps D}.

(** A decimal literal [n / 10^k]: for the literals of the code both integers are
    exact doubles, so the quotient is the correctly rounded literal. *)
Definition dlit (n d : Z) : D := ddiv (dofZ n) (dofZ d).
Definition dzero : D := dofZ 0.

(** C truth value of a double. *)
Definition dnz (x : D) : bool := negb (deqb x dzero).
End literals.

(** ** IEEE 754 binary64 *)

Definition binary64 := spec_float.

Definition b64_trunc (x : spec_float) : Z :=
  match x with
  | S754_finite s m e =>
      let a := if 0 <=? e then Zpos m * 2 ^ e else Zpos m / 2 ^ (- e) in
      if s then - a else a
  | _ => 0
  end.

#[export] Instance binary64_ops : DoubleOps binary64 := {
  dadd := SFadd 53 1024;
  dsub := SFsub 53 1024;
  dmul := SFmul 53 1024;
  ddiv := SFdiv 53 1024;
  dopp := SFopp;
  dabs := SFabs;
  dsqrt := SFsqrt 53 1024;
  dltb := SFltb;
  dleb := SFleb;
  deqb := SFeqb;
  dofZ z := binary_normalize 53 1024 z 0 false;
  dtruncZ := b64_trunc;
}.

(** ** Real numbers *)

(** Truncation toward zero. *)
Definition R_trunc (x : R) : Z :=
  if Rlt_dec x 0 then (- (up (- x) - 1))%Z else (up x - 1)%Z.

#[export] Instance real_ops : DoubleOps R := {
  dadd := Rplus;
  dsub := Rminus;
  dmul := Rmult;
  ddiv := Rdiv;
  dopp := Ropp;
  dabs := Rabs;
  dsqrt := sqrt;
  dltb x y := if Rlt_dec x y then true else false;
  dleb x y := if Rle_dec x y then true else false;
  deqb x y := if Req_dec_T x y then true else false;
  dofZ := IZR;
  dtruncZ := R_trunc;
}.

Lemma up_unique (x : R) (n : Z) : (IZR n <= x < IZR n + 1)%R -> up x = (n + 1)%Z.
Proof.
  intros [H1 H2]. symmetry. apply tech_up; rewrite plus_IZR; lra.
Qed.

Lemma R_trunc_pos (x : R) (n : Z) :
  (0 <= n)%Z -> (IZR n <= x < IZR n + 1)%R -> R_trunc x = n.
Proof.
  intros Hn Hx. unfold R_trunc. apply IZR_le in Hn.
  destruct (Rlt_dec x 0); [lra|]. rewrite (up_unique x n) by done. lia.
Qed.

Lemma R_trunc_neg (x : R) (n : Z) :
  (n <= 0)%Z -> (x < 0)%R -> (IZR n - 1 < x <= IZR n)%R -> R_trunc x = n.
Proof.
  intros Hn H0 Hx. unfold R_trunc. destruct (Rlt_dec x 0); [|lra].
  rewrite (up_unique (- x) (- n)) by (rewrite opp_IZR; lra). lia.
Qed.

(** The literal 0.1 is the double 0x1.999999999999ap-4. *)
Example b64_tenth : dlit (D := binary64) 1 10 = S754_finite false 7205759403792794 (-56).
Proof. reflexivity. Qed.
