(* ===== verification/Wire.v ===== *)
(** * Wire primitives of the micro-controller side

    [encode_int] and [parse_int] of src/command.c (variable length quantities)
    and [crc16_ccitt] of src/generic/crc16_ccitt.c.  A pointer into a buffer is
    the list of bytes from that address to the end of the buffer; [None] is a
    read past the end of the buffer. *)

From S2P Require Import Prelude.

(** ** Variable length quantities *)

(** [encode_int]: the bytes written at [p], most significant first.  The C
    code jumps into a chain of stores at the label selected by the signed value;
    [f4] .. [f1] are the stores from that label on. *)
Definition encode_int (v : Z) : list Z :=
  let sv := i32 v in
  let f4 := [u8 (Z.land v 127)] in
  let f3 := u8 (Z.lor (Z.land (Z.shiftr v 7) 127) 128) :: f4 in
  let f2 := u8 (Z.lor (Z.land (Z.shiftr v 14) 127) 128) :: f3 in
  let f1 := u8 (Z.lor (Z.land (Z.shiftr v 21) 127) 128) :: f2 in
  if (sv <? Z.shiftl 3 5) && (- Z.shiftl 1 5 <=? sv) then f4
  else if (sv <? Z.shiftl 3 12) && (- Z.shiftl 1 12 <=? sv) then f3
  else if (sv <? Z.shiftl 3 19) && (- Z.shiftl 1 19 <=? sv) then f2
  else if (sv <? Z.shiftl 3 26) && (- Z.shiftl 1 26 <=? sv) then f1
  else u8 (Z.lor (Z.shiftr v 28) 128) :: f1.

(** The [while (c & 0x80)] loop of [parse_int], entered with the value so far. *)
Fixpoint parse_int_loop (v : Z) (p : list Z) : option (Z * list Z) :=
  match p with
  | [] => None
  | c :: p' =>
      let v' := u32 (Z.lor (Z.shiftl v 7) (Z.land c 127)) in
      if has c 128 then parse_int_loop v' p' else Some (v', p')
  end.

Definition parse_int (pp : list Z) : option (Z * list Z) :=
  match pp with
  | [] => None
  | c :: p =>
      let v := Z.land c 127 in
      let v := if Z.land c 96 =? 96 then Z.lor v (u32 (- 32)) else v in
      if has c 128 then parse_int_loop v p else Some (v, p)
  end.

(** ** CRC-16 CCITT *)

(** One iteration of the loop of [crc16_ccitt]. *)
Definition crc16_step (crc data : Z) : Z :=
  let data := u8 (Z.lxor data (Z.land crc 255)) in
  let data := u8 (Z.lxor data (Z.shiftl data 4)) in
  u16 (Z.lxor (Z.lxor (Z.lor (Z.shiftl data 8) (Z.shiftr crc 8))
                      (u8 (Z.shiftr data 4)))
              (Z.shiftl data 3)).

Definition crc16_ccitt (buf : list Z) (len : Z) : Z :=
  fold_left crc16_step (takeZ len buf) 65535.

(** ** Reference definitions *)

(** The value a VLQ byte string denotes: base 128, with the digit range of the
    first byte shifted to -32 .. 95. *)
Definition vlq_first (d : Z) : Z := if 96 <=? d then d - 128 else d.

Fixpoint vlq_value (acc : Z) (digits : list Z) : Z :=
  match digits with
  | [] => acc
  | d :: ds => vlq_value (acc * 128 + d) ds
  end.

(** Bit-serial CRC with the reflected CCITT polynomial x^16 + x^12 + x^5 + 1. *)
Definition crc_bit (crc : Z) : Z :=
  if Z.odd crc then Z.lxor (Z.shiftr crc 1) 33800 else Z.shiftr crc 1.

Definition crc_byte_ref (crc data : Z) : Z :=
  Nat.iter 8 crc_bit (Z.lxor crc data).

Definition crc16_ref (buf : list Z) : Z := fold_left crc_byte_ref buf 65535.

(** ** VLQ lemmas *)

Lemma low7_tag z : 0 <= z < 128 -> u8 (Z.lor z 128) = z + 128.
Proof.
  intros Hz. apply Z.eqb_eq.
  apply (forall_below 128 (fun z => u8 (Z.lor z 128) =? z + 128)); [by vm_compute|lia].
Qed.

Lemma low7_plain z : 0 <= z < 256 -> has z 128 = (128 <=? z).
Proof.
  intros Hz. apply eqb_true_iff.
  apply (forall_byte (fun z => eqb (has z 128) (128 <=? z))); [by vm_compute|lia].
Qed.

Lemma sign_tag z :
  0 <= z < 256 -> (Z.land z 96 =? 96) = (96 <=? z mod 128).
Proof.
  intros Hz. apply eqb_true_iff.
  apply (forall_byte (fun z => eqb (Z.land z 96 =? 96) (96 <=? z mod 128)));
    [by vm_compute|lia].
Qed.

Lemma sign_extend d : 96 <= d < 128 -> Z.lor d (u32 (- 32)) = u32 (d - 128).
Proof.
  intros Hd. apply Z.eqb_eq.
  assert (Hk : (d <? 96) || (Z.lor d (u32 (- 32)) =? u32 (d - 128)) = true).
  { apply (forall_below 128 (fun d => (d <? 96) || (Z.lor d (u32 (- 32)) =? u32 (d - 128))));
      [by vm_compute|lia]. }
  apply orb_true_iff in Hk as [Hk%Z.ltb_lt|]; [lia|done].
Qed.

Lemma shift_digit v d :
  0 <= d < 128 -> u32 (Z.lor (Z.shiftl v 7) d) = u32 (v * 128 + d).
Proof. intros Hd. by rewrite (lor_shiftl_add v 7) by lia. Qed.

(** Accumulating digits commutes with reduction to 32 bits. *)
Lemma vlq_value_wrap l z : u32 (vlq_value (u32 z) l) = u32 (vlq_value z l).
Proof.
  revert z. induction l as [|y l IH]; intros z; simpl; [wrap_lia|].
  rewrite <- IH, <- (IH (z * 128 + y)). do 2 f_equal. wrap_lia.
Qed.

(** Continuation bytes carry the tag 128, the last byte does not. *)
Lemma parse_loop_digits ds d rest v :
  Forall (fun x => 0 <= x < 128) ds -> 0 <= d < 128 ->
  parse_int_loop v (map (fun x => x + 128) ds ++ d :: rest)
  = Some (u32 (vlq_value v (ds ++ [d])), rest).
Proof.
  intros Hds Hd. revert v. induction Hds as [|x ds Hx Hds IH]; intros v; simpl.
  - rewrite low7_plain, land_mask7 by lia.
    destruct (Z.leb_spec 128 d); [lia|]. by rewrite Z.mod_small, shift_digit by lia.
  - rewrite low7_plain, land_mask7 by lia.
    destruct (Z.leb_spec 128 (x + 128)); [|lia].
    replace ((x + 128) mod 128) with x by (Z.div_mod_to_equations; lia).
    rewrite shift_digit, IH by lia. by rewrite vlq_value_wrap.
Qed.

Lemma parse_digits d0 ds d rest :
  Forall (fun x => 0 <= x < 128) (d0 :: ds) -> 0 <= d < 128 ->
  parse_int (map (fun x => x + 128) (d0 :: ds) ++ d :: rest)
  = Some (u32 (vlq_value (vlq_first d0) (ds ++ [d])), rest).
Proof.
  intros Hds Hd. inversion Hds as [|? ? H0 Hds']; subst. simpl.
  rewrite low7_plain, land_mask7, sign_tag by lia.
  destruct (Z.leb_spec 128 (d0 + 128)); [|lia].
  replace ((d0 + 128) mod 128) with d0 by (Z.div_mod_to_equations; lia).
  rewrite parse_loop_digits by done. unfold vlq_first.
  destruct (Z.leb_spec 96 d0); [|done]. by rewrite sign_extend, vlq_value_wrap by lia.
Qed.

(** The seven-bit digit of a 32-bit value at bit [k]. *)
Definition digit (v k : Z) : Z := (v / 2 ^ k) mod 128.

Lemma digit_range v k : 0 <= digit v k < 128.
Proof. apply Z.mod_pos_bound. lia. Qed.
#[local] Hint Resolve digit_range : core.

Lemma store_last v : u8 (Z.land v 127) = digit v 0.
Proof. rewrite land_mask7. unfold digit. rewrite Z.div_1_r. wrap_lia. Qed.

Lemma store_digit v k :
  0 <= k -> u8 (Z.lor (Z.land (Z.shiftr v k) 127) 128) = digit v k + 128.
Proof.
  intros. rewrite land_mask7, shiftr_div by done.
  apply low7_tag, Z.mod_pos_bound. lia.
Qed.

Lemma store_top v :
  0 <= v < 4294967296 -> u8 (Z.lor (Z.shiftr v 28) 128) = digit v 28 + 128.
Proof.
  intros. rewrite shiftr_div by done. unfold digit.
  assert (0 <= v / 2 ^ 28 < 16) by (Z.div_mod_to_equations; lia).
  rewrite low7_tag, Z.mod_small by lia. done.
Qed.

(** How many leading digits a value needs, from the ranges the code tests. *)
Definition vlq_lead (sv : Z) : list Z :=
  if (-32 <=? sv) && (sv <? 96) then []
  else if (-4096 <=? sv) && (sv <? 12288) then [7]
  else if (-524288 <=? sv) && (sv <? 1572864) then [14; 7]
  else if (-67108864 <=? sv) && (sv <? 201326592) then [21; 14; 7]
  else [28; 21; 14; 7].

Lemma encode_int_digits v :
  0 <= v < 4294967296 ->
  encode_int v
  = map (fun x => x + 128) (map (digit v) (vlq_lead (i32 v))) ++ [digit v 0].
Proof.
  intros Hv. unfold encode_int, vlq_lead.
  rewrite store_last, !store_digit, store_top by lia.
  change (Z.shiftl 3 5) with 96. change (Z.shiftl 1 5) with 32.
  change (Z.shiftl 3 12) with 12288. change (Z.shiftl 1 12) with 4096.
  change (Z.shiftl 3 19) with 1572864. change (Z.shiftl 1 19) with 524288.
  change (Z.shiftl 3 26) with 201326592. change (Z.shiftl 1 26) with 67108864.
  rewrite !(andb_comm (_ <? _)).
  change (- (32)) with (-32). change (- (4096)) with (-4096).
  change (- (524288)) with (-524288). change (- (67108864)) with (-67108864).
  repeat (case_match; [done|]). done.
Qed.

Lemma digit_i32 v k :
  k ∈ [0; 7; 14; 21] -> digit (i32 v) k = digit v k.
Proof. unfold digit. intros H. set_unfold. destruct_or!; subst; wrap_lia. Qed.

(** The leading digit of a value in range is its quotient, sign included. *)
Lemma first_digit sv k :
  0 <= k -> - (32 * 2 ^ k) <= sv < 96 * 2 ^ k ->
  vlq_first (digit sv k) = sv / 2 ^ k.
Proof.
  intros Hk Hsv. assert (0 < 2 ^ k) by (apply Z.pow_pos_nonneg; lia).
  assert (-32 <= sv / 2 ^ k < 96) as Hq.
  { split; [apply Z.div_le_lower_bound|apply Z.div_lt_upper_bound]; lia. }
  unfold vlq_first, digit. revert Hq. generalize (sv / 2 ^ k). intros q Hq.
  zcases; Z.div_mod_to_equations; lia.
Qed.

(** One Horner step: appending the next digit down refines the quotient. *)
Lemma next_digit sv k :
  0 <= k -> sv / 2 ^ (k + 7) * 128 + digit sv k = sv / 2 ^ k.
Proof.
  intros Hk. unfold digit. rewrite Z.pow_add_r, <- Z.div_div by lia.
  change (2 ^ 7) with 128. rewrite (Z.div_mod (sv / 2 ^ k) 128) at 3 by lia. lia.
Qed.

(** The digits of [v] denote [v]. *)
Lemma lead_value v :
  0 <= v < 4294967296 ->
  match map (digit v) (vlq_lead (i32 v)) with
  | [] => vlq_first (digit v 0) = i32 v
  | d :: ds => u32 (vlq_value (vlq_first d) (ds ++ [digit v 0])) = v
  end.
Proof.
  intros Hv. assert (u32 (i32 v) = v) as Hu by wrap_lia.
  pose proof (next_digit (i32 v) 0 ltac:(lia)) as H0.
  pose proof (next_digit (i32 v) 7 ltac:(lia)) as H7.
  pose proof (next_digit (i32 v) 14 ltac:(lia)) as H14.
  change (0 + 7) with 7 in H0. change (7 + 7) with 14 in H7.
  change (14 + 7) with 21 in H14.
  unfold vlq_lead.
  repeat match goal with |- context [if ?b then _ else _] => destruct b eqn:? end;
    simpl.
  5: { clear - Hv. unfold vlq_first, digit. zcases; [wrap_lia|].
    rewrite u32_small; Z.div_mod_to_equations; lia. }
  all: match goal with
    | H : _ && _ = true |- _ => apply andb_true_iff in H as [?%Z.leb_le ?%Z.ltb_lt]
    end; rewrite <- ?(digit_i32 v 0), <- ?(digit_i32 v 7), <- ?(digit_i32 v 14),
      <- ?(digit_i32 v 21) by set_solver;
    rewrite first_digit by lia; rewrite ?H14, ?H7, ?H0;
    change (2 ^ 0) with 1; rewrite Z.div_1_r; done.
Qed.

Lemma parse_encode_int v rest :
  0 <= v < 4294967296 -> parse_int (encode_int v ++ rest) = Some (v, rest).
Proof.
  intros Hv. rewrite encode_int_digits by done. pose proof (lead_value v Hv) as Hl.
  assert (Forall (fun x => 0 <= x < 128) (map (digit v) (vlq_lead (i32 v)))) as HF
    by (apply Forall_map, Forall_true; done).
  destruct (map (digit v) (vlq_lead (i32 v))) as [|d ds].
  - simpl. pose proof (digit_range v 0).
    rewrite low7_plain, land_mask7, sign_tag, Z.mod_small by lia.
    destruct (Z.leb_spec 128 (digit v 0)); [lia|]. unfold vlq_first in Hl.
    assert (u32 (i32 v) = v) as Hu by wrap_lia.
    destruct (Z.leb_spec 96 (digit v 0)).
    + by rewrite sign_extend, Hl, Hu by lia.
    + rewrite <- Hl, u32_small in Hu by lia. by rewrite Hu.
  - rewrite <- app_assoc. change ([digit v 0] ++ rest) with (digit v 0 :: rest).
    rewrite parse_digits by done. by rewrite Hl.
Qed.

Lemma encode_int_bytes v : 0 <= v < 4294967296 -> bytes (encode_int v).
Proof.
  intros Hv. rewrite encode_int_digits by done. apply bytes_app. split.
  - apply Forall_map, Forall_map, Forall_true. intros k.
    pose proof (digit_range v k). lia.
  - constructor; [|done]. pose proof (digit_range v 0). lia.
Qed.

Lemma encode_int_length v :
  0 <= v < 4294967296 -> zlen (encode_int v) = 1 + zlen (vlq_lead (i32 v)).
Proof.
  intros Hv. rewrite encode_int_digits, zlen_app by done.
  unfold zlen. rewrite !length_map. simpl. lia.
Qed.

Lemma encode_int_length_bound v :
  0 <= v < 4294967296 -> 1 <= zlen (encode_int v) <= 5.
Proof.
  intros Hv. rewrite encode_int_length by done. unfold vlq_lead.
  repeat case_match; unfold zlen; simpl; lia.
Qed.

(** ** CRC lemmas *)

Lemma u16_land z : u16 z = Z.land z 65535.
Proof. change 65535 with (Z.ones 16). by rewrite Z.land_ones. Qed.

Lemma lxor_land_distr a b m :
  Z.land (Z.lxor a b) m = Z.lxor (Z.land a m) (Z.land b m).
Proof.
  apply Z.bits_inj'; intros i Hi. rewrite !Z.land_spec, !Z.lxor_spec, !Z.land_spec.
  by destruct (Z.testbit a i), (Z.testbit b i), (Z.testbit m i).
Qed.

Lemma lxor_byte a b : 0 <= a < 256 -> 0 <= b < 256 -> 0 <= Z.lxor a b < 256.
Proof.
  intros Ha Hb. split; [apply Z.lxor_nonneg; lia|].
  assert (Z.lxor a b = Z.lxor a b mod 256) as ->; [|apply Z.mod_pos_bound; lia].
  rewrite <- land_mask8, lxor_land_distr, !land_mask8, !Z.mod_small by lia. done.
Qed.

(** The per-byte table of a table-driven CRC, computed by the code's own step. *)
Definition crc_tab (i : Z) : Z := crc16_step i 0.

Lemma crc16_step_tab c d :
  0 <= c < 65536 -> 0 <= d < 256 ->
  crc16_step c d = Z.lxor (c / 256) (crc_tab (Z.lxor d (c mod 256))).
Proof.
  intros Hc Hd. unfold crc_tab, crc16_step. rewrite !land_mask8, !Z.lxor_0_l.
  set (x := Z.lxor d (c mod 256)).
  assert (0 <= x < 256) as Hx.
  { apply lxor_byte; [done|]. apply Z.mod_pos_bound. lia. }
  rewrite (Z.mod_small x), !(u8_small x) by lia.
  set (y := u8 (Z.lxor x (Z.shiftl x 4))).
  rewrite !shiftr_div by lia. change (2 ^ 8) with 256.
  assert (0 <= c / 256 < 256) by (Z.div_mod_to_equations; lia).
  rewrite (Z.div_small x) by lia. rewrite Z.lor_0_r.
  rewrite lor_shiftl_lxor by lia.
  rewrite !u16_land, !lxor_land_distr.
  rewrite <- (u16_land (c / 256)), (u16_small (c / 256)) by lia.
  rewrite (Z.lxor_comm (Z.land (Z.shiftl y 8) 65535)), !Z.lxor_assoc. done.
Qed.

Lemma crc_tab_range i : 0 <= crc_tab i < 65536.
Proof. unfold crc_tab, crc16_step. apply u16_range. Qed.

Lemma crc16_step_range c d : 0 <= crc16_step c d < 65536.
Proof. apply u16_range. Qed.

(** One bit of the reference moves a value above the shifted-out bit along. *)
Lemma crc_bit_shift a b :
  crc_bit (Z.lxor a (2 * b)) = Z.lxor (crc_bit a) b.
Proof.
  unfold crc_bit.
  assert (Z.odd (Z.lxor a (2 * b)) = Z.odd a) as ->.
  { rewrite <- !Z.bit0_odd, Z.lxor_spec, !Z.bit0_odd, Z.odd_mul.
    by rewrite andb_false_l, xorb_false_r. }
  assert (Z.shiftr (Z.lxor a (2 * b)) 1 = Z.lxor (Z.shiftr a 1) b) as ->.
  { rewrite Z.shiftr_lxor. f_equal. rewrite shiftr_div by lia.
    rewrite Z.mul_comm. by apply Z.div_mul. }
  destruct (Z.odd a); [|done].
  by rewrite !Z.lxor_assoc, (Z.lxor_comm b).
Qed.

Lemma crc_bits_shift n a b :
  Nat.iter n crc_bit (Z.lxor a (b * 2 ^ Z.of_nat n))
  = Z.lxor (Nat.iter n crc_bit a) b.
Proof.
  revert b. induction n as [|n IH]; intros b.
  - simpl. by rewrite Z.mul_1_r.
  - rewrite Nat2Z.inj_succ, Z.pow_succ_r, Z.mul_assoc by lia. simpl.
    rewrite IH, (Z.mul_comm b 2). apply crc_bit_shift.
Qed.

Lemma crc_byte_ref_tab c d :
  0 <= c < 65536 -> 0 <= d < 256 ->
  crc_byte_ref c d
  = Z.lxor (c / 256) (Nat.iter 8 crc_bit (Z.lxor d (c mod 256))).
Proof.
  intros Hc Hd. unfold crc_byte_ref. rewrite Z.lxor_comm.
  rewrite (Z.div_mod c 256) at 1 by lia.
  assert (256 * (c / 256) + c mod 256
          = Z.lxor (c mod 256) (c / 256 * 2 ^ Z.of_nat 8)) as ->.
  { change (2 ^ Z.of_nat 8) with (2 ^ 8).
    rewrite <- Z.shiftl_mul_pow2, Z.lxor_comm by lia.
    pose proof (Z.mod_pos_bound c 256 ltac:(lia)).
    rewrite <- lor_shiftl_lxor, (lor_shiftl_add _ 8) by lia.
    change (2 ^ 8) with 256. lia. }
  rewrite <- Z.lxor_assoc, crc_bits_shift. apply Z.lxor_comm.
Qed.

Lemma crc_tab_ref i : 0 <= i < 256 -> crc_tab i = Nat.iter 8 crc_bit i.
Proof.
  intros Hi. apply Z.eqb_eq.
  apply (forall_byte (fun i => crc_tab i =? Nat.iter 8 crc_bit i)); [|done].
  by vm_compute.
Qed.

Lemma crc16_step_ref c d :
  0 <= c < 65536 -> 0 <= d < 256 -> crc16_step c d = crc_byte_ref c d.
Proof.
  intros Hc Hd. rewrite crc16_step_tab, crc_byte_ref_tab, crc_tab_ref; try done.
  apply lxor_byte; [done|]. apply Z.mod_pos_bound. lia.
Qed.

Lemma crc_fold_range l c : 0 <= c < 65536 -> 0 <= fold_left crc16_step l c < 65536.
Proof.
  revert c. induction l; intros c Hc; [done|]. simpl. apply IHl, crc16_step_range.
Qed.

Lemma crc16_range buf len : 0 <= crc16_ccitt buf len < 65536.
Proof. apply crc_fold_range. lia. Qed.

(** The high byte of the table determines the index. *)
Definition tab_inv (h : Z) : Z :=
  match list_find (fun x => x / 256 = h) (map crc_tab (seqZ 0 256)) with
  | Some (i, _) => Z.of_nat i
  | None => 0
  end.

Lemma tab_inv_spec i : 0 <= i < 256 -> tab_inv (crc_tab i / 256) = i.
Proof.
  intros Hi. apply Z.eqb_eq.
  apply (forall_byte (fun i => tab_inv (crc_tab i / 256) =? i)); [|done].
  by vm_compute.
Qed.

Lemma lxor_hi a b : 0 <= a < 256 -> Z.lxor a b / 256 = b / 256.
Proof.
  intros Ha. change 256 with (2 ^ 8). rewrite <- !shiftr_div, Z.shiftr_lxor by lia.
  rewrite (shiftr_div a), Z.div_small by lia. apply Z.lxor_0_l.
Qed.

(** The step determines both the table index and the upper half of the state. *)
Lemma crc16_step_inj c1 d1 c2 d2 :
  0 <= c1 < 65536 -> 0 <= c2 < 65536 -> 0 <= d1 < 256 -> 0 <= d2 < 256 ->
  crc16_step c1 d1 = crc16_step c2 d2 ->
  Z.lxor d1 (c1 mod 256) = Z.lxor d2 (c2 mod 256) /\ c1 / 256 = c2 / 256.
Proof.
  intros Hc1 Hc2 Hd1 Hd2. rewrite !crc16_step_tab by done. intros He.
  assert (Hx : forall c d, 0 <= c < 65536 -> 0 <= d < 256 ->
    0 <= Z.lxor d (c mod 256) < 256).
  { intros. apply lxor_byte; [done|]. apply Z.mod_pos_bound. lia. }
  assert (Z.lxor d1 (c1 mod 256) = Z.lxor d2 (c2 mod 256)) as Hi.
  { rewrite <- (tab_inv_spec (Z.lxor d1 _)), <- (tab_inv_spec (Z.lxor d2 _)) by auto.
    f_equal. rewrite <- (lxor_hi (c1 / 256) (crc_tab _)), He, lxor_hi; [done|..];
      Z.div_mod_to_equations; lia. }
  split; [done|]. rewrite Hi in He.
  rewrite <- (Z.lxor_0_r (c1 / 256)), <- (Z.lxor_nilpotent (crc_tab (Z.lxor d2 (c2 mod 256)))).
  rewrite <- Z.lxor_assoc, He, Z.lxor_assoc, Z.lxor_nilpotent. apply Z.lxor_0_r.
Qed.

Lemma lxor_cancel_r a b c : Z.lxor a c = Z.lxor b c -> a = b.
Proof.
  intros H. rewrite <- (Z.lxor_0_r a), <- (Z.lxor_nilpotent c), <- Z.lxor_assoc, H.
  by rewrite Z.lxor_assoc, Z.lxor_nilpotent, Z.lxor_0_r.
Qed.

Lemma lxor_cancel_l a b c : Z.lxor c a = Z.lxor c b -> a = b.
Proof. rewrite !(Z.lxor_comm c). apply lxor_cancel_r. Qed.

Lemma crc_fold_inj l c1 c2 :
  bytes l -> 0 <= c1 < 65536 -> 0 <= c2 < 65536 ->
  fold_left crc16_step l c1 = fold_left crc16_step l c2 -> c1 = c2.
Proof.
  revert c1 c2. induction l as [|d l IH]; intros c1 c2 Hl Hc1 Hc2 He; [done|].
  inversion Hl; subst. simpl in He.
  apply IH in He; [|done|apply crc16_step_range..].
  apply crc16_step_inj in He as [Hx Hq]; try done. apply lxor_cancel_l in Hx.
  Z.div_mod_to_equations. lia.
Qed.

Lemma crc_two_bytes c x y x' y' :
  0 <= c < 65536 -> bytes [x; y; x'; y'] ->
  crc16_step (crc16_step c x) y = crc16_step (crc16_step c x') y' ->
  x = x' /\ y = y'.
Proof.
  intros Hc Hb He. unfold bytes in Hb. rewrite !Forall_cons in Hb.
  destruct Hb as (Hx & Hy & Hx' & Hy' & _).
  pose proof (crc16_step_range c x). pose proof (crc16_step_range c x').
  apply crc16_step_inj in He as [He Hq]; try done.
  rewrite !crc16_step_tab, !lxor_hi in Hq; try (done || (Z.div_mod_to_equations; lia)).
  assert (x = x') as <-.
  { apply (lxor_cancel_r _ _ (c mod 256)).
    rewrite <- (tab_inv_spec (Z.lxor x _)), <- (tab_inv_spec (Z.lxor x' _)), Hq; [done|..];
      (apply lxor_byte; [done|]; apply Z.mod_pos_bound; lia). }
  split; [done|]. by apply lxor_cancel_r in He.
Qed.

(** Altering two adjacent bytes of a message changes its CRC. *)
Lemma crc_burst a x y x' y' b c :
  bytes a -> bytes b -> bytes [x; y; x'; y'] -> (x, y) <> (x', y') ->
  0 <= c < 65536 ->
  fold_left crc16_step (a ++ x :: y :: b) c
  <> fold_left crc16_step (a ++ x' :: y' :: b) c.
Proof.
  intros Ha Hb Hxy Hne Hc He. rewrite !fold_left_app in He. simpl in He.
  apply crc_fold_inj in He; [|done|apply crc16_step_range..].
  apply crc_two_bytes in He as [-> ->]; [done| |done].
  by apply crc_fold_range.
Qed.

(** ** Properties *)

(** every 32-bit value survives VLQ encoding and decoding, whatever follows it
    in the buffer; the encoding is a string of 1 to 5 bytes whose length is
    determined by the signed value (so the unsigned 4294967295 takes one byte). *)
Theorem vlq_roundtrip v rest :
  0 <= v < 4294967296 ->
  parse_int (encode_int v ++ rest) = Some (v, rest) /\
  bytes (encode_int v) /\
  zlen (encode_int v) =
    (let sv := i32 v in
     if (-32 <=? sv) && (sv <=? 95) then 1
     else if (-4096 <=? sv) && (sv <=? 12287) then 2
     else if (-524288 <=? sv) && (sv <=? 1572863) then 3
     else if (-67108864 <=? sv) && (sv <=? 201326591) then 4 else 5).
Proof.
  intros Hv. split_and!; [by apply parse_encode_int|by apply encode_int_bytes|].
  rewrite encode_int_length by done. unfold vlq_lead. cbv zeta.
  zcases; simpl; unfold zlen; simpl; lia.
Qed.

Lemma vlq_roundtrip_witness :
  parse_int (encode_int 4294967295 ++ [1]) = Some (4294967295, [1]) /\
  encode_int 4294967295 = [127].
Proof.
  split; [|reflexivity]. apply (vlq_roundtrip 4294967295 [1]). lia.
Defined.

(** C40: the byte-at-a-time [crc16_ccitt] computes the bit-serial CRC with the
    reflected CCITT polynomial and initial value 0xffff. *)
Theorem crc16_matches_reference buf len :
  bytes buf -> crc16_ccitt buf len = crc16_ref (takeZ len buf).
Proof.
  intros Hb. unfold crc16_ccitt, crc16_ref.
  assert (bytes (takeZ len buf)) as Ht by by apply bytes_take.
  assert (0 <= 65535 < 65536) as Hc by lia. revert Hc.
  generalize 65535. induction Ht as [|d l Hd Hl IH]; intros c Hc; [done|].
  simpl. rewrite IH by apply crc16_step_range. by rewrite crc16_step_ref.
Qed.

(** The check value of CRC-16/MCRF4XX over the digits 1 to 9. *)
Lemma crc16_matches_reference_witness :
  crc16_ccitt [49; 50; 51; 52; 53; 54; 55; 56; 57] 9 = 28561 /\
  crc16_ccitt [49; 50; 51; 52; 53; 54; 55; 56; 57] 9
  = crc16_ref (takeZ 9 [49; 50; 51; 52; 53; 54; 55; 56; 57]).
Proof.
  split; [reflexivity|]. apply crc16_matches_reference.
  repeat (constructor; [lia|]). constructor.
Defined.
