(* ===== verification/Command.v ===== *)
(** * Command parsing and message encoding of the micro-controller

    src/command.c and the constants and structures of src/command.h.  The
    receive buffer is the list of the bytes received so far; a position in it is
    an integer offset.  The console, the scheduler and the generated command
    table are parameters of the module ([CommandEnv]): board and build specific
    code supplies them. *)

From S2P Require Import Prelude Wire.

(** ** Constants of command.h *)

Definition MESSAGE_MIN : Z := 5.
Definition MESSAGE_MAX : Z := 64.
Definition MESSAGE_HEADER_SIZE : Z := 2.
Definition MESSAGE_TRAILER_SIZE : Z := 3.
Definition MESSAGE_POS_LEN : Z := 0.
Definition MESSAGE_POS_SEQ : Z := 1.
Definition MESSAGE_TRAILER_CRC : Z := 3.
Definition MESSAGE_TRAILER_SYNC : Z := 1.
Definition MESSAGE_PAYLOAD_MAX : Z := MESSAGE_MAX - MESSAGE_MIN.
Definition MESSAGE_SEQ_MASK : Z := 15.
Definition MESSAGE_DEST : Z := 16.
Definition MESSAGE_SYNC : Z := 126.
Definition HF_IN_SHUTDOWN : Z := 1.

(** Parameter types of commands and responses. *)
Inductive ptype : Type :=
| PT_uint32 | PT_int32 | PT_uint16 | PT_int16 | PT_byte
| PT_string | PT_progmem_buffer | PT_buffer.

#[export] Instance ptype_eq_dec : EqDecision ptype.
Proof. solve_decision. Defined.

Record command_encoder := {
  ce_msg_id : Z;
  ce_max_size : Z;
  ce_param_types : list ptype;
}.

(** The variadic arguments of [sendf]: an integer, a NUL terminated string, or
    a length followed by a pointer to the data. *)
Inductive va_arg : Type :=
| VA_int (v : Z)
| VA_string (s : list Z)
| VA_buffer (len : Z) (s : list Z).

Record command_parser (W : Type) := {
  cp_num_args : Z;
  cp_flags : Z;
  cp_param_types : list ptype;
  cp_func : list Z -> M W unit;
}.
Arguments cp_num_args {W}.
Arguments cp_flags {W}.
Arguments cp_param_types {W}.
Arguments cp_func {W}.

(** ** State of command.c *)

Record cmd_state := {
  next_sequence : Z;
  in_sendf : Z;
  sync_state : Z;
}.

Definition cmd_init : cmd_state :=
  {| next_sequence := MESSAGE_DEST; in_sendf := 0; sync_state := 0 |}.

Definition set_next_sequence (v : Z) (s : cmd_state) : cmd_state :=
  {| next_sequence := v; in_sendf := in_sendf s; sync_state := sync_state s |}.
Definition set_in_sendf (v : Z) (s : cmd_state) : cmd_state :=
  {| next_sequence := next_sequence s; in_sendf := v; sync_state := sync_state s |}.
Definition set_sync_state (v : Z) (s : cmd_state) : cmd_state :=
  {| next_sequence := next_sequence s; in_sendf := in_sendf s; sync_state := v |}.

(** ** Message encoding *)

(** [command_encode_ptr]: a pointer as a 32-bit command argument, relative to
    the receive buffer on machines with wider pointers. *)
Definition command_encode_ptr (sizeof_size_t base p : Z) : Z :=
  if 4 <? sizeof_size_t then u32 (p - base) else u32 p.

Definition command_decode_ptr (sizeof_size_t base v : Z) : Z :=
  if 4 <? sizeof_size_t then base + v else v.

(** The integer argument fetched by [va_arg] for a parameter of type [t]. *)
Definition va_uint32 (sizeof_int : Z) (t : ptype) (v : Z) : Z :=
  if (sizeof_int <? 4) && bool_decide (t ∈ [PT_uint16; PT_int16; PT_byte])
  then if bool_decide (t = PT_int16) then u32 (i32 (i16 v)) else u16 v
  else u32 v.

(** The parameter loop of [command_encodef]: [out] holds the bytes from the
    header on, so [p - &buf[MESSAGE_HEADER_SIZE]] is [zlen out] and [maxlen] is
    [maxend - &buf[MESSAGE_HEADER_SIZE]]. *)
Fixpoint encode_params (sizeof_int maxlen : Z) (types : list ptype)
    (args : list va_arg) (out : list Z) {W} : M W (list Z) :=
  match types with
  | [] => ret out
  | t :: types' =>
      if maxlen <? zlen out then shutdown "Message encode error"
      else match t, args with
      | (PT_uint32 | PT_int32 | PT_uint16 | PT_int16 | PT_byte), VA_int a :: args' =>
          encode_params sizeof_int maxlen types' args'
            (out ++ encode_int (va_uint32 sizeof_int t a))
      | PT_string, VA_string s :: args' =>
          let data := takeZ (maxlen - (zlen out + 1)) s in
          encode_params sizeof_int maxlen types' args'
            (out ++ u8 (zlen data) :: data)
      | (PT_progmem_buffer | PT_buffer), VA_buffer len s :: args' =>
          let v := u32 len in
          let v := if maxlen - zlen out <? v then maxlen - zlen out else v in
          encode_params sizeof_int maxlen types' args'
            (out ++ u8 v :: takeZ v s)
      | _, _ => stuck
      end
  end.

(** [command_encodef]: the content bytes (between header and trailer) and the
    returned message length. *)
Definition command_encodef {W} (sizeof_int : Z) (ce : command_encoder)
    (args : list va_arg) : M W (Z * list Z) :=
  let max_size := ce_max_size ce in
  if max_size <=? MESSAGE_MIN then ret (max_size, [])
  else
    out <- encode_params sizeof_int (max_size - MESSAGE_MIN) (ce_param_types ce)
             args [ce_msg_id ce] ;;
    ret (MESSAGE_HEADER_SIZE + zlen out + MESSAGE_TRAILER_SIZE, out).

(** [command_add_frame]: header and trailer around the content. *)
Definition command_add_frame (next_sequence msglen : Z) (content : list Z) : list Z :=
  let body := u8 msglen :: next_sequence :: content in
  let crc := crc16_ccitt body (msglen - MESSAGE_TRAILER_SIZE) in
  body ++ [u8 (Z.shiftr crc 8); u8 crc; MESSAGE_SYNC].

(** [encode_acknak]. *)
Definition encode_acknak : command_encoder :=
  {| ce_msg_id := 0; ce_max_size := MESSAGE_MIN; ce_param_types := [] |}.

Definition CF_NEED_SYNC : Z := 1.
Definition CF_NEED_VALID : Z := 2.

(** ** Operations that use the board and the scheduler *)

(** The board's console. *)
Class Console (W : Type) := {
  env_console_sendf : command_encoder -> list va_arg -> M W unit;
}.

(** The scheduler, the interrupt controller and the generated command table. *)
Class CommandEnv (W : Type) := {
  env_console :: Console W;
  env_sched_is_shutdown : M W bool;
  env_sched_report_shutdown : M W unit;
  env_irq_poll : M W unit;
  env_command_index : list (command_parser W);
  env_sizeof_size_t : Z;
  env_receive_base : Z;
}.

Section sendf.
Context {W : Type} `{Part W cmd_state} `{Console W}.

Definition cmd_gets {A} (f : cmd_state -> A) : M W A := gets (fun w => f (part_get w)).
Definition cmd_modify (f : cmd_state -> cmd_state) : M W unit :=
  modify (fun w => part_set (f (part_get w)) w).

(** [command_encode_and_frame]. *)
Definition command_encode_and_frame (sizeof_int : Z) (ce : command_encoder)
    (args : list va_arg) : M W (Z * list Z) :=
  '(msglen, content) <- command_encodef sizeof_int ce args ;;
  seq <- cmd_gets next_sequence ;;
  ret (msglen, command_add_frame seq msglen content).

(** [command_sendf]: dropped when called from an irq during another send. *)
Definition command_sendf (ce : command_encoder) (args : list va_arg) : M W unit :=
  busy <- cmd_gets in_sendf ;;
  if z2b busy then ret tt
  else
    cmd_modify (set_in_sendf 1) ;;
    env_console_sendf ce args ;;
    cmd_modify (set_in_sendf 0).

Definition sendf_shutdown : M W unit := cmd_modify (set_in_sendf 0).
End sendf.

Section command.
Context {W : Type} `{Part W cmd_state} `{CommandEnv W}.

(** [command_parsef]: the new position and the arguments. *)
Fixpoint command_parsef (buf : list Z) (p maxend : Z) (types : list ptype)
    (args : list Z) : M W (Z * list Z) :=
  match types with
  | [] => ret (p, args)
  | t :: types' =>
      if maxend <? p then shutdown "Command parser error"
      else match t with
      | PT_uint32 | PT_int32 | PT_uint16 | PT_int16 | PT_byte =>
          match parse_int (dropZ p buf) with
          | None => stuck
          | Some (v, rest) =>
              command_parsef buf (zlen buf - zlen rest) maxend types' (args ++ [v])
          end
      | PT_buffer =>
          match dropZ p buf with
          | [] => stuck
          | len :: _ =>
              if maxend <? p + 1 + len then shutdown "Command parser error"
              else command_parsef buf (p + 1 + len) maxend types'
                     (args ++ [len; command_encode_ptr env_sizeof_size_t env_receive_base
                                      (env_receive_base + p + 1)])
          end
      | _ => shutdown "Command parser error"
      end
  end.

(** [command_lookup_parser]. *)
Definition command_lookup_parser (cmdid : Z) : M W (command_parser W) :=
  if (cmdid =? 0) || (zlen env_command_index <=? cmdid)
  then shutdown "Invalid command"
  else deref (env_command_index !! Z.to_nat cmdid).

(** The blocks of [command_find_block] behind the labels [nak], [need_sync] and
    [error]; the pair is the return value and [*pop_count]. *)
Definition find_block_nak (pop_count : Z) : M W (Z * Z) :=
  command_sendf encode_acknak [] ;; ret (-1, pop_count).

Definition find_block_need_sync (buf : list Z) : M W (Z * Z) :=
  pop_count <-
    match list_find (fun c => c = MESSAGE_SYNC) buf with
    | Some (i, _) =>
        cmd_modify (fun s => set_sync_state (clear (sync_state s) CF_NEED_SYNC) s) ;;
        ret (Z.of_nat i + 1)
    | None => ret (zlen buf)
    end ;;
  st <- cmd_gets sync_state ;;
  if has st CF_NEED_VALID then ret (-1, pop_count)
  else
    cmd_modify (fun s => set_sync_state (Z.lor (sync_state s) CF_NEED_VALID) s) ;;
    find_block_nak pop_count.

Definition find_block_error (buf : list Z) : M W (Z * Z) :=
  if nthZ buf 0 =? MESSAGE_SYNC then ret (-1, 1)
  else
    cmd_modify (fun s => set_sync_state (Z.lor (sync_state s) CF_NEED_SYNC) s) ;;
    find_block_need_sync buf.

(** [command_find_block] on the [zlen buf] bytes received so far. *)
Definition command_find_block (buf : list Z) : M W (Z * Z) :=
  let buf_len := zlen buf in
  st <- cmd_gets sync_state ;;
  if z2b buf_len && has st CF_NEED_SYNC then find_block_need_sync buf
  else if buf_len <? MESSAGE_MIN then ret (0, 0)
  else
    let msglen := nthZ buf MESSAGE_POS_LEN in
    if (msglen <? MESSAGE_MIN) || (MESSAGE_MAX <? msglen) then find_block_error buf
    else
    let msgseq := nthZ buf MESSAGE_POS_SEQ in
    if negb (clear msgseq MESSAGE_SEQ_MASK =? MESSAGE_DEST) then find_block_error buf
    else if buf_len <? msglen then ret (0, 0)
    else if negb (nthZ buf (msglen - MESSAGE_TRAILER_SYNC) =? MESSAGE_SYNC)
    then find_block_error buf
    else
    let msgcrc := u16 (Z.lor (Z.shiftl (nthZ buf (msglen - MESSAGE_TRAILER_CRC)) 8)
                             (nthZ buf (msglen - MESSAGE_TRAILER_CRC + 1))) in
    let crc := crc16_ccitt buf (msglen - MESSAGE_TRAILER_SIZE) in
    if negb (crc =? msgcrc) then find_block_error buf
    else
      cmd_modify (fun s => set_sync_state (clear (sync_state s) CF_NEED_VALID) s) ;;
      seq <- cmd_gets next_sequence ;;
      if negb (msgseq =? seq) then find_block_nak msglen
      else
        cmd_modify (set_next_sequence
          (Z.lor (Z.land (msgseq + 1) MESSAGE_SEQ_MASK) MESSAGE_DEST)) ;;
        ret (1, msglen).

(** The loop of [command_dispatch]; every iteration consumes a byte, so the
    message length is enough fuel. *)
Fixpoint dispatch_loop (fuel : nat) (buf : list Z) (p msgend : Z) : M W unit :=
  if negb (p <? msgend) then ret tt
  else match fuel with
  | O => stuck
  | S fuel' =>
      cmdid <- deref (buf !! Z.to_nat p) ;;
      cp <- command_lookup_parser cmdid ;;
      '(p, args) <- command_parsef buf (p + 1) msgend (cp_param_types cp) [] ;;
      if cp_num_args cp <? zlen args then stuck
      else
      down <- env_sched_is_shutdown ;;
      if down && negb (has (cp_flags cp) HF_IN_SHUTDOWN)
      then env_sched_report_shutdown ;; dispatch_loop fuel' buf p msgend
      else
        env_irq_poll ;;
        cp_func cp args ;;
        dispatch_loop fuel' buf p msgend
  end.

Definition command_dispatch (buf : list Z) (msglen : Z) : M W unit :=
  dispatch_loop (Z.to_nat msglen) buf MESSAGE_HEADER_SIZE
    (msglen - MESSAGE_TRAILER_SIZE).

Definition command_send_ack : M W unit := command_sendf encode_acknak [].

Definition command_find_and_dispatch (buf : list Z) : M W (Z * Z) :=
  '(r, pop_count) <- command_find_block buf ;;
  if 0 <? r then
    command_dispatch buf pop_count ;;
    command_send_ack ;;
    ret (r, pop_count)
  else ret (r, pop_count).
End command.
