(* ===== verification/CommandFacts.v ===== *)
(** * Correctness of command parsing (src/command.c)

    Frames built by [command_add_frame] are the blocks [command_find_block]
    accepts; corrupted blocks are rejected; the search always makes progress;
    dispatching a block is memory safe and runs the encoded commands. *)

From S2P Require Import Prelude Wire Command.

(** ** Frames *)

(** A message block with the given sequence byte and content. *)
Definition frame (seq : Z) (content : list Z) : list Z :=
  command_add_frame seq (MESSAGE_MIN + zlen content) content.

Definition seq_byte (seq : Z) : Prop := 16 <= seq < 32.

Lemma seq_byte_ok seq : 0 <= seq < 256 -> clear seq MESSAGE_SEQ_MASK = MESSAGE_DEST <-> seq_byte seq.
Proof.
  intros Hs. unfold seq_byte.
  assert (eqb (clear seq 15 =? 16) ((16 <=? seq) && (seq <? 32)) = true) as He.
  { apply (forall_byte (fun s => eqb (clear s 15 =? 16) ((16 <=? s) && (s <? 32))));
      [by vm_compute|done]. }
  apply eqb_prop in He. unfold MESSAGE_SEQ_MASK, MESSAGE_DEST.
  rewrite <- Z.eqb_eq, He, andb_true_iff, Z.leb_le, Z.ltb_lt. done.
Qed.

Lemma frame_unfold seq content :
  zlen content <= 59 ->
  frame seq content
  = (MESSAGE_MIN + zlen content) :: seq :: content
    ++ [crc16_ccitt ((MESSAGE_MIN + zlen content) :: seq :: content) (2 + zlen content) / 256;
        crc16_ccitt ((MESSAGE_MIN + zlen content) :: seq :: content) (2 + zlen content) mod 256;
        126].
Proof.
  intros Hl. pose proof (zlen_nonneg content).
  unfold frame, command_add_frame, MESSAGE_TRAILER_SIZE, MESSAGE_SYNC, MESSAGE_MIN.
  rewrite (u8_small (5 + zlen content)) by lia.
  replace (5 + zlen content - 3) with (2 + zlen content) by lia.
  pose proof (crc16_range ((5 + zlen content) :: seq :: content) (2 + zlen content)).
  rewrite shiftr_div by lia. change (2 ^ 8) with 256.
  rewrite (u8_small (_ / 256)) by (Z.div_mod_to_equations; lia).
  done.
Qed.

Lemma zlen_frame seq content :
  zlen content <= 59 -> zlen (frame seq content) = 5 + zlen content.
Proof.
  intros. rewrite frame_unfold by done. rewrite !zlen_cons, zlen_app.
  unfold zlen at 2. simpl. lia.
Qed.

Lemma takeZ_app_exact {A} (l k : list A) n : n = zlen l -> takeZ n (l ++ k) = l.
Proof. intros ->. unfold takeZ, zlen. rewrite Nat2Z.id. apply take_app_length. Qed.

Lemma dropZ_app_exact {A} (l k : list A) n : n = zlen l -> dropZ n (l ++ k) = k.
Proof. intros ->. unfold dropZ, zlen. rewrite Nat2Z.id. apply drop_app_length. Qed.

Lemma crc16_prefix body rest n :
  n = zlen body -> crc16_ccitt (body ++ rest) n = crc16_ccitt body n.
Proof.
  intros ->. unfold crc16_ccitt. rewrite takeZ_app_exact by done.
  unfold takeZ, zlen. by rewrite Nat2Z.id, firstn_all.
Qed.

Lemma nthZ_cons_S x l i : 1 <= i -> nthZ (x :: l) i = nthZ l (i - 1).
Proof.
  intros. unfold nthZ. replace (Z.to_nat i) with (S (Z.to_nat (i - 1))) by lia. done.
Qed.

Lemma nthZ_mid l x k i : i = zlen l -> nthZ (l ++ x :: k) i = x.
Proof. intros ->. rewrite nthZ_app_r, Z.sub_diag by lia. done. Qed.

(** ** The checks of [command_find_block] *)

(** All the tests of a complete block, as one decision. *)
Definition block_ok (buf : list Z) : bool :=
  let msglen := nthZ buf 0 in
  (5 <=? msglen) && (msglen <=? 64) && (clear (nthZ buf 1) 15 =? 16)
  && (msglen <=? zlen buf) && (nthZ buf (msglen - 1) =? 126)
  && (crc16_ccitt buf (msglen - 3)
      =? u16 (Z.lor (Z.shiftl (nthZ buf (msglen - 3)) 8) (nthZ buf (msglen - 2)))).

Lemma two_bytes_u16 hi lo :
  0 <= hi < 256 -> 0 <= lo < 256 ->
  u16 (Z.lor (Z.shiftl hi 8) lo) = hi * 256 + lo.
Proof.
  intros. rewrite (lor_shiftl_add hi 8) by lia. apply u16_small. lia.
Qed.

Lemma block_ok_frame seq content rest :
  seq_byte seq -> bytes content -> zlen content <= 59 ->
  block_ok (frame seq content ++ rest) = true.
Proof.
  intros Hs Hc Hl. pose proof (zlen_nonneg content). pose proof (zlen_nonneg rest).
  pose proof (zlen_frame seq content Hl) as Hlen.
  rewrite frame_unfold in * by done. unfold block_ok, MESSAGE_MIN in *.
  set (n := 5 + zlen content) in *.
  set (crc := crc16_ccitt (n :: seq :: content) (2 + zlen content)) in *.
  assert (0 <= crc < 65536) by apply crc16_range.
  set (tr := [crc / 256; crc mod 256; 126]) in *.
  assert (nthZ ((n :: seq :: content ++ tr) ++ rest) 0 = n) as -> by done.
  assert (nthZ ((n :: seq :: content ++ tr) ++ rest) 1 = seq) as -> by done.
  rewrite zlen_app, Hlen.
  change ((n :: seq :: content ++ tr) ++ rest) with (([n; seq] ++ content ++ tr) ++ rest).
  rewrite <- !app_assoc, (app_assoc [n; seq]).
  assert (zlen ([n; seq] ++ content) = n - 3) as Hb.
  { rewrite zlen_app. unfold zlen at 1. simpl. lia. }
  rewrite crc16_prefix by lia. simpl app at 3.
  assert (forall i, 0 <= i -> nthZ (([n; seq] ++ content) ++ tr ++ rest) (n - 3 + i)
    = nthZ (tr ++ rest) i) as Hn.
  { intros. rewrite nthZ_app_r by lia. f_equal. lia. }
  replace (n - 1) with (n - 3 + 2) by lia. replace (n - 2) with (n - 3 + 1) by lia.
  rewrite !Hn by lia. replace (n - 3) with (n - 3 + 0) at 2 by lia. rewrite Hn by lia.
  change (nthZ (tr ++ rest) 0) with (crc / 256).
  change (nthZ (tr ++ rest) 1) with (crc mod 256).
  change (nthZ (tr ++ rest) 2) with 126.
  rewrite two_bytes_u16 by (Z.div_mod_to_equations; lia).
  replace (n - 3) with (2 + zlen content) by lia.
  change (crc16_ccitt ([n; seq] ++ content) (2 + zlen content)) with crc.
  assert (clear seq 15 = 16) as ->.
  { apply seq_byte_ok; unfold seq_byte in *; lia. }
  rewrite !andb_true_iff, !Z.leb_le, !Z.eqb_eq.
  repeat split; try lia. Z.div_mod_to_equations; lia.
Qed.

Lemma list_split_at (buf : list Z) n :
  0 <= n <= zlen buf -> exists a b, buf = a ++ b /\ zlen a = n.
Proof.
  intros. exists (takeZ n buf), (dropZ n buf). unfold takeZ, dropZ, zlen in *.
  rewrite take_drop, length_take. split; [done|lia].
Qed.

(** Conversely, a buffer that passes the tests starts with a frame. *)
Lemma block_ok_inv buf :
  bytes buf -> block_ok buf = true ->
  exists content rest,
    buf = frame (nthZ buf 1) content ++ rest /\ bytes content /\
    nthZ buf 0 = 5 + zlen content /\ zlen content <= 59 /\ seq_byte (nthZ buf 1).
Proof.
  intros Hb Hok. unfold block_ok in Hok. remember (nthZ buf 0) as n eqn:Hn.
  rewrite !andb_true_iff, !Z.leb_le, !Z.eqb_eq in Hok.
  destruct Hok as (((((Hn5 & Hn64) & Hseq) & Hlen) & Hsync) & Hcrc).
  assert (seq_byte (nthZ buf 1)) as Hs.
  { apply seq_byte_ok; [by apply bytes_nthZ|done]. }
  destruct (list_split_at buf n) as (blk & rest & Hbuf & Hblk); [lia|].
  destruct (list_split_at blk (n - 3)) as (body & tr & Hbody & Hbl); [lia|].
  assert (zlen tr = 3) as Htr.
  { assert (zlen blk = zlen body + zlen tr) by (subst blk; apply zlen_app). lia. }
  destruct body as [|b0 [|b1 content]]; [unfold zlen in Hbl; simpl in Hbl; lia..|].
  destruct tr as [|t0 [|t1 [|t2 [|]]]]; try (unfold zlen in Htr; simpl in Htr; lia).
  assert (b0 = n) by (rewrite Hn, Hbuf, Hbody; done). subst b0.
  assert (nthZ buf 1 = b1) as Hb1 by (rewrite Hbuf, Hbody; done).
  assert (zlen content = n - 5) as Hcl.
  { rewrite !zlen_cons in Hbl. lia. }
  assert (buf = (n :: b1 :: content) ++ t0 :: t1 :: t2 :: rest) as Hbuf'.
  { rewrite Hbuf, Hbody, <- app_assoc. done. }
  assert (forall i, 0 <= i -> nthZ buf (n - 3 + i) = nthZ (t0 :: t1 :: t2 :: rest) i) as Hi.
  { intros. rewrite Hbuf', nthZ_app_r by lia. f_equal. lia. }
  pose proof (Hi 0 ltac:(lia)) as H0. pose proof (Hi 1 ltac:(lia)) as H1.
  pose proof (Hi 2 ltac:(lia)) as H2.
  replace (n - 3 + 0) with (n - 3) in H0 by lia. replace (n - 3 + 1) with (n - 2) in H1 by lia.
  replace (n - 3 + 2) with (n - 1) in H2 by lia.
  change (nthZ (t0 :: t1 :: t2 :: rest) 0) with t0 in H0.
  change (nthZ (t0 :: t1 :: t2 :: rest) 1) with t1 in H1.
  change (nthZ (t0 :: t1 :: t2 :: rest) 2) with t2 in H2.
  assert (0 <= t0 < 256) by (rewrite <- H0; by apply bytes_nthZ).
  assert (0 <= t1 < 256) by (rewrite <- H1; by apply bytes_nthZ).
  rewrite H0, H1, two_bytes_u16 in Hcrc by done. rewrite H2 in Hsync.
  rewrite Hbuf', crc16_prefix in Hcrc by lia.
  exists content, rest. rewrite Hb1.
  split_and!; [|by rewrite Hbuf' in Hb; inversion_clear Hb as [|? ? ? Hb2];
    inversion_clear Hb2 as [|? ? ? Hb3]; apply bytes_app in Hb3 as [??]|lia..|by rewrite Hb1 in Hs].
  rewrite Hbuf' at 1. rewrite frame_unfold by lia. unfold MESSAGE_MIN.
  replace (5 + zlen content) with n by lia. replace (2 + zlen content) with (n - 3) by lia.
  rewrite Hcrc. simpl. rewrite <- app_assoc. simpl. repeat f_equal; try done.
  all: Z.div_mod_to_equations; lia.
Qed.

(** The block is plausible so far but not complete. *)
Definition need_more (buf : list Z) : bool :=
  (zlen buf <? 5)
  || ((5 <=? nthZ buf 0) && (nthZ buf 0 <=? 64) && (clear (nthZ buf 1) 15 =? 16)
      && (zlen buf <? nthZ buf 0)).

Section facts.
Context {W : Type} `{Part W cmd_state} `{CommandEnv W}.

(** What happens to a complete and correct block. *)
Definition take_block (buf : list Z) : M W (Z * Z) :=
  cmd_modify (fun s => set_sync_state (clear (sync_state s) CF_NEED_VALID) s) ;;
  seq <- cmd_gets next_sequence ;;
  if negb (nthZ buf 1 =? seq) then find_block_nak (nthZ buf 0)
  else
    cmd_modify (set_next_sequence
      (Z.lor (Z.land (nthZ buf 1 + 1) MESSAGE_SEQ_MASK) MESSAGE_DEST)) ;;
    ret (1, nthZ buf 0).

(** The four ways [command_find_block] can go. *)
Lemma find_block_eq buf w :
  command_find_block buf w =
    (if z2b (zlen buf) && has (sync_state (part_get w)) CF_NEED_SYNC
     then find_block_need_sync buf
     else if block_ok buf then take_block buf
     else if need_more buf then ret (0, 0)
     else find_block_error buf) w.
Proof.
  unfold command_find_block, block_ok, need_more, take_block.
  unfold MESSAGE_MIN, MESSAGE_MAX, MESSAGE_POS_LEN, MESSAGE_POS_SEQ, MESSAGE_SEQ_MASK,
    MESSAGE_DEST, MESSAGE_TRAILER_SYNC, MESSAGE_TRAILER_CRC, MESSAGE_TRAILER_SIZE,
    MESSAGE_SYNC.
  replace (nthZ buf 0 - 3 + 1) with (nthZ buf 0 - 2) by lia.
  unfold cmd_gets at 1, gets, bind at 1.
  destruct (z2b (zlen buf) && has (sync_state (part_get w)) CF_NEED_SYNC); [done|].
  destruct (Z.ltb_spec (zlen buf) 5).
  { rewrite orb_true_l. destruct (5 <=? nthZ buf 0) eqn:E1; [|done].
    destruct (Z.leb_spec (nthZ buf 0) (zlen buf)); [lia|].
    by rewrite andb_false_r. }
  rewrite orb_false_l.
  destruct (Z.ltb_spec (nthZ buf 0) 5), (Z.leb_spec 5 (nthZ buf 0)); try lia; [done|].
  destruct (Z.ltb_spec 64 (nthZ buf 0)), (Z.leb_spec (nthZ buf 0) 64); try lia; [done|].
  simpl. destruct (clear (nthZ buf 1) 15 =? 16); [simpl|done].
  destruct (Z.ltb_spec (zlen buf) (nthZ buf 0)), (Z.leb_spec (nthZ buf 0) (zlen buf));
    try lia; [done|]. simpl.
  destruct (nthZ buf (nthZ buf 0 - 1) =? 126); [simpl|done].
  by destruct (crc16_ccitt buf (nthZ buf 0 - 3) =? _).
Qed.

(** The console accepts an acknowledgement without touching the parser. *)
Definition acknak_ok : Prop := forall w, exists w',
  env_console_sendf encode_acknak [] w = Ret tt w' /\ part_get w' = part_get w.

Lemma command_sendf_acknak w :
  acknak_ok ->
  exists w', command_sendf encode_acknak [] w = Ret tt w' /\
    next_sequence (part_get w') = next_sequence (part_get w) /\
    sync_state (part_get w') = sync_state (part_get w).
Proof.
  intros Hok. unfold command_sendf, cmd_gets, gets, bind, cmd_modify, modify.
  destruct (z2b (in_sendf (part_get w))); [by eexists|].
  edestruct Hok as (w' & -> & Hg). eexists. split; [done|].
  rewrite part_get_set, Hg, part_get_set. done.
Qed.

Lemma find_block_nak_Ret n w :
  acknak_ok ->
  exists w', find_block_nak n w = Ret (-1, n) w' /\
    next_sequence (part_get w') = next_sequence (part_get w) /\
    sync_state (part_get w') = sync_state (part_get w).
Proof.
  intros Hok. destruct (command_sendf_acknak w Hok) as (w' & He & ?).
  exists w'. unfold find_block_nak. by rewrite (bind_Ret _ _ _ _ _ He).
Qed.

Lemma list_find_sync_bound buf i x :
  list_find (fun c => c = MESSAGE_SYNC) buf = Some (i, x) -> Z.of_nat i < zlen buf.
Proof.
  intros (Hl & _)%list_find_Some. apply lookup_lt_Some in Hl. unfold zlen. lia.
Qed.

(** Resynchronisation consumes at least one byte and leaves the sequence. *)
Lemma find_block_need_sync_Ret buf w :
  acknak_ok -> buf <> [] ->
  exists n w', find_block_need_sync buf w = Ret (-1, n) w' /\ 1 <= n <= zlen buf /\
    next_sequence (part_get w') = next_sequence (part_get w) /\
    has (sync_state (part_get w')) CF_NEED_VALID = true.
Proof.
  intros Hok Hne. unfold find_block_need_sync.
  assert (0 < zlen buf) by (destruct buf; [done|rewrite zlen_cons; pose proof (zlen_nonneg buf); lia]).
  set (m := match list_find _ buf with Some _ => _ | None => _ end).
  assert (exists n w1, m w = Ret n w1 /\ 1 <= n <= zlen buf /\
    next_sequence (part_get w1) = next_sequence (part_get w)) as (n & w1 & Hm & Hn & Hs1).
  { unfold m. destruct (list_find _ buf) as [[i x]|] eqn:Hf.
    - apply list_find_sync_bound in Hf. eexists _, _. split; [done|].
      split; [lia|]. by rewrite part_get_set.
    - eexists _, _. split; [done|]. split; [lia|done]. }
  rewrite (bind_Ret _ _ _ _ _ Hm). unfold cmd_gets, gets, bind at 1.
  destruct (has (sync_state (part_get w1)) CF_NEED_VALID) eqn:Hv; [by eauto 10|].
  unfold cmd_modify, modify, bind.
  edestruct (find_block_nak_Ret n) as (w2 & -> & Hs2 & Hy2); [done|].
  rewrite part_get_set in *. eexists _, _. split; [done|]. split; [done|].
  split; [by rewrite Hs2|]. rewrite Hy2. unfold has, CF_NEED_VALID. simpl.
  apply negb_true_iff, Z.eqb_neq. intros Hz. apply (f_equal (fun z => Z.testbit z 1)) in Hz.
  rewrite Z.land_spec, Z.lor_spec, orb_true_r in Hz. done.
Qed.

Lemma find_block_error_Ret buf w :
  acknak_ok -> buf <> [] ->
  exists n w', find_block_error buf w = Ret (-1, n) w' /\ 1 <= n <= zlen buf /\
    next_sequence (part_get w') = next_sequence (part_get w).
Proof.
  intros Hok Hne. unfold find_block_error.
  assert (1 <= zlen buf) by (destruct buf; [done|rewrite zlen_cons; pose proof (zlen_nonneg buf); lia]).
  destruct (nthZ buf 0 =? MESSAGE_SYNC); [eexists _, w; split; [done|]; split; [lia|done]|].
  unfold cmd_modify, modify, bind at 1.
  edestruct find_block_need_sync_Ret as (n & w' & -> & ? & Hs & _); [done..|].
  rewrite part_get_set in Hs. eauto 10.
Qed.

Lemma need_more_nil : need_more [] = true.
Proof. done. Qed.

Lemma next_seq_value s :
  16 <= s < 32 -> Z.lor (Z.land (s + 1) MESSAGE_SEQ_MASK) MESSAGE_DEST = 16 + (s + 1) mod 16.
Proof.
  intros Hs. unfold MESSAGE_SEQ_MASK, MESSAGE_DEST.
  assert ((s <? 16) || (Z.lor (Z.land (s + 1) 15) 16 =? 16 + (s + 1) mod 16) = true) as Hc.
  { apply (forall_below 32 (fun s => (s <? 16) || (Z.lor (Z.land (s + 1) 15) 16 =? 16 + (s + 1) mod 16)));
      [by vm_compute|lia]. }
  apply orb_true_iff in Hc as [Hc%Z.ltb_lt|Hc%Z.eqb_eq]; [lia|done].
Qed.

(** The result of every call: a value, with progress on every rejection. *)
Lemma find_block_total_aux buf w :
  acknak_ok -> bytes buf ->
  exists r n w', command_find_block buf w = Ret (r, n) w' /\
    ((r = 0 /\ n = 0 /\ w' = w) \/
     (r = -1 /\ 1 <= n <= zlen buf /\
      next_sequence (part_get w') = next_sequence (part_get w)) \/
     (r = 1 /\ n = nthZ buf 0 /\ block_ok buf = true /\
      nthZ buf 1 = next_sequence (part_get w) /\
      has (sync_state (part_get w)) CF_NEED_SYNC = false /\
      next_sequence (part_get w')
      = Z.lor (Z.land (nthZ buf 1 + 1) MESSAGE_SEQ_MASK) MESSAGE_DEST)).
Proof.
  intros Hok Hb. rewrite find_block_eq.
  destruct (z2b (zlen buf) && has (sync_state (part_get w)) CF_NEED_SYNC) eqn:Hns.
  { assert (buf <> []) by (by intros ->).
    edestruct find_block_need_sync_Ret as (n & w' & -> & ? & ? & _); [done..|].
    eexists _, _, _. split; [done|]. auto. }
  destruct (block_ok buf) eqn:Hbk.
  - unfold take_block, cmd_modify, modify, bind, cmd_gets, gets.
    rewrite part_get_set. simpl.
    assert (5 <= nthZ buf 0 <= zlen buf).
    { unfold block_ok in Hbk. rewrite !andb_true_iff, !Z.leb_le in Hbk. lia. }
    destruct (Z.eqb_spec (nthZ buf 1) (next_sequence (part_get w))) as [Heq|]; simpl.
    + eexists _, _, _. split; [done|]. right. right. rewrite !part_get_set. simpl.
      split_and!; try done. destruct buf; [done|]. by apply andb_false_iff in Hns as [?|].
    + edestruct (find_block_nak_Ret (nthZ buf 0)) as (w' & -> & Hs & _); [done|].
      rewrite part_get_set in Hs. eexists _, _, _. split; [done|]. right. left.
      simpl in Hs. auto with lia.
  - destruct (need_more buf) eqn:Hm.
    + eexists _, _, _. split; [done|]. auto.
    + assert (buf <> []) by (by intros ->).
      edestruct find_block_error_Ret as (n & w' & -> & ? & ?); [done..|].
      eexists _, _, _. split; [done|]. auto.
Qed.

(** ** Parsing the arguments of a command *)

Definition is_int_type (t : ptype) : bool :=
  bool_decide (t ∈ [PT_uint32; PT_int32; PT_uint16; PT_int16; PT_byte]).

Definition encode_args (args : list Z) : list Z := concat (map encode_int args).

Definition is_u32 (v : Z) : Prop := 0 <= v < 4294967296.

Lemma parsef_int t types buf p maxend args v rest :
  is_int_type t = true -> p <= maxend -> parse_int (dropZ p buf) = Some (v, rest) ->
  forall w : W, command_parsef buf p maxend (t :: types) args w
  = command_parsef buf (zlen buf - zlen rest) maxend types (args ++ [v]) w.
Proof.
  intros Ht Hp Hv w. simpl. destruct (Z.ltb_spec maxend p); [lia|].
  destruct t; try done; by rewrite Hv.
Qed.

Lemma parsef_encoded types args pre tail acc maxend (w : W) :
  Forall (fun t => is_int_type t = true) types -> length types = length args ->
  Forall is_u32 args -> zlen pre + zlen (encode_args args) <= maxend ->
  command_parsef (pre ++ encode_args args ++ tail) (zlen pre) maxend types acc w
  = Ret (zlen pre + zlen (encode_args args), acc ++ args) w.
Proof.
  intros Ht. revert args pre acc.
  induction Ht as [|t types Ht Hts IH]; intros [|a args] pre acc Hl Ha Hm; try done.
  - simpl. rewrite app_nil_r. unfold zlen at 2. simpl. by rewrite Z.add_0_r.
  - inversion Ha as [|? ? Hau Haa]; subst. unfold encode_args in *.
    cbn [map concat] in *. apply (f_equal pred) in Hl. cbn [length pred] in Hl.
    rewrite zlen_app in Hm. pose proof (zlen_nonneg (concat (map encode_int args))).
    pose proof (encode_int_length_bound a Hau).
    rewrite <- app_assoc.
    rewrite (parsef_int _ _ _ _ _ _ a (concat (map encode_int args) ++ tail)); [|done|lia|].
    2: { rewrite dropZ_app_exact by done. by apply parse_encode_int. }
    replace (zlen (pre ++ encode_int a ++ concat (map encode_int args) ++ tail)
             - zlen (concat (map encode_int args) ++ tail))
      with (zlen (pre ++ encode_int a)) by (rewrite !zlen_app; lia).
    rewrite (app_assoc pre), (IH args); [|lia|done|rewrite zlen_app; lia].
    f_equal. f_equal; [rewrite !zlen_app; lia|]. by rewrite <- app_assoc.
Qed.

(** A command as the host encodes it, and what dispatching it should do. *)
Definition encode_command (c : Z * list Z) : list Z := c.1 :: encode_args c.2.

Definition encode_commands (cs : list (Z * list Z)) : list Z :=
  concat (map encode_command cs).

Fixpoint run_commands (cs : list (Z * list Z)) : M W unit :=
  match cs with
  | [] => ret tt
  | (id, args) :: cs' =>
      cp <- deref (env_command_index !! Z.to_nat id) ;;
      down <- env_sched_is_shutdown ;;
      if down && negb (has (cp_flags cp) HF_IN_SHUTDOWN)
      then env_sched_report_shutdown ;; run_commands cs'
      else env_irq_poll ;; cp_func cp args ;; run_commands cs'
  end.

(** The command table declares this command with integer parameters. *)
Definition command_declared (c : Z * list Z) : Prop :=
  0 < c.1 < 256 /\ Forall is_u32 c.2 /\
  exists cp, env_command_index !! Z.to_nat c.1 = Some cp /\
    Forall (fun t => is_int_type t = true) (cp_param_types cp) /\
    length (cp_param_types cp) = length c.2 /\ zlen c.2 <= cp_num_args cp.

Lemma dispatch_step_eq id args cp pre tail fuel msgend (w : W) :
  command_declared (id, args) -> env_command_index !! Z.to_nat id = Some cp ->
  zlen pre + 1 + zlen (encode_args args) <= msgend ->
  dispatch_loop (S fuel) (pre ++ id :: encode_args args ++ tail) (zlen pre) msgend w
  = (down <- env_sched_is_shutdown ;;
     if down && negb (has (cp_flags cp) HF_IN_SHUTDOWN)
     then env_sched_report_shutdown ;;
       dispatch_loop fuel (pre ++ id :: encode_args args ++ tail)
         (zlen pre + 1 + zlen (encode_args args)) msgend
     else env_irq_poll ;; cp_func cp args ;;
       dispatch_loop fuel (pre ++ id :: encode_args args ++ tail)
         (zlen pre + 1 + zlen (encode_args args)) msgend) w.
Proof.
  intros (Hid & Hargs & cp' & Hcp' & Ht & Hl & Hn) Hcp Hm. simpl in *.
  assert (cp' = cp) as -> by congruence.
  pose proof (zlen_nonneg (encode_args args)).
  destruct (Z.ltb_spec (zlen pre) msgend); [simpl|lia].
  assert ((pre ++ id :: encode_args args ++ tail) !! Z.to_nat (zlen pre) = Some id) as ->.
  { unfold zlen. rewrite Nat2Z.id. by apply list_lookup_middle. }
  unfold deref at 1. unfold bind at 1, ret. unfold command_lookup_parser.
  destruct (Z.eqb_spec id 0); [lia|].
  assert (id < zlen env_command_index) as Hlt.
  { apply lookup_lt_Some in Hcp. unfold zlen. lia. }
  destruct (Z.leb_spec (zlen env_command_index) id); [lia|]. simpl.
  rewrite Hcp. unfold deref. unfold bind at 1, ret.
  replace (pre ++ id :: encode_args args ++ tail)
    with ((pre ++ [id]) ++ encode_args args ++ tail) by by rewrite <- app_assoc.
  assert (zlen (pre ++ [id]) = zlen pre + 1) as Hz by by rewrite zlen_app.
  rewrite <- Hz. unfold bind at 1.
  rewrite (parsef_encoded _ args) by (done || lia). simpl.
  destruct (Z.ltb_spec (cp_num_args cp) (zlen args)); [lia|]. done.
Qed.

Lemma dispatch_loop_commands cs pre tail fuel (w : W) :
  Forall command_declared cs -> (length (encode_commands cs) <= fuel)%nat ->
  dispatch_loop fuel (pre ++ encode_commands cs ++ tail) (zlen pre)
    (zlen pre + zlen (encode_commands cs)) w = run_commands cs w.
Proof.
  intros Hcs. revert pre fuel w.
  induction Hcs as [|[id args] cs Hc Hcs IH]; intros pre fuel w Hf.
  - change (encode_commands []) with (@nil Z). change (zlen (@nil Z)) with 0.
    destruct fuel; simpl; (destruct (Z.ltb_spec (zlen pre) (zlen pre + 0)); [lia|done]).
  - assert (Hc' := Hc). destruct Hc as (Hid & Hargs & cp & Hcp & _).
    change (encode_commands ((id, args) :: cs))
      with (id :: encode_args args ++ encode_commands cs) in *.
    destruct fuel as [|fuel]; [simpl in Hf; lia|].
    rewrite zlen_cons, zlen_app. simpl run_commands.
    pose proof (zlen_nonneg (encode_commands cs)).
    change ((id :: encode_args args ++ encode_commands cs) ++ tail)
      with (id :: (encode_args args ++ encode_commands cs) ++ tail).
    rewrite <- app_assoc.
    rewrite (dispatch_step_eq id args cp) by (done || lia). simpl in Hcp.
    rewrite Hcp. unfold deref. rewrite bind_ret_l.
    assert (forall w', dispatch_loop fuel
      (pre ++ id :: encode_args args ++ encode_commands cs ++ tail)
      (zlen pre + 1 + zlen (encode_args args))
      (zlen pre + (1 + (zlen (encode_args args) + zlen (encode_commands cs)))) w'
      = run_commands cs w') as Hrec.
    { intros w'. rewrite <- (IH (pre ++ id :: encode_args args) fuel).
      - rewrite <- app_assoc. simpl. rewrite zlen_app, zlen_cons.
        f_equal; lia.
      - simpl in Hf. rewrite length_app in Hf. lia. }
    unfold bind. destruct (env_sched_is_shutdown w) as [down w1|?|]; try done.
    destruct (down && _).
    + destruct (env_sched_report_shutdown w1); try done; apply Hrec.
    + destruct (env_irq_poll w1) as [? w2|?|]; try done.
      destruct (cp_func cp args w2); try done; apply Hrec.
Qed.

(** ** Memory safety of dispatch *)

Lemma parse_loop_stop l k c v :
  bytes l -> l !! k = Some c -> c < 128 ->
  exists v' rest, parse_int_loop v l = Some (v', rest) /\
    (length l <= length rest + S k)%nat /\ (length rest < length l)%nat.
Proof.
  revert k v. induction l as [|x l IH]; intros k v Hb Hk Hc; [done|].
  inversion Hb; subst. simpl. rewrite low7_plain by lia.
  destruct (Z.leb_spec 128 x).
  - destruct k as [|k]; [simplify_eq/=; lia|]. simpl in Hk.
    edestruct (IH k) as (v' & rest & -> & ? & ?); [done..|].
    eexists _, _. split; [done|]. lia.
  - eexists _, _. split; [done|]. lia.
Qed.

Lemma parse_int_stop l k c :
  bytes l -> l !! k = Some c -> c < 128 ->
  exists v rest, parse_int l = Some (v, rest) /\
    (length l <= length rest + S k)%nat /\ (length rest < length l)%nat.
Proof.
  destruct l as [|x l]; intros Hb Hk Hc; [done|].
  inversion Hb; subst. simpl. rewrite low7_plain by lia.
  destruct (Z.leb_spec 128 x).
  - destruct k as [|k]; [simplify_eq/=; lia|]. simpl in Hk.
    edestruct (parse_loop_stop l k) as (v' & rest & -> & ? & ?); [done..|].
    eexists _, _. split; [done|]. lia.
  - eexists _, _. split; [done|]. lia.
Qed.

(** Arguments a parameter list yields. *)
Definition type_args (types : list ptype) : nat :=
  foldr (fun t n => ((if decide (t = PT_buffer) then 2 else 1) + n)%nat) 0%nat types.

(** A buffer that holds a complete block with end [msgend] (the CRC position):
    the byte two places later is the sync byte, whose top bit is clear. *)
Definition block_at (buf : list Z) (msgend : Z) : Prop :=
  bytes buf /\ 0 <= msgend /\ msgend + 3 <= zlen buf /\
  exists c, buf !! Z.to_nat (msgend + 2) = Some c /\ c < 128.

Lemma parsef_safe types buf p msgend args (w : W) :
  block_at buf msgend -> 0 <= p <= msgend ->
  match command_parsef buf p msgend types args w with
  | Stuck => False
  | Ret (p', args') w' => p <= p' /\ w' = w /\
      (length args' <= length args + type_args types)%nat
  | Shut _ w' => w' = w
  end.
Proof.
  intros (Hb & Hm & Hlen & c & Hc & Hc128). revert p args.
  induction types as [|t types IH]; intros p args Hp; [simpl; split_and!; (lia || done)|].
  assert (length (dropZ p buf) = Z.to_nat (zlen buf - p))%nat as Hd.
  { unfold dropZ, zlen. rewrite length_drop. lia. }
  assert (forall p' args', p <= p' ->
    (length args' <= length args + (if decide (t = PT_buffer) then 2 else 1))%nat ->
    match command_parsef buf p' msgend types args' w with
    | Stuck => False
    | Ret (q, args'') w' => p <= q /\ w' = w /\
        (length args'' <= length args + type_args (t :: types))%nat
    | Shut _ w' => w' = w
    end) as Hk.
  { intros p' args' Hp' Ha. destruct (Z.leb_spec p' msgend).
    - specialize (IH p' args' ltac:(lia)). destruct (command_parsef _ _ _ _ _ _) as [[q ?] ?|?|];
        [|done|done]. change (type_args (t :: types))
          with ((if decide (t = PT_buffer) then 2 else 1) + type_args types)%nat.
      destruct IH as (? & -> & ?). split_and!; [lia|done|lia].
    - destruct types as [|t' types']; simpl.
      + split_and!; [lia|done|]. change (type_args [t])
          with ((if decide (t = PT_buffer) then 2 else 1) + 0)%nat. lia.
      + destruct (Z.ltb_spec msgend p'); [done|lia]. }
  destruct (is_int_type t) eqn:Ht.
  - edestruct (parse_int_stop (dropZ p buf) (Z.to_nat (msgend + 2 - p)) c)
      as (v & rest & Hv & Hr1 & Hr2).
    { by apply bytes_drop. }
    { unfold dropZ. rewrite lookup_drop. rewrite <- Hc. f_equal. lia. }
    { done. }
    rewrite (parsef_int _ _ _ _ _ _ v rest) by (done || lia).
    apply Hk; [unfold zlen in *; lia|]. rewrite length_app. simpl. destruct (decide _); lia.
  - simpl. destruct (Z.ltb_spec msgend p); [lia|].
    destruct t; try done.
    destruct (dropZ p buf) as [|len l] eqn:Hdl; [simpl in Hd; lia|].
    assert (0 <= len < 256) as Hlb.
    { assert (bytes (dropZ p buf)) as Hbd by by apply bytes_drop.
      rewrite Hdl in Hbd. by inversion Hbd. }
    destruct (Z.ltb_spec msgend (p + 1 + len)); [done|].
    apply Hk; [lia|]. rewrite length_app. simpl. lia.
Qed.

(** A valid block is one that the parser may walk. *)
Lemma block_ok_at buf :
  bytes buf -> block_ok buf = true ->
  block_at buf (nthZ buf 0 - MESSAGE_TRAILER_SIZE) /\ 5 <= nthZ buf 0.
Proof.
  intros Hb Hok. unfold block_ok in Hok.
  rewrite !andb_true_iff, !Z.leb_le, !Z.eqb_eq in Hok.
  destruct Hok as (((((Hn5 & Hn64) & _) & Hlen) & Hsync) & _). unfold MESSAGE_TRAILER_SIZE.
  split; [|lia]. split_and!; [done|lia|lia|]. exists 126. split; [|lia].
  unfold nthZ in Hsync. replace (nthZ buf 0 - 3 + 2) with (nthZ buf 0 - 1) by lia.
  destruct (nth_lookup_or_length buf (Z.to_nat (nthZ buf 0 - 1)) 0) as [Hx|];
    [|unfold zlen in *; lia].
  rewrite Hx. f_equal. done.
Qed.

(** The command table: declared argument counts cover the parameters, and no
    handler misbehaves. *)
Definition table_safe : Prop :=
  (forall i cp, env_command_index !! i = Some cp ->
     Z.of_nat (type_args (cp_param_types cp)) <= cp_num_args cp /\
     forall args w, cp_func cp args w <> Stuck) /\
  (forall w, env_sched_is_shutdown w <> Stuck) /\
  (forall w, env_sched_report_shutdown w <> Stuck) /\
  (forall w, env_irq_poll w <> Stuck).

Lemma dispatch_loop_safe buf msgend fuel p (w : W) :
  table_safe -> block_at buf msgend -> 0 <= p -> (Z.to_nat (msgend - p) <= fuel)%nat ->
  dispatch_loop fuel buf p msgend w <> Stuck.
Proof.
  intros (Htab & Hdown & Hrep & Hirq) Hblk. revert p w.
  induction fuel as [|fuel IH]; intros p w Hp Hf; simpl;
    (destruct (Z.ltb_spec p msgend); [|done]); [lia|simpl].
  assert (Hblk' := Hblk). destruct Hblk' as (Hb & Hm & Hlen & _).
  destruct (lookup_lt_is_Some_2 buf (Z.to_nat p)) as [cmdid Hcmd].
  { unfold zlen in *. lia. }
  rewrite Hcmd. unfold deref. rewrite bind_ret_l.
  unfold command_lookup_parser.
  destruct ((cmdid =? 0) || (zlen env_command_index <=? cmdid)) eqn:Hid; [done|].
  apply orb_false_iff in Hid as [Hid0%Z.eqb_neq Hid1%Z.leb_gt].
  assert (0 <= cmdid) as Hc0.
  { apply list_elem_of_lookup_2, list_elem_of_In in Hcmd. unfold bytes in Hb.
    rewrite Forall_forall in Hb. apply list_elem_of_In in Hcmd. apply Hb in Hcmd. lia. }
  destruct (lookup_lt_is_Some_2 (A := command_parser W) env_command_index (Z.to_nat cmdid))
    as [cp Hcp]; [unfold zlen in *; lia|].
  rewrite Hcp. unfold deref. rewrite bind_ret_l.
  pose proof (parsef_safe (cp_param_types cp) buf (p + 1) msgend [] w Hblk ltac:(lia)) as Hps.
  unfold bind at 1. destruct (command_parsef _ _ _ _ _ _) as [[p' args'] w'|?|]; [|done|done].
  destruct Hps as (Hp' & -> & Hal). destruct (Htab _ _ Hcp) as [Hna Hfun].
  simpl in Hal. destruct (Z.ltb_spec (cp_num_args cp) (zlen args')); [unfold zlen in *; lia|].
  unfold bind. specialize (Hdown w). destruct (env_sched_is_shutdown w) as [down w1|?|]; try done.
  destruct (down && _).
  - specialize (Hrep w1). destruct (env_sched_report_shutdown w1); try done. apply IH; lia.
  - specialize (Hirq w1). destruct (env_irq_poll w1) as [? w2|?|]; try done.
    specialize (Hfun args' w2). destruct (cp_func cp args' w2); try done. apply IH; lia.
Qed.
End facts.

(** ** What a command does to the world

    A relation between worlds that every handler and the scheduler respect is respected by
    the dispatch of a block. *)
Section keeps.
Context {W : Type} {PC : Part W cmd_state} {CE : CommandEnv W}.
Context (R : W -> W -> Prop) {HR : PreOrder R}.

Definition op_keeps {A} (m : M W A) : Prop := forall w,
  match m w with Ret _ w' | Shut _ w' => R w w' | Stuck => True end.

Definition table_keeps : Prop :=
  (forall i cp, env_command_index !! i = Some cp -> forall args, op_keeps (cp_func cp args)) /\
  op_keeps env_sched_is_shutdown /\ op_keeps env_sched_report_shutdown /\ op_keeps env_irq_poll.

Lemma op_keeps_ret {A} (a : A) : op_keeps (ret a).
Proof using HR. intros w. cbn. reflexivity. Qed.

Lemma op_keeps_shutdown {A} reason : op_keeps (shutdown reason : M W A).
Proof using HR. intros w. cbn. reflexivity. Qed.

Lemma op_keeps_stuck {A} : op_keeps (stuck : M W A).
Proof. done. Qed.

Lemma op_keeps_bind {A B} (m : M W A) (k : A -> M W B) :
  op_keeps m -> (forall a, op_keeps (k a)) -> op_keeps (bind m k).
Proof using HR.
  intros Hm Hk w. unfold bind. specialize (Hm w). destruct (m w) as [a w1|r w1|]; [|done|done].
  specialize (Hk a w1). destruct (k a w1); [by etransitivity..|done].
Qed.

Create HintDb keeps_db.
#[local] Hint Resolve op_keeps_ret op_keeps_shutdown op_keeps_stuck op_keeps_bind : keeps_db.

Lemma op_keeps_some {A B} (a : A) (k : A -> M W B) :
  op_keeps (k a) -> op_keeps (bind (deref (Some a)) k).
Proof. exact id. Qed.

Lemma op_keeps_deref {A} (o : option A) : op_keeps (deref o).
Proof using HR. destruct o; cbn; auto with keeps_db. Qed.
#[local] Hint Resolve op_keeps_deref : keeps_db.

Lemma parsef_keeps types buf p maxend args : op_keeps (command_parsef buf p maxend types args).
Proof using HR.
  revert p args. induction types as [|ty types IH]; intros p args; cbn [command_parsef];
    [auto with keeps_db|].
  destruct (maxend <? p); [auto with keeps_db|].
  destruct ty; auto with keeps_db; repeat case_match; auto with keeps_db.
Qed.
#[local] Hint Resolve parsef_keeps : keeps_db.

Lemma dispatch_keeps buf msgend fuel p :
  table_keeps -> op_keeps (dispatch_loop fuel buf p msgend).
Proof using HR.
  intros (Htab & Hdown & Hrep & Hirq). revert p.
  induction fuel as [|fuel IH]; intros p; cbn [dispatch_loop]; destruct (negb _); auto with keeps_db.
  apply op_keeps_bind; [auto with keeps_db|]. intros cmdid. unfold command_lookup_parser.
  destruct (_ || _); [apply op_keeps_shutdown|].
  destruct (env_command_index !! Z.to_nat cmdid) as [cp|] eqn:Ecp; [|by intros w].
  apply op_keeps_some, op_keeps_bind; [auto with keeps_db|]. intros [p' args].
  destruct (_ <? _); [auto with keeps_db|]. apply op_keeps_bind; [done|]. intros down.
  destruct (_ && _); repeat (apply op_keeps_bind; [by eauto|intros _]); auto.
Qed.

Lemma dispatch_outcome buf w :
  table_safe -> table_keeps -> bytes buf -> block_ok buf = true ->
  exists w', (command_dispatch buf (nthZ buf 0) w = Ret tt w' \/
              exists reason, command_dispatch buf (nthZ buf 0) w = Shut reason w') /\ R w w'.
Proof using HR.
  intros Hsafe Hkeeps Hb Hok. destruct (block_ok_at buf Hb Hok) as [Hat Hn5].
  assert (Hns : command_dispatch buf (nthZ buf 0) w <> Stuck).
  { apply dispatch_loop_safe; [done|done|done|].
    unfold MESSAGE_HEADER_SIZE, MESSAGE_TRAILER_SIZE. lia. }
  pose proof (dispatch_keeps buf (nthZ buf 0 - MESSAGE_TRAILER_SIZE)
    (Z.to_nat (nthZ buf 0)) MESSAGE_HEADER_SIZE Hkeeps w) as Hr.
  unfold command_dispatch in *. destruct (dispatch_loop _ _ _ _ w) as [[] w'|reason w'|]; [| |done].
  - exists w'. split; [by left|done].
  - exists w'. split; [right; by eexists|done].
Qed.
End keeps.

(** ** Size of encoded messages *)

(** The longest encoding of a value of each integer type (the [max_length] of
    the parameter types in klippy/msgproto.py, from which the build computes
    [max_size]). *)
Definition int_max (t : ptype) : Z :=
  match t with
  | PT_uint32 | PT_int32 => 5
  | PT_uint16 | PT_int16 => 3
  | PT_byte => 2
  | _ => 64
  end.

(** The values C passes for a parameter of each integer type. *)
Definition int_in_range (t : ptype) (a : Z) : Prop :=
  match t with
  | PT_uint32 | PT_int32 => True
  | PT_uint16 => 0 <= a < 65536
  | PT_int16 => -32768 <= a < 32768
  | PT_byte => 0 <= a < 256
  | _ => False
  end.

Lemma vlq_lead_length sv n :
  (n = 2 /\ -4096 <= sv < 12288) \/ (n = 3 /\ -524288 <= sv < 1572864) ->
  1 + zlen (vlq_lead sv) <= n.
Proof. intros Hn. unfold vlq_lead, zlen. zcases; simpl; lia. Qed.

Lemma encode_int_max t a :
  int_in_range t a -> zlen (encode_int (va_uint32 4 t a)) <= int_max t.
Proof.
  intros Ha. assert (va_uint32 4 t a = u32 a) as -> by done.
  rewrite encode_int_length by apply u32_range. pose proof (u32_range a).
  pose proof (encode_int_length_bound (u32 a) ltac:(lia)) as Hb.
  rewrite encode_int_length in Hb by lia.
  destruct t; simpl in *; try lia; apply vlq_lead_length; [right|right|left]; wrap_lia.
Qed.

Definition ints_in_range (types : list ptype) (vals : list Z) : Prop :=
  Forall2 int_in_range types vals.

Lemma encode_params_ints {W} types vals maxlen out (w : W) :
  ints_in_range types vals ->
  zlen out + foldr Z.add 0 (map int_max types) <= maxlen ->
  exists out', encode_params 4 maxlen types (map VA_int vals) out w = Ret out' w /\
    zlen out' <= maxlen /\
    out' = out ++ encode_args (map u32 vals).
Proof.
  intros HF. revert out. induction HF as [|t v types vals Ht HF IH]; intros out Hm.
  - exists out. simpl in *. rewrite app_nil_r. split_and!; (done || lia).
  - simpl in Hm. pose proof (encode_int_max t v Ht) as Hl.
    assert (0 <= foldr Z.add 0 (map int_max types)) as Hpos.
    { clear. induction types as [|[] ? IH]; simpl; lia. }
    assert (0 <= int_max t) by (by destruct t).
    destruct (IH (out ++ encode_int (u32 v))) as (out' & He & Hz & ->).
    { rewrite zlen_app. unfold va_uint32 in Hl. simpl in Hl. lia. }
    eexists. split_and!; [|done|by rewrite <- app_assoc].
    simpl. destruct (Z.ltb_spec maxlen (zlen out)); [lia|].
    by destruct t; try done.
Qed.

Lemma encode_params_clip {W} maxlen out len s (w : W) :
  zlen out <= maxlen -> maxlen - zlen out <= u32 len -> u32 len <= zlen s ->
  exists data, encode_params 4 maxlen [PT_progmem_buffer] [VA_buffer len s] out w
    = Ret (out ++ data) w /\ zlen data = maxlen - zlen out + 1.
Proof.
  intros Ho Hl Hs. simpl. destruct (Z.ltb_spec maxlen (zlen out)); [lia|].
  eexists. split; [done|]. rewrite zlen_cons. unfold zlen, takeZ in *.
  rewrite length_take. destruct (Z.ltb_spec (maxlen - Z.of_nat (length out)) (u32 len)); lia.
Qed.

(** ** Properties *)

Section properties.
Context {W : Type} `{Part W cmd_state} `{CommandEnv W}.

(** C28: [command_find_block] accepts a block exactly when the receive buffer
    starts with a well formed message block (length, destination, CRC, sync)
    that carries the expected sequence number; it then reports the block's
    length and advances the expected sequence number modulo 16. *)
Theorem find_block_accepts_frames buf n w w' :
  acknak_ok -> bytes buf -> seq_byte (next_sequence (part_get w)) ->
  has (sync_state (part_get w)) CF_NEED_SYNC = false ->
  ((exists w1, command_find_block buf w = Ret (1, n) w1) <->
   exists content rest,
     buf = frame (next_sequence (part_get w)) content ++ rest /\
     bytes content /\ zlen content <= MESSAGE_PAYLOAD_MAX /\
     n = MESSAGE_MIN + zlen content) /\
  (command_find_block buf w = Ret (1, n) w' ->
   next_sequence (part_get w')
   = MESSAGE_DEST + (next_sequence (part_get w) + 1) mod 16).
Proof.
  intros Hok Hb Hseq Hsync. unfold MESSAGE_PAYLOAD_MAX, MESSAGE_MAX, MESSAGE_MIN.
  destruct (find_block_total_aux buf w Hok Hb) as (r & m & w1 & He & Hr).
  split; [split|].
  - intros [w2 Hf]. rewrite Hf in He. simplify_eq.
    destruct Hr as [|[|(_ & -> & Hbk & Hs & _)]]; [lia|lia|].
    destruct (block_ok_inv buf Hb Hbk) as (c & rest & Hbuf & Hc & Hn & Hl & _).
    exists c, rest. rewrite <- Hs. split_and!; (done || lia).
  - intros (c & rest & Hbuf & Hc & Hl & ->).
    assert (block_ok buf = true) as Hbk by (subst; apply block_ok_frame; (done || lia)).
    rewrite frame_unfold in Hbuf by lia.
    exists (part_set (set_next_sequence
      (Z.lor (Z.land (nthZ buf 1 + 1) MESSAGE_SEQ_MASK) MESSAGE_DEST)
      (set_sync_state (clear (sync_state (part_get w)) CF_NEED_VALID) (part_get w))) w).
    rewrite find_block_eq, Hsync, andb_false_r, Hbk. unfold take_block.
    assert (nthZ buf 1 = next_sequence (part_get w)) as Hs by (subst buf; done).
    assert (nthZ buf 0 = 5 + zlen c) as Hn by (subst buf; done).
    unfold cmd_modify, modify, bind, cmd_gets, gets. rewrite !part_get_set. simpl.
    rewrite Hs, Hn, Z.eqb_refl. simpl. by rewrite part_get_set, part_set_set.
  - intros Hf. rewrite Hf in He. simplify_eq.
    destruct Hr as [|[|(_ & _ & _ & Hs & _ & ->)]]; [lia|lia|].
    rewrite Hs. unfold MESSAGE_DEST at 2. apply next_seq_value, Hseq.
Qed.

(** every call of [command_find_block] returns, and unless it needs more data
    it consumes at least one and at most all of the received bytes; a rejected
    block leaves the expected sequence number unchanged. *)
Theorem find_block_progress buf w :
  acknak_ok -> bytes buf ->
  exists r n w', command_find_block buf w = Ret (r, n) w' /\ r ∈ [-1; 0; 1] /\
    (r = 0 -> n = 0 /\ w' = w) /\
    (r <> 0 -> 1 <= n <= zlen buf) /\
    (r <> 1 -> next_sequence (part_get w') = next_sequence (part_get w)).
Proof.
  intros Hok Hb. destruct (find_block_total_aux buf w Hok Hb) as (r & n & w' & He & Hr).
  exists r, n, w'. split; [done|].
  destruct Hr as [(-> & -> & ->)|[(-> & ? & ?)|(-> & -> & Hbk & _)]].
  - split_and!; [set_solver|done|lia|done].
  - split_and!; [set_solver|lia|done|done].
  - unfold block_ok in Hbk. rewrite !andb_true_iff, !Z.leb_le in Hbk.
    split_and!; [set_solver|lia|lia|done].
Qed.

(** An accepted block carries the checksum of its own bytes: [body] is the
    header and content, [c1 c2] the two checksum bytes of the trailer. *)
Lemma accepted_block_checksum l body c1 c2 rest w n w' :
  acknak_ok -> zlen (l :: body) = l - 3 -> bytes (l :: body) -> bytes [c1; c2] -> bytes rest ->
  command_find_block ((l :: body) ++ [c1; c2; 126] ++ rest) w = Ret (1, n) w' ->
  crc16_ccitt (l :: body) (zlen (l :: body)) = c1 * 256 + c2.
Proof.
  intros Hok Hlen Hb Hc Hr Hf.
  assert (bytes ((l :: body) ++ [c1; c2; 126] ++ rest)) as Hbuf.
  { apply bytes_app; split; [done|]. apply bytes_app; split; [|done].
    inversion Hc as [|? ? Hc1 Hc']; subst. inversion Hc' as [|? ? Hc2 _]; subst.
    repeat constructor; lia. }
  edestruct (find_block_total_aux _ w Hok Hbuf) as (r & m & w1 & He & Hcase).
  rewrite Hf in He. simplify_eq. destruct Hcase as [|[|(_ & _ & Hbk & _)]]; [lia|lia|].
  unfold block_ok in Hbk. rewrite !andb_true_iff, !Z.eqb_eq in Hbk. destruct Hbk as (_ & Hbk).
  change (nthZ ((l :: body) ++ [c1; c2; 126] ++ rest) 0) with l in Hbk.
  replace (l - 2) with (zlen (l :: body) + 1) in Hbk by lia. rewrite <- Hlen in Hbk.
  rewrite crc16_prefix in Hbk by done. pose proof (zlen_nonneg (l :: body)).
  rewrite (nthZ_app_r _ _ (zlen (l :: body))), (nthZ_app_r _ _ (zlen (l :: body) + 1)) in Hbk
    by lia.
  replace (zlen (l :: body) - zlen (l :: body)) with 0 in Hbk by lia.
  replace (zlen (l :: body) + 1 - zlen (l :: body)) with 1 in Hbk by lia.
  change (nthZ ([c1; c2; 126] ++ rest) 0) with c1 in Hbk.
  change (nthZ ([c1; c2; 126] ++ rest) 1) with c2 in Hbk.
  inversion Hc as [|? ? Hc1 Hc']; subst. inversion Hc' as [|? ? Hc2 _]; subst.
  rewrite two_bytes_u16 in Hbk by lia. lia.
Qed.



(** C30: dispatching any block that passed the checks of [command_find_block] is
    memory safe and terminates: argument parsing never reads past the received
    bytes (the sync byte stops every VLQ), the loop ends within the block, and a
    malformed command ends in a shutdown, for every command table whose
    argument arrays are large enough and whose handlers are well behaved. *)
Theorem dispatch_memory_safe buf w :
  table_safe -> bytes buf -> block_ok buf = true ->
  command_dispatch buf (nthZ buf 0) w <> Stuck.
Proof.
  intros Ht Hb Hok. destruct (block_ok_at buf Hb Hok) as [Hat Hn5].
  apply dispatch_loop_safe; [done|done|done|].
  unfold MESSAGE_HEADER_SIZE, MESSAGE_TRAILER_SIZE. lia.
Qed.
End properties.

(** a response with integer parameters fits the size the build reserves for
    it: [command_encodef] succeeds, returns a length of at most [max_size], and
    the content is the message id followed by the VLQ encoding of each value. *)
Theorem encodef_within_max_size {W} ce vals (w : W) :
  ints_in_range (ce_param_types ce) vals ->
  ce_max_size ce = MESSAGE_MIN + 1 + foldr Z.add 0 (map int_max (ce_param_types ce)) ->
  exists len, command_encodef 4 ce (map VA_int vals) w
    = Ret (len, ce_msg_id ce :: encode_args (map u32 vals)) w /\
    MESSAGE_MIN < len <= ce_max_size ce.
Proof.
  intros HF Hmax. unfold command_encodef.
  assert (0 <= foldr Z.add 0 (map int_max (ce_param_types ce))) as Hpos.
  { clear. induction (ce_param_types ce) as [|[] ? IH]; simpl; lia. }
  unfold MESSAGE_MIN, MESSAGE_HEADER_SIZE, MESSAGE_TRAILER_SIZE in *.
  destruct (Z.leb_spec (ce_max_size ce) 5); [lia|].
  destruct (encode_params_ints (ce_param_types ce) vals (ce_max_size ce - 5)
    [ce_msg_id ce] w HF) as (out & He & Hz & ->).
  { change (zlen [ce_msg_id ce]) with 1. lia. }
  eexists. rewrite (bind_Ret _ _ _ _ _ He). split; [done|].
  pose proof (zlen_nonneg (encode_args (map u32 vals))).
  rewrite zlen_app in *. change (zlen [ce_msg_id ce]) with 1 in *. lia.
Qed.

(** a response that ends in a data buffer longer than the space left is not
    clipped to [max_size]: the bytes are limited to the space left, the length
    byte is not counted, and the message comes out one byte too long (with
    [max_size] = MESSAGE_MAX it is a 65 byte block, which no receiver accepts). *)
Theorem encodef_buffer_overruns {W} ce off len s (w : W) :
  ce_param_types ce = [PT_uint32; PT_progmem_buffer] ->
  MESSAGE_MIN + 6 <= ce_max_size ce <= MESSAGE_MAX ->
  ce_max_size ce <= u32 len <= zlen s ->
  exists content, command_encodef 4 ce [VA_int off; VA_buffer len s] w
    = Ret (ce_max_size ce + 1, content) w.
Proof.
  intros Ht Hmax Hlen. unfold command_encodef. rewrite Ht.
  unfold MESSAGE_MIN, MESSAGE_MAX, MESSAGE_HEADER_SIZE, MESSAGE_TRAILER_SIZE in *.
  destruct (Z.leb_spec (ce_max_size ce) 5); [lia|].
  pose proof (encode_int_length_bound (u32 off) ltac:(apply u32_range)).
  destruct (encode_params_clip (ce_max_size ce - 5) ([ce_msg_id ce] ++ encode_int (u32 off))
    len s w) as (data & He & Hd); try (rewrite zlen_app; change (zlen [ce_msg_id ce]) with 1; lia).
  { lia. }
  assert (encode_params 4 (ce_max_size ce - 5) [PT_uint32; PT_progmem_buffer]
    [VA_int off; VA_buffer len s] [ce_msg_id ce] w
    = Ret (([ce_msg_id ce] ++ encode_int (u32 off)) ++ data) w) as Hp.
  { rewrite <- He. simpl. destruct (Z.ltb_spec (ce_max_size ce - 5) (zlen [ce_msg_id ce])) as [Hx|];
      [|done]. change (zlen [ce_msg_id ce]) with 1 in Hx. lia. }
  rewrite (bind_Ret _ _ _ _ _ Hp). eexists.
  assert (zlen (([ce_msg_id ce] ++ encode_int (u32 off)) ++ data) = ce_max_size ce - 4) as Hz.
  { rewrite zlen_app. lia. }
  rewrite Hz. replace (2 + (ce_max_size ce - 4) + 3) with (ce_max_size ce + 1) by lia. done.
Qed.

(** ** Instances of the properties *)

(** A board whose console discards its output, with a table of two commands:
    id 1 with two integer parameters, which loads its first argument into the
    expected sequence number (so that its effect is visible), and id 2 with no
    parameter. *)
Definition demo_env : CommandEnv cmd_state := {|
  env_console := {| env_console_sendf _ _ := ret tt |};
  env_sched_is_shutdown := ret false;
  env_sched_report_shutdown := ret tt;
  env_irq_poll := ret tt;
  env_command_index :=
    let nop := {| cp_num_args := 0; cp_flags := 0; cp_param_types := [];
                  cp_func _ := ret tt |} in
    [nop;
     {| cp_num_args := 2; cp_flags := 0; cp_param_types := [PT_uint32; PT_byte];
        cp_func args := modify (set_next_sequence (nthZ args 0)) |};
     nop];
  env_sizeof_size_t := 4;
  env_receive_base := 0;
|}.

Lemma demo_acknak_ok : acknak_ok (H0 := demo_env).
Proof. intros w. by exists w. Qed.

Lemma find_block_accepts_frames_witness :
  exists w1, command_find_block (H0 := demo_env) (frame 16 [1; 2; 3] ++ [7]) cmd_init
    = Ret (1, 8) w1.
Proof.
  apply (find_block_accepts_frames (H0 := demo_env) (frame 16 [1; 2; 3] ++ [7]) 8
    cmd_init cmd_init demo_acknak_ok).
  - vm_compute. repeat (constructor; [split; [discriminate|reflexivity]|]). constructor.
  - vm_compute. split; [discriminate|reflexivity].
  - reflexivity.
  - exists [1; 2; 3], [7]. split; [reflexivity|]. split; [|split; [discriminate|reflexivity]].
    repeat (constructor; [lia|]). constructor.
Defined.

Lemma find_block_progress_witness :
  exists r n w', command_find_block (H0 := demo_env) [1; 2; 3; 4; 126; 9] cmd_init
    = Ret (r, n) w' /\ (r <> 0 -> 1 <= n <= 6).
Proof.
  destruct (find_block_progress (H0 := demo_env) [1; 2; 3; 4; 126; 9] cmd_init
    demo_acknak_ok) as (r & n & w' & He & _ & _ & Hp & _).
  - repeat (constructor; [lia|]). constructor.
  - exists r, n, w'. split; [exact He|exact Hp].
Defined.



Lemma dispatch_memory_safe_witness :
  command_dispatch (H0 := demo_env) (frame 16 [1; 255; 255])
    (nthZ (frame 16 [1; 255; 255]) 0) cmd_init <> Stuck.
Proof.
  apply (dispatch_memory_safe (H0 := demo_env)).
  - split; [|repeat split; intros w; discriminate].
    intros [|[|[|i]]] cp Hcp; simpl in Hcp; try discriminate; injection Hcp as <-;
      (split; [vm_compute; discriminate|intros args w; discriminate]).
  - vm_compute. repeat (constructor; [split; [discriminate|reflexivity]|]). constructor.
  - reflexivity.
Defined.

Lemma encodef_within_max_size_witness :
  exists len, command_encodef (W := unit) 4
      {| ce_msg_id := 7; ce_max_size := 13; ce_param_types := [PT_byte; PT_uint32] |}
      (map VA_int [200; 70000]) tt
    = Ret (len, 7 :: encode_args (map u32 [200; 70000])) tt /\ 5 < len <= 13.
Proof.
  apply (encodef_within_max_size
    {| ce_msg_id := 7; ce_max_size := 13; ce_param_types := [PT_byte; PT_uint32] |}
    [200; 70000] tt).
  - repeat constructor; simpl; lia.
  - reflexivity.
Defined.

Lemma encodef_buffer_overruns_witness :
  exists content, command_encodef (W := unit) 4
      {| ce_msg_id := 0; ce_max_size := 64; ce_param_types := [PT_uint32; PT_progmem_buffer] |}
      [VA_int 0; VA_buffer 255 (repeat 1 255)] tt
    = Ret (65, content) tt.
Proof.
  apply (encodef_buffer_overruns
    {| ce_msg_id := 0; ce_max_size := 64; ce_param_types := [PT_uint32; PT_progmem_buffer] |}
    0 255 (repeat 1 255) tt).
  - reflexivity.
  - vm_compute. split; discriminate.
  - vm_compute. split; discriminate.
Defined.
