(* ===== verification/Msgblock.v ===== *)
(** * Message blocks on the host

    klippy/chelper/msgblock.c and msgblock.h: the host's copies of the wire
    primitives, the check of a received block, the encoding of commands and the
    clock estimate.  Pointers into buffers are as in [Wire]. *)

From S2P Require Import Prelude Double Wire Command CommandFacts.
From Stdlib Require Import Reals Lra.

(** ** Wire primitives *)

(** [msgblock_crc16_ccitt]; [len] is a [uint8_t]. *)
Definition msgblock_crc16_ccitt (buf : list Z) (len : Z) : Z :=
  (fix loop (n : nat) (buf : list Z) (crc : Z) : Z :=
     match n, buf with
     | S n, data :: buf =>
         let data := u8 (Z.lxor data (Z.land crc 255)) in
         let data := u8 (Z.lxor data (Z.shiftl data 4)) in
         loop n buf
           (u16 (Z.lxor (Z.lxor (Z.lor (Z.shiftl data 8) (Z.shiftr crc 8))
                                (u8 (Z.shiftr data 4)))
                        (Z.shiftl data 3)))
     | _, _ => crc
     end) (Z.to_nat (u8 len)) buf 65535.

(** The [error] label of [msgblock_check]: discard up to the next sync byte.
    The pair is the return value and [*need_sync]. *)
Definition msgblock_check_error (buf : list Z) : Z * Z :=
  match list_find (fun c => c = MESSAGE_SYNC) buf with
  | Some (i, _) => (- (Z.of_nat i + 1), 0)
  | None => (- zlen buf, 1)
  end.

Definition msgblock_check (need_sync : Z) (buf : list Z) : Z * Z :=
  let buf_len := zlen buf in
  if buf_len <? MESSAGE_MIN then (0, need_sync)
  else if z2b need_sync then msgblock_check_error buf
  else
  let msglen := nthZ buf MESSAGE_POS_LEN in
  if (msglen <? MESSAGE_MIN) || (MESSAGE_MAX <? msglen) then msgblock_check_error buf
  else
  let msgseq := nthZ buf MESSAGE_POS_SEQ in
  if negb (clear msgseq MESSAGE_SEQ_MASK =? MESSAGE_DEST) then msgblock_check_error buf
  else if buf_len <? msglen then (0, need_sync)
  else if negb (nthZ buf (msglen - MESSAGE_TRAILER_SYNC) =? MESSAGE_SYNC)
  then msgblock_check_error buf
  else
  let msgcrc := u16 (Z.lor (Z.shiftl (nthZ buf (msglen - MESSAGE_TRAILER_CRC)) 8)
                           (u8 (nthZ buf (msglen - MESSAGE_TRAILER_CRC + 1)))) in
  let crc := msgblock_crc16_ccitt buf (msglen - MESSAGE_TRAILER_SIZE) in
  if negb (crc =? msgcrc) then msgblock_check_error buf
  else (msglen, need_sync).

(** The host's [encode_int], in the order of the stores. *)
Definition msgblock_encode_int (v : Z) : list Z :=
  let sv := i32 v in
  let long := negb ((sv <? Z.shiftl 3 26) && (- Z.shiftl 1 26 <=? sv)) in
  let f1 := long || negb ((sv <? Z.shiftl 3 19) && (- Z.shiftl 1 19 <=? sv)) in
  let f2 := f1 || negb ((sv <? Z.shiftl 3 12) && (- Z.shiftl 1 12 <=? sv)) in
  let f3 := f2 || negb ((sv <? Z.shiftl 3 5) && (- Z.shiftl 1 5 <=? sv)) in
  (if long then [u8 (Z.lor (Z.shiftr v 28) 128)] else [])
  ++ (if f1 then [u8 (Z.lor (Z.land (Z.shiftr v 21) 127) 128)] else [])
  ++ (if f2 then [u8 (Z.lor (Z.land (Z.shiftr v 14) 127) 128)] else [])
  ++ (if f3 then [u8 (Z.lor (Z.land (Z.shiftr v 7) 127) 128)] else [])
  ++ [u8 (Z.land v 127)].

(** The host's [parse_int]; the loop is bounded by the buffer. *)
Definition msgblock_parse_int (pp : list Z) : option (Z * list Z) :=
  match pp with
  | [] => None
  | c :: p =>
      let v := Z.land c 127 in
      let v := if Z.land c 96 =? 96 then Z.lor v (u32 (- 32)) else v in
      (fix loop (c v : Z) (p : list Z) : option (Z * list Z) :=
         if has c 128 then
           match p with
           | [] => None
           | c :: p => loop c (u32 (Z.lor (Z.shiftl v 7) (Z.land c 127))) p
           end
         else Some (v, p)) c v p
  end.

(** The loop of [msgblock_decode]: [p] is an offset into [msg], [pend] the
    offset of the trailer.  [None] is a read past the end of [msg]; the result
    pairs the return value with the integers stored. *)
Fixpoint decode_loop (data_len : nat) (msg : list Z) (p pend : Z) (data : list Z) :
    option (Z * list Z) :=
  match data_len with
  | O => Some (if negb (p =? pend) then -1 else 0, data)
  | S data_len =>
      if pend <=? p then Some (-1, data)
      else match msgblock_parse_int (dropZ p msg) with
           | None => None
           | Some (v, rest) =>
               decode_loop data_len msg (zlen msg - zlen rest) pend (data ++ [v])
           end
  end.

Definition msgblock_decode (data_len : nat) (msg : list Z) (msg_len : Z) :
    option (Z * list Z) :=
  decode_loop data_len msg MESSAGE_HEADER_SIZE (msg_len - MESSAGE_TRAILER_SIZE) [].

(** ** Command queues *)

(** The union of [struct queue_message]. *)
Inductive qm_union (D : Type) : Type :=
| QM_clocks (min_clock req_clock : Z)
| QM_times (sent_time receive_time : D).
Arguments QM_clocks {D}.
Arguments QM_times {D}.

(** [msg] holds the first [len] bytes of the array. *)
Record queue_message (D : Type) := {
  qm_len : Z;
  qm_msg : list Z;
  qm_when : qm_union D;
  qm_notify_id : Z;
}.
Arguments qm_len {D}.
Arguments qm_msg {D}.
Arguments qm_when {D}.
Arguments qm_notify_id {D}.

Definition message_alloc {D} : queue_message D :=
  {| qm_len := 0; qm_msg := []; qm_when := QM_clocks 0 0; qm_notify_id := 0 |}.

Definition message_set {D} (msg : list Z) (len : Z) (qm : queue_message D) :
    queue_message D :=
  {| qm_len := len; qm_msg := takeZ len msg; qm_when := qm_when qm;
     qm_notify_id := qm_notify_id qm |}.

Definition message_fill {D} (data : list Z) (len : Z) : queue_message D :=
  message_set data len message_alloc.

(** The loop of [message_alloc_and_encode]; the array has [MESSAGE_MAX] bytes,
    [inl true] is a store past its end and [inl false] the [fail] label. *)
Fixpoint encode_loop (out data : list Z) : bool + list Z :=
  match data with
  | [] => inr out
  | d :: data =>
      let out := out ++ msgblock_encode_int d in
      if MESSAGE_MAX <? zlen out then inl true
      else if MESSAGE_PAYLOAD_MAX <? zlen out then inl false
      else encode_loop out data
  end.

(** The message and whether ["Encode error"] is logged; [None] is a store past
    the end of the array. *)
Definition message_alloc_and_encode {D} (data : list Z) :
    option (queue_message D * bool) :=
  match encode_loop [] data with
  | inl true => None
  | inl false => Some (message_set [] 0 message_alloc, true)
  | inr out => Some (message_set out (zlen out) message_alloc, false)
  end.

(** ** Clock estimation *)

Record clock_estimate (D : Type) := {
  last_clock : Z;
  conv_clock : Z;
  conv_time : D;
  est_freq : D;
}.
Arguments last_clock {D}.
Arguments conv_clock {D}.
Arguments conv_time {D}.
Arguments est_freq {D}.

Definition clock_from_clock32 {D} (ce : clock_estimate D) (clock32 : Z) : Z :=
  u64 (last_clock ce + i32 (u32 (clock32 - last_clock ce))).

Section clock_estimation.
Context {D : Type} `{DoubleOps D}.

Definition clock_to_time (ce : clock_estimate D) (clock : Z) : D :=
  (conv_time ce + dofZ (i64 (clock - conv_clock ce)) / est_freq ce)%D.

Definition clock_from_time (ce : clock_estimate D) (time : D) : Z :=
  u64 (i64 (dtruncZ ((time - conv_time ce) * est_freq ce + dlit 1 2)%D) + conv_clock ce).
End clock_estimation.

(** ** The host's primitives are the micro-controller's *)

Lemma msgblock_crc16_eq buf len :
  0 <= len < 256 -> msgblock_crc16_ccitt buf len = crc16_ccitt buf len.
Proof.
  intros Hlen. unfold msgblock_crc16_ccitt, crc16_ccitt, takeZ.
  rewrite u8_small by lia. generalize (Z.to_nat len) as n, 65535 as crc.
  clear. intros n. revert buf. induction n as [|n IH]; intros [|d buf] crc; done.
Qed.

Lemma msgblock_encode_int_eq v : msgblock_encode_int v = encode_int v.
Proof.
  unfold msgblock_encode_int, encode_int. cbn zeta.
  change (Z.shiftl 3 5) with 96. change (Z.shiftl 1 5) with 32.
  change (Z.shiftl 3 12) with 12288. change (Z.shiftl 1 12) with 4096.
  change (Z.shiftl 3 19) with 1572864. change (Z.shiftl 1 19) with 524288.
  change (Z.shiftl 3 26) with 201326592. change (Z.shiftl 1 26) with 67108864.
  repeat match goal with
  | |- context [i32 v <? ?b] => destruct (Z.ltb_spec (i32 v) b)
  | |- context [?b <=? i32 v] => destruct (Z.leb_spec b (i32 v))
  end; try lia; reflexivity.
Qed.

Lemma msgblock_parse_int_eq p : msgblock_parse_int p = parse_int p.
Proof.
  destruct p as [|c p]; [done|]. unfold msgblock_parse_int, parse_int.
  generalize (if Z.land c 96 =? 96 then Z.lor (Z.land c 127) (u32 (- 32))
              else Z.land c 127) as v.
  revert c. induction p as [|c' p IH]; intros c v; [done|].
  destruct (has c 128); [apply IH|done].
Qed.

(** ** Blocks *)

Lemma msgblock_check_error_range buf r ns :
  buf <> [] -> msgblock_check_error buf = (r, ns) ->
  - zlen buf <= r < 0 /\ (ns = 1 -> r = - zlen buf).
Proof.
  intros Hb. unfold msgblock_check_error.
  destruct (list_find _ buf) as [[i x]|] eqn:E; intros [= <- <-].
  - apply list_find_sync_bound in E. lia.
  - destruct buf; [done|]. unfold zlen. simpl. lia.
Qed.

Lemma nthZ_byte_u8 buf i : bytes buf -> u8 (nthZ buf i) = nthZ buf i.
Proof. intros. apply u8_small. by apply bytes_nthZ. Qed.

(** The four outcomes of [msgblock_check], by the predicates on blocks. *)
Lemma msgblock_check_eq buf ns :
  bytes buf ->
  msgblock_check ns buf =
    (if zlen buf <? 5 then (0, ns)
     else if z2b ns then msgblock_check_error buf
     else if block_ok buf then (nthZ buf 0, ns)
     else if need_more buf then (0, ns)
     else msgblock_check_error buf).
Proof.
  intros Hb. unfold msgblock_check, block_ok, need_more, MESSAGE_MIN, MESSAGE_MAX,
    MESSAGE_POS_LEN, MESSAGE_POS_SEQ, MESSAGE_SEQ_MASK, MESSAGE_DEST,
    MESSAGE_TRAILER_SYNC, MESSAGE_SYNC, MESSAGE_TRAILER_CRC, MESSAGE_TRAILER_SIZE.
  destruct (Z.ltb_spec (zlen buf) 5); [done|]. destruct (z2b ns); [done|]. cbn zeta.
  rewrite nthZ_byte_u8 by done.
  replace (nthZ buf 0 - 3 + 1) with (nthZ buf 0 - 2) by lia.
  destruct (Z.ltb_spec (nthZ buf 0) 5), (Z.leb_spec 5 (nthZ buf 0)); try lia; [done|].
  destruct (Z.ltb_spec 64 (nthZ buf 0)), (Z.leb_spec (nthZ buf 0) 64); try lia; [done|].
  destruct (clear (nthZ buf 1) 15 =? 16) eqn:E1; [|done].
  rewrite msgblock_crc16_eq by lia.
  destruct (Z.ltb_spec (zlen buf) (nthZ buf 0)), (Z.leb_spec (nthZ buf 0) (zlen buf));
    try lia; [done|].
  destruct (nthZ buf (nthZ buf 0 - 1) =? 126) eqn:E2; [|done].
  by destruct (crc16_ccitt buf (nthZ buf 0 - 3) =? _).
Qed.

(** ** Encoded integers *)

Lemma encode_loop_spec data out :
  Forall is_u32 data -> zlen out <= 59 ->
  encode_loop out data =
    (if decide (zlen out + zlen (encode_args data) <= 59)
     then inr (out ++ encode_args data) else inl false).
Proof.
  intros Hd. revert out. induction Hd as [|d data Hv Hd IH]; intros out Hout.
  - unfold encode_args; simpl. unfold zlen at 2; simpl.
    destruct decide; [by rewrite app_nil_r|lia].
  - pose proof (encode_int_length_bound d Hv).
    pose proof (zlen_nonneg (encode_args data)).
    assert (Hl : zlen (encode_args (d :: data))
                 = zlen (encode_int d) + zlen (encode_args data)).
    { unfold encode_args. simpl. apply zlen_app. }
    cbn [encode_loop]. rewrite msgblock_encode_int_eq, zlen_app, Hl.
    unfold MESSAGE_MAX, MESSAGE_PAYLOAD_MAX, MESSAGE_MAX, MESSAGE_MIN.
    destruct (Z.ltb_spec 64 (zlen out + zlen (encode_int d))); [lia|].
    destruct (Z.ltb_spec (64 - 5) (zlen out + zlen (encode_int d))).
    + destruct decide; [lia|done].
    + rewrite IH, zlen_app by (rewrite zlen_app; lia).
      destruct (decide (_ + (zlen (encode_int d) + _) <= 59)), decide; try lia; [|done].
      unfold encode_args. simpl. by rewrite <- app_assoc.
Qed.

Lemma decode_loop_encoded data pre tail acc pend :
  Forall is_u32 data -> pend = zlen pre + zlen (encode_args data) ->
  decode_loop (length data) (pre ++ encode_args data ++ tail) (zlen pre) pend acc
  = Some (0, acc ++ data).
Proof.
  intros Hd. revert pre acc. induction Hd as [|d data Hv Hd IH]; intros pre acc Hp.
  - subst pend. unfold encode_args, zlen at 2; simpl. rewrite Z.add_0_r, Z.eqb_refl.
    by rewrite app_nil_r.
  - pose proof (encode_int_length_bound d Hv). pose proof (zlen_nonneg (encode_args data)).
    unfold encode_args in *. simpl in Hp |- *. rewrite zlen_app in Hp.
    destruct (Z.leb_spec pend (zlen pre)); [lia|].
    rewrite dropZ_app_exact, <- app_assoc, msgblock_parse_int_eq, parse_encode_int by done.
    replace (zlen (pre ++ encode_int d ++ concat (map encode_int data) ++ tail)
             - zlen (concat (map encode_int data) ++ tail))
      with (zlen (pre ++ encode_int d)) by (rewrite !zlen_app; lia).
    rewrite (app_assoc pre (encode_int d)), IH; [by rewrite <- app_assoc|].
    rewrite !zlen_app. lia.
Qed.

(** ** Properties *)

(** [msgblock_check] accepts exactly the well-formed blocks: outside of
    resynchronisation it returns a positive length if and only if the received
    bytes start with a block of that length, as the micro-controller frames it
    (length, sequence, content, CRC, sync).  Otherwise it reports 0 only while
    the bytes may still be the start of a block, and else discards between one
    byte and the whole buffer; it never returns a length outside of the buffer. *)
Theorem msgblock_check_spec buf ns r ns' :
  bytes buf -> msgblock_check ns buf = (r, ns') ->
  (0 < r <-> z2b ns = false /\ exists seq content rest,
     buf = frame seq content ++ rest /\ seq_byte seq /\ bytes content /\
     zlen content <= MESSAGE_PAYLOAD_MAX) /\
  (0 < r -> ns' = ns /\ exists seq content rest,
     buf = frame seq content ++ rest /\ r = MESSAGE_MIN + zlen content) /\
  (r = 0 -> ns' = ns /\ need_more buf = true) /\
  - zlen buf <= r <= zlen buf.
Proof.
  intros Hb. rewrite msgblock_check_eq by done.
  destruct (Z.ltb_spec (zlen buf) 5) as [Hl|Hl].
  { intros [= <- <-]. repeat split; try lia; try done.
    - intros (_ & seq & content & rest & -> & _ & _ & Hc).
      unfold MESSAGE_PAYLOAD_MAX, MESSAGE_MAX, MESSAGE_MIN in Hc.
      rewrite zlen_app, zlen_frame in Hl by lia.
      pose proof (zlen_nonneg content). pose proof (zlen_nonneg rest). lia.
    - unfold need_more. destruct (Z.ltb_spec (zlen buf) 5); [done|lia].
    - pose proof (zlen_nonneg buf). lia.
    - apply zlen_nonneg. }
  assert (Hne : buf <> []) by (intros ->; unfold zlen in Hl; simpl in Hl; lia).
  destruct (z2b ns) eqn:Hns.
  { intros Hr. apply msgblock_check_error_range in Hr as [Hr _]; [|done].
    repeat split; try lia; try (intros; lia). }
  destruct (block_ok buf) eqn:Hok.
  - intros [= <- <-].
    destruct (block_ok_inv buf Hb Hok) as (content & rest & Hbuf & Hc & H0 & Hlen & Hs).
    pose proof (zlen_nonneg content).
    assert (nthZ buf 0 <= zlen buf).
    { rewrite Hbuf at 2. rewrite zlen_app, zlen_frame by lia.
      pose proof (zlen_nonneg rest). lia. }
    repeat split; try lia; try done; eauto 10.
  - assert (Hno : ~ exists seq content rest,
      buf = frame seq content ++ rest /\ seq_byte seq /\ bytes content /\
      zlen content <= MESSAGE_PAYLOAD_MAX).
    { intros (seq & content & rest & -> & Hs & Hc & Hlen).
      by rewrite block_ok_frame in Hok. }
    destruct (need_more buf) eqn:Hm.
    + intros [= <- <-]. repeat split; try lia; try done. by intros [_ ?].
    + intros Hr. apply msgblock_check_error_range in Hr as [Hr _]; [|done].
      repeat split; try lia; try (intros; lia). intros [_ ?]. done.
Qed.

(** A valid block followed by another byte is accepted; a block with a broken
    check sum is discarded up to its sync byte. *)
Lemma msgblock_check_spec_witness :
  msgblock_check 0 (frame 16 [1; 2] ++ [9]) = (7, 0) /\ 7 <= zlen (frame 16 [1; 2] ++ [9]).
Proof.
  split; [by vm_compute|].
  apply (msgblock_check_spec (frame 16 [1; 2] ++ [9]) 0 7 0); [|by vm_compute].
  unfold bytes. vm_compute. repeat constructor; done.
Defined.

(** C33: Round trip of a host message.  For any list of 32-bit values
    [message_alloc_and_encode] never stores outside of the 64-byte array; it
    logs an error, and returns an empty message, exactly when the encoding
    exceeds the payload of a block; and otherwise [msgblock_decode] reads the
    same values back from the block that carries the message. *)
Theorem encode_decode_roundtrip {D} data seq :
  Forall is_u32 data ->
  exists qm err, message_alloc_and_encode (D := D) data = Some (qm, err) /\
    qm_len qm = zlen (qm_msg qm) /\ qm_len qm <= MESSAGE_PAYLOAD_MAX /\
    (err = true <-> MESSAGE_PAYLOAD_MAX < zlen (encode_args data)) /\
    (err = false ->
     msgblock_decode (length data) (frame seq (qm_msg qm)) (MESSAGE_MIN + qm_len qm)
     = Some (0, data)).
Proof.
  intros Hd. unfold message_alloc_and_encode.
  rewrite encode_loop_spec by done.
  unfold zlen at 1. cbn [length Z.of_nat Z.add app].
  change MESSAGE_PAYLOAD_MAX with 59.
  destruct decide as [Hle|Hgt]; eexists _, _; split; try reflexivity;
    cbn [qm_len qm_msg message_set message_alloc].
  - assert (Ht : takeZ (zlen (encode_args data)) (encode_args data) = encode_args data).
    { unfold takeZ, zlen. rewrite Nat2Z.id. apply firstn_all. }
    rewrite Ht. repeat split; try lia; try done. intros _.
    unfold msgblock_decode. rewrite frame_unfold by lia.
    apply (decode_loop_encoded data [_; _]); [done|].
    change (zlen [_; _]) with 2. unfold MESSAGE_MIN, MESSAGE_TRAILER_SIZE. lia.
  - repeat split; try done; lia.
Qed.

(** Four integers and a byte survive the trip; fourteen long ones do not fit. *)
Lemma encode_decode_roundtrip_witness :
  msgblock_decode 3 (frame 16 (concat (map encode_int [5; 4294967295; 100000]))) 10
  = Some (0, [5; 4294967295; 100000]) /\
  exists qm err, message_alloc_and_encode (D := unit) [5; 4294967295; 100000] = Some (qm, err) /\
    qm_len qm = zlen (qm_msg qm).
Proof.
  split; [by vm_compute|].
  destruct (encode_decode_roundtrip (D := unit) [5; 4294967295; 100000] 16)
    as (qm & err & H & Hl & _); [|by exists qm, err].
  repeat constructor; unfold is_u32; lia.
Defined.

(** A 32-bit clock sent by the micro-controller is extended to the full
    64-bit counter value whenever the counter is less than 2^31 ticks from the
    last known clock, in either direction. *)
Theorem clock32_extension {D} (ce : clock_estimate D) clock :
  0 <= clock < 18446744073709551616 -> 0 <= last_clock ce < 18446744073709551616 ->
  - 2147483648 <= clock - last_clock ce < 2147483648 ->
  clock_from_clock32 ce (u32 clock) = clock.
Proof. intros Hc Hl Hd. unfold clock_from_clock32. wrap_lia. Qed.

Lemma clock32_extension_witness :
  clock_from_clock32 {| last_clock := 4294967290; conv_clock := 0; conv_time := tt;
                        est_freq := tt |} (u32 4294967300) = 4294967300.
Proof. apply clock32_extension; cbn; lia. Defined.

(** Clock and time conversion, in exact arithmetic: converting a clock to its
    time and back gives the clock again for every clock at or after the
    reference clock of the estimate (up to 2^63 ticks), and one tick more for an
    earlier clock, because the conversion truncates toward zero. *)
Theorem clock_time_roundtrip (ce : clock_estimate R) clock :
  (0 < est_freq ce)%R ->
  0 <= clock < 18446744073709551616 -> 0 <= conv_clock ce < 18446744073709551616 ->
  - 9223372036854775808 <= clock - conv_clock ce < 9223372036854775807 ->
  clock_from_time ce (clock_to_time ce clock)
  = if conv_clock ce <=? clock then clock else u64 (clock + 1).
Proof.
  intros Hf Hc Hk Hd. unfold clock_from_time, clock_to_time, dlit. cbn.
  replace (i64 (clock - conv_clock ce)) with (clock - conv_clock ce) by wrap_lia.
  set (d := clock - conv_clock ce) in *.
  replace ((conv_time ce + IZR d / est_freq ce - conv_time ce) * est_freq ce + 1 / 2)%R
    with (IZR d + / 2)%R by (field; lra).
  destruct (Z.leb_spec (conv_clock ce) clock).
  - rewrite (R_trunc_pos _ d) by (lia || lra). subst d. wrap_lia.
  - assert (Hd1 : (IZR d <= -1)%R) by (apply IZR_le; lia).
    rewrite (R_trunc_neg _ (d + 1)) by (rewrite ?plus_IZR; lia || lra).
    subst d. wrap_lia.
Qed.

Lemma clock_time_roundtrip_witness :
  clock_from_time {| last_clock := 0; conv_clock := 1000; conv_time := 2%R;
                     est_freq := 16%R |}
    (clock_to_time {| last_clock := 0; conv_clock := 1000; conv_time := 2%R;
                     est_freq := 16%R |} 990) = 991.
Proof.
  rewrite (clock_time_roundtrip {| last_clock := 0; conv_clock := 1000; conv_time := 2%R;
                     est_freq := 16%R |} 990); cbn; try lia; try lra. done.
Defined.
