(* ===== verification/Sched.v ===== *)
(** * The scheduler of the micro-controller

    src/sched.c and the clock arithmetic and timer dispatch loop of
    src/generic/timer_irq.c.  Timers live in a heap: a [struct timer *] is a
    [tid] (the three static timers of sched.c, or the timer in slot [slot] of the
    object [oid]), the heap maps it to its [next], [func] and [waketime] fields.
    The clock, the interrupt controller and the functions behind function
    pointers are the interfaces [Board] and [Firmware]. *)

From S2P Require Import Prelude.

(** ** Configuration and clock arithmetic *)

(** The build configuration (autoconf.h). *)
Class Config := {
  CONFIG_CLOCK_FREQ : Z;
  CONFIG_INLINE_STEPPER_HACK : bool;
  CONFIG_HAVE_STEPPER_BOTH_EDGE : bool;
  CONFIG_MACH_AVR : bool;
}.

Definition timer_from_us `{Config} (us : Z) : Z :=
  u32 (us * (CONFIG_CLOCK_FREQ / 1000000)).

Definition timer_is_before (time1 time2 : Z) : bool :=
  i32 (u32 (time1 - time2)) <? 0.

(** ** Data *)

Inductive tid : Type :=
| T_periodic | T_sentinel | T_deleted
| T_obj (oid slot : Z).

#[export] Instance tid_eq_dec : EqDecision tid.
Proof. solve_decision. Defined.

#[export] Instance tid_countable : Countable tid.
Proof.
  refine (inj_countable'
    (fun t => match t with
              | T_periodic => inl 0%nat | T_sentinel => inl 1%nat
              | T_deleted => inl 2%nat | T_obj o s => inr (o, s) end)
    (fun x => match x with
              | inl 0%nat => T_periodic | inl 1%nat => T_sentinel
              | inl _ => T_deleted | inr (o, s) => T_obj o s end) _).
  by intros [].
Defined.

(** The functions a timer may point to. *)
Inductive timer_func : Type :=
| F_periodic_event | F_sentinel_event | F_deleted_event
| F_stepper_event_full
| F_endstop_event | F_endstop_oversample_event
| F_trsync_report_event | F_trsync_expire_event
| F_digital_toggle_event | F_digital_load_event
| F_pwm_event | F_pwm_end_event
| F_analog_in_event | F_buttons_event | F_counter_event
| F_tmcuart_send_sync_event | F_tmcuart_send_event | F_tmcuart_send_finish_event
| F_tmcuart_read_sync_event | F_tmcuart_read_event
| F_thermocouple_event
| F_adxl345_event | F_mpu9250_event | F_angle_event.

#[export] Instance timer_func_eq_dec : EqDecision timer_func.
Proof. solve_decision. Defined.

Record timer := mk_timer {
  t_next : option tid;
  t_func : option timer_func;
  t_waketime : Z;
}.
#[export] Instance eta_timer : Settable timer :=
  fun t => mk_timer (t_next t) (t_func t) (t_waketime t).

Definition SF_DONE : Z := 0.
Definition SF_RESCHEDULE : Z := 1.

(** [SchedStatus], the timer heap, and [timer_repeat_until] of timer_irq.c. *)
Record sched_state := mk_sched {
  timers : gmap tid timer;
  timer_list : tid;
  last_insert : tid;
  tasks_status : Z;
  shutdown_status : Z;
  shutdown_reason : Z;
  timer_repeat_until : Z;
}.
#[export] Instance eta_sched : Settable sched_state := fun s =>
  mk_sched (timers s) (timer_list s) (last_insert s) (tasks_status s)
    (shutdown_status s) (shutdown_reason s) (timer_repeat_until s).

Definition TS_IDLE : Z := -1.
Definition TS_REQUESTED : Z := 0.
Definition TS_RUNNING : Z := 1.

(** The static initialisers. *)
Definition periodic_timer : timer :=
  {| t_next := Some T_sentinel; t_func := Some F_periodic_event; t_waketime := 0 |}.
Definition sentinel_timer : timer :=
  {| t_next := None; t_func := Some F_sentinel_event; t_waketime := 2147483648 |}.
Definition deleted_timer : timer :=
  {| t_next := None; t_func := Some F_deleted_event; t_waketime := 0 |}.

Definition sched_init : sched_state :=
  {| timers := {[ T_periodic := periodic_timer; T_sentinel := sentinel_timer;
                  T_deleted := deleted_timer ]};
     timer_list := T_periodic; last_insert := T_periodic;
     tasks_status := 0; shutdown_status := 0; shutdown_reason := 0;
     timer_repeat_until := 0 |}.

(** ** Interfaces *)

(** The board: the free running 32-bit clock, the timer interrupt and the
    interrupt controller. *)
Class Board (W : Type) := {
  timer_read_time : M W Z;
  timer_kick : M W unit;
  irq_poll : M W unit;
  irq_wait : M W unit;
}.

(** What the scheduler calls in the rest of the firmware: the functions behind
    [t->func], the optimised stepper entry point, and the lists of task and
    shutdown functions the build generates. *)
Class Firmware (W : Type) := {
  call_timer_func : timer_func -> tid -> M W Z;
  call_stepper_event : tid -> M W Z;
  ctr_run_taskfuncs : M W unit;
  ctr_run_shutdownfuncs : M W unit;
  ctr_lookup_static_string : string -> Z;
  call_stats_update : Z -> Z -> M W unit;
  send_shutdown : Z -> Z -> M W unit;
  send_is_shutdown : Z -> M W unit;
}.

Section sched.
Context {W : Type} {cfg : Config} {PS : Part W sched_state} {BD : Board W}.

Definition sget {A} (f : sched_state -> A) : M W A := gets (fun w => f (part_get w)).
Definition smod (f : sched_state -> sched_state) : M W unit :=
  modify (fun w => part_set (f (part_get w)) w).

(** [*t] and an assignment to [*t]. *)
Definition tget (t : tid) : M W timer :=
  o <- sget (fun s => timers s !! t) ;; deref o.
Definition tset (t : tid) (v : timer) : M W unit :=
  smod (fun s => s <| timers ::= <[t := v]> |>).
Definition tmod (t : tid) (f : timer -> timer) : M W unit :=
  v <- tget t ;; tset t (f v).

(** ** Timers *)

(** The search loop of [insert_timer]: the pair is [(prev, pos)].  The list
    cannot be longer than the heap, so the heap size is enough fuel. *)
Fixpoint insert_loop (fuel : nat) (pos : tid) (waketime : Z) : M W (tid * tid) :=
  match fuel with
  | O => stuck
  | S fuel =>
      let prev := pos in
      p <- tget pos ;;
      pos <- deref (t_next p) ;;
      q <- tget pos ;;
      if timer_is_before waketime (t_waketime q) then ret (prev, pos)
      else insert_loop fuel pos waketime
  end.

Definition insert_timer (pos t : tid) (waketime : Z) : M W unit :=
  fuel <- sget (fun s => size (timers s)) ;;
  '(prev, pos) <- insert_loop fuel pos waketime ;;
  tmod t (fun v => v <| t_next := Some pos |>) ;;
  tmod prev (fun v => v <| t_next := Some t |>).

(** [sched_try_shutdown]. *)
Definition sched_try_shutdown (reason : string) : M W unit :=
  st <- sget shutdown_status ;;
  when (st =? 0) (shutdown reason).

Definition sched_add_timer (add : tid) : M W unit :=
  a <- tget add ;;
  let waketime := t_waketime a in
  tl <- sget timer_list ;;
  tlv <- tget tl ;;
  if timer_is_before waketime (t_waketime tlv) then
    now <- timer_read_time ;;
    when (timer_is_before waketime now) (sched_try_shutdown "Timer too close") ;;
    (if decide (tl = T_deleted) then
       d <- tget T_deleted ;;
       tmod add (fun v => v <| t_next := t_next d |>)
     else tmod add (fun v => v <| t_next := Some tl |>)) ;;
    tmod T_deleted (fun v => v <| t_waketime := waketime |>) ;;
    tmod T_deleted (fun v => v <| t_next := Some add |>) ;;
    smod (fun s => s <| timer_list := T_deleted |>) ;;
    timer_kick
  else insert_timer tl add waketime.

(** The search loop of [sched_del_timer]. *)
Fixpoint del_loop (fuel : nat) (pos del : tid) : M W unit :=
  match fuel with
  | O => stuck
  | S fuel =>
      p <- tget pos ;;
      match t_next p with
      | None => ret tt
      | Some next =>
          if decide (next = del) then
            d <- tget del ;;
            tmod pos (fun v => v <| t_next := t_next d |>)
          else del_loop fuel next del
      end
  end.

Definition sched_del_timer (del : tid) : M W unit :=
  tl <- sget timer_list ;;
  (if decide (tl = del) then
     d <- tget del ;;
     tmod T_deleted (fun v => v <| t_waketime := t_waketime d |>) ;;
     tmod T_deleted (fun v => v <| t_next := t_next d |>) ;;
     smod (fun s => s <| timer_list := T_deleted |>)
   else
     fuel <- sget (fun s => size (timers s)) ;;
     del_loop fuel tl del) ;;
  li <- sget last_insert ;;
  when (bool_decide (li = del)) (smod (fun s => s <| last_insert := T_periodic |>)).

Definition sched_timer_reset : M W unit :=
  smod (fun s => s <| timer_list := T_deleted |>) ;;
  p <- tget T_periodic ;;
  tmod T_deleted (fun v => v <| t_waketime := t_waketime p |>) ;;
  smod (fun s => s <| last_insert := T_periodic |>) ;;
  tmod T_deleted (fun v => v <| t_next := Some T_periodic |>) ;;
  tmod T_periodic (fun v => v <| t_next := Some T_sentinel |>) ;;
  timer_kick.

(** ** Tasks *)

Definition sched_wake_tasks : M W unit :=
  smod (fun s => s <| tasks_status := TS_REQUESTED |>).

Definition sched_tasks_busy : M W bool :=
  st <- sget tasks_status ;; ret (TS_REQUESTED <=? st).

(** ** Callbacks of the static timers *)

Definition periodic_event : M W Z :=
  sched_wake_tasks ;;
  tmod T_periodic (fun v =>
    v <| t_waketime := u32 (t_waketime v + timer_from_us 100000) |>) ;;
  p <- tget T_periodic ;;
  tmod T_sentinel (fun v => v <| t_waketime := u32 (t_waketime p + 2147483648) |>) ;;
  ret SF_RESCHEDULE.

Definition sentinel_event : M W Z := shutdown "sentinel timer called".
Definition deleted_event : M W Z := ret SF_DONE.

Context {FW : Firmware W}.

(** [t->func(t)]. *)
Definition run_timer_func (f : timer_func) (t : tid) : M W Z :=
  match f with
  | F_periodic_event => periodic_event
  | F_sentinel_event => sentinel_event
  | F_deleted_event => deleted_event
  | _ => call_timer_func f t
  end.

(** The first half of [sched_timer_dispatch]: invoke the callback. *)
Definition dispatch_callback (t : tid) : M W Z :=
  tv <- tget t ;;
  match t_func tv with
  | None => if CONFIG_INLINE_STEPPER_HACK then call_stepper_event t else stuck
  | Some f => run_timer_func f t
  end.

Definition sched_timer_dispatch : M W Z :=
  t <- sget timer_list ;;
  res <- dispatch_callback t ;;
  tv <- tget t ;;
  let updated_waketime := t_waketime tv in
  if res =? SF_DONE then
    next <- deref (t_next tv) ;;
    nv <- tget next ;;
    let next_waketime := t_waketime nv in
    smod (fun s => s <| timer_list := next |>) ;;
    li <- sget last_insert ;;
    when (bool_decide (li = t)) (smod (fun s => s <| last_insert := next |>)) ;;
    ret next_waketime
  else
    next <- deref (t_next tv) ;;
    nv <- tget next ;;
    if negb (timer_is_before updated_waketime (t_waketime nv)) then
      let next_waketime := t_waketime nv in
      smod (fun s => s <| timer_list := next |>) ;;
      pos <- sget last_insert ;;
      pv <- tget pos ;;
      let pos := if timer_is_before updated_waketime (t_waketime pv) then next else pos in
      insert_timer pos t updated_waketime ;;
      smod (fun s => s <| last_insert := t |>) ;;
      ret next_waketime
    else ret updated_waketime.

(** ** timer_irq.c *)

Definition TIMER_IDLE_REPEAT_TICKS : Z := timer_from_us 500.
Definition TIMER_REPEAT_TICKS : Z := timer_from_us 100.
Definition TIMER_MIN_TRY_TICKS : Z := timer_from_us 2.
Definition TIMER_DEFER_REPEAT_TICKS : Z := timer_from_us 5.

(** [while (diff > 0) diff = next - timer_read_time()]. *)
Fixpoint wait_loop (fuel : nat) (next diff : Z) : M W unit :=
  if 0 <? diff then
    match fuel with
    | O => stuck
    | S fuel =>
        now <- timer_read_time ;;
        wait_loop fuel next (i32 (u32 (next - now)))
    end
  else ret tt.

(** [timer_dispatch_many]; [fuel] bounds the timers run in one interrupt and
    the clock reads of one wait. *)
Fixpoint dispatch_many_loop (fuel : nat) (tru : Z) : M W Z :=
  match fuel with
  | O => stuck
  | S fuel =>
      next <- sched_timer_dispatch ;;
      now <- timer_read_time ;;
      let diff := i32 (u32 (next - now)) in
      if i32 TIMER_MIN_TRY_TICKS <? diff then ret next
      else
      let continue tru := wait_loop fuel next diff ;; dispatch_many_loop fuel tru in
      if timer_is_before tru now then
        when (diff <? i32 (u32 (- timer_from_us 1000)))
          (sched_try_shutdown "Rescheduled timer in the past") ;;
        busy <- sched_tasks_busy ;;
        if busy : bool then
          smod (fun s => s <| timer_repeat_until := u32 (now + TIMER_REPEAT_TICKS) |>) ;;
          ret (u32 (now + TIMER_DEFER_REPEAT_TICKS))
        else
          let tru := u32 (now + TIMER_IDLE_REPEAT_TICKS) in
          smod (fun s => s <| timer_repeat_until := tru |>) ;;
          continue tru
      else continue tru
  end.

Definition timer_dispatch_many (fuel : nat) : M W Z :=
  tru <- sget timer_repeat_until ;; dispatch_many_loop fuel tru.

Definition timer_task : M W unit :=
  now <- timer_read_time ;;
  tru <- sget timer_repeat_until ;;
  when (timer_is_before tru now) (smod (fun s => s <| timer_repeat_until := now |>)).

(** ** Shutdown processing *)

Definition sched_is_shutdown : M W bool :=
  st <- sget shutdown_status ;; ret (negb (st =? 0)).

Definition sched_clear_shutdown : M W unit :=
  st <- sget shutdown_status ;;
  if st =? 0 then shutdown "Shutdown cleared when not shutdown"
  else if st =? 2 then ret tt
  else smod (fun s => s <| shutdown_status := 0 |>).

Definition run_shutdown (reason : Z) : M W unit :=
  cur <- timer_read_time ;;
  st <- sget shutdown_status ;;
  when (st =? 0) (smod (fun s => s <| shutdown_reason := u8 reason |>)) ;;
  smod (fun s => s <| shutdown_status := 2 |>) ;;
  sched_timer_reset ;;
  ctr_run_shutdownfuncs ;;
  smod (fun s => s <| shutdown_status := 1 |>) ;;
  r <- sget shutdown_reason ;;
  send_shutdown cur r.

Definition sched_report_shutdown : M W unit :=
  r <- sget shutdown_reason ;; send_is_shutdown r.

(** The value [setjmp] returns after [longjmp(shutdown_jmp, reason)]. *)
Definition longjmp_value (reason : string) : Z :=
  let r := ctr_lookup_static_string reason in if r =? 0 then 1 else r.

(** ** The main loop *)

(** [do irq_wait(); while (tasks_status != TS_REQUESTED)]. *)
Fixpoint sleep_loop (fuel : nat) : M W unit :=
  match fuel with
  | O => stuck
  | S fuel =>
      irq_wait ;;
      st <- sget tasks_status ;;
      if negb (st =? TS_REQUESTED) then sleep_loop fuel else ret tt
  end.

(** One iteration of the loop of [run_tasks]; the result is the next [start].
    [fuel] bounds the interrupts the processor sleeps through. *)
Definition run_tasks_iteration (fuel : nat) (start : Z) : M W Z :=
  irq_poll ;;
  st <- sget tasks_status ;;
  start <- (if negb (st =? TS_REQUESTED) then
              now <- timer_read_time ;;
              let start := u32 (start - now) in
              st <- sget tasks_status ;;
              when (negb (st =? TS_REQUESTED))
                (smod (fun s => s <| tasks_status := TS_IDLE |>) ;; sleep_loop fuel) ;;
              now <- timer_read_time ;;
              ret (u32 (start + now))
            else ret start) ;;
  smod (fun s => s <| tasks_status := TS_RUNNING |>) ;;
  ctr_run_taskfuncs ;;
  cur <- timer_read_time ;;
  call_stats_update start cur ;;
  ret cur.

(** [sched_main] after start up, as a transition system: run one iteration of
    [run_tasks], or, when it shut down, go through the [setjmp] point. *)
Definition main_step (fuel : nat) (start : Z) : M W Z := fun w =>
  match run_tasks_iteration fuel start w with
  | Shut reason w' =>
      (run_shutdown (longjmp_value reason) ;; timer_read_time) w'
  | o => o
  end.
End sched.
