(* ===== verification/SchedFacts.v ===== *)
(** * Properties of the scheduler

    The timer heap of [Sched] implements a priority queue: [timers_rep] relates
    the linked list in the heap to a list of timers sorted by (unwrapped) time,
    and every operation of sched.c is shown to implement an operation on that
    list.  The clock wraps around every 2^32 ticks; a queue is meaningful as long
    as its times lie in a window of 2^31 ticks starting at some time [B]. *)

From S2P Require Import Prelude Sched.
From Stdlib Require Import Sorting.Sorted.

(** ** The abstract queue *)

Notation queue := (list (tid * Z)).

(** Insert after every timer that is not later. *)
Fixpoint q_insert (t : tid) (x : Z) (q : queue) : queue :=
  match q with
  | [] => [(t, x)]
  | (y, ty) :: q' => if x <? ty then (t, x) :: q else (y, ty) :: q_insert t x q'
  end.

Definition q_remove (t : tid) (q : queue) : queue := filter (fun p => p.1 <> t) q.

Definition q_sorted (q : queue) : Prop := StronglySorted (fun a b => a.2 <= b.2) q.

(** ** The linked list *)

(** [linked h l]: following [next] from the head of [l] visits the timers [l] in
    order, and the last of them is the sentinel. *)
Fixpoint linked (h : gmap tid timer) (l : list tid) : Prop :=
  match l with
  | [] => False
  | x :: l' =>
      match l' with
      | [] => x = T_sentinel /\ exists v, h !! x = Some v /\ t_next v = None
      | y :: _ => (exists v, h !! x = Some v /\ t_next v = Some y) /\ linked h l'
      end
  end.

Definition wake_at (h : gmap tid timer) (t : tid) (x : Z) : Prop :=
  exists v, h !! t = Some v /\ t_waketime v = u32 x.

Definition in_window (B x : Z) : Prop := B <= x < B + 2147483648.

(** The queue [q] is stored in [h] behind the prefix [pre], in front of the
    sentinel. *)
Record stored (B : Z) (h : gmap tid timer) (pre : list tid) (q : queue) : Prop := {
  st_linked : linked h (pre ++ q.*1 ++ [T_sentinel]);
  st_nodup : NoDup (pre ++ q.*1 ++ [T_sentinel]);
  st_sorted : q_sorted q;
  st_times : Forall (fun p => wake_at h p.1 p.2 /\ in_window B p.2) q;
  st_deleted : T_deleted ∉ q.*1;
}.

(** The static timers keep their functions. *)
Definition static_ok (h : gmap tid timer) : Prop :=
  (exists v, h !! T_deleted = Some v /\ t_func v = Some F_deleted_event) /\
  (exists v, h !! T_periodic = Some v /\ t_func v = Some F_periodic_event).

(** The sentinel is half a clock period after the periodic timer. *)
Definition sentinel_at (h : gmap tid timer) (tp : Z) : Prop :=
  wake_at h T_sentinel (tp + 2147483648).

(** The scheduler between two timer interrupts. *)
Record timers_rep (B : Z) (s : sched_state) (q : queue) : Prop := {
  rep_stored : exists pre, stored B (timers s) pre q /\
    Some (timer_list s) = head (pre ++ q.*1) /\
    (pre = [] \/ pre = [T_deleted] /\ exists x, wake_at (timers s) T_deleted x /\
       in_window B x /\ Forall (fun p => x <= p.2) q);
  rep_static : static_ok (timers s);
  rep_periodic : exists tp, (T_periodic, tp) ∈ q /\ sentinel_at (timers s) tp;
  rep_last : last_insert s ∈ q.*1;
}.

(** The scheduler during the callback of the timer [t] at the head of the list;
    the callback may have changed the waketime of [t] to [x]. *)
Record running_rep (B : Z) (s : sched_state) (t : tid) (x : Z) (q : queue) : Prop := {
  run_stored : stored B (timers s) [t] q;
  run_list : timer_list s = t;
  run_user : t <> T_deleted;
  run_wake : wake_at (timers s) t x /\ in_window B x;
  run_static : static_ok (timers s);
  run_periodic : exists tp, (T_periodic, tp) ∈ (t, x) :: q /\ sentinel_at (timers s) tp;
  run_last : last_insert s ∈ t :: q.*1;
}.

(** ** Clock comparison *)

(** [timer_is_before] orders times less than half a clock period apart, across
    the wrap-around. *)
Lemma timer_is_before_spec a b :
  -2147483648 <= a - b < 2147483648 ->
  timer_is_before (u32 a) (u32 b) = (a <? b).
Proof.
  intros Hd. unfold timer_is_before.
  replace (i32 (u32 (u32 a - u32 b))) with (a - b) by wrap_lia.
  destruct (Z.ltb_spec (a - b) 0), (Z.ltb_spec a b); lia || done.
Qed.

Lemma timer_before_window B a b :
  in_window B a -> in_window B b -> timer_is_before (u32 a) (u32 b) = (a <? b).
Proof. unfold in_window. intros. apply timer_is_before_spec. lia. Qed.

(** The time of a timer within the window is unique. *)
Lemma wake_at_unique B h t x y :
  wake_at h t x -> wake_at h t y -> in_window B x -> in_window B y -> x = y.
Proof.
  intros (v & Hv & Hx) (v' & Hv' & Hy) Hwx Hwy. rewrite Hv in Hv'. injection Hv' as <-.
  unfold in_window in *. wrap_lia.
Qed.

(** ** Queue lemmas *)

Lemma q_insert_elem t x q p : p ∈ q_insert t x q <-> p = (t, x) \/ p ∈ q.
Proof.
  induction q as [|[y ty] q IH]; simpl; [set_solver|].
  destruct (x <? ty); set_solver.
Qed.

Lemma q_insert_sorted t x q : q_sorted q -> q_sorted (q_insert t x q).
Proof.
  unfold q_sorted. induction 1 as [|[y ty] q Hs IH Hall]; simpl; [by repeat constructor|].
  destruct (Z.ltb_spec x ty) as [Hlt|Hge]; constructor; auto.
  - by constructor.
  - constructor; [simpl; lia|]. eapply Forall_impl; [exact Hall|]. simpl. lia.
  - apply Forall_forall. intros p [->|Hp]%q_insert_elem; simpl; [lia|].
    rewrite Forall_forall in Hall. by apply Hall.
Qed.

(** Where the insertion happens. *)
Lemma q_insert_split t x q :
  q_sorted q ->
  exists q1 q2, q = q1 ++ q2 /\ q_insert t x q = q1 ++ (t, x) :: q2 /\
    Forall (fun p => p.2 <= x) q1 /\ Forall (fun p => x < p.2) q2.
Proof.
  induction 1 as [|[y ty] q Hs IH Hall]; simpl.
  { exists [], []. repeat split; constructor. }
  destruct (Z.ltb_spec x ty) as [Hlt|Hge].
  - exists [], ((y, ty) :: q). repeat split; constructor; simpl; [done|].
    eapply Forall_impl; [exact Hall|]. simpl. lia.
  - destruct IH as (q1 & q2 & -> & -> & H1 & H2).
    exists ((y, ty) :: q1), q2. repeat split; auto; constructor; auto.
Qed.

Lemma q_remove_notin t q : t ∉ q.*1 -> q_remove t q = q.
Proof.
  intros Ht. unfold q_remove. induction q as [|[y ty] q IH]; [done|].
  rewrite fmap_cons, not_elem_of_cons in Ht. destruct Ht as [Hy Ht].
  rewrite filter_cons_True by (simpl in *; congruence). by rewrite IH.
Qed.

Lemma q_remove_mid t x q1 q2 :
  t ∉ q1.*1 -> t ∉ q2.*1 -> q_remove t (q1 ++ (t, x) :: q2) = q1 ++ q2.
Proof.
  intros H1 H2. unfold q_remove. rewrite filter_app, filter_cons_False by (simpl; tauto).
  fold (q_remove t q1) (q_remove t q2). by rewrite !q_remove_notin.
Qed.

(** ** Linked list lemmas *)

Lemma linked_cons h x y l :
  linked h (x :: y :: l) <-> (exists v, h !! x = Some v /\ t_next v = Some y) /\ linked h (y :: l).
Proof. done. Qed.

Lemma linked_app_inv h l x k : linked h (l ++ x :: k) -> linked h (x :: k).
Proof.
  induction l as [|y l IH]; [done|]. intros Hl. apply IH.
  destruct l; simpl in Hl; destruct Hl as [_ Hl]; exact Hl.
Qed.

Lemma linked_Some h l x : linked h l -> x ∈ l -> is_Some (h !! x).
Proof.
  induction l as [|y l IH]; [done|]. intros Hl [->|Hx]%elem_of_cons.
  - destruct l; destruct Hl as [? ?]; [subst; naive_solver|naive_solver].
  - destruct l as [|z l]; [by apply elem_of_nil in Hx|]. apply IH; [apply Hl|done].
Qed.

(** Updates outside of the list, or that keep the [next] field, do not matter. *)
Lemma linked_ext h h' l :
  (forall x v, x ∈ l -> h !! x = Some v -> exists v', h' !! x = Some v' /\ t_next v' = t_next v) ->
  linked h l -> linked h' l.
Proof.
  induction l as [|x l IH]; [done|]. intros He Hl.
  destruct l as [|y l].
  - destruct Hl as [-> (v & Hv & Hn)]. split; [done|].
    destruct (He T_sentinel v) as (v' & ? & ?); [by apply list_elem_of_singleton|done|].
    exists v'. split; congruence.
  - destruct Hl as [(v & Hv & Hn) Hl]. split.
    + destruct (He x v) as (v' & ? & ?); [by apply list_elem_of_here|done|].
      exists v'. split; congruence.
    + apply IH; [|done]. intros z vz Hz. apply He. by apply list_elem_of_further.
Qed.

(** Link [t] between [p] and the rest of the list. *)
Lemma linked_insert h l p q k t v vp :
  linked h (l ++ p :: q :: k) -> NoDup (l ++ p :: q :: k) -> t ∉ l ++ p :: q :: k ->
  h !! p = Some vp -> t_next v = Some q ->
  linked (<[p := vp <| t_next := Some t |>]> (<[t := v]> h)) (l ++ p :: t :: q :: k).
Proof.
  intros Hl Hnd Ht Hp Hv.
  assert (Hpt : p <> t) by set_solver.
  induction l as [|x l IH].
  - apply linked_cons; split; [eexists; rewrite lookup_insert_eq; eauto|].
    apply linked_cons; split; [exists v; rewrite lookup_insert_ne, lookup_insert_eq by done; eauto|].
    apply (linked_ext h); [|apply Hl]. intros z vz Hz Hvz. exists vz.
    apply NoDup_cons in Hnd as [Hnp _]. rewrite !lookup_insert_ne by set_solver. eauto.
  - assert (Hnx : x <> p /\ x <> t).
    { simpl in Hnd. apply NoDup_cons in Hnd as [Hx _]. set_solver. }
    assert (IH' : linked (<[p := vp <| t_next := Some t |>]> (<[t := v]> h))
                    (l ++ p :: t :: q :: k)).
    { apply IH; [|by simpl in Hnd; apply NoDup_cons in Hnd as []|set_solver].
      destruct l; simpl in Hl; destruct Hl as [_ Hl]; exact Hl. }
    destruct l as [|y l]; simpl in Hl; destruct Hl as [(vx & Hx & Hn) _];
      (apply linked_cons; split;
       [exists vx; rewrite !lookup_insert_ne by naive_solver; eauto|exact IH']).
Qed.

(** Unlink [d]. *)
Lemma linked_remove h l p d k vp vd :
  linked h (l ++ p :: d :: k) -> NoDup (l ++ p :: d :: k) -> k <> [] ->
  h !! p = Some vp -> h !! d = Some vd ->
  linked (<[p := vp <| t_next := t_next vd |>]> h) (l ++ p :: k).
Proof.
  intros Hl Hnd Hk Hp Hd. destruct k as [|q k]; [done|]. clear Hk.
  induction l as [|x l IH].
  - destruct Hl as [_ [(vd' & Hd' & Hq) Hl]].
    apply linked_cons; split; [exists (vp <| t_next := t_next vd |>); rewrite lookup_insert_eq; split; [done|];
            simpl; congruence|].
    apply (linked_ext h); [|exact Hl]. intros z vz Hz Hvz. exists vz.
    apply NoDup_cons in Hnd as [Hnp _]. rewrite lookup_insert_ne by set_solver. eauto.
  - assert (Hnx : x <> p).
    { simpl in Hnd. apply NoDup_cons in Hnd as [Hx _]. set_solver. }
    assert (IH' : linked (<[p := vp <| t_next := t_next vd |>]> h) (l ++ p :: q :: k)).
    { apply IH; [|by simpl in Hnd; apply NoDup_cons in Hnd as []].
      destruct l; simpl in Hl; destruct Hl as [_ Hl]; exact Hl. }
    destruct l as [|y l]; simpl in Hl; destruct Hl as [(vx & Hx & Hn) _];
      (apply linked_cons; split;
       [exists vx; rewrite lookup_insert_ne by congruence; eauto|exact IH']).
Qed.

(** A list of distinct heap addresses is no longer than the heap. *)
Lemma nodup_size `{Countable K} {A} (h : gmap K A) (l : list K) :
  NoDup l -> (forall x, x ∈ l -> is_Some (h !! x)) -> (length l <= size h)%nat.
Proof.
  intros Hnd Hs. rewrite <- (size_dom h (D := gset K)), <- (size_list_to_set (C := gset K) l) by done.
  apply subseteq_size. intros x Hx%elem_of_list_to_set. apply elem_of_dom. auto.
Qed.

(** Only the links differ. *)
Definition same_times (h h' : gmap tid timer) : Prop := forall y v, h !! y = Some v ->
  exists v', h' !! y = Some v' /\ t_waketime v' = t_waketime v /\ t_func v' = t_func v.

Lemma same_times_refl h : same_times h h.
Proof. intros y v Hv. eauto. Qed.

Lemma same_times_trans h1 h2 h3 : same_times h1 h2 -> same_times h2 h3 -> same_times h1 h3.
Proof.
  intros H1 H2 y v Hv. destruct (H1 _ _ Hv) as (v1 & Hv1 & E1 & F1).
  destruct (H2 _ _ Hv1) as (v2 & Hv2 & E2 & F2). exists v2. repeat split; congruence.
Qed.

Lemma same_times_link h t v n :
  h !! t = Some v -> same_times h (<[t := v <| t_next := n |>]> h).
Proof.
  intros Ht y vy Hy. destruct (decide (y = t)) as [->|Hne].
  - rewrite lookup_insert_eq. eexists. split; [done|]. naive_solver.
  - rewrite lookup_insert_ne by done. eauto.
Qed.

Lemma same_times_wake h h' t x : same_times h h' -> wake_at h t x -> wake_at h' t x.
Proof.
  intros Hs (v & Hv & Hw). destruct (Hs _ _ Hv) as (v' & Hv' & E & _).
  exists v'. split; congruence.
Qed.

Lemma same_times_static h h' : same_times h h' -> static_ok h -> static_ok h'.
Proof.
  intros Hs [(v & Hv & Ev) (u & Hu & Eu)].
  destruct (Hs _ _ Hv) as (v' & ? & _ & ?), (Hs _ _ Hu) as (u' & ? & _ & ?).
  split; eexists; (split; [done|congruence]).
Qed.

Lemma static_set_deleted h v :
  static_ok h -> t_func v = Some F_deleted_event -> static_ok (<[T_deleted := v]> h).
Proof.
  intros [_ (u & Hu & Eu)] Ev. split.
  - exists v. by rewrite lookup_insert_eq.
  - exists u. by rewrite lookup_insert_ne.
Qed.

Lemma static_set_user h t v :
  static_ok h -> t <> T_deleted -> t <> T_periodic -> static_ok (<[t := v]> h).
Proof.
  intros [(d & Hd & Ed) (u & Hu & Eu)] H1 H2.
  split; eexists; by rewrite lookup_insert_ne by congruence.
Qed.

Lemma same_times_Forall B h h' q :
  same_times h h' -> Forall (fun p => wake_at h p.1 p.2 /\ in_window B p.2) q ->
  Forall (fun p => wake_at h' p.1 p.2 /\ in_window B p.2) q.
Proof.
  intros Hs Hq. eapply Forall_impl; [exact Hq|]. intros p [? ?].
  eauto using same_times_wake.
Qed.

(** Every timer but the deleted one keeps its time and function. *)
Definition keeps_timers (h h' : gmap tid timer) : Prop := forall y v, y <> T_deleted ->
  h !! y = Some v ->
  exists v', h' !! y = Some v' /\ t_waketime v' = t_waketime v /\ t_func v' = t_func v.

Lemma same_times_keeps h h' : same_times h h' -> keeps_timers h h'.
Proof. intros H y v _. apply H. Qed.

Lemma last_split (l : list tid) x : last l = Some x -> exists k, l = k ++ [x].
Proof. rewrite last_Some. done. Qed.

Section operations.
Context {W : Type} {cfg : Config} {PS : Part W sched_state} {BD : Board W}.

(** The world with the timer heap [h]. *)
Definition with_timers (h : gmap tid timer) (w : W) : W :=
  part_set (part_get w <| timers := h |>) w.

Definition heap (w : W) : gmap tid timer := timers (part_get w).

Lemma heap_with h w : heap (with_timers h w) = h.
Proof. unfold heap, with_timers. by rewrite part_get_set. Qed.

Lemma with_with h h' w : with_timers h (with_timers h' w) = with_timers h w.
Proof. unfold with_timers. by rewrite part_set_set, part_get_set. Qed.

Lemma part_get_with h w : part_get (with_timers h w) = part_get w <| timers := h |>.
Proof. apply part_get_set. Qed.

Lemma sget_Ret {A} (f : sched_state -> A) (w : W) : sget f w = Ret (f (part_get w)) w.
Proof. done. Qed.

Lemma tget_Ret t v (w : W) : heap w !! t = Some v -> tget t w = Ret v w.
Proof. intros E. unfold tget, bind. rewrite sget_Ret. fold (heap w). by rewrite E. Qed.

Lemma tmod_Ret t f v (w : W) :
  heap w !! t = Some v -> tmod t f w = Ret tt (with_timers (<[t := f v]> (heap w)) w).
Proof. intros E. unfold tmod. rewrite (bind_Ret _ _ _ _ _ (tget_Ret _ _ _ E)). done. Qed.

(** ** insert_timer *)

Definition not_before (h : gmap tid timer) (x : Z) (y : tid) : Prop :=
  forall v, h !! y = Some v -> timer_is_before x (t_waketime v) = false.

Lemma insert_loop_spec l1 fuel pos q l2 x (w : W) vq :
  linked (heap w) (pos :: l1 ++ q :: l2) -> Forall (not_before (heap w) x) l1 ->
  heap w !! q = Some vq -> timer_is_before x (t_waketime vq) = true ->
  (length l1 < fuel)%nat ->
  insert_loop fuel pos x w = Ret (default pos (last l1), q) w.
Proof.
  revert fuel pos. induction l1 as [|y l1 IH]; intros fuel pos Hl Hnb Hq Hb Hf;
    (destruct fuel as [|fuel]; [simpl in Hf; lia|]).
  - destruct Hl as [(v & Hv & Hn) Hl]. cbn [insert_loop].
    rewrite (bind_Ret _ _ _ _ _ (tget_Ret _ _ _ Hv)), Hn. cbn [deref].
    rewrite bind_ret_l, (bind_Ret _ _ _ _ _ (tget_Ret _ _ _ Hq)), Hb. done.
  - destruct Hl as [(v & Hv & Hn) Hl]. cbn [insert_loop].
    apply Forall_cons in Hnb as [Hy Hnb].
    destruct (linked_Some _ _ y Hl) as [vy Hvy]; [by apply list_elem_of_here|].
    rewrite (bind_Ret _ _ _ _ _ (tget_Ret _ _ _ Hv)), Hn. cbn [deref].
    rewrite bind_ret_l, (bind_Ret _ _ _ _ _ (tget_Ret _ _ _ Hvy)), (Hy vy) by done.
    rewrite (IH fuel y) by (try done; simpl in Hf; lia).
    rewrite last_cons. by destruct (last l1).
Qed.

(** The element the search stops at is later than [x]. *)
Lemma search_stops B h pre q1 q2 x :
  stored B h pre (q1 ++ q2) -> in_window B x -> Forall (fun p => x < p.2) q2 ->
  (q2 = [] -> exists tp, sentinel_at h tp /\ in_window B tp /\ tp <= x) ->
  exists n r v, q2.*1 ++ [T_sentinel] = n :: r /\ h !! n = Some v /\
    timer_is_before (u32 x) (t_waketime v) = true.
Proof.
  intros Hst Hx Hq2 Hs. destruct q2 as [|[y ty] q2].
  - destruct Hs as (tp & (v & Hv & Hw) & Htp & Hle); [done|].
    exists T_sentinel, [], v. repeat split; [done|]. rewrite Hw.
    unfold in_window in *. rewrite timer_is_before_spec by lia. apply Z.ltb_lt. lia.
  - pose proof (st_times _ _ _ _ Hst) as Ht. apply Forall_app in Ht as [_ Ht].
    apply Forall_cons in Ht as [[(v & Hv & Hw) Hwin] _].
    apply Forall_cons in Hq2 as [Hlt _]. simpl in *.
    exists y, (q2.*1 ++ [T_sentinel]), v. repeat split; [done|]. rewrite Hw.
    rewrite (timer_before_window B) by done. by apply Z.ltb_lt.
Qed.

Lemma not_before_le B h x (q : queue) :
  Forall (fun p => wake_at h p.1 p.2 /\ in_window B p.2) q -> in_window B x ->
  Forall (fun p => p.2 <= x) q -> Forall (not_before h (u32 x)) (q.*1).
Proof.
  intros Hq Hx Hle. rewrite Forall_fmap. eapply Forall_impl; [apply Forall_and; split; [exact Hq|exact Hle]|].
  intros [y ty] [[(v & Hv & Hw) Hwin] Hy] v' Hv'. simpl in *.
  replace v' with v by congruence. rewrite Hw, (timer_before_window B) by done.
  apply Z.ltb_ge. lia.
Qed.

(** [insert_timer] links [t] into the queue, whatever position the search
    starts from, as long as no later timer precedes that position. *)
Lemma insert_timer_stored B pre q1 q2 t x pos b l1 (w : W) :
  stored B (heap w) pre (q1 ++ q2) ->
  t ∉ pre ++ (q1 ++ q2).*1 ++ [T_sentinel] -> t <> T_deleted ->
  wake_at (heap w) t x -> in_window B x ->
  Forall (fun p => p.2 <= x) q1 -> Forall (fun p => x < p.2) q2 ->
  (q2 = [] -> exists tp, sentinel_at (heap w) tp /\ in_window B tp /\ tp <= x) ->
  linked (heap w) (pos :: l1 ++ q2.*1 ++ [T_sentinel]) -> q1.*1 = b ++ l1 ->
  last (pre ++ q1.*1) = Some (default pos (last l1)) ->
  exists h', insert_timer pos t (u32 x) w = Ret tt (with_timers h' w) /\
    stored B h' pre (q1 ++ (t, x) :: q2) /\ same_times (heap w) h'.
Proof.
  intros Hst Hnt Htd (vt & Hvt & Hwt) Hx H1 H2 Hs Hlk Hb Hlast.
  destruct (search_stops _ _ _ _ _ _ Hst Hx H2 Hs) as (n & r & vn & En & Hvn & Hbn).
  rewrite En in Hlk. pose proof (st_times _ _ _ _ Hst) as Htm.
  apply Forall_app in Htm as [Htm1 Htm2].
  assert (Hnb : Forall (not_before (heap w) (u32 x)) l1).
  { pose proof (not_before_le B _ x q1 Htm1 Hx H1) as HF. rewrite Hb in HF.
    by apply Forall_app in HF as [_ ?]. }
  assert (Hfuel : (length l1 < size (heap w))%nat).
  { apply (Nat.lt_le_trans _ (length (l1 ++ [n]))); [rewrite length_app; simpl; lia|].
    apply nodup_size.
    - pose proof (st_nodup _ _ _ _ Hst) as Hnd.
      rewrite fmap_app, Hb, <- !app_assoc, En in Hnd.
      apply NoDup_app in Hnd as (_ & _ & Hnd). apply NoDup_app in Hnd as (_ & _ & Hnd).
      replace (l1 ++ n :: r) with ((l1 ++ [n]) ++ r) in Hnd by (by rewrite <- app_assoc).
      by apply NoDup_app in Hnd as (? & _ & _).
    - intros y Hy. apply (linked_Some _ _ _ Hlk). set_solver. }
  apply last_split in Hlast as [a Ha]. set (prev := default pos (last l1)) in *.
  assert (Hlist : pre ++ (q1 ++ q2).*1 ++ [T_sentinel] = a ++ prev :: n :: r).
  { rewrite fmap_app, <- app_assoc, En, app_assoc, Ha. by rewrite <- app_assoc. }
  pose proof (st_linked _ _ _ _ Hst) as Hl. pose proof (st_nodup _ _ _ _ Hst) as Hnd.
  rewrite Hlist in Hl, Hnd, Hnt.
  destruct (linked_Some _ _ prev Hl) as [vp Hvp]; [set_solver|].
  assert (Hpt : t <> prev) by set_solver.
  exists (<[prev := vp <| t_next := Some t |>]> (<[t := vt <| t_next := Some n |>]> (heap w))).
  split; [|split].
  - unfold insert_timer. rewrite (bind_Ret _ _ _ _ _ (sget_Ret _ _)).
    rewrite (bind_Ret _ _ _ _ _ (insert_loop_spec l1 _ pos n r _ _ vn Hlk Hnb Hvn Hbn Hfuel)).
    fold prev. rewrite (bind_Ret _ _ _ _ _ (tmod_Ret _ _ _ _ Hvt)).
    rewrite (tmod_Ret _ _ vp) by (by rewrite heap_with, lookup_insert_ne by done).
    by rewrite heap_with, with_with.
  - assert (Hlist' : pre ++ (q1 ++ (t, x) :: q2).*1 ++ [T_sentinel] = a ++ prev :: t :: n :: r).
    { rewrite fmap_app, fmap_cons, <- app_assoc, app_assoc, Ha, <- app_assoc. simpl.
      by rewrite En. }
    assert (Hsame : same_times (heap w) (<[prev := vp <| t_next := Some t |>]>
              (<[t := vt <| t_next := Some n |>]> (heap w)))).
    { eapply same_times_trans; apply same_times_link; [exact Hvt|].
      by rewrite lookup_insert_ne. }
    split.
    + rewrite Hlist'. by apply linked_insert.
    + rewrite Hlist'. change (a ++ prev :: t :: n :: r) with (a ++ [prev] ++ t :: n :: r).
      rewrite app_assoc. rewrite <- Permutation_middle. apply NoDup_cons.
      rewrite <- app_assoc. simpl. done.
    + assert (Hins : q1 ++ (t, x) :: q2 = q_insert t x (q1 ++ q2)).
      { pose proof (st_sorted _ _ _ _ Hst) as Hso. clear -H1 H2 Hso.
        induction q1 as [|[y ty] q1 IH]; simpl.
        - destruct q2 as [|[y ty] q2]; [done|]. apply Forall_cons in H2 as [Hy _].
          simpl in *. destruct (Z.ltb_spec x ty); [done|lia].
        - apply Forall_cons in H1 as [Hy H1]. simpl in Hy.
          destruct (Z.ltb_spec x ty); [lia|]. rewrite <- IH; [done|done|].
          by inversion Hso. }
      rewrite Hins. apply q_insert_sorted, (st_sorted _ _ _ _ Hst).
    + apply Forall_app. split; [by eapply same_times_Forall|].
      apply Forall_cons. split; [|by eapply same_times_Forall].
      split; [|done]. eapply same_times_wake; [done|]. by exists vt.
    + pose proof (st_deleted _ _ _ _ Hst). rewrite fmap_app, fmap_cons in *. set_solver.
  - eapply same_times_trans; apply same_times_link; [exact Hvt|].
    by rewrite lookup_insert_ne.
Qed.

(** ** sched_add_timer *)

(** What the scheduler needs of the board: reading the clock and requesting a
    timer interrupt do not touch the scheduler's state. *)
Definition board_ok : Prop :=
  (forall w : W, exists now w', timer_read_time w = Ret now w' /\
     part_get (Part := PS) w' = part_get w) /\
  (forall w : W, exists w', timer_kick w = Ret tt w' /\
     part_get (Part := PS) w' = part_get w).

Lemma heap_eq (w w' : W) : part_get (Part := PS) w' = part_get w -> heap w' = heap w.
Proof. unfold heap. by intros ->. Qed.

Lemma q_insert_front t x q : Forall (fun p => x < p.2) q -> q_insert t x q = (t, x) :: q.
Proof.
  destruct q as [|[y ty] q]; [done|]. intros [Hy _]%Forall_cons. simpl in *.
  by destruct (Z.ltb_spec x ty); [|lia].
Qed.

Lemma sorted_front (q : queue) y ty p : q_sorted ((y, ty) :: q) -> p ∈ (y, ty) :: q -> ty <= p.2.
Proof.
  intros Hs [->|Hp]%elem_of_cons; [simpl; lia|]. inversion Hs as [|? ? _ HF]; subst.
  rewrite Forall_forall in HF. by apply HF in Hp.
Qed.

(** Put [t] in front of the queue, behind the deleted timer. *)
Lemma stored_front B h pre q t x vt vd n :
  stored B h pre q -> (pre = [] \/ pre = [T_deleted]) ->
  t ∉ q.*1 ++ [T_sentinel] -> t <> T_deleted ->
  h !! t = Some vt -> t_waketime vt = u32 x -> in_window B x ->
  Forall (fun p => x <= p.2) q -> head (q.*1 ++ [T_sentinel]) = Some n ->
  t_next vd = Some t ->
  stored B (<[T_deleted := vd]> (<[t := vt <| t_next := Some n |>]> h)) [T_deleted] ((t, x) :: q).
Proof.
  intros Hst Hpre Hnt Htd Hvt Hwt Hx Hall Hn Hvd.
  pose proof (st_linked _ _ _ _ Hst) as Hl. pose proof (st_nodup _ _ _ _ Hst) as Hnd.
  pose proof (st_deleted _ _ _ _ Hst) as Hdel.
  destruct (q.*1 ++ [T_sentinel]) as [|n' r] eqn:Eq; [done|]. injection Hn as ->.
  assert (Hl' : linked h (n :: r)) by (by apply linked_app_inv in Hl).
  assert (Hnd' : NoDup (n :: r)) by (by apply NoDup_app in Hnd as (_ & _ & ?)).
  assert (Hd : T_deleted ∉ n :: r) by (rewrite <- Eq; set_solver).
  split.
  - rewrite fmap_cons. cbn [app fst]. rewrite Eq.
    apply linked_cons; split; [by exists vd; rewrite lookup_insert_eq|].
    apply linked_cons; split.
    { eexists. rewrite lookup_insert_ne, lookup_insert_eq by done. eauto. }
    apply (linked_ext h); [|done]. intros z vz Hz Hvz. exists vz.
    rewrite !lookup_insert_ne by set_solver. done.
  - rewrite fmap_cons. cbn [app fst]. rewrite Eq. apply NoDup_cons. split; [set_solver|]. by apply NoDup_cons.
  - constructor; [apply (st_sorted _ _ _ _ Hst)|].
    eapply Forall_impl; [exact Hall|]. done.
  - assert (Hin : forall p, p ∈ q -> p.1 <> t /\ p.1 <> T_deleted).
    { intros p Hp. assert (p.1 ∈ n :: r) as Hm; [|set_solver].
      rewrite <- Eq. apply elem_of_app. left. by apply list_elem_of_fmap_2. }
    apply Forall_cons. split.
    + split; [|done]. eexists. rewrite lookup_insert_ne, lookup_insert_eq by done.
      split; [done|]. done.
    + apply Forall_forall. intros p Hp. pose proof (st_times _ _ _ _ Hst) as Ht.
      rewrite Forall_forall in Ht. destruct (Ht p Hp) as [(v & Hv & Hw) Hwin].
      split; [|done]. exists v. destruct (Hin p Hp). by rewrite !lookup_insert_ne by done.
  - rewrite fmap_cons. simpl. set_solver.
Qed.

Lemma stored_time B h pre q p :
  stored B h pre q -> p ∈ q -> wake_at h p.1 p.2 /\ in_window B p.2.
Proof. intros Hst. pose proof (st_times _ _ _ _ Hst) as Ht. rewrite Forall_forall in Ht. auto. Qed.

Lemma sentinel_after B h pre q tp x q1 q2 :
  stored B h pre q -> (T_periodic, tp) ∈ q -> sentinel_at h tp -> q = q1 ++ q2 ->
  Forall (fun p => p.2 <= x) q1 ->
  q2 = [] -> exists tp, sentinel_at h tp /\ in_window B tp /\ tp <= x.
Proof.
  intros Hst Hp Hs Hq H1 ->. rewrite app_nil_r in Hq. subst q1. exists tp.
  split; [done|]. split; [by apply (stored_time _ _ _ _ _ Hst Hp)|].
  rewrite Forall_forall in H1. by apply (H1 _ Hp).
Qed.

(** The first timer of the list and its time. *)
Lemma rep_head B s q :
  timers_rep B s q -> exists x, wake_at (timers s) (timer_list s) x /\ in_window B x /\
    Forall (fun p => x <= p.2) q.
Proof.
  intros [(pre & Hst & Htl & Hpre) _ (tp & Hp & _) _].
  destruct Hpre as [->|[-> (x & ? & ? & ?)]]; [|injection Htl as ->; eauto].
  destruct q as [|[y ty] q]; [set_solver|]. injection Htl as ->. exists ty.
  destruct (stored_time _ _ _ _ (y, ty) Hst) as [? ?]; [by apply list_elem_of_here|].
  split; [done|]. split; [done|]. apply Forall_forall. intros p.
  apply sorted_front, (st_sorted _ _ _ _ Hst).
Qed.

(** Which timers may be added: not one of the static ones, not scheduled yet. *)
Definition addable (t : tid) (q : queue) : Prop :=
  t ∉ q.*1 /\ t <> T_deleted /\ t <> T_sentinel /\ t <> T_periodic.

(** The scheduler part of a world after the first branch of [sched_add_timer]. *)
Lemma add_front_rep B s q t x vt n vd :
  timers_rep B s q -> addable t q -> timers s !! t = Some vt -> t_waketime vt = u32 x ->
  in_window B x -> Forall (fun p => x < p.2) q -> head (q.*1 ++ [T_sentinel]) = Some n ->
  t_next vd = Some t -> t_waketime vd = u32 x -> t_func vd = Some F_deleted_event ->
  timers_rep B
    (s <| timers := <[T_deleted := vd]> (<[t := vt <| t_next := Some n |>]> (timers s)) |>
       <| timer_list := T_deleted |>) (q_insert t x q).
Proof.
  intros [(pre & Hst & Htl & Hpre) Hsta (tp & Hp & Hs) Hli] (Hnt & Htd & Hts & Htp)
    Hvt Hwt Hx Hlt Hn Hnd Hwd Hfd.
  rewrite q_insert_front by done. split; simpl.
  - exists [T_deleted]. split; [|split; [done|]].
    + eapply stored_front; try done; [naive_solver|set_solver|].
      eapply Forall_impl; [exact Hlt|]. simpl. lia.
    + right. split; [done|]. exists x. split; [|split; [done|]].
      * exists vd. by rewrite lookup_insert_eq.
      * constructor; [simpl; lia|]. eapply Forall_impl; [exact Hlt|]. simpl. lia.
  - by apply static_set_deleted, Hfd; apply static_set_user.
  - exists tp. split; [set_solver|]. destruct Hs as (v & Hv & Hw). exists v.
    by rewrite !lookup_insert_ne by done.
  - by apply list_elem_of_further.
Qed.


(** The stores of the first branch of [sched_add_timer]. *)
Lemma add_front_run B q t x (w : W) :
  board_ok -> timers_rep B (part_get w) q -> addable t q ->
  wake_at (heap w) t x -> in_window B x -> Forall (fun p => x < p.2) q ->
  exists w', ((if decide (timer_list (part_get w) = T_deleted) then
       d <- tget T_deleted ;;
       tmod t (fun v => v <| t_next := t_next d |>)
     else tmod t (fun v => v <| t_next := Some (timer_list (part_get w)) |>)) ;;
    tmod T_deleted (fun v => v <| t_waketime := u32 x |>) ;;
    tmod T_deleted (fun v => v <| t_next := Some t |>) ;;
    smod (fun s => s <| timer_list := T_deleted |>) ;;
    timer_kick) w = Ret tt w' /\ timers_rep B (part_get w') (q_insert t x q).
Proof.
  intros [_ Hkick] Hrep Hadd (vt & Hvt & Hwt) Hx Hlt.
  pose proof Hadd as (Hnt & Htd & Hts & Htp).
  destruct (rep_static _ _ _ Hrep) as [(vd & Hvd & Hfd) _]. fold (heap w) in Hvd.
  assert (Hn : exists n, head (q.*1 ++ [T_sentinel]) = Some n) by (destruct q; simpl; eauto).
  destruct Hn as [n Hn].
  assert (Hfirst : (if decide (timer_list (part_get w) = T_deleted) then
       d <- tget T_deleted ;; tmod t (fun v => v <| t_next := t_next d |>)
     else tmod t (fun v => v <| t_next := Some (timer_list (part_get w)) |>)) w
    = Ret tt (with_timers (<[t := vt <| t_next := Some n |>]> (heap w)) w)).
  { destruct (rep_stored _ _ _ Hrep) as (pre & Hst & Htl & Hpre).
    destruct decide as [E|E].
    - rewrite (bind_Ret _ _ _ _ _ (tget_Ret _ _ _ Hvd)), (tmod_Ret _ _ _ _ Hvt).
      do 4 f_equal. destruct Hpre as [->|[-> _]].
      { rewrite E in Htl. exfalso. apply (st_deleted _ _ _ _ Hst).
        by apply head_Some_elem_of. }
      pose proof (st_linked _ _ _ _ Hst) as Hl.
      destruct (q.*1 ++ [T_sentinel]) as [|n' r] eqn:Eq; [done|]. injection Hn as ->.
      cbn [app] in Hl. destruct Hl as [(v & Hv & Hnx) _].
      unfold heap in Hvd. rewrite Hv in Hvd. injection Hvd as <-.
      by rewrite Hnx.
    - rewrite (tmod_Ret _ _ _ _ Hvt).
      replace n with (timer_list (part_get w)); [done|].
      destruct Hpre as [->|[-> _]]; [|by injection Htl].
      destruct q as [|[y ty] q]; [done|]. simpl in *. congruence. }
  rewrite (bind_Ret _ _ _ _ _ Hfirst).
  rewrite (bind_Ret _ _ _ _ _ (tmod_Ret _ _ vd _ ltac:(by rewrite heap_with, lookup_insert_ne))).
  rewrite heap_with, with_with.
  rewrite (bind_Ret _ _ _ _ _ (tmod_Ret _ _ _ _ ltac:(by rewrite heap_with, lookup_insert_eq))).
  rewrite heap_with, with_with, insert_insert_eq.
  unfold bind at 1, smod, modify.
  match goal with |- exists w', timer_kick ?u = _ /\ _ => destruct (Hkick u) as (w' & Hk & Hp) end.
  exists w'. split; [done|]. rewrite Hp, part_get_set, part_get_with.
  by eapply add_front_rep.
Qed.

Lemma add_later_run B q t x (w : W) xh :
  timers_rep B (part_get w) q -> addable t q ->
  wake_at (heap w) t x -> in_window B x ->
  wake_at (heap w) (timer_list (part_get w)) xh -> in_window B xh -> xh <= x ->
  exists w', insert_timer (timer_list (part_get w)) t (u32 x) w = Ret tt w' /\
    timers_rep B (part_get w') (q_insert t x q).
Proof.
  intros Hrep (Hnt & Htd & Hts & Htp) Hwt Hx Hxh Hxw Hge.
  destruct Hrep as [(pre & Hst & Htl & Hpre) Hdel (tp & Hp & Hs) Hli].
  destruct (q_insert_split t x q (st_sorted _ _ _ _ Hst)) as (q1 & q2 & Hq & Hins & H1 & H2).
  assert (Hrun : exists h', insert_timer (timer_list (part_get w)) t (u32 x) w
      = Ret tt (with_timers h' w) /\
      stored B h' pre (q1 ++ (t, x) :: q2) /\ same_times (heap w) h').
  { pose proof (st_linked _ _ _ _ Hst) as Hl.
    assert (Hsent := sentinel_after B _ _ _ _ x q1 q2 Hst Hp Hs Hq H1).
    assert (Hno : t ∉ pre ++ (q1 ++ q2).*1 ++ [T_sentinel]).
    { rewrite <- Hq. destruct Hpre as [->|[-> _]]; set_solver. }
    rewrite Hq in Hst, Hl. rewrite fmap_app, <- app_assoc in Hl.
    destruct Hpre as [->|[-> Hd]].
    - destruct q1 as [|[y ty] q1].
      + exfalso. destruct q2 as [|[y ty] q2].
        { rewrite Hq in Hp. by apply elem_of_nil in Hp. }
        rewrite Hq in Htl. injection Htl as Htl. rewrite Htl in Hxh.
        destruct (stored_time _ _ _ _ (y, ty) Hst) as [Hy Hyw]; [by apply list_elem_of_here|].
        apply Forall_cons in H2 as [Hy2 _]. simpl in *.
        pose proof (wake_at_unique B _ _ _ _ Hxh Hy Hxw Hyw). lia.
      + rewrite Hq in Htl. injection Htl as ->.
        eapply (insert_timer_stored B [] ((y, ty) :: q1) q2 t x y [y] (q1.*1)); eauto.
        rewrite fmap_cons. cbn [app fst]. rewrite last_cons. by destruct (last q1.*1).
    - injection Htl as ->.
      eapply (insert_timer_stored B [T_deleted] q1 q2 t x T_deleted [] (q1.*1)); eauto.
      cbn [app]. rewrite last_cons. by destruct (last q1.*1). }
  destruct Hrun as (h' & -> & Hst' & Hsame). exists (with_timers h' w). split; [done|].
  rewrite part_get_with, Hins. split; simpl.
  - exists pre. split; [done|]. split.
    + rewrite Htl. destruct Hpre as [->|[-> _]]; [|done]. simpl.
      destruct q1 as [|[y ty] q1]; [|by rewrite Hq].
      exfalso. destruct q2 as [|[y ty] q2]; [by rewrite Hq in Hp; apply elem_of_nil in Hp|].
      rewrite Hq in Htl. injection Htl as Htl. rewrite Htl in Hxh. rewrite Hq in Hst.
      destruct (stored_time _ _ _ _ (y, ty) Hst) as [Hy Hyw]; [by apply list_elem_of_here|].
      apply Forall_cons in H2 as [Hy2 _]. simpl in *.
      pose proof (wake_at_unique B _ _ _ _ Hxh Hy Hxw Hyw). lia.
    + destruct Hpre as [->|[-> (xd & Hxd & Hxdw & Hall)]]; [by left|right].
      split; [done|]. exists xd. split; [by eapply same_times_wake|]. split; [done|].
      rewrite Hq in Hall. apply Forall_app in Hall as [??].
      apply Forall_app. split; [done|]. constructor; [|done]. simpl.
      injection Htl as Htl. rewrite Htl in Hxh.
      pose proof (wake_at_unique B _ _ _ _ Hxh Hxd Hxw Hxdw). lia.
  - by eapply same_times_static.
  - exists tp. split; [rewrite Hq in Hp; set_solver|]. by eapply same_times_wake.
  - rewrite Hq in Hli. rewrite fmap_app, fmap_cons in *. set_solver.
Qed.

Lemma try_shutdown_run r (w : W) :
  sched_try_shutdown r w
  = if shutdown_status (part_get w) =? 0 then Shut r w else Ret tt w.
Proof.
  unfold sched_try_shutdown. rewrite (bind_Ret _ _ _ _ _ (sget_Ret _ _)).
  by destruct (_ =? 0).
Qed.

Lemma add_timer_spec B q t x (w : W) :
  board_ok -> timers_rep B (part_get w) q -> addable t q ->
  wake_at (heap w) t x -> in_window B x ->
  (exists w', sched_add_timer t w = Ret tt w' /\
     timers_rep B (part_get w') (q_insert t x q)) \/
  (exists now w', sched_add_timer t w = Shut "Timer too close" w' /\
     timer_is_before (u32 x) now = true /\ shutdown_status (part_get w) = 0 /\
     Forall (fun p => x < p.2) q /\ part_get (Part := PS) w' = part_get w).
Proof.
  intros Hbd Hrep Hadd Hwt Hx. pose proof Hbd as [Hrd Hkick].
  destruct (rep_head _ _ _ Hrep) as (xh & Hwh & Hxh & Hall).
  destruct Hwt as (vt & Hvt & Ewt). assert (Hwt : wake_at (heap w) t x) by (by exists vt).
  destruct Hwh as (vh & Hvh & Ewh). fold (heap w) in Hvh.
  unfold sched_add_timer. rewrite (bind_Ret _ _ _ _ _ (tget_Ret _ _ _ Hvt)).
  rewrite (bind_Ret _ _ _ _ _ (sget_Ret _ _)).
  rewrite (bind_Ret _ _ _ _ _ (tget_Ret _ _ _ Hvh)), Ewt, Ewh.
  rewrite (timer_before_window B) by done. destruct (Z.ltb_spec x xh) as [Hlt|Hge].
  - destruct (Hrd w) as (now & w1 & Hnow & Hp1).
    assert (Hltq : Forall (fun p => x < p.2) q).
    { eapply Forall_impl; [exact Hall|]. simpl. lia. }
    rewrite (bind_Ret _ _ _ _ _ Hnow).
    assert (Hgo : exists w', ((if decide (timer_list (part_get w) = T_deleted) then
         d <- tget T_deleted ;; tmod t (fun v => v <| t_next := t_next d |>)
       else tmod t (fun v => v <| t_next := Some (timer_list (part_get w)) |>)) ;;
      tmod T_deleted (fun v => v <| t_waketime := u32 x |>) ;;
      tmod T_deleted (fun v => v <| t_next := Some t |>) ;;
      smod (fun s => s <| timer_list := T_deleted |>) ;;
      timer_kick) w1 = Ret tt w' /\ timers_rep B (part_get w') (q_insert t x q)).
    { rewrite <- Hp1. apply add_front_run; auto; rewrite ?Hp1, ?(heap_eq _ _ Hp1); auto. }
    destruct (timer_is_before (u32 x) now) eqn:Hb; cbn [when].
    + pose proof (try_shutdown_run "Timer too close" w1) as Htry. rewrite Hp1 in Htry.
      destruct (Z.eqb_spec (shutdown_status (part_get w)) 0) as [E|E].
      * right. exists now, w1. split; [|by auto]. unfold bind at 1. by rewrite Htry.
      * left. by rewrite (bind_Ret _ _ _ _ _ Htry).
    + left. exact Hgo.
  - left. apply (add_later_run B q t x w xh); auto. by exists vh.
Qed.

(** ** sched_del_timer *)

Lemma del_loop_found l1 fuel pos del k (w : W) vp vd :
  linked (heap w) (pos :: l1 ++ del :: k) -> del ∉ l1 -> (length l1 < fuel)%nat ->
  heap w !! (default pos (last l1)) = Some vp -> heap w !! del = Some vd ->
  del_loop fuel pos del w = Ret tt
    (with_timers (<[default pos (last l1) := vp <| t_next := t_next vd |>]> (heap w)) w).
Proof.
  revert fuel pos. induction l1 as [|y l1 IH]; intros fuel pos Hl Hni Hf Hp Hd;
    (destruct fuel as [|fuel]; [simpl in Hf; lia|]); cbn [del_loop];
    destruct Hl as [(v & Hv & Hn) Hl]; rewrite (bind_Ret _ _ _ _ _ (tget_Ret _ _ _ Hv)), Hn.
  - rewrite decide_True by done. rewrite (bind_Ret _ _ _ _ _ (tget_Ret _ _ _ Hd)).
    simpl in Hp. by rewrite (tmod_Ret _ _ vp).
  - rewrite decide_False by set_solver.
    assert (El : default pos (last (y :: l1)) = default y (last l1)).
    { rewrite last_cons. by destruct (last l1). }
    rewrite El in *. apply IH; try done; [set_solver|simpl in Hf; lia].
Qed.

Lemma del_loop_absent l fuel pos del (w : W) :
  linked (heap w) (pos :: l) -> del ∉ l -> (length l < fuel)%nat ->
  del_loop fuel pos del w = Ret tt w.
Proof.
  revert fuel pos. induction l as [|y l IH]; intros fuel pos Hl Hni Hf;
    (destruct fuel as [|fuel]; [simpl in Hf; lia|]); cbn [del_loop].
  - destruct Hl as [_ (v & Hv & Hn)]. rewrite (bind_Ret _ _ _ _ _ (tget_Ret _ _ _ Hv)).
    by rewrite Hn.
  - destruct Hl as [(v & Hv & Hn) Hl]. rewrite (bind_Ret _ _ _ _ _ (tget_Ret _ _ _ Hv)), Hn.
    rewrite decide_False by set_solver. apply IH; [done|set_solver|simpl in Hf; lia].
Qed.

Lemma stored_remove B h pre q1 q2 t x p a vp vd :
  stored B h pre (q1 ++ (t, x) :: q2) -> pre ++ q1.*1 = a ++ [p] ->
  h !! p = Some vp -> h !! t = Some vd ->
  stored B (<[p := vp <| t_next := t_next vd |>]> h) pre (q1 ++ q2).
Proof.
  intros Hst Ha Hp Hd. pose proof (st_linked _ _ _ _ Hst) as Hl.
  pose proof (st_nodup _ _ _ _ Hst) as Hnd.
  assert (E : pre ++ (q1 ++ (t, x) :: q2).*1 ++ [T_sentinel]
              = a ++ p :: t :: q2.*1 ++ [T_sentinel]).
  { rewrite fmap_app, fmap_cons, <- app_assoc, app_assoc, Ha, <- app_assoc. done. }
  assert (E' : pre ++ (q1 ++ q2).*1 ++ [T_sentinel] = a ++ p :: q2.*1 ++ [T_sentinel]).
  { rewrite fmap_app, <- app_assoc, app_assoc, Ha, <- app_assoc. done. }
  rewrite E in Hl, Hnd. split.
  - rewrite E'. apply linked_remove with (d := t); try done. by destruct q2.
  - rewrite E'. change (a ++ p :: q2.*1 ++ [T_sentinel]) with (a ++ [p] ++ q2.*1 ++ [T_sentinel]).
    rewrite app_assoc. change (a ++ p :: t :: q2.*1 ++ [T_sentinel])
      with (a ++ [p] ++ t :: q2.*1 ++ [T_sentinel]) in Hnd.
    rewrite app_assoc, <- Permutation_middle in Hnd. by apply NoDup_cons in Hnd as [_ ?].
  - pose proof (st_sorted _ _ _ _ Hst) as Hs. unfold q_sorted in *.
    clear -Hs. induction q1 as [|z q1 IH]; simpl in *; [by inversion Hs|].
    inversion Hs as [|? ? Hs' HF]; subst. constructor; [by apply IH|].
    apply Forall_app in HF as [? HF]. apply Forall_cons in HF as [_ ?]. by apply Forall_app.
  - pose proof (st_times _ _ _ _ Hst) as Ht. apply Forall_app in Ht as [Ht1 Ht2].
    apply Forall_cons in Ht2 as [_ Ht2]. apply Forall_app.
    split; (eapply same_times_Forall; [by apply same_times_link|done]).
  - pose proof (st_deleted _ _ _ _ Hst). rewrite fmap_app, ?fmap_cons in *. set_solver.
Qed.

(** Replace the first timer by the deleted timer. *)
Lemma stored_delete_first B h t x q vt vd :
  stored B h [] ((t, x) :: q) -> h !! t = Some vt -> t_next vd = t_next vt ->
  stored B (<[T_deleted := vd]> h) [T_deleted] q.
Proof.
  intros Hst Ht Hn. pose proof (st_linked _ _ _ _ Hst) as Hl.
  pose proof (st_nodup _ _ _ _ Hst) as Hnd. pose proof (st_deleted _ _ _ _ Hst) as Hd.
  rewrite fmap_cons in Hl, Hnd, Hd. cbn [app fst] in Hl, Hnd, Hd.
  assert (Hdel : T_deleted ∉ q.*1 ++ [T_sentinel]) by set_solver.
  split.
  - cbn [app]. destruct (q.*1 ++ [T_sentinel]) as [|n r] eqn:Eq; [by destruct q|].
    destruct Hl as [(v & Hv & Hnx) Hl]. apply linked_cons; split.
    + exists vd. rewrite lookup_insert_eq. split; [done|]. congruence.
    + apply (linked_ext h); [|done]. intros z vz Hz Hvz. exists vz.
      by rewrite lookup_insert_ne by set_solver.
  - cbn [app]. apply NoDup_cons. split; [done|]. by apply NoDup_cons in Hnd as [_ ?].
  - pose proof (st_sorted _ _ _ _ Hst) as Hs. by inversion Hs.
  - pose proof (st_times _ _ _ _ Hst) as Htm. apply Forall_cons in Htm as [_ Htm].
    apply Forall_forall. intros p Hp. rewrite Forall_forall in Htm.
    destruct (Htm p Hp) as [(v & Hv & Hw) Hwin]. split; [|done]. exists v.
    rewrite lookup_insert_ne; [done|]. intros E. apply Hd. right.
    rewrite E. by apply list_elem_of_fmap_2.
  - set_solver.
Qed.

Definition user_timer (t : tid) : Prop :=
  t <> T_deleted /\ t <> T_sentinel /\ t <> T_periodic.

Lemma q_split t (q : queue) :
  t ∈ q.*1 -> exists q1 x q2, q = q1 ++ (t, x) :: q2.
Proof.
  intros [[t' x] [-> Hp]]%list_elem_of_fmap. apply list_elem_of_split in Hp as (q1 & q2 & ->). eauto.
Qed.

Lemma periodic_remove t (q : queue) tp :
  t <> T_periodic -> (T_periodic, tp) ∈ q -> (T_periodic, tp) ∈ q_remove t q.
Proof. intros Ht Hp. apply list_elem_of_filter. split; [simpl; congruence|done]. Qed.

Lemma rep_last_change B s q t :
  timers_rep B (s <| last_insert := T_periodic |>) q -> t ∈ q.*1 ->
  timers_rep B (s <| last_insert := t |>) q.
Proof. intros [H1 H2 H3 _] Ht. split; simpl in *; done. Qed.

Lemma del_first B q t x (w : W) :
  timers_rep B (part_get w) ((t, x) :: q) -> user_timer t ->
  timer_list (part_get w) = t ->
  exists s', (d <- tget t ;;
     tmod T_deleted (fun v => v <| t_waketime := t_waketime d |>) ;;
     tmod T_deleted (fun v => v <| t_next := t_next d |>) ;;
     smod (fun s => s <| timer_list := T_deleted |>)) w = Ret tt (part_set s' w) /\
    last_insert s' = last_insert (part_get w) /\
    timers_rep B (s' <| last_insert := T_periodic |>) q /\
    keeps_timers (timers (part_get w)) (timers s').
Proof.
  intros [(pre & Hst & Htl & Hpre) Hsta (tp & Hp & Hs) Hli] (Htd & Hts & Htp) Et.
  pose proof Hsta as [(vd & Hvd & Hfd) _].
  assert (pre = []) as ->.
  { destruct Hpre as [|[-> _]]; [done|]. injection Htl as Htl. congruence. }
  destruct (stored_time _ _ _ _ (t, x) Hst) as [(vt & Hvt & Hwt) Hxw];
    [by apply list_elem_of_here|]. simpl in Hvt, Hwt, Hxw.
  fold (heap w) in Hvt, Hvd. eexists. split; [|split; [|split]].
  - rewrite (bind_Ret _ _ _ _ _ (tget_Ret _ _ _ Hvt)).
    rewrite (bind_Ret _ _ _ _ _ (tmod_Ret _ _ _ _ Hvd)).
    rewrite (bind_Ret _ _ _ _ _ (tmod_Ret _ _ _ _ ltac:(by rewrite heap_with, lookup_insert_eq))).
    rewrite heap_with, with_with, insert_insert_eq. unfold smod, modify.
    rewrite part_get_with. unfold with_timers. by rewrite part_set_set.
  - done.
  - split; simpl.
    + exists [T_deleted]. split; [eapply stored_delete_first; done|]. split; [done|].
      right. split; [done|]. exists x. split; [|split; [done|]].
      * eexists. by rewrite lookup_insert_eq.
      * pose proof (st_sorted _ _ _ _ Hst) as Hso. by inversion Hso.
    + by apply static_set_deleted.
    + exists tp. split; [apply elem_of_cons in Hp as [|?]; [congruence|done]|].
      destruct Hs as (v & Hv & Hw). exists v. by rewrite lookup_insert_ne.
    + apply elem_of_cons in Hp as [|?]; [congruence|].
      apply list_elem_of_fmap. by exists (T_periodic, tp).
  - intros y vy Hy Hvy. exists vy. simpl. by rewrite lookup_insert_ne by done.
Qed.

Lemma del_later B q t (w : W) :
  timers_rep B (part_get w) q -> user_timer t -> timer_list (part_get w) <> t ->
  exists s', del_loop (size (heap w)) (timer_list (part_get w)) t w = Ret tt (part_set s' w) /\
    last_insert s' = last_insert (part_get w) /\
    timers_rep B (s' <| last_insert := T_periodic |>) (q_remove t q) /\
    keeps_timers (timers (part_get w)) (timers s').
Proof.
  intros [(pre & Hst & Htl & Hpre) Hdel (tp & Hp & Hs) Hli] (Htd & Hts & Htp) Et.
  pose proof (st_linked _ _ _ _ Hst) as Hl. pose proof (st_nodup _ _ _ _ Hst) as Hnd.
  assert (Hsz := nodup_size _ _ Hnd (fun x => linked_Some _ _ x Hl)). fold (heap w) in Hsz, Hl.
  assert (Hhd : exists l, pre ++ q.*1 ++ [T_sentinel] = timer_list (part_get w) :: l).
  { rewrite app_assoc. destruct (pre ++ q.*1) as [|z l]; [done|].
    injection Htl as ->. by eexists. }
  destruct (decide (t ∈ q.*1)) as [Hin|Hni].
  - apply q_split in Hin as (q1 & x & q2 & ->).
    assert (Hone : t ∉ q1.*1 /\ t ∉ q2.*1).
    { rewrite fmap_app, fmap_cons, <- app_assoc in Hnd. simpl in Hnd.
      apply NoDup_app in Hnd as (_ & _ & Hnd). rewrite <- Permutation_middle in Hnd.
      apply NoDup_cons in Hnd as [Hnd _]. set_solver. }
    destruct Hone as [Hn1 Hn2]. rewrite q_remove_mid by done.
    assert (Hsplit : exists l1, pre ++ q1.*1 = timer_list (part_get w) :: l1).
    { destruct (pre ++ q1.*1) as [|z l1] eqn:E.
      - apply app_nil in E as [-> E]. destruct q1; [|done]. injection Htl as ?. done.
      - rewrite fmap_app, app_assoc, E in Htl. injection Htl as ->. by eexists. }
    destruct Hsplit as [l1 Hl1].
    assert (El : pre ++ (q1 ++ (t, x) :: q2).*1 ++ [T_sentinel]
      = timer_list (part_get w) :: l1 ++ t :: q2.*1 ++ [T_sentinel]).
    { rewrite fmap_app, fmap_cons, <- app_assoc, app_assoc, Hl1. done. }
    rewrite El in Hl, Hsz.
    assert (Hnl : t ∉ l1).
    { assert (t ∉ pre ++ q1.*1) as Hx; [|rewrite Hl1 in Hx; set_solver].
      destruct Hpre as [->|[-> _]]; set_solver. }
    destruct (linked_Some _ _ t Hl) as [vd Hvd]; [set_solver|].
    set (prev := default (timer_list (part_get w)) (last l1)) in *.
    assert (Hlast : last (pre ++ q1.*1) = Some prev).
    { rewrite Hl1, last_cons. unfold prev. by destruct (last l1). }
    apply last_split in Hlast as [a Ha].
    destruct (linked_Some _ _ prev Hl) as [vp Hvp].
    { rewrite app_comm_cons, <- Hl1, Ha. set_solver. }
    eexists. split; [|split; [|split]].
    + erewrite (del_loop_found l1 _ _ _ _ _ vp vd Hl Hnl); try done.
      simpl in Hsz. rewrite length_app in Hsz. simpl in Hsz. lia.
    + done.
    + assert (Hsame : same_times (heap w) (<[prev := vp <| t_next := t_next vd |>]> (heap w))).
      { by apply same_times_link. }
      assert (Hper : (T_periodic, tp) ∈ q1 ++ q2).
      { rewrite elem_of_app, elem_of_cons in Hp. set_unfold. naive_solver. }
      split; simpl.
      * exists pre. split; [by eapply stored_remove|]. split.
        { rewrite fmap_app, app_assoc, Hl1. done. }
        destruct Hpre as [->|[-> (xd & Hxd & Hxw & HF)]]; [by left|right].
        split; [done|]. exists xd. split; [by eapply same_times_wake|]. split; [done|].
        apply Forall_app in HF as [? HF]. apply Forall_cons in HF as [_ ?].
        by apply Forall_app.
      * by eapply same_times_static.
      * exists tp. split; [done|]. by eapply same_times_wake.
      * apply list_elem_of_fmap. by exists (T_periodic, tp).
    + by apply same_times_keeps, same_times_link.
  - rewrite q_remove_notin by done. exists (part_get w). rewrite part_set_get.
    split; [|split; [|split; [|apply same_times_keeps, same_times_refl]]].
    + destruct Hhd as [l El]. rewrite El in Hl, Hsz. apply (del_loop_absent l); [done| |].
      * assert (t ∉ pre ++ q.*1 ++ [T_sentinel]) as Hx; [|rewrite El in Hx; set_solver].
        destruct Hpre as [->|[-> _]]; set_solver.
      * simpl in Hsz. lia.
    + done.
    + split; simpl; [by exists pre|done|by exists tp|].
      apply list_elem_of_fmap. by exists (T_periodic, tp).
Qed.

Lemma del_timer_spec B q t (w : W) :
  timers_rep B (part_get w) q -> user_timer t ->
  exists s', sched_del_timer t w = Ret tt (part_set s' w) /\
    timers_rep B s' (q_remove t q) /\
    keeps_timers (timers (part_get w)) (timers s').
Proof.
  intros Hrep Hu. unfold sched_del_timer.
  rewrite (bind_Ret _ _ _ _ _ (sget_Ret _ _)).
  assert (Hun : exists s1, (if decide (timer_list (part_get w) = t) then
     d <- tget t ;;
     tmod T_deleted (fun v => v <| t_waketime := t_waketime d |>) ;;
     tmod T_deleted (fun v => v <| t_next := t_next d |>) ;;
     smod (fun s => s <| timer_list := T_deleted |>)
   else
     fuel <- sget (fun s => size (timers s)) ;;
     del_loop fuel (timer_list (part_get w)) t) w = Ret tt (part_set s1 w) /\
    last_insert s1 = last_insert (part_get w) /\
    timers_rep B (s1 <| last_insert := T_periodic |>) (q_remove t q) /\
    keeps_timers (timers (part_get w)) (timers s1)).
  { destruct decide as [E|E].
    - destruct (rep_stored _ _ _ Hrep) as (pre & Hst & Htl & Hpre).
      destruct q as [|[y ty] q].
      { destruct (rep_periodic _ _ _ Hrep) as (? & Hp & _). by apply elem_of_nil in Hp. }
      assert (y = t) as ->.
      { destruct Hpre as [->|[-> _]]; injection Htl as Htl; [congruence|].
        destruct Hu as [Hu _]. congruence. }
      assert (Hni : t ∉ q.*1).
      { pose proof (st_nodup _ _ _ _ Hst) as Hnd. apply NoDup_app in Hnd as (_ & _ & Hnd).
        rewrite fmap_cons in Hnd. apply NoDup_cons in Hnd as [Hnd _]. set_solver. }
      change ((t, ty) :: q) with ([] ++ (t, ty) :: q) at 1.
      rewrite (q_remove_mid t ty [] q) by (done || set_solver).
      by eapply del_first.
    - rewrite (bind_Ret _ _ _ _ _ (sget_Ret _ _)). by apply (del_later B q). }
  destruct Hun as (s1 & Hrun & Hli & Hrep1 & Hkeep).
  rewrite (bind_Ret _ _ _ _ _ Hrun), (bind_Ret _ _ _ _ _ (sget_Ret _ _)), part_get_set.
  case_bool_decide as Eli; cbn [when].
  - exists (s1 <| last_insert := T_periodic |>). split; [|by split].
    unfold smod, modify. by rewrite part_get_set, part_set_set.
  - exists s1. split; [done|]. split; [|done].
    replace s1 with (s1 <| last_insert := last_insert s1 |>) by (by destruct s1).
    apply rep_last_change; [done|]. rewrite Hli in *.
    pose proof (rep_last _ _ _ Hrep) as Hl. apply list_elem_of_fmap in Hl as ([y ty] & Ey & Hy).
    apply list_elem_of_fmap. exists (y, ty). split; [done|].
    apply list_elem_of_filter. split; [|done]. simpl in *. congruence.
Qed.

(** ** sched_timer_dispatch *)

Lemma stored_tail B h t q : stored B h [t] q -> stored B h [] q.
Proof.
  intros [Hl Hnd Hs Ht Hd]. split; auto; cbn [app] in *.
  - destruct (q.*1 ++ [T_sentinel]) eqn:E; [by destruct q|]. by destruct Hl.
  - by apply NoDup_cons in Hnd as [_ ?].
Qed.

Lemma stored_cons B h t x q :
  stored B h [t] q -> wake_at h t x -> in_window B x -> t <> T_deleted ->
  Forall (fun p => x <= p.2) q -> stored B h [] ((t, x) :: q).
Proof.
  intros [Hl Hnd Hs Ht Hd] Hw Hx Htd Hall. split; auto.
  - by constructor.
  - rewrite fmap_cons. simpl. set_solver.
Qed.

(** The position the search starts from in [sched_timer_dispatch]. *)
Lemma dispatch_pos B (w : W) t x y ty q q1 q2 :
  running_rep B (part_get w) t x ((y, ty) :: q) -> ty <= x ->
  (y, ty) :: q = q1 ++ q2 -> Forall (fun p => p.2 <= x) q1 -> Forall (fun p => x < p.2) q2 ->
  exists pv, heap w !! (last_insert (part_get w)) = Some pv /\
    let pos := if timer_is_before (u32 x) (t_waketime pv) then y
               else last_insert (part_get w) in
    exists b l1, linked (heap w) (pos :: l1 ++ q2.*1 ++ [T_sentinel]) /\ q1.*1 = b ++ l1 /\
      last (q1.*1) = Some (default pos (last l1)).
Proof.
  intros Hrun Hle Hq H1 H2. destruct Hrun as [Hst Hl Hu [Hwt Hxw] Hd _ Hli].
  pose proof (st_linked _ _ _ _ Hst) as Hlk.
  destruct q1 as [|[y' ty'] q1].
  { exfalso. destruct q2; [done|]. injection Hq as <- _.
    apply Forall_cons in H2 as [H2 _]. simpl in H2. lia. }
  injection Hq as <- <- Hq.
  assert (Hy : linked (heap w) (y :: q1.*1 ++ q2.*1 ++ [T_sentinel])).
  { cbn [app] in Hlk. rewrite fmap_cons, Hq, fmap_app, <- app_comm_cons, <- app_assoc in Hlk.
    apply Hlk. }
  assert (Hlast : forall z, last (y :: q1.*1) = Some (default z (last (y :: q1.*1)))).
  { intros z. rewrite last_cons. by destruct (last q1.*1). }
  apply elem_of_cons in Hli as [Hli|Hli].
  - rewrite Hli. destruct Hwt as (vt & Hvt & Ewt). exists vt. split; [done|]. rewrite Ewt.
    rewrite (timer_before_window B) by done. rewrite (proj2 (Z.ltb_ge x x)) by lia.
    exists [], (((y, ty) :: q1).*1). split; [|split; [done|apply Hlast]].
    cbn [app] in Hlk. rewrite Hq, fmap_cons, fmap_app, <- app_comm_cons, <- app_assoc in Hlk.
    exact Hlk.
  - apply list_elem_of_fmap in Hli as ([li tl] & Eli & Hin). cbn [fst] in Eli. rewrite Eli.
    destruct (stored_time _ _ _ _ _ Hst Hin) as [(vl & Hvl & Ewl) Hlw]. cbn [fst snd] in *.
    exists vl. split; [done|]. rewrite Ewl, (timer_before_window B) by done.
    destruct (Z.ltb_spec x tl) as [Hb|Hb].
    + exists [y], (q1.*1). split; [done|]. split; [done|].
      rewrite fmap_cons, last_cons. by destruct (last q1.*1).
    + assert (Hin1 : (li, tl) ∈ (y, ty) :: q1).
      { rewrite Hq, app_comm_cons in Hin. apply elem_of_app in Hin as [|Hin]; [done|].
        rewrite Forall_forall in H2. apply H2 in Hin. simpl in Hin. lia. }
      apply list_elem_of_split in Hin1 as (a & c & Eac).
      assert (Eac1 : y :: q1.*1 = a.*1 ++ li :: c.*1).
      { change (y :: q1.*1) with (((y, ty) :: q1).*1). rewrite Eac.
        by rewrite fmap_app, fmap_cons. }
      exists (a.*1 ++ [li]), (c.*1).
      rewrite fmap_cons. cbn [fst]. rewrite Eac1.
      split; [|split; [by rewrite <- app_assoc|]].
      * rewrite app_comm_cons, Eac1, <- app_assoc in Hy. by apply linked_app_inv in Hy.
      * rewrite last_app_cons, last_cons. by destruct (last c.*1).
Qed.

(** The waketime of the timer that follows the running one. *)
Lemma running_next B (w : W) t x q :
  running_rep B (part_get w) t x q ->
  exists tv next nv, heap w !! t = Some tv /\ t_waketime tv = u32 x /\
    t_next tv = Some next /\ heap w !! next = Some nv /\
    match q with
    | [] => next = T_sentinel /\ t = T_periodic /\ t_waketime nv = u32 (x + 2147483648)
    | (y, ty) :: _ => next = y /\ t_waketime nv = u32 ty /\ in_window B ty
    end.
Proof.
  intros [Hst Hl Hu [(tv & Htv & Hw) Hxw] Hd (tp & Hp & Hs) Hli].
  pose proof (st_linked _ _ _ _ Hst) as Hlk. destruct q as [|[y ty] q].
  - destruct Hlk as [(v & Hv & Hn) _]. rewrite Htv in Hv. injection Hv as <-.
    apply list_elem_of_singleton in Hp. injection Hp as <- <-.
    destruct Hs as (sv & Hsv & Hsw). exists tv, T_sentinel, sv. by repeat split.
  - destruct Hlk as [(v & Hv & Hn) _]. rewrite Htv in Hv. injection Hv as <-.
    destruct (stored_time _ _ _ _ (y, ty) Hst) as [(yv & Hyv & Hyw) Hwin];
      [by apply list_elem_of_here|].
    exists tv, y, yv. by split_and!.
Qed.

(** The running timer stays first. *)
Lemma running_keep B s t x q :
  running_rep B s t x q -> Forall (fun p => x < p.2) q -> timers_rep B s (q_insert t x q).
Proof.
  intros [Hst Hl Hu [Hw Hxw] Hd (tp & Hp & Hs) Hli] Hall. rewrite q_insert_front by done.
  assert (Hall' : Forall (fun p => x <= p.2) q).
  { eapply Forall_impl; [exact Hall|]. simpl. lia. }
  split; [|done|by exists tp|done]. exists []. split; [by apply stored_cons|].
  split; [by rewrite Hl|by left].
Qed.

(** The running timer is finished. *)
Lemma running_done B s t x y ty q :
  running_rep B s t x ((y, ty) :: q) -> t <> T_periodic ->
  timers_rep B (s <| timer_list := y |>
    <| last_insert := if decide (last_insert s = t) then y else last_insert s |>)
    ((y, ty) :: q).
Proof.
  intros [Hst Hl Hu [Hw Hxw] Hd (tp & Hp & Hs) Hli] Ht. split; simpl; [|done| |].
  - exists []. split; [by eapply stored_tail|]. split; [done|by left].
  - exists tp. split; [|done]. apply elem_of_cons in Hp as [Hp|Hp]; [congruence|done].
  - case_decide as E; [by apply list_elem_of_here|].
    apply elem_of_cons in Hli as [|]; [done|]. done.
Qed.

(** The running timer moves back in the list. *)
Lemma running_move B (w : W) t x y ty q :
  running_rep B (part_get w) t x ((y, ty) :: q) -> ty <= x ->
  exists pv h', heap w !! (last_insert (part_get w)) = Some pv /\
    insert_timer (if timer_is_before (u32 x) (t_waketime pv) then y
                  else last_insert (part_get w)) t (u32 x)
      (part_set (part_get w <| timer_list := y |>) w)
    = Ret tt (part_set (part_get w <| timer_list := y |> <| timers := h' |>) w) /\
    timers_rep B (part_get w <| timer_list := y |> <| timers := h' |> <| last_insert := t |>)
      (q_insert t x ((y, ty) :: q)).
Proof.
  intros Hrun Hle. pose proof Hrun as [Hst Hl Hu [Hw Hxw] Hd (tp & Hp & Hs) Hli].
  destruct (q_insert_split t x _ (st_sorted _ _ _ _ Hst)) as (q1 & q2 & Hq & Hins & H1 & H2).
  destruct (dispatch_pos B w t x y ty q q1 q2 Hrun Hle Hq H1 H2)
    as (pv & Hpv & b & l1 & Hlk & Hb & Hlast).
  set (pos := if timer_is_before _ _ then y else _) in *.
  set (w1 := part_set (part_get w <| timer_list := y |>) w).
  assert (Eh : heap w1 = heap w) by (unfold heap, w1; by rewrite part_get_set).
  assert (Hnt : t ∉ [] ++ (q1 ++ q2).*1 ++ [T_sentinel]).
  { pose proof (st_nodup _ _ _ _ Hst) as Hnd. rewrite <- Hq. cbn [app] in *.
    by apply NoDup_cons in Hnd as [? _]. }
  pose proof (stored_tail _ _ _ _ Hst) as Hst'. rewrite Hq in Hst'.
  destruct (insert_timer_stored B [] q1 q2 t x pos b l1 w1) as (h' & Hrun' & Hst2 & Hsame);
    rewrite ?Eh; auto.
  { intros ->. rewrite app_nil_r in Hq. exists tp. split; [done|].
    apply elem_of_cons in Hp as [Hp|Hp].
    - injection Hp as <- <-. split; [done|lia].
    - destruct (stored_time _ _ _ _ _ Hst Hp) as [_ Hwin]. split; [exact Hwin|].
      rewrite Hq in Hp. rewrite Forall_forall in H1. by apply (H1 _ Hp). }
  rewrite Eh in Hsame. exists pv, h'. split; [done|]. split.
  - refine (eq_trans Hrun' _). unfold with_timers, w1. by rewrite part_get_set, part_set_set.
  - rewrite Hins. split; simpl.
    + exists []. split; [done|]. split; [|by left].
      destruct q1 as [|[y1 ty1] q1]; [|injection Hq as -> -> _; done].
      destruct q2; [done|]. injection Hq as <- _. apply Forall_cons in H2 as [H2 _].
      simpl in H2. lia.
    + by eapply same_times_static.
    + exists tp. split; [|by eapply same_times_wake].
      rewrite Hq, elem_of_cons, elem_of_app in Hp. rewrite elem_of_app, elem_of_cons. tauto.
    + rewrite fmap_app, fmap_cons, elem_of_app, elem_of_cons. auto.
Qed.

Context {FW : Firmware W}.

Lemma dispatch_spec B q t x res (w w1 : W) :
  timer_list (part_get w) = t -> dispatch_callback t w = Ret res w1 ->
  running_rep B (part_get w1) t x q -> (res = SF_DONE -> t <> T_periodic) ->
  let q' := if res =? SF_DONE then q else q_insert t x q in
  exists s' y ty r, sched_timer_dispatch w = Ret (u32 ty) (part_set s' w1) /\
    timers_rep B s' q' /\ q' = (y, ty) :: r /\
    tasks_status s' = tasks_status (part_get w1).
Proof.
  intros Ht Hcb Hrun Hper.
  destruct (running_next _ _ _ _ _ Hrun) as (tv & next & nv & Htv & Htw & Hn & Hnv & Hcase).
  unfold sched_timer_dispatch. rewrite (bind_Ret _ _ _ _ _ (sget_Ret _ _)), Ht.
  rewrite (bind_Ret _ _ _ _ _ Hcb), (bind_Ret _ _ _ _ _ (tget_Ret _ _ _ Htv)), Hn, Htw.
  cbn zeta. cbn [deref]. destruct (Z.eqb_spec res SF_DONE) as [Eres|Eres].
  - specialize (Hper Eres). rewrite bind_ret_l, (bind_Ret _ _ _ _ _ (tget_Ret _ _ _ Hnv)).
    destruct q as [|[y ty] q]; [naive_solver|]. destruct Hcase as (-> & Hnw & _).
    pose proof (running_done _ _ _ _ _ _ _ Hrun Hper) as Hdone.
    eexists _, y, ty, q. split; [|split; [exact Hdone|by split]].
    unfold smod, modify. unfold bind at 1. rewrite (bind_Ret _ _ _ _ _ (sget_Ret _ _)).
    rewrite part_get_set. simpl. rewrite Hnw. unfold when.
    case_bool_decide as E; destruct decide; try done; unfold bind, ret; simpl.
    by rewrite part_get_set, part_set_set.
  - rewrite bind_ret_l, (bind_Ret _ _ _ _ _ (tget_Ret _ _ _ Hnv)).
    pose proof (run_wake _ _ _ _ _ Hrun) as [_ Hxw].
    destruct q as [|[y ty] q].
    + destruct Hcase as (-> & -> & Hnw). rewrite Hnw.
      unfold in_window in Hxw. rewrite timer_is_before_spec by lia.
      rewrite (proj2 (Z.ltb_lt _ _)) by lia. cbn [negb].
      exists (part_get w1), T_periodic, x, []. rewrite part_set_get. split; [done|].
      split; [|by split]. apply running_keep; [done|constructor].
    + destruct Hcase as (-> & Hnw & Hyw). rewrite Hnw, (timer_before_window B) by done.
      destruct (Z.ltb_spec x ty) as [Hlt|Hge]; cbn [negb].
      * exists (part_get w1), t, x, ((y, ty) :: q). rewrite part_set_get. split; [done|].
        assert (Hall : Forall (fun p => x < p.2) ((y, ty) :: q)).
        { apply Forall_forall. intros p Hp.
          pose proof (sorted_front _ _ _ _ (st_sorted _ _ _ _ (run_stored _ _ _ _ _ Hrun)) Hp).
          lia. }
        split; [by apply running_keep|]. split; [by apply q_insert_front|done].
      * destruct (running_move _ _ _ _ _ _ _ Hrun Hge) as (pv & h' & Hpv & Hins & Hrep).
        eexists _, y, ty, (q_insert t x q). split; [|split; [exact Hrep|split; [|done]]].
        -- unfold smod, modify. unfold bind at 1. rewrite (bind_Ret _ _ _ _ _ (sget_Ret _ _)).
           rewrite part_get_set.
           change (last_insert (part_get w1 <| timer_list := y |>)) with (last_insert (part_get w1)).
           assert (Hpv2 : heap (part_set (part_get w1 <| timer_list := y |>) w1)
                            !! last_insert (part_get w1) = Some pv).
           { unfold heap. by rewrite part_get_set. }
           rewrite (bind_Ret _ _ _ _ _ (tget_Ret _ _ _ Hpv2)).
           rewrite (bind_Ret _ _ _ _ _ Hins). unfold bind, ret.
           by rewrite part_get_set, part_set_set.
        -- simpl. destruct (Z.ltb_spec x ty); [lia|done].
Qed.

(** ** Callbacks *)

Lemma stored_set_pre B h t v v' q :
  stored B h [t] q -> h !! t = Some v -> t_next v' = t_next v ->
  stored B (<[t := v']> h) [t] q.
Proof.
  intros [Hl Hnd Hs Ht Hd] Hv Hn. split; auto.
  - apply (linked_ext h); [|done]. intros z vz Hz Hvz.
    destruct (decide (z = t)) as [->|Hne].
    + rewrite lookup_insert_eq. exists v'. split; [done|]. congruence.
    + rewrite lookup_insert_ne by done. eauto.
  - apply Forall_forall. intros p Hp. rewrite Forall_forall in Ht.
    destruct (Ht p Hp) as [(u & Hu & Hw) Hwin]. split; [|done]. exists u.
    rewrite lookup_insert_ne; [done|]. intros E.
    cbn [app] in Hnd. apply NoDup_cons in Hnd as [Hnd _]. apply Hnd. rewrite E.
    apply elem_of_app. left. by apply list_elem_of_fmap_2.
Qed.

(** A new waketime for the sentinel. *)
Lemma stored_set_sentinel B h pre v v' q :
  stored B h pre q -> h !! T_sentinel = Some v -> t_next v' = t_next v ->
  stored B (<[T_sentinel := v']> h) pre q.
Proof.
  intros [Hl Hnd Hs Ht Hd] Hv Hn. split; auto.
  - apply (linked_ext h); [|done]. intros z vz Hz Hvz.
    destruct (decide (z = T_sentinel)) as [->|Hne].
    + rewrite lookup_insert_eq. exists v'. split; [done|]. congruence.
    + rewrite lookup_insert_ne by done. eauto.
  - apply Forall_forall. intros p Hp. rewrite Forall_forall in Ht.
    destruct (Ht p Hp) as [(u & Hu & Hw) Hwin]. split; [|done]. exists u.
    rewrite lookup_insert_ne; [done|]. intros E.
    apply NoDup_app in Hnd as (_ & _ & Hnd). apply NoDup_app in Hnd as (_ & Hnd & _).
    apply (Hnd p.1); [by apply list_elem_of_fmap_2|]. rewrite <- E.
    by apply list_elem_of_singleton.
Qed.

(** The queue when the timer at its head starts to run. *)
Lemma rep_run B s t x q :
  timers_rep B s ((t, x) :: q) -> timer_list s = t -> running_rep B s t x q.
Proof.
  intros [(pre & Hst & Htl & Hpre) Hsta Hper Hli] Ht.
  assert (Htd : t <> T_deleted).
  { intros ->. apply (st_deleted _ _ _ _ Hst). by apply list_elem_of_here. }
  assert (pre = []) as ->.
  { destruct Hpre as [|[-> _]]; [done|]. injection Htl as Htl. congruence. }
  destruct (stored_time _ _ _ _ (t, x) Hst) as [Hw Hx]; [by apply list_elem_of_here|].
  split; auto. pose proof (st_sorted _ _ _ _ Hst) as Hs. pose proof (st_times _ _ _ _ Hst) as Htm.
  split; [exact (st_linked _ _ _ _ Hst)|exact (st_nodup _ _ _ _ Hst)| | |].
  - by inversion Hs.
  - by apply Forall_cons in Htm as [_ ?].
  - pose proof (st_deleted _ _ _ _ Hst) as Hd. rewrite fmap_cons in Hd. set_solver.
Qed.

(** A callback that assigns its own [waketime] and [func] fields. *)
Lemma run_own_update B s t x q v x' f :
  running_rep B s t x q -> t <> T_periodic -> timers s !! t = Some v -> in_window B x' ->
  running_rep B (s <| timers ::= <[t := mk_timer (t_next v) f (u32 x')]> |>) t x' q.
Proof.
  intros [Hst Hl Hu [Hw Hxw] Hsta (tp & Hp & Hs) Hli] Ht Hv Hx'. split; auto; simpl.
  - by eapply stored_set_pre.
  - split; [|done]. eexists. by rewrite lookup_insert_eq.
  - by apply static_set_user.
  - exists tp. split; [apply elem_of_cons in Hp as [Hp|Hp]; [congruence|set_solver]|].
    assert (Hne : T_sentinel <> t).
    { intros E. pose proof (st_nodup _ _ _ _ Hst) as Hnd. cbn [app] in Hnd.
      apply NoDup_cons in Hnd as [Hnd _]. set_solver. }
    destruct Hs as (u & ? & ?). exists u. by rewrite lookup_insert_ne.
Qed.

Lemma periodic_event_spec B x q (w : W) :
  running_rep B (part_get w) T_periodic x q -> in_window B (x + timer_from_us 100000) ->
  exists s', periodic_event w = Ret SF_RESCHEDULE (part_set s' w) /\
    tasks_status s' = TS_REQUESTED /\
    running_rep B s' T_periodic (x + timer_from_us 100000) q.
Proof.
  intros [Hst Hl Hu [(v & Hv & Hw) Hxw] Hsta (tp & Hp & (u & Hu' & Huw)) Hli] Hx'.
  unfold periodic_event, sched_wake_tasks, smod, modify. unfold bind at 1.
  set (s1 := part_get w <| tasks_status := TS_REQUESTED |>).
  assert (Hv1 : heap (part_set s1 w) !! T_periodic = Some v).
  { unfold heap. by rewrite part_get_set. }
  rewrite (bind_Ret _ _ _ _ _ (tmod_Ret _ _ _ _ Hv1)).
  assert (Eh1 : heap (part_set s1 w) = timers (part_get w)).
  { unfold heap. by rewrite part_get_set. }
  rewrite Eh1.
  set (v' := v <| t_waketime := u32 (t_waketime v + timer_from_us 100000) |>).
  set (w1 := with_timers _ (part_set s1 w)).
  assert (Hv2 : heap w1 !! T_periodic = Some v').
  { unfold w1. by rewrite heap_with, lookup_insert_eq. }
  assert (Hu2 : heap w1 !! T_sentinel = Some u).
  { unfold w1. by rewrite heap_with, lookup_insert_ne by done. }
  rewrite (bind_Ret _ _ _ _ _ (tget_Ret _ _ _ Hv2)).
  rewrite (bind_Ret _ _ _ _ _ (tmod_Ret _ _ _ _ Hu2)).
  unfold w1. rewrite heap_with, with_with.
  set (u' := u <| t_waketime := u32 (t_waketime v' + 2147483648) |>).
  eexists. split; [unfold with_timers; by rewrite part_set_set|].
  rewrite part_get_set. split; [done|]. split; auto; simpl.
  - eapply stored_set_sentinel; [|by rewrite lookup_insert_ne|done].
    by eapply stored_set_pre.
  - split; [|done]. exists v'. rewrite lookup_insert_ne, lookup_insert_eq by done.
    split; [done|]. simpl. rewrite Hw. wrap_lia.
  - destruct Hsta as [(d & Hd & Ed) (p' & Hp' & Ep)]. split.
    + exists d. by rewrite !lookup_insert_ne.
    + exists v'. rewrite lookup_insert_ne, lookup_insert_eq by done. split; [done|].
      simpl. congruence.
  - eexists. split; [by apply list_elem_of_here|]. exists u'.
    rewrite lookup_insert_eq. split; [done|]. simpl. rewrite Hw. wrap_lia.
Qed.
End operations.

(** ** The scheduler starts with an empty queue *)

Lemma init_rep : timers_rep 0 sched_init [(T_periodic, 0)].
Proof.
  assert (Hs : stored 0 (timers sched_init) [] [(T_periodic, 0)]).
  { split.
    - split; [by exists periodic_timer|]. split; [done|]. by exists sentinel_timer.
    - cbn. apply NoDup_cons. split; [set_solver|]. apply NoDup_singleton.
    - by repeat constructor.
    - constructor; [|constructor]. split; [by exists periodic_timer|]. unfold in_window. simpl. lia.
    - set_solver. }
  split.
  - exists []. split; [done|]. split; [done|by left].
  - split; [by exists deleted_timer|by exists periodic_timer].
  - exists 0. split; [by apply list_elem_of_here|]. by exists sentinel_timer.
  - by apply list_elem_of_here.
Qed.

(** ** Properties *)

Section properties.
Context {W : Type} {cfg : Config} {PS : Part W sched_state} {BD : Board W} {FW : Firmware W}.

Lemma dispatch_deleted B q (w : W) :
  timers_rep B (part_get w) q -> timer_list (part_get w) = T_deleted ->
  exists s' y ty r, sched_timer_dispatch w = Ret (u32 ty) (part_set s' w) /\
    timers_rep B s' q /\ q = (y, ty) :: r.
Proof.
  intros [(pre & Hst & Htl & Hpre) Hsta (tp & Hp & Hs) Hli] Ht.
  destruct q as [|[y ty] q]; [by apply elem_of_nil in Hp|].
  assert (pre = [T_deleted]) as ->.
  { destruct Hpre as [->|[-> _]]; [|done]. injection Htl as Htl. exfalso.
    apply (st_deleted _ _ _ _ Hst). rewrite <- Ht, Htl. by apply list_elem_of_here. }
  pose proof Hsta as [(vd & Hvd & Hfd) _].
  destruct (stored_time _ _ _ _ (y, ty) Hst) as [(vy & Hvy & Hyw) _];
    [by apply list_elem_of_here|].
  destruct (st_linked _ _ _ _ Hst) as [(vd' & Hvd' & Hn) _].
  rewrite Hvd in Hvd'. injection Hvd' as <-.
  assert (Hcb : dispatch_callback T_deleted w = Ret SF_DONE w).
  { unfold dispatch_callback. rewrite (bind_Ret _ _ _ _ _ (tget_Ret _ _ _ Hvd)).
    by rewrite Hfd. }
  exists (part_get w <| timer_list := y |>), y, ty, q. split; [|split; [|done]].
  - unfold sched_timer_dispatch. rewrite (bind_Ret _ _ _ _ _ (sget_Ret _ _)), Ht.
    rewrite (bind_Ret _ _ _ _ _ Hcb), (bind_Ret _ _ _ _ _ (tget_Ret _ _ _ Hvd)), Hn.
    cbn [deref fst snd] in *. rewrite Z.eqb_refl, bind_ret_l.
    rewrite (bind_Ret _ _ _ _ _ (tget_Ret _ _ _ Hvy)), Hyw.
    unfold smod, modify. unfold bind at 1. rewrite (bind_Ret _ _ _ _ _ (sget_Ret _ _)).
    rewrite part_get_set, bool_decide_false; [done|]. simpl. intros E.
    apply (st_deleted _ _ _ _ Hst). by rewrite <- E.
  - split; simpl; [|done|by exists tp|done]. exists [].
    split; [by eapply stored_tail|]. split; [done|by left].
Qed.

(** C2: [sched_add_timer] implements insertion into a queue sorted by time: for a
    timer that is not scheduled yet and whose time lies in the same half clock
    period as the scheduled ones, the linked list afterwards holds the same
    timers with the new one after every timer that is not later, also across the
    wrap-around of the 32-bit clock.  The only other outcome is the shutdown
    "Timer too close", and only when the timer would be first in the queue and
    its time has already passed; the queue is then unchanged. *)
Theorem add_timer_refines B q t x (w : W) :
  board_ok -> timers_rep B (part_get w) q -> addable t q ->
  wake_at (timers (part_get w)) t x -> in_window B x ->
  (exists w', sched_add_timer t w = Ret tt w' /\
     timers_rep B (part_get w') (q_insert t x q)) \/
  (exists now w', sched_add_timer t w = Shut "Timer too close" w' /\
     timer_is_before (u32 x) now = true /\ shutdown_status (part_get w) = 0 /\
     Forall (fun p => x < p.2) q /\ timers_rep B (part_get w') q).
Proof.
  intros Hb Hrep Hadd Hw Hx.
  destruct (add_timer_spec B q t x w Hb Hrep Hadd Hw Hx) as [?|(now & w' & ? & ? & ? & ? & E)];
    [by left|right]. exists now, w'. by rewrite E.
Qed.

(** [sched_del_timer] removes exactly the given timer from the queue, whether
    it is the next timer, a later one or not scheduled at all; all other timers
    keep their order. *)
Theorem del_timer_refines B q t (w : W) :
  timers_rep B (part_get w) q -> user_timer t ->
  exists s', sched_del_timer t w = Ret tt (part_set s' w) /\
    timers_rep B s' (filter (fun p => p.1 <> t) q).
Proof.
  intros Hrep Hu. destruct (del_timer_spec B q t w Hrep Hu) as (s' & ? & ? & _). by exists s'.
Qed.


(** The periodic timer keeps itself scheduled: when it is the earliest timer
    its dispatch wakes the tasks, moves it 100 ms later in the queue and moves the
    sentinel along, so the queue invariant (a periodic timer is always scheduled,
    the sentinel is half a period after it) holds again. *)
Theorem periodic_timer_invariant B x q (w : W) :
  timers_rep B (part_get w) ((T_periodic, x) :: q) ->
  timer_list (part_get w) = T_periodic -> in_window B (x + timer_from_us 100000) ->
  exists s' next, sched_timer_dispatch w = Ret next (part_set s' w) /\
    tasks_status s' = TS_REQUESTED /\
    timers_rep B s' (q_insert T_periodic (x + timer_from_us 100000) q).
Proof.
  intros Hrep Ht Hx. pose proof (rep_run _ _ _ _ _ Hrep Ht) as Hrun.
  destruct (periodic_event_spec _ _ _ _ Hrun Hx) as (s1 & Hev & Hts & Hrun1).
  destruct (rep_static _ _ _ Hrep) as [_ (vp & Hvp & Hfp)].
  assert (Hcb : dispatch_callback T_periodic w = Ret SF_RESCHEDULE (part_set s1 w)).
  { unfold dispatch_callback. rewrite (bind_Ret _ _ _ _ _ (tget_Ret _ _ _ Hvp)).
    by rewrite Hfp. }
  rewrite <- (part_get_set (W := W) s1 w) in Hrun1.
  destruct (dispatch_spec B q T_periodic _ _ _ _ Ht Hcb Hrun1)
    as (s' & y & ty & r & Hd & Hrep' & _ & Etasks); [done|].
  exists s', (u32 ty). rewrite part_set_set in Hd. rewrite part_get_set in Etasks.
  split; [done|]. split; [congruence|done].
Qed.

(** [sched_timer_reset] restores a sound queue from any state of the list: it
    only relies on the static timers (their functions, and the sentinel being half
    a period after the periodic timer), and leaves exactly the periodic timer. *)
Theorem timer_reset_restores B tp (w : W) :
  board_ok -> static_ok (timers (part_get w)) ->
  wake_at (timers (part_get w)) T_periodic tp -> in_window B tp ->
  (exists v, timers (part_get w) !! T_sentinel = Some v /\ t_next v = None /\
     t_waketime v = u32 (tp + 2147483648)) ->
  exists w', sched_timer_reset w = Ret tt w' /\
    timers_rep B (part_get w') [(T_periodic, tp)].
Proof.
  intros [_ Hkick] Hsta (vp & Hvp & Hwp) Hx (vs & Hvs & Hns & Hws).
  pose proof Hsta as [(vd & Hvd & Hfd) (vp' & Hvp' & Hfp)].
  rewrite Hvp in Hvp'. injection Hvp' as <-.
  unfold sched_timer_reset, smod, modify. unfold bind at 1.
  set (w1 := part_set (part_get w <| timer_list := T_deleted |>) w).
  assert (Eh1 : heap w1 = timers (part_get w)) by (unfold heap, w1; by rewrite part_get_set).
  assert (Hvp1 : heap w1 !! T_periodic = Some vp) by (by rewrite Eh1).
  assert (Hvd1 : heap w1 !! T_deleted = Some vd) by (by rewrite Eh1).
  rewrite (bind_Ret _ _ _ _ _ (tget_Ret _ _ _ Hvp1)).
  rewrite (bind_Ret _ _ _ _ _ (tmod_Ret _ _ _ _ Hvd1)). unfold bind at 1.
  set (vd2 := vd <| t_waketime := t_waketime vp |>).
  set (w2 := part_set _ (with_timers _ w1)).
  assert (Eh2 : heap w2 = <[T_deleted := vd2]> (timers (part_get w))).
  { unfold heap, w2. rewrite part_get_set. simpl. rewrite part_get_with. simpl. by rewrite Eh1. }
  assert (Hvd2 : heap w2 !! T_deleted = Some vd2) by (by rewrite Eh2, lookup_insert_eq).
  rewrite (bind_Ret _ _ _ _ _ (tmod_Ret _ _ _ _ Hvd2)).
  set (w3 := with_timers _ w2).
  assert (Hvp3 : heap w3 !! T_periodic = Some vp).
  { unfold w3. rewrite heap_with, Eh2, !lookup_insert_ne by done. done. }
  rewrite (bind_Ret _ _ _ _ _ (tmod_Ret _ _ _ _ Hvp3)).
  match goal with |- exists w', timer_kick ?u = _ /\ _ => destruct (Hkick u) as (w' & Hk & Hp) end.
  exists w'. split; [done|]. rewrite Hp. unfold w3.
  rewrite heap_with, with_with, part_get_with, Eh2, insert_insert_eq.
  unfold w2. rewrite part_get_set, part_get_with. unfold w1. rewrite part_get_set.
  split; simpl.
  - exists [T_deleted]. split; [|split; [done|]].
    + split; cbn.
      * split; [eexists; rewrite lookup_insert_ne, lookup_insert_eq by done; eauto|].
        split; [eexists; rewrite lookup_insert_eq; eauto|]. split; [done|].
        exists vs. by rewrite !lookup_insert_ne by done.
      * apply NoDup_cons. split; [set_solver|]. apply NoDup_cons.
        split; [set_solver|apply NoDup_singleton].
      * by repeat constructor.
      * constructor; [|constructor]. split; [|done]. eexists. by rewrite lookup_insert_eq.
      * set_solver.
    + right. split; [done|]. exists tp. split; [|split; [done|]].
      * eexists. rewrite lookup_insert_ne, lookup_insert_eq by done. done.
      * constructor; [simpl; lia|constructor].
  - split; eexists; [rewrite lookup_insert_ne, lookup_insert_eq by done; done|].
    rewrite lookup_insert_eq. done.
  - exists tp. split; [by apply list_elem_of_here|]. exists vs.
    by rewrite !lookup_insert_ne by done.
  - by apply list_elem_of_here.
Qed.
End properties.

(** ** Shutdown *)

Section shutdown.
Context {W : Type} {cfg : Config} {PS : Part W sched_state} {BD : Board W} {FW : Firmware W}.

(** What a shutdown relies on: the shutdown functions return, and neither they
    nor the message change the status and the reason. *)
Definition shutdown_ok : Prop :=
  (forall w : W, shutdown_status (part_get w) = 2 ->
     exists w', ctr_run_shutdownfuncs w = Ret tt w' /\
       shutdown_status (part_get w') = 2 /\
       shutdown_reason (part_get w') = shutdown_reason (part_get w)) /\
  (forall c r (w : W), exists w', send_shutdown c r w = Ret tt w' /\
     part_get (Part := PS) w' = part_get w).

Lemma timer_reset_frame (w : W) :
  board_ok -> static_ok (timers (part_get w)) ->
  exists w', sched_timer_reset w = Ret tt w' /\
    shutdown_status (part_get w') = shutdown_status (part_get w) /\
    shutdown_reason (part_get w') = shutdown_reason (part_get w).
Proof.
  intros [_ Hkick] [(vd & Hvd & Hfd) (vp & Hvp & Hfp)].
  unfold sched_timer_reset, tmod, tset, tget, sget, smod, gets, modify, bind.
  repeat (rewrite ?part_get_set; simpl). rewrite Hvp. simpl.
  repeat (rewrite ?part_get_set, ?lookup_insert_eq, ?lookup_insert_ne by done; simpl).
  rewrite Hvd. simpl.
  repeat (rewrite ?part_get_set, ?lookup_insert_eq, ?lookup_insert_ne by done; simpl).
  rewrite Hvp. simpl.
  match goal with |- exists w', timer_kick ?u = _ /\ _ => destruct (Hkick u) as (w' & Hk & Hp) end.
  exists w'. split; [exact Hk|]. rewrite Hp, !part_get_set. done.
Qed.

Lemma run_shutdown_spec reason (w : W) :
  board_ok -> shutdown_ok -> static_ok (timers (part_get w)) ->
  exists w', run_shutdown reason w = Ret tt w' /\
    shutdown_status (part_get w') = 1 /\
    shutdown_reason (part_get w')
    = if shutdown_status (part_get w) =? 0 then u8 reason else shutdown_reason (part_get w).
Proof.
  intros Hb [Hfun Hsend] Hsta. pose proof Hb as [Hrd _].
  destruct (Hrd w) as (cur & w1 & Hcur & E1). unfold run_shutdown.
  rewrite (bind_Ret _ _ _ _ _ Hcur), (bind_Ret _ _ _ _ _ (sget_Ret _ _)), E1.
  set (rs := if shutdown_status (part_get w) =? 0 then u8 reason else shutdown_reason (part_get w)).
  assert (H1 : exists w2, when (shutdown_status (part_get w) =? 0)
      (smod (fun s => s <| shutdown_reason := u8 reason |>)) w1 = Ret tt w2 /\
      shutdown_reason (part_get w2) = rs /\ timers (part_get w2) = timers (part_get w)).
  { unfold rs. destruct (_ =? 0); cbn [when]; eexists; (split; [reflexivity|]).
    - rewrite part_get_set. simpl. by rewrite E1.
    - by rewrite E1. }
  destruct H1 as (w2 & Hw & Hr2 & Ht2). rewrite (bind_Ret _ _ _ _ _ Hw).
  unfold smod, modify. unfold bind at 1.
  set (w3 := part_set (part_get w2 <| shutdown_status := 2 |>) w2).
  assert (E3 : part_get w3 = part_get w2 <| shutdown_status := 2 |>) by apply part_get_set.
  destruct (timer_reset_frame w3 Hb) as (w4 & Hreset & Hs4 & Hr4).
  { rewrite E3. simpl. by rewrite Ht2. }
  rewrite (bind_Ret _ _ _ _ _ Hreset). rewrite E3 in Hs4, Hr4.
  destruct (Hfun w4 Hs4) as (w5 & Hf5 & Hs5 & Hr5).
  rewrite (bind_Ret _ _ _ _ _ Hf5). unfold bind at 1.
  rewrite (bind_Ret _ _ _ _ _ (sget_Ret _ _)).
  match goal with |- exists w', send_shutdown ?c ?r ?u = _ /\ _ =>
    destruct (Hsend c r u) as (w' & Hk & Hp) end.
  exists w'. split; [done|]. rewrite Hp, part_get_set. simpl. split; [done|].
  rewrite Hr5, Hr4. done.
Qed.

End shutdown.

(** ** Witnesses: a board with a fixed clock, on the scheduler state alone *)

Definition demo_config : Config := {|
  CONFIG_CLOCK_FREQ := 16000000; CONFIG_INLINE_STEPPER_HACK := false;
  CONFIG_HAVE_STEPPER_BOTH_EDGE := false; CONFIG_MACH_AVR := false |}.

Definition demo_board : Board sched_state := {|
  timer_read_time := ret 5; timer_kick := ret tt; irq_poll := ret tt; irq_wait := ret tt |}.

(** Timer callbacks reschedule 1000 ticks later; the task function shuts down. *)
Definition demo_firmware : Firmware sched_state := {|
  call_timer_func _ t :=
    tmod t (fun v => v <| t_waketime := u32 (t_waketime v + 1000) |>) ;; ret SF_RESCHEDULE;
  call_stepper_event _ := ret SF_DONE;
  ctr_run_taskfuncs := shutdown "demo";
  ctr_run_shutdownfuncs := ret tt;
  ctr_lookup_static_string _ := 7;
  call_stats_update _ _ := ret tt;
  send_shutdown _ _ := ret tt;
  send_is_shutdown _ := ret tt |}.

#[local] Existing Instances demo_config demo_board demo_firmware.

Lemma demo_board_ok : board_ok (W := sched_state).
Proof. split; intros w; [by exists 5, w|by exists w]. Qed.

(** The initial state with one more timer in the heap, at time 42. *)
Definition demo_state : sched_state :=
  sched_init <| timers ::= <[T_obj 1 0 := mk_timer None (Some F_counter_event) 42]> |>.

Lemma demo_rep : timers_rep 0 demo_state [(T_periodic, 0)].
Proof.
  pose proof init_rep as [(pre & Hst & Htl & Hpre) Hsta (tp & Hp & Hs) Hli].
  assert (Hsame : same_times (timers sched_init) (timers demo_state)).
  { intros y v Hv. exists v. split; [|done]. unfold demo_state. simpl.
    rewrite lookup_insert_ne; [done|]. by intros <-. }
  split; [|by eapply same_times_static|exists tp; split; [done|by eapply same_times_wake]|done].
  exists []. split; [|split; [done|by left]]. split.
  - split; [by exists periodic_timer|]. split; [done|]. by exists sentinel_timer.
  - cbn. apply NoDup_cons. split; [set_solver|]. apply NoDup_singleton.
  - by repeat constructor.
  - eapply same_times_Forall; [done|]. constructor; [|constructor].
    split; [by exists periodic_timer|]. unfold in_window. simpl. lia.
  - set_solver.
Qed.

Lemma demo_addable : addable (T_obj 1 0) [(T_periodic, 0)].
Proof. repeat split; set_solver. Qed.

Lemma add_timer_refines_witness :
  exists w', sched_add_timer (T_obj 1 0) demo_state = Ret tt w' /\
    timers_rep 0 (part_get w') [(T_periodic, 0); (T_obj 1 0, 42)].
Proof.
  destruct (add_timer_refines 0 [(T_periodic, 0)] (T_obj 1 0) 42 demo_state) as [H|H].
  - apply demo_board_ok.
  - apply demo_rep.
  - apply demo_addable.
  - by exists (mk_timer None (Some F_counter_event) 42).
  - unfold in_window. lia.
  - exact H.
  - exfalso. destruct H as (now & w' & _ & _ & _ & HF & _).
    apply Forall_cons in HF as [HF _]. simpl in HF. lia.
Defined.

Lemma del_timer_refines_witness :
  exists s', sched_del_timer (T_obj 1 0) demo_state = Ret tt s' /\
    timers_rep 0 s' [(T_periodic, 0)].
Proof.
  destruct (del_timer_refines 0 [(T_periodic, 0)] (T_obj 1 0) demo_state) as (s' & Hd & Hr).
  - apply demo_rep.
  - repeat split; done.
  - exists s'. split; [exact Hd|exact Hr].
Defined.


Lemma periodic_timer_invariant_witness :
  exists s' next, sched_timer_dispatch demo_state = Ret next s' /\
    timers_rep 0 s' [(T_periodic, 1600000)].
Proof.
  destruct (periodic_timer_invariant (PS := Part_refl sched_state) 0 0 [] demo_state demo_rep) as (s' & next & H & _ & Hr).
  - done.
  - vm_compute. split; [congruence|done].
  - exists s', next. split; [exact H|exact Hr].
Defined.

Lemma timer_reset_restores_witness :
  exists w', sched_timer_reset demo_state = Ret tt w' /\
    timers_rep 0 (part_get w') [(T_periodic, 0)].
Proof.
  apply (timer_reset_restores 0 0 demo_state).
  - apply demo_board_ok.
  - apply demo_rep.
  - by exists periodic_timer.
  - unfold in_window. lia.
  - by exists sentinel_timer.
Defined.

