(* ===== verification/Basecmd.v ===== *)
(** * Basic infrastructure of the micro-controller

    src/basecmd.c and basecmd.h: the bump allocator, the pool of move nodes with
    its free list and queues, the table of object ids, the configuration commands
    and the load statistics.  A [struct move_node *] is its address; the pool maps
    an address to its [next] field and its payload.  The payloads ([Pay]) and the
    objects ([Obj]) are those of the modules that use the pool and the table. *)

From S2P Require Import Prelude Command Sched.

(** ** Macros of compiler.h *)

Definition DIV_ROUND_UP (n d : Z) : Z := u32 (n + d - 1) / d.

(** [ALIGN(x, a)] for a power of two [a]. *)
Definition ALIGN (x a : Z) : Z := Z.ldiff (x + a - 1) (a - 1).

(** ** Data *)

(** The type of an object is the address of its config command. *)
Inductive otype : Type :=
| OT_stepper | OT_trsync | OT_endstop | OT_digital_out | OT_pwm_out
| OT_analog_in | OT_buttons | OT_counter | OT_tmcuart
| OT_spi | OT_spi_shutdown | OT_i2c | OT_thermocouple
| OT_adxl345 | OT_mpu9250 | OT_spi_angle | OT_neopixel | OT_st7920 | OT_hd44780.

#[export] Instance otype_eq_dec : EqDecision otype.
Proof. solve_decision. Defined.

Record move_node (Pay : Type) := mk_move { mv_next : option Z; mv_pay : option Pay }.
Arguments mk_move {Pay}.
Arguments mv_next {Pay}.
Arguments mv_pay {Pay}.

Record move_queue_head := mk_mqh { mq_first : option Z; mq_last : option Z }.

Definition mq_empty_head : move_queue_head := mk_mqh None None.

Record oid_s (Obj : Type) := mk_oid { oid_type : option otype; oid_data : option Obj }.
Arguments mk_oid {Obj}.
Arguments oid_type {Obj}.
Arguments oid_data {Obj}.

(** The static variables of basecmd.c and the pool they point into. *)
Record base_state (Pay Obj : Type) := mk_base {
  alloc_end : Z;
  moves : gmap Z (move_node Pay);
  move_free_list : option Z;
  move_list : Z;
  move_count : Z;
  move_item_size : Z;
  oids : option (list (oid_s Obj));
  oid_count : Z;
  config_crc : Z;
  stats_send_time : Z;
  stats_send_time_high : Z;
  stats_count : Z;
  stats_sum : Z;
  stats_sumsq : Z;
}.
Arguments mk_base {Pay Obj}.
Arguments alloc_end {Pay Obj}.
Arguments moves {Pay Obj}.
Arguments move_free_list {Pay Obj}.
Arguments move_list {Pay Obj}.
Arguments move_count {Pay Obj}.
Arguments move_item_size {Pay Obj}.
Arguments oids {Pay Obj}.
Arguments oid_count {Pay Obj}.
Arguments config_crc {Pay Obj}.
Arguments stats_send_time {Pay Obj}.
Arguments stats_send_time_high {Pay Obj}.
Arguments stats_count {Pay Obj}.
Arguments stats_sum {Pay Obj}.
Arguments stats_sumsq {Pay Obj}.
#[export] Instance eta_base Pay Obj : Settable (base_state Pay Obj) := fun s =>
  mk_base (alloc_end s) (moves s) (move_free_list s) (move_list s) (move_count s)
    (move_item_size s) (oids s) (oid_count s) (config_crc s) (stats_send_time s)
    (stats_send_time_high s) (stats_count s) (stats_sum s) (stats_sumsq s).

(** What the target and the build determine. *)
Class Target := {
  dynmem_start : Z;
  dynmem_end : Z;
  alignof_ptr : Z;
  sizeof_obj : otype -> Z;
  sizeof_gpio_in : Z;
  sizeof_oid : Z;
  sizeof_move_node : Z;
  command_identify_data : list Z;
  ctr_lookup_encoder : string -> command_encoder;
}.

Section basecmd.
Context {Pay Obj W : Type} {cfg : Config} {tgt : Target}.
Context {PB : Part W (base_state Pay Obj)} {PC : Part W cmd_state} {PS : Part W sched_state}.
Context {BD : Board W} {CN : Console W}.

Definition bget {A} (f : base_state Pay Obj -> A) : M W A := gets (fun w => f (part_get w)).
Definition bmod (f : base_state Pay Obj -> base_state Pay Obj) : M W unit :=
  modify (fun w => part_set (f (part_get w)) w).

(** [sendf(FMT, args)]. *)
Definition sendf (fmt : string) (args : list va_arg) : M W unit :=
  command_sendf (ctr_lookup_encoder fmt) args.

(** ** Low level allocation *)

Definition alloc_init : M W unit :=
  bmod (fun s => s <| alloc_end := ALIGN dynmem_start alignof_ptr |>).

Definition alloc_chunk (size : Z) : M W Z :=
  aend <- bget alloc_end ;;
  if dynmem_end <? aend + size then shutdown "alloc_chunk failed"
  else
    bmod (fun s => s <| alloc_end := aend + ALIGN size alignof_ptr |>) ;;
    ret aend.

(** The loop of [alloc_chunks]: the pair is [(can_alloc, p)]. *)
Fixpoint chunks_loop (count : nat) (size can_alloc p : Z) : Z * Z :=
  match count with
  | O => (can_alloc, p)
  | S count =>
      if p + size <=? dynmem_end then chunks_loop count size (can_alloc + 1) (p + size)
      else (can_alloc, p)
  end.

(** The pair is the address and [*avail]. *)
Definition alloc_chunks (size : Z) (count : nat) : M W (Z * Z) :=
  aend <- bget alloc_end ;;
  let '(can_alloc, p) := chunks_loop count size 0 aend in
  if can_alloc =? 0 then shutdown "alloc_chunks failed"
  else
    data <- alloc_chunk (p - aend) ;;
    ret (data, u16 can_alloc).

(** ** Move queue *)

Definition is_finalized : M W bool :=
  c <- bget move_count ;; ret (negb (c =? 0)).

(** [*m] and assignments to its fields. *)
Definition mget (m : Z) : M W (move_node Pay) :=
  o <- bget (fun s => moves s !! m) ;; deref o.
Definition mset_next (m : Z) (n : option Z) : M W unit :=
  v <- mget m ;;
  bmod (fun s => s <| moves ::= <[m := mk_move n (mv_pay v)]> |>).
Definition mset_pay (m : Z) (p : Pay) : M W unit :=
  v <- mget m ;;
  bmod (fun s => s <| moves ::= <[m := mk_move (mv_next v) (Some p)]> |>).
(** The payload of a node, as the type of move the caller expects. *)
Definition mget_pay (m : Z) : M W Pay := v <- mget m ;; deref (mv_pay v).

Definition move_free (m : Z) : M W unit :=
  fl <- bget move_free_list ;;
  mset_next m fl ;;
  bmod (fun s => s <| move_free_list := Some m |>).

Definition move_alloc : M W Z :=
  mf <- bget move_free_list ;;
  match mf with
  | None => shutdown "Move queue overflow"
  | Some m =>
      v <- mget m ;;
      bmod (fun s => s <| move_free_list := mv_next v |>) ;;
      ret m
  end.

Definition move_queue_empty (mh : move_queue_head) : bool :=
  match mq_first mh with None => true | Some _ => false end.

Definition move_queue_first (mh : move_queue_head) : option Z := mq_first mh.

(** The pair is the new queue head and the return value. *)
Definition move_queue_push (m : Z) (mh : move_queue_head) : M W (move_queue_head * Z) :=
  mset_next m None ;;
  match mq_first mh with
  | Some first =>
      last <- deref (mq_last mh) ;;
      mset_next last (Some m) ;;
      ret (mk_mqh (Some first) (Some m), 0)
  | None => ret (mk_mqh (Some m) (Some m), 1)
  end.

Definition move_queue_pop (mh : move_queue_head) : M W (move_queue_head * Z) :=
  mn <- deref (mq_first mh) ;;
  v <- mget mn ;;
  ret (mk_mqh (mv_next v) (mq_last mh), mn).

Definition move_queue_clear (mh : move_queue_head) : move_queue_head :=
  mk_mqh None (mq_last mh).

Definition move_queue_setup (size : Z) : M W move_queue_head :=
  fin <- is_finalized ;;
  if (255 <? size) || fin then shutdown "Invalid move request size"
  else
    sz <- bget move_item_size ;;
    when (sz <? size) (bmod (fun s => s <| move_item_size := size |>)) ;;
    ret mq_empty_head.

(** The store [mf->next = n] of [move_reset]; the pool's memory exists. *)
Definition pool_link (m : Z) (n : option Z) (h : gmap Z (move_node Pay)) :
    gmap Z (move_node Pay) :=
  <[m := mk_move n (h !! m ≫= mv_pay)]> h.

(** The loop of [move_reset] from index [i] on, [n] iterations. *)
Fixpoint reset_loop (n : nat) (i base size : Z) (h : gmap Z (move_node Pay)) :
    gmap Z (move_node Pay) :=
  match n with
  | O => h
  | S n => reset_loop n (i + 1) base size
             (pool_link (base + i * size) (Some (base + (i + 1) * size)) h)
  end.

Definition move_reset : M W unit :=
  c <- bget move_count ;;
  if c =? 0 then ret tt
  else
    base <- bget move_list ;;
    size <- bget move_item_size ;;
    bmod (fun s => s <| moves ::= reset_loop (Z.to_nat (c - 1)) 0 base size |>) ;;
    bmod (fun s => s <| moves ::= pool_link (base + (c - 1) * size) None |>) ;;
    bmod (fun s => s <| move_free_list := Some base |>).

Definition move_finalize : M W unit :=
  fin <- is_finalized ;;
  if fin : bool then shutdown "Already finalized"
  else
    move_queue_setup sizeof_move_node ;;
    size <- bget move_item_size ;;
    '(data, avail) <- alloc_chunks size 1024 ;;
    bmod (fun s => s <| move_list := data |> <| move_count := avail |>) ;;
    move_reset.

(** ** Generic object ids *)

Definition oid_get (oid : Z) : M W (oid_s Obj) :=
  t <- bget oids ;;
  t <- deref t ;;
  deref (t !! Z.to_nat oid).

Definition oid_set (oid : Z) (v : oid_s Obj) : M W unit :=
  bmod (fun s => s <| oids ::= fmap <[Z.to_nat oid := v]> |>).

(** [oid_lookup]: the pointer is the object id, the check is that of the code. *)
Definition oid_lookup (oid : Z) (type : otype) : M W Z :=
  let oid := u8 oid in
  cnt <- bget oid_count ;;
  if cnt <=? oid then shutdown "Invalid oid type"
  else
    e <- oid_get oid ;;
    if decide (oid_type e = Some type) then ret oid
    else shutdown "Invalid oid type".

(** [oid_alloc]: the new object starts as [init] (zeroed memory). *)
Definition oid_alloc (oid : Z) (type : otype) (size : Z) (init : Obj) : M W Z :=
  let oid := u8 oid in
  cnt <- bget oid_count ;;
  if cnt <=? oid then shutdown "Can't assign oid"
  else
    e <- oid_get oid ;;
    fin <- is_finalized ;;
    if bool_decide (oid_type e <> None) || fin then shutdown "Can't assign oid"
    else
      oid_set oid (mk_oid (Some type) (oid_data e)) ;;
      alloc_chunk (u16 size) ;;
      oid_set oid (mk_oid (Some type) (Some init)) ;;
      ret oid.

(** The loop of [oid_next]: [oid] is a [uint8_t] below 255 or, at the start of an
    iteration over all objects, 255. *)
Fixpoint next_loop (fuel : nat) (oid : Z) (type : otype) : M W (option Z) :=
  match fuel with
  | O => stuck
  | S fuel =>
      let oid := u8 (oid + 1) in
      cnt <- bget oid_count ;;
      if cnt <=? oid then ret None
      else
        e <- oid_get oid ;;
        if decide (oid_type e = Some type) then
          ret (match oid_data e with Some _ => Some oid | None => None end)
        else next_loop fuel oid type
  end.

Definition oid_next (i : Z) (type : otype) : M W (option Z) := next_loop 257 i type.

(** [foreach_oid(pos, data, type) body]. *)
Fixpoint foreach_loop (fuel : nat) (pos : Z) (type : otype) (body : Z -> M W unit) : M W unit :=
  match fuel with
  | O => stuck
  | S fuel =>
      n <- oid_next pos type ;;
      match n with
      | None => ret tt
      | Some oid => body oid ;; foreach_loop fuel oid type body
      end
  end.

Definition foreach_oid (type : otype) (body : Z -> M W unit) : M W unit :=
  foreach_loop 257 255 type body.

Definition command_allocate_oids (args : list Z) : M W unit :=
  t <- bget oids ;;
  match t with
  | Some _ => shutdown "oids already allocated"
  | None =>
      let count := u8 (nthZ args 0) in
      alloc_chunk (sizeof_oid * count) ;;
      bmod (fun s => s <| oids := Some (repeat (mk_oid None None) (Z.to_nat count)) |>) ;;
      bmod (fun s => s <| oid_count := count |>)
  end.

(** ** Config CRC *)

Definition command_get_config (args : list Z) : M W unit :=
  fin <- is_finalized ;;
  crc <- bget config_crc ;;
  down <- sched_is_shutdown ;;
  cnt <- bget move_count ;;
  sendf "config is_config=%c crc=%u is_shutdown=%c move_count=%hu"
    [VA_int (b2z fin); VA_int crc; VA_int (b2z down); VA_int cnt].

Definition command_finalize_config (args : list Z) : M W unit :=
  move_finalize ;;
  bmod (fun s => s <| config_crc := nthZ args 0 |>).

Definition config_reset (args : list Z) : M W unit :=
  down <- sched_is_shutdown ;;
  if negb down then shutdown "config_reset only available when shutdown"
  else
    bmod (fun s => s <| config_crc := 0 |> <| oid_count := 0 |> <| oids := None |>
                     <| move_free_list := None |> <| move_list := 0 |>
                     <| move_count := 0 |> <| move_item_size := 0 |>) ;;
    alloc_init ;;
    sched_timer_reset ;;
    sched_clear_shutdown.

(** ** Timing and load stats *)

Definition command_get_clock (args : list Z) : M W unit :=
  now <- timer_read_time ;;
  sendf "clock clock=%u" [VA_int now].

Definition command_get_uptime (args : list Z) : M W unit :=
  cur <- timer_read_time ;;
  st <- bget stats_send_time ;;
  sth <- bget stats_send_time_high ;;
  let high := u32 (sth + b2z (cur <? st)) in
  sendf "uptime high=%u clock=%u" [VA_int high; VA_int cur].

Definition SUMSQ_BASE : Z := 256.

(** [nextsumsq] of [stats_update]. *)
Definition next_sumsq (sumsq diff : Z) : Z :=
  let nextsumsq :=
    if diff <=? 65535 then u32 (sumsq + DIV_ROUND_UP (u32 (diff * diff)) SUMSQ_BASE)
    else if diff <=? 1048575 then u32 (sumsq + u32 (DIV_ROUND_UP diff SUMSQ_BASE * diff))
    else 4294967295 in
  if nextsumsq <? sumsq then 4294967295 else nextsumsq.

Definition stats_update (start cur : Z) : M W unit :=
  let diff := u32 (cur - start) in
  bmod (fun s => s <| stats_count := u32 (stats_count s + 1) |>) ;;
  bmod (fun s => s <| stats_sum := u32 (stats_sum s + diff) |>) ;;
  bmod (fun s => s <| stats_sumsq := next_sumsq (stats_sumsq s) diff |>) ;;
  st <- bget stats_send_time ;;
  if timer_is_before cur (u32 (st + timer_from_us 5000000)) then ret tt
  else
    count <- bget stats_count ;;
    sum <- bget stats_sum ;;
    sumsq <- bget stats_sumsq ;;
    sendf "stats count=%u sum=%u sumsq=%u" [VA_int count; VA_int sum; VA_int sumsq] ;;
    st <- bget stats_send_time ;;
    when (cur <? st)
      (bmod (fun s => s <| stats_send_time_high := u32 (stats_send_time_high s + 1) |>)) ;;
    bmod (fun s => s <| stats_send_time := cur |>) ;;
    bmod (fun s => s <| stats_count := 0 |> <| stats_sum := 0 |> <| stats_sumsq := 0 |>).

(** ** Misc commands *)

Definition command_emergency_stop (args : list Z) : M W unit :=
  shutdown "Command request".

Definition command_clear_shutdown (args : list Z) : M W unit := sched_clear_shutdown.

Definition command_identify (args : list Z) : M W unit :=
  let offset := nthZ args 0 in
  let count := u8 (nthZ args 1) in
  let isize := zlen command_identify_data in
  let count := if isize <=? offset then 0
               else if isize <? u32 (offset + count) then u8 (isize - offset)
               else count in
  sendf "identify_response offset=%u data=%.*s"
    [VA_int offset; VA_buffer count (dropZ offset command_identify_data)].
End basecmd.
