(* ===== verification/BasecmdFacts.v ===== *)
(** * Properties of the basic infrastructure

    The pool of move nodes: the free list and the queues of all users are disjoint
    chains of nodes, allocation and release move nodes between them, and a queue is
    first-in first-out.  The allocator, the object table, the load statistics and
    the uptime counter. *)

From S2P Require Import Prelude Command Sched Basecmd.

(** ** Chains of nodes *)

Section chains.
Context {Pay : Type}.

(** Following [next] from [p] visits the nodes [l] and ends with NULL. *)
Fixpoint mchain (h : gmap Z (move_node Pay)) (p : option Z) (l : list Z) : Prop :=
  match l with
  | [] => p = None
  | m :: l' => p = Some m /\ exists v, h !! m = Some v /\ mchain h (mv_next v) l'
  end.

(** A queue head: [last] is only meaningful for a queue that is not empty. *)
Definition mq_rep (h : gmap Z (move_node Pay)) (mh : move_queue_head) (l : list Z) : Prop :=
  mchain h (mq_first mh) l /\ (l <> [] -> mq_last mh = last l).

(** Disjoint chains in one heap. *)
Definition pool_rep (h : gmap Z (move_node Pay)) (chains : list (option Z * list Z)) : Prop :=
  Forall (fun c => mchain h c.1 c.2) chains /\ NoDup (concat (chains.*2)).

Lemma mchain_frame h p l m v : m ∉ l -> mchain h p l -> mchain (<[m := v]> h) p l.
Proof.
  revert p. induction l as [|x l IH]; intros p Hm; [done|].
  intros [-> (u & Hu & Hl)]. split; [done|]. exists u.
  rewrite lookup_insert_ne by set_solver. split; [done|]. apply IH; set_solver.
Qed.

(** A payload does not matter. *)
Lemma mchain_pay h p l m v y :
  h !! m = Some v -> mchain h p l -> mchain (<[m := mk_move (mv_next v) y]> h) p l.
Proof.
  intros Hm. revert p. induction l as [|x l IH]; intros p; [done|].
  intros [-> (u & Hu & Hl)]. split; [done|]. destruct (decide (m = x)) as [->|Hne].
  - rewrite lookup_insert_eq. eexists. split; [done|]. simpl.
    assert (u = v) as -> by congruence. by apply IH.
  - rewrite lookup_insert_ne by done. exists u. auto.
Qed.

Lemma mchain_snoc h p l m v x vx :
  NoDup (l ++ [x; m]) -> mchain h p (l ++ [x]) -> h !! x = Some vx ->
  h !! m = Some v -> mv_next v = None ->
  mchain (<[x := mk_move (Some m) (mv_pay vx)]> h) p (l ++ [x; m]).
Proof.
  intros Hnd Hl Hx Hm Hn. revert p Hl. induction l as [|y l IH]; intros p Hl.
  - destruct Hl as [-> (u & Hu & Hl)]. split; [done|]. eexists.
    rewrite lookup_insert_eq. split; [done|]. split; [done|]. exists v.
    cbn [app] in Hnd. apply NoDup_cons in Hnd as [Hxm _].
    rewrite lookup_insert_ne by set_solver. done.
  - destruct Hl as [-> (u & Hu & Hl)]. simpl in Hnd. apply NoDup_cons in Hnd as [Hy Hnd].
    split; [done|]. exists u. rewrite lookup_insert_ne by set_solver.
    split; [done|]. by apply IH.
Qed.

Lemma mchain_Some h p l m : mchain h p l -> m ∈ l -> is_Some (h !! m).
Proof.
  revert p. induction l as [|x l IH]; intros p; [set_solver|].
  intros [_ (u & Hu & Hl)] [->|Hm]%elem_of_cons; [eauto|]. by eapply IH.
Qed.

Lemma pool_frame h chains m v :
  m ∉ concat (chains.*2) -> Forall (fun c => mchain h c.1 c.2) chains ->
  Forall (fun c => mchain (<[m := v]> h) c.1 c.2) chains.
Proof.
  intros Hm HF. apply Forall_forall. intros c Hc. rewrite Forall_forall in HF.
  apply mchain_frame; [|by apply HF]. intros Hin. apply Hm.
  apply list_elem_of_In, in_concat. exists (c.2). split; [|by apply list_elem_of_In].
  apply list_elem_of_In. by apply list_elem_of_fmap_2.
Qed.
End chains.

Section pool.
Context {Pay Obj W : Type} {cfg : Config} {tgt : Target}.
Context {PB : Part W (base_state Pay Obj)}.

Notation pool w := (moves (part_get (Part := PB) w)).
Notation bst w := (part_get (Part := PB) w).

Lemma bget_Ret {A} (f : base_state Pay Obj -> A) (w : W) : bget f w = Ret (f (bst w)) w.
Proof. done. Qed.

Lemma mget_Ret m v (w : W) : pool w !! m = Some v -> mget m w = Ret v w.
Proof. intros E. unfold mget. rewrite (bind_Ret _ _ _ _ _ (bget_Ret _ _)). by rewrite E. Qed.

Lemma mset_next_Ret m n v (w : W) :
  pool w !! m = Some v ->
  mset_next m n w
  = Ret tt (part_set (bst w <| moves ::= <[m := mk_move n (mv_pay v)]> |>) w).
Proof. intros E. unfold mset_next. by rewrite (bind_Ret _ _ _ _ _ (mget_Ret _ _ _ E)). Qed.

Lemma move_alloc_run m l (w : W) :
  mchain (pool w) (move_free_list (bst w)) (m :: l) ->
  exists v, pool w !! m = Some v /\ mchain (pool w) (mv_next v) l /\
    move_alloc w = Ret m (part_set (bst w <| move_free_list := mv_next v |>) w).
Proof.
  intros [E (v & Hv & Hl)]. exists v. split; [done|]. split; [done|].
  unfold move_alloc. rewrite (bind_Ret _ _ _ _ _ (bget_Ret _ _)), E.
  by rewrite (bind_Ret _ _ _ _ _ (mget_Ret _ _ _ Hv)).
Qed.

Lemma move_free_run m v (w : W) :
  pool w !! m = Some v ->
  move_free m w = Ret tt (part_set (bst w
    <| moves ::= <[m := mk_move (move_free_list (bst w)) (mv_pay v)]> |>
    <| move_free_list := Some m |>) w).
Proof.
  intros Hv. unfold move_free. rewrite (bind_Ret _ _ _ _ _ (bget_Ret _ _)).
  rewrite (bind_Ret _ _ _ _ _ (mset_next_Ret _ _ _ _ Hv)). unfold bmod, modify.
  by rewrite part_get_set, part_set_set.
Qed.

(** [move_queue_push] appends the node to the queue. *)
Lemma move_queue_push_run m mh l v (w : W) :
  pool w !! m = Some v -> mq_rep (pool w) mh l -> NoDup (l ++ [m]) ->
  exists h mh', move_queue_push m mh w
      = Ret (mh', if decide (l = []) then 1 else 0) (part_set (bst w <| moves := h |>) w) /\
    mq_rep h mh' (l ++ [m]) /\
    (forall p k, (forall x, x ∈ k -> x ∉ l ++ [m]) -> mchain (pool w) p k -> mchain h p k) /\
    (forall x u, pool w !! x = Some u -> exists u', h !! x = Some u' /\ mv_pay u' = mv_pay u).
Proof.
  intros Hm [Hl Hlast] Hnd. unfold move_queue_push.
  rewrite (bind_Ret _ _ _ _ _ (mset_next_Ret _ _ _ _ Hm)).
  set (h1 := <[m := mk_move None (mv_pay v)]> (pool w)).
  assert (Hml : m ∉ l). { apply NoDup_app in Hnd as (_ & Hd & _). set_solver. }
  assert (Hl1 : mchain h1 (mq_first mh) l) by (by apply mchain_frame).
  assert (Hpay1 : forall x u, pool w !! x = Some u -> exists u', h1 !! x = Some u' /\ mv_pay u' = mv_pay u).
  { intros x u Hx. unfold h1. destruct (decide (x = m)) as [->|Hne].
    - rewrite lookup_insert_eq. eexists. split; [done|]. simpl. congruence.
    - rewrite lookup_insert_ne by done. eauto. }
  destruct l as [|x l _] using rev_ind.
  - simpl in Hl1. rewrite Hl1. exists h1. eexists. split; [reflexivity|]. split; [|split].
    + split; [|done]. split; [done|]. eexists. unfold h1. by rewrite lookup_insert_eq.
    + intros p k Hk Hc. apply mchain_frame; [|done]. intros Hin. apply (Hk _ Hin). set_solver.
    + done.
  - assert (Hfirst : exists f, mq_first mh = Some f).
    { destruct l; simpl in Hl1; destruct Hl1 as [-> _]; eauto. }
    destruct Hfirst as [f Hf]. rewrite Hf, Hlast, last_snoc by (by destruct l).
    cbn [deref]. rewrite bind_ret_l.
    destruct (mchain_Some _ _ _ x Hl1) as [vx Hvx]; [set_solver|].
    set (w1 := part_set _ w).
    assert (Hvx1 : pool w1 !! x = Some vx) by (unfold w1; by rewrite part_get_set).
    rewrite (bind_Ret _ _ _ _ _ (mset_next_Ret _ (Some m) _ _ Hvx1)). unfold w1.
    rewrite part_get_set, part_set_set. rewrite decide_False by (by destruct l).
    eexists _, _. split; [reflexivity|].
    rewrite <- app_assoc in Hnd |- *. cbn [app] in *.
    split; [|split].
    + split.
      * cbn [mq_first]. rewrite <- Hf.
        apply (mchain_snoc h1 _ l m (mk_move None (mv_pay v)) x vx); try done.
        unfold h1. by rewrite lookup_insert_eq.
      * intros _. cbn [mq_last]. rewrite last_app_cons. done.
    + intros p k Hk Hc. apply mchain_frame; [intros Hin; apply (Hk _ Hin); set_solver|].
      apply mchain_frame; [|done]. intros Hin. apply (Hk _ Hin). set_solver.
    + intros y u Hy. destruct (Hpay1 y u Hy) as (u1 & Hu1 & Ep).
      destruct (decide (y = x)) as [->|Hne].
      * rewrite lookup_insert_eq. eexists. split; [done|]. simpl. congruence.
      * rewrite lookup_insert_ne by done. eauto.
Qed.

Lemma move_queue_pop_run m mh l (w : W) :
  mq_rep (pool w) mh (m :: l) ->
  exists v mh', pool w !! m = Some v /\ move_queue_pop mh w = Ret (mh', m) w /\
    mq_rep (pool w) mh' l.
Proof.
  intros [[E (v & Hv & Hl)] Hlast]. exists v. eexists. split; [done|].
  unfold move_queue_pop. rewrite E. cbn [deref]. rewrite bind_ret_l.
  rewrite (bind_Ret _ _ _ _ _ (mget_Ret _ _ _ Hv)). split; [reflexivity|].
  split; [done|]. intros Hne. cbn [mq_last]. rewrite Hlast, last_cons by done.
  destruct l using rev_ind; [done|]. by rewrite last_snoc.
Qed.

(** ** move_reset *)

Definition node_addr (base size : Z) (i : Z) : Z := base + i * size.

Lemma reset_loop_lookup n i base size (h : gmap Z (move_node Pay)) j :
  0 < size -> 0 <= i -> 0 <= j < i -> 
  reset_loop n i base size h !! node_addr base size j = h !! node_addr base size j.
Proof.
  intros Hs. revert i h. induction n as [|n IH]; intros i h Hi Hj; [done|].
  simpl. rewrite IH by lia. unfold pool_link. apply lookup_insert_ne.
  unfold node_addr. nia.
Qed.

Lemma reset_loop_chain n i base size (h : gmap Z (move_node Pay)) h' :
  0 < size -> 0 <= i ->
  h' = pool_link (node_addr base size (i + Z.of_nat n)) None (reset_loop n i base size h) ->
  mchain h' (Some (node_addr base size i)) (node_addr base size <$> seqZ i (Z.of_nat n + 1)).
Proof.
  intros Hs. revert i h. induction n as [|n IH]; intros i h Hi ->.
  - simpl. rewrite Z.add_0_r. unfold pool_link. split; [done|].
    eexists. rewrite lookup_insert_eq. done.
  - rewrite seqZ_cons by lia. cbn [fmap list_fmap mchain]. split; [done|].
    assert (Hne : node_addr base size (i + Z.of_nat (S n)) <> node_addr base size i).
    { unfold node_addr. nia. }
    eexists. unfold pool_link at 1. rewrite lookup_insert_ne by done.
    cbn [reset_loop]. rewrite reset_loop_lookup by lia. unfold pool_link at 1.
    fold (node_addr base size i). rewrite lookup_insert_eq. split; [done|]. simpl.
    fold (node_addr base size (i + 1)).
    replace (Z.succ i) with (i + 1) by lia.
    replace (Z.pred (Z.of_nat (S n) + 1)) with (Z.of_nat n + 1) by lia.
    eapply IH; [lia|]. f_equal. f_equal. lia.
Qed.

Lemma node_addr_nodup base size i n :
  0 < size -> NoDup (node_addr base size <$> seqZ i n).
Proof.
  intros Hs. apply NoDup_fmap_2_strong; [|apply NoDup_seqZ].
  intros x y _ _. unfold node_addr. nia.
Qed.

(** Allocation and [move_queue_push]. *)
Lemma pool_push mh q others m fl (w : W) :
  pool_rep (pool w) ((move_free_list (bst w), m :: fl) :: (mq_first mh, q) :: others) ->
  (q <> [] -> mq_last mh = last q) ->
  exists mh' r w', (m <- move_alloc ;; move_queue_push m mh) w = Ret (mh', r) w' /\
    pool_rep (pool w')
      ((move_free_list (bst w'), fl) :: (mq_first mh', q ++ [m]) :: others) /\
    mq_last mh' = Some m.
Proof.
  intros [HF Hnd] Hlast. apply Forall_cons in HF as [Hfree HF].
  apply Forall_cons in HF as [Hq HF]. cbn [fst snd] in *.
  destruct (move_alloc_run _ _ _ Hfree) as (v & Hv & Hfl & Hal).
  rewrite (bind_Ret _ _ _ _ _ Hal). cbn [fmap list_fmap concat snd] in Hnd.
  set (w1 := part_set _ w).
  assert (Ep : pool w1 = pool w) by (unfold w1; by rewrite part_get_set).
  rewrite app_assoc in Hnd. apply NoDup_app in Hnd as (Hnd1 & Hd1 & Hnd2).
  cbn [app] in Hnd1. apply NoDup_cons in Hnd1 as [Hm Hnd1].
  apply NoDup_app in Hnd1 as (Hndf & Hdf & Hndq).
  assert (Hndq' : NoDup (q ++ [m])).
  { apply NoDup_app. split; [done|]. split; [set_solver|apply NoDup_singleton]. }
  rewrite <- Ep in Hv, Hq.
  destruct (move_queue_push_run m mh q v w1 Hv (conj Hq Hlast) Hndq')
    as (h & mh' & Hpush & [Hq' Hl'] & Hfr & _).
  rewrite Ep in Hfr. eexists mh', _, _. split; [exact Hpush|].
  rewrite part_get_set. unfold w1. rewrite part_get_set. cbn [moves move_free_list upd].
  split; [|rewrite Hl' by (by destruct q); by rewrite last_snoc].
  split.
  - apply Forall_cons. split; [|apply Forall_cons; split; [done|]].
    + apply Hfr; [|done]. intros x Hx. cbn [fst snd] in *. set_solver.
    + apply Forall_forall. intros c Hc. rewrite Forall_forall in HF.
      apply Hfr; [|by apply HF]. intros x Hx Hin.
      apply (Hd1 x); [set_solver|]. apply list_elem_of_In, in_concat.
      exists (c.2). split; [|by apply list_elem_of_In].
      apply list_elem_of_In. by apply list_elem_of_fmap_2.
  - cbn [fmap list_fmap concat snd]. rewrite app_assoc. apply NoDup_app.
    split; [|split; [|done]].
    + rewrite app_assoc. apply NoDup_app. split; [by apply NoDup_app|].
      split; [set_solver|apply NoDup_singleton].
    + intros x Hx. apply Hd1. set_solver.
Qed.

(** [move_queue_pop] and [move_free]. *)
Lemma pool_pop mh q' others m fl (w : W) :
  mq_last mh = last (m :: q') ->
  pool_rep (pool w) ((move_free_list (bst w), fl) :: (mq_first mh, m :: q') :: others) ->
  exists mh' w', ('(mh', m) <- move_queue_pop mh ;; move_free m ;; ret (mh', m)) w
      = Ret (mh', m) w' /\
    pool_rep (pool w')
      ((move_free_list (bst w'), m :: fl) :: (mq_first mh', q') :: others) /\
    (q' <> [] -> mq_last mh' = last q').
Proof.
  intros Hlast [HF Hnd]. apply Forall_cons in HF as [Hfree HF].
  apply Forall_cons in HF as [Hq HF]. cbn [fst snd] in *.
  destruct (move_queue_pop_run m mh q' w (conj Hq (fun _ => Hlast))) as (v & mh' & Hv & Hpop & Hq' & Hl').
  rewrite (bind_Ret _ _ _ _ _ Hpop), (bind_Ret _ _ _ _ _ (move_free_run _ _ _ Hv)).
  eexists mh', _. split; [reflexivity|]. rewrite part_get_set. cbn [moves move_free_list upd].
  cbn [fmap list_fmap concat snd] in Hnd. split; [|done].
  assert (Hp : NoDup (m :: fl ++ q' ++ concat (others.*2))).
  { cbn [app] in Hnd. by rewrite <- Permutation_middle in Hnd. }
  pose proof Hp as Hp'. apply NoDup_cons in Hp' as [Hm _].
  split; [|exact Hp]. apply Forall_cons. split; [|apply Forall_cons; split].
  - split; [done|]. eexists. rewrite lookup_insert_eq. split; [done|]. cbn [mv_next].
    apply mchain_frame; [set_solver|done].
  - apply mchain_frame; [set_solver|done].
  - apply pool_frame; [set_solver|done].
Qed.

(** ** Properties *)

(** C37: The pool of move nodes.  As long as the free list and all queues are
    disjoint chains: allocating a node and pushing it on a queue takes the first
    free node and appends it at the end of the queue, and popping a queue and
    freeing the node takes the oldest node and puts it back on the free list.  In
    both cases every other chain is unchanged and all chains stay disjoint.  With
    an empty free list the allocation is a shutdown. *)
Theorem move_pool_fifo mh q others (w : W) :
  (forall m fl,
    pool_rep (pool w) ((move_free_list (bst w), m :: fl) :: (mq_first mh, q) :: others) ->
    (q <> [] -> mq_last mh = last q) ->
    exists mh' r w', (m <- move_alloc ;; move_queue_push m mh) w = Ret (mh', r) w' /\
      pool_rep (pool w')
        ((move_free_list (bst w'), fl) :: (mq_first mh', q ++ [m]) :: others) /\
      mq_last mh' = Some m) /\
  (forall m q' fl,
    q = m :: q' -> (q <> [] -> mq_last mh = last q) ->
    pool_rep (pool w) ((move_free_list (bst w), fl) :: (mq_first mh, q) :: others) ->
    exists mh' w', ('(mh', m) <- move_queue_pop mh ;; move_free m ;; ret (mh', m)) w
        = Ret (mh', m) w' /\
      pool_rep (pool w')
        ((move_free_list (bst w'), m :: fl) :: (mq_first mh', q') :: others) /\
      (q' <> [] -> mq_last mh' = last q')) /\
  (move_free_list (bst w) = None -> move_alloc w = Shut "Move queue overflow" w).
Proof.
  split; [|split].
  - intros m fl. apply pool_push.
  - intros m q' fl -> Hlast. apply pool_pop. by apply Hlast.
  - intros E. unfold move_alloc. rewrite (bind_Ret _ _ _ _ _ (bget_Ret _ _)). by rewrite E.
Qed.

(** [move_reset] (run at the end of the configuration and on every shutdown)
    rebuilds the pool from any state of the links: afterwards the free list holds
    each of the [move_count] nodes exactly once, in address order. *)
Theorem move_reset_rebuilds (w : W) :
  0 < move_count (bst w) -> 0 < move_item_size (bst w) ->
  exists w', move_reset w = Ret tt w' /\
    let nodes := node_addr (move_list (bst w)) (move_item_size (bst w))
                   <$> seqZ 0 (move_count (bst w)) in
    mchain (pool w') (move_free_list (bst w')) nodes /\ NoDup nodes /\
    zlen nodes = move_count (bst w) /\
    move_count (bst w') = move_count (bst w).
Proof.
  intros Hc Hs. unfold move_reset. rewrite (bind_Ret _ _ _ _ _ (bget_Ret _ _)).
  destruct (Z.eqb_spec (move_count (bst w)) 0); [lia|].
  rewrite !(bind_Ret _ _ _ _ _ (bget_Ret _ _)). unfold bmod, modify, bind.
  eexists. split; [reflexivity|]. rewrite !part_get_set. cbn [moves move_free_list move_count upd].
  set (c := move_count (bst w)) in *. set (base := move_list (bst w)).
  set (size := move_item_size (bst w)) in *. split; [|split; [|split; [|done]]].
  - pose proof (reset_loop_chain (Z.to_nat (c - 1)) 0 base size (pool w) _ Hs (Z.le_refl 0) eq_refl) as Hch.
    replace (Z.of_nat (Z.to_nat (c - 1)) + 1) with c in Hch by lia.
    replace (0 + Z.of_nat (Z.to_nat (c - 1))) with (c - 1) in Hch by lia.
    unfold node_addr in Hch at 2. replace (base + 0 * size) with base in Hch by lia. exact Hch.
  - by apply node_addr_nodup.
  - unfold zlen. rewrite length_fmap, length_seqZ. lia.
Qed.
End pool.

(** ** Load statistics *)

(** The sum of squares of [stats_update] never wraps: for every accumulated
    value and every measured time the new value is either the exact sum (the
    square, in units of 256 ticks squared and rounded up in one factor) or the
    saturation value 2^32-1, and it is never below the old value. *)
Theorem stats_sumsq_saturates sumsq diff :
  0 <= sumsq < 4294967296 -> 0 <= diff < 4294967296 ->
  (next_sumsq sumsq diff = 4294967295 \/
   next_sumsq sumsq diff
   = sumsq + (if diff <=? 65535 then (diff * diff + 255) / 256
              else (diff + 255) / 256 * diff)) /\
  sumsq <= next_sumsq sumsq diff < 4294967296 /\
  diff * diff <= 256 * (if diff <=? 65535 then (diff * diff + 255) / 256
                        else (diff + 255) / 256 * diff).
Proof.
  intros Hs Hd. unfold next_sumsq, DIV_ROUND_UP, SUMSQ_BASE.
  destruct (Z.leb_spec diff 65535) as [H1|H1].
  - assert (Hsq : 0 <= diff * diff <= 4294836225) by nia.
    set (d2 := diff * diff) in *. clearbody d2.
    rewrite (u32_small d2) by lia. rewrite (u32_small (d2 + 256 - 1)) by lia.
    replace (d2 + 256 - 1) with (d2 + 255) by lia.
    assert (Hk : 0 <= (d2 + 255) / 256 < 16777216 /\ d2 <= 256 * ((d2 + 255) / 256)).
    { Z.div_mod_to_equations; lia. }
    set (k := (d2 + 255) / 256) in *. clearbody k.
    destruct (Z.ltb_spec (u32 (sumsq + k)) sumsq); repeat split; try lia; wrap_lia.
  - destruct (Z.leb_spec diff 1048575) as [H2|H2].
    + rewrite (u32_small (diff + 256 - 1)) by lia.
      replace (diff + 256 - 1) with (diff + 255) by lia.
      assert (Hk : 0 <= (diff + 255) / 256 <= 4096 /\ diff <= 256 * ((diff + 255) / 256)).
      { Z.div_mod_to_equations; lia. }
      rewrite (u32_small ((diff + 255) / 256 * diff)) by nia.
      set (k := (diff + 255) / 256 * diff) in *.
      assert (0 <= k < 4294967296 /\ diff * diff <= 256 * k) by (unfold k; nia).
      clearbody k. destruct (Z.ltb_spec (u32 (sumsq + k)) sumsq); repeat split; try lia; wrap_lia.
    + destruct (Z.ltb_spec 4294967295 sumsq); repeat split; try lia;
      (assert (diff <= 256 * ((diff + 255) / 256)) by (Z.div_mod_to_equations; lia); nia).
Qed.

Lemma stats_sumsq_saturates_witness :
  0 <= next_sumsq 0 65535 < 4294967296 /\ next_sumsq 4294967000 70000 = 4294967295.
Proof.
  split; [|reflexivity].
  apply (stats_sumsq_saturates 0 65535); lia.
Defined.

(** ** The allocator *)

Lemma ALIGN_spec x k :
  0 <= k -> let a := 2 ^ k in ALIGN x a = (x + a - 1) / a * a /\ x <= ALIGN x a < x + a.
Proof.
  intros Hk a. assert (Ha : 0 < a) by (apply Z.pow_pos_nonneg; lia).
  assert (E : ALIGN x a = (x + a - 1) / a * a).
  { unfold ALIGN, a. replace (2 ^ k - 1) with (Z.ones k) by (rewrite Z.ones_equiv; lia).
    rewrite Z.ldiff_ones_r, Z.shiftl_mul_pow2, Z.shiftr_div_pow2 by lia. done. }
  split; [done|]. rewrite E. pose proof (Z.div_mod (x + a - 1) a ltac:(lia)).
  pose proof (Z.mod_pos_bound (x + a - 1) a Ha). nia.
Qed.

Section tables.
Context {Pay Obj W : Type} {cfg : Config} {tgt : Target}.
Context {PB : Part W (base_state Pay Obj)} {PC : Part W cmd_state}.
Context {BD : Board W} {CN : Console W}.
Notation bst w := (part_get (Part := PB) w).

Lemma alloc_chunk_run size (w : W) :
  alloc_chunk size w =
    if dynmem_end <? alloc_end (bst w) + size then Shut "alloc_chunk failed" w
    else Ret (alloc_end (bst w))
      (part_set (bst w <| alloc_end := alloc_end (bst w) + ALIGN size alignof_ptr |>) w).
Proof.
  unfold alloc_chunk. rewrite (bind_Ret _ _ _ _ _ (bget_Ret _ _)).
  by destruct (dynmem_end <? _).
Qed.

Lemma chunks_loop_spec count size can p :
  0 < size ->
  exists n, 0 <= n <= Z.of_nat count /\
    chunks_loop count size can p = (can + n, p + n * size) /\
    (n = 0 \/ p + n * size <= dynmem_end) /\
    (n = Z.of_nat count \/ dynmem_end < p + (n + 1) * size).
Proof.
  intros Hs. revert can p. induction count as [|count IH]; intros can p.
  - exists 0. simpl. repeat split; try lia. f_equal; lia.
  - cbn [chunks_loop]. destruct (Z.leb_spec (p + size) dynmem_end) as [Hle|Hgt].
    + destruct (IH (can + 1) (p + size)) as (n & Hn & -> & Hfit & Hmax).
      exists (n + 1). repeat split; try lia. f_equal; lia.
    + exists 0. repeat split; try lia. f_equal; lia.
Qed.

(** The allocator hands out disjoint memory.  [alloc_chunk] returns a region
    that starts at the end of all earlier ones, lies within the dynamic memory and
    is followed by the (aligned) start of the next; [alloc_chunks] returns as many
    items as fit, up to the requested count, and shuts down only when not even
    one fits. *)
Theorem alloc_within_memory k size count (w : W) :
  0 <= k -> alignof_ptr = 2 ^ k -> 0 < size -> 0 < Z.of_nat count < 65536 ->
  (alloc_end (bst w) + size <= dynmem_end ->
   exists w', alloc_chunk size w = Ret (alloc_end (bst w)) w' /\
     alloc_end (bst w) + size <= alloc_end (bst w') < alloc_end (bst w) + size + alignof_ptr /\
     (alloc_end (bst w) mod alignof_ptr = 0 -> alloc_end (bst w') mod alignof_ptr = 0)) /\
  (alloc_end (bst w) + size <= dynmem_end ->
   exists n w', alloc_chunks size count w = Ret (alloc_end (bst w), n) w' /\
     1 <= n <= Z.of_nat count /\ alloc_end (bst w) + n * size <= dynmem_end /\
     alloc_end (bst w) + n * size <= alloc_end (bst w') /\
     (n = Z.of_nat count \/ dynmem_end < alloc_end (bst w) + (n + 1) * size)) /\
  (dynmem_end < alloc_end (bst w) + size ->
   alloc_chunk size w = Shut "alloc_chunk failed" w /\
   alloc_chunks size count w = Shut "alloc_chunks failed" w).
Proof.
  intros Hk Ha Hs Hc.
  assert (Hap : 0 < alignof_ptr) by (rewrite Ha; apply Z.pow_pos_nonneg; lia).
  assert (Hchunks : forall n, 0 < n -> alloc_end (bst w) + n * size <= dynmem_end ->
    exists w', alloc_chunk (n * size) w = Ret (alloc_end (bst w)) w' /\
      alloc_end (bst w') = alloc_end (bst w) + ALIGN (n * size) alignof_ptr).
  { intros n Hn Hfit. rewrite alloc_chunk_run.
    destruct (Z.ltb_spec dynmem_end (alloc_end (bst w) + n * size)); [lia|].
    eexists. split; [reflexivity|]. by rewrite part_get_set. }
  destruct (chunks_loop_spec count size 0 (alloc_end (bst w)) Hs) as (n & Hn & Hl & Hfit & Hmax).
  split; [|split].
  - intros Hle. destruct (Hchunks 1) as (w' & Hw & E); [lia|lia|]. rewrite Z.mul_1_l in Hw, E.
    exists w'. split; [done|]. destruct (ALIGN_spec size k Hk) as [Ea Hb]. rewrite <- Ha in Ea, Hb.
    split; [lia|]. intros Hm. rewrite E, Ea, Z.mod_add by lia. done.
  - intros Hle. assert (Hn1 : 1 <= n).
    { destruct (Z_lt_le_dec n 1); [|done]. assert (n = 0) as -> by lia.
      destruct Hmax as [Hmax|Hmax]; lia. }
    destruct (Hchunks n) as (w' & Hw & E); [lia|lia|].
    exists n, w'. unfold alloc_chunks. rewrite (bind_Ret _ _ _ _ _ (bget_Ret _ _)), Hl.
    destruct (Z.eqb_spec (0 + n) 0); [lia|].
    replace (alloc_end (bst w) + n * size - alloc_end (bst w)) with (n * size) by lia.
    rewrite (bind_Ret _ _ _ _ _ Hw). unfold ret. rewrite Z.add_0_l, u16_small by lia.
    split; [done|]. destruct (ALIGN_spec (n * size) k Hk) as [_ Hb]. rewrite <- Ha in Hb.
    repeat split; lia.
  - intros Hgt. split.
    + rewrite alloc_chunk_run. destruct (Z.ltb_spec dynmem_end (alloc_end (bst w) + size)); [done|lia].
    + unfold alloc_chunks. rewrite (bind_Ret _ _ _ _ _ (bget_Ret _ _)), Hl.
      destruct (Z.eqb_spec (0 + n) 0) as [|Hne]; [done|]. destruct Hfit; nia.
Qed.

(** ** Object ids *)

Lemma oid_lookup_run oid ty t (w : W) :
  oids (bst w) = Some t -> zlen t = oid_count (bst w) ->
  oid_lookup oid ty w =
    match t !! Z.to_nat (u8 oid) with
    | Some e => if decide (oid_type e = Some ty) then Ret (u8 oid) w
                else Shut "Invalid oid type" w
    | None => Shut "Invalid oid type" w
    end.
Proof.
  intros Ht Hl. unfold oid_lookup. rewrite (bind_Ret _ _ _ _ _ (bget_Ret _ _)).
  pose proof (u8_range oid) as Hr.
  destruct (Z.leb_spec (oid_count (bst w)) (u8 oid)) as [Hle|Hlt].
  - rewrite lookup_ge_None_2; [done|]. unfold zlen in Hl. lia.
  - destruct (lookup_lt_is_Some_2 t (Z.to_nat (u8 oid))) as [e He]; [unfold zlen in Hl; lia|].
    unfold oid_get. unfold bind at 1. unfold bind at 1. rewrite bget_Ret, Ht. cbn [deref].
    rewrite bind_ret_l, He. cbn [deref]. unfold ret. by destruct decide.
Qed.

(** A successful [oid_alloc] stores the type in a free entry. *)
Lemma oid_alloc_inv oid type size init t o (w w' : W) :
  oids (bst w) = Some t -> zlen t = oid_count (bst w) ->
  oid_alloc oid type size init w = Ret o w' ->
  0 <= u8 oid < oid_count (bst w) /\
  oids (bst w') = Some (<[Z.to_nat (u8 oid) := mk_oid (Some type) (Some init)]> t) /\
  oid_count (bst w') = oid_count (bst w).
Proof.
  intros Ht Hl Hrun. unfold oid_alloc in Hrun.
  rewrite (bind_Ret _ _ _ _ _ (bget_Ret _ _)) in Hrun.
  destruct (Z.leb_spec (oid_count (bst w)) (u8 oid)) as [|Hlt]; [done|].
  pose proof (u8_range oid) as Hr.
  destruct (lookup_lt_is_Some_2 t (Z.to_nat (u8 oid))) as [e He]; [unfold zlen in Hl; lia|].
  assert (Hget : oid_get (u8 oid) w = Ret e w).
  { unfold oid_get. rewrite (bind_Ret _ _ _ _ _ (bget_Ret _ _)), Ht. cbn [deref].
    by rewrite bind_ret_l, He. }
  rewrite (bind_Ret _ _ _ _ _ Hget) in Hrun.
  apply bind_Ret_inv in Hrun as (fin & w1 & Hfin & Hrun).
  unfold is_finalized in Hfin. rewrite (bind_Ret _ _ _ _ _ (bget_Ret _ _)) in Hfin.
  injection Hfin as <- <-.
  destruct (bool_decide (oid_type e ≠ None) || negb (move_count (bst w) =? 0)) eqn:Eb; [done|].
  unfold oid_set, bmod, modify in Hrun. unfold bind at 1 in Hrun.
  apply bind_Ret_inv in Hrun as (a & w2 & Hal & Hrun). rewrite alloc_chunk_run in Hal.
  destruct (dynmem_end <? _); [done|]. injection Hal as <- <-.
  unfold bind, ret in Hrun. injection Hrun as <- <-.
  split; [lia|]. rewrite !part_get_set. cbn [oids oid_count alloc_end upd].
  rewrite ?part_get_set. cbn [oids oid_count alloc_end upd].
  rewrite Ht. cbn [fmap option_fmap option_map]. by rewrite list_insert_insert_eq.
Qed.

(** C38: The object table is typed.  After [oid_alloc] has assigned an id, a lookup
    of that id succeeds exactly with the type it was assigned with, lookups of
    other ids are unaffected, and the id cannot be assigned again. *)
Theorem oid_table_typed oid type size init t o (w w' : W) :
  oids (bst w) = Some t -> zlen t = oid_count (bst w) ->
  oid_alloc oid type size init w = Ret o w' ->
  (forall ty, oid_lookup oid ty w'
     = if decide (ty = type) then Ret (u8 oid) w' else Shut "Invalid oid type" w') /\
  (forall oid' ty, u8 oid' <> u8 oid ->
     (oid_lookup oid' ty w = Ret (u8 oid') w /\ oid_lookup oid' ty w' = Ret (u8 oid') w') \/
     (oid_lookup oid' ty w = Shut "Invalid oid type" w /\
      oid_lookup oid' ty w' = Shut "Invalid oid type" w')) /\
  (forall ty size' init', oid_alloc oid ty size' init' w' = Shut "Can't assign oid" w').
Proof.
  intros Ht Hl Hrun. destruct (oid_alloc_inv _ _ _ _ _ _ _ _ Ht Hl Hrun) as (Hlt & Ht' & Hc').
  set (t' := <[Z.to_nat (u8 oid) := mk_oid (Some type) (Some init)]> t) in *.
  assert (Hl' : zlen t' = oid_count (bst w')).
  { rewrite Hc', <- Hl. unfold zlen, t'. by rewrite length_insert. }
  assert (He' : t' !! Z.to_nat (u8 oid) = Some (mk_oid (Some type) (Some init))).
  { unfold t'. rewrite list_lookup_insert_eq; [done|]. unfold zlen in Hl. lia. }
  split; [|split].
  - intros ty. rewrite (oid_lookup_run _ _ t') by done. rewrite He'. cbn [oid_type].
    destruct (decide (Some type = Some ty)), (decide (ty = type)); congruence.
  - intros oid' ty Hne. rewrite (oid_lookup_run _ _ t' w'), (oid_lookup_run _ _ t w) by done.
    unfold t'. rewrite list_lookup_insert_ne.
    + destruct (t !! Z.to_nat (u8 oid')) as [e2|]; [|by right].
      destruct decide; [by left|by right].
    + pose proof (u8_range oid'). lia.
  - intros ty size' init'. unfold oid_alloc. rewrite (bind_Ret _ _ _ _ _ (bget_Ret _ _)), Hc'.
    destruct (Z.leb_spec (oid_count (bst w)) (u8 oid)); [lia|].
    assert (Hget' : oid_get (u8 oid) w' = Ret (mk_oid (Some type) (Some init)) w').
    { unfold oid_get. rewrite (bind_Ret _ _ _ _ _ (bget_Ret _ _)), Ht'. cbn [deref].
      by rewrite bind_ret_l, He'. }
    rewrite (bind_Ret _ _ _ _ _ Hget'). unfold is_finalized, bind, bget, gets, ret.
    rewrite bool_decide_true by done. done.
Qed.

(** ** Iteration over the objects of a type *)

(** The types of the table's entries; every assigned entry has its object. *)
Definition table_ok (w : W) (tys : list (option otype)) : Prop :=
  exists t, oids (bst w) = Some t /\ oid_type <$> t = tys /\
    Forall (fun e => is_Some (oid_type e) -> is_Some (oid_data e)) t /\
    oid_count (bst w) = zlen tys /\ zlen tys < 256.

Lemma next_loop_run n j fuel pos ty tys (w : W) :
  table_ok w tys -> u8 (pos + 1) = Z.of_nat j -> (length tys - j < fuel)%nat -> n = (length tys - j)%nat ->
  (exists k, (j <= k)%nat /\ tys !! k = Some (Some ty) /\
     (forall i, (j <= i < k)%nat -> tys !! i <> Some (Some ty)) /\
     next_loop fuel pos ty w = Ret (Some (Z.of_nat k)) w) \/
  ((forall i, (j <= i)%nat -> tys !! i <> Some (Some ty)) /\ next_loop fuel pos ty w = Ret None w).
Proof.
  revert j fuel pos. induction n as [|n IH]; intros j fuel pos Hok Hj Hf Hn;
    (destruct fuel as [|fuel]; [lia|]);
    destruct Hok as (t & Ht & Hty & Hd & Hc & Hl) eqn:Eok; clear Eok;
    cbn [next_loop]; rewrite Hj, (bind_Ret _ _ _ _ _ (bget_Ret _ _)), Hc; unfold zlen in *.
  - right. destruct (Z.leb_spec (Z.of_nat (length tys)) (Z.of_nat j)); [|lia]. split; [|done].
    intros i Hi. by rewrite lookup_ge_None_2 by lia.
  - destruct (Z.leb_spec (Z.of_nat (length tys)) (Z.of_nat j)); [lia|].
    destruct (lookup_lt_is_Some_2 t j) as [e He].
    { rewrite <- Hty in Hn. rewrite length_fmap in Hn. lia. }
    assert (Hget : oid_get (Z.of_nat j) w = Ret e w).
    { unfold oid_get. rewrite (bind_Ret _ _ _ _ _ (bget_Ret _ _)), Ht. cbn [deref].
      by rewrite bind_ret_l, Nat2Z.id, He. }
    rewrite (bind_Ret _ _ _ _ _ Hget).
    assert (Htyj : tys !! j = Some (oid_type e)) by (by rewrite <- Hty, list_lookup_fmap, He).
    destruct decide as [E|Hne].
    + left. exists j. rewrite Htyj, E. split; [lia|]. split; [done|]. split; [lia|].
      rewrite Forall_lookup in Hd. destruct (Hd _ _ He ltac:(by rewrite E)) as [o ->]. done.
    + destruct (IH (S j) fuel (Z.of_nat j)) as [(k & Hk & Hkt & Hmin & Hrun)|[Hno Hrun]]; try lia.
      * exists t. done.
      * rewrite u8_small by lia. lia.
      * left. exists k. split; [lia|]. split; [done|]. split; [|done].
        intros i Hi. destruct (decide (i = j)) as [->|]; [rewrite Htyj; congruence|]. apply Hmin. lia.
      * right. split; [|done]. intros i Hi.
        destruct (decide (i = j)) as [->|]; [rewrite Htyj; congruence|]. apply Hno. lia.
Qed.

(** A loop over the objects of a type visits them in order: a rule for invariants
    [I i] that hold when the ids below [i] have been visited. *)
Lemma foreach_oid_rule ty body (I : nat -> W -> Prop) tys (w : W) :
  table_ok w tys -> I 0%nat w ->
  (forall i v, I i v -> table_ok v tys -> tys !! i = Some (Some ty) ->
     exists v', body (Z.of_nat i) v = Ret tt v' /\ I (S i) v' /\ table_ok v' tys) ->
  (forall i v, I i v -> tys !! i <> Some (Some ty) -> I (S i) v) ->
  exists w', foreach_oid ty body w = Ret tt w' /\ I (length tys) w' /\ table_ok w' tys.
Proof.
  intros Hok HI Hbody Hskip. unfold foreach_oid.
  assert (Hgo : forall n j k v, (j <= k)%nat -> I j v -> n = (k - j)%nat ->
    (forall i, (j <= i < k)%nat -> tys !! i <> Some (Some ty)) -> I k v).
  { induction n as [|n IH]; intros j k v Hjk Hj Hn Hno; [by replace k with j by lia|].
    apply (IH (S j)); [lia| |lia|]; [apply Hskip; [done|apply Hno; lia]|].
    intros i Hi. apply Hno. lia. }
  assert (Hloop : forall fuel j pos v, u8 (pos + 1) = Z.of_nat j -> (j <= length tys)%nat ->
    (length tys - j < fuel)%nat -> I j v -> table_ok v tys ->
    exists w', foreach_loop fuel pos ty body v = Ret tt w' /\ I (length tys) w' /\ table_ok w' tys).
  { induction fuel as [|fuel IH]; intros j pos v Hp Hj Hf HIv Hokv; [lia|].
    assert (Hlen : (length tys < 256)%nat) by (destruct Hokv as (?&?&?&?&?&?); unfold zlen in *; lia).
    cbn [foreach_loop]. unfold oid_next.
    destruct (next_loop_run _ j 257 pos ty tys v Hokv Hp ltac:(lia) eq_refl)
      as [(k & Hk & Hkt & Hmin & Hrun)|[Hno Hrun]]; rewrite (bind_Ret _ _ _ _ _ Hrun).
    - destruct (Hbody k v) as (v' & Hb & HI' & Hok'); [by eapply Hgo|done..|].
      rewrite (bind_Ret _ _ _ _ _ Hb). assert (k < length tys)%nat by (by eapply lookup_lt_Some).
      apply (IH (S k)); try done; try lia. rewrite u8_small by lia. lia.
    - exists v. split; [done|]. split; [|done]. eapply Hgo; [done..|]. intros i Hi. apply Hno. lia. }
  apply (Hloop 257%nat 0%nat); try done; try lia.
  destruct Hok as (?&?&?&?&?&?); unfold zlen in *; lia.
Qed.

(** ** Uptime *)

(** The statistics were last sent at the true (unbounded) time [T0]. *)
Definition uptime_inv (s : base_state Pay Obj) (T0 : Z) : Prop :=
  stats_send_time s = u32 T0 /\ stats_send_time_high s = u32 (T0 / 4294967296).

(** Sending a message does not touch the state of basecmd.c. *)
Definition console_frame : Prop := forall fmt args (w : W),
  exists w', sendf fmt args w = Ret tt w' /\ bst w' = bst w.

(** The uptime counter.  With [T0] the true time of the last statistics
    message and [T] the current true time, less than one wrap of the 32-bit clock
    later: [get_uptime] reports the upper and lower 32 bits of [T], and
    [stats_update] keeps the counter consistent, with [T] or still [T0] as the
    time of the last message. *)
Theorem uptime_extends_clock T0 T start (w w1 : W) :
  console_frame -> uptime_inv (bst w) T0 -> 0 <= T0 <= T -> T - T0 < 4294967296 ->
  timer_read_time w = Ret (u32 T) w1 -> bst w1 = bst w ->
  command_get_uptime [] w
  = sendf "uptime high=%u clock=%u" [VA_int (u32 (T / 4294967296)); VA_int (u32 T)] w1 /\
  exists w2 T1, stats_update start (u32 T) w = Ret tt w2 /\ uptime_inv (bst w2) T1 /\
    (T1 = T \/ T1 = T0 /\ timer_is_before (u32 T) (u32 (u32 T0 + timer_from_us 5000000)) = true).
Proof.
  intros Hcon [Hst Hsth] HT Hd Hrd Hb.
  assert (Hhigh : u32 (u32 (T0 / 4294967296) + b2z (u32 T <? u32 T0)) = u32 (T / 4294967296)).
  { destruct (Z.ltb_spec (u32 T) (u32 T0)); wrap_lia. }
  split.
  - unfold command_get_uptime. rewrite (bind_Ret _ _ _ _ _ Hrd), !(bind_Ret _ _ _ _ _ (bget_Ret _ _)).
    rewrite Hb, Hst, Hsth, Hhigh. done.
  - unfold stats_update, bmod, modify. unfold bind at 1. unfold bind at 1. unfold bind at 1.
    set (w3 := part_set _ (part_set _ (part_set _ w))).
    assert (E3 : stats_send_time (bst w3) = u32 T0 /\
                 stats_send_time_high (bst w3) = u32 (T0 / 4294967296)).
    { unfold w3. rewrite !part_get_set. done. }
    destruct E3 as [E3 E3h]. rewrite (bind_Ret _ _ _ _ _ (bget_Ret _ _)), E3.
    destruct (timer_is_before _ _) eqn:Eb.
    + exists w3, T0. split; [done|]. split; [done|]. by right.
    + rewrite !(bind_Ret _ _ _ _ _ (bget_Ret _ _)).
      match goal with |- context [sendf ?f ?a] => destruct (Hcon f a w3) as (w4 & Hs4 & E4) end.
      rewrite (bind_Ret _ _ _ _ _ Hs4), (bind_Ret _ _ _ _ _ (bget_Ret _ _)), E4, E3.
      unfold when. destruct (u32 T <? u32 T0); unfold bind, ret; eexists _, T;
        (split; [reflexivity|]); rewrite !part_get_set; (split; [|by left]);
        (split; [done|]); cbn [stats_send_time_high upd]; rewrite E4, E3h; cbn [b2z] in Hhigh;
        rewrite <- Hhigh; wrap_lia.
Qed.
End tables.

(** ** Witnesses *)

Definition demo_target : Target := {|
  dynmem_start := 4096; dynmem_end := 8192; alignof_ptr := 4;
  sizeof_obj _ := 40; sizeof_gpio_in := 1; sizeof_oid := 8; sizeof_move_node := 4;
  command_identify_data := [];
  ctr_lookup_encoder _ := encode_acknak |}.

(** Three nodes of 8 bytes: two free ones and one on a queue; one object id. *)
Definition demo_base : base_state Z unit := {|
  alloc_end := 4096;
  moves := {[ 100 := mk_move (Some 108) None; 108 := mk_move None None;
              116 := mk_move None (Some 5) ]};
  move_free_list := Some 100; move_list := 100; move_count := 3; move_item_size := 8;
  oids := Some [mk_oid None None; mk_oid (Some OT_trsync) (Some tt)]; oid_count := 2;
  config_crc := 0; stats_send_time := 4294967290; stats_send_time_high := 3;
  stats_count := 0; stats_sum := 0; stats_sumsq := 0 |}.

#[local] Existing Instance demo_target.

Lemma demo_nodup3 (a b c : Z) : a <> b -> a <> c -> b <> c -> NoDup [a; b; c].
Proof.
  intros. apply NoDup_cons. split; [set_solver|]. apply NoDup_cons.
  split; [set_solver|apply NoDup_singleton].
Qed.

Lemma move_pool_fifo_witness :
  exists mh' r w', (m <- move_alloc (W := base_state Z unit) (PB := Part_refl _) ;;
      move_queue_push m (mk_mqh (Some 116) (Some 116))) demo_base = Ret (mh', r) w' /\
    mq_last mh' = Some 100.
Proof.
  destruct (move_pool_fifo (PB := Part_refl (base_state Z unit))
    (mk_mqh (Some 116) (Some 116)) [116] [] demo_base) as [H _].
  destruct (H 100 [108]) as (mh' & r & w' & H1 & _ & H2).
  - split.
    + constructor; [|constructor; [|constructor]]; cbn.
      * split; [done|]. eexists. split; [reflexivity|]. split; [done|].
        eexists. by split; [reflexivity|].
      * split; [done|]. eexists. by split; [reflexivity|].
    + apply demo_nodup3; lia.
  - done.
  - exists mh', r, w'. split; [exact H1|exact H2].
Defined.

Lemma move_reset_rebuilds_witness :
  exists w', move_reset (W := base_state Z unit) (PB := Part_refl _) demo_base = Ret tt w' /\
    mchain (moves w') (move_free_list w') [100; 108; 116].
Proof.
  destruct (move_reset_rebuilds (PB := Part_refl (base_state Z unit)) demo_base)
    as (w' & H1 & H2 & _); [done|done|].
  exists w'. split; [exact H1|exact H2].
Defined.

Lemma alloc_within_memory_witness :
  exists w', alloc_chunk (W := base_state Z unit) (PB := Part_refl _) 10 demo_base = Ret 4096 w' /\
    4106 <= alloc_end w' < 4110.
Proof.
  destruct (alloc_within_memory (PB := Part_refl (base_state Z unit)) 2 10 3 demo_base)
    as [H _]; [lia|reflexivity|lia|lia|].
  destruct H as (w' & H1 & H2 & _); [cbn; lia|]. exists w'. split; [exact H1|exact H2].
Defined.

Definition demo_open : base_state Z unit := demo_base <| move_count := 0 |>.
Definition demo_assigned : base_state Z unit :=
  match oid_alloc (PB := Part_refl _) 0 OT_stepper 40 tt demo_open with
  | Ret _ w => w | _ => demo_open end.

Lemma oid_table_typed_witness :
  oid_lookup (PB := Part_refl _) 0 OT_stepper demo_assigned = Ret 0 demo_assigned /\
  oid_lookup (PB := Part_refl _) 0 OT_trsync demo_assigned = Shut "Invalid oid type" demo_assigned.
Proof.
  destruct (oid_table_typed (PB := Part_refl (base_state Z unit)) 0 OT_stepper 40 tt
    [mk_oid None None; mk_oid (Some OT_trsync) (Some tt)] 0 demo_open demo_assigned) as [H _];
    [reflexivity|reflexivity|reflexivity|]. split; apply H.
Defined.

Definition demo_board2 : Board (base_state Z unit * cmd_state) := {|
  timer_read_time := ret 7; timer_kick := ret tt; irq_poll := ret tt; irq_wait := ret tt |}.
Definition demo_console : Console (base_state Z unit * cmd_state) := {|
  env_console_sendf _ _ := ret tt |}.

Definition demo_config2 : Config := {|
  CONFIG_CLOCK_FREQ := 16000000; CONFIG_INLINE_STEPPER_HACK := false;
  CONFIG_HAVE_STEPPER_BOTH_EDGE := false; CONFIG_MACH_AVR := false |}.

Lemma uptime_extends_clock_witness :
  exists w2 T1, stats_update (cfg := demo_config2) (PB := Part_fst _ _) (PC := Part_snd _ _)
      (CN := demo_console) 0 (u32 17179869191) (demo_base, cmd_init) = Ret tt w2 /\
    uptime_inv w2.1 T1.
Proof.
  destruct (uptime_extends_clock (cfg := demo_config2) (BD := demo_board2) (PB := Part_fst _ _)
    (PC := Part_snd _ _) (CN := demo_console)
    17179869178 17179869191 0 (demo_base, cmd_init) (demo_base, cmd_init))
    as [_ (w2 & T1 & H1 & H2 & _)].
  - intros fmt args [b c]. unfold sendf, command_sendf, bind, cmd_gets, gets.
    destruct (z2b (in_sendf (part_get (b, c)))); eexists; split; reflexivity.
  - split; reflexivity.
  - lia.
  - lia.
  - reflexivity.
  - reflexivity.
  - exists w2, T1. split; [exact H1|exact H2].
Defined.
