(* ===== verification/World.v ===== *)
(** * The firmware's memory and its hardware

    The structures of the firmware modules, the world that holds the state of all
    of them, and its hardware: outputs (pins, console messages, timer interrupt
    requests) are a trace of events, inputs (the clock and the pins) are arbitrary
    sequences of readings.  A [struct stepper *] and the like is the object id it
    was allocated with; the [struct timer] members live in the timer heap of
    [Sched], at [T_obj oid slot]. *)

From S2P Require Import Prelude Command Sched Basecmd.

(** ** Moves *)

(** [struct stepper_move] of stepper.c. *)
Record stepper_move := mk_step_move {
  sm_interval : Z; sm_add : Z; sm_count : Z; sm_flags : Z }.
(** [struct digital_move] of gpiocmds.c. *)
Record digital_move := mk_digital_move { dm_waketime : Z; dm_on_duration : Z }.
(** [struct pwm_move] of pwmcmds.c. *)
Record pwm_move := mk_pwm_move { pm_waketime : Z; pm_value : Z }.

Inductive move_pay : Type :=
| P_step (m : stepper_move) | P_digital (m : digital_move) | P_pwm (m : pwm_move).

#[export] Instance eta_step_move : Settable stepper_move := fun m =>
  mk_step_move (sm_interval m) (sm_add m) (sm_count m) (sm_flags m).

(** ** Objects *)

(** [struct stepper]; slot 0 is [time].  [stop_func] and [stop_next] are the
    fields of the embedded [stop_signal]. *)
Record stepper := mk_stepper {
  s_interval : Z; s_add : Z; s_count : Z;
  s_next_step_time : Z; s_step_pulse_ticks : Z;
  s_step_pin : Z; s_dir_pin : Z; s_position : Z;
  s_mq : move_queue_head;
  s_stop_func : bool; s_stop_next : option Z;
  s_flags : Z }.
#[export] Instance eta_stepper : Settable stepper := fun s =>
  mk_stepper (s_interval s) (s_add s) (s_count s) (s_next_step_time s)
    (s_step_pulse_ticks s) (s_step_pin s) (s_dir_pin s) (s_position s) (s_mq s)
    (s_stop_func s) (s_stop_next s) (s_flags s).

(** [struct trsync]; slot 0 is [report_time], slot 1 is [expire_time].  The
    signals are those embedded in steppers, by the id of the stepper. *)
Record trsync := mk_trsync {
  ts_report_ticks : Z; ts_signals : option Z;
  ts_flags : Z; ts_trigger_reason : Z; ts_expire_reason : Z }.
#[export] Instance eta_trsync : Settable trsync := fun t =>
  mk_trsync (ts_report_ticks t) (ts_signals t) (ts_flags t) (ts_trigger_reason t)
    (ts_expire_reason t).

(** [struct endstop]; slot 0 is [time]. *)
Record endstop := mk_endstop {
  e_pin : Z; e_rest_time : Z; e_sample_time : Z; e_nextwake : Z;
  e_ts : option Z;
  e_flags : Z; e_sample_count : Z; e_trigger_count : Z; e_trigger_reason : Z }.
#[export] Instance eta_endstop : Settable endstop := fun e =>
  mk_endstop (e_pin e) (e_rest_time e) (e_sample_time e) (e_nextwake e) (e_ts e)
    (e_flags e) (e_sample_count e) (e_trigger_count e) (e_trigger_reason e).

(** [struct digital_out_s]; slot 0 is [timer]. *)
Record digital_out_s := mk_digital_out {
  d_on_duration : Z; d_off_duration : Z; d_end_time : Z; d_pin : Z;
  d_max_duration : Z; d_cycle_time : Z; d_mq : move_queue_head; d_flags : Z }.
#[export] Instance eta_digital_out : Settable digital_out_s := fun d =>
  mk_digital_out (d_on_duration d) (d_off_duration d) (d_end_time d) (d_pin d)
    (d_max_duration d) (d_cycle_time d) (d_mq d) (d_flags d).

(** [struct pwm_out_s]; slot 0 is [timer]. *)
Record pwm_out_s := mk_pwm_out {
  p_pin : Z; p_max_duration : Z; p_default_value : Z; p_mq : move_queue_head }.
#[export] Instance eta_pwm_out : Settable pwm_out_s := fun p =>
  mk_pwm_out (p_pin p) (p_max_duration p) (p_default_value p) (p_mq p).

(** [struct analog_in]; slot 0 is [timer]. *)
Record analog_in := mk_analog_in {
  a_rest_time : Z; a_sample_time : Z; a_next_begin_time : Z;
  a_value : Z; a_min_value : Z; a_max_value : Z; a_pin : Z;
  a_invalid_count : Z; a_range_check_count : Z; a_state : Z; a_sample_count : Z }.
#[export] Instance eta_analog_in : Settable analog_in := fun a =>
  mk_analog_in (a_rest_time a) (a_sample_time a) (a_next_begin_time a) (a_value a)
    (a_min_value a) (a_max_value a) (a_pin a) (a_invalid_count a)
    (a_range_check_count a) (a_state a) (a_sample_count a).

(** [struct buttons]; slot 0 is [time].  [reports] has eight entries. *)
Record buttons := mk_buttons {
  b_rest_ticks : Z; b_pressed : Z; b_last_pressed : Z;
  b_report_count : Z; b_reports : list Z;
  b_ack_count : Z; b_retransmit_state : Z; b_retransmit_count : Z;
  b_button_count : Z; b_pins : list Z }.
#[export] Instance eta_buttons : Settable buttons := fun b =>
  mk_buttons (b_rest_ticks b) (b_pressed b) (b_last_pressed b) (b_report_count b)
    (b_reports b) (b_ack_count b) (b_retransmit_state b) (b_retransmit_count b)
    (b_button_count b) (b_pins b).

(** [struct counter]; slot 0 is [timer]. *)
Record counter := mk_counter {
  c_poll_ticks : Z; c_sample_ticks : Z; c_next_sample_time : Z;
  c_count : Z; c_last_count_time : Z; c_flags : Z; c_pin : Z }.
#[export] Instance eta_counter : Settable counter := fun c =>
  mk_counter (c_poll_ticks c) (c_sample_ticks c) (c_next_sample_time c) (c_count c)
    (c_last_count_time c) (c_flags c) (c_pin c).

(** [struct tmcuart_s]; slot 0 is [timer].  [data] has ten entries. *)
Record tmcuart_s := mk_tmcuart {
  u_tx_pin : Z; u_rx_pin : Z; u_flags : Z;
  u_pos : Z; u_read_count : Z; u_write_count : Z;
  u_cfg_bit_time : Z; u_bit_time : Z; u_data : list Z }.
#[export] Instance eta_tmcuart : Settable tmcuart_s := fun t =>
  mk_tmcuart (u_tx_pin t) (u_rx_pin t) (u_flags t) (u_pos t) (u_read_count t)
    (u_write_count t) (u_cfg_bit_time t) (u_bit_time t) (u_data t).

(** [struct spi_software] of spi_software.c. *)
Record spi_software := mk_spi_software {
  ss_miso : Z; ss_mosi : Z; ss_sclk : Z; ss_mode : Z }.
(** The union in [struct spidev_s]: unset, the handle of a bus of the board, or
    the software bus it points to. *)
Inductive spi_bus : Type :=
| SB_none | SB_config (config : Z) | SB_software (ss : spi_software).
(** [struct spidev_s] of spicmds.c. *)
Record spidev_s := mk_spidev { spi_union : spi_bus; spi_pin : Z; spi_flags : Z }.
#[export] Instance eta_spidev : Settable spidev_s := fun d =>
  mk_spidev (spi_union d) (spi_pin d) (spi_flags d).
(** [struct spidev_shutdown_s]; [spi] is the id of the device. *)
Record spidev_shutdown_s := mk_spidev_shutdown { sd_spi : Z; sd_msg_len : Z; sd_msg : list Z }.
#[export] Instance eta_spidev_shutdown : Settable spidev_shutdown_s := fun d =>
  mk_spidev_shutdown (sd_spi d) (sd_msg_len d) (sd_msg d).

(** [struct i2cdev_s]. *)
Record i2cdev_s := mk_i2cdev { i2c_config : Z }.
#[export] Instance eta_i2cdev : Settable i2cdev_s := fun d => mk_i2cdev (i2c_config d).

(** [struct thermocouple_spi]; slot 0 is [timer], [spi] the id of the device. *)
Record thermocouple_spi := mk_thermocouple {
  th_rest_time : Z; th_min_value : Z; th_max_value : Z; th_spi : Z;
  th_max_invalid : Z; th_invalid_count : Z; th_chip_type : Z; th_flags : Z }.
#[export] Instance eta_thermocouple : Settable thermocouple_spi := fun t =>
  mk_thermocouple (th_rest_time t) (th_min_value t) (th_max_value t) (th_spi t)
    (th_max_invalid t) (th_invalid_count t) (th_chip_type t) (th_flags t).

(** [struct adxl345]; slot 0 is [timer], [spi] the id of the device.  [data] has 50 entries. *)
Record adxl345 := mk_adxl345 {
  ax_rest_ticks : Z; ax_spi : Z; ax_sequence : Z; ax_limit_count : Z;
  ax_flags : Z; ax_data_count : Z; ax_data : list Z }.
#[export] Instance eta_adxl345 : Settable adxl345 := fun a =>
  mk_adxl345 (ax_rest_ticks a) (ax_spi a) (ax_sequence a) (ax_limit_count a) (ax_flags a)
    (ax_data_count a) (ax_data a).

(** [struct mpu9250]; slot 0 is [timer], [i2c] the id of the device.  [data] has 48 entries. *)
Record mpu9250 := mk_mpu9250 {
  mp_rest_ticks : Z; mp_i2c : Z; mp_sequence : Z; mp_limit_count : Z;
  mp_flags : Z; mp_data_count : Z; mp_data : list Z }.
#[export] Instance eta_mpu9250 : Settable mpu9250 := fun a =>
  mk_mpu9250 (mp_rest_ticks a) (mp_i2c a) (mp_sequence a) (mp_limit_count a) (mp_flags a)
    (mp_data_count a) (mp_data a).

(** [struct spi_angle]; slot 0 is [timer], [spi] the id of the device.  [data] has 48 entries. *)
Record spi_angle := mk_spi_angle {
  sa_rest_ticks : Z; sa_spi : Z; sa_sequence : Z;
  sa_flags : Z; sa_chip_type : Z; sa_data_count : Z; sa_time_shift : Z; sa_overflow : Z;
  sa_data : list Z }.
#[export] Instance eta_spi_angle : Settable spi_angle := fun a =>
  mk_spi_angle (sa_rest_ticks a) (sa_spi a) (sa_sequence a) (sa_flags a) (sa_chip_type a)
    (sa_data_count a) (sa_time_shift a) (sa_overflow a) (sa_data a).

(** [struct neopixel_s]; [data] has [data_size] entries. *)
Record neopixel_s := mk_neopixel {
  np_pin : Z; np_bit_max_ticks : Z; np_last_req_time : Z; np_reset_min_ticks : Z;
  np_data_size : Z; np_data : list Z }.
#[export] Instance eta_neopixel : Settable neopixel_s := fun n =>
  mk_neopixel (np_pin n) (np_bit_max_ticks n) (np_last_req_time n) (np_reset_min_ticks n)
    (np_data_size n) (np_data n).

(** [struct st7920]. *)
Record st7920 := mk_st7920 {
  st_last_cmd_time : Z; st_sync_wait_ticks : Z; st_cmd_wait_ticks : Z;
  st_sclk : Z; st_sid : Z }.
#[export] Instance eta_st7920 : Settable st7920 := fun s =>
  mk_st7920 (st_last_cmd_time s) (st_sync_wait_ticks s) (st_cmd_wait_ticks s) (st_sclk s) (st_sid s).

(** [struct hd44780]. *)
Record hd44780 := mk_hd44780 {
  hd_last_cmd_time : Z; hd_cmd_wait_ticks : Z; hd_last : Z;
  hd_rs : Z; hd_e : Z; hd_d4 : Z; hd_d5 : Z; hd_d6 : Z; hd_d7 : Z }.
#[export] Instance eta_hd44780 : Settable hd44780 := fun h =>
  mk_hd44780 (hd_last_cmd_time h) (hd_cmd_wait_ticks h) (hd_last h) (hd_rs h) (hd_e h)
    (hd_d4 h) (hd_d5 h) (hd_d6 h) (hd_d7 h).

Inductive obj : Type :=
| O_stepper (s : stepper) | O_trsync (t : trsync) | O_endstop (e : endstop)
| O_digital_out (d : digital_out_s) | O_pwm_out (p : pwm_out_s)
| O_analog_in (a : analog_in) | O_buttons (b : buttons) | O_counter (c : counter)
| O_tmcuart (t : tmcuart_s) | O_spidev (d : spidev_s) | O_spidev_shutdown (d : spidev_shutdown_s)
| O_i2cdev (d : i2cdev_s) | O_thermocouple (t : thermocouple_spi)
| O_adxl345 (a : adxl345) | O_mpu9250 (a : mpu9250) | O_spi_angle (a : spi_angle)
| O_neopixel (n : neopixel_s) | O_st7920 (s : st7920) | O_hd44780 (h : hd44780).

(** ** Hardware *)

Inductive event : Type :=
| Ev_out_setup (pin val : Z) | Ev_out_write (pin val : Z) | Ev_out_toggle (pin : Z)
| Ev_in_setup (pin pull_up : Z) | Ev_adc_setup (pin : Z) | Ev_adc_cancel (pin : Z)
| Ev_pwm_setup (pin cycle_ticks val : Z) | Ev_pwm_write (pin val : Z)
| Ev_out_reset (pin val : Z) | Ev_in_reset (pin pull_up : Z)
| Ev_spi_setup (bus mode rate : Z) | Ev_spi_prepare (config : Z)
| Ev_spi_transfer (config receive : Z) (data : list Z)
| Ev_i2c_setup (bus rate addr : Z) | Ev_i2c_write (config : Z) (data : list Z)
| Ev_i2c_read (config : Z) (reg : list Z) (len : Z)
| Ev_console (ce : command_encoder) (args : list va_arg)
| Ev_kick.

Record hardware := mk_hw {
  hw_clock : nat -> Z;
  hw_clock_reads : nat;
  hw_input : nat -> Z;
  hw_input_reads : nat;
  hw_trace : list event;
  hw_receive : list Z }.
#[export] Instance eta_hw : Settable hardware := fun h =>
  mk_hw (hw_clock h) (hw_clock_reads h) (hw_input h) (hw_input_reads h) (hw_trace h)
    (hw_receive h).

(** The [static struct task_wake] flags of the modules. *)
Record wakes := mk_wakes {
  trsync_wake : Z; analog_wake : Z; buttons_wake : Z; counter_wake : Z;
  tmcuart_wake : Z; thermocouple_wake : Z;
  adxl345_wake : Z; mpu9250_wake : Z; angle_wake : Z }.
#[export] Instance eta_wakes : Settable wakes := fun k =>
  mk_wakes (trsync_wake k) (analog_wake k) (buttons_wake k) (counter_wake k)
    (tmcuart_wake k) (thermocouple_wake k) (adxl345_wake k) (mpu9250_wake k) (angle_wake k).

(** ** The world *)

Notation base := (base_state move_pay obj).

Record world := mk_world {
  w_cmd : cmd_state;
  w_sched : sched_state;
  w_base : base;
  w_wakes : wakes;
  w_hw : hardware }.
#[export] Instance eta_world : Settable world := fun w =>
  mk_world (w_cmd w) (w_sched w) (w_base w) (w_wakes w) (w_hw w).

#[export, program] Instance world_cmd : Part world cmd_state := {
  part_get := w_cmd; part_set s w := w <| w_cmd := s |> }.
Solve Obligations with by intros; repeat match goal with w : world |- _ => destruct w end.
#[export, program] Instance world_sched : Part world sched_state := {
  part_get := w_sched; part_set s w := w <| w_sched := s |> }.
Solve Obligations with by intros; repeat match goal with w : world |- _ => destruct w end.
#[export, program] Instance world_base : Part world base := {
  part_get := w_base; part_set s w := w <| w_base := s |> }.
Solve Obligations with by intros; repeat match goal with w : world |- _ => destruct w end.

Definition emit (e : event) : M world unit :=
  modify (fun w => w <| w_hw ::= fun h => h <| hw_trace ::= fun t => t ++ [e] |> |>).

Definition read_clock : M world Z := fun w =>
  Ret (u32 (hw_clock (w_hw w) (hw_clock_reads (w_hw w))))
      (w <| w_hw ::= fun h => h <| hw_clock_reads ::= S |> |>).

Definition read_input : M world Z := fun w =>
  Ret (hw_input (w_hw w) (hw_input_reads (w_hw w)))
      (w <| w_hw ::= fun h => h <| hw_input_reads ::= S |> |>).

#[export] Instance world_board : Board world := {
  timer_read_time := read_clock;
  timer_kick := emit Ev_kick;
  irq_poll := ret tt;
  irq_wait := ret tt }.

#[export] Instance world_console : Console world := {
  env_console_sendf ce args := emit (Ev_console ce args) }.

(** The gpio functions of the board; a pin handle is the pin number. *)
Definition gpio_out_setup (pin val : Z) : M world Z := emit (Ev_out_setup pin val) ;; ret pin.
Definition gpio_out_write (pin val : Z) : M world unit := emit (Ev_out_write pin val).
Definition gpio_out_toggle_noirq (pin : Z) : M world unit := emit (Ev_out_toggle pin).
Definition gpio_in_setup (pin pull_up : Z) : M world Z := emit (Ev_in_setup pin pull_up) ;; ret pin.
Definition gpio_in_read (pin : Z) : M world Z := v <- read_input ;; ret (u8 v).
Definition gpio_adc_setup (pin : Z) : M world Z := emit (Ev_adc_setup pin) ;; ret pin.
Definition gpio_adc_sample (pin : Z) : M world Z := v <- read_input ;; ret (u32 v).
Definition gpio_adc_read (pin : Z) : M world Z := v <- read_input ;; ret (u16 v).
Definition gpio_adc_cancel_sample (pin : Z) : M world unit := emit (Ev_adc_cancel pin).
Definition gpio_pwm_setup (pin cycle_ticks val : Z) : M world Z :=
  emit (Ev_pwm_setup pin cycle_ticks val) ;; ret pin.
Definition gpio_pwm_write (pin val : Z) : M world unit := emit (Ev_pwm_write pin val).
Definition gpio_out_reset (pin val : Z) : M world unit := emit (Ev_out_reset pin val).
Definition gpio_out_toggle (pin : Z) : M world unit := emit (Ev_out_toggle pin).
Definition gpio_in_reset (pin pull_up : Z) : M world unit := emit (Ev_in_reset pin pull_up).

(** The buses of the board: the bytes received are readings. *)
Fixpoint read_bytes (n : nat) : M world (list Z) :=
  match n with
  | O => ret []
  | S n => v <- read_input ;; l <- read_bytes n ;; ret (u8 v :: l)
  end.
Definition spi_setup (bus mode rate : Z) : M world Z :=
  emit (Ev_spi_setup bus mode rate) ;; v <- read_input ;; ret v.
Definition spi_prepare (config : Z) : M world unit := emit (Ev_spi_prepare config).
(** The contents of [data] after the transfer. *)
Definition spi_transfer (config receive_data : Z) (data : list Z) : M world (list Z) :=
  emit (Ev_spi_transfer config receive_data data) ;;
  if negb (receive_data =? 0) then read_bytes (length data) else ret data.
Definition i2c_setup (bus rate addr : Z) : M world Z :=
  emit (Ev_i2c_setup bus rate addr) ;; v <- read_input ;; ret v.
Definition i2c_write (config : Z) (data : list Z) : M world unit := emit (Ev_i2c_write config data).
Definition i2c_read (config : Z) (reg : list Z) (len : Z) : M world (list Z) :=
  emit (Ev_i2c_read config reg len) ;; read_bytes (Z.to_nat len).

(** ** Buffer arguments of commands

    The argument of a [%*s] parameter is a pointer into the receive buffer of the
    console, [hw_receive], at the address [console_receive_buffer]. *)
Class Machine := {
  sizeof_size_t : Z;
  console_receive_buffer : Z;
  CONFIG_HAVE_GPIO_BITBANGING : bool;
  CONFIG_HAVE_STRICT_TIMING : bool;
  sizeof_spi_software : Z;
  wait_fuel : nat;
}.

(** A busy wait on the clock, [while (!elapsed(timer_read_time())) irq_poll();]; [wait_fuel]
    bounds the number of readings of one wait. *)
Fixpoint wait_loop (fuel : nat) (elapsed : Z -> bool) : M world unit :=
  match fuel with
  | O => stuck
  | S fuel =>
      t <- timer_read_time ;;
      if elapsed t then ret tt else irq_poll ;; wait_loop fuel elapsed
  end.

Definition arg_offset `{Machine} (ptr : Z) : Z :=
  command_decode_ptr sizeof_size_t console_receive_buffer ptr - console_receive_buffer.
Definition load_arg `{Machine} (ptr len : Z) : M world (list Z) :=
  buf <- gets (fun w => hw_receive (w_hw w)) ;;
  let off := arg_offset ptr in
  if (0 <=? off) && (off + len <=? zlen buf) then ret (takeZ len (dropZ off buf)) else stuck.
Definition store_arg `{Machine} (ptr : Z) (data : list Z) : M world unit :=
  buf <- gets (fun w => hw_receive (w_hw w)) ;;
  let off := arg_offset ptr in
  if (0 <=? off) && (off + zlen data <=? zlen buf)
  then modify (fun w => w <| w_hw ::= fun h => h <| hw_receive ::= fun b =>
         takeZ off b ++ data ++ dropZ (off + zlen data) b |> |>)
  else stuck.

(** ** Access to objects *)

Definition obj_get (oid : Z) : M world obj :=
  e <- oid_get oid ;; deref (oid_data e).
Definition obj_set (oid : Z) (o : obj) : M world unit :=
  e <- oid_get oid ;; oid_set oid (mk_oid (oid_type e) (Some o)).

(** One module's view of an object. *)
Class ObjView (T : Type) := {
  to_obj : T -> obj;
  of_obj : obj -> option T;
  of_to_obj : forall x, of_obj (to_obj x) = Some x;
}.

#[export, program] Instance view_stepper : ObjView stepper := {
  to_obj := O_stepper; of_obj o := match o with O_stepper s => Some s | _ => None end }.
Solve Obligations with done.
#[export, program] Instance view_trsync : ObjView trsync := {
  to_obj := O_trsync; of_obj o := match o with O_trsync s => Some s | _ => None end }.
Solve Obligations with done.
#[export, program] Instance view_endstop : ObjView endstop := {
  to_obj := O_endstop; of_obj o := match o with O_endstop s => Some s | _ => None end }.
Solve Obligations with done.
#[export, program] Instance view_digital_out : ObjView digital_out_s := {
  to_obj := O_digital_out; of_obj o := match o with O_digital_out s => Some s | _ => None end }.
Solve Obligations with done.
#[export, program] Instance view_pwm_out : ObjView pwm_out_s := {
  to_obj := O_pwm_out; of_obj o := match o with O_pwm_out s => Some s | _ => None end }.
Solve Obligations with done.
#[export, program] Instance view_analog_in : ObjView analog_in := {
  to_obj := O_analog_in; of_obj o := match o with O_analog_in s => Some s | _ => None end }.
Solve Obligations with done.
#[export, program] Instance view_buttons : ObjView buttons := {
  to_obj := O_buttons; of_obj o := match o with O_buttons s => Some s | _ => None end }.
Solve Obligations with done.
#[export, program] Instance view_counter : ObjView counter := {
  to_obj := O_counter; of_obj o := match o with O_counter s => Some s | _ => None end }.
Solve Obligations with done.

#[export, program] Instance view_tmcuart : ObjView tmcuart_s := {
  to_obj := O_tmcuart; of_obj o := match o with O_tmcuart s => Some s | _ => None end }.
Solve Obligations with done.
#[export, program] Instance view_spidev : ObjView spidev_s := {
  to_obj := O_spidev; of_obj o := match o with O_spidev s => Some s | _ => None end }.
Solve Obligations with done.
#[export, program] Instance view_spidev_shutdown : ObjView spidev_shutdown_s := {
  to_obj := O_spidev_shutdown;
  of_obj o := match o with O_spidev_shutdown s => Some s | _ => None end }.
Solve Obligations with done.
#[export, program] Instance view_i2cdev : ObjView i2cdev_s := {
  to_obj := O_i2cdev; of_obj o := match o with O_i2cdev s => Some s | _ => None end }.
Solve Obligations with done.
#[export, program] Instance view_thermocouple : ObjView thermocouple_spi := {
  to_obj := O_thermocouple; of_obj o := match o with O_thermocouple s => Some s | _ => None end }.
Solve Obligations with done.
#[export, program] Instance view_adxl345 : ObjView adxl345 := {
  to_obj := O_adxl345; of_obj o := match o with O_adxl345 s => Some s | _ => None end }.
Solve Obligations with done.
#[export, program] Instance view_mpu9250 : ObjView mpu9250 := {
  to_obj := O_mpu9250; of_obj o := match o with O_mpu9250 s => Some s | _ => None end }.
Solve Obligations with done.
#[export, program] Instance view_spi_angle : ObjView spi_angle := {
  to_obj := O_spi_angle; of_obj o := match o with O_spi_angle s => Some s | _ => None end }.
Solve Obligations with done.
#[export, program] Instance view_neopixel : ObjView neopixel_s := {
  to_obj := O_neopixel; of_obj o := match o with O_neopixel s => Some s | _ => None end }.
Solve Obligations with done.
#[export, program] Instance view_st7920 : ObjView st7920 := {
  to_obj := O_st7920; of_obj o := match o with O_st7920 s => Some s | _ => None end }.
Solve Obligations with done.
#[export, program] Instance view_hd44780 : ObjView hd44780 := {
  to_obj := O_hd44780; of_obj o := match o with O_hd44780 s => Some s | _ => None end }.
Solve Obligations with done.

(** [*p] and assignments to fields of [*p]. *)
Definition oget {T} `{ObjView T} (oid : Z) : M world T :=
  o <- obj_get oid ;; deref (of_obj o).
Definition oset {T} `{ObjView T} (oid : Z) (x : T) : M world unit := obj_set oid (to_obj x).
Definition omod {T} `{ObjView T} (oid : Z) (f : T -> T) : M world unit :=
  x <- oget oid ;; oset oid (f x).

(** Allocation of an object, [extra] bytes larger than its structure, with zeroed
    timers in the given slots. *)
Definition obj_alloc_extra `{Target} {T} `{ObjView T} (extra oid : Z) (type : otype) (init : T)
    (slots : list Z) : M world Z :=
  oid <- oid_alloc oid type (sizeof_obj type + extra) (to_obj init) ;;
  fold_right (fun slot k => tset (T_obj oid slot) (mk_timer None None 0) ;; k) (ret tt) slots ;;
  ret oid.
Definition obj_alloc `{Target} {T} `{ObjView T} (oid : Z) (type : otype) (init : T)
    (slots : list Z) : M world Z := obj_alloc_extra 0 oid type init slots.

(** [sched_wake_task] and [sched_check_wake] of sched.c on one of the flags. *)
Definition sched_wake_task (set_wake : Z -> wakes -> wakes) : M world unit :=
  sched_wake_tasks ;;
  modify (fun w => w <| w_wakes ::= set_wake 1 |>).

Definition sched_check_wake (wake : wakes -> Z) (set_wake : Z -> wakes -> wakes) : M world bool :=
  v <- gets (fun w => wake (w_wakes w)) ;;
  if v =? 0 then ret false
  else modify (fun w => w <| w_wakes ::= set_wake 0 |>) ;; ret true.
