(* ===== verification/WorldFacts.v ===== *)
(** * Reasoning about the firmware world

    How the operations of [World] act on its parts: an object, a timer, the trace
    of events.  Each primitive is rewritten to an explicit update of the world, and
    reading one part after an update of another gives the old value. *)

From S2P Require Import Prelude Command Sched SchedFacts Basecmd BasecmdFacts World.

(** The object stored under an id, and the timer at an address. *)
Definition obj_at (w : world) (oid : Z) : option obj :=
  oids (w_base w) ≫= fun t => t !! Z.to_nat oid ≫= oid_data.
Definition timer_at (w : world) (t : tid) : option timer := timers (w_sched w) !! t.
Definition trace (w : world) : list event := hw_trace (w_hw w).

Definition put_obj (oid : Z) (o : obj) (w : world) : world :=
  w <| w_base ::= fun b => b <| oids ::= fmap (alter
         (fun e => mk_oid (oid_type e) (Some o)) (Z.to_nat oid)) |> |>.
Definition put_timer (t : tid) (v : timer) (w : world) : world :=
  w <| w_sched ::= fun s => s <| timers ::= <[t := v]> |> |>.
Definition put_event (e : event) (w : world) : world :=
  w <| w_hw ::= fun h => h <| hw_trace ::= fun t => t ++ [e] |> |>.

Lemma obj_at_inv w oid o :
  obj_at w oid = Some o ->
  exists t e, oids (w_base w) = Some t /\ t !! Z.to_nat oid = Some e /\ oid_data e = Some o.
Proof.
  unfold obj_at. destruct (oids (w_base w)) as [t|]; [|done]. cbn [mbind option_bind].
  destruct (t !! Z.to_nat oid) as [e|] eqn:E; [|done]. intros H. by exists t, e.
Qed.

Lemma obj_at_put w oid o o' :
  obj_at w oid = Some o -> obj_at (put_obj oid o' w) oid = Some o'.
Proof.
  intros (t & e & Ht & He & Ho)%obj_at_inv. unfold obj_at, put_obj. simpl. rewrite Ht. simpl.
  by rewrite list_lookup_alter_eq, He.
Qed.

Lemma obj_at_put_ne w oid oid' o :
  Z.to_nat oid <> Z.to_nat oid' -> obj_at (put_obj oid o w) oid' = obj_at w oid'.
Proof.
  intros Hne. unfold obj_at, put_obj. simpl. destruct (oids (w_base w)); [|done]. simpl.
  by rewrite list_lookup_alter_ne.
Qed.

Lemma timer_at_put w t v : timer_at (put_timer t v w) t = Some v.
Proof. unfold timer_at, put_timer. simpl. by rewrite lookup_insert_eq. Qed.

Lemma obj_get_Ret oid o w : obj_at w oid = Some o -> obj_get oid w = Ret o w.
Proof.
  intros (t & e & Ht & He & Ho)%obj_at_inv.
  unfold obj_get, oid_get, bget, gets, bind. simpl. rewrite Ht. simpl. rewrite He. simpl.
  by rewrite Ho.
Qed.

Lemma oset_Ret {T} `{ObjView T} oid o (x : T) w :
  obj_at w oid = Some o -> oset oid x w = Ret tt (put_obj oid (to_obj x) w).
Proof.
  intros (t & e & Ht & He & Ho)%obj_at_inv.
  unfold oset, obj_set, oid_get, oid_set, bget, bmod, gets, modify, bind. simpl.
  rewrite Ht. simpl. rewrite He. simpl. f_equal. unfold put_obj. rewrite Ht. simpl.
  destruct w as [wc ws [] wk wh]. simpl in *. do 3 f_equal. subst. simpl. f_equal.
  apply list_eq. intros i. destruct (decide (i = Z.to_nat oid)) as [->|Hne].
  - rewrite list_lookup_alter_eq, He. simpl. rewrite list_lookup_insert_eq; [done|].
    by apply lookup_lt_is_Some_1; eauto.
  - rewrite list_lookup_alter_ne, list_lookup_insert_ne; done.
Qed.

Lemma oget_Ret {T} `{ObjView T} oid (x : T) w :
  obj_at w oid = Some (to_obj x) -> oget oid w = Ret x w.
Proof.
  intros E. unfold oget. rewrite (bind_Ret _ _ _ _ _ (obj_get_Ret _ _ _ E)).
  by rewrite of_to_obj.
Qed.

Lemma omod_Ret {T} `{ObjView T} oid (f : T -> T) x w :
  obj_at w oid = Some (to_obj x) -> omod oid f w = Ret tt (put_obj oid (to_obj (f x)) w).
Proof.
  intros E. unfold omod. rewrite (bind_Ret _ _ _ _ _ (oget_Ret _ _ _ E)).
  by eapply oset_Ret.
Qed.

Lemma wtget_Ret t v w : timer_at w t = Some v -> tget t w = Ret v w.
Proof. exact (tget_Ret t v w). Qed.

Lemma wtmod_Ret t f v w :
  timer_at w t = Some v -> tmod t f w = Ret tt (put_timer t (f v) w).
Proof. exact (tmod_Ret t f v w). Qed.

Lemma emit_Ret e w : emit e w = Ret tt (put_event e w).
Proof. done. Qed.

Lemma alter_data_twice (l : list (oid_s obj)) i (o o' : option obj) :
  alter (fun e => mk_oid (oid_type e) o) i (alter (fun e => mk_oid (oid_type e) o') i l)
  = alter (fun e => mk_oid (oid_type e) o) i l.
Proof.
  apply list_eq. intros j. destruct (decide (j = i)) as [->|Hne].
  - rewrite !list_lookup_alter_eq. by destruct (l !! i).
  - by rewrite !list_lookup_alter_ne.
Qed.

Lemma put_obj_put w oid o o' : put_obj oid o (put_obj oid o' w) = put_obj oid o w.
Proof.
  unfold put_obj. destruct w as [wc ws [] wk wh]. simpl.
  destruct oids as [tab|]; [|done]. simpl. by rewrite alter_data_twice.
Qed.

Lemma put_timer_put w t v v' : put_timer t v (put_timer t v' w) = put_timer t v w.
Proof.
  unfold put_timer. destruct w as [wc [] wb wk wh]. simpl. do 2 f_equal.
  apply insert_insert_eq.
Qed.

(** Updates of different parts commute; objects first, then timers. *)
Lemma put_obj_timer w oid o t v :
  put_obj oid o (put_timer t v w) = put_timer t v (put_obj oid o w).
Proof. done. Qed.
Lemma put_obj_event w oid o e : put_obj oid o (put_event e w) = put_event e (put_obj oid o w).
Proof. done. Qed.
Lemma put_timer_event w t v e : put_timer t v (put_event e w) = put_event e (put_timer t v w).
Proof. done. Qed.

Lemma obj_at_timer w t v oid : obj_at (put_timer t v w) oid = obj_at w oid.
Proof. done. Qed.
Lemma obj_at_event w e oid : obj_at (put_event e w) oid = obj_at w oid.
Proof. done. Qed.
Lemma timer_at_obj w oid o t : timer_at (put_obj oid o w) t = timer_at w t.
Proof. done. Qed.
Lemma timer_at_event w e t : timer_at (put_event e w) t = timer_at w t.
Proof. done. Qed.
Lemma trace_obj w oid o : trace (put_obj oid o w) = trace w.
Proof. done. Qed.
Lemma trace_timer w t v : trace (put_timer t v w) = trace w.
Proof. done. Qed.
Lemma trace_event w e : trace (put_event e w) = trace w ++ [e].
Proof. done. Qed.

(** The pool of move nodes with its free list. *)
Definition pool_of (w : world) : gmap Z (move_node move_pay) := moves (w_base w).
Definition put_pool (h : gmap Z (move_node move_pay)) (fl : option Z) (w : world) : world :=
  w <| w_base ::= fun b => b <| moves := h |> <| move_free_list := fl |> |>.

Lemma obj_at_pool w h fl oid : obj_at (put_pool h fl w) oid = obj_at w oid.
Proof. done. Qed.
Lemma timer_at_pool w h fl t : timer_at (put_pool h fl w) t = timer_at w t.
Proof. done. Qed.
Lemma trace_pool w h fl : trace (put_pool h fl w) = trace w.
Proof. done. Qed.
Lemma put_obj_pool w oid o h fl :
  put_obj oid o (put_pool h fl w) = put_pool h fl (put_obj oid o w).
Proof. done. Qed.
Lemma put_timer_pool w t v h fl :
  put_timer t v (put_pool h fl w) = put_pool h fl (put_timer t v w).
Proof. done. Qed.
Lemma put_event_pool w e h fl :
  put_event e (put_pool h fl w) = put_pool h fl (put_event e w).
Proof. done. Qed.
Lemma put_pool_put w h fl h' fl' : put_pool h fl (put_pool h' fl' w) = put_pool h fl w.
Proof. done. Qed.

Lemma wmget_Ret m v w : pool_of w !! m = Some v -> mget m w = Ret v w.
Proof. exact (mget_Ret m v w). Qed.

Lemma wmove_free_Ret m v w :
  pool_of w !! m = Some v ->
  move_free m w = Ret tt (put_pool
    (<[m := mk_move (move_free_list (w_base w)) (mv_pay v)]> (pool_of w)) (Some m) w).
Proof. exact (move_free_run m v w). Qed.

Lemma pool_obj w oid o : pool_of (put_obj oid o w) = pool_of w.
Proof. done. Qed.
Lemma pool_timer w t v : pool_of (put_timer t v w) = pool_of w.
Proof. done. Qed.
Lemma pool_event w e : pool_of (put_event e w) = pool_of w.
Proof. done. Qed.
Lemma pool_put w h fl : pool_of (put_pool h fl w) = h.
Proof. done. Qed.

(** Reading the clock. *)
Definition clock_now (w : world) : Z := u32 (hw_clock (w_hw w) (hw_clock_reads (w_hw w))).
Definition tick (w : world) : world := w <| w_hw ::= fun h => h <| hw_clock_reads ::= S |> |>.

Lemma read_time_Ret w : timer_read_time w = Ret (clock_now w) (tick w).
Proof. done. Qed.
Lemma obj_at_tick w oid : obj_at (tick w) oid = obj_at w oid.
Proof. done. Qed.
Lemma timer_at_tick w t : timer_at (tick w) t = timer_at w t.
Proof. done. Qed.
Lemma trace_tick w : trace (tick w) = trace w.
Proof. done. Qed.
Lemma pool_tick w : pool_of (tick w) = pool_of w.
Proof. done. Qed.
Lemma put_obj_tick w oid o : put_obj oid o (tick w) = tick (put_obj oid o w).
Proof. done. Qed.
Lemma put_timer_tick w t v : put_timer t v (tick w) = tick (put_timer t v w).
Proof. done. Qed.
Lemma put_event_tick w e : put_event e (tick w) = tick (put_event e w).
Proof. done. Qed.
Lemma put_pool_tick w h fl : tick (put_pool h fl w) = put_pool h fl (tick w).
Proof. done. Qed.

(** Reading an input. *)
Definition next_input (w : world) : Z := hw_input (w_hw w) (hw_input_reads (w_hw w)).
Definition take_input (w : world) : world :=
  w <| w_hw ::= fun h => h <| hw_input_reads ::= S |> |>.
(** The [i]th input to come. *)
Definition input_at (w : world) (i : nat) : Z := hw_input (w_hw w) (hw_input_reads (w_hw w) + i).

Lemma read_input_Ret w : read_input w = Ret (next_input w) (take_input w).
Proof. done. Qed.
Lemma next_input_at w : next_input w = input_at w 0.
Proof. unfold input_at. by rewrite Nat.add_0_r. Qed.
Lemma input_at_take w i : input_at (take_input w) i = input_at w (S i).
Proof. unfold input_at, take_input. simpl. by rewrite Nat.add_succ_r. Qed.
Lemma input_at_obj w oid o i : input_at (put_obj oid o w) i = input_at w i.
Proof. done. Qed.
Lemma input_at_timer w t v i : input_at (put_timer t v w) i = input_at w i.
Proof. done. Qed.
Lemma input_at_event w e i : input_at (put_event e w) i = input_at w i.
Proof. done. Qed.
Lemma input_at_pool w h fl i : input_at (put_pool h fl w) i = input_at w i.
Proof. done. Qed.
Lemma input_at_tick w i : input_at (tick w) i = input_at w i.
Proof. done. Qed.
Lemma obj_at_take w oid : obj_at (take_input w) oid = obj_at w oid.
Proof. done. Qed.
Lemma timer_at_take w t : timer_at (take_input w) t = timer_at w t.
Proof. done. Qed.
Lemma trace_take w : trace (take_input w) = trace w.
Proof. done. Qed.
Lemma pool_take w : pool_of (take_input w) = pool_of w.
Proof. done. Qed.
Lemma put_obj_take w oid o : put_obj oid o (take_input w) = take_input (put_obj oid o w).
Proof. done. Qed.
Lemma put_timer_take w t v : put_timer t v (take_input w) = take_input (put_timer t v w).
Proof. done. Qed.
Lemma put_event_take w e : put_event e (take_input w) = take_input (put_event e w).
Proof. done. Qed.
Lemma put_pool_take w h fl : take_input (put_pool h fl w) = put_pool h fl (take_input w).
Proof. done. Qed.
Lemma tick_take w : tick (take_input w) = take_input (tick w).
Proof. done. Qed.

(** Waking a task. *)
Definition woken (set_wake : Z -> wakes -> wakes) (w : world) : world :=
  w <| w_sched ::= fun s => s <| tasks_status := TS_REQUESTED |> |> <| w_wakes ::= set_wake 1 |>.
Lemma wake_task_Ret f w : sched_wake_task f w = Ret tt (woken f w).
Proof. by destruct w. Qed.
Lemma obj_at_woken f w oid : obj_at (woken f w) oid = obj_at w oid.
Proof. done. Qed.
Lemma timer_at_woken f w t : timer_at (woken f w) t = timer_at w t.
Proof. done. Qed.
Lemma trace_woken f w : trace (woken f w) = trace w.
Proof. done. Qed.
Lemma pool_woken f w : pool_of (woken f w) = pool_of w.
Proof. done. Qed.
Lemma input_at_woken f w i : input_at (woken f w) i = input_at w i.
Proof. done. Qed.
Lemma put_obj_woken f w oid o : put_obj oid o (woken f w) = woken f (put_obj oid o w).
Proof. done. Qed.
Lemma put_timer_woken f w t v : put_timer t v (woken f w) = woken f (put_timer t v w).
Proof. done. Qed.
Lemma put_event_woken f w e : put_event e (woken f w) = woken f (put_event e w).
Proof. done. Qed.

(** Collapse a sequence of updates to one object, one timer and some events. *)
#[export] Hint Rewrite put_obj_put put_timer_put put_obj_timer put_obj_event
  put_timer_event put_obj_pool put_timer_pool put_event_pool put_pool_put
  put_obj_tick put_timer_tick put_event_tick put_pool_tick
  put_obj_take put_timer_take put_event_take put_pool_take
  put_obj_woken put_timer_woken put_event_woken : wput.
#[export] Hint Rewrite obj_at_timer obj_at_event timer_at_obj timer_at_event timer_at_put
  trace_obj trace_timer trace_event obj_at_pool timer_at_pool trace_pool
  pool_obj pool_timer pool_event pool_put
  obj_at_tick timer_at_tick trace_tick pool_tick
  obj_at_take timer_at_take trace_take pool_take
  obj_at_woken timer_at_woken trace_woken pool_woken
  input_at_take input_at_obj input_at_timer input_at_event input_at_pool input_at_tick
  input_at_woken : wget.

(** Execute the next primitive.  The hypotheses give the object and the timer. *)
Ltac wget_solve :=
  autorewrite with wget; first [eassumption | eapply obj_at_put; wget_solve | reflexivity].

Ltac wstep :=
  match goal with
  | |- context [bind (oget ?o) ?k ?w] =>
      erewrite (bind_Ret (oget o) k w) by (apply oget_Ret; wget_solve)
  | |- context [bind (omod ?o ?f) ?k ?w] =>
      erewrite (bind_Ret (omod o f) k w) by (apply omod_Ret; wget_solve)
  | |- context [bind (tget ?t) ?k ?w] =>
      erewrite (bind_Ret (tget t) k w) by (apply wtget_Ret; wget_solve)
  | |- context [bind (tmod ?t ?f) ?k ?w] =>
      erewrite (bind_Ret (tmod t f) k w) by (apply wtmod_Ret; wget_solve)
  | |- context [bind (mget ?m) ?k ?w] =>
      erewrite (bind_Ret (mget m) k w) by (apply wmget_Ret; wget_solve)
  | |- context [bind (emit ?e) ?k ?w] => rewrite (bind_Ret (emit e) k w _ _ (emit_Ret e w))
  | |- context [bind timer_read_time ?k ?w] => rewrite (bind_Ret timer_read_time k w _ _ (read_time_Ret w))
  | |- context [bind read_input ?k ?w] => rewrite (bind_Ret read_input k w _ _ (read_input_Ret w))
  | |- context [bind (sched_wake_task ?f) ?k ?w] =>
      rewrite (bind_Ret (sched_wake_task f) k w _ _ (wake_task_Ret f w))
  | |- context [bind (ret ?a) ?k ?w] => rewrite (bind_ret_l a k w)
  | |- context [bind (bind ?a ?b) ?k ?w] => rewrite (bind_bind a b k w)
  | |- context [bind (when true ?a) ?k ?w] => change (when true a) with a
  | |- context [bind (when false ?a) ?k ?w] => rewrite (bind_ret_l tt k w : bind (when false a) k w = _)
  end; cbv beta; autorewrite with wput.
