(* ===== verification/Stepper.v ===== *)
(** * Stepper control

    src/stepper.c except for the command that connects a stepper to a trigger
    ([Trsync]).  The three step functions are selected by the build configuration
    as in the source. *)

From S2P Require Import Prelude Command Sched Basecmd World.

Definition MF_DIR : Z := 1.
Definition POSITION_BIAS : Z := 1073741824.

Definition SF_LAST_DIR : Z := 1.
Definition SF_NEXT_DIR : Z := 2.
Definition SF_INVERT_STEP : Z := 4.
Definition SF_NEED_RESET : Z := 8.
Definition SF_SINGLE_SCHED : Z := 16.
Definition SF_HAVE_ADD : Z := 32.
Definition AVR_STEP_INSNS : Z := 40.

Section stepper.
Context {cfg : Config} {tgt : Target} (sizeof_stepper_move : Z).

Definition HAVE_SINGLE_SCHEDULE : bool :=
  CONFIG_INLINE_STEPPER_HACK && (CONFIG_HAVE_STEPPER_BOTH_EDGE || CONFIG_MACH_AVR).
Definition HAVE_EDGE_OPTIMIZATION : bool :=
  CONFIG_INLINE_STEPPER_HACK && CONFIG_HAVE_STEPPER_BOTH_EDGE.
Definition HAVE_AVR_OPTIMIZATION : bool :=
  CONFIG_INLINE_STEPPER_HACK && negb CONFIG_HAVE_STEPPER_BOTH_EDGE && CONFIG_MACH_AVR.

(** [&s->time]. *)
Definition step_timer (oid : Z) : tid := T_obj oid 0.

(** [container_of(mn, struct stepper_move, node)]. *)
Definition get_step_move (mn : Z) : M world stepper_move :=
  p <- mget_pay mn ;;
  match p with P_step m => ret m | _ => stuck end.

Definition single_sched (s : stepper) : bool :=
  HAVE_SINGLE_SCHEDULE && has (s_flags s) SF_SINGLE_SCHED.

Definition stepper_load_next (oid : Z) : M world Z :=
  s <- oget oid ;;
  if move_queue_empty (s_mq s) then
    omod oid (fun s => s <| s_count := 0 |>) ;;
    ret SF_DONE
  else
    '(mq, mn) <- move_queue_pop (s_mq s) ;;
    omod oid (fun s => s <| s_mq := mq |>) ;;
    m <- get_step_move mn ;;
    omod oid (fun s => s <| s_add := sm_add m |>) ;;
    omod oid (fun s => s <| s_interval := u32 (sm_interval m + sm_add m) |>) ;;
    s <- oget oid ;;
    (if single_sched s then
       tmod (step_timer oid) (fun t =>
         t <| t_waketime := u32 (t_waketime t + sm_interval m) |>) ;;
       when HAVE_AVR_OPTIMIZATION
         (omod oid (fun s => s <| s_flags :=
            if negb (sm_add m =? 0) then Z.lor (s_flags s) SF_HAVE_ADD
            else clear (s_flags s) SF_HAVE_ADD |>)) ;;
       omod oid (fun s => s <| s_count := sm_count m |>)
     else
       omod oid (fun s => s <| s_next_step_time :=
         u32 (s_next_step_time s + sm_interval m) |>) ;;
       s <- oget oid ;;
       tmod (step_timer oid) (fun t => t <| t_waketime := s_next_step_time s |>) ;;
       omod oid (fun s => s <| s_count := u32 (sm_count m * 2) |>)) ;;
    (if has (sm_flags m) MF_DIR then
       omod oid (fun s => s <| s_position := u32 (- s_position s + sm_count m) |>) ;;
       s <- oget oid ;;
       gpio_out_toggle_noirq (s_dir_pin s)
     else
       omod oid (fun s => s <| s_position := u32 (s_position s + sm_count m) |>)) ;;
    move_free mn ;;
    ret SF_RESCHEDULE.

(** Step on each step pin edge. *)
Definition stepper_event_edge (oid : Z) : M world Z :=
  s <- oget oid ;;
  gpio_out_toggle_noirq (s_step_pin s) ;;
  let count := u32 (s_count s - 1) in
  if negb (count =? 0) then
    omod oid (fun s => s <| s_count := count |>) ;;
    tmod (step_timer oid) (fun t =>
      t <| t_waketime := u32 (t_waketime t + s_interval s) |>) ;;
    omod oid (fun s => s <| s_interval := u32 (s_interval s + s_add s) |>) ;;
    ret SF_RESCHEDULE
  else stepper_load_next oid.

(** AVR optimised step function: [count] is the low half of [s->count]. *)
Definition stepper_event_avr (oid : Z) : M world Z :=
  s <- oget oid ;;
  gpio_out_toggle_noirq (s_step_pin s) ;;
  let count := u16 (u16 (s_count s) - 1) in
  if negb (count =? 0) then
    omod oid (fun s => s <| s_count := s_count s - u16 (s_count s) + count |>) ;;
    tmod (step_timer oid) (fun t =>
      t <| t_waketime := u32 (t_waketime t + s_interval s) |>) ;;
    gpio_out_toggle_noirq (s_step_pin s) ;;
    when (has (s_flags s) SF_HAVE_ADD)
      (omod oid (fun s => s <| s_interval := u32 (s_interval s + s_add s) |>)) ;;
    ret SF_RESCHEDULE
  else
    r <- stepper_load_next oid ;;
    gpio_out_toggle_noirq (s_step_pin s) ;;
    ret r.

(** The label [reschedule_min] of [stepper_event_full]. *)
Definition reschedule_min (oid min_next_time : Z) : M world Z :=
  tmod (step_timer oid) (fun t => t <| t_waketime := min_next_time |>) ;;
  ret SF_RESCHEDULE.

(** Regular "double scheduled" step function. *)
Definition stepper_event_full (oid : Z) : M world Z :=
  s <- oget oid ;;
  gpio_out_toggle_noirq (s_step_pin s) ;;
  curtime <- timer_read_time ;;
  let min_next_time := u32 (curtime + s_step_pulse_ticks s) in
  omod oid (fun s => s <| s_count := u32 (s_count s - 1) |>) ;;
  s <- oget oid ;;
  if has (s_count s) 1 then reschedule_min oid min_next_time
  else if negb (s_count s =? 0) then
    omod oid (fun s => s <| s_next_step_time :=
      u32 (s_next_step_time s + s_interval s) |>) ;;
    omod oid (fun s => s <| s_interval := u32 (s_interval s + s_add s) |>) ;;
    s <- oget oid ;;
    if timer_is_before (s_next_step_time s) min_next_time
    then reschedule_min oid min_next_time
    else
      tmod (step_timer oid) (fun t => t <| t_waketime := s_next_step_time s |>) ;;
      ret SF_RESCHEDULE
  else
    r <- stepper_load_next oid ;;
    t <- tget (step_timer oid) ;;
    if (r =? SF_DONE) || negb (timer_is_before (t_waketime t) min_next_time) then ret r
    else
      let diff := i32 (u32 (t_waketime t - min_next_time)) in
      if diff <? i32 (u32 (- timer_from_us 1000)) then shutdown "Stepper too far in past"
      else reschedule_min oid min_next_time.

Definition stepper_event (oid : Z) : M world Z :=
  if HAVE_EDGE_OPTIMIZATION then stepper_event_edge oid
  else if HAVE_AVR_OPTIMIZATION then stepper_event_avr oid
  else stepper_event_full oid.

(** ** Commands *)

Definition stepper_zero : stepper :=
  mk_stepper 0 0 0 0 0 0 0 0 mq_empty_head false None 0.

Definition set_step_func (oid : Z) : M world unit :=
  tmod (step_timer oid) (fun t => t <| t_func := Some F_stepper_event_full |>).

Definition command_config_stepper (args : list Z) : M world unit :=
  oid <- obj_alloc (nthZ args 0) OT_stepper stepper_zero [0] ;;
  let invert_step := i8 (nthZ args 3) in
  omod oid (fun s => s <| s_flags := if 0 <? invert_step then SF_INVERT_STEP else 0 |>) ;;
  s <- oget oid ;;
  step_pin <- gpio_out_setup (nthZ args 1) (Z.land (s_flags s) SF_INVERT_STEP) ;;
  omod oid (fun s => s <| s_step_pin := step_pin |>) ;;
  dir_pin <- gpio_out_setup (nthZ args 2) 0 ;;
  omod oid (fun s => s <| s_dir_pin := dir_pin |>) ;;
  omod oid (fun s => s <| s_position := u32 (- POSITION_BIAS) |>) ;;
  omod oid (fun s => s <| s_step_pulse_ticks := nthZ args 4 |>) ;;
  mq <- move_queue_setup sizeof_stepper_move ;;
  omod oid (fun s => s <| s_mq := mq |>) ;;
  s <- oget oid ;;
  let set_single := omod oid (fun s => s <| s_flags := Z.lor (s_flags s) SF_SINGLE_SCHED |>) in
  if HAVE_EDGE_OPTIMIZATION then
    if (s_step_pulse_ticks s =? 0) && (invert_step <? 0) then set_single
    else set_step_func oid
  else if HAVE_AVR_OPTIMIZATION then
    if s_step_pulse_ticks s <=? AVR_STEP_INSNS then set_single else set_step_func oid
  else when (negb CONFIG_INLINE_STEPPER_HACK) (set_step_func oid).

Definition stepper_oid_lookup (oid : Z) : M world Z := oid_lookup oid OT_stepper.

Definition command_queue_step (args : list Z) : M world unit :=
  oid <- stepper_oid_lookup (nthZ args 0) ;;
  mn <- move_alloc ;;
  let m := mk_step_move (nthZ args 1) 0 (u16 (nthZ args 2)) 0 in
  if sm_count m =? 0 then
    shutdown "Invalid count parameter"
  else
  let m := m <| sm_add := i16 (nthZ args 3) |> in
  s <- oget oid ;;
  let flags := s_flags s in
  let turn := negb (eqb (has flags SF_LAST_DIR) (has flags SF_NEXT_DIR)) in
  let flags := if turn then Z.lxor flags SF_LAST_DIR else flags in
  let m := if turn then m <| sm_flags := Z.lor (sm_flags m) MF_DIR |> else m in
  mset_pay mn (P_step m) ;;
  if negb (s_count s =? 0) then
    omod oid (fun s => s <| s_flags := flags |>) ;;
    '(mq, _) <- move_queue_push mn (s_mq s) ;;
    omod oid (fun s => s <| s_mq := mq |>)
  else if has flags SF_NEED_RESET then move_free mn
  else
    omod oid (fun s => s <| s_flags := flags |>) ;;
    '(mq, _) <- move_queue_push mn (s_mq s) ;;
    omod oid (fun s => s <| s_mq := mq |>) ;;
    stepper_load_next oid ;;
    sched_add_timer (step_timer oid).

Definition command_set_next_step_dir (args : list Z) : M world unit :=
  oid <- stepper_oid_lookup (nthZ args 0) ;;
  let nextdir := if negb (nthZ args 1 =? 0) then SF_NEXT_DIR else 0 in
  omod oid (fun s => s <| s_flags := Z.lor (clear (s_flags s) SF_NEXT_DIR) nextdir |>).

Definition command_reset_step_clock (args : list Z) : M world unit :=
  oid <- stepper_oid_lookup (nthZ args 0) ;;
  let waketime := nthZ args 1 in
  s <- oget oid ;;
  if negb (s_count s =? 0) then shutdown "Can't reset time when stepper active"
  else
    tmod (step_timer oid) (fun t => t <| t_waketime := waketime |>) ;;
    omod oid (fun s => s <| s_next_step_time := waketime |>) ;;
    omod oid (fun s => s <| s_flags := clear (s_flags s) SF_NEED_RESET |>).

(** [stepper_get_position]; the top bit of [s->position] flags the reverse
    direction. *)
Definition stepper_get_position (s : stepper) : Z :=
  let position := if single_sched s then u32 (s_position s - s_count s)
                  else u32 (s_position s - s_count s / 2) in
  if has position 2147483648 then u32 (- position) else position.

Definition command_stepper_get_position (args : list Z) : M world unit :=
  let oid := u8 (nthZ args 0) in
  oid <- stepper_oid_lookup oid ;;
  s <- oget oid ;;
  let position := stepper_get_position s in
  sendf "stepper_position oid=%c pos=%i"
    [VA_int oid; VA_int (u32 (position - POSITION_BIAS))].

(** The loop that frees the queue in [stepper_stop]. *)
Fixpoint free_queue (fuel : nat) (oid : Z) : M world unit :=
  s <- oget oid ;;
  if move_queue_empty (s_mq s) then ret tt
  else match fuel with
  | O => stuck
  | S fuel =>
      '(mq, mn) <- move_queue_pop (s_mq s) ;;
      omod oid (fun s => s <| s_mq := mq |>) ;;
      move_free mn ;;
      free_queue fuel oid
  end.

(** [stepper_stop] of the stepper [oid]; the pool bounds the queue. *)
Definition stepper_stop (oid : Z) (reason : Z) : M world unit :=
  sched_del_timer (step_timer oid) ;;
  tmod (step_timer oid) (fun t => t <| t_waketime := 0 |>) ;;
  omod oid (fun s => s <| s_next_step_time := 0 |>) ;;
  omod oid (fun s => s <| s_position := u32 (- stepper_get_position s) |>) ;;
  omod oid (fun s => s <| s_count := 0 |>) ;;
  omod oid (fun s => s <| s_flags :=
    Z.lor (Z.land (s_flags s) (Z.lor SF_INVERT_STEP SF_SINGLE_SCHED)) SF_NEED_RESET |>) ;;
  s <- oget oid ;;
  gpio_out_write (s_dir_pin s) 0 ;;
  when (negb (HAVE_EDGE_OPTIMIZATION && has (s_flags s) SF_SINGLE_SCHED))
    (gpio_out_write (s_step_pin s) (Z.land (s_flags s) SF_INVERT_STEP)) ;;
  fuel <- bget (fun b => size (moves b)) ;;
  free_queue fuel oid.

Definition stepper_shutdown : M world unit :=
  foreach_oid OT_stepper (fun oid =>
    omod oid (fun s => s <| s_mq := move_queue_clear (s_mq s) |>) ;;
    stepper_stop oid 0).
End stepper.
