(* ===== verification/StepperFacts.v ===== *)
(** * Properties of stepper control

    The step times of a queued move, the tracking of the position across moves and
    changes of direction, and the effect of a stop. *)

From S2P Require Import Prelude Command Sched SchedFacts Basecmd BasecmdFacts World WorldFacts Stepper.

(** The time of step [k] (from 1) of a move that starts at [t0]. *)
Definition step_time (t0 interval add k : Z) : Z :=
  t0 + interval * k + add * (k * (k - 1) / 2).

Lemma step_time_succ t0 interval add k :
  step_time t0 interval add (k + 1) = step_time t0 interval add k + (interval + add * k).
Proof.
  unfold step_time. replace ((k + 1) * (k + 1 - 1)) with (k * (k - 1) + k * 2) by lia.
  rewrite Z.div_add by lia. lia.
Qed.

Lemma step_time_one t0 interval add : step_time t0 interval add 1 = t0 + interval.
Proof. unfold step_time. change (1 * (1 - 1) / 2) with 0. lia. Qed.

Section edge.
Context {cfg : Config}.

(** The world in which the stepper [oid] is [s] and its timer is [tv]. *)
Definition step_view (w : world) (oid : Z) (s : stepper) (tv : timer) : Prop :=
  obj_at w oid = Some (O_stepper s) /\ timer_at w (step_timer oid) = Some tv.

Lemma edge_event_mid oid s tv w :
  step_view w oid s tv -> 1 < s_count s < 4294967296 ->
  stepper_event_edge oid w = Ret SF_RESCHEDULE
    (put_event (Ev_out_toggle (s_step_pin s))
      (put_timer (step_timer oid) (tv <| t_waketime := u32 (t_waketime tv + s_interval s) |>)
        (put_obj oid (O_stepper (s <| s_count := s_count s - 1 |>
                                   <| s_interval := u32 (s_interval s + s_add s) |>)) w))).
Proof.
  intros [Hs Ht] Hc. unfold stepper_event_edge. wstep. unfold gpio_out_toggle_noirq.
  wstep. rewrite u32_small by lia. destruct (Z.eqb_spec (s_count s - 1) 0); [lia|].
  cbn [negb]. wstep. wstep. wstep. done.
Qed.

(** ** Loading the next move *)

(** The stepper after loading the move [m]. *)
Definition loaded (m : stepper_move) (mq : move_queue_head) (s : stepper) : stepper :=
  let s := s <| s_mq := mq |> <| s_add := sm_add m |>
             <| s_interval := u32 (sm_interval m + sm_add m) |> in
  let s := if single_sched s then
      (if HAVE_AVR_OPTIMIZATION then
         s <| s_flags := if negb (sm_add m =? 0) then Z.lor (s_flags s) SF_HAVE_ADD
                         else clear (s_flags s) SF_HAVE_ADD |>
       else s) <| s_count := sm_count m |>
    else s <| s_next_step_time := u32 (s_next_step_time s + sm_interval m) |>
           <| s_count := u32 (sm_count m * 2) |> in
  s <| s_position := if has (sm_flags m) MF_DIR then u32 (- s_position s + sm_count m)
                     else u32 (s_position s + sm_count m) |>.

Definition loaded_timer (m : stepper_move) (s : stepper) (tv : timer) : timer :=
  tv <| t_waketime := if single_sched s then u32 (t_waketime tv + sm_interval m)
                      else u32 (s_next_step_time s + sm_interval m) |>.

(** The first move of the stepper's queue is [m], in node [mn]. *)
Definition next_move (w : world) (s : stepper) (mn : Z) (m : stepper_move) (q : list Z) : Prop :=
  mq_rep (pool_of w) (s_mq s) (mn :: q) /\
  exists v, pool_of w !! mn = Some v /\ mv_pay v = Some (P_step m).

Lemma load_next_run oid s tv w mn m q :
  step_view w oid s tv -> next_move w s mn m q ->
  exists mq h, let w' := put_timer (step_timer oid) (loaded_timer m s tv)
      (put_obj oid (O_stepper (loaded m mq s)) w) in
    stepper_load_next oid w = Ret SF_RESCHEDULE (put_pool h (Some mn)
      (if has (sm_flags m) MF_DIR then put_event (Ev_out_toggle (s_dir_pin s)) w' else w')) /\
    mq_rep (pool_of w) mq q /\
    h = <[mn := mk_move (move_free_list (w_base w)) (Some (P_step m))]> (pool_of w).
Proof.
  intros [Hs Ht] [Hq (v & Hv & Hp)].
  destruct (move_queue_pop_run (PB := world_base) mn (s_mq s) q w Hq)
    as (v' & mq & Hv' & Hpop & Hq').
  exists mq. eexists. cbn zeta. split; [|split; [exact Hq'|reflexivity]].
  unfold stepper_load_next. wstep.
  destruct Hq as [[Efirst _] _]. unfold move_queue_empty. rewrite Efirst.
  rewrite (bind_Ret _ _ _ _ _ Hpop). wstep.
  assert (Hget : forall k (w0 : world), pool_of w0 = pool_of w ->
    bind (get_step_move mn) k w0 = k m w0 :> outcome world Z).
  { intros k w0 E. unfold get_step_move, mget_pay, bind.
    rewrite (wmget_Ret mn v) by (by rewrite E). rewrite Hp. done. }
  rewrite Hget by done. wstep. wstep. wstep.
  set (s1 := s <| s_mq := mq |> <| s_add := sm_add m |>
               <| s_interval := u32 (sm_interval m + sm_add m) |>).
  assert (Esingle : single_sched s1 = single_sched s) by done.
  assert (Hfree : forall (w0 : world), pool_of w0 = pool_of w ->
    move_free_list (w_base w0) = move_free_list (w_base w) ->
    bind (move_free mn) (fun _ => ret SF_RESCHEDULE) w0
    = Ret SF_RESCHEDULE (put_pool
       (<[mn := mk_move (move_free_list (w_base w)) (Some (P_step m))]> (pool_of w)) (Some mn) w0)).
  { intros w0 E1 E2. rewrite (bind_Ret _ _ _ _ _ (wmove_free_Ret mn v w0 ltac:(by rewrite E1))).
    by rewrite E1, E2, Hp. }
  unfold loaded, loaded_timer, gpio_out_toggle_noirq. fold s1. cbv zeta. rewrite Esingle.
  destruct (single_sched s) eqn:Esg; [destruct HAVE_AVR_OPTIMIZATION|];
    destruct (has (sm_flags m) MF_DIR); repeat wstep; by rewrite Hfree.
Qed.

(** ** Step times *)

(** The timer of the stepper expires [n] times: the times it was set to. *)
Fixpoint expirations (ev : M world Z) (oid : Z) (n : nat) : M world (list Z) :=
  match n with
  | O => ret []
  | S n =>
      t <- tget (step_timer oid) ;;
      ev ;;
      rest <- expirations ev oid n ;;
      ret (t_waketime t :: rest)
  end.

(** The stepper is about to take step [i] of a move. *)
Definition at_step (t0 interval add i c : Z) (s : stepper) (tv : timer) : Prop :=
  s_count s = c /\ s_add s = add /\ s_interval s = u32 (interval + add * i) /\
  t_waketime tv = u32 (step_time t0 interval add i).

Lemma edge_expirations n t0 interval add i c oid s tv w :
  step_view w oid s tv -> at_step t0 interval add i c s tv ->
  Z.of_nat n < c < 4294967296 ->
  exists s' tv' w', expirations (stepper_event_edge oid) oid n w
      = Ret ((fun k => u32 (step_time t0 interval add k)) <$> seqZ i (Z.of_nat n)) w' /\
    step_view w' oid s' tv' /\ at_step t0 interval add (i + Z.of_nat n) (c - Z.of_nat n) s' tv' /\
    trace w' = trace w ++ repeat (Ev_out_toggle (s_step_pin s)) n.
Proof.
  revert i c s tv w. induction n as [|n IH]; intros i c s tv w Hv (Hc & Ha & Hi & Ht) Hn.
  - exists s, tv, w. rewrite Z.add_0_r, Z.sub_0_r. simpl. rewrite app_nil_r. by repeat split; try apply Hv.
  - cbn [expirations]. rewrite (bind_Ret _ _ _ _ _ (wtget_Ret _ _ _ (proj2 Hv))).
    rewrite (bind_Ret _ _ _ _ _ (edge_event_mid oid s tv w Hv ltac:(lia))).
    match goal with |- context [put_event ?e ?w0] => set (w1 := put_event e w0) end.
    set (s1 := s <| s_count := s_count s - 1 |> <| s_interval := u32 (s_interval s + s_add s) |>).
    set (tv1 := tv <| t_waketime := u32 (t_waketime tv + s_interval s) |>).
    assert (Hv1 : step_view w1 oid s1 tv1).
    { destruct Hv as [Ho Htv]. split; unfold w1.
      - autorewrite with wget. by eapply obj_at_put.
      - by autorewrite with wget. }
    assert (Hat : at_step t0 interval add (i + 1) (c - 1) s1 tv1).
    { split; [simpl; lia|]. split; [done|]. unfold s1, tv1. simpl. rewrite Ha, Hi, Ht.
      rewrite step_time_succ. split; wrap_lia. }
    destruct (IH (i + 1) (c - 1) s1 tv1 w1 Hv1 Hat) as (s' & tv' & w' & Hrun & Hv' & Hat' & Htr); [lia|].
    exists s', tv', w'. rewrite (bind_Ret _ _ _ _ _ Hrun). split; [|split; [done|split]].
    + rewrite (seqZ_cons i) by lia. cbn [fmap list_fmap]. unfold ret. rewrite Ht.
      do 3 f_equal; f_equal; lia.
    + replace (i + Z.of_nat (S n)) with (i + 1 + Z.of_nat n) by lia.
      by replace (c - Z.of_nat (S n)) with (c - 1 - Z.of_nat n) by lia.
    + rewrite Htr. unfold w1. autorewrite with wget. rewrite <- app_assoc. done.
Qed.

(** ** The double scheduled variant *)

Lemma has_one z : has z 1 = Z.odd z.
Proof.
  unfold has. change 1 with (Z.ones 1) at 1. rewrite Z.land_ones, Zmod_odd by lia.
  by destruct (Z.odd z).
Qed.

(** The stepper is about to take step [i] of a move; [c] steps are left. *)
Definition at_full (t0 interval add i c : Z) (s : stepper) : Prop :=
  s_count s = 2 * c /\ s_add s = add /\ s_interval s = u32 (interval + add * i) /\
  s_next_step_time s = u32 (step_time t0 interval add i).

Lemma full_step_event oid s tv w c :
  step_view w oid s tv -> s_count s = 2 * c -> 0 < c < 2147483648 ->
  stepper_event_full oid w = Ret SF_RESCHEDULE
    (tick (put_event (Ev_out_toggle (s_step_pin s))
      (put_timer (step_timer oid)
        (tv <| t_waketime := u32 (clock_now w + s_step_pulse_ticks s) |>)
        (put_obj oid (O_stepper (s <| s_count := 2 * c - 1 |>)) w)))).
Proof.
  intros [Hs Ht] Hc Hr. unfold stepper_event_full, gpio_out_toggle_noirq, reschedule_min.
  wstep. wstep. wstep. wstep. wstep. cbn [s_count upd]. rewrite Hc, u32_small by lia.
  rewrite has_one. replace (Z.odd (2 * c - 1)) with true.
  2: { replace (2 * c - 1) with (1 + 2 * (c - 1)) by lia. rewrite Z.odd_add_mul_2. done. }
  wstep. done.
Qed.

Lemma full_unstep_event oid s tv w c :
  step_view w oid s tv -> s_count s = 2 * c + 1 -> 0 < c < 2147483647 ->
  let min := u32 (clock_now w + s_step_pulse_ticks s) in
  let next := u32 (s_next_step_time s + s_interval s) in
  stepper_event_full oid w = Ret SF_RESCHEDULE
    (tick (put_event (Ev_out_toggle (s_step_pin s))
      (put_timer (step_timer oid)
        (tv <| t_waketime := if timer_is_before next min then min else next |>)
        (put_obj oid (O_stepper (s <| s_count := 2 * c |> <| s_next_step_time := next |>
           <| s_interval := u32 (s_interval s + s_add s) |>)) w)))).
Proof.
  intros [Hs Ht] Hc Hr min next. unfold stepper_event_full, gpio_out_toggle_noirq, reschedule_min.
  wstep. wstep. wstep. wstep. wstep. cbn [s_count upd]. rewrite Hc, u32_small by lia.
  replace (2 * c + 1 - 1) with (2 * c) by lia. rewrite has_one.
  replace (Z.odd (2 * c)) with false by (rewrite Z.odd_mul; done).
  destruct (Z.eqb_spec (2 * c) 0); [lia|]. cbn [negb]. wstep. wstep. wstep.
  cbn [s_next_step_time s_interval upd]. fold next. change (clock_now _) with (clock_now w).
  fold min. destruct (timer_is_before next min); wstep; done.
Qed.

(** A step happens at its nominal time, or as soon as the step pulse allows. *)
Definition wake_ok (nominal pulse : Z) (tv : timer) : Prop :=
  t_waketime tv = nominal \/
  exists clk, t_waketime tv = u32 (clk + pulse) /\ timer_is_before nominal (t_waketime tv) = true.

Lemma full_expirations n t0 interval add i c oid s tv w :
  step_view w oid s tv -> at_full t0 interval add i c s ->
  Z.of_nat n < c < 2147483647 ->
  (n <> 0%nat \/ wake_ok (u32 (step_time t0 interval add i)) (s_step_pulse_ticks s) tv) ->
  exists l s' tv' w', expirations (stepper_event_full oid) oid (n * 2) w = Ret l w' /\
    step_view w' oid s' tv' /\ at_full t0 interval add (i + Z.of_nat n) (c - Z.of_nat n) s' /\
    wake_ok (u32 (step_time t0 interval add (i + Z.of_nat n))) (s_step_pulse_ticks s') tv' /\
    trace w' = trace w ++ repeat (Ev_out_toggle (s_step_pin s)) (n * 2).
Proof.
  revert i c s tv w. induction n as [|n IH]; intros i c s tv w Hv Hat Hn Hwk.
  - exists [], s, tv, w. rewrite Z.add_0_r, Z.sub_0_r. simpl. rewrite app_nil_r.
    split; [done|]. split; [done|]. split; [done|]. split; [|done].
    by destruct Hwk as [Hwk|].
  - destruct Hat as (Hc & Ha & Hi & Ht). cbn [Nat.mul Nat.add expirations].
    rewrite (bind_Ret _ _ _ _ _ (wtget_Ret _ _ _ (proj2 Hv))).
    rewrite (bind_Ret _ _ _ _ _ (full_step_event oid s tv w c Hv Hc ltac:(lia))).
    match goal with |- context [tick ?w0] => set (w1 := tick w0) end.
    match type of Hv with step_view _ _ _ _ => idtac end.
    set (s1 := s <| s_count := 2 * c - 1 |>).
    set (tv1 := tv <| t_waketime := u32 (clock_now w + s_step_pulse_ticks s) |>).
    assert (Hv1 : step_view w1 oid s1 tv1).
    { destruct Hv as [Ho Htv]. split; unfold w1.
      - autorewrite with wget. by eapply obj_at_put.
      - by autorewrite with wget. }
    rewrite bind_bind, (bind_Ret _ _ _ _ _ (wtget_Ret _ _ _ (proj2 Hv1))), bind_bind.
    assert (Hc1 : s_count s1 = 2 * (c - 1) + 1) by (simpl; lia).
    rewrite (bind_Ret _ _ _ _ _ (full_unstep_event oid s1 tv1 w1 (c - 1) Hv1 Hc1 ltac:(lia))).
    set (min := u32 (clock_now w1 + s_step_pulse_ticks s1)).
    set (next := u32 (s_next_step_time s1 + s_interval s1)).
    match goal with |- context [tick ?w0] => set (w2 := tick w0) end.
    set (s2 := s1 <| s_count := 2 * (c - 1) |> <| s_next_step_time := next |>
           <| s_interval := u32 (s_interval s1 + s_add s1) |>).
    set (tv2 := tv1 <| t_waketime := if timer_is_before next min then min else next |>).
    assert (Hv2 : step_view w2 oid s2 tv2).
    { destruct Hv1 as [Ho Htv]. split; unfold w2.
      - autorewrite with wget. by eapply obj_at_put.
      - by autorewrite with wget. }
    assert (Enext : next = u32 (step_time t0 interval add (i + 1))).
    { unfold next, s1. simpl. rewrite Ht, Hi, step_time_succ. wrap_lia. }
    assert (Hat2 : at_full t0 interval add (i + 1) (c - 1) s2).
    { split; [done|]. split; [done|]. split; [|done].
      unfold s2, s1. simpl. rewrite Ha, Hi. wrap_lia. }
    assert (Hwk2 : wake_ok (u32 (step_time t0 interval add (i + 1))) (s_step_pulse_ticks s2) tv2).
    { rewrite <- Enext. unfold wake_ok, tv2. simpl. destruct (timer_is_before next min) eqn:E.
      - right. exists (clock_now w1). split; [done|]. by rewrite E.
      - by left. }
    destruct (IH (i + 1) (c - 1) s2 tv2 w2 Hv2 Hat2 ltac:(lia) (or_intror Hwk2))
      as (l & s' & tv' & w' & Hrun & Hv' & Hat' & Hwk' & Htr).
    eexists _, s', tv', w'. rewrite bind_bind, (bind_Ret _ _ _ _ _ Hrun), !bind_ret_l.
    split; [reflexivity|]. split; [done|].
    replace (i + Z.of_nat (S n)) with (i + 1 + Z.of_nat n) by lia.
    replace (c - Z.of_nat (S n)) with (c - 1 - Z.of_nat n) by lia.
    split; [done|]. split; [done|].
    rewrite Htr. unfold w2, w1. autorewrite with wget. rewrite <- !app_assoc. done.
Qed.

(** ** Position *)

(** Steps of the current move that are not taken yet. *)
Definition remaining (s : stepper) : Z :=
  if single_sched s then s_count s else s_count s / 2.

Definition dir_sign (fwd : bool) : Z := if fwd then 1 else -1.

(** [s->position] encodes the position at the end of the current move, negated
    while moving backwards; [cur] is the position now, as the host counts it. *)
Definition pos_inv (s : stepper) (fwd : bool) (cur : Z) : Prop :=
  let target := cur + dir_sign fwd * remaining s in
  -1073741824 < cur < 1073741824 /\ -1073741824 < target < 1073741824 /\
  0 <= remaining s /\
  s_position s = u32 (dir_sign fwd * (POSITION_BIAS + target)).

Lemma has_top p : 0 <= p < 4294967296 -> has p 2147483648 = (2147483648 <=? p).
Proof.
  intros Hp. unfold has. destruct (Z.leb_spec 2147483648 p) as [Hge|Hlt].
  - destruct (Z.eqb_spec (Z.land p 2147483648) 0) as [E|]; [|done].
    assert (Hb : Z.testbit (Z.land p 2147483648) 31 = false) by (by rewrite E).
    rewrite Z.land_spec in Hb. change (Z.testbit 2147483648 31) with true in Hb.
    rewrite andb_true_r in Hb. apply Z.testbit_false in Hb; [|lia].
    change (2 ^ 31) with 2147483648 in Hb. Z.div_mod_to_equations; lia.
  - pose proof (land_shiftl_small 1 31 p) as E. rewrite Z.land_comm in E.
    change (Z.shiftl 1 31) with 2147483648 in E. rewrite E; [done|lia|].
    change (2 ^ 31) with 2147483648. lia.
Qed.

Lemma get_position_spec s fwd cur :
  pos_inv s fwd cur -> stepper_get_position s = POSITION_BIAS + cur.
Proof.
  intros (Hcur & Htg & Hr & Hp). unfold stepper_get_position.
  assert (E : (if single_sched s then u32 (s_position s - s_count s)
               else u32 (s_position s - s_count s / 2)) = u32 (s_position s - remaining s)).
  { unfold remaining. by destruct (single_sched s). }
  rewrite E, Hp. cbn zeta. rewrite has_top by auto with width. unfold POSITION_BIAS in *.
  destruct fwd; simpl dir_sign in *.
  - replace (u32 _) with (1073741824 + cur) by wrap_lia.
    destruct (Z.leb_spec 2147483648 (1073741824 + cur)); [lia|done].
  - replace (u32 (u32 _ - _)) with (3221225472 - cur) by wrap_lia.
    destruct (Z.leb_spec 2147483648 (3221225472 - cur)); [wrap_lia|lia].
Qed.

Lemma single_flag f : has (Z.lor f SF_HAVE_ADD) SF_SINGLE_SCHED = has f SF_SINGLE_SCHED /\
  has (clear f SF_HAVE_ADD) SF_SINGLE_SCHED = has f SF_SINGLE_SCHED.
Proof.
  unfold has, clear. split.
  - rewrite Z.land_lor_distr_l. change (Z.land SF_HAVE_ADD SF_SINGLE_SCHED) with 0.
    by rewrite Z.lor_0_r.
  - rewrite Z.ldiff_land, <- Z.land_assoc.
    by change (Z.land (Z.lnot SF_HAVE_ADD) SF_SINGLE_SCHED) with SF_SINGLE_SCHED.
Qed.

Lemma single_loaded m mq s : single_sched (loaded m mq s) = single_sched s.
Proof.
  unfold loaded. cbn zeta.
  set (s1 := s <| s_mq := mq |> <| s_add := sm_add m |> <| s_interval := _ |>).
  assert (E : single_sched s1 = single_sched s) by done. rewrite E.
  destruct (single_sched s) eqn:Es; [|by rewrite <- E in Es].
  unfold single_sched in *. cbn [s_flags upd] in *. destruct HAVE_AVR_OPTIMIZATION; [|done].
  cbn [s_flags upd]. destruct (single_flag (s_flags s1)) as [E1 E2].
  destruct (negb (sm_add m =? 0)); [rewrite E1|rewrite E2]; done.
Qed.

Lemma remaining_loaded m mq s :
  0 <= sm_count m < 65536 -> remaining (loaded m mq s) = sm_count m.
Proof.
  intros Hc. unfold remaining. rewrite single_loaded. unfold loaded. cbn zeta.
  set (s1 := s <| s_mq := mq |> <| s_add := sm_add m |> <| s_interval := _ |>).
  assert (E : single_sched s1 = single_sched s) by done. rewrite E.
  destruct (single_sched s); [by destruct HAVE_AVR_OPTIMIZATION|]. cbn [s_count upd].
  rewrite u32_small by lia. rewrite Z.div_mul; lia.
Qed.

(** A valid move for a stepper at [cur] moving in direction [fwd]. *)
Definition move_fits (m : stepper_move) (fwd : bool) (cur : Z) : Prop :=
  0 < sm_count m < 65536 /\
  -1073741824 < cur + dir_sign (xorb fwd (has (sm_flags m) MF_DIR)) * sm_count m < 1073741824.

Lemma loaded_position m mq s fwd cur :
  remaining s = 0 -> pos_inv s fwd cur -> move_fits m fwd cur ->
  pos_inv (loaded m mq s) (xorb fwd (has (sm_flags m) MF_DIR)) cur.
Proof.
  intros Hr (Hcur & _ & _ & Hp) [Hc Hfit]. unfold pos_inv. rewrite remaining_loaded by lia.
  split; [done|]. split; [done|]. split; [lia|].
  assert (Ep : s_position (loaded m mq s)
    = if has (sm_flags m) MF_DIR then u32 (- s_position s + sm_count m)
      else u32 (s_position s + sm_count m)).
  { unfold loaded. cbn zeta.
    set (s1 := s <| s_mq := mq |> <| s_add := sm_add m |> <| s_interval := _ |>).
    by destruct (single_sched s1), HAVE_AVR_OPTIMIZATION, (has (sm_flags m) MF_DIR). }
  rewrite Ep, Hp, Hr. unfold POSITION_BIAS.
  destruct fwd, (has (sm_flags m) MF_DIR); simpl; wrap_lia.
Qed.

(** Taking a step: the counter goes down, the position moves. *)
Lemma step_taken_position s s' fwd cur :
  pos_inv s fwd cur -> s_position s' = s_position s -> remaining s' = remaining s - 1 ->
  0 < remaining s -> pos_inv s' fwd (cur + dir_sign fwd).
Proof.
  intros (Hcur & Htg & Hr & Hp) Ep Er Hpos. unfold pos_inv. rewrite Er, Ep, Hp.
  assert (Et : cur + dir_sign fwd + dir_sign fwd * (remaining s - 1)
               = cur + dir_sign fwd * remaining s) by lia.
  rewrite Et. split; [destruct fwd; simpl in *; lia|]. split; [done|]. split; [lia|done].
Qed.

Lemma load_empty_run oid s tv w :
  step_view w oid s tv -> mq_first (s_mq s) = None ->
  stepper_load_next oid w
  = Ret SF_DONE (put_obj oid (O_stepper (s <| s_count := 0 |>)) w).
Proof.
  intros [Hs Ht] He. unfold stepper_load_next. wstep. unfold move_queue_empty. rewrite He.
  wstep. done.
Qed.

Lemma edge_event_last oid s tv w :
  step_view w oid s tv -> s_count s = 1 ->
  stepper_event_edge oid w = stepper_load_next oid (put_event (Ev_out_toggle (s_step_pin s)) w).
Proof.
  intros [Hs Ht] Hc. unfold stepper_event_edge, gpio_out_toggle_noirq. wstep. wstep.
  rewrite Hc. done.
Qed.

Lemma full_event_last oid s tv w :
  step_view w oid s tv -> s_count s = 1 ->
  stepper_event_full oid w =
    (let min := u32 (clock_now w + s_step_pulse_ticks s) in
     r <- stepper_load_next oid ;;
     t <- tget (step_timer oid) ;;
     if (r =? SF_DONE) || negb (timer_is_before (t_waketime t) min) then ret r
     else if i32 (u32 (t_waketime t - min)) <? i32 (u32 (- timer_from_us 1000))
     then shutdown "Stepper too far in past"
     else reschedule_min oid min)
    (tick (put_event (Ev_out_toggle (s_step_pin s))
       (put_obj oid (O_stepper (s <| s_count := 0 |>)) w))).
Proof.
  intros [Hs Ht] Hc. unfold stepper_event_full, gpio_out_toggle_noirq.
  wstep. wstep. wstep. wstep. wstep. cbn [s_count upd]. rewrite Hc. done.
Qed.

(** ** Properties *)

(** C3: Step times, single scheduled variant.  When a stepper loads a queued move
    (interval, add, count) with its last step at [t0], the timer expires for step
    [k] at exactly [t0 + interval*k + add*k*(k-1)/2] (modulo the 32-bit clock) for
    every [k] from 1 to [count], and every expiry is one edge on the step pin.
    The arithmetic is that of 32-bit registers with a 16-bit [add]. *)
Theorem edge_move_timing oid s tv w mn m q t0 :
  step_view w oid s tv -> single_sched s = true -> next_move w s mn m q ->
  0 < sm_count m < 65536 -> t_waketime tv = u32 t0 ->
  exists w1 s2 tv2 w2, stepper_load_next oid w = Ret SF_RESCHEDULE w1 /\
    expirations (stepper_event_edge oid) oid (Z.to_nat (sm_count m - 1)) w1
    = Ret ((fun k => u32 (step_time t0 (sm_interval m) (sm_add m) k))
             <$> seqZ 1 (sm_count m - 1)) w2 /\
    step_view w2 oid s2 tv2 /\ s_count s2 = 1 /\
    t_waketime tv2 = u32 (step_time t0 (sm_interval m) (sm_add m) (sm_count m)) /\
    trace w2 = trace w1 ++ repeat (Ev_out_toggle (s_step_pin s)) (Z.to_nat (sm_count m - 1)).
Proof.
  intros Hv Hsg Hm Hc Ht. destruct (load_next_run oid s tv w mn m q Hv Hm) as (mq & h & Hl & _ & _).
  cbn zeta in Hl. match type of Hl with _ = Ret _ ?w0 => set (w1 := w0) in * end.
  assert (Hv1 : step_view w1 oid (loaded m mq s) (loaded_timer m s tv)).
  { destruct Hv as [Ho Htv]. split; unfold w1; destruct (has (sm_flags m) MF_DIR);
      autorewrite with wget; by (done || eapply obj_at_put). }
  assert (Hat : at_step t0 (sm_interval m) (sm_add m) 1 (sm_count m) (loaded m mq s)
                  (loaded_timer m s tv)).
  { unfold loaded, loaded_timer, at_step. cbn zeta. rewrite Hsg.
    change (single_sched _) with (single_sched s). rewrite Hsg.
    destruct HAVE_AVR_OPTIMIZATION; cbn;
      (split; [done|]; split; [done|]; split; [f_equal; lia|]);
      rewrite Ht, step_time_one; wrap_lia. }
  destruct (edge_expirations (Z.to_nat (sm_count m - 1)) _ _ _ _ _ oid _ _ w1 Hv1 Hat)
    as (s2 & tv2 & w2 & Hrun & Hv2 & (Hc2 & _ & _ & Ht2) & Htr); [lia|].
  rewrite Z2Nat.id in * by lia. exists w1, s2, tv2, w2. split; [done|]. split; [done|].
  split; [done|]. split; [lia|]. split; [rewrite Ht2; do 2 f_equal; lia|]. rewrite Htr.
  do 2 f_equal. unfold loaded. cbn zeta. f_equal.
  change (single_sched _) with (single_sched s). rewrite Hsg. by destruct HAVE_AVR_OPTIMIZATION.
Qed.

(** Step times, double scheduled variant.  The nominal time of step [k] of a
    loaded move is [t0 + interval*k + add*k*(k-1)/2], whatever the clock readings
    during the move: a late or delayed event does not shift later steps.  Before
    step [k+1] the timer is set to the nominal time, or, when the previous unstep
    is less than the pulse time before it, to the earliest time the pulse allows.
    Every step is one rising and one falling edge. *)
Theorem full_move_timing oid s tv w mn m q t0 k :
  step_view w oid s tv -> single_sched s = false -> next_move w s mn m q ->
  0 < sm_count m < 65536 -> s_next_step_time s = u32 t0 ->
  0 <= k < sm_count m ->
  exists w1 l s2 tv2 w2, stepper_load_next oid w = Ret SF_RESCHEDULE w1 /\
    expirations (stepper_event_full oid) oid (Z.to_nat k * 2) w1 = Ret l w2 /\
    step_view w2 oid s2 tv2 /\ s_count s2 = 2 * (sm_count m - k) /\
    s_next_step_time s2 = u32 (step_time t0 (sm_interval m) (sm_add m) (k + 1)) /\
    wake_ok (u32 (step_time t0 (sm_interval m) (sm_add m) (k + 1)))
      (s_step_pulse_ticks s2) tv2 /\
    trace w2 = trace w1 ++ repeat (Ev_out_toggle (s_step_pin s)) (Z.to_nat k * 2).
Proof.
  intros Hv Hsg Hm Hc Ht Hk.
  destruct (load_next_run oid s tv w mn m q Hv Hm) as (mq & h & Hl & _ & _).
  cbn zeta in Hl. match type of Hl with _ = Ret _ ?w0 => set (w1 := w0) in * end.
  assert (Hv1 : step_view w1 oid (loaded m mq s) (loaded_timer m s tv)).
  { destruct Hv as [Ho Htv]. split; unfold w1; destruct (has (sm_flags m) MF_DIR);
      autorewrite with wget; by (done || eapply obj_at_put). }
  assert (Hat : at_full t0 (sm_interval m) (sm_add m) 1 (sm_count m) (loaded m mq s)).
  { unfold loaded, at_full. cbn zeta. change (single_sched _) with (single_sched s). rewrite Hsg.
    cbn. split; [rewrite u32_small; lia|]. split; [done|]. split; [f_equal; lia|].
    rewrite Ht, step_time_one. wrap_lia. }
  assert (Epin : s_step_pin (loaded m mq s) = s_step_pin s).
  { unfold loaded. cbn zeta. change (single_sched _) with (single_sched s). by rewrite Hsg. }
  assert (Hwk : wake_ok (u32 (step_time t0 (sm_interval m) (sm_add m) 1))
                  (s_step_pulse_ticks (loaded m mq s)) (loaded_timer m s tv)).
  { left. unfold loaded_timer. simpl. rewrite Hsg, Ht, step_time_one. wrap_lia. }
  destruct (full_expirations (Z.to_nat k) _ _ _ _ _ oid _ _ w1 Hv1 Hat)
    as (l & s2 & tv2 & w2 & Hrun & Hv2 & (Hc2 & _ & _ & Ht2) & Hwk2 & Htr); [lia|by right|].
  rewrite Z2Nat.id in * by lia. rewrite (Z.add_comm k 1).
  exists w1, l, s2, tv2, w2. rewrite Htr, Epin. by split_and!.
Qed.

(** The width of step pulses.  In the double scheduled variant no event of the
    stepper ever reschedules itself earlier than [step_pulse_ticks] after the clock
    reading taken right after the pin was toggled, including at the transition to
    the next move. *)
Theorem full_pulse_width oid s tv w r w' :
  step_view w oid s tv -> 0 < s_count s < 131072 ->
  (mq_first (s_mq s) = None \/ exists mn m q, next_move w s mn m q) ->
  stepper_event_full oid w = Ret r w' ->
  r = SF_DONE \/
  exists tv', timer_at w' (step_timer oid) = Some tv' /\
    timer_is_before (t_waketime tv') (u32 (clock_now w + s_step_pulse_ticks s)) = false.
Proof.
  intros Hv Hc Hq Hrun.
  assert (Hrefl : forall x, timer_is_before x x = false).
  { intros x. unfold timer_is_before. by rewrite Z.sub_diag. }
  destruct (Z.eq_dec (s_count s) 1) as [E1|E1].
  - rewrite (full_event_last oid s tv w Hv E1) in Hrun. cbn zeta in Hrun.
    set (min := u32 (clock_now w + s_step_pulse_ticks s)) in *.
    set (s0 := s <| s_count := 0 |>) in *.
    set (w0 := tick _) in Hrun.
    assert (Hv0 : step_view w0 oid s0 tv).
    { destruct Hv as [Ho Ht]. split; unfold w0; autorewrite with wget; [by eapply obj_at_put|done]. }
    destruct Hq as [He|(mn & m & q & Hm)].
    + rewrite (bind_Ret _ _ _ _ _ (load_empty_run oid s0 tv w0 Hv0 He)) in Hrun.
      destruct Hv0 as [Ho Ht].
      rewrite (bind_Ret _ _ _ _ _ (wtget_Ret (step_timer oid) tv (put_obj oid _ w0) Ht)) in Hrun.
      cbn in Hrun. left. by injection Hrun as <- _.
    + assert (Hm0 : next_move w0 s0 mn m q) by exact Hm.
      destruct (load_next_run oid s0 tv w0 mn m q Hv0 Hm0) as (mq & h & Hl & _ & _).
      cbn zeta in Hl. match type of Hl with _ = Ret _ ?x => set (w1 := x) in * end.
      assert (Ht1 : timer_at w1 (step_timer oid) = Some (loaded_timer m s0 tv)).
      { unfold w1. destruct (has (sm_flags m) MF_DIR); by autorewrite with wget. }
      rewrite (bind_Ret _ _ _ _ _ Hl), (bind_Ret _ _ _ _ _ (wtget_Ret _ _ _ Ht1)) in Hrun.
      set (tv1 := loaded_timer m s0 tv) in *. change (SF_RESCHEDULE =? SF_DONE) with false in Hrun.
      destruct (timer_is_before (t_waketime tv1) min) eqn:Eb; cbn [negb orb] in Hrun.
      * destruct (_ <? _) in Hrun; [done|]. right. unfold reschedule_min in Hrun.
        rewrite (bind_Ret _ _ _ _ _ (wtmod_Ret _ _ _ _ Ht1)) in Hrun. injection Hrun as _ <-.
        eexists. split; [by autorewrite with wget|]. apply Hrefl.
      * injection Hrun as _ <-. right. exists tv1. by split.
  - destruct (Z.even (s_count s)) eqn:Ee.
    + apply Z.even_spec in Ee as [c Ec].
      rewrite (full_step_event oid s tv w c Hv Ec) in Hrun by lia. injection Hrun as _ <-.
      right. eexists. split; [by autorewrite with wget|]. apply Hrefl.
    + assert (Eo : Z.odd (s_count s) = true) by (by rewrite <- Z.negb_even, Ee).
      apply Z.odd_spec in Eo as [c Ec].
      rewrite (full_unstep_event oid s tv w c Hv Ec) in Hrun by lia. injection Hrun as _ <-.
      right. eexists. split; [by autorewrite with wget|]. cbn [t_waketime upd].
      destruct (timer_is_before (u32 (s_next_step_time s + s_interval s)) _) eqn:Eb;
        [apply Hrefl|exact Eb].
Qed.

(** The step event that is configured, and the position after it: the full event steps
    on even counts only. *)
Definition step_event (oid : Z) (s : stepper) : M world Z :=
  if single_sched s then stepper_event_edge oid else stepper_event_full oid.
Definition after_step (s : stepper) (fwd : bool) (cur : Z) : Z :=
  if single_sched s || Z.even (s_count s) then cur + dir_sign fwd else cur.

Lemma count_step_position s s' fwd cur :
  pos_inv s fwd cur -> 0 < s_count s -> s_position s' = s_position s ->
  single_sched s' = single_sched s -> s_count s' = s_count s - 1 -> pos_inv s' fwd (after_step s fwd cur).
Proof.
  intros Hpos Hc Ep Esg Ec. unfold after_step. destruct (single_sched s) eqn:Es.
    - cbn [orb]. eapply step_taken_position; try done; unfold remaining; rewrite ?Esg, ?Es; lia.
    - cbn [orb]. destruct (Z.even (s_count s)) eqn:Ee.
      + apply Z.even_spec in Ee as [c Ecc].
        eapply step_taken_position; try done; unfold remaining; rewrite ?Esg, ?Es, ?Ec, Ecc;
          Z.div_mod_to_equations; lia.
      + assert (Eo : Z.odd (s_count s) = true) by (by rewrite <- Z.negb_even, Ee).
        apply Z.odd_spec in Eo as [c Ecc]. unfold pos_inv in *.
        assert (Er : remaining s' = remaining s).
        { unfold remaining. rewrite Esg, Es, Ec, Ecc. Z.div_mod_to_equations; lia. }
        by rewrite Er, Ep.
Qed.

Lemma step_event_mid oid s tv w fwd cur :
  step_view w oid s tv -> pos_inv s fwd cur -> 0 < s_count s < 131072 -> s_count s <> 1 ->
  exists s' tv' w', step_event oid s w = Ret SF_RESCHEDULE w' /\ step_view w' oid s' tv' /\
    pos_inv s' fwd (after_step s fwd cur).
Proof.
  intros Hv Hpos Hc Hne. unfold step_event. destruct (single_sched s) eqn:Es.
  + eexists _, _, _. split; [apply (edge_event_mid oid s tv w Hv); lia|]. split.
    * destruct Hv as [Ho Ht]. split; autorewrite with wget; [by eapply obj_at_put|done].
    * apply (count_step_position s); [done|lia|done|done|simpl; lia].
  + destruct (Z.even (s_count s)) eqn:Ee.
    * apply Z.even_spec in Ee as [c Ec]. eexists _, _, _.
      split; [apply (full_step_event oid s tv w c Hv Ec); lia|]. split.
      -- destruct Hv as [Ho Ht]. split; autorewrite with wget; [by eapply obj_at_put|done].
      -- apply (count_step_position s); [done|lia|done|done|simpl; lia].
    * assert (Eo : Z.odd (s_count s) = true) by (by rewrite <- Z.negb_even, Ee).
      apply Z.odd_spec in Eo as [c Ec]. eexists _, _, _.
      split; [apply (full_unstep_event oid s tv w c Hv Ec); lia|]. split.
      -- destruct Hv as [Ho Ht]. split; autorewrite with wget; [by eapply obj_at_put|done].
      -- apply (count_step_position s); [done|lia|done|done|simpl; lia].
Qed.

Lemma step_event_empty oid s tv w fwd cur :
  step_view w oid s tv -> pos_inv s fwd cur -> s_count s = 1 -> mq_first (s_mq s) = None ->
  exists s' tv' w', step_event oid s w = Ret SF_DONE w' /\ step_view w' oid s' tv' /\
    pos_inv s' fwd (after_step s fwd cur) /\ s_count s' = 0.
Proof.
  intros Hv Hpos E1 He.
  assert (Hp0 : pos_inv (s <| s_count := 0 |>) fwd (after_step s fwd cur)).
  { apply (count_step_position s); [done|lia|done|done|simpl; lia]. }
  unfold step_event. destruct (single_sched s) eqn:Es.
  - rewrite (edge_event_last oid s tv w Hv E1).
    assert (Hv1 : step_view (put_event (Ev_out_toggle (s_step_pin s)) w) oid s tv) by exact Hv.
    rewrite (load_empty_run oid s tv _ Hv1 He). eexists _, tv, _. split; [reflexivity|].
    split; [|by split]. destruct Hv as [Ho Ht]. split; autorewrite with wget; [by eapply obj_at_put|done].
  - rewrite (full_event_last oid s tv w Hv E1). cbn zeta.
    match goal with |- context [tick ?x] => set (w0 := tick x) end.
    assert (Hv0 : step_view w0 oid (s <| s_count := 0 |>) tv).
    { destruct Hv as [Ho Ht]. split; unfold w0; autorewrite with wget; [by eapply obj_at_put|done]. }
    rewrite (bind_Ret _ _ _ _ _ (load_empty_run oid _ tv w0 Hv0 He)).
    pose proof Hv0 as [Ho Ht].
    rewrite (bind_Ret _ _ _ _ _ (wtget_Ret (step_timer oid) tv (put_obj oid _ w0) Ht)). cbn.
    eexists _, tv, _. split; [reflexivity|]. split; [|split].
    * split; autorewrite with wget; [by eapply obj_at_put|done].
    * exact Hp0.
    * done.
Qed.

Lemma edge_event_load oid s tv w fwd cur mn m q :
  step_view w oid s tv -> pos_inv s fwd cur -> s_count s = 1 -> single_sched s = true ->
  next_move w s mn m q -> move_fits m fwd (after_step s fwd cur) ->
  exists s' tv' w', stepper_event_edge oid w = Ret SF_RESCHEDULE w' /\ step_view w' oid s' tv' /\
    pos_inv s' (xorb fwd (has (sm_flags m) MF_DIR)) (after_step s fwd cur) /\ remaining s' = sm_count m.
Proof.
  intros Hv Hpos E1 Es Hm Hfit.
  rewrite (edge_event_last oid s tv w Hv E1).
  set (w0 := put_event _ w).
  assert (Hv0 : step_view w0 oid s tv) by exact Hv.
  destruct (load_next_run oid s tv w0 mn m q Hv0 Hm) as (mq & h & Hl & _ & _).
  cbn zeta in Hl. eexists (loaded m mq s), _, _. split; [exact Hl|]. split; [|split].
  * destruct Hv as [Ho Ht]. split; destruct (has (sm_flags m) MF_DIR);
      autorewrite with wget; by (done || eapply obj_at_put).
  * pose proof (loaded_position m mq (s <| s_count := 0 |>) fwd (after_step s fwd cur)) as Hlp.
    assert (Hr0 : remaining (s <| s_count := 0 |>) = 0).
    { unfold remaining. by destruct (single_sched _). }
    assert (Hp0 : pos_inv (s <| s_count := 0 |>) fwd (after_step s fwd cur)).
    { apply (count_step_position s); [done|lia|done|done|simpl; lia]. }
    specialize (Hlp Hr0 Hp0 Hfit).
    assert (El : loaded m mq (s <| s_count := 0 |>) = loaded m mq s).
    { clear -Es. destruct s. unfold loaded, single_sched in *. cbn in Es |- *. rewrite Es.
      destruct HAVE_AVR_OPTIMIZATION; reflexivity. }
    rewrite <- El. exact Hlp.
  * apply remaining_loaded. destruct Hfit. lia.
Qed.

Lemma full_event_load oid s tv w fwd cur mn m q :
  step_view w oid s tv -> pos_inv s fwd cur -> s_count s = 1 -> single_sched s = false ->
  next_move w s mn m q -> move_fits m fwd (after_step s fwd cur) ->
  (exists reason w', stepper_event_full oid w = Shut reason w') \/
  exists s' tv' w', stepper_event_full oid w = Ret SF_RESCHEDULE w' /\ step_view w' oid s' tv' /\
    pos_inv s' (xorb fwd (has (sm_flags m) MF_DIR)) (after_step s fwd cur) /\ remaining s' = sm_count m.
Proof.
  intros Hv Hpos E1 Es Hm Hfit.
  rewrite (full_event_last oid s tv w Hv E1). cbn zeta.
  set (s0 := s <| s_count := 0 |>).
  set (w0 := tick _).
  assert (Hv0 : step_view w0 oid s0 tv).
  { destruct Hv as [Ho Ht]. split; unfold w0; autorewrite with wget; [by eapply obj_at_put|done]. }
  destruct (load_next_run oid s0 tv w0 mn m q Hv0 Hm) as (mq & h & Hl & _ & _).
  cbn zeta in Hl. match type of Hl with _ = Ret _ ?x => set (w1 := x) in * end.
  assert (Hv1 : step_view w1 oid (loaded m mq s0) (loaded_timer m s0 tv)).
  { destruct Hv0 as [Ho Ht]. split; unfold w1; destruct (has (sm_flags m) MF_DIR);
      autorewrite with wget; by (done || eapply obj_at_put). }
  rewrite (bind_Ret _ _ _ _ _ Hl), (bind_Ret _ _ _ _ _ (wtget_Ret _ _ _ (proj2 Hv1))).
  assert (Hp1 : pos_inv (loaded m mq s0) (xorb fwd (has (sm_flags m) MF_DIR)) (after_step s fwd cur)).
  { apply loaded_position; [unfold remaining; by destruct (single_sched s0)| |done].
    apply (count_step_position s); [done|lia|done|done|simpl; lia]. }
  assert (Hr1 : remaining (loaded m mq s0) = sm_count m).
  { apply remaining_loaded. destruct Hfit. lia. }
  destruct ((SF_RESCHEDULE =? SF_DONE) || _).
  * right. exists (loaded m mq s0), (loaded_timer m s0 tv), w1. by split.
  * destruct (_ <? i32 _); [left; by eexists _, _|]. right.
    unfold reschedule_min. rewrite (bind_Ret _ _ _ _ _ (wtmod_Ret _ _ _ _ (proj2 Hv1))).
    eexists (loaded m mq s0), _, _. split; [reflexivity|]. split; [|by split].
    destruct Hv1 as [Ho Ht]. split; autorewrite with wget; done.
Qed.

(** C4: The position counter.  Whenever the encoded position is consistent (it
    holds the end position of the current move, negated while moving backwards),
    [stepper_get_position] returns the biased position of the steps taken so far,
    and every step event keeps it consistent: a step moves the position by one in
    the current direction, an unstep event leaves it, loading the next move changes
    the direction exactly if the move says so, and the end of the queue leaves it.
    The 32-bit encoding is exact for positions below 2^30. *)
Theorem position_tracks_steps oid s tv w fwd cur :
  step_view w oid s tv -> pos_inv s fwd cur -> 0 < s_count s < 131072 ->
  let ev := if single_sched s then stepper_event_edge oid else stepper_event_full oid in
  let cur' := if single_sched s || Z.even (s_count s) then cur + dir_sign fwd else cur in
  stepper_get_position s = POSITION_BIAS + cur /\
  (s_count s <> 1 -> exists s' tv' w', ev w = Ret SF_RESCHEDULE w' /\ step_view w' oid s' tv' /\
     pos_inv s' fwd cur') /\
  (s_count s = 1 -> mq_first (s_mq s) = None ->
   exists s' tv' w', ev w = Ret SF_DONE w' /\ step_view w' oid s' tv' /\ pos_inv s' fwd cur' /\
     s_count s' = 0) /\
  (s_count s = 1 -> forall mn m q, next_move w s mn m q -> move_fits m fwd cur' ->
   (exists reason w', ev w = Shut reason w') \/
   exists s' tv' w', ev w = Ret SF_RESCHEDULE w' /\ step_view w' oid s' tv' /\
     pos_inv s' (xorb fwd (has (sm_flags m) MF_DIR)) cur' /\ remaining s' = sm_count m).
Proof.
  intros Hv Hpos Hc ev cur'. split; [by apply (get_position_spec s fwd)|].
  split; [|split].
  - intros Hne. by apply (step_event_mid oid s tv).
  - intros E1 He. by apply (step_event_empty oid s tv).
  - intros E1 mn m q Hm Hfit. fold (after_step s fwd cur) in cur'. fold (step_event oid s) in ev.
    destruct (single_sched s) eqn:Es.
    + right. unfold ev, step_event. rewrite Es. by apply (edge_event_load oid s tv w fwd cur mn m q).
    + unfold ev, step_event. rewrite Es. by apply (full_event_load oid s tv w fwd cur mn m q).
Qed.
End edge.

(** ** Witnesses: one stepper with a queued move of three steps *)

Definition edge_config : Config := {|
  CONFIG_CLOCK_FREQ := 16000000; CONFIG_INLINE_STEPPER_HACK := true;
  CONFIG_HAVE_STEPPER_BOTH_EDGE := true; CONFIG_MACH_AVR := false |}.
Definition full_config : Config := {|
  CONFIG_CLOCK_FREQ := 16000000; CONFIG_INLINE_STEPPER_HACK := false;
  CONFIG_HAVE_STEPPER_BOTH_EDGE := false; CONFIG_MACH_AVR := false |}.

Definition demo_move : stepper_move := mk_step_move 1000 (-5) 3 0.

Definition demo_stepper (count flags : Z) : stepper :=
  mk_stepper 0 0 count 4294967000 2 7 8 (u32 (- POSITION_BIAS + count))
    (mk_mqh (Some 100) (Some 100)) false None flags.

Definition demo_world (s : stepper) : world := {|
  w_cmd := cmd_init;
  w_sched := sched_init <| timers ::= <[T_obj 0 0 := mk_timer None None 4294967000]> |>;
  w_base := {| alloc_end := 0; moves := {[ 100 := mk_move None (Some (P_step demo_move)) ]};
    move_free_list := None; move_list := 100; move_count := 1; move_item_size := 16;
    oids := Some [mk_oid (Some OT_stepper) (Some (O_stepper s))]; oid_count := 1;
    config_crc := 0; stats_send_time := 0; stats_send_time_high := 0;
    stats_count := 0; stats_sum := 0; stats_sumsq := 0 |};
  w_wakes := mk_wakes 0 0 0 0 0 0 0 0 0;
  w_hw := mk_hw (fun n => 100 * Z.of_nat n) 0 (fun _ => 0) 0 [] [] |}.

Lemma demo_view s : step_view (demo_world s) 0 s (mk_timer None None 4294967000).
Proof. by split. Qed.

Lemma demo_next count flags :
  next_move (demo_world (demo_stepper count flags)) (demo_stepper count flags) 100 demo_move [].
Proof.
  split; [|by eexists]. split; [|done]. split; [done|]. by eexists.
Qed.

Lemma edge_move_timing_witness :
  exists w1 w2, stepper_load_next (cfg := edge_config) 0 (demo_world (demo_stepper 0 16))
      = Ret SF_RESCHEDULE w1 /\
    expirations (stepper_event_edge (cfg := edge_config) 0) 0 2 w1 = Ret [704; 1699] w2.
Proof.
  destruct (edge_move_timing (cfg := edge_config) 0 (demo_stepper 0 16) _ _ 100 demo_move []
    4294967000 (demo_view _)) as (w1 & s2 & tv2 & w2 & H1 & H2 & _).
  - reflexivity.
  - apply demo_next.
  - cbn. lia.
  - reflexivity.
  - exists w1, w2. split; [exact H1|exact H2].
Defined.

Lemma full_move_timing_witness :
  exists w1 l s2 tv2 w2, stepper_load_next (cfg := full_config) 0 (demo_world (demo_stepper 0 0))
      = Ret SF_RESCHEDULE w1 /\
    expirations (stepper_event_full (cfg := full_config) 0) 0 2 w1 = Ret l w2 /\
    step_view w2 0 s2 tv2 /\ s_next_step_time s2 = 1699.
Proof.
  destruct (full_move_timing (cfg := full_config) 0 (demo_stepper 0 0) _ _ 100 demo_move []
    4294967000 1 (demo_view _)) as (w1 & l & s2 & tv2 & w2 & H1 & H2 & H3 & _ & H4 & _).
  - reflexivity.
  - apply demo_next.
  - cbn. lia.
  - reflexivity.
  - cbn. lia.
  - exists w1, l, s2, tv2, w2. split; [exact H1|]. split; [exact H2|]. split; [exact H3|exact H4].
Defined.

Definition demo_full_end : world :=
  match stepper_event_full (cfg := full_config) 0 (demo_world (demo_stepper 1 0)) with
  | Ret _ w => w | _ => demo_world (demo_stepper 1 0) end.

Lemma full_pulse_width_witness :
  SF_RESCHEDULE = SF_DONE \/
  exists tv', timer_at demo_full_end (T_obj 0 0) = Some tv' /\
    timer_is_before (t_waketime tv') 2 = false.
Proof.
  apply (full_pulse_width (cfg := full_config) 0 (demo_stepper 1 0) _
    (demo_world (demo_stepper 1 0)) SF_RESCHEDULE demo_full_end (demo_view _)).
  - cbn. lia.
  - right. exists 100, demo_move, []. apply demo_next.
  - vm_compute. reflexivity.
Defined.

Lemma position_tracks_steps_witness :
  stepper_get_position (cfg := edge_config) (demo_stepper 2 16) = POSITION_BIAS.
Proof.
  destruct (position_tracks_steps (cfg := edge_config) 0 (demo_stepper 2 16) _
    (demo_world (demo_stepper 2 16)) false 0 (demo_view _)) as [H _].
  - repeat split; vm_compute; congruence.
  - cbn. lia.
  - exact H.
Defined.
