(* ===== verification/Trsync.v ===== *)
(** * Trigger synchronisation and end stops

    src/trsync.c, src/endstop.c and the command of src/stepper.c that connects a
    stepper to a trigger.  The only signal function of the firmware is
    [stepper_stop]; a [struct trsync_signal *] is the id of the stepper it is
    embedded in. *)

From S2P Require Import Prelude Command Sched Basecmd World Stepper.

Definition TSF_CAN_TRIGGER : Z := 1.
Definition TSF_REPORT : Z := 4.
Definition ESF_PIN_HIGH : Z := 1.
Definition ESF_HOMING : Z := 2.

Section trsync.
Context {cfg : Config} {tgt : Target}.

Definition set_trsync_wake (v : Z) (k : wakes) : wakes := k <| trsync_wake := v |>.

Definition report_timer (oid : Z) : tid := T_obj oid 0.
Definition expire_timer (oid : Z) : tid := T_obj oid 1.

(** The loop over the signals in [trsync_do_trigger].  Every iteration removes a
    signal from the list; object ids are bytes. *)
Fixpoint signal_loop (fuel : nat) (ts : Z) (reason : Z) : M world unit :=
  t <- oget (T := trsync) ts ;;
  match ts_signals t with
  | None => ret tt
  | Some tss =>
      match fuel with
      | O => stuck
      | S fuel =>
          s <- oget (T := stepper) tss ;;
          let func := s_stop_func s in
          omod ts (fun t => t <| ts_signals := s_stop_next s |>) ;;
          omod tss (fun s => s <| s_stop_next := None |>) ;;
          omod tss (fun s => s <| s_stop_func := false |>) ;;
          (if func : bool then stepper_stop tss reason else stuck) ;;
          signal_loop fuel ts reason
      end
  end.

Definition trsync_do_trigger (ts : Z) (reason : Z) : M world unit :=
  t <- oget (T := trsync) ts ;;
  let flags := ts_flags t in
  if negb (has flags TSF_CAN_TRIGGER) then ret tt
  else
    omod ts (fun t => t <| ts_trigger_reason := u8 reason |>) ;;
    omod ts (fun t => t <| ts_flags := Z.lor (clear flags TSF_CAN_TRIGGER) TSF_REPORT |>) ;;
    signal_loop 256 ts (u8 reason) ;;
    sched_wake_task set_trsync_wake.

Definition trsync_expire_event (ts : Z) : M world Z :=
  t <- oget (T := trsync) ts ;;
  trsync_do_trigger ts (ts_expire_reason t) ;;
  ret SF_DONE.

Definition trsync_report_event (ts : Z) : M world Z :=
  omod ts (fun t => t <| ts_flags := Z.lor (ts_flags t) TSF_REPORT |>) ;;
  sched_wake_task set_trsync_wake ;;
  t <- oget (T := trsync) ts ;;
  tmod (report_timer ts) (fun v =>
    v <| t_waketime := u32 (t_waketime v + ts_report_ticks t) |>) ;;
  ret SF_RESCHEDULE.

Definition trsync_zero : trsync := mk_trsync 0 None 0 0 0.

Definition command_config_trsync (args : list Z) : M world unit :=
  ts <- obj_alloc (nthZ args 0) OT_trsync trsync_zero [0; 1] ;;
  tmod (report_timer ts) (fun v => v <| t_func := Some F_trsync_report_event |>) ;;
  tmod (expire_timer ts) (fun v => v <| t_func := Some F_trsync_expire_event |>).

Definition trsync_oid_lookup (oid : Z) : M world Z := oid_lookup oid OT_trsync.

(** [trsync_add_signal(ts, tss, stepper_stop)]. *)
Definition trsync_add_signal (ts tss : Z) : M world unit :=
  s <- oget (T := stepper) tss ;;
  if s_stop_func s then shutdown "Can't add signal that is already active"
  else
    omod tss (fun s => s <| s_stop_func := true |>) ;;
    t <- oget (T := trsync) ts ;;
    omod tss (fun s => s <| s_stop_next := ts_signals t |>) ;;
    omod ts (fun t => t <| ts_signals := Some tss |>).

(** The loop of [trsync_clear]. *)
Fixpoint clear_loop (fuel : nat) (tss : option Z) : M world unit :=
  match tss with
  | None => ret tt
  | Some tss =>
      match fuel with
      | O => stuck
      | S fuel =>
          s <- oget (T := stepper) tss ;;
          let next := s_stop_next s in
          omod tss (fun s => s <| s_stop_func := false |>) ;;
          omod tss (fun s => s <| s_stop_next := None |>) ;;
          clear_loop fuel next
      end
  end.

Definition trsync_clear (ts : Z) : M world unit :=
  sched_del_timer (report_timer ts) ;;
  sched_del_timer (expire_timer ts) ;;
  t <- oget (T := trsync) ts ;;
  clear_loop 256 (ts_signals t) ;;
  omod ts (fun t => t <| ts_signals := None |>) ;;
  omod ts (fun t => t <| ts_flags := 0 |> <| ts_trigger_reason := 0 |>
                      <| ts_expire_reason := 0 |>).

Definition command_trsync_start (args : list Z) : M world unit :=
  ts <- trsync_oid_lookup (nthZ args 0) ;;
  trsync_clear ts ;;
  omod ts (fun t => t <| ts_flags := TSF_CAN_TRIGGER |>) ;;
  tmod (report_timer ts) (fun v => v <| t_waketime := nthZ args 1 |>) ;;
  omod ts (fun t => t <| ts_report_ticks := nthZ args 2 |>) ;;
  t <- oget (T := trsync) ts ;;
  when (negb (ts_report_ticks t =? 0)) (sched_add_timer (report_timer ts)) ;;
  omod ts (fun t => t <| ts_expire_reason := u8 (nthZ args 3) |>).

Definition command_trsync_set_timeout (args : list Z) : M world unit :=
  ts <- trsync_oid_lookup (nthZ args 0) ;;
  t <- oget (T := trsync) ts ;;
  when (has (ts_flags t) TSF_CAN_TRIGGER)
    (sched_del_timer (expire_timer ts) ;;
     tmod (expire_timer ts) (fun v => v <| t_waketime := nthZ args 1 |>) ;;
     sched_add_timer (expire_timer ts)).

Definition trsync_report (oid flags reason clock : Z) : M world unit :=
  sendf "trsync_state oid=%c can_trigger=%c trigger_reason=%c clock=%u"
    [VA_int oid; VA_int (b2z (has flags TSF_CAN_TRIGGER)); VA_int reason; VA_int clock].

Definition command_trsync_trigger (args : list Z) : M world unit :=
  let oid := u8 (nthZ args 0) in
  ts <- trsync_oid_lookup oid ;;
  trsync_do_trigger ts (nthZ args 1) ;;
  sched_del_timer (report_timer ts) ;;
  sched_del_timer (expire_timer ts) ;;
  omod ts (fun t => t <| ts_flags := 0 |>) ;;
  t <- oget (T := trsync) ts ;;
  trsync_report oid 0 (ts_trigger_reason t) 0.

Definition trsync_task : M world unit :=
  woken <- sched_check_wake trsync_wake set_trsync_wake ;;
  if negb woken then ret tt
  else foreach_oid OT_trsync (fun oid =>
    t <- oget (T := trsync) oid ;;
    if negb (has (ts_flags t) TSF_REPORT) then ret tt
    else
      time <- timer_read_time ;;
      t <- oget (T := trsync) oid ;;
      let trigger_reason := ts_trigger_reason t in
      let flags := ts_flags t in
      omod oid (fun t => t <| ts_flags := clear flags TSF_REPORT |>) ;;
      trsync_report oid flags trigger_reason time).

Definition trsync_shutdown : M world unit := foreach_oid OT_trsync trsync_clear.

Definition command_stepper_stop_on_trigger (args : list Z) : M world unit :=
  s <- stepper_oid_lookup (nthZ args 0) ;;
  ts <- trsync_oid_lookup (nthZ args 1) ;;
  trsync_add_signal ts s.

(** ** End stops *)

Definition endstop_timer (oid : Z) : tid := T_obj oid 0.

(** [(val ? ~e->flags : e->flags) & ESF_PIN_HIGH]: the pin does not match. *)
Definition endstop_mismatch (val flags : Z) : bool :=
  has (if negb (val =? 0) then Z.lnot flags else flags) ESF_PIN_HIGH.

Definition endstop_oversample_event (oid : Z) : M world Z :=
  e <- oget (T := endstop) oid ;;
  val <- gpio_in_read (e_pin e) ;;
  if endstop_mismatch val (e_flags e) then
    tmod (endstop_timer oid) (fun t => t <| t_func := Some F_endstop_event |>) ;;
    tmod (endstop_timer oid) (fun t => t <| t_waketime := e_nextwake e |>) ;;
    omod oid (fun e => e <| e_trigger_count := e_sample_count e |>) ;;
    ret SF_RESCHEDULE
  else
    let count := u8 (e_trigger_count e - 1) in
    if count =? 0 then
      ts <- deref (e_ts e) ;;
      trsync_do_trigger ts (e_trigger_reason e) ;;
      ret SF_DONE
    else
      omod oid (fun e => e <| e_trigger_count := count |>) ;;
      tmod (endstop_timer oid) (fun t =>
        t <| t_waketime := u32 (t_waketime t + e_sample_time e) |>) ;;
      ret SF_RESCHEDULE.

Definition endstop_event (oid : Z) : M world Z :=
  e <- oget (T := endstop) oid ;;
  val <- gpio_in_read (e_pin e) ;;
  t <- tget (endstop_timer oid) ;;
  let nextwake := u32 (t_waketime t + e_rest_time e) in
  if endstop_mismatch val (e_flags e) then
    tmod (endstop_timer oid) (fun t => t <| t_waketime := nextwake |>) ;;
    ret SF_RESCHEDULE
  else
    omod oid (fun e => e <| e_nextwake := nextwake |>) ;;
    tmod (endstop_timer oid) (fun t => t <| t_func := Some F_endstop_oversample_event |>) ;;
    endstop_oversample_event oid.

Definition endstop_zero : endstop := mk_endstop 0 0 0 0 None 0 0 0 0.

Definition command_config_endstop (args : list Z) : M world unit :=
  oid <- obj_alloc (nthZ args 0) OT_endstop endstop_zero [0] ;;
  pin <- gpio_in_setup (nthZ args 1) (nthZ args 2) ;;
  omod oid (fun e => e <| e_pin := pin |>).

Definition command_endstop_home (args : list Z) : M world unit :=
  oid <- oid_lookup (nthZ args 0) OT_endstop ;;
  sched_del_timer (endstop_timer oid) ;;
  tmod (endstop_timer oid) (fun t => t <| t_waketime := nthZ args 1 |>) ;;
  omod oid (fun e => e <| e_sample_time := nthZ args 2 |>) ;;
  omod oid (fun e => e <| e_sample_count := u8 (nthZ args 3) |>) ;;
  e <- oget (T := endstop) oid ;;
  if e_sample_count e =? 0 then
    omod oid (fun e => e <| e_ts := None |> <| e_flags := 0 |>)
  else
    omod oid (fun e => e <| e_rest_time := nthZ args 4 |>) ;;
    tmod (endstop_timer oid) (fun t => t <| t_func := Some F_endstop_event |>) ;;
    omod oid (fun e => e <| e_trigger_count := e_sample_count e |>) ;;
    omod oid (fun e => e <| e_flags :=
      Z.lor ESF_HOMING (if negb (nthZ args 5 =? 0) then ESF_PIN_HIGH else 0) |>) ;;
    ts <- trsync_oid_lookup (nthZ args 6) ;;
    omod oid (fun e => e <| e_ts := Some ts |>) ;;
    omod oid (fun e => e <| e_trigger_reason := u8 (nthZ args 7) |>) ;;
    sched_add_timer (endstop_timer oid).

Definition command_endstop_query_state (args : list Z) : M world unit :=
  let oid := u8 (nthZ args 0) in
  oid <- oid_lookup oid OT_endstop ;;
  e <- oget (T := endstop) oid ;;
  let eflags := e_flags e in
  let nextwake := e_nextwake e in
  val <- gpio_in_read (e_pin e) ;;
  sendf "endstop_state oid=%c homing=%c next_clock=%u pin_value=%c"
    [VA_int oid; VA_int (b2z (has eflags ESF_HOMING)); VA_int nextwake; VA_int val].
End trsync.
