(* ===== verification/TrsyncFacts.v ===== *)
(** * Properties of stops, triggers and end stops

    Stopping a stepper removes its timer, returns its queued moves to the pool and
    keeps its position; a trigger does so for every registered stepper, once; an
    end stop triggers after the configured number of consecutive matching samples. *)

From S2P Require Import Prelude Command Sched SchedFacts Basecmd BasecmdFacts World WorldFacts Stepper StepperFacts Trsync.

(** A timer outside of the queue may be changed freely. *)
Lemma rep_set_other B s q t v :
  timers_rep B s q -> t ∉ q.*1 -> user_timer t ->
  timers_rep B (s <| timers ::= <[t := v]> |>) q.
Proof.
  intros [(pre & Hst & Htl & Hpre) Hsta (tp & Hp & Hs) Hli] Hni (Htd & Hts & Htp).
  assert (Hwake : forall y x, y <> t -> wake_at (timers s) y x -> wake_at (<[t := v]> (timers s)) y x).
  { intros y x Hne (u & Hu & Hw). exists u. by rewrite lookup_insert_ne. }
  split; simpl.
  - exists pre. split; [|split; [done|]].
    + destruct Hst as [Hl Hnd Hso Htm Hd]. split; auto.
      * apply (linked_ext (timers s)); [|done]. intros z vz Hz Hvz. exists vz.
        rewrite lookup_insert_ne; [done|]. intros <-.
        destruct Hpre as [->|[-> _]]; set_solver.
      * apply Forall_forall. intros p Hpq. rewrite Forall_forall in Htm.
        destruct (Htm p Hpq) as [Hw Hwin]. split; [|done]. apply Hwake; [|done].
        intros <-. apply Hni. by apply list_elem_of_fmap_2.
    + destruct Hpre as [->|[-> (x & Hx & ? & ?)]]; [by left|right].
      split; [done|]. exists x. split; [by apply Hwake|done].
  - by apply static_set_user.
  - exists tp. split; [done|]. by apply Hwake.
  - done.
Qed.

Section stop.
Context {cfg : Config}.

(** Freeing the queue of a stepper node by node. *)
Lemma free_queue_run ql fuel oid s w fl :
  obj_at w oid = Some (O_stepper s) -> (length ql <= fuel)%nat ->
  mchain (pool_of w) (mq_first (s_mq s)) ql ->
  mchain (pool_of w) (move_free_list (w_base w)) fl -> NoDup (fl ++ ql) ->
  exists mq h fl', free_queue fuel oid w
      = Ret tt (put_pool h fl' (put_obj oid (O_stepper (s <| s_mq := mq |>)) w)) /\
    mq_first mq = None /\ mchain h fl' (rev ql ++ fl) /\
    (forall p k, (forall x, x ∈ k -> x ∉ ql) -> mchain (pool_of w) p k -> mchain h p k).
Proof.
  revert fuel s w fl. induction ql as [|m ql IH]; intros fuel s w fl Ho Hf Hq Hfl Hnd.
  - exists (s_mq s), (pool_of w), (move_free_list (w_base w)).
    split; [|by split].
    assert (Hrun : free_queue fuel oid w = Ret tt w).
    { destruct fuel; cbn [free_queue]; wstep; unfold move_queue_empty; by rewrite Hq. }
    rewrite Hrun. f_equal. replace (s <| s_mq := s_mq s |>) with s by (by destruct s).
    assert (Hid : put_obj oid (O_stepper s) w = w).
    { destruct (obj_at_inv _ _ _ Ho) as (t & e & Ht & He & Hd). unfold put_obj.
      destruct w as [wc ws [] wk wh]. simpl in *. subst. simpl. do 3 f_equal. f_equal.
      apply list_eq. intros i. destruct (decide (i = Z.to_nat oid)) as [->|Hne].
      - rewrite list_lookup_alter_eq, He. simpl. by destruct e; simpl in *; subst.
      - by rewrite list_lookup_alter_ne. }
    rewrite Hid. unfold put_pool, pool_of. by destruct w as [wc ws [] wk wh].
  - destruct fuel as [|fuel]; [simpl in Hf; lia|]. destruct Hq as [E (v & Hv & Hq)].
    cbn [free_queue]. wstep. unfold move_queue_empty. rewrite E. unfold move_queue_pop.
    rewrite E. cbn [deref]. repeat wstep.
    set (s1 := s <| s_mq := mk_mqh (mv_next v) (mq_last (s_mq s)) |>).
    set (w1 := put_obj oid (to_obj s1) w).
    rewrite (bind_Ret _ _ _ _ _ (wmove_free_Ret m v w1 Hv)).
    match goal with |- context [put_pool ?h ?f w1] => set (w2 := put_pool h f w1) end.
    assert (Hm : m ∉ fl ++ ql /\ NoDup (fl ++ ql)).
    { rewrite <- Permutation_middle in Hnd. by apply NoDup_cons in Hnd. }
    destruct Hm as [Hm Hnd'].
    destruct (IH fuel s1 w2 (m :: fl)) as (mq & h & fl' & Hrun & Hmq & Hch & Hfr).
    + unfold w2, w1. autorewrite with wget. by eapply obj_at_put.
    + simpl in Hf. lia.
    + unfold w2. autorewrite with wget. cbn [s_mq upd s1 mq_first].
      apply mchain_frame; [set_solver|done].
    + unfold w2. autorewrite with wget. split; [done|]. eexists. rewrite lookup_insert_eq.
      split; [done|]. cbn [mv_next]. apply mchain_frame; [set_solver|done].
    + cbn [app]. by apply NoDup_cons.
    + exists mq, h, fl'. split; [|split; [done|split]].
      * rewrite Hrun. unfold w2, w1. autorewrite with wput. done.
      * simpl. rewrite <- app_assoc. exact Hch.
      * intros p k Hk Hc. apply Hfr; [set_solver|]. unfold w2. autorewrite with wget.
        apply mchain_frame; [|done]. intros Hin. apply (Hk _ Hin). by apply list_elem_of_here.
Qed.

(** The stepper [s'] is [s] stopped: nothing left to do, and a clock reset is
    needed before it accepts steps again. *)
Definition stopped (s s' : stepper) : Prop :=
  s_count s' = 0 /\ mq_first (s_mq s') = None /\ has (s_flags s') SF_NEED_RESET = true /\
  s_position s' = u32 (- stepper_get_position s) /\
  single_sched s' = single_sched s /\
  s_stop_func s' = s_stop_func s /\ s_stop_next s' = s_stop_next s /\
  s_step_pin s' = s_step_pin s /\ s_dir_pin s' = s_dir_pin s.

Lemma stop_flags f :
  has (Z.lor (Z.land f (Z.lor SF_INVERT_STEP SF_SINGLE_SCHED)) SF_NEED_RESET) SF_NEED_RESET = true /\
  has (Z.lor (Z.land f (Z.lor SF_INVERT_STEP SF_SINGLE_SCHED)) SF_NEED_RESET) SF_SINGLE_SCHED
  = has f SF_SINGLE_SCHED.
Proof.
  unfold has. rewrite !Z.land_lor_distr_l, <- !Z.land_assoc.
  change (Z.land (Z.lor SF_INVERT_STEP SF_SINGLE_SCHED) SF_NEED_RESET) with 0.
  change (Z.land SF_NEED_RESET SF_NEED_RESET) with 8.
  change (Z.land (Z.lor SF_INVERT_STEP SF_SINGLE_SCHED) SF_SINGLE_SCHED) with SF_SINGLE_SCHED.
  change (Z.land SF_NEED_RESET SF_SINGLE_SCHED) with 0.
  by rewrite Z.land_0_r, Z.lor_0_r.
Qed.

Lemma stopped_position s s' fwd cur :
  s_count s' = 0 -> s_position s' = u32 (- stepper_get_position s) -> pos_inv s fwd cur ->
  pos_inv s' false cur /\ stepper_get_position s' = stepper_get_position s.
Proof.
  intros Hc Hp Hpos. pose proof (get_position_spec _ _ _ Hpos) as Eg.
  assert (Hpos' : pos_inv s' false cur).
  { destruct Hpos as (Hcur & _). unfold pos_inv.
    assert (Hr : remaining s' = 0) by (unfold remaining; rewrite Hc; by destruct (single_sched s')).
    rewrite Hr, Hp, Eg. simpl. replace (cur + 0) with cur by lia. repeat split; try lia.
    f_equal. lia. }
  split; [done|]. by rewrite (get_position_spec _ _ _ Hpos'), Eg.
Qed.

(** What a stop needs: the scheduler's queue and the pool are well formed. *)
Lemma stepper_stop_run B tq oid s tv w reason fl ql others :
  timers_rep B (w_sched w) tq -> step_view w oid s tv ->
  pool_rep (pool_of w) ((move_free_list (w_base w), fl) :: (mq_first (s_mq s), ql) :: others) ->
  exists s' w', stepper_stop oid reason w = Ret tt w' /\
    obj_at w' oid = Some (O_stepper s') /\ stopped s s' /\
    timers_rep B (w_sched w') (q_remove (step_timer oid) tq) /\
    pool_rep (pool_of w') ((move_free_list (w_base w'), rev ql ++ fl) :: (None, []) :: others) /\
    (forall oid', Z.to_nat oid' <> Z.to_nat oid -> obj_at w' oid' = obj_at w oid') /\
    (forall t, t <> T_deleted -> is_Some (timer_at w t) -> is_Some (timer_at w' t)).
Proof.
  intros Hrep [Ho Ht] [HF Hnd].
  apply Forall_cons in HF as [Hfl HF]. apply Forall_cons in HF as [Hq HF]. cbn [fst snd] in *.
  assert (Hu : user_timer (step_timer oid)) by (by repeat split).
  destruct (del_timer_spec (PS := world_sched) B tq (step_timer oid) w Hrep Hu)
    as (sc & Hdel & Hrep1 & Hkeep).
  destruct (Hkeep (step_timer oid) tv ltac:(done) Ht) as (tv1 & Htv1 & _).
  unfold stepper_stop. rewrite (bind_Ret _ _ _ _ _ Hdel).
  set (w1 := part_set sc w).
  assert (Ho1 : obj_at w1 oid = Some (O_stepper s)) by exact Ho.
  assert (Ht1 : timer_at w1 (step_timer oid) = Some tv1) by exact Htv1.
  wstep. wstep. wstep. wstep. wstep. wstep. unfold gpio_out_write. wstep.
  cbn [s_position s_flags s_dir_pin s_step_pin upd].
  change (stepper_get_position _) with (stepper_get_position s).
  set (s5 := s <| s_next_step_time := 0 |> <| s_position := u32 (- stepper_get_position s) |>
    <| s_count := 0 |> <| s_flags := Z.lor (Z.land (s_flags s) (Z.lor SF_INVERT_STEP SF_SINGLE_SCHED)) SF_NEED_RESET |>).
  set (tv2 := tv1 <| t_waketime := 0 |>).
  match goal with |- context [put_event ?e (put_timer ?t ?v (put_obj _ _ w1))] =>
    set (w2 := put_event e (put_timer t tv2 (put_obj oid (O_stepper s5) w1))) end.
  match goal with |- exists s' w', bind (when ?b (emit ?e)) ?k ?u = _ /\ _ =>
    assert (Hrest : exists w3, bind (when b (emit e)) k u = k tt w3 /\
      obj_at w3 oid = obj_at w2 oid /\ w_sched w3 = w_sched w2 /\ w_base w3 = w_base w2)
  end.
  { destruct (negb _); [wstep|wstep]; eexists; (split; [reflexivity|]); by repeat split. }
  destruct Hrest as (w3 & -> & Ho3 & Es3 & Eb3).
  rewrite (bind_Ret _ _ _ _ _ (bget_Ret (PB := world_base) _ _)).
  assert (Ep3 : pool_of w3 = pool_of w) by (unfold pool_of; by rewrite Eb3).
  assert (Ef3 : move_free_list (w_base w3) = move_free_list (w_base w)) by (by rewrite Eb3).
  assert (Ho3' : obj_at w3 oid = Some (O_stepper s5)).
  { rewrite Ho3. unfold w2. autorewrite with wget. by eapply obj_at_put. }
  cbn [fmap list_fmap concat snd] in Hnd. rewrite app_assoc in Hnd.
  apply NoDup_app in Hnd as (Hnd1 & Hd1 & Hnd2).
  assert (Hlen : (length ql <= size (moves (part_get (Part := world_base) w3)))%nat).
  { change (moves (part_get w3)) with (pool_of w3). rewrite Ep3. apply nodup_size.
    - by apply NoDup_app in Hnd1 as (_ & _ & ?).
    - intros x Hx. by eapply mchain_Some. }
  destruct (free_queue_run ql _ oid s5 w3 fl Ho3' Hlen) as (mq & h & fl' & Hrun & Hmq & Hch & Hfr);
    rewrite ?Ep3, ?Ef3; try done.
  rewrite Hrun. eexists (s5 <| s_mq := mq |>), _. split; [reflexivity|].
  split; [autorewrite with wget; by eapply obj_at_put|]. split; [|split; [|split; [|split]]].
  - destruct (stop_flags (s_flags s)) as [E1 E2]. unfold stopped.
    split; [done|]. split; [done|]. split; [exact E1|]. split; [done|].
    split; [|by repeat split]. unfold single_sched. f_equal. exact E2.
  - change (w_sched (put_pool h fl' _)) with (w_sched w3). rewrite Es3.
    change (w_sched w2) with (sc <| timers ::= <[step_timer oid := tv2]> |>).
    apply rep_set_other; [done| |done]. intros Hin. apply list_elem_of_fmap in Hin as (p & Ep & Hp).
    apply list_elem_of_filter in Hp as [Hne _]. congruence.
  - autorewrite with wget. change (move_free_list (w_base (put_pool h fl' _))) with fl'.
    rewrite Ep3 in Hfr. split.
    + apply Forall_cons. split; [done|]. apply Forall_cons. split; [done|].
      apply Forall_forall. intros c Hc. rewrite Forall_forall in HF. apply Hfr; [|by apply HF].
      intros x Hx Hin. apply (Hd1 x); [set_solver|]. apply list_elem_of_In, in_concat.
      exists (c.2). split; [|by apply list_elem_of_In].
      apply list_elem_of_In. by apply list_elem_of_fmap_2.
    + assert (Hperm : rev ql ++ fl ≡ₚ fl ++ ql).
      { rewrite <- Permutation_rev. apply Permutation_app_comm. }
      cbn [fmap list_fmap concat snd app]. rewrite Hperm. by apply NoDup_app.
  - intros oid' Hne. autorewrite with wget. rewrite obj_at_put_ne by done.
    unfold obj_at. rewrite Eb3. fold (obj_at w2 oid'). unfold w2. autorewrite with wget.
    by rewrite obj_at_put_ne by done.
  - intros t Htd [vt Hvt]. autorewrite with wget. unfold timer_at. rewrite Es3.
    change (timers (w_sched w2)) with (<[step_timer oid := tv2]> (timers sc)).
    destruct (decide (t = step_timer oid)) as [->|Hne]; [by rewrite lookup_insert_eq|].
    rewrite lookup_insert_ne by done. destruct (Hkeep t vt Htd Hvt) as (v' & ? & _). eauto.
Qed.

(** ** Triggers *)

(** The signals of a trigger: a stepper with the nodes of its queue each. *)
Record signal := mk_signal { sg_oid : Z; sg_stepper : stepper; sg_queue : list Z }.

Fixpoint sig_linked (p : option Z) (l : list signal) : Prop :=
  match l with
  | [] => p = None
  | g :: l' => p = Some (sg_oid g) /\ s_stop_func (sg_stepper g) = true /\
               sig_linked (s_stop_next (sg_stepper g)) l'
  end.

Definition sig_ok (w : world) (g : signal) : Prop :=
  obj_at w (sg_oid g) = Some (O_stepper (sg_stepper g)) /\
  is_Some (timer_at w (step_timer (sg_oid g))).

Definition sig_chain (g : signal) : option Z * list Z :=
  (mq_first (s_mq (sg_stepper g)), sg_queue g).

(** A stepper after the trigger that stopped it. *)
Definition halted (s s' : stepper) : Prop :=
  s_count s' = 0 /\ mq_first (s_mq s') = None /\ has (s_flags s') SF_NEED_RESET = true /\
  s_position s' = u32 (- stepper_get_position s) /\
  s_stop_func s' = false /\ s_stop_next s' = None.

Lemma pool_rep_drop (h : gmap Z (move_node move_pay)) c l : pool_rep h (c :: (None, []) :: l) -> pool_rep h (c :: l).
Proof.
  intros [HF Hnd]. apply Forall_cons in HF as [? HF]. apply Forall_cons in HF as [_ HF].
  split; [by constructor|exact Hnd].
Qed.

Lemma signal_loop_run sigs fuel ts t w reason B tq fl others :
  (length sigs <= fuel)%nat -> obj_at w ts = Some (O_trsync t) ->
  sig_linked (ts_signals t) sigs -> Forall (sig_ok w) sigs ->
  NoDup (Z.to_nat <$> (ts :: (sg_oid <$> sigs))) ->
  timers_rep B (w_sched w) tq ->
  pool_rep (pool_of w) ((move_free_list (w_base w), fl) :: (sig_chain <$> sigs) ++ others) ->
  exists w' tq' fl', signal_loop fuel ts reason w = Ret tt w' /\
    obj_at w' ts = Some (O_trsync (t <| ts_signals := None |>)) /\
    Forall (fun g => step_timer (sg_oid g) ∉ tq'.*1 /\ exists s',
      obj_at w' (sg_oid g) = Some (O_stepper s') /\ halted (sg_stepper g) s') sigs /\
    timers_rep B (w_sched w') tq' /\ tq' ⊆ tq /\
    pool_rep (pool_of w') ((move_free_list (w_base w'), fl') :: others) /\
    (forall o, Z.to_nat o ∉ Z.to_nat <$> (ts :: (sg_oid <$> sigs)) -> obj_at w' o = obj_at w o).
Proof.
  revert fuel t w tq fl. induction sigs as [|[o s ql] sigs IH];
    intros fuel t w tq fl Hf Ho Hl Hok Hnd Hrep Hpool.
  - exists w, tq, fl. cbn in Hl. assert (Hrun : signal_loop fuel ts reason w = Ret tt w).
    { destruct fuel; cbn [signal_loop]; wstep; by rewrite Hl. }
    split; [done|]. split; [rewrite Ho; do 2 f_equal; destruct t; simpl in *; by subst|].
    split; [constructor|]. by split_and!.
  - destruct fuel as [|fuel]; [simpl in Hf; lia|]. destruct Hl as (Esig & Efunc & Hl).
    apply Forall_cons in Hok as [[Hos [tv Htv]] Hok]. cbn [sg_oid sg_stepper sg_queue] in *.
    rewrite !fmap_cons in Hnd. cbn [sg_oid] in Hnd.
    apply NoDup_cons in Hnd as [Hts Hnd]. apply NoDup_cons in Hnd as [Hno Hnd].
    assert (Hne : Z.to_nat ts <> Z.to_nat o) by set_solver.
    cbn [signal_loop]. wstep. rewrite Esig. wstep. rewrite Efunc.
    set (t1 := t <| ts_signals := s_stop_next s |>).
    wstep. set (w1 := put_obj ts (to_obj t1) w).
    assert (Hos1 : obj_at w1 o = Some (O_stepper s)).
    { unfold w1. by rewrite obj_at_put_ne by done. }
    wstep. wstep. set (s1 := s <| s_stop_next := None |> <| s_stop_func := false |>).
    set (w2 := put_obj o (to_obj s1) w1).
    assert (Hv2 : step_view w2 o s1 tv).
    { split; [unfold w2; by eapply obj_at_put|exact Htv]. }
    destruct (stepper_stop_run B tq o s1 tv w2 reason fl ql (fmap (M := list) sig_chain sigs ++ others)
      Hrep Hv2 Hpool) as (s' & w3 & Hstop & Ho3 & Hst & Hrep3 & Hpool3 & Hfr3 & Htm3).
    rewrite (bind_Ret _ _ _ _ _ Hstop).
    assert (Hts3 : obj_at w3 ts = Some (O_trsync t1)).
    { rewrite Hfr3 by done. unfold w2. rewrite obj_at_put_ne by done.
      unfold w1. by eapply obj_at_put. }
    assert (Hok3 : Forall (sig_ok w3) sigs).
    { apply Forall_forall. intros g Hg. rewrite Forall_forall in Hok.
      destruct (Hok g Hg) as [Hg1 Hg2].
      assert (Hgi : Z.to_nat (sg_oid g) ∈ Z.to_nat <$> (sg_oid <$> sigs)).
      { by do 2 apply list_elem_of_fmap_2. }
      split; [|by apply Htm3].
      rewrite Hfr3 by set_solver. unfold w2. rewrite obj_at_put_ne by set_solver.
      unfold w1. by rewrite obj_at_put_ne by set_solver. }
    destruct (IH fuel t1 w3 (q_remove (step_timer o) tq) (rev ql ++ fl))
      as (w' & tq' & fl' & Hrun & Hots & HF & Hrep' & Hsub & Hpool' & Hfr'); try done.
    { simpl in Hf. lia. }
    { rewrite fmap_cons. apply NoDup_cons. split; [set_solver|done]. }
    { by apply pool_rep_drop. }
    exists w', tq', fl'. split; [done|]. split; [done|]. split; [|split; [done|split; [|split; [done|]]]].
    + apply Forall_cons. split; [|done]. cbn [sg_oid sg_stepper]. split.
      * intros Hin. apply list_elem_of_fmap in Hin as (p & Ep & Hp). apply Hsub in Hp.
        apply list_elem_of_filter in Hp as [Hpn _]. congruence.
      * exists s'. split.
        { rewrite Hfr'; [done|]. rewrite fmap_cons. set_solver. }
        destruct Hst as (? & ? & ? & ? & _ & ? & ? & _). by split_and!.
    + intros p Hp. apply Hsub in Hp. by apply list_elem_of_filter in Hp as [_ ?].
    + intros o' Hn. rewrite !fmap_cons in Hn. cbn [sg_oid] in Hn. rewrite Hfr'.
      * rewrite Hfr3 by set_solver. unfold w2. rewrite obj_at_put_ne by set_solver.
        unfold w1. by rewrite obj_at_put_ne by set_solver.
      * rewrite fmap_cons. set_solver.
Qed.

Lemma trigger_flags f :
  has (Z.lor (clear f TSF_CAN_TRIGGER) TSF_REPORT) TSF_CAN_TRIGGER = false /\
  has (Z.lor (clear f TSF_CAN_TRIGGER) TSF_REPORT) TSF_REPORT = true.
Proof.
  unfold has, clear. rewrite !Z.land_lor_distr_l. change (Z.land TSF_REPORT TSF_CAN_TRIGGER) with 0.
  change (Z.land TSF_REPORT TSF_REPORT) with 4. split.
  - rewrite Z.lor_0_r. replace (Z.land (Z.ldiff f TSF_CAN_TRIGGER) TSF_CAN_TRIGGER) with 0; [done|].
    symmetry. apply Z.bits_inj'. intros n Hn. rewrite Z.land_spec, Z.ldiff_spec, Z.bits_0.
    destruct (Z.testbit f n), (Z.testbit TSF_CAN_TRIGGER n); done.
  - destruct (Z.eqb_spec (Z.lor (Z.land (Z.ldiff f TSF_CAN_TRIGGER) TSF_REPORT) 4) 0) as [E|]; [|done].
    apply Z.lor_eq_0_iff in E as [_ E]. done.
Qed.

End stop.

(** ** End stops *)

Section endstop.
Context {cfg : Config}.

(** The timer of the end stop expires until it is not rescheduled, [n] times at
    most; the scheduler calls the function stored in the timer. *)
Fixpoint endstop_polls (n : nat) (oid : Z) : M world Z :=
  match n with
  | O => ret SF_RESCHEDULE
  | S n =>
      t <- tget (endstop_timer oid) ;;
      r <- match t_func t with
           | Some F_endstop_event => endstop_event oid
           | Some F_endstop_oversample_event => endstop_oversample_event oid
           | _ => stuck
           end ;;
      if r =? SF_RESCHEDULE then endstop_polls n oid else ret r
  end.

(** The end stop [e] is armed: waiting for the pin, all samples to come. *)
Definition endstop_armed (w : world) (oid : Z) (e : endstop) (tv : timer) : Prop :=
  obj_at w oid = Some (O_endstop e) /\ timer_at w (endstop_timer oid) = Some tv /\
  t_func tv = Some F_endstop_event /\ e_trigger_count e = e_sample_count e.

(** Reading [i] from now matches the state the end stop waits for. *)
Definition reading_matches (w : world) (e : endstop) (i : nat) : bool :=
  negb (endstop_mismatch (u8 (input_at w i)) (e_flags e)).

(** The end stop during oversampling, with [c] samples to go. *)
Definition sampling (w : world) (oid : Z) (e : endstop) (c wake : Z) : Prop :=
  obj_at w oid = Some (O_endstop (e <| e_trigger_count := c |>)) /\
  exists tv, timer_at w (endstop_timer oid) = Some tv /\
    t_func tv = Some F_endstop_oversample_event /\ t_waketime tv = u32 wake.

(** Everything but the end stop, its timer and the inputs is as before. *)
Definition only_endstop (oid : Z) (w w' : world) : Prop :=
  (forall o, Z.to_nat o <> Z.to_nat oid -> obj_at w' o = obj_at w o) /\
  (forall t, t <> endstop_timer oid -> timer_at w' t = timer_at w t) /\
  pool_of w' = pool_of w /\ w_wakes w' = w_wakes w /\ trace w' = trace w.

Lemma only_refl oid w : only_endstop oid w w.
Proof. by repeat split. Qed.

Lemma only_trans oid w1 w2 w3 :
  only_endstop oid w1 w2 -> only_endstop oid w2 w3 -> only_endstop oid w1 w3.
Proof.
  intros (H1 & H2 & H3 & H4 & H5) (K1 & K2 & K3 & K4 & K5).
  split; [intros o Ho; by rewrite K1, H1|]. split; [intros t Ht; by rewrite K2, H2|].
  by split_and!; etrans.
Qed.

Lemma only_step oid o v w :
  only_endstop oid w (take_input (put_timer (endstop_timer oid) v (put_obj oid o w))).
Proof.
  split; [|split; [|by split]].
  - intros o' Ho. autorewrite with wget. by apply obj_at_put_ne.
  - intros t Ht. unfold timer_at, put_timer. simpl. by apply lookup_insert_ne.
Qed.

(** A sample that matches, one that matches and is the last, one that does not. *)
Lemma sample_match oid e c wake w :
  sampling w oid e c wake -> reading_matches w e 0 = true -> 1 < c < 256 ->
  exists w', endstop_oversample_event oid w = Ret SF_RESCHEDULE w' /\
    sampling w' oid e (c - 1) (wake + e_sample_time e) /\ only_endstop oid w w' /\
    forall i, input_at w' i = input_at w (S i).
Proof.
  intros (Ho & tv & Ht & Hf & Hw) Hm Hc. eexists. split; [|split; [|split]].
  - unfold endstop_oversample_event, gpio_in_read. repeat wstep. rewrite next_input_at.
    change (e_flags (upd _ _ _)) with (e_flags e). unfold reading_matches in Hm.
    apply negb_true_iff in Hm. rewrite Hm. change (e_trigger_count (upd _ _ _)) with c.
    rewrite u8_small by lia. destruct (Z.eqb_spec (c - 1) 0); [lia|].
    repeat wstep. reflexivity.
  - split; [autorewrite with wget; by eapply obj_at_put|]. eexists.
    split; [autorewrite with wget; reflexivity|]. split; [exact Hf|].
    cbn [t_waketime upd]. rewrite Hw. unfold u32. by rewrite Zplus_mod_idemp_l.
  - apply only_step.
  - intros i. by autorewrite with wget.
Qed.

Lemma sample_last oid e wake w ts :
  sampling w oid e 1 wake -> reading_matches w e 0 = true -> e_ts e = Some ts ->
  endstop_oversample_event oid w
  = (trsync_do_trigger ts (e_trigger_reason e) ;; ret SF_DONE) (take_input w).
Proof.
  intros (Ho & _) Hm Hts. unfold endstop_oversample_event, gpio_in_read. repeat wstep.
  rewrite next_input_at. change (e_flags (upd _ _ _)) with (e_flags e).
  unfold reading_matches in Hm. apply negb_true_iff in Hm. rewrite Hm.
  change (u8 (e_trigger_count (upd _ _ _) - 1)) with 0. cbn [Z.eqb].
  change (e_ts (upd _ _ _)) with (e_ts e). by rewrite Hts.
Qed.

Lemma sample_mismatch oid e c wake w :
  sampling w oid e c wake -> reading_matches w e 0 = false -> e_trigger_count e = e_sample_count e ->
  exists w' tv, endstop_oversample_event oid w = Ret SF_RESCHEDULE w' /\
    endstop_armed w' oid e tv /\ t_waketime tv = e_nextwake e /\ only_endstop oid w w'.
Proof.
  intros (Ho & tv & Ht & _) Hm He. do 2 eexists. split; [|split; [|split]].
  - unfold endstop_oversample_event, gpio_in_read. repeat wstep. rewrite next_input_at.
    change (e_flags (upd _ _ _)) with (e_flags e). unfold reading_matches in Hm.
    apply negb_false_iff in Hm. rewrite Hm. repeat wstep. reflexivity.
  - split; [|split; [autorewrite with wget; reflexivity|by split]].
    autorewrite with wget. erewrite obj_at_put by done. do 2 f_equal.
    destruct e. simpl in *. by subst.
  - done.
  - apply only_step.
Qed.

(** [k] matching samples leave [n - k] to go. *)
Lemma samples_run k oid e c wake w :
  sampling w oid e c wake -> (forall i, (i < k)%nat -> reading_matches w e i = true) ->
  Z.of_nat k < c < 256 ->
  exists w', (forall n, endstop_polls (k + n) oid w = endstop_polls n oid w') /\
    sampling w' oid e (c - Z.of_nat k) (wake + Z.of_nat k * e_sample_time e) /\
    only_endstop oid w w' /\ forall i, input_at w' i = input_at w (k + i).
Proof.
  revert c wake w. induction k as [|k IH]; intros c wake w Hs Hm Hc.
  - exists w. split; [done|]. split; [|split; [apply only_refl|done]].
    by rewrite Z.sub_0_r, Z.mul_0_l, Z.add_0_r.
  - destruct (sample_match oid e c wake w Hs (Hm 0%nat ltac:(lia)) ltac:(lia))
      as (w1 & Hrun & Hs1 & Ho1 & Hi1).
    destruct (IH (c - 1) (wake + e_sample_time e) w1 Hs1) as (w2 & Hp & Hs2 & Ho2 & Hi2); [|lia|].
    { intros i Hi. unfold reading_matches. rewrite Hi1. apply (Hm (S i)). lia. }
    exists w2. split; [|split; [|split]].
    + intros n. destruct Hs as (Ho & tv & Ht & Hf & _). cbn [Nat.add endstop_polls]. wstep.
      rewrite Hf, (bind_Ret _ _ _ _ _ Hrun). apply Hp.
    + replace (c - Z.of_nat (S k)) with (c - 1 - Z.of_nat k) by lia.
      by replace (wake + Z.of_nat (S k) * e_sample_time e)
        with (wake + e_sample_time e + Z.of_nat k * e_sample_time e) by lia.
    + by eapply only_trans.
    + intros i. rewrite Hi2, Hi1. done.
Qed.

(** The end stop's own poll, with a pin that matches. *)
Lemma first_match oid e tv w :
  endstop_armed w oid e tv -> reading_matches w e 0 = true -> 0 <= t_waketime tv < 4294967296 ->
  exists w', let e' := e <| e_nextwake := u32 (t_waketime tv + e_rest_time e) |> in
    endstop_event oid w = endstop_oversample_event oid w' /\
    sampling w' oid e' (e_sample_count e) (t_waketime tv) /\ only_endstop oid w w' /\
    forall i, input_at w' i = input_at w (S i).
Proof.
  intros (Ho & Ht & Hf & Hc) Hm Hw. eexists. cbn zeta. split; [|split; [|split]].
  - unfold endstop_event, gpio_in_read. repeat wstep. rewrite next_input_at.
    unfold reading_matches in Hm. apply negb_true_iff in Hm. rewrite Hm. repeat wstep. reflexivity.
  - split.
    + autorewrite with wget. erewrite obj_at_put by done. cbn [to_obj view_endstop].
      do 2 f_equal. destruct e. simpl in *. by subst.
    + eexists. split; [autorewrite with wget; reflexivity|]. split; [done|].
      symmetry. by apply u32_small.
  - apply only_step.
  - intros i. by autorewrite with wget.
Qed.

(** An end stop triggers when it has seen its configured number of consecutive
    matching samples.  With [n] = [e_sample_count], when the first reading and the [n]
    samples that follow it match, the [n]th expiration of the timer calls
    [trsync_do_trigger] with the configured reason and the timer ends; nothing else of
    the firmware has changed by then, and the last sample is taken [n - 1] sample times
    after the timer's first expiration. *)
Theorem endstop_triggers oid e tv w ts :
  endstop_armed w oid e tv -> 1 <= e_sample_count e < 256 -> 0 <= t_waketime tv < 4294967296 ->
  e_ts e = Some ts ->
  (forall i, (i <= Z.to_nat (e_sample_count e))%nat -> reading_matches w e i = true) ->
  exists w' tv', endstop_polls (Z.to_nat (e_sample_count e)) oid w
      = (trsync_do_trigger ts (e_trigger_reason e) ;; ret SF_DONE) w' /\
    timer_at w' (endstop_timer oid) = Some tv' /\
    t_waketime tv' = u32 (t_waketime tv + (e_sample_count e - 1) * e_sample_time e) /\
    only_endstop oid w w'.
Proof.
  intros Ha Hn Hw Hts Hm.
  destruct (first_match oid e tv w Ha (Hm 0%nat ltac:(lia)) Hw) as (w1 & E1 & Hs1 & Ho1 & Hi1).
  set (e' := e <| e_nextwake := _ |>) in *. set (n := e_sample_count e) in *.
  assert (Hm1 : forall i, (i < Z.to_nat n)%nat -> reading_matches w1 e' i = true).
  { intros i Hi. unfold reading_matches. rewrite Hi1. apply (Hm (S i)). lia. }
  assert (Epoll : forall k, endstop_polls (S k) oid w = endstop_polls (S k) oid w1).
  { intros k. destruct Ha as (_ & Ht & Hf & _). destruct Hs1 as (_ & t1 & Ht1 & Hf1 & _).
    cbn [endstop_polls]. wstep. wstep. unfold bind. by rewrite Hf, Hf1, E1. }
  destruct (samples_run (Z.to_nat n - 1) oid e' n (t_waketime tv) w1 Hs1) as (w2 & Hp & Hs2 & Ho2 & Hi2);
    [intros i Hi; apply Hm1; lia|lia|].
  assert (Hc : n - Z.of_nat (Z.to_nat n - 1) = 1) by lia. rewrite Hc in Hs2.
  assert (Hlast : reading_matches w2 e' 0 = true).
  { unfold reading_matches. rewrite Hi2. apply Hm1. lia. }
  pose proof (sample_last oid e' _ w2 ts Hs2 Hlast Hts) as Hl.
  destruct Hs2 as (Hob & tv2 & Ht2 & Hf2 & Hw2).
  exists (take_input w2), tv2. split; [|split; [done|split]].
  - replace (Z.to_nat n) with (S (Z.to_nat n - 1)) at 1 by lia. rewrite Epoll.
    replace (S (Z.to_nat n - 1)) with (Z.to_nat n - 1 + 1)%nat by lia. rewrite Hp.
    cbn [endstop_polls]. wstep. rewrite Hf2. unfold bind at 1. rewrite Hl. unfold bind.
    by destruct (trsync_do_trigger ts _ (take_input w2)).
  - rewrite Hw2. f_equal. change (e_sample_time e') with (e_sample_time e). nia.
  - eapply only_trans; [exact Ho1|]. eapply only_trans; [exact Ho2|]. by repeat split.
Qed.

(** A reading that does not match during oversampling is a glitch: it re-arms the
    end stop.  When the first reading and [k] < [n] samples match and the next one does
    not, the end stop waits again for its pin with all [n] samples to take, its timer
    set to one rest time after its first expiration, and nothing else has changed; in
    particular nothing was triggered. *)
Theorem endstop_glitch_rearms oid e tv w k :
  endstop_armed w oid e tv -> e_sample_count e < 256 -> 0 <= t_waketime tv < 4294967296 ->
  Z.of_nat k < e_sample_count e ->
  (forall i, (i <= k)%nat -> reading_matches w e i = true) -> reading_matches w e (S k) = false ->
  exists w' e' tv', endstop_polls (S k) oid w = Ret SF_RESCHEDULE w' /\
    endstop_armed w' oid e' tv' /\ e' = e <| e_nextwake := t_waketime tv' |> /\
    t_waketime tv' = u32 (t_waketime tv + e_rest_time e) /\ only_endstop oid w w'.
Proof.
  intros Ha Hn Hw Hk Hm Hbad.
  destruct (first_match oid e tv w Ha (Hm 0%nat ltac:(lia)) Hw) as (w1 & E1 & Hs1 & Ho1 & Hi1).
  set (e' := e <| e_nextwake := _ |>) in *. set (n := e_sample_count e) in *.
  assert (Epoll : endstop_polls (S k) oid w = endstop_polls (S k) oid w1).
  { destruct Ha as (_ & Ht & Hf & _). destruct Hs1 as (_ & t1 & Ht1 & Hf1 & _).
    cbn [endstop_polls]. wstep. wstep. unfold bind. by rewrite Hf, Hf1, E1. }
  destruct (samples_run k oid e' n (t_waketime tv) w1 Hs1) as (w2 & Hp & Hs2 & Ho2 & Hi2); [|lia|].
  { intros i Hi. unfold reading_matches. rewrite Hi1. apply (Hm (S i)). lia. }
  destruct (sample_mismatch oid e' _ _ w2 Hs2) as (w3 & tv3 & Hrun & Ha3 & Hw3 & Ho3).
  { unfold reading_matches. rewrite Hi2, Hi1, Nat.add_0_r. exact Hbad. }
  { by destruct Ha as (_ & _ & _ & ?). }
  exists w3, e', tv3. split; [|split; [done|split; [by rewrite Hw3|split; [done|]]]].
  - rewrite Epoll. replace (S k) with (k + 1)%nat by lia. rewrite Hp.
    destruct Hs2 as (_ & tv2 & Ht2 & Hf2 & _). cbn [endstop_polls]. wstep.
    by rewrite Hf2, (bind_Ret _ _ _ _ _ Hrun).
  - eapply only_trans; [exact Ho1|]. by eapply only_trans.
Qed.
End endstop.

(** ** Witnesses: a stepper, a trigger that stops it, an end stop that fires it *)

Definition homing_stepper : stepper :=
  (demo_stepper 0 16) <| s_stop_func := true |>.
Definition homing_trsync : trsync := mk_trsync 0 (Some 0) TSF_CAN_TRIGGER 0 0.
Definition homing_endstop : endstop := mk_endstop 9 500 20 0 (Some 1) 3 2 2 7.
Definition homing_world (inputs : nat -> Z) : world :=
  (demo_world homing_stepper)
    <| w_base ::= fun b => b <| oids := Some [
         mk_oid (Some OT_stepper) (Some (O_stepper homing_stepper));
         mk_oid (Some OT_trsync) (Some (O_trsync homing_trsync));
         mk_oid (Some OT_endstop) (Some (O_endstop homing_endstop))] |> |>
    <| w_sched ::= fun s => s <| timers ::=
         <[T_obj 2 0 := mk_timer None (Some F_endstop_event) 1000]> |> |>
    <| w_hw ::= fun h => h <| hw_input := inputs |> |>.

Lemma homing_rep inputs : timers_rep 0 (w_sched (homing_world inputs)) [(T_periodic, 0)].
Proof.
  refine (rep_set_other 0 (sched_init <| timers ::= <[T_obj 0 0 := mk_timer None None 4294967000]> |>)
    _ (T_obj 2 0) _ _ _ _); [|set_solver|by split_and!].
  refine (rep_set_other 0 sched_init _ (T_obj 0 0) _ init_rep _ _); [set_solver|by split_and!].
Qed.


Lemma homing_armed inputs :
  endstop_armed (homing_world inputs) 2 homing_endstop (mk_timer None (Some F_endstop_event) 1000).
Proof. by split_and!. Qed.

Lemma endstop_triggers_witness :
  exists w', endstop_polls (cfg := edge_config) 2 2 (homing_world (fun _ => 1))
    = (trsync_do_trigger (cfg := edge_config) 1 7 ;; ret SF_DONE) w' /\ obj_at w' 1 = Some (O_trsync homing_trsync).
Proof.
  destruct (endstop_triggers (cfg := edge_config) 2 homing_endstop _ _ 1 (homing_armed (fun _ => 1)))
    as (w' & tv' & Hrun & _ & _ & Hfr & _).
  - simpl. lia.
  - simpl. lia.
  - reflexivity.
  - intros i _. reflexivity.
  - exists w'. split; [exact Hrun|]. rewrite Hfr by done. reflexivity.
Defined.

Lemma endstop_glitch_rearms_witness :
  exists w' tv', endstop_polls (cfg := edge_config) 2 2 (homing_world (fun n => if (n <? 2)%nat then 1 else 0))
    = Ret SF_RESCHEDULE w' /\ timer_at w' (T_obj 2 0) = Some tv' /\ t_waketime tv' = 1500.
Proof.
  destruct (endstop_glitch_rearms (cfg := edge_config) 2 homing_endstop _ _ 1
    (homing_armed (fun n => if (n <? 2)%nat then 1 else 0)))
    as (w' & e' & tv' & Hrun & (_ & Ht & _) & _ & Hw & _).
  - simpl. lia.
  - simpl. lia.
  - simpl. lia.
  - intros [|[|i]] Hi; [reflexivity|reflexivity|lia].
  - reflexivity.
  - exists w', tv'. split; [exact Hrun|]. split; [exact Ht|exact Hw].
Defined.
