(* ===== verification/Gpiocmds.v ===== *)
(** * Output pins

    src/gpiocmds.c (digital outputs with a software PWM, a move queue and a safety
    timeout) and src/pwmcmds.c (hardware PWM outputs). *)

From S2P Require Import Prelude Command Sched Basecmd World.

Definition DF_ON : Z := 1.
Definition DF_TOGGLING : Z := 2.
Definition DF_CHECK_END : Z := 4.
Definition DF_DEFAULT_ON : Z := 16.

Section gpiocmds.
Context {cfg : Config} {tgt : Target} (sizeof_digital_move sizeof_pwm_move : Z).

Definition out_timer (oid : Z) : tid := T_obj oid 0.

Definition get_digital_move (mn : Z) : M world digital_move :=
  p <- mget_pay mn ;; match p with P_digital m => ret m | _ => stuck end.
Definition get_pwm_move (mn : Z) : M world pwm_move :=
  p <- mget_pay mn ;; match p with P_pwm m => ret m | _ => stuck end.

(** ** Digital outputs *)

Definition digital_toggle_event (oid : Z) : M world Z :=
  d <- oget (T := digital_out_s) oid ;;
  gpio_out_toggle_noirq (d_pin d) ;;
  omod oid (fun d => d <| d_flags := Z.lxor (d_flags d) DF_ON |>) ;;
  d <- oget (T := digital_out_s) oid ;;
  t <- tget (out_timer oid) ;;
  let waketime := if has (d_flags d) DF_ON then u32 (t_waketime t + d_on_duration d)
                  else u32 (t_waketime t + d_off_duration d) in
  waketime <-
    (if has (d_flags d) DF_CHECK_END && negb (timer_is_before waketime (d_end_time d)) then
       tmod (out_timer oid) (fun t => t <| t_func := Some F_digital_load_event |>) ;;
       ret (d_end_time d)
     else ret waketime) ;;
  tmod (out_timer oid) (fun t => t <| t_waketime := waketime |>) ;;
  ret SF_RESCHEDULE.

(** The part of [digital_load_event] that computes [end_time] and [flags] from the
    loaded duration; [waketime] is that of the timer. *)
Definition load_end_time (d : digital_out_s) (waketime on_duration : Z) : Z * Z :=
  let flags := if negb (on_duration =? 0) then DF_ON else 0 in
  if (flags =? 0) || (d_cycle_time d <=? on_duration) then
    if negb (eqb (flags =? 0) (negb (has (d_flags d) DF_DEFAULT_ON)))
       && negb (d_max_duration d =? 0)
    then (u32 (waketime + d_max_duration d), Z.lor flags DF_CHECK_END)
    else (0, flags)
  else
    let flags := Z.lor flags DF_TOGGLING in
    if negb (d_max_duration d =? 0)
    then (u32 (waketime + d_max_duration d), Z.lor flags DF_CHECK_END)
    else (0, flags).

(** The end of [digital_load_event]: store the deadline and schedule the next event. *)
Definition digital_schedule (oid now on_duration end_time flags : Z) : M world Z :=
  omod oid (fun d => d <| d_end_time := end_time |>) ;;
  omod oid (fun d => d <| d_flags := Z.lor flags (Z.land (d_flags d) DF_DEFAULT_ON) |>) ;;
  if negb (has flags DF_TOGGLING) then
    if negb (has flags DF_CHECK_END) then ret SF_DONE
    else
      tmod (out_timer oid) (fun t => t <| t_waketime := end_time |>) ;;
      ret SF_RESCHEDULE
  else
    let waketime := u32 (now + on_duration) in
    if has flags DF_CHECK_END && negb (timer_is_before waketime end_time) then
      tmod (out_timer oid) (fun t => t <| t_waketime := end_time |>) ;;
      ret SF_RESCHEDULE
    else
      tmod (out_timer oid) (fun t => t <| t_func := Some F_digital_toggle_event |>) ;;
      tmod (out_timer oid) (fun t => t <| t_waketime := waketime |>) ;;
      omod oid (fun d => d <| d_on_duration := on_duration |>) ;;
      omod oid (fun d => d <| d_off_duration := u32 (d_cycle_time d - on_duration) |>) ;;
      ret SF_RESCHEDULE.

Definition digital_load_event (oid : Z) : M world Z :=
  d <- oget (T := digital_out_s) oid ;;
  if move_queue_empty (d_mq d) then shutdown "Missed scheduling of next digital out event"
  else
    '(mq, mn) <- move_queue_pop (d_mq d) ;;
    omod oid (fun d => d <| d_mq := mq |>) ;;
    m <- get_digital_move mn ;;
    let on_duration := dm_on_duration m in
    gpio_out_write (d_pin d) (if negb (on_duration =? 0) then DF_ON else 0) ;;
    move_free mn ;;
    d <- oget (T := digital_out_s) oid ;;
    t <- tget (out_timer oid) ;;
    let '(end_time, flags) := load_end_time d (t_waketime t) on_duration in
    '(end_time, flags) <-
      match move_queue_first (d_mq d) with
      | None => ret (end_time, flags)
      | Some nn =>
          nm <- get_digital_move nn ;;
          let wake := dm_waketime nm in
          if has flags DF_CHECK_END && timer_is_before end_time wake
          then shutdown "Scheduled digital out event will exceed max_duration"
          else ret (wake, Z.lor flags DF_CHECK_END)
      end ;;
    digital_schedule oid (t_waketime t) on_duration end_time flags.

Definition digital_out_zero : digital_out_s := mk_digital_out 0 0 0 0 0 0 mq_empty_head 0.

Definition command_config_digital_out (args : list Z) : M world unit :=
  pin <- gpio_out_setup (nthZ args 1) (b2z (negb (nthZ args 2 =? 0))) ;;
  oid <- obj_alloc (nthZ args 0) OT_digital_out digital_out_zero [0] ;;
  omod oid (fun d => d <| d_pin := pin |>) ;;
  omod oid (fun d => d <| d_flags :=
    Z.lor (if negb (nthZ args 2 =? 0) then DF_ON else 0)
          (if negb (nthZ args 3 =? 0) then DF_DEFAULT_ON else 0) |>) ;;
  omod oid (fun d => d <| d_max_duration := nthZ args 4 |>) ;;
  mq <- move_queue_setup sizeof_digital_move ;;
  omod oid (fun d => d <| d_mq := mq |>).

Definition command_set_digital_out_pwm_cycle (args : list Z) : M world unit :=
  oid <- oid_lookup (nthZ args 0) OT_digital_out ;;
  d <- oget (T := digital_out_s) oid ;;
  if negb (move_queue_empty (d_mq d))
  then shutdown "Can not set soft pwm cycle ticks while updates pending"
  else omod oid (fun d => d <| d_cycle_time := nthZ args 1 |>).

Definition command_queue_digital_out (args : list Z) : M world unit :=
  oid <- oid_lookup (nthZ args 0) OT_digital_out ;;
  mn <- move_alloc ;;
  let time := nthZ args 1 in
  mset_pay mn (P_digital (mk_digital_move time (nthZ args 2))) ;;
  d <- oget (T := digital_out_s) oid ;;
  '(mq, first_on_queue) <- move_queue_push mn (d_mq d) ;;
  omod oid (fun d => d <| d_mq := mq |>) ;;
  if first_on_queue =? 0 then ret tt
  else
    d <- oget (T := digital_out_s) oid ;;
    let flags := d_flags d in
    if has flags DF_CHECK_END && timer_is_before (d_end_time d) time
    then shutdown "Scheduled digital out event will exceed max_duration"
    else
      omod oid (fun d => d <| d_end_time := time |>) ;;
      omod oid (fun d => d <| d_flags := Z.lor flags DF_CHECK_END |>) ;;
      t <- tget (out_timer oid) ;;
      if has flags DF_TOGGLING && timer_is_before (t_waketime t) time then ret tt
      else
        sched_del_timer (out_timer oid) ;;
        tmod (out_timer oid) (fun t => t <| t_waketime := time |>) ;;
        tmod (out_timer oid) (fun t => t <| t_func := Some F_digital_load_event |>) ;;
        sched_add_timer (out_timer oid).

Definition command_update_digital_out (args : list Z) : M world unit :=
  oid <- oid_lookup (nthZ args 0) OT_digital_out ;;
  sched_del_timer (out_timer oid) ;;
  d <- oget (T := digital_out_s) oid ;;
  if negb (move_queue_empty (d_mq d))
  then shutdown "update_digital_out not valid with active queue"
  else
    let value := u8 (nthZ args 1) in
    let flags := d_flags d in
    let on_flag := if negb (value =? 0) then DF_ON else 0 in
    gpio_out_write (d_pin d) on_flag ;;
    if negb (eqb (on_flag =? 0) (negb (has flags DF_DEFAULT_ON)))
       && negb (d_max_duration d =? 0) then
      now <- timer_read_time ;;
      let wake := u32 (now + d_max_duration d) in
      omod oid (fun d => d <| d_end_time := wake |>) ;;
      tmod (out_timer oid) (fun t => t <| t_waketime := wake |>) ;;
      tmod (out_timer oid) (fun t => t <| t_func := Some F_digital_load_event |>) ;;
      omod oid (fun d => d <| d_flags :=
        Z.lor (Z.lor (Z.land flags DF_DEFAULT_ON) on_flag) DF_CHECK_END |>) ;;
      sched_add_timer (out_timer oid)
    else
      omod oid (fun d => d <| d_flags := Z.lor (Z.land flags DF_DEFAULT_ON) on_flag |>).

Definition digital_out_shutdown : M world unit :=
  foreach_oid OT_digital_out (fun oid =>
    d <- oget (T := digital_out_s) oid ;;
    gpio_out_write (d_pin d) (Z.land (d_flags d) DF_DEFAULT_ON) ;;
    omod oid (fun d => d <| d_flags :=
      if has (d_flags d) DF_DEFAULT_ON then Z.lor DF_ON DF_DEFAULT_ON else 0 |>) ;;
    omod oid (fun d => d <| d_mq := move_queue_clear (d_mq d) |>)).

Definition command_set_digital_out (args : list Z) : M world unit :=
  gpio_out_setup (nthZ args 0) (nthZ args 1) ;; ret tt.

(** ** Hardware PWM outputs *)

Definition pwm_end_event (oid : Z) : M world Z :=
  shutdown "Missed scheduling of next hard pwm event".

Definition pwm_event (oid : Z) : M world Z :=
  p <- oget (T := pwm_out_s) oid ;;
  '(mq, mn) <- move_queue_pop (p_mq p) ;;
  omod oid (fun p => p <| p_mq := mq |>) ;;
  m <- get_pwm_move mn ;;
  let value := pm_value m in
  gpio_pwm_write (p_pin p) value ;;
  move_free mn ;;
  match move_queue_first mq with
  | None =>
      if (value =? p_default_value p) || (p_max_duration p =? 0) then ret SF_DONE
      else
        tmod (out_timer oid) (fun t =>
          t <| t_waketime := u32 (t_waketime t + p_max_duration p) |>) ;;
        tmod (out_timer oid) (fun t => t <| t_func := Some F_pwm_end_event |>) ;;
        ret SF_RESCHEDULE
  | Some nn =>
      nm <- get_pwm_move nn ;;
      let wake := pm_waketime nm in
      t <- tget (out_timer oid) ;;
      if negb (value =? p_default_value p) && negb (p_max_duration p =? 0)
         && timer_is_before (u32 (t_waketime t + p_max_duration p)) wake
      then shutdown "Scheduled pwm event will exceed max_duration"
      else
        tmod (out_timer oid) (fun t => t <| t_waketime := wake |>) ;;
        ret SF_RESCHEDULE
  end.

Definition pwm_out_zero : pwm_out_s := mk_pwm_out 0 0 0 mq_empty_head.

Definition command_config_pwm_out (args : list Z) : M world unit :=
  pin <- gpio_pwm_setup (nthZ args 1) (nthZ args 2) (nthZ args 3) ;;
  oid <- obj_alloc (nthZ args 0) OT_pwm_out pwm_out_zero [0] ;;
  omod oid (fun p => p <| p_pin := pin |>) ;;
  omod oid (fun p => p <| p_default_value := u16 (nthZ args 4) |>) ;;
  omod oid (fun p => p <| p_max_duration := nthZ args 5 |>) ;;
  tmod (out_timer oid) (fun t => t <| t_func := Some F_pwm_event |>) ;;
  mq <- move_queue_setup sizeof_pwm_move ;;
  omod oid (fun p => p <| p_mq := mq |>).

Definition command_queue_pwm_out (args : list Z) : M world unit :=
  oid <- oid_lookup (nthZ args 0) OT_pwm_out ;;
  mn <- move_alloc ;;
  let waketime := nthZ args 1 in
  mset_pay mn (P_pwm (mk_pwm_move waketime (u16 (nthZ args 2)))) ;;
  p <- oget (T := pwm_out_s) oid ;;
  '(mq, need_add_timer) <- move_queue_push mn (p_mq p) ;;
  omod oid (fun p => p <| p_mq := mq |>) ;;
  if need_add_timer =? 0 then ret tt
  else
    sched_del_timer (out_timer oid) ;;
    t <- tget (out_timer oid) ;;
    if bool_decide (t_func t = Some F_pwm_end_event) && timer_is_before (t_waketime t) waketime
    then shutdown "Scheduled pwm event will exceed max_duration"
    else
      tmod (out_timer oid) (fun t => t <| t_func := Some F_pwm_event |>) ;;
      tmod (out_timer oid) (fun t => t <| t_waketime := waketime |>) ;;
      sched_add_timer (out_timer oid).

Definition pwm_shutdown : M world unit :=
  foreach_oid OT_pwm_out (fun oid =>
    p <- oget (T := pwm_out_s) oid ;;
    gpio_pwm_write (p_pin p) (p_default_value p) ;;
    tmod (out_timer oid) (fun t => t <| t_func := Some F_pwm_event |>) ;;
    omod oid (fun p => p <| p_mq := move_queue_clear (p_mq p) |>)).

Definition command_set_pwm_out (args : list Z) : M world unit :=
  gpio_pwm_setup (nthZ args 0) (nthZ args 1) (nthZ args 2) ;; ret tt.
End gpiocmds.
