(* ===== verification/GpiocmdsFacts.v ===== *)
(** * Properties of output pins

    An output that is not in its default state is always on the way to a deadline,
    and a shutdown returns every output to its default. *)

From S2P Require Import Prelude Command Sched SchedFacts Basecmd BasecmdFacts World WorldFacts StepperFacts Gpiocmds.

Section outputs.
Context {cfg : Config}.

Definition digital_view (w : world) (oid : Z) (d : digital_out_s) (tv : timer) : Prop :=
  obj_at w oid = Some (O_digital_out d) /\ timer_at w (out_timer oid) = Some tv.

(** The output has a deadline: its timer loads the next update at [d_end_time], or
    toggles the pin before that. *)
Definition deadline_armed (d : digital_out_s) (tv : timer) : Prop :=
  has (d_flags d) DF_CHECK_END = true /\
  ((t_func tv = Some F_digital_load_event /\ t_waketime tv = d_end_time d) \/
   (t_func tv = Some F_digital_toggle_event /\
    timer_is_before (t_waketime tv) (d_end_time d) = true)).

(** An update to [on_duration] leaves the default state of the pin. *)
Definition leaves_default (d : digital_out_s) (on_duration : Z) : bool :=
  if on_duration =? 0 then has (d_flags d) DF_DEFAULT_ON
  else negb (has (d_flags d) DF_DEFAULT_ON) || (on_duration <? d_cycle_time d).

(** The payload of a queue's node. *)
Definition digital_node (w : world) (mn : Z) (m : digital_move) : Prop :=
  exists v, pool_of w !! mn = Some v /\ mv_pay v = Some (P_digital m).

(** What [load_end_time] computes for such an update. *)
Lemma load_end_time_away d wake on_duration :
  leaves_default d on_duration = true -> d_max_duration d <> 0 ->
  exists f, load_end_time d wake on_duration = (u32 (wake + d_max_duration d), Z.lor f DF_CHECK_END) /\
    (f = DF_ON \/ f = 0 \/ f = 3).
Proof.
  intros Hl Hm. unfold load_end_time, leaves_default in *.
  destruct (Z.eqb_spec on_duration 0) as [E0|Hne]; cbn [negb Z.eqb orb] in *.
  - rewrite Hl. destruct (Z.eqb_spec (d_max_duration d) 0); [done|]. cbn. eauto.
  - destruct (Z.eqb_spec (d_max_duration d) 0) as [|_]; [done|]. unfold DF_ON at 1 2. cbn [Z.eqb orb].
    destruct (Z.leb_spec (d_cycle_time d) on_duration) as [Hle|Hlt].
    + destruct (Z.ltb_spec on_duration (d_cycle_time d)); [lia|]. rewrite orb_false_r in Hl.
      rewrite Hl. cbn. eauto.
    + cbn. eauto.
Qed.

Lemma bind_get_digital mn m {A} (k : digital_move -> M world A) w :
  digital_node w mn m -> bind (get_digital_move mn) k w = k m w.
Proof.
  intros (v & Hv & Hp). unfold get_digital_move, mget_pay, bind.
  rewrite (wmget_Ret mn v) by done. by rewrite Hp.
Qed.

Lemma bind_move_free mn v {A} (k : unit -> M world A) w :
  pool_of w !! mn = Some v ->
  bind (move_free mn) k w = k tt (put_pool
    (<[mn := mk_move (move_free_list (w_base w)) (mv_pay v)]> (pool_of w)) (Some mn) w).
Proof. intros Hv. by rewrite (bind_Ret _ _ _ _ _ (wmove_free_Ret mn v w Hv)). Qed.

Lemma digital_node_other w w' mn m x v :
  digital_node w mn m -> mn <> x -> pool_of w' = <[x := v]> (pool_of w) -> digital_node w' mn m.
Proof. intros (u & Hu & Hp) Hne E. exists u. by rewrite E, lookup_insert_ne. Qed.

(** ** Loading an update *)

Lemma check_end_flag f : has (Z.lor f DF_CHECK_END) DF_CHECK_END = true /\
  forall x, has (Z.lor (Z.lor f DF_CHECK_END) (Z.land x DF_DEFAULT_ON)) DF_CHECK_END = true.
Proof.
  assert (Hc : Z.testbit (Z.lor f DF_CHECK_END) 2 = true) by (rewrite Z.lor_spec; apply orb_true_r).
  assert (Hh : forall z, Z.testbit z 2 = true -> has z DF_CHECK_END = true).
  { intros z Hz. unfold has. destruct (Z.eqb_spec (Z.land z DF_CHECK_END) 0) as [E|]; [|done].
    apply (f_equal (fun z => Z.testbit z 2)) in E. rewrite Z.land_spec, Hz in E. done. }
  split; [by apply Hh|]. intros x. apply Hh. by rewrite Z.lor_spec, Hc.
Qed.

Lemma digital_schedule_run oid d tv w on_duration e f :
  digital_view w oid d tv -> t_func tv = Some F_digital_load_event ->
  exists w' d' tv',
    digital_schedule oid (t_waketime tv) on_duration e (Z.lor f DF_CHECK_END) w = Ret SF_RESCHEDULE w' /\
    digital_view w' oid d' tv' /\ deadline_armed d' tv' /\ d_end_time d' = e /\ trace w' = trace w.
Proof.
  intros [Ho Ht] Hfunc. destruct (check_end_flag f) as [C1 C2]. unfold digital_schedule.
  rewrite C1. wstep. wstep.
  destruct (has (Z.lor f DF_CHECK_END) DF_TOGGLING); cbn [negb andb]; cbn zeta;
    [destruct (timer_is_before (u32 (t_waketime tv + on_duration)) e) eqn:Eb; cbn [negb]|];
    repeat wstep; do 3 eexists; (split; [reflexivity|]);
    (split; [split; autorewrite with wget; [by eapply obj_at_put|reflexivity]|]);
    (split; [|done]); (split; [apply C2|]); [right|left|left]; by split.
Qed.

Lemma digital_load_run oid d tv w mn m q :
  digital_view w oid d tv -> t_func tv = Some F_digital_load_event ->
  mq_rep (pool_of w) (d_mq d) (mn :: q) -> NoDup (mn :: q) -> digital_node w mn m ->
  (forall nn, head q = Some nn -> exists nm, digital_node w nn nm) ->
  leaves_default d (dm_on_duration m) = true -> d_max_duration d <> 0 ->
  let limit := u32 (t_waketime tv + d_max_duration d) in
  (exists nn nm w', head q = Some nn /\ digital_node w nn nm /\
     timer_is_before limit (dm_waketime nm) = true /\
     digital_load_event oid w = Shut "Scheduled digital out event will exceed max_duration" w') \/
  (exists w' d' tv', digital_load_event oid w = Ret SF_RESCHEDULE w' /\
     digital_view w' oid d' tv' /\ deadline_armed d' tv' /\
     timer_is_before limit (d_end_time d') = false /\
     trace w' = trace w ++ [Ev_out_write (d_pin d)
                              (if negb (dm_on_duration m =? 0) then DF_ON else 0)]).
Proof.
  intros [Ho Ht] Hfunc Hq Hnd Hm Hnext Haway Hmax limit.
  destruct (move_queue_pop_run (PB := world_base) mn (d_mq d) q w Hq) as (v & mq & Hv & Hpop & Hq').
  unfold digital_load_event. wstep.
  assert (Ee : move_queue_empty (d_mq d) = false).
  { destruct Hq as [[E _] _]. unfold move_queue_empty. by rewrite E. }
  rewrite Ee, (bind_Ret _ _ _ _ _ Hpop). wstep. rewrite (bind_get_digital mn m) by done.
  unfold gpio_out_write. wstep. rewrite (bind_move_free mn v) by done. repeat wstep.
  destruct (load_end_time_away (d <| d_mq := mq |>) (t_waketime tv) (dm_on_duration m) Haway Hmax)
    as (f & Hend & Hf).
  match goal with |- context [load_end_time ?a ?b ?c] =>
    replace (load_end_time a b c) with (limit, Z.lor f DF_CHECK_END) by (symmetry; exact Hend) end.
  cbn [d_mq upd]. unfold move_queue_first.
  assert (Hfirst : mq_first mq = head q).
  { destruct Hq' as [Hc _]. destruct q; simpl in Hc; [done|]. by destruct Hc. }
  rewrite Hfirst. set (w1 := put_pool _ _ _).
  assert (Ho1 : obj_at w1 oid = Some (O_digital_out (d <| d_mq := mq |>))).
  { unfold w1. autorewrite with wget. by eapply obj_at_put. }
  assert (Ht1 : timer_at w1 (out_timer oid) = Some tv) by exact Ht.
  destruct (check_end_flag f) as [C1 C2].
  assert (Hlim : timer_is_before limit limit = false).
  { unfold timer_is_before. by rewrite Z.sub_diag. }
  assert (Etr : trace w1 = trace w ++ [Ev_out_write (d_pin d)
                              (if negb (dm_on_duration m =? 0) then DF_ON else 0)]) by done.
  destruct (head q) as [nn|] eqn:Eq.
  - destruct (Hnext nn eq_refl) as [nm Hnm].
    assert (Hnn : nn <> mn).
    { destruct q; [done|]. injection Eq as ->. apply NoDup_cons in Hnd as [Hni _]. set_solver. }
    assert (Hnm1 : digital_node w1 nn nm) by (eapply digital_node_other; [exact Hnm|exact Hnn|reflexivity]).
    rewrite bind_bind, (bind_get_digital nn nm) by done.
    rewrite C1. cbn [andb].
    destruct (timer_is_before limit (dm_waketime nm)) eqn:Eb.
    + left. exists nn, nm. eexists. by split_and!.
    + right. wstep.
      destruct (digital_schedule_run oid (d <| d_mq := mq |>) tv w1 (dm_on_duration m) (dm_waketime nm)
        (Z.lor f DF_CHECK_END) (conj Ho1 Ht1) Hfunc) as (w' & d' & tv' & Hrun & Hv' & Ha & He & Htr).
      exists w', d', tv'. split; [exact Hrun|]. split; [done|]. split; [done|]. rewrite He, Htr. by split.
  - right. wstep.
    destruct (digital_schedule_run oid (d <| d_mq := mq |>) tv w1 (dm_on_duration m) limit f
      (conj Ho1 Ht1) Hfunc) as (w' & d' & tv' & Hrun & Hv' & Ha & He & Htr).
    exists w', d', tv'. split; [exact Hrun|]. split; [done|]. split; [done|]. rewrite He, Htr. by split.
Qed.

Lemma toggle_check_end f : has (Z.lxor f DF_ON) DF_CHECK_END = has f DF_CHECK_END.
Proof.
  unfold has. do 2 f_equal. apply Z.bits_inj'. intros n Hn.
  rewrite !Z.land_spec, Z.lxor_spec.
  destruct (decide (n = 2)) as [->|Hne]; [by rewrite xorb_false_r|].
  change DF_CHECK_END with (2 ^ 2). rewrite Z.pow2_bits_false by done. by rewrite !andb_false_r.
Qed.

(** Toggling the pin keeps the deadline. *)
Lemma digital_toggle_run oid d tv w :
  digital_view w oid d tv -> deadline_armed d tv -> t_func tv = Some F_digital_toggle_event ->
  exists w' d' tv', digital_toggle_event oid w = Ret SF_RESCHEDULE w' /\
    digital_view w' oid d' tv' /\ deadline_armed d' tv' /\ d_end_time d' = d_end_time d.
Proof.
  intros [Ho Ht] [Hc Hd] Hf. unfold digital_toggle_event, gpio_out_toggle_noirq. wstep. wstep. wstep.
  wstep. wstep. change (d_flags (d <| d_flags := Z.lxor (d_flags d) DF_ON |>)) with (Z.lxor (d_flags d) DF_ON).
  assert (Hc' : has (Z.lxor (d_flags d) DF_ON) DF_CHECK_END = true) by (by rewrite toggle_check_end).
  rewrite Hc'. cbn [andb d_end_time d_on_duration d_off_duration upd].
  match goal with |- context [timer_is_before ?x (d_end_time d)] => set (wake := x) end.
  destruct (timer_is_before wake (d_end_time d)) eqn:Eb; cbn [negb]; repeat wstep;
    do 3 eexists; (split; [reflexivity|]);
    (split; [split; autorewrite with wget; [by eapply obj_at_put|reflexivity]|]);
    (split; [|done]); (split; [exact Hc'|]); [right|left]; by split.
Qed.

Lemma digital_missed oid d tv w :
  digital_view w oid d tv -> move_queue_empty (d_mq d) = true ->
  digital_load_event oid w = Shut "Missed scheduling of next digital out event" w.
Proof. intros [Ho _] He. unfold digital_load_event. wstep. by rewrite He. Qed.


(** ** Shutdown *)

(** The output [oid] is off its queue and in its default state. *)
Definition digital_safe (w : world) (oid : nat) (d : digital_out_s) : Prop :=
  exists d', obj_at w (Z.of_nat oid) = Some (O_digital_out d') /\
    d_pin d' = d_pin d /\ move_queue_empty (d_mq d') = true /\
    has (d_flags d') DF_DEFAULT_ON = has (d_flags d) DF_DEFAULT_ON /\
    has (d_flags d') DF_ON = has (d_flags d) DF_DEFAULT_ON /\
    has (d_flags d') DF_CHECK_END = false /\
    Ev_out_write (d_pin d) (Z.land (d_flags d) DF_DEFAULT_ON) ∈ trace w.

Definition pwm_safe (w : world) (oid : nat) (p : pwm_out_s) : Prop :=
  exists p', obj_at w (Z.of_nat oid) = Some (O_pwm_out p') /\
    p_pin p' = p_pin p /\ p_default_value p' = p_default_value p /\
    move_queue_empty (p_mq p') = true /\
    Ev_pwm_write (p_pin p) (p_default_value p) ∈ trace w.

(** Writing an object keeps the table well formed. *)
Lemma table_ok_put tys oid o w : table_ok (PB := world_base) w tys -> table_ok (PB := world_base) (put_obj oid o w) tys.
Proof.
  intros (t & Ht & Hty & Hd & Hc & Hl).
  exists (alter (fun e => mk_oid (oid_type e) (Some o)) (Z.to_nat oid) t).
  unfold put_obj. change (oids (part_get w)) with (oids (w_base w)) in Ht.
  split; [simpl; by rewrite Ht|]. split; [|split; [|done]].
  - rewrite <- Hty. apply list_eq. intros i. rewrite !list_lookup_fmap.
    destruct (decide (i = Z.to_nat oid)) as [->|Hne].
    + rewrite list_lookup_alter_eq. by destruct (t !! Z.to_nat oid).
    + by rewrite list_lookup_alter_ne.
  - apply Forall_lookup. intros i e He. rewrite Forall_lookup in Hd.
    destruct (decide (i = Z.to_nat oid)) as [->|Hne].
    + rewrite list_lookup_alter_eq in He. destruct (t !! Z.to_nat oid); [|done]. injection He as <-. by eexists.
    + rewrite list_lookup_alter_ne in He by done. by eapply Hd.
Qed.

(** Every entry of the table holds an object of its type. *)
Definition table_digital (w : world) (tys : list (option otype)) : Prop :=
  forall i, tys !! i = Some (Some OT_digital_out) ->
    exists d, obj_at w (Z.of_nat i) = Some (O_digital_out d).
Definition table_pwm (w : world) (tys : list (option otype)) : Prop :=
  forall i, tys !! i = Some (Some OT_pwm_out) ->
    exists p, obj_at w (Z.of_nat i) = Some (O_pwm_out p) /\
      is_Some (timer_at w (out_timer (Z.of_nat i))).

Lemma default_on_flags f :
  let g := if has f DF_DEFAULT_ON then Z.lor DF_ON DF_DEFAULT_ON else 0 in
  has g DF_DEFAULT_ON = has f DF_DEFAULT_ON /\ has g DF_ON = has f DF_DEFAULT_ON /\
  has g DF_CHECK_END = false.
Proof. destruct (has f DF_DEFAULT_ON); by split_and!. Qed.

Lemma digital_shutdown_run tys w :
  table_ok (PB := world_base) w tys -> table_digital w tys ->
  exists w', digital_out_shutdown w = Ret tt w' /\
    (forall i d, obj_at w (Z.of_nat i) = Some (O_digital_out d) ->
       tys !! i = Some (Some OT_digital_out) -> digital_safe w' i d) /\
    (forall i, tys !! i <> Some (Some OT_digital_out) ->
       obj_at w' (Z.of_nat i) = obj_at w (Z.of_nat i)).
Proof.
  intros Hok Hd.
  destruct (foreach_oid_rule (PB := world_base) OT_digital_out (fun oid =>
      d <- oget (T := digital_out_s) oid ;;
      gpio_out_write (d_pin d) (Z.land (d_flags d) DF_DEFAULT_ON) ;;
      omod oid (fun d => d <| d_flags :=
        if has (d_flags d) DF_DEFAULT_ON then Z.lor DF_ON DF_DEFAULT_ON else 0 |>) ;;
      omod oid (fun d => d <| d_mq := move_queue_clear (d_mq d) |>))
    (fun n v => (forall i d, (i < n)%nat -> obj_at w (Z.of_nat i) = Some (O_digital_out d) ->
                   tys !! i = Some (Some OT_digital_out) -> digital_safe v i d) /\
                (forall i, (n <= i)%nat \/ tys !! i <> Some (Some OT_digital_out) -> obj_at v (Z.of_nat i) = obj_at w (Z.of_nat i)))
    tys w Hok) as (w' & Hrun & [Hsafe Hrest] & _).
  + split; [lia|done].
  + intros i v [Hs Hfr] Hokv Hti. destruct (Hd i Hti) as [d Hdi].
    assert (Hdv : obj_at v (Z.of_nat i) = Some (O_digital_out d)) by (rewrite Hfr by lia; done).
    eexists. split; [|split].
    * unfold gpio_out_write. repeat wstep. eapply omod_Ret. wget_solve.
    * autorewrite with wput. split.
      -- intros j d' Hj Hdj Htj. destruct (decide (j = i)) as [->|Hne].
         ++ assert (d' = d) as -> by congruence. eexists.
            split; [autorewrite with wget; by eapply obj_at_put|].
            destruct (default_on_flags (d_flags d)) as (F1 & F2 & F3).
            split; [done|]. split; [done|]. split; [exact F1|]. split; [exact F2|].
            split; [exact F3|]. autorewrite with wget. set_solver.
         ++ destruct (Hs j d' ltac:(lia) Hdj Htj) as (d2 & Ho2 & R1 & R2 & R3 & R4 & R5 & R6).
            exists d2. autorewrite with wget. rewrite obj_at_put_ne by lia.
            split_and!; try done. set_solver.
      -- intros j Hj. assert (j <> i) by (intros ->; destruct Hj; [lia|done]).
         autorewrite with wget. rewrite obj_at_put_ne by lia. apply Hfr. destruct Hj; [left; lia|by right].
    * autorewrite with wput. exact (table_ok_put _ _ _ _ Hokv).
  + intros i v [Hs Hfr] Hti. split; [|intros j [Hj|Hj]; apply Hfr; [left; lia|by right]].
    intros j d Hj Hdj Htj. destruct (decide (j = i)) as [->|]; [done|]. apply Hs; [lia|done..].
  + exists w'. split; [exact Hrun|]. split; [|by auto].
    intros i d Ho Hti. apply Hsafe; [by eapply lookup_lt_Some|done..].
Qed.

Lemma pwm_shutdown_run tys w :
  table_ok (PB := world_base) w tys -> table_pwm w tys ->
  exists w', pwm_shutdown w = Ret tt w' /\
    (forall i p, obj_at w (Z.of_nat i) = Some (O_pwm_out p) ->
       tys !! i = Some (Some OT_pwm_out) -> pwm_safe w' i p) /\
    (forall i, tys !! i <> Some (Some OT_pwm_out) ->
       obj_at w' (Z.of_nat i) = obj_at w (Z.of_nat i)).
Proof.
  intros Hok Hp.
  destruct (foreach_oid_rule (PB := world_base) OT_pwm_out (fun oid =>
      p <- oget (T := pwm_out_s) oid ;;
      gpio_pwm_write (p_pin p) (p_default_value p) ;;
      tmod (out_timer oid) (fun t => t <| t_func := Some F_pwm_event |>) ;;
      omod oid (fun p => p <| p_mq := move_queue_clear (p_mq p) |>))
    (fun n v => (forall i p, (i < n)%nat -> obj_at w (Z.of_nat i) = Some (O_pwm_out p) ->
                   tys !! i = Some (Some OT_pwm_out) -> pwm_safe v i p) /\
                (forall i, (n <= i)%nat \/ tys !! i <> Some (Some OT_pwm_out) -> obj_at v (Z.of_nat i) = obj_at w (Z.of_nat i)) /\
                (forall t, is_Some (timer_at w t) -> is_Some (timer_at v t)))
    tys w Hok) as (w' & Hrun & (Hsafe & Hrest & _) & _).
  + split; [lia|done].
  + intros i v (Hs & Hfr & Htm) Hokv Hti. destruct (Hp i Hti) as (p & Hpi & Hti').
    assert (Hpv : obj_at v (Z.of_nat i) = Some (O_pwm_out p)) by (rewrite Hfr by lia; done).
    destruct (Htm _ Hti') as [tv Htv].
    eexists. split; [|split].
    * unfold gpio_pwm_write. repeat wstep. eapply omod_Ret. wget_solve.
    * autorewrite with wput. split; [|split].
      -- intros j p' Hj Hpj Htj. destruct (decide (j = i)) as [->|Hne].
         ++ assert (p' = p) as -> by congruence. eexists.
            split; [autorewrite with wget; by eapply obj_at_put|].
            split_and!; try done. autorewrite with wget. set_solver.
         ++ destruct (Hs j p' ltac:(lia) Hpj Htj) as (p2 & Ho2 & R1 & R2 & R3 & R4).
            exists p2. autorewrite with wget. rewrite obj_at_put_ne by lia.
            split_and!; try done. set_solver.
      -- intros j Hj. assert (j <> i) by (intros ->; destruct Hj; [lia|done]).
         autorewrite with wget. rewrite obj_at_put_ne by lia. apply Hfr. destruct Hj; [left; lia|by right].
      -- intros t Ht. autorewrite with wget.
         destruct (decide (t = out_timer (Z.of_nat i))) as [->|Hne].
         ++ rewrite timer_at_put. by eexists.
         ++ unfold timer_at, put_timer. simpl. rewrite lookup_insert_ne by done. by apply Htm.
    * autorewrite with wput. exact (table_ok_put _ _ _ _ Hokv).
  + intros i v (Hs & Hfr & Htm) Hti. split; [|split; [intros j [Hj|Hj]; apply Hfr; [left; lia|by right]|done]].
    intros j p Hj Hpj Htj. destruct (decide (j = i)) as [->|]; [done|]. apply Hs; [lia|done..].
  + exists w'. split; [exact Hrun|]. split; [|by auto].
    intros i p Ho Hti. apply Hsafe; [by eapply lookup_lt_Some|done..].
Qed.

(** A shutdown puts every output in its default state.  [digital_out_shutdown]
    and [pwm_shutdown] visit every digital and every hardware PWM output of the object
    table: the default value is written to its pin, its queue is emptied and it has no
    deadline pending; objects of other types are untouched. *)
Theorem shutdown_outputs_default tys w :
  table_ok (PB := world_base) w tys -> table_digital w tys -> table_pwm w tys ->
  (exists w', digital_out_shutdown w = Ret tt w' /\
    (forall i d, obj_at w (Z.of_nat i) = Some (O_digital_out d) ->
       tys !! i = Some (Some OT_digital_out) -> digital_safe w' i d) /\
    (forall i, tys !! i <> Some (Some OT_digital_out) ->
       obj_at w' (Z.of_nat i) = obj_at w (Z.of_nat i))) /\
  (exists w', pwm_shutdown w = Ret tt w' /\
    (forall i p, obj_at w (Z.of_nat i) = Some (O_pwm_out p) ->
       tys !! i = Some (Some OT_pwm_out) -> pwm_safe w' i p) /\
    (forall i, tys !! i <> Some (Some OT_pwm_out) ->
       obj_at w' (Z.of_nat i) = obj_at w (Z.of_nat i))).
Proof. intros. split; [by apply digital_shutdown_run|by apply pwm_shutdown_run]. Qed.
End outputs.

(** ** Witnesses: a heater pin with a queued update, and a fan *)

Definition heater : digital_out_s :=
  mk_digital_out 0 0 0 5 1000 100 (mk_mqh (Some 100) (Some 100)) 0.
Definition fan : pwm_out_s := mk_pwm_out 6 0 3 mq_empty_head.
Definition heater_timer : timer := mk_timer None (Some F_digital_load_event) 5000.
Definition heater_world : world :=
  (demo_world (demo_stepper 0 0))
    <| w_base ::= fun b => b
         <| oids := Some [mk_oid (Some OT_digital_out) (Some (O_digital_out heater));
                          mk_oid (Some OT_pwm_out) (Some (O_pwm_out fan))] |>
         <| oid_count := 2 |>
         <| moves := {[ 100 := mk_move None (Some (P_digital (mk_digital_move 5000 30))) ]} |> |>
    <| w_sched ::= fun s => s <| timers := <[T_obj 1 0 := mk_timer None None 0]>
         (<[T_obj 0 0 := heater_timer]> (timers s)) |> |>.


Lemma shutdown_outputs_default_witness :
  (exists w', digital_out_shutdown heater_world = Ret tt w' /\ digital_safe w' 0 heater) /\
  (exists w', pwm_shutdown heater_world = Ret tt w' /\ pwm_safe w' 1 fan).
Proof.
  destruct (shutdown_outputs_default [Some OT_digital_out; Some OT_pwm_out] heater_world)
    as [(w1 & H1 & K1 & _) (w2 & H2 & K2 & _)].
  - eexists. split; [reflexivity|]. split; [reflexivity|]. split; [|done].
    apply Forall_cons. split; [by eexists|]. apply Forall_cons. split; [by eexists|constructor].
  - intros [|[|i]] Hi; [by eexists|discriminate Hi|discriminate Hi].
  - intros [|[|i]] Hi; [discriminate Hi|eexists; split; [reflexivity|by eexists]|discriminate Hi].
  - split.
    + exists w1. split; [exact H1|]. by apply K1.
    + exists w2. split; [exact H2|]. by apply K2.
Defined.
