(* ===== verification/Sensors.v ===== *)
(** * Input pins

    src/adccmds.c (analog inputs), src/buttons.c (debounced buttons with
    acknowledged reports) and src/pulse_counter.c (edge counters). *)

From S2P Require Import Prelude Command Sched Basecmd World.

Section sensors.
Context {cfg : Config} {tgt : Target}.

Definition in_timer (oid : Z) : tid := T_obj oid 0.

(** ** Analog inputs *)

Definition set_analog_wake (v : Z) (k : wakes) : wakes := k <| analog_wake := v |>.

(** [analog_in_event] after a sample has been read: the new object, and whether
    all samples of this cycle are in. *)
Definition analog_accumulate (a : analog_in) (sample : Z) : analog_in :=
  let '(state, value) := if a_sample_count a <=? a_state a then (0, sample)
                         else (a_state a, u16 (sample + a_value a)) in
  a <| a_value := value |> <| a_state := u8 (state + 1) |>.

Definition analog_in_event (oid : Z) : M world Z :=
  a <- oget (T := analog_in) oid ;;
  sample_delay <- gpio_adc_sample (a_pin a) ;;
  if negb (sample_delay =? 0) then
    tmod (in_timer oid) (fun t => t <| t_waketime := u32 (t_waketime t + sample_delay) |>) ;;
    ret SF_RESCHEDULE
  else
    value <- gpio_adc_read (a_pin a) ;;
    omod oid (fun a => analog_accumulate a value) ;;
    a <- oget (T := analog_in) oid ;;
    if a_state a <? a_sample_count a then
      tmod (in_timer oid) (fun t => t <| t_waketime := u32 (t_waketime t + a_sample_time a) |>) ;;
      ret SF_RESCHEDULE
    else
      (if (a_min_value a <=? a_value a) && (a_value a <=? a_max_value a) then
         omod oid (fun a => a <| a_invalid_count := 0 |>)
       else
         omod oid (fun a => a <| a_invalid_count := u8 (a_invalid_count a + 1) |>) ;;
         a <- oget (T := analog_in) oid ;;
         when (a_range_check_count a <=? a_invalid_count a)
           (sched_try_shutdown "ADC out of range" ;;
            omod oid (fun a => a <| a_invalid_count := 0 |>))) ;;
      sched_wake_task set_analog_wake ;;
      omod oid (fun a => a <| a_next_begin_time := u32 (a_next_begin_time a + a_rest_time a) |>) ;;
      a <- oget (T := analog_in) oid ;;
      tmod (in_timer oid) (fun t => t <| t_waketime := a_next_begin_time a |>) ;;
      ret SF_RESCHEDULE.

Definition analog_in_zero : analog_in := mk_analog_in 0 0 0 0 0 0 0 0 0 0 0.

Definition command_config_analog_in (args : list Z) : M world unit :=
  pin <- gpio_adc_setup (nthZ args 1) ;;
  oid <- obj_alloc (nthZ args 0) OT_analog_in analog_in_zero [0] ;;
  tmod (in_timer oid) (fun t => t <| t_func := Some F_analog_in_event |>) ;;
  omod oid (fun a => a <| a_pin := pin |>) ;;
  omod oid (fun a => a <| a_state := 1 |>).

Definition command_query_analog_in (args : list Z) : M world unit :=
  oid <- oid_lookup (nthZ args 0) OT_analog_in ;;
  sched_del_timer (in_timer oid) ;;
  a <- oget (T := analog_in) oid ;;
  gpio_adc_cancel_sample (a_pin a) ;;
  omod oid (fun a => a <| a_next_begin_time := nthZ args 1 |>) ;;
  tmod (in_timer oid) (fun t => t <| t_waketime := nthZ args 1 |>) ;;
  omod oid (fun a => a <| a_sample_time := nthZ args 2 |>) ;;
  omod oid (fun a => a <| a_sample_count := u8 (nthZ args 3) |>) ;;
  omod oid (fun a => a <| a_state := u8 (a_sample_count a + 1) |>) ;;
  omod oid (fun a => a <| a_rest_time := nthZ args 4 |>) ;;
  omod oid (fun a => a <| a_min_value := u16 (nthZ args 5) |>) ;;
  omod oid (fun a => a <| a_max_value := u16 (nthZ args 6) |>) ;;
  omod oid (fun a => a <| a_range_check_count := u8 (nthZ args 7) |>) ;;
  a <- oget (T := analog_in) oid ;;
  if a_sample_count a =? 0 then ret tt else sched_add_timer (in_timer oid).

Definition analog_in_task : M world unit :=
  woken <- sched_check_wake analog_wake set_analog_wake ;;
  if negb woken then ret tt
  else foreach_oid OT_analog_in (fun oid =>
    a <- oget (T := analog_in) oid ;;
    if negb (a_state a =? a_sample_count a) then ret tt
    else
      let value := a_value a in
      let next_begin_time := a_next_begin_time a in
      omod oid (fun a => a <| a_state := u8 (a_state a + 1) |>) ;;
      sendf "analog_in_state oid=%c next_clock=%u value=%hu"
        [VA_int oid; VA_int next_begin_time; VA_int value]).

Definition analog_in_shutdown : M world unit :=
  foreach_oid OT_analog_in (fun oid =>
    a <- oget (T := analog_in) oid ;;
    gpio_adc_cancel_sample (a_pin a) ;;
    when (negb (a_sample_count a =? 0))
      (omod oid (fun a => a <| a_state := u8 (a_sample_count a + 1) |>) ;;
       omod oid (fun a => a <| a_next_begin_time := u32 (a_next_begin_time a + a_rest_time a) |>) ;;
       a <- oget (T := analog_in) oid ;;
       tmod (in_timer oid) (fun t => t <| t_waketime := a_next_begin_time a |>) ;;
       sched_add_timer (in_timer oid))).

(** ** Buttons *)

Definition BF_NO_RETRANSMIT : Z := 128.
Definition BF_PENDING : Z := 255.
Definition BF_ACKED : Z := 254.

Definition set_buttons_wake (v : Z) (k : wakes) : wakes := k <| buttons_wake := v |>.

(** The loop that reads the pins. *)
Fixpoint read_pins (pins : list Z) (bit status : Z) : M world Z :=
  match pins with
  | [] => ret status
  | pin :: pins =>
      val <- gpio_in_read pin ;;
      read_pins pins (u8 (Z.shiftl bit 1))
        (if negb (val =? 0) then Z.lor status bit else status)
  end.

(** Debouncing of a reading: the new [pressed] value, and whether it is reported.
    [~x] of a [uint8_t] is [Z.lxor x 255]. *)
Definition debounce (pressed last_pressed status : Z) : option Z :=
  let diff := Z.lxor status pressed in
  let debounced := Z.lxor (Z.lxor status last_pressed) 255 in
  if negb (diff =? 0) && has diff debounced
  then Some (Z.lor (clear pressed debounced) (Z.land status debounced))
  else None.

Definition buttons_event (oid : Z) : M world Z :=
  b <- oget (T := buttons) oid ;;
  status <- read_pins (takeZ (b_button_count b) (b_pins b)) 1 0 ;;
  match debounce (b_pressed b) (b_last_pressed b) status with
  | Some pressed =>
      omod oid (fun b => b <| b_pressed := pressed |>) ;;
      when (b_report_count b <? 8)
        (omod oid (fun b => b <| b_reports ::= <[Z.to_nat (b_report_count b) := pressed]> |>
                              <| b_report_count := u8 (b_report_count b + 1) |>) ;;
         sched_wake_task set_buttons_wake ;;
         omod oid (fun b => b <| b_retransmit_state := BF_PENDING |>))
  | None => ret tt
  end ;;
  omod oid (fun b => b <| b_last_pressed := status |>) ;;
  b <- oget (T := buttons) oid ;;
  when (negb (has (b_retransmit_state b) BF_NO_RETRANSMIT))
    (let retransmit_state := u8 (b_retransmit_state b - 1) in
     when (has retransmit_state BF_NO_RETRANSMIT) (sched_wake_task set_buttons_wake) ;;
     omod oid (fun b => b <| b_retransmit_state := retransmit_state |>)) ;;
  tmod (in_timer oid) (fun t => t <| t_waketime := u32 (t_waketime t + b_rest_ticks b) |>) ;;
  ret SF_RESCHEDULE.

Definition buttons_zero (count : Z) : buttons :=
  mk_buttons 0 0 0 0 (repeat 0 8) 0 0 0 0 (repeat 0 (Z.to_nat count)).

Definition command_config_buttons (args : list Z) : M world unit :=
  let button_count := u8 (nthZ args 1) in
  if 8 <? button_count then shutdown "Max of 8 buttons"
  else
    oid <- obj_alloc_extra (sizeof_gpio_in * button_count) (nthZ args 0) OT_buttons
             (buttons_zero button_count) [0] ;;
    omod oid (fun b => b <| b_button_count := button_count |>) ;;
    tmod (in_timer oid) (fun t => t <| t_func := Some F_buttons_event |>).

Definition command_buttons_add (args : list Z) : M world unit :=
  oid <- oid_lookup (nthZ args 0) OT_buttons ;;
  let pos := u8 (nthZ args 1) in
  b <- oget (T := buttons) oid ;;
  if b_button_count b <=? pos then shutdown "Set button past maximum button count"
  else
    pin <- gpio_in_setup (nthZ args 2) (nthZ args 3) ;;
    omod oid (fun b => b <| b_pins ::= <[Z.to_nat pos := pin]> |>).

Definition command_buttons_query (args : list Z) : M world unit :=
  oid <- oid_lookup (nthZ args 0) OT_buttons ;;
  sched_del_timer (in_timer oid) ;;
  tmod (in_timer oid) (fun t => t <| t_waketime := nthZ args 1 |>) ;;
  omod oid (fun b => b <| b_rest_ticks := nthZ args 2 |>) ;;
  omod oid (fun b => b <| b_pressed := u8 (nthZ args 4) |> <| b_last_pressed := u8 (nthZ args 4) |>) ;;
  omod oid (fun b => b <| b_ack_count := 0 |> <| b_report_count := 0 |>) ;;
  omod oid (fun b => b <| b_retransmit_state := BF_ACKED |>) ;;
  omod oid (fun b => b <| b_retransmit_count := u8 (nthZ args 3) |>) ;;
  b <- oget (T := buttons) oid ;;
  if BF_NO_RETRANSMIT <=? b_retransmit_count b then shutdown "Invalid buttons retransmit count"
  else if b_rest_ticks b =? 0 then ret tt
  else sched_add_timer (in_timer oid).

(** The loop [for (i=0; i<pending; i++) reports[i] = reports[i+count]]. *)
Fixpoint shift_reports (n : nat) (i count : Z) (reports : list Z) : list Z :=
  match n with
  | O => reports
  | S n => shift_reports n (i + 1) count (<[Z.to_nat i := nthZ reports (i + count)]> reports)
  end.

(** The effect of an acknowledgement of [count] reports. *)
Definition ack_reports (count : Z) (b : buttons) : buttons :=
  if b_report_count b <=? count
  then b <| b_report_count := 0 |> <| b_retransmit_state := BF_ACKED |>
  else
    let pending := u8 (b_report_count b - count) in
    b <| b_reports ::= shift_reports (Z.to_nat pending) 0 count |>
      <| b_report_count := pending |>.

Definition command_buttons_ack (args : list Z) : M world unit :=
  oid <- oid_lookup (nthZ args 0) OT_buttons ;;
  let count := u8 (nthZ args 1) in
  omod oid (fun b => b <| b_ack_count := u8 (b_ack_count b + count) |>) ;;
  omod oid (ack_reports count).

Definition buttons_task : M world unit :=
  woken <- sched_check_wake buttons_wake set_buttons_wake ;;
  if negb woken then ret tt
  else foreach_oid OT_buttons (fun oid =>
    b <- oget (T := buttons) oid ;;
    if negb (b_retransmit_state b =? BF_PENDING) then ret tt
    else
      let report_count := b_report_count b in
      if report_count =? 0 then ret tt
      else
        omod oid (fun b => b <| b_retransmit_state := b_retransmit_count b |>) ;;
        sendf "buttons_state oid=%c ack_count=%c state=%*s"
          [VA_int oid; VA_int (b_ack_count b); VA_buffer report_count (b_reports b)]).

(** ** Pulse counters *)

Definition CF_PENDING : Z := 1.

Definition set_counter_wake (v : Z) (k : wakes) : wakes := k <| counter_wake := v |>.

(** The count after a reading of the pin at time [time]. *)
Definition count_edge (c : counter) (value time : Z) : counter :=
  if negb (Z.land (c_count c) 1 =? value)
  then c <| c_count := u32 (c_count c + 1) |> <| c_last_count_time := time |>
  else c.

Definition counter_event (oid : Z) : M world Z :=
  c <- oget (T := counter) oid ;;
  t <- tget (in_timer oid) ;;
  let time := t_waketime t in
  value <- gpio_in_read (c_pin c) ;;
  omod oid (fun c => count_edge c value time) ;;
  when (timer_is_before (c_next_sample_time c) time)
    (omod oid (fun c => c <| c_flags := Z.lor (c_flags c) CF_PENDING |>) ;;
     omod oid (fun c => c <| c_next_sample_time := u32 (time + c_sample_ticks c) |>) ;;
     sched_wake_task set_counter_wake) ;;
  tmod (in_timer oid) (fun t => t <| t_waketime := u32 (t_waketime t + c_poll_ticks c) |>) ;;
  ret SF_RESCHEDULE.

Definition counter_zero : counter := mk_counter 0 0 0 0 0 0 0.

Definition command_config_counter (args : list Z) : M world unit :=
  oid <- obj_alloc (nthZ args 0) OT_counter counter_zero [0] ;;
  pin <- gpio_in_setup (nthZ args 1) (nthZ args 2) ;;
  omod oid (fun c => c <| c_pin := pin |>) ;;
  tmod (in_timer oid) (fun t => t <| t_func := Some F_counter_event |>).

Definition command_query_counter (args : list Z) : M world unit :=
  oid <- oid_lookup (nthZ args 0) OT_counter ;;
  sched_del_timer (in_timer oid) ;;
  tmod (in_timer oid) (fun t => t <| t_waketime := nthZ args 1 |>) ;;
  omod oid (fun c => c <| c_poll_ticks := nthZ args 2 |>) ;;
  omod oid (fun c => c <| c_sample_ticks := nthZ args 3 |>) ;;
  omod oid (fun c => c <| c_next_sample_time := nthZ args 1 |>) ;;
  sched_add_timer (in_timer oid).

Definition counter_task : M world unit :=
  woken <- sched_check_wake counter_wake set_counter_wake ;;
  if negb woken then ret tt
  else foreach_oid OT_counter (fun oid =>
    c <- oget (T := counter) oid ;;
    if negb (has (c_flags c) CF_PENDING) then ret tt
    else
      t <- tget (in_timer oid) ;;
      omod oid (fun c => c <| c_flags := clear (c_flags c) CF_PENDING |>) ;;
      sendf "counter_state oid=%c next_clock=%u count=%u count_clock=%u"
        [VA_int oid; VA_int (t_waketime t); VA_int (c_count c); VA_int (c_last_count_time c)]).
End sensors.
