(* ===== verification/SensorsFacts.v ===== *)
(** * Properties of input pins

    Debouncing and the report queue of buttons, edge counting, and the accumulation
    of analog samples. *)

From S2P Require Import Prelude Command Sched SchedFacts Basecmd BasecmdFacts World WorldFacts StepperFacts Sensors.

Section sensors.
Context {cfg : Config}.

(** ** Buttons *)

Definition buttons_wf (b : buttons) : Prop :=
  length (b_reports b) = 8%nat /\ 0 <= b_report_count b <= 8.

(** The reports that wait for an acknowledgement, oldest first. *)
Definition pending_reports (b : buttons) : list Z := takeZ (b_report_count b) (b_reports b).

Lemma shift_reports_length n i count r : length (shift_reports n i count r) = length r.
Proof. revert i r. induction n as [|n IH]; intros i r; [done|]. simpl. by rewrite IH, length_insert. Qed.

Lemma nthZ_lookup (l : list Z) i x : l !! Z.to_nat i = Some x -> nthZ l i = x.
Proof. intros H. unfold nthZ. by rewrite nth_lookup, H. Qed.

(** The loop moves [n] entries down by [count]. *)
Lemma shift_reports_lookup n i count r j :
  0 <= count -> 0 <= i -> (Z.to_nat i + n + Z.to_nat count <= length r)%nat ->
  shift_reports n i count r !! j =
    if decide (Z.to_nat i <= j < Z.to_nat i + n)%nat then r !! (j + Z.to_nat count)%nat else r !! j.
Proof.
  intros Hc. revert i r. induction n as [|n IH]; intros i r Hi Hl; simpl.
  - by rewrite decide_False by lia.
  - rewrite IH by (rewrite ?length_insert; lia).
    replace (Z.to_nat (i + 1)) with (S (Z.to_nat i)) by lia.
    destruct (lookup_lt_is_Some_2 r (Z.to_nat (i + count))) as [x Hx]; [lia|].
    rewrite (nthZ_lookup _ _ _ Hx). replace (Z.to_nat (i + count)) with (Z.to_nat i + Z.to_nat count)%nat in Hx by lia.
    destruct (decide (j = Z.to_nat i)) as [->|Hne].
    + rewrite decide_False by lia. rewrite decide_True by lia.
      by rewrite list_lookup_insert_eq by lia.
    + rewrite (list_lookup_insert_ne _ _ j) by done. destruct decide as [Hd|Hd].
      * rewrite decide_True by lia. by rewrite list_lookup_insert_ne by lia.
      * destruct (decide (Z.to_nat i <= j < Z.to_nat i + S n)%nat); [lia|done].
Qed.

Lemma ack_reports_spec b count :
  buttons_wf b -> 0 <= count < 256 ->
  buttons_wf (ack_reports count b) /\
  pending_reports (ack_reports count b) = dropZ count (pending_reports b).
Proof.
  intros [Hl Hr] Hc. unfold ack_reports. destruct (Z.leb_spec (b_report_count b) count) as [Hle|Hlt].
  - split; [split; simpl; [done|lia]|]. unfold pending_reports, takeZ, dropZ.
    cbn [b_report_count b_reports upd]. rewrite drop_ge; [done|]. rewrite length_take. lia.
  - assert (Hp : u8 (b_report_count b - count) = b_report_count b - count) by (apply u8_small; lia).
    rewrite Hp. split; [split|].
    + cbn [b_reports upd]. by rewrite shift_reports_length.
    + cbn [b_report_count upd]. lia.
    + unfold pending_reports, takeZ, dropZ. cbn [b_report_count b_reports upd].
      apply list_eq. intros j. rewrite lookup_drop.
      destruct (decide (j < Z.to_nat (b_report_count b - count))%nat) as [Hj|Hj].
      * rewrite !lookup_take_lt by lia. rewrite shift_reports_lookup by lia.
        rewrite decide_True by lia. f_equal. lia.
      * rewrite !lookup_take_ge by lia. done.
Qed.

(** The debounced state: a bit changes only when two readings in a row agree. *)
Definition debounced_bit (pressed last_pressed status : Z) (i : Z) : bool :=
  if eqb (Z.testbit status i) (Z.testbit last_pressed i)
  then Z.testbit status i else Z.testbit pressed i.

Lemma byte_high z i : 0 <= z < 256 -> 8 <= i -> Z.testbit z i = false.
Proof. intros Hz Hi. apply (testbit_high z 8); [done|lia]. Qed.

Ltac high_bits i :=
  repeat match goal with |- context [Z.testbit ?z i] => rewrite (byte_high z i) by lia end.

Lemma debounce_spec pressed last_pressed status :
  0 <= pressed < 256 -> 0 <= last_pressed < 256 -> 0 <= status < 256 ->
  let p' := default pressed (debounce pressed last_pressed status) in
  (forall i, 0 <= i -> Z.testbit p' i = debounced_bit pressed last_pressed status i) /\
  (debounce pressed last_pressed status = None <-> p' = pressed) /\ 0 <= p' < 256.
Proof.
  intros Hp Hl Hs p'. unfold p', debounce, debounced_bit. clear p'.
  set (diff := Z.lxor status pressed).
  set (deb := Z.lxor (Z.lxor status last_pressed) 255).
  assert (Hdeb : forall i, 0 <= i < 8 ->
    Z.testbit deb i = eqb (Z.testbit status i) (Z.testbit last_pressed i)).
  { intros i Hi. unfold deb. rewrite !Z.lxor_spec. change 255 with (Z.ones 8).
    rewrite Z.ones_spec_low by lia. by destruct (Z.testbit status i), (Z.testbit last_pressed i). }
  assert (Hnew : forall i, 0 <= i ->
    Z.testbit (Z.lor (clear pressed deb) (Z.land status deb)) i
    = if eqb (Z.testbit status i) (Z.testbit last_pressed i)
      then Z.testbit status i else Z.testbit pressed i).
  { intros i Hi. unfold clear. rewrite Z.lor_spec, Z.ldiff_spec, Z.land_spec.
    destruct (Z.lt_ge_cases i 8) as [Hlo|Hhi].
    - rewrite Hdeb by lia.
      by destruct (Z.testbit status i), (Z.testbit last_pressed i), (Z.testbit pressed i).
    - by high_bits i. }
  assert (Hsame : has diff deb = false -> forall i, 0 <= i -> Z.testbit pressed i
    = if eqb (Z.testbit status i) (Z.testbit last_pressed i)
      then Z.testbit status i else Z.testbit pressed i).
  { intros Hh i Hi. unfold has in Hh. apply negb_false_iff, Z.eqb_eq in Hh.
    destruct (Z.lt_ge_cases i 8) as [Hlo|Hhi]; [|by high_bits i].
    apply (f_equal (fun z => Z.testbit z i)) in Hh. rewrite Z.land_spec, Z.bits_0, Hdeb in Hh by lia.
    unfold diff in Hh. rewrite Z.lxor_spec in Hh.
    by destruct (Z.testbit status i), (Z.testbit last_pressed i), (Z.testbit pressed i). }
  destruct (negb (diff =? 0) && has diff deb) eqn:E; cbn [from_option]; unfold id.
  - apply andb_true_iff in E as [_ Hh]. split; [done|]. split.
    + split; [done|]. intros Hx. exfalso. unfold has in Hh. apply negb_true_iff, Z.eqb_neq in Hh.
      apply Hh. apply Z.bits_inj'. intros i Hi. rewrite Z.land_spec, Z.bits_0.
      specialize (Hnew i Hi). rewrite Hx in Hnew. unfold diff. rewrite Z.lxor_spec.
      destruct (Z.lt_ge_cases i 8) as [Hlo|Hhi]; [|by high_bits i].
      rewrite Hdeb by lia. revert Hnew.
      by destruct (Z.testbit status i), (Z.testbit last_pressed i), (Z.testbit pressed i).
    + split.
      * apply Z.lor_nonneg. split; [apply Z.ldiff_nonneg; lia|apply Z.land_nonneg; lia].
      * match goal with |- ?x < _ => assert (Hx : x = x mod 2 ^ 8) end.
        { apply Z.bits_inj'. intros i Hi. destruct (Z.lt_ge_cases i 8) as [Hlo|Hhi].
          - by rewrite Z.mod_pow2_bits_low.
          - rewrite Z.mod_pow2_bits_high by lia. rewrite Hnew by lia. by high_bits i. }
        rewrite Hx. change 256 with (2 ^ 8). apply Z.mod_pos_bound. done.
  - split; [|done]. apply andb_false_iff in E as [E|E]; [|by apply Hsame].
    apply Hsame. unfold has. apply negb_false_iff in E. apply Z.eqb_eq in E. by rewrite E.
Qed.
(** The next [n] inputs taken. *)
Definition take_inputs (n : nat) (w : world) : world := Nat.iter n take_input w.

Lemma take_inputs_obj n w oid : obj_at (take_inputs n w) oid = obj_at w oid.
Proof. by induction n. Qed.
Lemma take_inputs_timer n w t : timer_at (take_inputs n w) t = timer_at w t.
Proof. by induction n. Qed.
Lemma take_inputs_S n w : take_inputs n (take_input w) = take_inputs (S n) w.
Proof. induction n as [|n IH]; [done|]. simpl. unfold take_inputs in *. simpl in IH. by rewrite IH. Qed.

(** Bit [i] of the reading is the level of pin [i]. *)
Definition pin_level (w : world) (i : nat) : bool := negb (u8 (input_at w i) =? 0).

Lemma read_pins_run pins k status w :
  0 <= k -> k + zlen pins <= 8 -> 0 <= status < 256 ->
  exists s, read_pins pins (u8 (2 ^ k)) status w = Ret s (take_inputs (length pins) w) /\
    0 <= s < 256 /\
    forall i, 0 <= i -> Z.testbit s i = Z.testbit status i ||
      ((k <=? i) && (i <? k + zlen pins) && pin_level w (Z.to_nat (i - k))).
Proof.
  revert k status w. induction pins as [|pin pins IH]; intros k status w Hk Hl Hs.
  - exists status. split; [done|]. split; [done|]. intros i Hi.
    change (zlen []) with 0. rewrite Z.add_0_r.
    destruct (Z.leb_spec k i), (Z.ltb_spec i k); try lia; by rewrite orb_false_r.
  - rewrite zlen_cons in Hl. pose proof (zlen_nonneg pins).
    assert (Hpow : 2 ^ k < 256).
    { change 256 with (2 ^ 8). apply Z.pow_lt_mono_r; lia. }
    assert (Hb : u8 (2 ^ k) = 2 ^ k) by (apply u8_small; lia). rewrite Hb.
    cbn [read_pins]. unfold gpio_in_read. repeat wstep. rewrite next_input_at.
    fold (pin_level w 0).
    assert (Hsh : u8 (Z.shiftl (2 ^ k) 1) = u8 (2 ^ (k + 1))).
    { rewrite Z.shiftl_mul_pow2 by lia. rewrite <- Z.pow_add_r by lia. done. }
    rewrite Hsh. set (st := if pin_level w 0 then Z.lor status (2 ^ k) else status).
    assert (Hst : 0 <= st < 256).
    { unfold st. destruct (pin_level w 0); [|done]. split; [apply Z.lor_nonneg; lia|].
      apply Z.log2_lt_pow2 with (b := 8); [|].
      - assert (0 <= Z.lor status (2 ^ k)) by (apply Z.lor_nonneg; lia).
        destruct (decide (Z.lor status (2 ^ k) = 0)) as [E|]; [|lia].
        apply Z.lor_eq_0_iff in E. lia.
      - rewrite Z.log2_lor by lia. rewrite Z.log2_pow2 by lia. apply Z.max_lub_lt; [|lia].
        destruct (decide (status = 0)) as [->|]; [done|]. apply Z.log2_lt_pow2; lia. }
    destruct (IH (k + 1) st (take_input w)) as (s & Hrun & Hsr & Hbits); [lia|lia|done|].
    exists s. split; [cbn [length]; rewrite <- take_inputs_S; exact Hrun|]. split; [done|].
    intros i Hi. rewrite Hbits by done. unfold st.
    assert (Hw : forall j, pin_level (take_input w) j = pin_level w (S j)).
    { intros j. unfold pin_level. by rewrite input_at_take. }
    rewrite Hw, zlen_cons. destruct (decide (i = k)) as [->|Hne].
    + replace (k + 1 <=? k) with false by lia. replace (k <=? k) with true by lia.
      replace (k <? k + (1 + zlen pins)) with true by lia. rewrite Z.sub_diag. cbn [andb Z.to_nat].
      change (Z.to_nat 0) with 0%nat. destruct (pin_level w 0); [|done].
      rewrite Z.lor_spec, Z.pow2_bits_true by done. by rewrite orb_false_r.
    + assert (Ht : Z.testbit (if pin_level w 0 then Z.lor status (2 ^ k) else status) i = Z.testbit status i).
      { destruct (pin_level w 0); [|done]. rewrite Z.lor_spec, Z.pow2_bits_false by congruence.
        by rewrite orb_false_r. }
      rewrite Ht. f_equal. replace (k + 1 + zlen pins) with (k + (1 + zlen pins)) by lia.
      replace (k + 1 <=? i) with (k <=? i) by (destruct (Z.leb_spec k i), (Z.leb_spec (k + 1) i); lia).
      destruct (Z.leb_spec k i); [|done]. do 2 f_equal. lia.
Qed.

Definition buttons_view (w : world) (oid : Z) (b : buttons) (tv : timer) : Prop :=
  obj_at w oid = Some (O_buttons b) /\ timer_at w (in_timer oid) = Some tv.

(** The object's part of [buttons_event], before the retransmit count down. *)
Definition scanned (b : buttons) (status : Z) : buttons :=
  match debounce (b_pressed b) (b_last_pressed b) status with
  | Some pressed =>
      let b := b <| b_pressed := pressed |> in
      if b_report_count b <? 8 then
        b <| b_reports ::= <[Z.to_nat (b_report_count b) := pressed]> |>
          <| b_report_count := u8 (b_report_count b + 1) |>
          <| b_retransmit_state := BF_PENDING |>
      else b
  | None => b
  end <| b_last_pressed := status |>.

Lemma scanned_reports b status :
  buttons_wf b -> buttons_wf (scanned b status) /\
  pending_reports (scanned b status) = pending_reports b ++
    match debounce (b_pressed b) (b_last_pressed b) status with
    | Some p => if b_report_count b <? 8 then [p] else []
    | None => []
    end.
Proof.
  intros [Hl Hr]. unfold scanned.
  destruct (debounce (b_pressed b) (b_last_pressed b) status) as [p|]; [|by rewrite app_nil_r].
  cbn [b_report_count upd]. destruct (Z.ltb_spec (b_report_count b) 8); [|by rewrite app_nil_r].
  assert (Hu : u8 (b_report_count b + 1) = b_report_count b + 1) by (apply u8_small; lia).
  split; [split; cbn [b_reports b_report_count upd]; rewrite ?length_insert, ?Hu; [done|lia]|].
  unfold pending_reports, takeZ. cbn [b_reports b_report_count upd]. rewrite Hu.
  replace (Z.to_nat (b_report_count b + 1)) with (S (Z.to_nat (b_report_count b))) by lia.
  rewrite (take_S_r _ _ p) by (apply list_lookup_insert_eq; lia).
  by rewrite take_insert_ge by lia.
Qed.

(** Evaluate updates of a buttons record. *)
Ltac bsimp := cbn [b_rest_ticks b_pressed b_last_pressed b_report_count b_reports b_ack_count
  b_retransmit_state b_retransmit_count b_button_count b_pins upd to_obj view_buttons].

(** The part of the event that updates the reports. *)
Lemma scan_run oid b tv w1 status :
  obj_at w1 oid = Some (O_buttons b) -> timer_at w1 (in_timer oid) = Some tv ->
  exists w2, bind (match debounce (b_pressed b) (b_last_pressed b) status with
    | Some pressed =>
        omod oid (fun b => b <| b_pressed := pressed |>) ;;
        when (b_report_count b <? 8)
          (omod oid (fun b => b <| b_reports ::= <[Z.to_nat (b_report_count b) := pressed]> |>
                                <| b_report_count := u8 (b_report_count b + 1) |>) ;;
           sched_wake_task set_buttons_wake ;;
           omod oid (fun b => b <| b_retransmit_state := BF_PENDING |>))
    | None => ret tt
    end) (fun _ => omod oid (fun b => b <| b_last_pressed := status |>)) w1
    = Ret tt w2 /\ obj_at w2 oid = Some (O_buttons (scanned b status)) /\
      timer_at w2 (in_timer oid) = Some tv.
Proof.
  intros Ho1 Ht1. destruct b as [rt pr lp rc rs ac st cn bc pn]. unfold scanned.
  cbn [b_pressed b_last_pressed b_report_count].
  destruct (debounce pr lp status) as [p|].
  - bsimp. destruct (rc <? 8).
    + repeat (wstep; bsimp). erewrite omod_Ret by wget_solve. autorewrite with wput. bsimp.
      eexists. split; [reflexivity|]. autorewrite with wget.
      split; [by erewrite obj_at_put by done|done].
    + repeat (wstep; bsimp). erewrite omod_Ret by wget_solve. autorewrite with wput. bsimp.
      eexists. split; [reflexivity|]. split; [by erewrite obj_at_put by done|done].
  - bsimp. wstep. erewrite omod_Ret by wget_solve. bsimp.
    eexists. split; [reflexivity|]. split; [by erewrite obj_at_put by done|done].
Qed.

Lemma buttons_event_run oid b tv w status :
  buttons_view w oid b tv ->
  read_pins (takeZ (b_button_count b) (b_pins b)) 1 0 w = Ret status (take_inputs (length (takeZ (b_button_count b) (b_pins b))) w) ->
  exists w' b' tv', buttons_event oid w = Ret SF_RESCHEDULE w' /\ buttons_view w' oid b' tv' /\
    t_waketime tv' = u32 (t_waketime tv + b_rest_ticks b) /\
    exists r, b' = scanned b status <| b_retransmit_state := r |>.
Proof.
  intros [Ho Ht] Hpins. unfold buttons_event. wstep. rewrite (bind_Ret _ _ _ _ _ Hpins).
  set (w1 := take_inputs _ w).
  assert (Ho1 : obj_at w1 oid = Some (O_buttons b)) by (unfold w1; by rewrite take_inputs_obj).
  assert (Ht1 : timer_at w1 (in_timer oid) = Some tv) by (unfold w1; by rewrite take_inputs_timer).
  destruct (scan_run oid b tv w1 status Ho1 Ht1) as (w2 & Hrun & Ho2 & Ht2).
  rewrite <- bind_bind, (bind_Ret _ _ _ _ _ Hrun). wstep.
  destruct (negb (has (b_retransmit_state (scanned b status)) BF_NO_RETRANSMIT)).
  - cbn zeta. wstep. wstep.
    destruct (has (u8 (b_retransmit_state (scanned b status) - 1)) BF_NO_RETRANSMIT); repeat wstep;
      do 3 eexists; (split; [reflexivity|]);
      (split; [split; autorewrite with wget; [by eapply obj_at_put|reflexivity]|]);
      (split; [cbn [t_waketime upd]; do 2 f_equal; unfold scanned;
        destruct (debounce _ _ status); [by destruct (_ <? 8)|done]|]); by eexists.
  - repeat wstep. do 3 eexists. split; [reflexivity|].
    split; [split; autorewrite with wget; [exact Ho2|reflexivity]|].
    split; [cbn [t_waketime upd]; do 2 f_equal; unfold scanned;
      destruct (debounce _ _ status); [by destruct (_ <? 8)|done]|].
    exists (b_retransmit_state (scanned b status)). by destruct (scanned b status).
Qed.
(** Buttons are debounced and their changes are queued for the host in order.  An
    expiration of the timer reads the pins, changes a bit of the debounced state only
    when this reading and the last one agree on it, and appends the new state to the
    reports exactly when it changed and fewer than eight reports wait; an
    acknowledgement of [count] reports removes the [count] oldest ones. *)
Theorem buttons_debounce_and_queue oid b tv w count :
  buttons_view w oid b tv -> buttons_wf b -> 0 <= b_button_count b <= 8 ->
  zlen (b_pins b) = b_button_count b ->
  0 <= b_pressed b < 256 -> 0 <= b_last_pressed b < 256 -> 0 <= count < 256 ->
  (exists w' b' tv' status, buttons_event oid w = Ret SF_RESCHEDULE w' /\
     buttons_view w' oid b' tv' /\ buttons_wf b' /\
     (forall i, 0 <= i -> Z.testbit status i
        = (i <? b_button_count b) && pin_level w (Z.to_nat i)) /\
     (forall i, 0 <= i -> Z.testbit (b_pressed b') i
        = debounced_bit (b_pressed b) (b_last_pressed b) status i) /\
     b_last_pressed b' = status /\
     pending_reports b' = pending_reports b ++
       (if negb (b_pressed b' =? b_pressed b) && (b_report_count b <? 8) then [b_pressed b'] else [])) /\
  buttons_wf (ack_reports count b) /\
  pending_reports (ack_reports count b) = dropZ count (pending_reports b).
Proof.
  intros Hv Hwf Hbc Hpins Hp Hl Hc. split; [|by apply ack_reports_spec].
  assert (Htake : takeZ (b_button_count b) (b_pins b) = b_pins b).
  { unfold takeZ. apply take_ge. unfold zlen in Hpins. lia. }
  destruct (read_pins_run (b_pins b) 0 0 w) as (status & Hrd & Hs & Hbits); [lia|lia|lia|].
  destruct (buttons_event_run oid b tv w status Hv) as (w' & b' & tv' & Hrun & Hv' & _ & r & Hb').
  { rewrite Htake. exact Hrd. }
  destruct (scanned_reports b status Hwf) as [Hwf' Hpend].
  destruct (debounce_spec (b_pressed b) (b_last_pressed b) status Hp Hl Hs) as (Hdb & Hnone & _).
  assert (Epr : b_pressed b' = default (b_pressed b) (debounce (b_pressed b) (b_last_pressed b) status)).
  { rewrite Hb'. unfold scanned. destruct (debounce _ _ status); [by destruct (_ <? 8)|done]. }
  exists w', b', tv', status. split; [done|]. split; [done|].
  split; [by rewrite Hb'|]. split; [|split; [|split]].
  - intros i Hi. rewrite Hbits by done. rewrite Z.bits_0, Z.sub_0_r, Hpins. cbn [orb].
    by replace (0 <=? i) with true by lia.
  - intros i Hi. rewrite Epr. by apply Hdb.
  - rewrite Hb'. unfold scanned. by destruct (debounce _ _ status).
  - change (pending_reports b') with (pending_reports b').
    replace (pending_reports b') with (pending_reports (scanned b status)) by (by rewrite Hb').
    rewrite Hpend, Epr. f_equal. destruct (debounce _ _ status) as [q|]; cbn [from_option] in *; unfold id in *.
    + destruct (Z.eqb_spec q (b_pressed b)) as [E|]; [by apply Hnone in E|done].
    + by rewrite Z.eqb_refl.
Qed.

(** ** Pulse counters *)

(** The timer of the counter expires [n] times. *)
Fixpoint counter_polls (n : nat) (oid : Z) : M world unit :=
  match n with O => ret tt | S n => counter_event oid ;; counter_polls n oid end.

(** The number of level changes over the next [n] readings, from [level]. *)
Fixpoint level_changes (w : world) (level : Z) (i n : nat) : Z :=
  match n with
  | O => 0
  | S n => (if u8 (input_at w i) =? level then 0 else 1) + level_changes w (u8 (input_at w i)) (S i) n
  end.

Lemma level_changes_take w level i n :
  level_changes (take_input w) level i n = level_changes w level (S i) n.
Proof.
  revert level i. induction n as [|n IH]; intros level i; simpl; [done|].
  by rewrite !input_at_take, IH.
Qed.

Lemma level_changes_ext w w' level i n :
  (forall j, input_at w' j = input_at w j) -> level_changes w' level i n = level_changes w level i n.
Proof.
  intros H. revert level i. induction n as [|n IH]; intros level i; simpl; [done|]. by rewrite H, IH.
Qed.

Lemma land_one z : Z.land z 1 = z mod 2.
Proof. change 1 with (Z.ones 1). by rewrite Z.land_ones. Qed.

Lemma u32_parity z : u32 z mod 2 = z mod 2.
Proof. unfold u32. rewrite <- (Znumtheory.Zmod_div_mod 2 4294967296); [done..|by exists 2147483648]. Qed.

Definition counter_view (w : world) (oid : Z) (c : counter) (tv : timer) : Prop :=
  obj_at w oid = Some (O_counter c) /\ timer_at w (in_timer oid) = Some tv.

Lemma counter_event_run oid c tv w :
  counter_view w oid c tv -> 0 <= c_count c < 4294967296 ->
  0 <= u8 (input_at w 0) < 2 ->
  exists w' c' tv', counter_event oid w = Ret SF_RESCHEDULE w' /\ counter_view w' oid c' tv' /\
    c_count c' = u32 (c_count c + (if u8 (input_at w 0) =? c_count c mod 2 then 0 else 1)) /\
    c_count c' mod 2 = u8 (input_at w 0) /\
    t_waketime tv' = u32 (t_waketime tv + c_poll_ticks c) /\ c_poll_ticks c' = c_poll_ticks c /\
    (c_last_count_time c' = if u8 (input_at w 0) =? c_count c mod 2
                            then c_last_count_time c else t_waketime tv) /\
    forall i, input_at w' i = input_at w (S i).
Proof.
  intros [Ho Ht] Hc Hin. unfold counter_event, gpio_in_read. repeat wstep. rewrite next_input_at.
  set (v := u8 (input_at w 0)) in *.
  assert (Hcnt : forall x, x = count_edge c v (t_waketime tv) ->
    c_count x = u32 (c_count c + (if v =? c_count c mod 2 then 0 else 1)) /\
    c_count x mod 2 = v /\ c_poll_ticks x = c_poll_ticks c /\
    c_last_count_time x = if v =? c_count c mod 2 then c_last_count_time c else t_waketime tv).
  { intros x ->. unfold count_edge. rewrite land_one.
    rewrite Z.eqb_sym. destruct (Z.eqb_spec v (c_count c mod 2)) as [E|Hne].
    - cbn [negb]. rewrite Z.add_0_r, u32_small by done. by rewrite <- E.
    - cbn [negb c_count c_poll_ticks c_last_count_time upd]. split; [done|]. split; [|done].
      rewrite u32_parity, Zplus_mod. pose proof (Z.mod_pos_bound (c_count c) 2 ltac:(lia)).
      assert (Hm : c_count c mod 2 = 1 - v) by lia. rewrite Hm.
      assert (Hcase : v = 0 \/ v = 1) by lia. by destruct Hcase as [-> | ->]. }
  destruct (timer_is_before (c_next_sample_time c) (t_waketime tv)); repeat wstep;
    set (c1 := count_edge c v (t_waketime tv));
    destruct (Hcnt c1 eq_refl) as (H1 & H2 & H3 & H4);
    do 3 eexists; (split; [reflexivity|]);
    (split; [split; autorewrite with wget; [by eapply obj_at_put|reflexivity]|]);
    (split; [exact H1|]); (split; [exact H2|]);
    (split; [done|]); (split; [exact H3|]); (split; [exact H4|]);
    intros i; by autorewrite with wget.
Qed.

(** A pulse counter counts edges.  Over any number of polls of a pin that reads 0
    or 1, the count advances, modulo 2^32, by the number of times the level differs from
    the previous one, and its lowest bit is the last level read. *)
Theorem counter_counts_edges n oid c tv w :
  counter_view w oid c tv -> 0 <= c_count c < 4294967296 ->
  (forall i, (i < n)%nat -> 0 <= u8 (input_at w i) < 2) ->
  exists w' c' tv', counter_polls n oid w = Ret tt w' /\ counter_view w' oid c' tv' /\
    c_count c' = u32 (c_count c + level_changes w (c_count c mod 2) 0 n) /\
    (match n with O => True | S k => c_count c' mod 2 = u8 (input_at w k) end) /\
    t_waketime tv' = if decide (n = 0%nat) then t_waketime tv
                     else u32 (t_waketime tv + Z.of_nat n * c_poll_ticks c).
Proof.
  revert c tv w. induction n as [|n IH]; intros c tv w Hv Hc Hin.
  - exists w, c, tv. split; [done|]. split; [done|]. cbn [level_changes].
    rewrite Z.add_0_r, u32_small by done. by rewrite decide_True.
  - destruct (counter_event_run oid c tv w Hv Hc (Hin 0%nat ltac:(lia)))
      as (w1 & c1 & tv1 & Hrun & Hv1 & Hc1 & Hp1 & Ht1 & Hk1 & _ & Hi1).
    destruct (IH c1 tv1 w1 Hv1) as (w2 & c2 & tv2 & Hrun2 & Hv2 & Hc2 & Hp2 & Ht2).
    { rewrite Hc1. apply u32_range. }
    { intros i Hi. rewrite Hi1. apply Hin. lia. }
    exists w2, c2, tv2. split; [by cbn [counter_polls]; rewrite (bind_Ret _ _ _ _ _ Hrun)|].
    split; [done|]. rewrite decide_False by done. split; [|split].
    + rewrite Hc2, Hp1, Hc1. cbn [level_changes].
      rewrite (level_changes_ext (take_input w)) by (intros j; by rewrite Hi1, input_at_take).
      rewrite level_changes_take. unfold u32. rewrite Zplus_mod_idemp_l. f_equal. lia.
    + destruct n as [|k]; [|by rewrite Hp2, Hi1].
      cbn [level_changes] in Hc2. rewrite Z.add_0_r, u32_small in Hc2; [by rewrite Hc2|].
      rewrite Hc1. apply u32_range.
    + rewrite Ht2, Ht1, Hk1. destruct decide as [->|].
      * f_equal. lia.
      * unfold u32. rewrite Zplus_mod_idemp_l. f_equal. lia.
Qed.

(** ** Analog inputs *)

(** An analog reading is the sum of its samples.  Starting a cycle, [sample_count]
    samples accumulate to their sum modulo 2^16, the state reaching [sample_count]
    exactly with the last one. *)
Theorem analog_sums_samples a samples :
  1 <= a_sample_count a < 255 -> a_sample_count a <= a_state a ->
  samples <> [] -> zlen samples <= a_sample_count a -> Forall (fun x => 0 <= x < 65536) samples ->
  let a' := foldl analog_accumulate a samples in
  a_value a' = u16 (foldr Z.add 0 samples) /\ a_state a' = zlen samples /\
  (a_state a' <? a_sample_count a') = negb (zlen samples =? a_sample_count a).
Proof.
  intros Hn Hst Hne Hlen Hb a'.
  assert (Hacc : forall l x, a_sample_count x = a_sample_count a -> 1 <= a_state x ->
    a_state x + zlen l <= a_sample_count a -> 0 <= a_value x < 65536 ->
    let x' := foldl analog_accumulate x l in
    a_value x' = u16 (a_value x + foldr Z.add 0 l) /\ a_state x' = a_state x + zlen l /\
    a_sample_count x' = a_sample_count a).
  { induction l as [|s l IH]; intros x Hc Hs Hl Hv; cbn [foldl foldr].
    - rewrite Z.add_0_r, u16_small by done. unfold zlen. simpl. split; [done|]. split; [lia|done].
    - rewrite zlen_cons in Hl |- *. pose proof (zlen_nonneg l).
      assert (Ex : analog_accumulate x s = x <| a_value := u16 (s + a_value x) |> <| a_state := a_state x + 1 |>).
      { unfold analog_accumulate. rewrite Hc. destruct (Z.leb_spec (a_sample_count a) (a_state x)); [lia|].
        by rewrite u8_small by lia. }
      rewrite Ex. destruct (IH (x <| a_value := u16 (s + a_value x) |> <| a_state := a_state x + 1 |>))
        as (E1 & E2 & E3); cbn [a_sample_count a_state a_value upd] in *; try done; try lia.
      { apply u16_range. }
      rewrite E1, E2. split; [|split; [lia|done]]. unfold u16. rewrite Zplus_mod_idemp_l. f_equal. lia. }
  destruct samples as [|s l]; [done|]. apply Forall_cons in Hb as [Hs _].
  rewrite zlen_cons in Hlen. pose proof (zlen_nonneg l).
  assert (Ea : analog_accumulate a s = a <| a_value := s |> <| a_state := 1 |>).
  { unfold analog_accumulate. destruct (Z.leb_spec (a_sample_count a) (a_state a)); [done|lia]. }
  unfold a'. cbn [foldl]. rewrite Ea.
  destruct (Hacc l (a <| a_value := s |> <| a_state := 1 |>)) as (E1 & E2 & E3);
    cbn [a_sample_count a_state a_value upd] in *; try done; try lia.
  rewrite E1, E2, E3, zlen_cons. split; [done|]. split; [lia|].
  destruct (Z.eqb_spec (1 + zlen l) (a_sample_count a)), (Z.ltb_spec (1 + zlen l) (a_sample_count a));
    cbn [negb]; (done || lia).
Qed.
End sensors.

(** ** Witnesses: a button with two pins and a counter *)

Definition demo_buttons : buttons :=
  mk_buttons 50 0 1 1 [3; 0; 0; 0; 0; 0; 0; 0] 0 BF_ACKED 5 2 [20; 21].
Definition demo_counter : counter := mk_counter 10 100 0 4294967295 0 0 22.
Definition input_world : world :=
  (demo_world (demo_stepper 0 0))
    <| w_base ::= fun b => b
         <| oids := Some [mk_oid (Some OT_buttons) (Some (O_buttons demo_buttons));
                          mk_oid (Some OT_counter) (Some (O_counter demo_counter))] |>
         <| oid_count := 2 |> |>
    <| w_sched ::= fun s => s <| timers := <[T_obj 1 0 := mk_timer None None 7]>
         (<[T_obj 0 0 := mk_timer None None 5]> (timers s)) |> |>
    <| w_hw ::= fun h => h <| hw_input := fun n => if (n =? 0)%nat then 1 else 0 |> |>.

Lemma buttons_debounce_and_queue_witness :
  exists w' b' tv', buttons_event 0 input_world = Ret SF_RESCHEDULE w' /\
    buttons_view w' 0 b' tv' /\ Z.testbit (b_pressed b') 0 = true /\
    Z.testbit (b_pressed b') 1 = false.
Proof.
  destruct (buttons_debounce_and_queue 0 demo_buttons (mk_timer None None 5) input_world 1)
    as [(w' & b' & tv' & status & Hrun & Hv & _ & Hst & Hpr & _) _].
  - by split.
  - split; [done|]. simpl. lia.
  - simpl. lia.
  - reflexivity.
  - simpl. lia.
  - simpl. lia.
  - lia.
  - exists w', b', tv'. split; [exact Hrun|]. split; [exact Hv|].
    rewrite !Hpr by lia. unfold debounced_bit. rewrite !Hst by lia. by split.
Defined.

Lemma counter_counts_edges_witness :
  exists w' c' tv', counter_polls 2 1 input_world = Ret tt w' /\ counter_view w' 1 c' tv' /\
    c_count c' = 0.
Proof.
  destruct (counter_counts_edges 2 1 demo_counter (mk_timer None None 7) input_world)
    as (w' & c' & tv' & Hrun & Hv & Hc & _).
  - by split.
  - simpl. lia.
  - intros [|i] _; vm_compute; split; congruence.
  - exists w', c', tv'. split; [exact Hrun|]. split; [exact Hv|]. rewrite Hc. reflexivity.
Defined.

Definition demo_analog : analog_in := mk_analog_in 0 0 0 77 0 0 0 0 0 4 3.

Lemma analog_sums_samples_witness :
  a_value (foldl analog_accumulate demo_analog [60000; 5000; 1000]) = 464.
Proof.
  destruct (analog_sums_samples demo_analog [60000; 5000; 1000]) as [H _].
  - simpl. lia.
  - simpl. lia.
  - discriminate.
  - vm_compute. discriminate.
  - repeat (apply Forall_cons; split; [lia|]). constructor.
  - rewrite H. reflexivity.
Defined.
