(* ===== verification/Tmcuart.v ===== *)
(** * Single wire UART of the stepper drivers

    src/tmcuart.c: a request is sent bit by bit from timer events, the reply is
    sampled bit by bit.  An event changes [timer.func] to move between its states:
    sending (with or without calibration of the bit time on the sync nibble), end of
    sending, waiting for the start bit, reading. *)

From S2P Require Import Prelude Command Sched Basecmd World.

Section tmcuart.
Context {cfg : Config} {tgt : Target} {mch : Machine}.

Definition TU_LINE_HIGH : Z := 1.
Definition TU_ACTIVE : Z := 2.
Definition TU_READ_SYNC : Z := 4.
Definition TU_REPORT : Z := 8.
Definition TU_PULLUP : Z := 16.
Definition TU_SINGLE_WIRE : Z := 32.

(** [sizeof(t->data)]. *)
Definition TU_DATA_SIZE : Z := 10.

(** [DIV_ROUND_CLOSEST] of compiler.h on an [int32_t] (C division truncates). *)
Definition DIV_ROUND_CLOSEST (x d : Z) : Z := Z.quot (i32 (x + Z.quot d 2)) d.

Definition uart_timer (oid : Z) : tid := T_obj oid 0.
Definition set_tmcuart_wake (v : Z) (k : wakes) : wakes := k <| tmcuart_wake := v |>.

Definition tmcuart_reset_line (oid : Z) : M world unit :=
  t <- oget (T := tmcuart_s) oid ;;
  (if has (u_flags t) TU_SINGLE_WIRE then gpio_out_reset (u_tx_pin t) 1
   else gpio_out_write (u_tx_pin t) 1) ;;
  omod oid (fun t => t <| u_flags ::= fun f =>
    Z.lor (Z.land f (Z.lor TU_PULLUP TU_SINGLE_WIRE)) TU_LINE_HIGH |>).

Definition tmcuart_finalize (oid : Z) : M world Z :=
  tmcuart_reset_line oid ;;
  omod oid (fun t => t <| u_flags ::= fun f => Z.lor f TU_REPORT |>) ;;
  sched_wake_task set_tmcuart_wake ;;
  ret SF_DONE.

(** [timer.waketime += d] and [timer.func = f]. *)
Definition uart_delay (oid d : Z) : M world unit :=
  tmod (uart_timer oid) (fun t => t <| t_waketime ::= fun w => u32 (w + d) |>).
Definition uart_func (oid : Z) (f : timer_func) : M world unit :=
  tmod (uart_timer oid) (fun t => t <| t_func := Some f |>).

Definition tmcuart_read_event (oid : Z) : M world Z :=
  t <- oget (T := tmcuart_s) oid ;;
  v <- gpio_in_read (u_rx_pin t) ;;
  let pos := u_pos t in
  let mask := u8 (Z.shiftl 1 (Z.land pos 7)) in
  data <- deref (u_data t !! Z.to_nat (Z.shiftr pos 3)) ;;
  let data := if negb (v =? 0) then Z.lor data mask else clear data mask in
  omod oid (fun t => t <| u_data ::= <[Z.to_nat (Z.shiftr pos 3) := data]> |>) ;;
  let pos := u8 (pos + 1) in
  if u_read_count t <=? pos then tmcuart_finalize oid
  else
    omod oid (fun t => t <| u_pos := pos |>) ;;
    uart_delay oid (u_bit_time t) ;;
    ret SF_RESCHEDULE.

(** The block of [tmcuart_read_sync_event] behind the tests of the line. *)
Definition read_sync_next (oid : Z) : M world Z :=
  t <- oget (T := tmcuart_s) oid ;;
  omod oid (fun t => t <| u_pos ::= fun p => u8 (p + 1) |>) ;;
  if 64 <=? u_pos t then
    omod oid (fun t => t <| u_read_count := 0 |>) ;;
    tmcuart_finalize oid
  else
    uart_delay oid (u_bit_time t) ;;
    ret SF_RESCHEDULE.

Definition tmcuart_read_sync_event (oid : Z) : M world Z :=
  t <- oget (T := tmcuart_s) oid ;;
  v <- gpio_in_read (u_rx_pin t) ;;
  if negb (v =? 0) then
    omod oid (fun t => t <| u_flags ::= fun f => Z.lor f TU_READ_SYNC |>) ;;
    read_sync_next oid
  else if has (u_flags t) TU_READ_SYNC then
    omod oid (fun t => t <| u_pos := 0 |>) ;;
    uart_func oid F_tmcuart_read_event ;;
    tmcuart_read_event oid
  else read_sync_next oid.

Definition tmcuart_send_finish_event (oid : Z) : M world Z :=
  t <- oget (T := tmcuart_s) oid ;;
  if u_read_count t =? 0 then tmcuart_finalize oid
  else
    when (has (u_flags t) TU_SINGLE_WIRE)
      (gpio_in_reset (u_rx_pin t) (Z.land (u_flags t) TU_PULLUP)) ;;
    omod oid (fun t => t <| u_pos := 0 |>) ;;
    uart_func oid F_tmcuart_read_sync_event ;;
    uart_delay oid (u32 (u_bit_time t * 4)) ;;
    ret SF_RESCHEDULE.

(** The loop of [tmcuart_send_event]: the position of the next toggle, if any,
    and the time to it. *)
Fixpoint next_toggle (fuel : nat) (t : tmcuart_s) (line_state pos next : Z) :
    M world (option Z * Z) :=
  match fuel with
  | O => stuck
  | S fuel =>
      let pos := u8 (pos + 1) in
      if u_write_count t <=? pos then ret (None, next)
      else
        data <- deref (u_data t !! Z.to_nat (Z.shiftr pos 3)) ;;
        let bit := Z.land (Z.shiftr data (Z.land pos 7)) 1 in
        if negb (bit =? line_state) then ret (Some pos, next)
        else next_toggle fuel t line_state pos (u32 (next + u_bit_time t))
  end.

Definition tmcuart_send_event (oid : Z) : M world Z :=
  t <- oget (T := tmcuart_s) oid ;;
  gpio_out_toggle_noirq (u_tx_pin t) ;;
  omod oid (fun t => t <| u_flags ::= fun f => Z.lxor f TU_LINE_HIGH |>) ;;
  t <- oget (T := tmcuart_s) oid ;;
  let line_state := Z.land (u_flags t) TU_LINE_HIGH in
  '(found, next) <- next_toggle 256 t line_state (u_pos t) (u_bit_time t) ;;
  match found with
  | None =>
      uart_func oid F_tmcuart_send_finish_event ;;
      uart_delay oid next ;;
      ret SF_RESCHEDULE
  | Some pos =>
      omod oid (fun t => t <| u_pos := pos |>) ;;
      uart_delay oid next ;;
      ret SF_RESCHEDULE
  end.

Definition tmcuart_send_sync_event (oid : Z) : M world Z :=
  t <- oget (T := tmcuart_s) oid ;;
  gpio_out_toggle_noirq (u_tx_pin t) ;;
  cur <- timer_read_time ;;
  omod oid (fun t => t <| u_flags ::= fun f => Z.lxor f TU_LINE_HIGH |>) ;;
  omod oid (fun t => t <| u_pos ::= fun p => u8 (p + 1) |>) ;;
  t <- oget (T := tmcuart_s) oid ;;
  tm <- tget (uart_timer oid) ;;
  let offset := u32 (cur - t_waketime tm) in
  if u_pos t =? 1 then
    omod oid (fun t => t <| u_bit_time := offset |>) ;;
    uart_delay oid (u_cfg_bit_time t) ;;
    ret SF_RESCHEDULE
  else if 5 <=? u_pos t then
    let diff := i32 (offset - u_bit_time t) in
    let bit_time := u32 (u_cfg_bit_time t + DIV_ROUND_CLOSEST diff 4) in
    omod oid (fun t => t <| u_bit_time := bit_time |>) ;;
    uart_func oid F_tmcuart_send_event ;;
    uart_delay oid (u32 (diff + bit_time)) ;;
    ret SF_RESCHEDULE
  else
    uart_delay oid (u_cfg_bit_time t) ;;
    ret SF_RESCHEDULE.

Definition tmcuart_zero : tmcuart_s := mk_tmcuart 0 0 0 0 0 0 0 0 (repeat 0 10).

Definition command_config_tmcuart (args : list Z) : M world unit :=
  oid <- obj_alloc (nthZ args 0) OT_tmcuart tmcuart_zero [0] ;;
  let pull_up := u8 (nthZ args 2) in
  let rx_pin := nthZ args 1 in
  let tx_pin := nthZ args 3 in
  rx <- gpio_in_setup rx_pin (b2z (z2b pull_up)) ;;
  omod oid (fun t => t <| u_rx_pin := rx |>) ;;
  tx <- gpio_out_setup tx_pin 1 ;;
  omod oid (fun t => t <| u_tx_pin := tx |>) ;;
  omod oid (fun t => t <| u_cfg_bit_time := nthZ args 4 |>) ;;
  omod oid (fun t => t <| u_flags := Z.lor (Z.lor TU_LINE_HIGH (if z2b pull_up then TU_PULLUP else 0))
                                       (if rx_pin =? tx_pin then TU_SINGLE_WIRE else 0) |>).

(** The assignments of [command_tmcuart_send] to the object, with the bytes to
    send in [data]. *)
Definition uart_request (write : list Z) (read_len : Z) (t : tmcuart_s) : tmcuart_s :=
  t <| u_data ::= fun d => write ++ dropZ (zlen write) d |>
    <| u_pos := 0 |>
    <| u_flags ::= fun f => Z.lor (Z.land f (Z.lor (Z.lor TU_LINE_HIGH TU_PULLUP) TU_SINGLE_WIRE))
                              TU_ACTIVE |>
    <| u_write_count := u8 (zlen write * 8) |>
    <| u_read_count := u8 (read_len * 8) |>.

(** A request that starts with the sync nibble is sent with calibration. *)
Definition has_sync_nibble (write : list Z) : bool :=
  (1 <=? zlen write) && (Z.land (nthZ write 0) 63 =? 42).

Definition command_tmcuart_send (args : list Z) : M world unit :=
  oid <- oid_lookup (nthZ args 0) OT_tmcuart ;;
  t <- oget (T := tmcuart_s) oid ;;
  if has (u_flags t) TU_ACTIVE then ret tt
  else
    let write_len := u8 (nthZ args 1) in
    let read_len := u8 (nthZ args 3) in
    if (TU_DATA_SIZE <? write_len) || (TU_DATA_SIZE <? read_len)
    then shutdown "tmcuart data too large"
    else
      write <- load_arg (nthZ args 2) write_len ;;
      omod oid (uart_request write read_len) ;;
      (if has_sync_nibble write then uart_func oid F_tmcuart_send_sync_event
       else
         omod oid (fun t => t <| u_bit_time := u_cfg_bit_time t |>) ;;
         uart_func oid F_tmcuart_send_event) ;;
      now <- timer_read_time ;;
      tmod (uart_timer oid) (fun t => t <| t_waketime := u32 (now + timer_from_us 200) |>) ;;
      sched_add_timer (uart_timer oid).

Definition tmcuart_task : M world unit :=
  woken <- sched_check_wake tmcuart_wake set_tmcuart_wake ;;
  if negb woken then ret tt
  else foreach_oid OT_tmcuart (fun oid =>
    t <- oget (T := tmcuart_s) oid ;;
    if negb (has (u_flags t) TU_REPORT) then ret tt
    else
      omod oid (fun t => t <| u_flags ::= fun f => clear f TU_REPORT |>) ;;
      sendf "tmcuart_response oid=%c read=%*s"
        [VA_int oid; VA_buffer (u_read_count t / 8) (u_data t)]).

Definition tmcuart_shutdown : M world unit :=
  foreach_oid OT_tmcuart tmcuart_reset_line.

(** The function behind [timer.func]. *)
Definition uart_event (oid : Z) (f : timer_func) : M world Z :=
  match f with
  | F_tmcuart_send_sync_event => tmcuart_send_sync_event oid
  | F_tmcuart_send_event => tmcuart_send_event oid
  | F_tmcuart_send_finish_event => tmcuart_send_finish_event oid
  | F_tmcuart_read_sync_event => tmcuart_read_sync_event oid
  | F_tmcuart_read_event => tmcuart_read_event oid
  | _ => stuck
  end.
End tmcuart.
