(* ===== verification/TmcuartFacts.v ===== *)
(** * Properties of the UART of the stepper drivers

    The waveform of a request, the bits of a reply, and that every exchange ends. *)

From Stdlib Require Import Sorting.Sorted.
From S2P Require Import Prelude Command Sched SchedFacts Basecmd BasecmdFacts World WorldFacts StepperFacts Tmcuart.

(** Bit [i] of a byte array, lowest bit of the first byte first. *)
Definition dbit (data : list Z) (i : nat) : bool :=
  Z.testbit (nth (i / 8) data 0) (Z.of_nat (i mod 8)).

Lemma shiftr3 (i : nat) : Z.to_nat (Z.shiftr (Z.of_nat i) 3) = (i / 8)%nat.
Proof.
  rewrite Z.shiftr_div_pow2 by lia. change (2 ^ 3) with (Z.of_nat 8).
  by rewrite <- Nat2Z.inj_div, Nat2Z.id.
Qed.

Lemma land7 (i : nat) : Z.land (Z.of_nat i) 7 = Z.of_nat (i mod 8).
Proof.
  change 7 with (Z.ones 3). rewrite Z.land_ones by lia. change (2 ^ 3) with (Z.of_nat 8).
  by rewrite <- Nat2Z.inj_mod.
Qed.

(** [(data >> n) & 1]. *)
Lemma shiftr_land1 d n : 0 <= n -> Z.land (Z.shiftr d n) 1 = b2z (Z.testbit d n).
Proof.
  intros Hn. change 1 with (Z.ones 1) at 1. rewrite Z.land_ones by lia. change (2 ^ 1) with 2.
  rewrite Zmod_odd, <- Z.bit0_odd, Z.shiftr_spec by lia. by rewrite Z.add_0_l.
Qed.

Lemma nth_data (d : list Z) k : (k < length d)%nat -> d !! k = Some (nth k d 0).
Proof.
  intros Hk. destruct (lookup_lt_is_Some_2 d k Hk) as [x Hx]. rewrite Hx.
  by rewrite (nth_lookup_Some _ _ _ _ Hx).
Qed.

(** Storing one bit of a byte array. *)
Lemma dbit_store d (p i : nat) (b : bool) :
  (p < 8 * length d)%nat ->
  dbit (<[(p / 8)%nat := (if b then Z.lor (nth (p / 8) d 0) (Z.shiftl 1 (Z.of_nat (p mod 8)))
                          else clear (nth (p / 8) d 0) (Z.shiftl 1 (Z.of_nat (p mod 8))))]> d) i
  = if decide (i = p) then b else dbit d i.
Proof.
  intros Hp. assert (Hlt : (p / 8 < length d)%nat) by (apply Nat.Div0.div_lt_upper_bound; lia).
  assert (Hms : forall j : nat, Z.testbit (Z.shiftl 1 (Z.of_nat (p mod 8))) (Z.of_nat j)
                = bool_decide (j = (p mod 8)%nat)).
  { intros j. rewrite Z.shiftl_1_l, Z.pow2_bits_eqb by lia. case_bool_decide.
    - subst. by apply Z.eqb_refl.
    - apply Z.eqb_neq. lia. }
  unfold dbit. rewrite !nth_lookup. destruct (decide (i / 8 = p / 8)%nat) as [E|E].
  - rewrite E, list_lookup_insert_eq by done. cbn [from_option]. unfold id at 1.
    assert (Hb : Z.testbit (if b then Z.lor (default 0 (d !! (p / 8)%nat)) (Z.shiftl 1 (Z.of_nat (p mod 8)))
       else clear (default 0 (d !! (p / 8)%nat)) (Z.shiftl 1 (Z.of_nat (p mod 8)))) (Z.of_nat (i mod 8))
      = if decide (i mod 8 = p mod 8)%nat then b
        else Z.testbit (default 0 (d !! (p / 8)%nat)) (Z.of_nat (i mod 8))).
    { unfold clear. destruct b; rewrite ?Z.lor_spec, ?Z.ldiff_spec, Hms; destruct decide;
        case_bool_decide; try done; simpl; by rewrite ?orb_true_r, ?orb_false_r, ?andb_true_r, ?andb_false_r. }
    rewrite Hb. pose proof (Nat.div_mod_eq i 8). pose proof (Nat.div_mod_eq p 8).
    destruct (decide (i mod 8 = p mod 8)%nat), (decide (i = p)); try done; lia.
  - rewrite list_lookup_insert_ne by done. destruct (decide (i = p)) as [->|]; done.
Qed.

Section tmcuart.
Context {cfg : Config} {tgt : Target} {mch : Machine}.

Definition uart_view (w : world) (oid : Z) (t : tmcuart_s) (tv : timer) : Prop :=
  obj_at w oid = Some (O_tmcuart t) /\ timer_at w (uart_timer oid) = Some tv.

(** ** Sending *)

(** The level of the line as a boolean. *)
Definition line_high (t : tmcuart_s) : bool := Z.testbit (u_flags t) 0.

Lemma land_line f : Z.land f TU_LINE_HIGH = b2z (Z.testbit f 0).
Proof. rewrite <- (shiftr_land1 f 0) by lia. by rewrite Z.shiftr_0_r. Qed.

Lemma next_toggle_run fuel t (b : bool) (p n k : nat) w :
  length (u_data t) = 10%nat -> u_write_count t = Z.of_nat n -> (n <= 80)%nat ->
  (p <= 80)%nat -> (n - p < fuel)%nat ->
  (exists q, (p < q < n)%nat /\ dbit (u_data t) q = negb b /\
     (forall i, (p < i < q)%nat -> dbit (u_data t) i = b) /\
     next_toggle fuel t (b2z b) (Z.of_nat p) (u32 (Z.of_nat k * u_bit_time t)) w
     = Ret (Some (Z.of_nat q), u32 (Z.of_nat (k + (q - p) - 1) * u_bit_time t)) w) \/
  ((p < n)%nat /\ (forall i, (p < i < n)%nat -> dbit (u_data t) i = b) /\
   next_toggle fuel t (b2z b) (Z.of_nat p) (u32 (Z.of_nat k * u_bit_time t)) w
   = Ret (None, u32 (Z.of_nat (k + (n - p) - 1) * u_bit_time t)) w) \/
  ((n <= p)%nat /\ next_toggle fuel t (b2z b) (Z.of_nat p) (u32 (Z.of_nat k * u_bit_time t)) w
   = Ret (None, u32 (Z.of_nat k * u_bit_time t)) w).
Proof.
  intros Hd Hn Hn80. revert p k. induction fuel as [|fuel IH]; intros p k Hp Hf; [lia|].
  cbn [next_toggle]. rewrite u8_small by lia.
  replace (Z.of_nat p + 1) with (Z.of_nat (S p)) by lia. rewrite Hn.
  destruct (Z.leb_spec (Z.of_nat n) (Z.of_nat (S p))).
  { destruct (decide (n <= p)%nat); [by right; right|].
    right; left. split; [lia|]. split; [intros; lia|]. do 4 f_equal. lia. }
  rewrite shiftr3, land7, nth_data.
  2: { rewrite Hd. apply Nat.Div0.div_lt_upper_bound. lia. }
  cbn [deref]. rewrite bind_ret_l, shiftr_land1 by lia. fold (dbit (u_data t) (S p)).
  assert (Hne : negb (b2z (dbit (u_data t) (S p)) =? b2z b) = xorb (dbit (u_data t) (S p)) b).
  { by destruct (dbit (u_data t) (S p)), b. }
  rewrite Hne. destruct (xorb (dbit (u_data t) (S p)) b) eqn:Ex.
  - left. exists (S p). split; [lia|]. split; [by destruct (dbit (u_data t) (S p)), b|].
    split; [intros; lia|]. unfold ret. do 4 f_equal. lia.
  - assert (Eb : dbit (u_data t) (S p) = b) by (by destruct (dbit (u_data t) (S p)), b).
    replace (u32 (u32 (Z.of_nat k * u_bit_time t) + u_bit_time t))
      with (u32 (Z.of_nat (S k) * u_bit_time t))
      by (unfold u32; rewrite Zplus_mod_idemp_l; f_equal; lia).
    destruct (IH (S p) (S k)) as [(q & Hq & Hdq & Hall & ->)|[(? & Hall & ->)|(? & ?)]]; [lia|lia| | |lia].
    + left. exists q. split; [lia|]. split; [done|]. split.
      * intros i Hi. destruct (decide (i = S p)) as [->|]; [done|]. apply Hall. lia.
      * do 4 f_equal. lia.
    + right; left. split; [lia|]. split.
      * intros i Hi. destruct (decide (i = S p)) as [->|]; [done|]. apply Hall. lia.
      * do 4 f_equal. lia.
Qed.

(** The line after a toggle. *)
Definition toggled (t : tmcuart_s) : tmcuart_s := t <| u_flags ::= fun f => Z.lxor f TU_LINE_HIGH |>.

Lemma toggled_line t : line_high (toggled t) = negb (line_high t).
Proof. unfold line_high, toggled. cbn [u_flags upd]. by rewrite Z.lxor_spec, xorb_true_r. Qed.

(** A request with [n] bits to send, of which the timer is at bit [p]. *)
Definition sending (t : tmcuart_s) (n p : nat) : Prop :=
  length (u_data t) = 10%nat /\ u_write_count t = Z.of_nat n /\ (n <= 80)%nat /\
  u_pos t = Z.of_nat p /\ (p <= 80)%nat /\ 0 <= u_bit_time t < 4294967296.

Lemma send_event_run oid t tv w n p :
  uart_view w oid t tv -> sending t n p ->
  exists w', tmcuart_send_event oid w = Ret SF_RESCHEDULE w' /\
    trace w' = trace w ++ [Ev_out_toggle (u_tx_pin t)] /\
    (forall i, input_at w' i = input_at w i) /\
    ((exists q, (p < q < n)%nat /\ dbit (u_data t) q = line_high t /\
        (forall i, (p < i < q)%nat -> dbit (u_data t) i = negb (line_high t)) /\
        uart_view w' oid (toggled t <| u_pos := Z.of_nat q |>)
          (tv <| t_waketime := u32 (t_waketime tv + Z.of_nat (q - p) * u_bit_time t) |>)) \/
     ((forall i, (p < i < n)%nat -> dbit (u_data t) i = negb (line_high t)) /\
      uart_view w' oid (toggled t)
        (mk_timer (t_next tv) (Some F_tmcuart_send_finish_event)
           (u32 (t_waketime tv + Z.of_nat (1 `max` (n - p)) * u_bit_time t))))).
Proof.
  intros [Ho Ht] (Hd & Hn & Hn80 & Hp & Hp80 & Hbt).
  unfold tmcuart_send_event, gpio_out_toggle_noirq, uart_func, uart_delay. repeat wstep.
  fold (toggled t). rewrite land_line. fold (line_high (toggled t)). rewrite toggled_line.
  change (u_pos (toggled t)) with (u_pos t). rewrite Hp.
  replace (u_bit_time (toggled t)) with (u32 (Z.of_nat 1 * u_bit_time (toggled t))).
  2: { cbn. rewrite Z.mul_1_l. by apply u32_small. }
  assert (Hadd : forall x, u32 (t_waketime tv + u32 x) = u32 (t_waketime tv + x)).
  { intros x. unfold u32. by rewrite Zplus_mod_idemp_r. }
  match goal with |- context [bind _ _ ?x] => set (w1 := x) end.
  destruct (next_toggle_run 256 (toggled t) (negb (line_high t)) p n 1 w1)
    as [(q & Hq & Hdq & Hall & Hrun)|[(Hlt & Hall & Hrun)|(Hle & Hrun)]]; try done; try lia;
    rewrite (bind_Ret _ _ _ _ _ Hrun); subst w1; repeat wstep; cbn [t_waketime t_func t_next upd];
    cbn [u_bit_time toggled upd]; rewrite ?Hadd;
    eexists; (split; [reflexivity|]); autorewrite with wget; (split; [done|]);
    (split; [intros i; by autorewrite with wget|]).
  - left. exists q. split; [lia|]. split; [by etransitivity; [exact Hdq|apply negb_involutive]|]. split; [done|].
    replace (1 + (q - p) - 1)%nat with (q - p)%nat by lia.
    split; autorewrite with wget; [by eapply obj_at_put|done].
  - right. split; [done|]. replace (1 + (n - p) - 1)%nat with (1 `max` (n - p))%nat by lia.
    split; autorewrite with wget; [by eapply obj_at_put|done].
  - right. split; [intros; lia|]. replace (1 `max` (n - p))%nat with 1%nat by lia.
    split; autorewrite with wget; [by eapply obj_at_put|done].
Qed.

(** The objects that differ in the position and the level of the line only. *)
Definition mode_flags (f : Z) : Z := Z.land f 52.
Definition same_exchange (t t' : tmcuart_s) : Prop :=
  exists f y, t' = t <| u_flags := f |> <| u_pos := y |> /\ mode_flags f = mode_flags (u_flags t).

Lemma mode_toggle f : mode_flags (Z.lxor f TU_LINE_HIGH) = mode_flags f.
Proof.
  unfold mode_flags. apply Z.bits_inj'. intros i Hi. rewrite !Z.land_spec, Z.lxor_spec.
  destruct (decide (i = 0)) as [->|]; [by rewrite !andb_false_r|].
  replace (Z.testbit TU_LINE_HIGH i) with false; [by rewrite xorb_false_r|].
  change TU_LINE_HIGH with (2 ^ 0). rewrite Z.pow2_bits_eqb by lia. symmetry. apply Z.eqb_neq. lia.
Qed.

(** A test of one of the mode flags. *)
Lemma has_mode f f' m :
  mode_flags f = mode_flags f' -> Z.land 52 m = m -> has f m = has f' m.
Proof.
  unfold mode_flags, has. intros Hf Hm. rewrite <- Hm, !Z.land_assoc, Hf. done.
Qed.

Lemma same_trans t t' t'' : same_exchange t t' -> same_exchange t' t'' -> same_exchange t t''.
Proof.
  intros (f & y & -> & Hf) (f' & y' & -> & Hf'). exists f', y'. split; [done|]. by rewrite Hf'.
Qed.

Lemma same_toggled t y : same_exchange t (toggled t <| u_pos := y |>).
Proof. eexists _, y. split; [reflexivity|]. apply mode_toggle. Qed.

(** The timer expires up to [n] times: the times it was set to, and whether the
    last event ended the exchange ([SF_DONE] takes the timer off the queue). *)
Fixpoint uart_run (n : nat) (oid : Z) : M world (list Z * bool) :=
  match n with
  | O => ret ([], false)
  | S n =>
      tv <- tget (uart_timer oid) ;;
      f <- deref (t_func tv) ;;
      r <- uart_event oid f ;;
      if r =? SF_DONE then ret ([t_waketime tv], true)
      else '(ts, d) <- uart_run n oid ;; ret (t_waketime tv :: ts, d)
  end.

Lemma uart_run_step n oid tv f w w' ts d w'' :
  timer_at w (uart_timer oid) = Some tv -> t_func tv = Some f ->
  uart_event oid f w = Ret SF_RESCHEDULE w' -> uart_run n oid w' = Ret (ts, d) w'' ->
  uart_run (S n) oid w = Ret (t_waketime tv :: ts, d) w''.
Proof.
  intros Ht Hf He Hr. cbn [uart_run]. rewrite (bind_Ret _ _ _ _ _ (wtget_Ret _ _ _ Ht)), Hf.
  cbn [deref]. rewrite bind_ret_l, (bind_Ret _ _ _ _ _ He). cbn. by rewrite (bind_Ret _ _ _ _ _ Hr).
Qed.

(** The number of toggles up to bit [i], and the level they leave the line at, which
    is high before the first. *)
Definition toggles_to (i : nat) (ks : list nat) : nat := length (filter (fun k => k <= i)%nat ks).
Definition line_level (ks : list nat) (i : nat) : bool := Nat.even (toggles_to i ks).

Lemma toggles_none i p ks : Forall (fun k => p < k)%nat ks -> (i <= p)%nat -> toggles_to i ks = 0%nat.
Proof.
  intros Hks Hi. unfold toggles_to. induction Hks as [|k ks Hk _ IH]; [done|].
  rewrite filter_cons_False by lia. exact IH.
Qed.

Lemma toggles_cons i k ks : (k <= i)%nat -> toggles_to i (k :: ks) = S (toggles_to i ks).
Proof. intros. unfold toggles_to. by rewrite filter_cons_True by lia. Qed.

Lemma send_run m oid t tv w n p t0 :
  (n - p = m)%nat -> (p < n)%nat -> uart_view w oid t tv -> sending t n p ->
  t_func tv = Some F_tmcuart_send_event -> dbit (u_data t) p = negb (line_high t) ->
  t_waketime tv = u32 (t0 + Z.of_nat p * u_bit_time t) ->
  exists ks w' t' tv',
    uart_run (length ks) oid w
    = Ret ((fun k : nat => u32 (t0 + Z.of_nat k * u_bit_time t)) <$> ks, false) w' /\
    head ks = Some p /\ StronglySorted lt ks /\ Forall (fun k => p <= k < n)%nat ks /\
    (forall i, (p <= i < n)%nat ->
       dbit (u_data t) i = xorb (line_high t) (Nat.odd (toggles_to i ks))) /\
    trace w' = trace w ++ replicate (length ks) (Ev_out_toggle (u_tx_pin t)) /\
    (forall i, input_at w' i = input_at w i) /\
    uart_view w' oid t' tv' /\ t_func tv' = Some F_tmcuart_send_finish_event /\
    t_waketime tv' = u32 (t0 + Z.of_nat n * u_bit_time t) /\ same_exchange t t'.
Proof.
  intros Hm. revert t tv w p Hm. induction m as [m IH] using lt_wf_ind. intros t tv w p Hm Hp Hv Hs Hf Hb Ht.
  destruct (send_event_run oid t tv w n p Hv Hs) as (w1 & Hrun & Htr & Hin & Hcase).
  destruct Hcase as [(q & Hq & Hdq & Hall & Hv1)|(Hall & Hv1)].
  - destruct (IH (n - q)%nat ltac:(lia) _ _ w1 q eq_refl ltac:(lia) Hv1)
      as (ks & w2 & t2 & tv2 & Hr2 & Hhd & Hso & Hfa & Hlv & Htr2 & Hin2 & Hv2 & Hf2 & Ht2 & Hd2).
    + destruct Hs as (? & ? & ? & ? & ? & ?). do 5 (split; [first [assumption|done|lia]|]). assumption.
    + done.
    + etransitivity; [exact Hdq|]. change (line_high (toggled t <| u_pos := Z.of_nat q |>))
        with (line_high (toggled t)). by rewrite toggled_line, negb_involutive.
    + cbn [t_waketime upd]. rewrite Ht. unfold u32. rewrite Zplus_mod_idemp_l. f_equal.
      cbn [u_bit_time toggled upd]. rewrite Nat2Z.inj_sub by lia. ring.
    + exists (p :: ks), w2, t2, tv2. assert (Hgt : Forall (fun k => p < k)%nat ks).
      { eapply Forall_impl; [exact Hfa|]. cbn. lia. }
      split; [|split; [done|split; [|split; [|split; [|split; [|split]]]]]].
      * cbn [length fmap list_fmap]. rewrite <- Ht. destruct Hv as [_ Hvt].
        eapply uart_run_step; [exact Hvt|exact Hf|exact Hrun|exact Hr2].
      * constructor; [done|]. eapply Forall_impl; [exact Hgt|]. done.
      * constructor; [lia|]. eapply Forall_impl; [exact Hfa|]. cbn. lia.
      * intros i Hi. rewrite toggles_cons by lia. rewrite Nat.odd_succ, <- Nat.negb_odd.
        destruct (decide (i < q)%nat) as [Hlt|Hge].
        { rewrite (toggles_none i (q - 1)); [|eapply Forall_impl; [exact Hfa|]; cbn; lia|lia].
          cbn. rewrite xorb_true_r. destruct (decide (i = p)) as [->|]; [done|]. apply Hall. lia. }
        { etransitivity; [apply (Hlv i); lia|].
          change (line_high (toggled t <| u_pos := Z.of_nat q |>)) with (line_high (toggled t)).
          rewrite toggled_line. by destruct (line_high t), (Nat.odd _). }
      * rewrite Htr2, Htr, <- app_assoc. done.
      * intros i. by rewrite Hin2, Hin.
      * split; [done|]. split; [done|]. split; [done|].
        eapply same_trans; [apply same_toggled|exact Hd2].
  - exists [p], w1, (toggled t), (mk_timer (t_next tv) (Some F_tmcuart_send_finish_event)
           (u32 (t_waketime tv + Z.of_nat (1 `max` (n - p)) * u_bit_time t))).
    split; [|split; [done|split; [|split; [|split; [|split; [|split; [|split; [|split; [|split]]]]]]]]];
      try done.
    + cbn [length fmap list_fmap]. rewrite <- Ht. destruct Hv as [_ Hvt].
      by eapply uart_run_step; [exact Hvt|exact Hf|exact Hrun|].
    + repeat constructor.
    + repeat constructor; lia.
    + intros i Hi. rewrite toggles_cons by lia. cbn. rewrite xorb_true_r.
      destruct (decide (i = p)) as [->|]; [done|]. apply Hall. lia.
    + cbn [t_waketime]. rewrite Ht. replace (1 `max` (n - p))%nat with (n - p)%nat by lia.
      unfold u32. rewrite Zplus_mod_idemp_l. f_equal. rewrite Nat2Z.inj_sub by lia. ring.
    + by apply (same_toggled t (u_pos t)).
Qed.

(** ** Reading *)

(** The state behind [tmcuart_finalize], and what it does to the line. *)
Definition finalized (t : tmcuart_s) : tmcuart_s :=
  t <| u_flags ::= fun f =>
         Z.lor (Z.lor (Z.land f (Z.lor TU_PULLUP TU_SINGLE_WIRE)) TU_LINE_HIGH) TU_REPORT |>.
Definition idle_event (t : tmcuart_s) : event :=
  if has (u_flags t) TU_SINGLE_WIRE then Ev_out_reset (u_tx_pin t) 1 else Ev_out_write (u_tx_pin t) 1.

Lemma finalize_run oid t tv w :
  uart_view w oid t tv ->
  exists w', tmcuart_finalize oid w = Ret SF_DONE w' /\ uart_view w' oid (finalized t) tv /\
    trace w' = trace w ++ [idle_event t] /\ (forall i, input_at w' i = input_at w i).
Proof.
  intros [Ho Ht]. unfold tmcuart_finalize, tmcuart_reset_line, idle_event, gpio_out_reset, gpio_out_write.
  repeat wstep. destruct (has (u_flags t) TU_SINGLE_WIRE); repeat wstep;
    (eexists; split; [reflexivity|]; split; [|split; [by autorewrite with wget|
       intros i; by autorewrite with wget]]; split; autorewrite with wget;
     [by eapply obj_at_put|done]).
Qed.

(** The level of an input as a boolean. *)
Definition high (v : Z) : bool := negb (u8 v =? 0).

(** Bit [p] of the array replaced by a sample. *)
Definition store_bit (d : list Z) (p : nat) (b : bool) : list Z :=
  <[(p / 8)%nat := (if b then Z.lor (nth (p / 8) d 0) (Z.shiftl 1 (Z.of_nat (p mod 8)))
                    else clear (nth (p / 8) d 0) (Z.shiftl 1 (Z.of_nat (p mod 8))))]> d.

(** An exchange that is reading bit [p] of [n]. *)
Definition reading (t : tmcuart_s) (n p : nat) : Prop :=
  length (u_data t) = 10%nat /\ u_read_count t = Z.of_nat n /\ (n <= 80)%nat /\
  u_pos t = Z.of_nat p /\ (p < n)%nat.

Lemma read_event_run oid t tv w n p :
  uart_view w oid t tv -> reading t n p ->
  let t1 := t <| u_data ::= fun d => store_bit d p (high (input_at w 0)) |> in
  exists w', (forall i, input_at w' i = input_at w (S i)) /\
    ((S p = n /\ tmcuart_read_event oid w = Ret SF_DONE w' /\ uart_view w' oid (finalized t1) tv /\
      trace w' = trace w ++ [idle_event t]) \/
     ((S p < n)%nat /\ tmcuart_read_event oid w = Ret SF_RESCHEDULE w' /\
      uart_view w' oid (t1 <| u_pos := Z.of_nat (S p) |>)
        (tv <| t_waketime ::= fun w => u32 (w + u_bit_time t) |>) /\ trace w' = trace w)).
Proof.
  intros [Ho Ht] (Hd & Hn & Hn80 & Hp & Hpn) t1.
  assert (Hm : 0 <= Z.shiftl 1 (Z.of_nat (p mod 8)) < 256).
  { rewrite Z.shiftl_1_l. pose proof (Nat.mod_upper_bound p 8). change 256 with (2 ^ 8).
    split; [apply Z.pow_nonneg; lia|apply Z.pow_lt_mono_r; lia]. }
  unfold tmcuart_read_event, gpio_in_read, uart_delay. repeat wstep. rewrite next_input_at, Hp.
  rewrite shiftr3, land7, (u8_small (Z.shiftl _ _)), nth_data by (first [lia|rewrite Hd; apply Nat.Div0.div_lt_upper_bound; lia]).
  cbn [deref]. fold (high (input_at w 0)). repeat wstep.
  replace (u8 (Z.of_nat p + 1)) with (Z.of_nat (S p)) by (rewrite u8_small; lia). rewrite Hn.
  match goal with |- context [put_obj oid (to_obj ?x)] => change x with t1 end.
  destruct (Z.leb_spec (Z.of_nat n) (Z.of_nat (S p))).
  - assert (Hv1 : uart_view (take_input (put_obj oid (to_obj t1) w)) oid t1 tv).
    { split; autorewrite with wget; [by eapply obj_at_put|done]. }
    destruct (finalize_run _ _ _ _ Hv1) as (w' & Hr & Hv' & Htr & Hi). exists w'. split.
    { intros i. rewrite Hi. by autorewrite with wget. }
    left. split; [lia|]. split; [exact Hr|]. split; [done|]. rewrite Htr. by autorewrite with wget.
  - repeat wstep. eexists. split; [|right; split; [lia|]; split; [reflexivity|]; split].
    + intros i. by autorewrite with wget.
    + split; autorewrite with wget; [by eapply obj_at_put|done].
    + by autorewrite with wget.
Qed.

Lemma uart_run_last oid tv f w w' :
  timer_at w (uart_timer oid) = Some tv -> t_func tv = Some f ->
  uart_event oid f w = Ret SF_DONE w' -> forall n, uart_run (S n) oid w = Ret ([t_waketime tv], true) w'.
Proof.
  intros Ht Hf He n. cbn [uart_run]. rewrite (bind_Ret _ _ _ _ _ (wtget_Ret _ _ _ Ht)), Hf.
  cbn [deref]. by rewrite bind_ret_l, (bind_Ret _ _ _ _ _ He).
Qed.

Lemma store_bit_spec d p i b :
  length d = 10%nat -> (p < 80)%nat -> dbit (store_bit d p b) i = if decide (i = p) then b else dbit d i.
Proof. intros Hd Hp. apply dbit_store. lia. Qed.

(** The times [k, k+1, ..] of [n] events one bit apart. *)
Definition bit_times (t0 bt : Z) (k n : nat) : list Z :=
  (fun i : nat => u32 (t0 + Z.of_nat i * bt)) <$> seq k n.

Lemma bit_times_next t0 bt k : u32 (u32 (t0 + Z.of_nat k * bt) + bt) = u32 (t0 + Z.of_nat (S k) * bt).
Proof. unfold u32. rewrite Zplus_mod_idemp_l. f_equal. lia. Qed.

Lemma read_run m oid t tv w n p t0 k :
  (n - p = m)%nat -> uart_view w oid t tv -> reading t n p -> t_func tv = Some F_tmcuart_read_event ->
  t_waketime tv = u32 (t0 + Z.of_nat k * u_bit_time t) ->
  exists w' t' tv',
    uart_run m oid w = Ret (bit_times t0 (u_bit_time t) k m, true) w' /\
    uart_view w' oid t' tv' /\ trace w' = trace w ++ [idle_event t] /\
    (forall i, dbit (u_data t') i =
       if decide (p <= i < n)%nat then high (input_at w (i - p)) else dbit (u_data t) i) /\
    u_flags t' = u_flags (finalized t) /\ u_read_count t' = u_read_count t.
Proof.
  intros Hm. revert t tv w p k Hm. induction m as [|m IH]; intros t tv w p k Hm Hv Hr Hf Ht.
  { destruct Hr as (_ & _ & _ & _ & ?). lia. }
  destruct (read_event_run oid t tv w n p Hv Hr) as (w1 & Hin & Hcase).
  destruct Hr as (Hd & Hn & Hn80 & Hp & Hpn). destruct Hv as [Hvo Hvt].
  pose proof (fun i => store_bit_spec (u_data t) p i (high (input_at w 0)) Hd ltac:(lia)) as Hst.
  destruct Hcase as [(Hl & He & Hv1 & Htr)|(Hl & He & Hv1 & Htr)].
  - exists w1, (finalized (t <| u_data ::= fun d => store_bit d p (high (input_at w 0)) |>)), tv.
    replace m with 0%nat by lia. split; [|split; [done|split; [done|split; [|done]]]].
    + rewrite (uart_run_last _ _ _ _ _ Hvt Hf He), Ht. done.
    + intros i. etransitivity; [apply (Hst i)|]. destruct (decide (i = p)) as [->|].
      * by rewrite decide_True, Nat.sub_diag by lia.
      * by rewrite decide_False by lia.
  - set (t1 := t <| u_data ::= fun d => store_bit d p (high (input_at w 0)) |>
                 <| u_pos := Z.of_nat (S p) |>) in Hv1.
    destruct (IH t1 (tv <| t_waketime ::= fun w => u32 (w + u_bit_time t) |>) w1 (S p) (S k))
      as (w2 & t2 & tv2 & Hrun & Hv2 & Htr2 & Hdata & Hfl & Hrc).
    + lia.
    + done.
    + split; [by cbn; unfold store_bit; rewrite length_insert|]. split_and!; done || lia.
    + done.
    + cbn [t_waketime upd]. rewrite Ht. apply bit_times_next.
    + exists w2, t2, tv2. split; [|split; [done|split; [by rewrite Htr2, Htr|split; [|done]]]].
      * change (bit_times t0 (u_bit_time t) k (S m))
          with (u32 (t0 + Z.of_nat k * u_bit_time t) :: bit_times t0 (u_bit_time t) (S k) m).
        rewrite <- Ht. by eapply uart_run_step.
      * intros i. rewrite Hdata. change (u_data t1) with (store_bit (u_data t) p (high (input_at w 0))).
        rewrite Hst. destruct (decide (i = p)) as [->|].
        { rewrite decide_False, decide_True by lia. by rewrite Nat.sub_diag. }
        destruct (decide (p <= i < n)%nat).
        { rewrite decide_True by lia. rewrite Hin. do 2 f_equal. lia. }
        { by rewrite decide_False by lia. }
Qed.

(** A sample while waiting for the start bit that does not start the reading. *)
Definition waited (b : bool) (t : tmcuart_s) : tmcuart_s :=
  if b then t <| u_flags ::= fun f => Z.lor f TU_READ_SYNC |> else t.

Lemma read_sync_wait oid t tv w (p : nat) :
  uart_view w oid t tv -> u_pos t = Z.of_nat p -> (p <= 64)%nat ->
  (high (input_at w 0) = false -> has (u_flags t) TU_READ_SYNC = false) ->
  let t1 := waited (high (input_at w 0)) t in
  exists w', (forall i, input_at w' i = input_at w (S i)) /\
    (((p < 64)%nat /\ tmcuart_read_sync_event oid w = Ret SF_RESCHEDULE w' /\ trace w' = trace w /\
      uart_view w' oid (t1 <| u_pos := Z.of_nat (S p) |>)
        (tv <| t_waketime ::= fun w => u32 (w + u_bit_time t) |>)) \/
     (p = 64%nat /\ tmcuart_read_sync_event oid w = Ret SF_DONE w' /\
      trace w' = trace w ++ [idle_event t1] /\
      exists t2, uart_view w' oid t2 tv /\ u_flags t2 = u_flags (finalized t1) /\ u_read_count t2 = 0)).
Proof.
  intros [Ho Ht] Hp Hp64 Hlow t1.
  assert (Hnext : exists w0, tmcuart_read_sync_event oid w = read_sync_next oid w0 /\
    uart_view w0 oid t1 tv /\ trace w0 = trace w /\ forall i, input_at w0 i = input_at w (S i)).
  { unfold tmcuart_read_sync_event, gpio_in_read. repeat wstep. rewrite next_input_at.
    fold (high (input_at w 0)). unfold t1, waited. destruct (high (input_at w 0)).
    - repeat wstep. eexists. split; [reflexivity|]. split; [|split].
      + split; autorewrite with wget; [by eapply obj_at_put|done].
      + by autorewrite with wget.
      + intros i. by autorewrite with wget.
    - rewrite Hlow by done. eexists. split; [reflexivity|]. split; [by split|]. split; [done|].
      intros i. by autorewrite with wget. }
  destruct Hnext as (w0 & -> & [Ho0 Ht0] & Htr0 & Hin0).
  assert (Hp1 : u_pos t1 = Z.of_nat p) by (unfold t1, waited; by destruct high).
  assert (Hb1 : u_bit_time t1 = u_bit_time t) by (unfold t1, waited; by destruct high).
  unfold read_sync_next, uart_delay. repeat wstep. rewrite Hp1, Hb1.
  destruct (Z.leb_spec 64 (Z.of_nat p)).
  - repeat wstep.
    set (t2 := t1 <| u_pos ::= fun p => u8 (p + 1) |> <| u_read_count := 0 |>).
    edestruct (finalize_run oid t2 tv (put_obj oid (to_obj t2) w0)) as (w' & Hr & Hv' & Htr & Hi).
    { split; autorewrite with wget; [by eapply obj_at_put|done]. }
    exists w'. split; [intros i; rewrite Hi; autorewrite with wget; apply Hin0|].
    right. split; [lia|]. split; [exact Hr|]. split.
    + rewrite Htr. autorewrite with wget. by rewrite Htr0.
    + eexists. split; [exact Hv'|done].
  - repeat wstep. refine (ex_intro _ _ (conj _ (or_introl (conj _ (conj eq_refl (conj _ _)))))).
    { intros i. autorewrite with wget. apply Hin0. }
    { lia. }
    { by autorewrite with wget. }
    split; autorewrite with wget; [|done]. etransitivity; [by eapply obj_at_put|].
    cbn [to_obj view_tmcuart upd]. rewrite Hp1. do 3 f_equal. rewrite u8_small; lia.
Qed.

Lemma uart_run_app m n oid w ts w1 ts' d w2 :
  uart_run m oid w = Ret (ts, false) w1 -> uart_run n oid w1 = Ret (ts', d) w2 ->
  uart_run (m + n) oid w = Ret (ts ++ ts', d) w2.
Proof.
  revert w ts. induction m as [|m IH]; intros w ts Hm Hn.
  { injection Hm as <- <-. done. }
  cbn [uart_run Nat.add] in *. apply bind_Ret_inv in Hm as (tv & w0 & Ht & Hm).
  rewrite (bind_Ret _ _ _ _ _ Ht). apply bind_Ret_inv in Hm as (f & w3 & Hf & Hm).
  rewrite (bind_Ret _ _ _ _ _ Hf). apply bind_Ret_inv in Hm as (r & w4 & Hr & Hm).
  rewrite (bind_Ret _ _ _ _ _ Hr). destruct (r =? SF_DONE); [done|].
  apply bind_Ret_inv in Hm as ([ts0 d0] & w5 & Hrun & Hm). unfold ret in Hm. simplify_eq.
  by rewrite (bind_Ret _ _ _ _ _ (IH _ _ Hrun Hn)).
Qed.

Lemma waited_twice b t : waited b (waited b t) = waited b t.
Proof.
  unfold waited. destruct b; [|done]. cbn [upd u_flags u_tx_pin u_rx_pin u_pos u_read_count
    u_write_count u_cfg_bit_time u_bit_time u_data]. by rewrite <- Z.lor_assoc, Z.lor_diag.
Qed.

(** [m] samples of the same level [b] before the start bit. *)
Lemma wait_run m b oid t tv w p t0 k :
  uart_view w oid t tv -> t_func tv = Some F_tmcuart_read_sync_event ->
  u_pos t = Z.of_nat p -> (p + m <= 64)%nat ->
  (forall i, (i < m)%nat -> high (input_at w i) = b) ->
  (b = false -> has (u_flags t) TU_READ_SYNC = false) ->
  t_waketime tv = u32 (t0 + Z.of_nat k * u_bit_time t) ->
  exists w' t' tv',
    uart_run m oid w = Ret (bit_times t0 (u_bit_time t) k m, false) w' /\
    (forall i, input_at w' i = input_at w (m + i)) /\ trace w' = trace w /\
    uart_view w' oid t' tv' /\ t_func tv' = Some F_tmcuart_read_sync_event /\
    t' = (if decide (m = 0)%nat then t else waited b t) <| u_pos := Z.of_nat (p + m) |> /\
    t_waketime tv' = u32 (t0 + Z.of_nat (k + m) * u_bit_time t).
Proof.
  revert t tv w p k. induction m as [|m IH]; intros t tv w p k Hv Hf Hp Hm Hb Hlow Ht.
  - exists w, t, tv. rewrite !Nat.add_0_r, decide_True by done.
    split; [done|]. do 4 (split; [done|]). split; [|done]. destruct t. cbn in *. by subst.
  - pose proof (Hb 0%nat ltac:(lia)) as H0.
    destruct (read_sync_wait oid t tv w p Hv Hp ltac:(lia)) as (w1 & Hin & Hcase).
    { by rewrite H0. }
    rewrite H0 in Hcase. destruct Hcase as [(Hlt & He & Htr & Hv1)|(-> & _)]; [|lia].
    assert (Hbt : u_bit_time (waited b t) = u_bit_time t) by (by destruct b).
    destruct (IH _ _ w1 (S p) (S k) Hv1 Hf) as (w2 & t2 & tv2 & Hrun & Hin2 & Htr2 & Hv2 & Hf2 & Ht2 & Hw2).
    + done.
    + lia.
    + intros i Hi. rewrite Hin. apply Hb. lia.
    + intros ->. by apply Hlow.
    + cbn [t_waketime upd u_bit_time]. rewrite Ht, Hbt. apply bit_times_next.
    + change (u_bit_time (waited b t <| u_pos := Z.of_nat (S p) |>)) with (u_bit_time (waited b t)) in *.
      rewrite Hbt in *. exists w2, t2, tv2. split; [|split; [|split; [|split; [done|split; [done|split]]]]].
      * change (bit_times t0 (u_bit_time t) k (S m))
          with (u32 (t0 + Z.of_nat k * u_bit_time t) :: bit_times t0 (u_bit_time t) (S k) m).
        rewrite <- Ht. destruct Hv. by eapply uart_run_step.
      * intros i. rewrite Hin2, Hin. done.
      * by rewrite Htr2.
      * rewrite Ht2. rewrite (decide_False (P := S m = 0%nat)) by lia.
        replace (p + S m)%nat with (S p + m)%nat by lia. destruct (decide (m = 0)%nat); [done|].
        rewrite <- (waited_twice b t) at 2. by destruct b.
      * rewrite Hw2. do 3 f_equal. lia.
Qed.

(** The sample of the start bit: the event goes on with [tmcuart_read_event]. *)
Lemma read_sync_start oid t tv w :
  uart_view w oid t tv -> high (input_at w 0) = false -> has (u_flags t) TU_READ_SYNC = true ->
  exists w1, tmcuart_read_sync_event oid w = tmcuart_read_event oid w1 /\
    uart_view w1 oid (t <| u_pos := 0 |>) (tv <| t_func := Some F_tmcuart_read_event |>) /\
    trace w1 = trace w /\ forall i, input_at w1 i = input_at w (S i).
Proof.
  intros [Ho Ht] Hi Hs. unfold tmcuart_read_sync_event, gpio_in_read, uart_func. repeat wstep.
  rewrite next_input_at. fold (high (input_at w 0)). rewrite Hi, Hs. repeat wstep.
  eexists. split; [reflexivity|]. split; [|split].
  - split; autorewrite with wget; [by eapply obj_at_put|done].
  - by autorewrite with wget.
  - intros i. by autorewrite with wget.
Qed.

(** The reading of the start event joins those of the following bits. *)
Lemma start_run n oid t tv w t0 k :
  uart_view w oid t tv -> t_func tv = Some F_tmcuart_read_sync_event ->
  reading (t <| u_pos := 0 |>) n 0 ->
  high (input_at w 0) = false -> has (u_flags t) TU_READ_SYNC = true ->
  t_waketime tv = u32 (t0 + Z.of_nat k * u_bit_time t) ->
  exists w' t' tv',
    uart_run n oid w = Ret (bit_times t0 (u_bit_time t) k n, true) w' /\
    uart_view w' oid t' tv' /\ trace w' = trace w ++ [idle_event t] /\
    (forall i, dbit (u_data t') i = if decide (i < n)%nat then high (input_at w (S i)) else dbit (u_data t) i) /\
    u_flags t' = u_flags (finalized t) /\ u_read_count t' = u_read_count t.
Proof.
  intros Hv Hf Hr Hi Hs Ht. destruct (read_sync_start oid t tv w Hv Hi Hs) as (w1 & He & Hv1 & Htr1 & Hin1).
  destruct (read_run (n - 0) oid _ _ w1 n 0 t0 k eq_refl Hv1 Hr eq_refl) as (w' & t' & tv' & Hrun & Hv' & Htr & Hdb & Hfl & Hrc).
  { exact Ht. }
  rewrite Nat.sub_0_r in Hrun. exists w', t', tv'. split; [|split; [done|split; [by rewrite Htr, Htr1|split]]].
  - destruct Hr as (_ & _ & _ & _ & Hn). destruct n as [|n]; [lia|].
    etransitivity; [|exact Hrun]. cbn [uart_run]. destruct Hv as [_ Hvt], Hv1 as [_ Hvt1].
    rewrite (bind_Ret _ _ _ _ _ (wtget_Ret _ _ _ Hvt)), (bind_Ret _ _ _ _ _ (wtget_Ret _ _ _ Hvt1)), Hf.
    cbn [deref t_func upd]. rewrite !bind_ret_l. cbn [uart_event t_waketime].
    unfold bind at 1. unfold bind at 3. by rewrite He.
  - intros i. rewrite Hdb. destruct (decide (i < n)%nat).
    + rewrite decide_True by lia. by rewrite Hin1, Nat.sub_0_r.
    + by rewrite decide_False by lia.
  - done.
Qed.

(** What turning a single wire around adds to the trace. *)
Definition turn_events (t : tmcuart_s) : list event :=
  if has (u_flags t) TU_SINGLE_WIRE then [Ev_in_reset (u_rx_pin t) (Z.land (u_flags t) TU_PULLUP)] else [].

Lemma finish_event_run oid t tv w :
  uart_view w oid t tv -> u_read_count t <> 0 ->
  exists w', tmcuart_send_finish_event oid w = Ret SF_RESCHEDULE w' /\
    trace w' = trace w ++ turn_events t /\ (forall i, input_at w' i = input_at w i) /\
    uart_view w' oid (t <| u_pos := 0 |>)
      (mk_timer (t_next tv) (Some F_tmcuart_read_sync_event) (u32 (t_waketime tv + 4 * u_bit_time t))).
Proof.
  intros [Ho Ht] Hr. unfold tmcuart_send_finish_event, uart_func, uart_delay, turn_events, gpio_in_reset.
  repeat wstep. destruct (Z.eqb_spec (u_read_count t) 0); [done|].
  assert (Hadd : u32 (t_waketime tv + u32 (u_bit_time t * 4)) = u32 (t_waketime tv + 4 * u_bit_time t)).
  { unfold u32. rewrite Zplus_mod_idemp_r. f_equal. lia. }
  destruct (has (u_flags t) TU_SINGLE_WIRE); repeat wstep; cbn [t_waketime t_func t_next upd];
    rewrite Hadd; eexists; (split; [reflexivity|]); autorewrite with wget;
    (split; [by rewrite ?app_nil_r|]); (split; [intros i; by autorewrite with wget|]);
    (split; autorewrite with wget; [by eapply obj_at_put|done]).
Qed.

Lemma mode_sync t t' : same_exchange t t' ->
  turn_events t' = turn_events t /\
  (forall b, idle_event (waited b t' <| u_pos := 0 |>) = idle_event t) /\
  (forall b, u_flags (finalized (waited b t')) = u_flags (finalized t)) /\
  has (u_flags t') TU_READ_SYNC = has (u_flags t) TU_READ_SYNC.
Proof.
  intros (f & y & -> & Hf).
  assert (Hw : forall b, Z.land (u_flags (waited b (t <| u_flags := f |> <| u_pos := y |>))) 48
                         = Z.land (u_flags t) 48).
  { intros b. assert (Z.land f 48 = Z.land (u_flags t) 48) as E.
    { unfold mode_flags in Hf. change 48 with (Z.land 52 48). by rewrite !Z.land_assoc, Hf. }
    destruct b; [|exact E]. cbn [waited upd u_flags]. by rewrite Z.land_lor_distr_l, Z.lor_0_r. }
  split; [|split; [|split]].
  - unfold turn_events. cbn [upd u_flags u_rx_pin].
    rewrite (has_mode f (u_flags t) TU_SINGLE_WIRE) by done.
    replace (Z.land f TU_PULLUP) with (Z.land (u_flags t) TU_PULLUP); [done|].
    unfold mode_flags in Hf. change TU_PULLUP with (Z.land 52 TU_PULLUP). by rewrite !Z.land_assoc, Hf.
  - intros b. unfold idle_event. specialize (Hw b).
    assert (has (u_flags (waited b (t <| u_flags := f |> <| u_pos := y |>))) TU_SINGLE_WIRE
            = has (u_flags t) TU_SINGLE_WIRE) as E.
    { unfold has. change TU_SINGLE_WIRE with (Z.land 48 TU_SINGLE_WIRE). by rewrite !Z.land_assoc, Hw. }
    cbn [upd u_flags u_tx_pin] in *. rewrite E. by destruct b.
  - intros b. specialize (Hw b). unfold finalized. cbn [upd u_flags].
    change (Z.lor TU_PULLUP TU_SINGLE_WIRE) with 48. cbn [upd u_flags] in Hw. by rewrite Hw.
  - by apply has_mode.
Qed.

(** The samples from the end of the request on: [a] of a line still low, [b] of the
    idle line, then the start of the reply. *)
Definition reply_starts (w : world) (a b : nat) : Prop :=
  (0 < b)%nat /\ (a + b <= 64)%nat /\
  (forall i, (i < a)%nat -> high (input_at w i) = false) /\
  (forall i, (i < b)%nat -> high (input_at w (a + i)) = true) /\
  high (input_at w (a + b)) = false.

Lemma reply_starts_ext w w' a b :
  (forall i, input_at w' i = input_at w i) -> reply_starts w a b -> reply_starts w' a b.
Proof.
  intros Hi (H1 & H2 & H3 & H4 & H5). do 2 (split; [done|]).
  split; [|split]; intros; rewrite Hi; auto.
Qed.

Lemma bit_times_app t0 bt k m n : bit_times t0 bt k m ++ bit_times t0 bt (k + m) n = bit_times t0 bt k (m + n).
Proof. unfold bit_times. by rewrite <- fmap_app, seq_app. Qed.

Lemma has_lor f m : m <> 0 -> has (Z.lor f m) m = true.
Proof.
  intros Hm. unfold has. assert (Z.land (Z.lor f m) m = m) as ->.
  { apply Z.bits_inj'. intros i _. rewrite Z.land_spec, Z.lor_spec. by destruct (Z.testbit f i), (Z.testbit m i). }
  by apply negb_true_iff, Z.eqb_neq.
Qed.

Lemma reply_run m oid t tv w a b t0 k :
  uart_view w oid t tv -> t_func tv = Some F_tmcuart_read_sync_event ->
  u_pos t = 0 -> length (u_data t) = 10%nat -> u_read_count t = Z.of_nat m -> (0 < m <= 80)%nat ->
  has (u_flags t) TU_READ_SYNC = false -> reply_starts w a b ->
  t_waketime tv = u32 (t0 + Z.of_nat k * u_bit_time t) ->
  exists w' t' tv',
    uart_run (a + b + m) oid w = Ret (bit_times t0 (u_bit_time t) k (a + b + m), true) w' /\
    uart_view w' oid t' tv' /\ trace w' = trace w ++ [idle_event (waited true t <| u_pos := 0 |>)] /\
    (forall i, dbit (u_data t') i =
       if decide (i < m)%nat then high (input_at w (a + b + 1 + i)) else dbit (u_data t) i) /\
    u_flags t' = u_flags (finalized (waited true t)) /\ u_read_count t' = u_read_count t.
Proof.
  intros Hv Hf Hp Hd Hrc Hm Hs (Hb0 & Hab & Hlow & Hhigh & Hst) Ht.
  destruct (wait_run a false oid t tv w 0 t0 k Hv Hf Hp ltac:(lia) Hlow ltac:(done) Ht)
    as (w1 & t1 & tv1 & Hr1 & Hi1 & Htr1 & Hv1 & Hf1 & -> & Hw1).
  replace (if decide (a = 0)%nat then t else waited false t) with t in Hv1 by (by destruct decide).
  destruct (wait_run b true oid _ tv1 w1 a t0 (k + a) Hv1 Hf1 eq_refl ltac:(lia))
    as (w2 & t2 & tv2 & Hr2 & Hi2 & Htr2 & Hv2 & Hf2 & -> & Hw2).
  { intros i Hi. rewrite Hi1. by apply Hhigh. }
  { done. }
  { exact Hw1. }
  rewrite decide_False in Hv2 by lia.
  set (t2 := waited true (t <| u_pos := Z.of_nat a |>) <| u_pos := Z.of_nat (a + b) |>) in *.
  destruct (start_run m oid t2 tv2 w2 t0 (k + a + b) Hv2 Hf2) as (w3 & t3 & tv3 & Hr3 & Hv3 & Htr3 & Hdb & Hfl & Hrc3).
  - split; [done|]. split; [done|]. split; [lia|]. split; [done|lia].
  - by rewrite Hi2, Hi1, Nat.add_0_r.
  - by apply has_lor.
  - exact Hw2.
  - exists w3, t3, tv3. split; [|split; [done|split; [|split; [|split]]]].
    + rewrite <- !bit_times_app. eapply uart_run_app; [eapply uart_run_app; [exact Hr1|exact Hr2]|].
      by rewrite Nat.add_assoc.
    + by rewrite Htr3, Htr2, Htr1.
    + intros i. rewrite Hdb. destruct decide; [|done]. rewrite Hi2, Hi1. do 2 f_equal. lia.
    + exact Hfl.
    + exact Hrc3.
Qed.


(** ** Every exchange ends *)

(** The states of an exchange, by the function of the timer. *)
Definition uart_ok (t : tmcuart_s) (f : timer_func) : Prop :=
  length (u_data t) = 10%nat /\ 0 <= u_read_count t <= 80 /\ 0 <= u_write_count t <= 80 /\
  0 <= u_bit_time t < 4294967296 /\ 0 <= u_cfg_bit_time t < 4294967296 /\ 0 <= u_pos t /\
  match f with
  | F_tmcuart_send_sync_event => u_pos t < 5
  | F_tmcuart_send_event => u_pos t <= 80
  | F_tmcuart_send_finish_event => True
  | F_tmcuart_read_sync_event => u_pos t <= 64 /\ 0 < u_read_count t
  | F_tmcuart_read_event => u_pos t < u_read_count t
  | _ => False
  end.

(** A bound on the events to come. *)
Definition events_left (t : tmcuart_s) (f : timer_func) : Z :=
  match f with
  | F_tmcuart_send_sync_event => 230 + (5 - u_pos t)
  | F_tmcuart_send_event => 149 + (80 - u_pos t)
  | F_tmcuart_send_finish_event => 148
  | F_tmcuart_read_sync_event => 82 + (65 - u_pos t)
  | _ => u_read_count t - u_pos t
  end.

Definition same_wire (t t' : tmcuart_s) : Prop :=
  u_tx_pin t' = u_tx_pin t /\ u_read_count t' = u_read_count t /\
  Z.land (u_flags t') 48 = Z.land (u_flags t) 48.

(** An event ended the exchange, or left it with fewer events to come. *)
Definition ended (oid : Z) (t : tmcuart_s) (w' : world) : Prop :=
  exists t' tv', uart_view w' oid t' tv' /\ u_flags t' = u_flags (finalized t) /\
    (u_read_count t' = u_read_count t \/ u_read_count t' = 0) /\
    last (trace w') = Some (idle_event t).
Definition continued (oid : Z) (t : tmcuart_s) (f : timer_func) (w' : world) : Prop :=
  exists t' tv' f', uart_view w' oid t' tv' /\ t_func tv' = Some f' /\ uart_ok t' f' /\
    events_left t' f' < events_left t f /\ same_wire t t'.
Definition progress (oid : Z) (t : tmcuart_s) (f : timer_func) (w : world) : Prop :=
  exists w', (uart_event oid f w = Ret SF_DONE w' /\ ended oid t w') \/
             (uart_event oid f w = Ret SF_RESCHEDULE w' /\ continued oid t f w').

Lemma wire_idle t t' : same_wire t t' -> idle_event t' = idle_event t /\ u_flags (finalized t') = u_flags (finalized t).
Proof.
  intros (Htx & _ & Hfl). split.
  - unfold idle_event, has. change TU_SINGLE_WIRE with (Z.land 48 TU_SINGLE_WIRE).
    by rewrite !Z.land_assoc, Hfl, Htx.
  - unfold finalized. cbn [upd u_flags]. change (Z.lor TU_PULLUP TU_SINGLE_WIRE) with 48. by rewrite Hfl.
Qed.

Lemma ended_wire oid t t' w' : same_wire t t' -> ended oid t' w' -> ended oid t w'.
Proof.
  intros Hw (t2 & tv2 & Hv & Hf & Hr & Hl). destruct (wire_idle _ _ Hw) as [Hi Hfi].
  exists t2, tv2. rewrite <- Hi, <- Hfi. destruct Hw as (_ & <- & _). done.
Qed.

Lemma wire_toggle f : Z.land (Z.lxor f TU_LINE_HIGH) 48 = Z.land f 48.
Proof.
  pose proof (mode_toggle f) as H. unfold mode_flags in H. apply (f_equal (fun x => Z.land x 48)) in H.
  by rewrite <- !Z.land_assoc in H.
Qed.

Lemma same_wire_waited b t y : same_wire t (waited b t <| u_pos := y |>).
Proof.
  destruct b; [|done]. split; [done|]. split; [done|]. cbn [waited upd u_flags].
  by rewrite Z.land_lor_distr_l, Z.lor_0_r.
Qed.

Lemma last_snoc_event (w : world) l (e : event) : trace w = l ++ [e] -> last (trace w) = Some e.
Proof. intros ->. apply last_snoc. Qed.

Lemma progress_sync oid t tv w :
  uart_view w oid t tv -> uart_ok t F_tmcuart_send_sync_event ->
  t_func tv = Some F_tmcuart_send_sync_event -> progress oid t F_tmcuart_send_sync_event w.
Proof.
  intros [Ho Ht] (Hd & Hrc & Hwc & Hbt & Hcbt & Hp & Hp5) Hf.
  unfold progress, uart_event, tmcuart_send_sync_event, gpio_out_toggle_noirq, uart_func, uart_delay.
  repeat wstep. cbn [u_pos upd]. rewrite u8_small by lia.
  destruct (Z.eqb_spec (u_pos t + 1) 1) as [E|E]; [|destruct (Z.leb_spec 5 (u_pos t + 1))];
    repeat wstep; eexists; right; (split; [reflexivity|]);
    (do 3 eexists; split; [split; autorewrite with wget; [by eapply obj_at_put|reflexivity]|]);
    (split; [first [exact Hf|reflexivity]|]); (split; [|split; [|split; [done|split; [done|apply wire_toggle]]]]);
    unfold uart_ok, events_left; cbn [upd u_data u_read_count u_write_count u_bit_time u_cfg_bit_time u_pos];
    rewrite ?u8_small by lia; try lia;
    repeat split; auto using u32_range with lia; try apply u32_range; try lia.
Qed.

Lemma progress_send oid t tv w :
  uart_view w oid t tv -> uart_ok t F_tmcuart_send_event ->
  t_func tv = Some F_tmcuart_send_event -> progress oid t F_tmcuart_send_event w.
Proof.
  intros Hv (Hd & Hrc & Hwc & Hbt & Hcbt & Hp & Hp80) Hf.
  destruct (send_event_run oid t tv w (Z.to_nat (u_write_count t)) (Z.to_nat (u_pos t)) Hv)
    as (w' & Hrun & _ & _ & Hcase).
  { split; [done|]. rewrite !Z2Nat.id by lia. do 4 (split; [done || lia|]). done. }
  exists w'. right. split; [exact Hrun|].
  destruct Hcase as [(q & Hq & _ & _ & Hv1)|(_ & Hv1)]; (do 3 eexists; split; [exact Hv1|]).
  - split; [exact Hf|]. split; [|split; [|split; [done|split; [done|apply wire_toggle]]]];
      unfold uart_ok, events_left; cbn [upd toggled u_data u_read_count u_write_count u_bit_time u_cfg_bit_time u_pos];
      [repeat split; lia || done|lia].
  - split; [reflexivity|]. split; [|split; [|split; [done|split; [done|apply wire_toggle]]]];
      unfold uart_ok, events_left; cbn [upd toggled u_data u_read_count u_write_count u_bit_time u_cfg_bit_time u_pos];
      [repeat split; lia || done|lia].
Qed.

Lemma progress_finish oid t tv w :
  uart_view w oid t tv -> uart_ok t F_tmcuart_send_finish_event -> progress oid t F_tmcuart_send_finish_event w.
Proof.
  intros Hv (Hd & Hrc & Hwc & Hbt & Hcbt & Hp & _). destruct (decide (u_read_count t = 0)) as [E|E].
  - destruct (finalize_run oid t tv w Hv) as (w' & Hr & Hv' & Htr & _). exists w'. left. split.
    + destruct Hv as [Ho Ht]. unfold uart_event, tmcuart_send_finish_event.
      repeat wstep. rewrite E. exact Hr.
    + exists (finalized t), tv. split; [done|]. split; [done|]. split; [by left|].
      by eapply last_snoc_event.
  - destruct (finish_event_run oid t tv w Hv E) as (w' & Hr & _ & _ & Hv'). exists w'. right.
    split; [exact Hr|]. do 3 eexists. split; [exact Hv'|]. split; [reflexivity|].
    split; [|split; [|done]]; unfold uart_ok, events_left;
      cbn [upd u_data u_read_count u_write_count u_bit_time u_cfg_bit_time u_pos]; [repeat split; lia || done|lia].
Qed.

Lemma progress_read oid t t0 f tv w :
  uart_view w oid t tv -> uart_ok t F_tmcuart_read_event -> t_func tv = Some F_tmcuart_read_event ->
  same_wire t0 t -> events_left t F_tmcuart_read_event <= events_left t0 f ->
  exists w', (tmcuart_read_event oid w = Ret SF_DONE w' /\ ended oid t0 w') \/
             (tmcuart_read_event oid w = Ret SF_RESCHEDULE w' /\ continued oid t0 f w').
Proof.
  intros Hv (Hd & Hrc & Hwc & Hbt & Hcbt & Hp & Hpr) Hf Hw Hl.
  destruct (read_event_run oid t tv w (Z.to_nat (u_read_count t)) (Z.to_nat (u_pos t)) Hv)
    as (w' & _ & Hcase).
  { split; [done|]. rewrite !Z2Nat.id by lia. do 3 (split; [done || lia|]). lia. }
  exists w'. destruct Hcase as [(E & He & Hv' & Htr)|(E & He & Hv' & _)].
  - left. split; [exact He|]. apply (ended_wire _ _ _ _ Hw). do 2 eexists. split; [exact Hv'|].
    split; [done|]. split; [by left|]. by eapply last_snoc_event.
  - right. split; [exact He|]. do 3 eexists. split; [exact Hv'|]. split; [exact Hf|].
    unfold events_left in Hl |- *.
    split; [|split; [|exact Hw]];
      unfold uart_ok; cbn [upd u_data u_read_count u_write_count u_bit_time u_cfg_bit_time u_pos];
      [repeat split; try lia|].
    + unfold store_bit. by rewrite length_insert.
    + destruct f; lia.
Qed.

Lemma timeout_ended oid b t t2 tv w' l :
  uart_view w' oid t2 tv -> u_flags t2 = u_flags (finalized (waited b t)) -> u_read_count t2 = 0 ->
  trace w' = l ++ [idle_event (waited b t)] -> ended oid t w'.
Proof.
  intros Hv Hf Hr Htr. destruct (wire_idle _ _ (same_wire_waited b t (u_pos t))) as [Hi Hfi].
  exists t2, tv. split; [done|]. split; [by rewrite Hf|]. split; [by right|].
  rewrite <- Hi. by eapply last_snoc_event.
Qed.

Lemma progress_read_sync oid t tv w :
  uart_view w oid t tv -> uart_ok t F_tmcuart_read_sync_event ->
  t_func tv = Some F_tmcuart_read_sync_event -> progress oid t F_tmcuart_read_sync_event w.
Proof.
  intros Hv (Hd & Hrc & Hwc & Hbt & Hcbt & Hp & Hp64 & Hr0) Hf. unfold progress, uart_event.
  destruct (high (input_at w 0)) eqn:Eh; [|destruct (has (u_flags t) TU_READ_SYNC) eqn:Es].
  2: { destruct (read_sync_start oid t tv w Hv Eh Es) as (w1 & -> & Hv1 & _ & _).
       apply (progress_read oid _ t F_tmcuart_read_sync_event _ _ Hv1); [|done|done|];
         unfold uart_ok, events_left; cbn [upd u_data u_read_count u_write_count u_bit_time u_cfg_bit_time u_pos];
         repeat split; lia || done. }
  all: destruct (read_sync_wait oid t tv w (Z.to_nat (u_pos t)) Hv) as (w' & _ & Hcase);
    [lia|lia|congruence|]; rewrite Eh in Hcase; exists w';
    destruct Hcase as [(E & He & _ & Hv')|(E & He & Htr & t2 & Hv' & Hf2 & Hrc2)].
  1,3: right; (split; [exact He|]); (do 3 eexists; split; [exact Hv'|]); (split; [exact Hf|]);
    (split; [|split; [|apply same_wire_waited]]); unfold uart_ok, events_left;
    cbn [upd waited u_data u_read_count u_write_count u_bit_time u_cfg_bit_time u_pos];
    repeat split; lia || done.
  all: left; (split; [exact He|]); eauto using timeout_ended.
Qed.

Lemma uart_progress oid t tv w f :
  uart_view w oid t tv -> t_func tv = Some f -> uart_ok t f -> progress oid t f w.
Proof.
  intros Hv Hf Hok. destruct f; try (by destruct Hok as (_ & _ & _ & _ & _ & _ & []));
    eauto using progress_sync, progress_send, progress_finish, progress_read_sync.
  by apply (progress_read oid t t _ tv w Hv Hok Hf).
Qed.

Lemma uart_run_ends k oid t tv w f :
  uart_view w oid t tv -> t_func tv = Some f -> uart_ok t f -> events_left t f <= Z.of_nat k ->
  exists ts w', uart_run k oid w = Ret (ts, true) w' /\ ended oid t w' /\ 0 < zlen ts <= events_left t f.
Proof.
  revert t tv w f. induction k as [|k IH]; intros t tv w f Hv Hf Hok Hk.
  { exfalso. destruct Hok as (_ & Hrc & _ & _ & _ & Hp & Hcase).
    destruct f; unfold events_left in Hk; try lia; done. }
  destruct (uart_progress oid t tv w f Hv Hf Hok) as (w1 & [(He & Hend)|(He & t1 & tv1 & f1 & Hv1 & Hf1 & Hok1 & Hlt & Hw)]).
  - exists [t_waketime tv], w1. destruct Hv as [_ Hvt]. split; [by eapply uart_run_last|].
    split; [done|]. destruct Hok as (_ & Hrc & _ & _ & _ & Hp & Hcase).
    unfold events_left. change (zlen [t_waketime tv]) with 1. destruct f; try lia; done.
  - destruct (IH t1 tv1 w1 f1 Hv1 Hf1 Hok1 ltac:(lia)) as (ts & w2 & Hr & Hend & Hlen).
    exists (t_waketime tv :: ts), w2. destruct Hv as [_ Hvt]. split; [by eapply uart_run_step|].
    split; [by eapply ended_wire|]. rewrite zlen_cons. lia.
Qed.

(** The object of a configured device. *)
Definition uart_config (t : tmcuart_s) : Prop :=
  length (u_data t) = 10%nat /\ 0 <= u_bit_time t < 4294967296 /\ 0 <= u_cfg_bit_time t < 4294967296.

Lemma uart_request_ok write read_len t :
  uart_config t -> zlen write <= 10 -> 0 <= read_len <= 10 ->
  let t1 := uart_request write read_len t in
  uart_config t1 /\ (forall f, f = F_tmcuart_send_sync_event \/ f = F_tmcuart_send_event -> uart_ok t1 f) /\
  u_flags (finalized t1) = u_flags (finalized t) /\ idle_event t1 = idle_event t.
Proof.
  intros (Hd & Hbt & Hcbt) Hw Hr t1. pose proof (zlen_nonneg write).
  assert (Hd1 : length (u_data t1) = 10%nat).
  { cbn [t1 uart_request upd u_data]. rewrite length_app. unfold dropZ. rewrite length_drop.
    unfold zlen in *. lia. }
  assert (Hfl : Z.land (u_flags t1) 48 = Z.land (u_flags t) 48).
  { cbn [t1 uart_request upd u_flags]. change (Z.lor (Z.lor TU_LINE_HIGH TU_PULLUP) TU_SINGLE_WIRE) with 49.
    by rewrite Z.land_lor_distr_l, Z.lor_0_r, <- Z.land_assoc. }
  split; [split; [done|done]|]. split; [|split].
  - intros f Hf. split; [done|]. cbn [t1 uart_request upd u_read_count u_write_count u_bit_time u_cfg_bit_time u_pos].
    rewrite !u8_small by lia. split; [lia|]. split; [lia|]. do 2 (split; [done|]). split; [lia|].
    destruct Hf as [-> | ->]; lia.
  - unfold finalized. cbn [upd u_flags]. change (Z.lor TU_PULLUP TU_SINGLE_WIRE) with 48. by rewrite Hfl.
  - unfold idle_event, has. change TU_SINGLE_WIRE with (Z.land 48 TU_SINGLE_WIRE).
    by rewrite !Z.land_assoc, Hfl.
Qed.

(** The world in which [command_tmcuart_send] queues the timer. *)
Lemma send_command_run args oid t tv w write :
  oid_lookup (nthZ args 0) OT_tmcuart w = Ret oid w -> uart_view w oid t tv ->
  has (u_flags t) TU_ACTIVE = false -> u8 (nthZ args 1) <= 10 -> u8 (nthZ args 3) <= 10 ->
  load_arg (nthZ args 2) (u8 (nthZ args 1)) w = Ret write w ->
  exists w1 tv1, command_tmcuart_send args w = sched_add_timer (uart_timer oid) w1 /\
    trace w1 = trace w /\ (forall i, input_at w1 i = input_at w i) /\
    t_waketime tv1 = u32 (clock_now w + timer_from_us 200) /\
    let t1 := uart_request write (u8 (nthZ args 3)) t in
    if has_sync_nibble write
    then uart_view w1 oid t1 tv1 /\ t_func tv1 = Some F_tmcuart_send_sync_event
    else uart_view w1 oid (t1 <| u_bit_time := u_cfg_bit_time t |>) tv1 /\
         t_func tv1 = Some F_tmcuart_send_event.
Proof.
  intros Hl [Ho Ht] Ha Hwl Hrl Hld. unfold command_tmcuart_send, uart_func.
  rewrite (bind_Ret _ _ _ _ _ Hl). repeat wstep. rewrite Ha. unfold TU_DATA_SIZE.
  destruct (Z.ltb_spec 10 (u8 (nthZ args 1))); [lia|].
  destruct (Z.ltb_spec 10 (u8 (nthZ args 3))); [lia|]. cbn [orb].
  rewrite (bind_Ret _ _ _ _ _ Hld). repeat wstep.
  destruct (has_sync_nibble write); repeat wstep; do 2 eexists; (split; [reflexivity|]);
    autorewrite with wget; (split; [done|]); (split; [intros i; by autorewrite with wget|]).
  all: refine (conj _ (conj (conj _ _) _));
    [ |by eapply obj_at_put|autorewrite with wget; reflexivity| ]; done.
Qed.

(** C13: Every exchange ends.  Whatever is on the line, the events that follow an accepted
    request never touch memory outside of the object, and after at most 235 of them the
    line is idle again, the device is ready for the next request, and a report is due,
    with no data when no reply started in time. *)
Theorem uart_exchange_ends args oid t tv w write :
  oid_lookup (nthZ args 0) OT_tmcuart w = Ret oid w -> uart_view w oid t tv -> uart_config t ->
  has (u_flags t) TU_ACTIVE = false -> u8 (nthZ args 1) <= 10 -> u8 (nthZ args 3) <= 10 ->
  load_arg (nthZ args 2) (u8 (nthZ args 1)) w = Ret write w -> zlen write <= 10 ->
  exists w1 t1 tv1, command_tmcuart_send args w = sched_add_timer (uart_timer oid) w1 /\
    uart_view w1 oid t1 tv1 /\ u_read_count t1 = u8 (nthZ args 3) * 8 /\
    forall w2 next, uart_view w2 oid t1 (tv1 <| t_next := next |>) ->
    exists ts w' t' tv', uart_run 235 oid w2 = Ret (ts, true) w' /\ 0 < zlen ts <= 235 /\
      uart_view w' oid t' tv' /\ has (u_flags t') TU_ACTIVE = false /\
      has (u_flags t') TU_REPORT = true /\ line_high t' = true /\
      (u_read_count t' = u8 (nthZ args 3) * 8 \/ u_read_count t' = 0) /\
      last (trace w') = Some (idle_event t).
Proof.
  intros Hl Hv Hc Ha Hwl Hrl Hld Hwz. pose proof (u8_range (nthZ args 3)).
  destruct (send_command_run args oid t tv w write Hl Hv Ha Hwl Hrl Hld)
    as (w1 & tv1 & Hcmd & _ & _ & _ & Hcase).
  destruct (uart_request_ok write (u8 (nthZ args 3)) t Hc Hwz ltac:(lia)) as (Hc1 & Hok & Hfin & Hidle).
  set (t0 := uart_request write (u8 (nthZ args 3)) t) in *.
  assert (Hrc : u_read_count t0 = u8 (nthZ args 3) * 8).
  { cbn [t0 uart_request upd u_read_count]. apply u8_small. lia. }
  assert (Hgo : exists t1 f, uart_view w1 oid t1 tv1 /\ t_func tv1 = Some f /\ uart_ok t1 f /\
    events_left t1 f <= 235 /\ u_flags t1 = u_flags t0 /\ u_read_count t1 = u_read_count t0 /\
    u_tx_pin t1 = u_tx_pin t0).
  { destruct (has_sync_nibble write), Hcase as [Hv1 Hf1]; do 2 eexists; (split; [exact Hv1|]);
      (split; [exact Hf1|]); (split; [|split; [cbn; lia|done]]); [by apply Hok; left|].
    destruct (Hok F_tmcuart_send_event) as (? & ? & ? & ? & ? & ? & ?); [by right|].
    destruct Hc as (_ & _ & ?). do 6 (split; [done|]). done. }
  destruct Hgo as (t1 & f & Hv1 & Hf1 & Hok1 & Hle & Hfl1 & Hrc1 & Htx1).
  exists w1, t1, tv1. do 2 (split; [done|]). split; [by rewrite Hrc1|]. intros w2 next Hv2.
  destruct (uart_run_ends 235 oid t1 _ w2 f Hv2 Hf1 Hok1 ltac:(lia))
    as (ts & w' & Hrun & (t' & tv' & Hv' & Hf' & Hr' & Hlast) & Hlen).
  assert (Hff : u_flags t' = u_flags (finalized t)).
  { rewrite Hf', <- Hfin. unfold finalized. cbn [upd u_flags]. by rewrite Hfl1. }
  exists ts, w', t', tv'. split; [done|]. split; [lia|]. split; [done|]. rewrite Hff.
  split; [|split; [|split; [|split]]].
  - unfold has, finalized. cbn [upd u_flags]. by rewrite !Z.land_lor_distr_l, <- Z.land_assoc, Z.land_0_r.
  - by apply has_lor.
  - unfold line_high. rewrite Hff. unfold finalized. cbn [upd u_flags].
    rewrite !Z.lor_spec. by rewrite orb_true_r.
  - destruct Hr' as [Hr'|Hr']; [left; by rewrite Hr', Hrc1|by right].
  - rewrite Hlast. f_equal. rewrite <- Hidle. unfold idle_event. by rewrite Hfl1, Htx1.
Qed.
End tmcuart.

(** ** Witnesses: a driver on a single wire *)

Definition demo_machine : Machine := {|
  sizeof_size_t := 8; console_receive_buffer := 5000; CONFIG_HAVE_GPIO_BITBANGING := true;
  CONFIG_HAVE_STRICT_TIMING := true; sizeof_spi_software := 8; wait_fuel := 100 |}.

Definition demo_uart : tmcuart_s := mk_tmcuart 7 7 51 0 8 8 100 100 [180; 0; 0; 0; 0; 0; 0; 0; 0; 0].
Definition uart_world (t : tmcuart_s) (f : option timer_func) (inputs : list Z) : world :=
  (demo_world (demo_stepper 0 0))
    <| w_base ::= fun b => b
         <| oids := Some [mk_oid (Some OT_tmcuart) (Some (O_tmcuart t))] |> <| oid_count := 1 |> |>
    <| w_sched ::= fun s => s <| timers ::= <[T_obj 0 0 := mk_timer None f 4294967200]> |> |>
    <| w_hw ::= fun h => h <| hw_input := fun n => nth n inputs 0 |>
                           <| hw_receive := [16; 17; 180; 3] |> |>.


(** A request of one byte on a line that stays low ends without data. *)
Definition demo_idle : tmcuart_s := mk_tmcuart 7 7 49 0 0 0 100 100 (repeat 0 10).

Lemma uart_exchange_ends_witness :
  exists w1 t1 tv1,
    command_tmcuart_send (cfg := edge_config) (mch := demo_machine) [0; 1; 2; 1] (uart_world demo_idle None [])
    = sched_add_timer (uart_timer 0) w1 /\ uart_view w1 0 t1 tv1 /\
    exists ts w', uart_run 235 0 w1 = Ret (ts, true) w' /\ last (trace w') = Some (Ev_out_reset 7 1).
Proof.
  destruct (uart_exchange_ends (cfg := edge_config) (mch := demo_machine) [0; 1; 2; 1] 0 demo_idle
    (mk_timer None None 4294967200) (uart_world demo_idle None []) [180])
    as (w1 & t1 & tv1 & Hcmd & Hv & _ & Hall).
  - reflexivity.
  - by split.
  - repeat split; cbn; lia.
  - reflexivity.
  - vm_compute. discriminate.
  - vm_compute. discriminate.
  - reflexivity.
  - vm_compute. discriminate.
  - exists w1, t1, tv1. split; [exact Hcmd|]. split; [exact Hv|].
    destruct (Hall w1 (t_next tv1)) as (ts & w' & _ & _ & Hrun & _ & _ & _ & _ & _ & _ & Hlast).
    { by destruct tv1. }
    exists ts, w'. split; [exact Hrun|exact Hlast].
Defined.
