(* ===== verification/Bus.v ===== *)
(** * Devices on SPI and I2C buses

    src/spicmds.c (SPI devices with their chip select), src/spi_software.c (a bus
    driven through the pins), src/i2ccmds.c (I2C devices) and src/thermocouple.c
    (temperature chips on an SPI bus).  The buses of the board are the functions of
    [World] that log a transfer and take the received bytes from the readings. *)

From S2P Require Import Prelude Command Sched Basecmd World.

Section bus.
Context {cfg : Config} {tgt : Target} {mch : Machine}.

(** ** Software SPI *)

Definition spi_software_prepare (ss : spi_software) : M world unit :=
  gpio_out_write (ss_sclk ss) (Z.land (ss_mode ss) 2).

(** The loop over the bits of a byte: [inbuf] at the end. *)
Fixpoint software_bits (n : nat) (ss : spi_software) (outbuf inbuf : Z) : M world Z :=
  match n with
  | O => ret inbuf
  | S n =>
      if has (ss_mode ss) 1 then
        gpio_out_toggle (ss_sclk ss) ;;
        gpio_out_write (ss_mosi ss) (Z.land outbuf 128) ;;
        gpio_out_toggle (ss_sclk ss) ;;
        v <- gpio_in_read (ss_miso ss) ;;
        software_bits n ss (u8 (Z.shiftl outbuf 1)) (Z.lor (u8 (Z.shiftl inbuf 1)) v)
      else
        gpio_out_write (ss_mosi ss) (Z.land outbuf 128) ;;
        gpio_out_toggle (ss_sclk ss) ;;
        v <- gpio_in_read (ss_miso ss) ;;
        gpio_out_toggle (ss_sclk ss) ;;
        software_bits n ss (u8 (Z.shiftl outbuf 1)) (Z.lor (u8 (Z.shiftl inbuf 1)) v)
  end.

(** [spi_software_transfer]: the contents of [data] after the transfer. *)
Fixpoint spi_software_transfer (ss : spi_software) (receive_data : Z) (data : list Z) :
    M world (list Z) :=
  match data with
  | [] => ret []
  | d :: data =>
      inbuf <- software_bits 8 ss d 0 ;;
      rest <- spi_software_transfer ss receive_data data ;;
      ret ((if negb (receive_data =? 0) then inbuf else d) :: rest)
  end.

(** ** SPI devices *)

Definition SF_HAVE_PIN : Z := 1.
Definition SF_SOFTWARE : Z := 2.
Definition SF_HARDWARE : Z := 4.
Definition SF_CS_ACTIVE_HIGH : Z := 8.

Definition spidev_zero : spidev_s := mk_spidev SB_none 0 0.

(** [cs_active_high] is sent as 0 or 1. *)
Definition command_config_spi (args : list Z) : M world unit :=
  oid <- obj_alloc (nthZ args 0) OT_spi spidev_zero [] ;;
  let cs_active_high := z2b (nthZ args 2) in
  pin <- gpio_out_setup (nthZ args 1) (b2z (negb cs_active_high)) ;;
  omod oid (fun d => d <| spi_pin := pin |>) ;;
  omod oid (fun d => d <| spi_flags ::= fun f =>
    Z.lor f (Z.lor SF_HAVE_PIN (if cs_active_high then SF_CS_ACTIVE_HIGH else 0)) |>).

Definition command_config_spi_without_cs (args : list Z) : M world unit :=
  obj_alloc (nthZ args 0) OT_spi spidev_zero [] ;; ret tt.

Definition spidev_oid_lookup (oid : Z) : M world Z := oid_lookup oid OT_spi.

Definition command_spi_set_bus (args : list Z) : M world unit :=
  oid <- spidev_oid_lookup (nthZ args 0) ;;
  d <- oget (T := spidev_s) oid ;;
  let mode := u8 (nthZ args 2) in
  if (3 <? mode) || has (spi_flags d) (Z.lor SF_SOFTWARE SF_HARDWARE)
  then shutdown "Invalid spi config"
  else
    c <- spi_setup (nthZ args 1) mode (nthZ args 3) ;;
    omod oid (fun d => d <| spi_union := SB_config c |>) ;;
    omod oid (fun d => d <| spi_flags ::= fun f => Z.lor f SF_HARDWARE |>).

Definition spidev_set_software_bus (oid : Z) (ss : spi_software) : M world unit :=
  d <- oget (T := spidev_s) oid ;;
  if has (spi_flags d) (Z.lor SF_SOFTWARE SF_HARDWARE) then shutdown "Invalid spi config"
  else
    omod oid (fun d => d <| spi_union := SB_software ss |>) ;;
    omod oid (fun d => d <| spi_flags ::= fun f => Z.lor f SF_SOFTWARE |>).

Definition command_spi_set_software_bus (args : list Z) : M world unit :=
  let mode := u8 (nthZ args 4) in
  if 3 <? mode then shutdown "Invalid spi config"
  else
    oid <- spidev_oid_lookup (nthZ args 0) ;;
    alloc_chunk sizeof_spi_software ;;
    miso <- gpio_in_setup (nthZ args 1) 1 ;;
    mosi <- gpio_out_setup (nthZ args 2) 0 ;;
    sclk <- gpio_out_setup (nthZ args 3) 0 ;;
    spidev_set_software_bus oid (mk_spi_software miso mosi sclk mode).

Definition spidev_have_cs_pin (d : spidev_s) : Z := Z.land (spi_flags d) SF_HAVE_PIN.
Definition spidev_get_cs_pin (d : spidev_s) : Z := spi_pin d.

(** [spidev_transfer]: the contents of [data] after the transfer.  The union is read
    as the member that the flags tell. *)
Definition spidev_transfer (oid receive_data : Z) (data : list Z) : M world (list Z) :=
  d <- oget (T := spidev_s) oid ;;
  let flags := spi_flags d in
  if negb (has flags (Z.lor SF_SOFTWARE SF_HARDWARE)) then ret data
  else
    let software := CONFIG_HAVE_GPIO_BITBANGING && has flags SF_SOFTWARE in
    match software, spi_union d with
    | true, SB_software ss => spi_software_prepare ss
    | false, SB_config c => spi_prepare c
    | _, _ => stuck
    end ;;
    when (has flags SF_HAVE_PIN) (gpio_out_write (spi_pin d) (b2z (has flags SF_CS_ACTIVE_HIGH))) ;;
    data <- match software, spi_union d with
            | true, SB_software ss => spi_software_transfer ss receive_data data
            | false, SB_config c => spi_transfer c receive_data data
            | _, _ => stuck
            end ;;
    when (has flags SF_HAVE_PIN)
      (gpio_out_write (spi_pin d) (b2z (negb (has flags SF_CS_ACTIVE_HIGH)))) ;;
    ret data.

Definition command_spi_transfer (args : list Z) : M world unit :=
  let oid := u8 (nthZ args 0) in
  spi <- spidev_oid_lookup oid ;;
  let data_len := u8 (nthZ args 1) in
  data <- load_arg (nthZ args 2) data_len ;;
  data <- spidev_transfer spi 1 data ;;
  store_arg (nthZ args 2) data ;;
  sendf "spi_transfer_response oid=%c response=%*s" [VA_int oid; VA_buffer data_len data].

Definition command_spi_send (args : list Z) : M world unit :=
  spi <- spidev_oid_lookup (nthZ args 0) ;;
  let data_len := u8 (nthZ args 1) in
  data <- load_arg (nthZ args 2) data_len ;;
  spidev_transfer spi 0 data ;;
  ret tt.

Definition command_config_spi_shutdown (args : list Z) : M world unit :=
  spi <- spidev_oid_lookup (nthZ args 1) ;;
  let shutdown_msg_len := u8 (nthZ args 2) in
  oid <- obj_alloc_extra shutdown_msg_len (nthZ args 0) OT_spi_shutdown
           (mk_spidev_shutdown 0 0 (repeat 0 (Z.to_nat shutdown_msg_len))) [] ;;
  omod oid (fun s => s <| sd_spi := spi |> <| sd_msg_len := shutdown_msg_len |>) ;;
  msg <- load_arg (nthZ args 3) shutdown_msg_len ;;
  omod oid (fun s => s <| sd_msg := msg |>).

Definition spidev_shutdown : M world unit :=
  foreach_oid OT_spi (fun oid =>
    d <- oget (T := spidev_s) oid ;;
    when (has (spi_flags d) SF_HAVE_PIN)
      (gpio_out_write (spi_pin d) (b2z (negb (has (spi_flags d) SF_CS_ACTIVE_HIGH))))) ;;
  foreach_oid OT_spi_shutdown (fun oid =>
    s <- oget (T := spidev_shutdown_s) oid ;;
    spidev_transfer (sd_spi s) 0 (takeZ (sd_msg_len s) (sd_msg s)) ;;
    ret tt).

(** ** I2C devices *)

Definition command_config_i2c (args : list Z) : M world unit :=
  let addr := Z.land (nthZ args 3) 127 in
  oid <- obj_alloc (nthZ args 0) OT_i2c (mk_i2cdev 0) [] ;;
  c <- i2c_setup (nthZ args 1) (nthZ args 2) addr ;;
  omod oid (fun d => d <| i2c_config := c |>).

Definition i2cdev_oid_lookup (oid : Z) : M world Z := oid_lookup oid OT_i2c.

Definition command_i2c_write (args : list Z) : M world unit :=
  oid <- oid_lookup (nthZ args 0) OT_i2c ;;
  d <- oget (T := i2cdev_s) oid ;;
  data <- load_arg (nthZ args 2) (u8 (nthZ args 1)) ;;
  i2c_write (i2c_config d) data.

Definition command_i2c_read (args : list Z) : M world unit :=
  oid <- oid_lookup (nthZ args 0) OT_i2c ;;
  d <- oget (T := i2cdev_s) oid ;;
  let data_len := u8 (nthZ args 3) in
  reg <- load_arg (nthZ args 2) (u8 (nthZ args 1)) ;;
  data <- i2c_read (i2c_config d) reg data_len ;;
  sendf "i2c_read_response oid=%c response=%*s" [VA_int oid; VA_buffer data_len data].

(** The loop that clears and sets bits; [clear_set] has the bits to clear in its first
    half and those to set in its second. *)
Fixpoint modify_bits (n : nat) (i data_len : Z) (clear_set data : list Z) : list Z :=
  match n with
  | O => data
  | S n => modify_bits n (i + 1) data_len clear_set
      (<[Z.to_nat i := Z.lor (clear (nthZ data i) (nthZ clear_set i)) (nthZ clear_set (data_len + i))]> data)
  end.

Definition command_i2c_modify_bits (args : list Z) : M world unit :=
  oid <- oid_lookup (nthZ args 0) OT_i2c ;;
  d <- oget (T := i2cdev_s) oid ;;
  let clear_set_len := nthZ args 3 in
  if negb (clear_set_len mod 2 =? 0) then shutdown "i2c_modify_bits: Odd number of bits!"
  else
    let data_len := u8 (clear_set_len / 2) in
    reg <- load_arg (nthZ args 2) (u8 (nthZ args 1)) ;;
    clear_set <- load_arg (nthZ args 4) (2 * data_len) ;;
    receive_data <- i2c_read (i2c_config d) reg data_len ;;
    i2c_write (i2c_config d)
      (reg ++ modify_bits (Z.to_nat data_len) 0 data_len clear_set receive_data).

(** ** Thermocouple chips *)

Definition TS_CHIP_MAX31855 : Z := 0.
Definition TS_CHIP_MAX31856 : Z := 1.
Definition TS_CHIP_MAX31865 : Z := 2.
Definition TS_CHIP_MAX6675 : Z := 3.
Definition TS_PENDING : Z := 1.

Definition set_thermocouple_wake (v : Z) (k : wakes) : wakes := k <| thermocouple_wake := v |>.
Definition thermo_timer (oid : Z) : tid := T_obj oid 0.

Definition thermocouple_event (oid : Z) : M world Z :=
  sched_wake_task set_thermocouple_wake ;;
  omod oid (fun t => t <| th_flags ::= fun f => Z.lor f TS_PENDING |>) ;;
  t <- oget (T := thermocouple_spi) oid ;;
  tmod (thermo_timer oid) (fun tm => tm <| t_waketime ::= fun w => u32 (w + th_rest_time t) |>) ;;
  ret SF_RESCHEDULE.

Definition thermocouple_zero : thermocouple_spi := mk_thermocouple 0 0 0 0 0 0 0 0.

Definition command_config_thermocouple (args : list Z) : M world unit :=
  let chip_type := u8 (nthZ args 2) in
  if TS_CHIP_MAX6675 <? chip_type then shutdown "Invalid thermocouple chip type"
  else
    oid <- obj_alloc (nthZ args 0) OT_thermocouple thermocouple_zero [0] ;;
    tmod (thermo_timer oid) (fun t => t <| t_func := Some F_thermocouple_event |>) ;;
    spi <- spidev_oid_lookup (nthZ args 1) ;;
    omod oid (fun t => t <| th_spi := spi |>) ;;
    omod oid (fun t => t <| th_chip_type := chip_type |>).

Definition command_query_thermocouple (args : list Z) : M world unit :=
  oid <- oid_lookup (nthZ args 0) OT_thermocouple ;;
  sched_del_timer (thermo_timer oid) ;;
  tmod (thermo_timer oid) (fun t => t <| t_waketime := nthZ args 1 |>) ;;
  omod oid (fun t => t <| th_rest_time := nthZ args 2 |>) ;;
  t <- oget (T := thermocouple_spi) oid ;;
  if th_rest_time t =? 0 then ret tt
  else
    omod oid (fun t => t <| th_min_value := nthZ args 3 |>) ;;
    omod oid (fun t => t <| th_max_value := nthZ args 4 |>) ;;
    omod oid (fun t => t <| th_max_invalid := u8 (nthZ args 5) |>) ;;
    omod oid (fun t => t <| th_invalid_count := 0 |>) ;;
    sched_add_timer (thermo_timer oid).

(** The check of a result in [thermocouple_respond]. *)
Definition result_invalid (t : thermocouple_spi) (value fault : Z) : bool :=
  negb (fault =? 0) || (value <? th_min_value t) || (th_max_value t <? value).

Definition thermocouple_respond (oid next_begin_time value fault : Z) : M world unit :=
  sendf "thermocouple_result oid=%c next_clock=%u value=%u fault=%c"
    [VA_int oid; VA_int next_begin_time; VA_int value; VA_int fault] ;;
  t <- oget (T := thermocouple_spi) oid ;;
  if result_invalid t value fault then
    omod oid (fun t => t <| th_invalid_count ::= fun c => u8 (c + 1) |>) ;;
    t <- oget (T := thermocouple_spi) oid ;;
    if th_invalid_count t <? th_max_invalid t then ret tt
    else
      sched_try_shutdown "Thermocouple reader fault" ;;
      omod oid (fun t => t <| th_invalid_count := 0 |>)
  else omod oid (fun t => t <| th_invalid_count := 0 |>).

(** [be32_to_cpu] and [be16_to_cpu] of the bytes of a message. *)
Definition be32 (msg : list Z) : Z :=
  Z.lor (Z.lor (Z.shiftl (nthZ msg 0) 24) (Z.shiftl (nthZ msg 1) 16))
        (Z.lor (Z.shiftl (nthZ msg 2) 8) (nthZ msg 3)).
Definition be16 (msg : list Z) : Z := Z.lor (Z.shiftl (nthZ msg 0) 8) (nthZ msg 1).

Definition MAX31856_LTCBH_REG : Z := 12.
Definition MAX31856_SR_REG : Z := 15.
Definition MAX31865_RTDMSB_REG : Z := 1.
Definition MAX31865_FAULTSTAT_REG : Z := 7.

Definition thermocouple_handle_max31855 (oid spi next_begin_time : Z) : M world unit :=
  msg <- spidev_transfer spi 1 [0; 0; 0; 0] ;;
  let value := be32 msg in
  thermocouple_respond oid next_begin_time value (Z.land value 7).

Definition thermocouple_handle_max31856 (oid spi next_begin_time : Z) : M world unit :=
  msg <- spidev_transfer spi 1 [MAX31856_LTCBH_REG; 0; 0; 0] ;;
  let value := Z.land (be32 msg) 16777215 in
  msg <- spidev_transfer spi 1 [MAX31856_SR_REG; 0] ;;
  thermocouple_respond oid next_begin_time value (nthZ msg 1).

(** Three of the four bytes are transferred. *)
Definition thermocouple_handle_max31865 (oid spi next_begin_time : Z) : M world unit :=
  msg <- spidev_transfer spi 1 [MAX31865_RTDMSB_REG; 0; 0] ;;
  let value := Z.land (Z.shiftr (be32 (msg ++ [0])) 8) 65535 in
  msg <- spidev_transfer spi 1 [MAX31865_FAULTSTAT_REG; 0] ;;
  let fault := Z.lor (clear (nthZ msg 1) 3) (Z.land value 1) in
  thermocouple_respond oid next_begin_time value fault.

Definition thermocouple_handle_max6675 (oid spi next_begin_time : Z) : M world unit :=
  msg <- spidev_transfer spi 1 [0; 0] ;;
  let value := be16 msg in
  thermocouple_respond oid next_begin_time value (Z.land value 6).

Definition thermocouple_task : M world unit :=
  woken <- sched_check_wake thermocouple_wake set_thermocouple_wake ;;
  if negb woken then ret tt
  else foreach_oid OT_thermocouple (fun oid =>
    t <- oget (T := thermocouple_spi) oid ;;
    if negb (has (th_flags t) TS_PENDING) then ret tt
    else
      tm <- tget (thermo_timer oid) ;;
      let next_begin_time := t_waketime tm in
      omod oid (fun t => t <| th_flags ::= fun f => clear f TS_PENDING |>) ;;
      if th_chip_type t =? TS_CHIP_MAX31855 then thermocouple_handle_max31855 oid (th_spi t) next_begin_time
      else if th_chip_type t =? TS_CHIP_MAX31856 then thermocouple_handle_max31856 oid (th_spi t) next_begin_time
      else if th_chip_type t =? TS_CHIP_MAX31865 then thermocouple_handle_max31865 oid (th_spi t) next_begin_time
      else if th_chip_type t =? TS_CHIP_MAX6675 then thermocouple_handle_max6675 oid (th_spi t) next_begin_time
      else ret tt).
End bus.
