(* ===== verification/BusFacts.v ===== *)
(** * Properties of the bus devices

    A transfer over the software SPI bus, as the chip on the bus sees it, framed by
    the chip select. *)

From S2P Require Import Prelude Command Sched SchedFacts Basecmd BasecmdFacts World WorldFacts StepperFacts Tmcuart TmcuartFacts Bus.

(** ** The chip on the other side

    A chip samples its input on the leading edge of the clock (modes 0 and 2) or on
    the trailing one (modes 1 and 3). *)
Record slave := mk_slave { sl_mosi : bool; sl_trailing : bool; sl_bits : list bool }.

Definition slave_step (cpha : bool) (mosi sclk : Z) (s : slave) (e : event) : slave :=
  match e with
  | Ev_out_write pin v =>
      if pin =? mosi then mk_slave (negb (v =? 0)) (sl_trailing s) (sl_bits s) else s
  | Ev_out_toggle pin =>
      if pin =? sclk
      then mk_slave (sl_mosi s) (negb (sl_trailing s))
             (if Bool.eqb (sl_trailing s) cpha then sl_bits s ++ [sl_mosi s] else sl_bits s)
      else s
  | _ => s
  end.

(** The bits of a byte as they are sent, and the byte read from bits. *)
Definition msb_bits (n : nat) (d : Z) : list bool :=
  (fun i : nat => Z.testbit d (7 - Z.of_nat i)) <$> seq 0 n.
Definition shift_in (a : Z) (b : bool) : Z := 2 * a + b2z b.
Definition byte_of (bits : list bool) : Z := foldl shift_in 0 bits.

(** The next [n] readings, as levels. *)
Definition levels (w : world) (k n : nat) : list bool := (fun i => high (input_at w i)) <$> seq k n.

(** The pin changes of one bit. *)
Definition bit_events (ss : spi_software) (b : bool) : list event :=
  let w := Ev_out_write (ss_mosi ss) (if b then 128 else 0) in
  let t := Ev_out_toggle (ss_sclk ss) in
  if has (ss_mode ss) 1 then [t; w; t] else [w; t; t].

Lemma slave_bit ss s b :
  ss_mosi ss <> ss_sclk ss -> sl_trailing s = false ->
  foldl (slave_step (has (ss_mode ss) 1) (ss_mosi ss) (ss_sclk ss)) s (bit_events ss b)
  = mk_slave b false (sl_bits s ++ [b]).
Proof.
  intros Hne Hs. unfold bit_events, slave_step. destruct (has (ss_mode ss) 1); cbn;
    rewrite !Z.eqb_refl, Hs; cbn; by destruct b.
Qed.

Lemma slave_bits ss s bits :
  ss_mosi ss <> ss_sclk ss -> sl_trailing s = false ->
  exists m, foldl (slave_step (has (ss_mode ss) 1) (ss_mosi ss) (ss_sclk ss)) s (bits ≫= bit_events ss)
  = mk_slave m false (sl_bits s ++ bits).
Proof.
  intros Hne. revert s. induction bits as [|b bits IH]; intros s Hs.
  - exists (sl_mosi s). rewrite app_nil_r, <- Hs. by destruct s.
  - cbn [mbind list_bind]. rewrite foldl_app, slave_bit by done.
    destruct (IH (mk_slave b false (sl_bits s ++ [b])) eq_refl) as [m ->]. exists m.
    cbn. by rewrite <- app_assoc.
Qed.

Section bus.
Context {cfg : Config} {tgt : Target} {mch : Machine}.

(** A reading of a pin is 0 or 1. *)
Definition level_inputs (w : world) : Prop := forall i, 0 <= u8 (input_at w i) < 2.

Lemma level_b2z w i : level_inputs w -> u8 (input_at w i) = b2z (high (input_at w i)).
Proof.
  intros Hl. specialize (Hl i). unfold high. destruct (Z.eqb_spec (u8 (input_at w i)) 0); cbn; lia.
Qed.

Lemma land128 d : Z.land d 128 = if Z.testbit d 7 then 128 else 0.
Proof.
  apply Z.bits_inj'. intros i Hi. rewrite Z.land_spec. change 128 with (2 ^ 7).
  rewrite Z.pow2_bits_eqb by lia. destruct (Z.eqb_spec 7 i) as [<-|Hne].
  - destruct (Z.testbit d 7); [|done]. by rewrite Z.pow2_bits_eqb.
  - rewrite andb_false_r. destruct (Z.testbit d 7); [|by rewrite Z.bits_0].
    rewrite Z.pow2_bits_eqb by lia. symmetry. by apply Z.eqb_neq.
Qed.

Lemma msb_bits_S n d : (n < 8)%nat -> msb_bits (S n) d = Z.testbit d 7 :: msb_bits n (u8 (Z.shiftl d 1)).
Proof.
  intros Hn. unfold msb_bits. cbn [seq fmap list_fmap]. f_equal. rewrite <- seq_shift, <- list_fmap_compose.
  apply list_fmap_ext. intros j i Hi%lookup_seq. cbn. unfold u8. change 256 with (2 ^ 8).
  rewrite Z.mod_pow2_bits_low, Z.shiftl_spec by lia. f_equal. lia.
Qed.

(** The loop over the bits: what goes out and what comes in. *)
Lemma software_bits_run n ss d inb w :
  level_inputs w -> (n <= 8)%nat -> 0 <= inb < 2 ^ (8 - Z.of_nat n) ->
  exists w', software_bits n ss d inb w = Ret (foldl shift_in inb (levels w 0 n)) w' /\
    trace w' = trace w ++ (msb_bits n d ≫= bit_events ss) /\
    (forall oid, obj_at w' oid = obj_at w oid) /\ (forall i, input_at w' i = input_at w (n + i)).
Proof.
  revert d inb w. induction n as [|n IH]; intros d inb w Hl Hn Hi.
  { exists w. by rewrite app_nil_r. }
  assert (Hin : Z.lor (u8 (Z.shiftl inb 1)) (u8 (input_at w 0)) = shift_in inb (high (input_at w 0))).
  { assert (2 * 2 ^ (8 - Z.of_nat (S n)) <= 2 ^ 8).
    { rewrite <- Z.pow_succ_r by lia. apply Z.pow_le_mono_r; lia. }
    rewrite u8_small by (rewrite Z.shiftl_mul_pow2 by lia; lia).
    rewrite (level_b2z w 0 Hl), lor_shiftl_add; [unfold shift_in; lia|lia|].
    destruct (high (input_at w 0)); cbn; lia. }
  assert (Hi' : 0 <= shift_in inb (high (input_at w 0)) < 2 ^ (8 - Z.of_nat n)).
  { replace (8 - Z.of_nat n) with (Z.succ (8 - Z.of_nat (S n))) by lia. rewrite Z.pow_succ_r by lia.
    unfold shift_in. destruct (high (input_at w 0)); cbn; lia. }
  assert (Hev : forall w1, trace w1 = trace w ++ bit_events ss (Z.testbit d 7) ->
    (forall oid, obj_at w1 oid = obj_at w oid) -> (forall i, input_at w1 i = input_at w (S i)) ->
    exists w', software_bits n ss (u8 (Z.shiftl d 1)) (shift_in inb (high (input_at w 0))) w1
      = Ret (foldl shift_in inb (levels w 0 (S n))) w' /\
      trace w' = trace w ++ (msb_bits (S n) d ≫= bit_events ss) /\
      (forall oid, obj_at w' oid = obj_at w oid) /\ (forall i, input_at w' i = input_at w (S n + i))).
  { intros w1 Htr Hob Hinp. destruct (IH (u8 (Z.shiftl d 1)) (shift_in inb (high (input_at w 0))) w1)
      as (w' & Hr & Htr' & Hob' & Hin'); [|lia|done|].
    { intros i. rewrite Hinp. apply Hl. }
    exists w'. rewrite Hr, Htr', Htr, msb_bits_S by lia. split; [|split; [|split]].
    - cbn [levels seq fmap list_fmap foldl]. do 2 f_equal. unfold levels.
      rewrite <- seq_shift, <- list_fmap_compose. apply list_fmap_ext. intros j i _. cbn. by rewrite Hinp.
    - cbn [mbind list_bind]. by rewrite app_assoc.
    - intros oid. by rewrite Hob', Hob.
    - intros i. rewrite Hin', Hinp. done. }
  cbn [software_bits]. unfold gpio_out_toggle, gpio_out_write, gpio_in_read.
  destruct (has (ss_mode ss) 1) eqn:Em; repeat wstep; rewrite next_input_at;
    autorewrite with wget; rewrite Hin; apply Hev.
  all: try (intros; by autorewrite with wget).
  all: autorewrite with wget; unfold bit_events; rewrite Em, land128, <- !app_assoc; done.
Qed.

(** Reading back a byte from its bits. *)
Lemma msb_bits_byte l : length l = 8%nat -> msb_bits 8 (byte_of l) = l.
Proof.
  intros Hl. do 8 (destruct l as [|[] l]; [done| |]); (destruct l; [reflexivity|done]).
Qed.

Definition received (w : world) (data : list Z) : list Z :=
  (fun j => byte_of (levels w (8 * j) 8)) <$> seq 0 (length data).

Lemma received_S w w' d data :
  (forall i, input_at w' i = input_at w (8 + i)) ->
  received w (d :: data) = byte_of (levels w 0 8) :: received w' data.
Proof.
  intros Hi. unfold received. cbn [length seq fmap list_fmap]. f_equal.
  rewrite <- seq_shift, <- list_fmap_compose. apply list_fmap_ext. intros k j _. cbn [compose].
  f_equal. unfold levels. replace (8 * S j)%nat with (8 + 8 * j)%nat by lia.
  rewrite <- (fmap_add_seq 8 (8 * j) 8), <- list_fmap_compose. apply list_fmap_ext.
  intros k' i _. cbn [compose]. by rewrite Hi.
Qed.

(** The received bytes are the readings, first bit first. *)
Lemma received_bits w data :
  received w data ≫= msb_bits 8 = levels w 0 (8 * length data).
Proof.
  unfold received. induction (length data) as [|n IH]; [done|].
  rewrite seq_S, fmap_app, bind_app, IH. cbn [fmap list_fmap mbind list_bind].
  rewrite app_nil_r, msb_bits_byte by (unfold levels; by rewrite length_fmap, length_seq).
  unfold levels. rewrite <- fmap_app, <- seq_app. do 2 f_equal. lia.
Qed.

Lemma software_transfer_run ss r data w :
  level_inputs w ->
  exists w', spi_software_transfer ss r data w = Ret (if r =? 0 then data else received w data) w' /\
    trace w' = trace w ++ ((data ≫= msb_bits 8) ≫= bit_events ss) /\
    (forall oid, obj_at w' oid = obj_at w oid) /\
    (forall i, input_at w' i = input_at w (8 * length data + i)).
Proof.
  revert w. induction data as [|d data IH]; intros w Hl.
  { exists w. rewrite app_nil_r. by destruct (r =? 0). }
  cbn [spi_software_transfer].
  destruct (software_bits_run 8 ss d 0 w Hl) as (w1 & Hr1 & Htr1 & Hob1 & Hin1); [lia|done|].
  rewrite (bind_Ret _ _ _ _ _ Hr1).
  destruct (IH w1) as (w2 & Hr2 & Htr2 & Hob2 & Hin2).
  { intros i. rewrite Hin1. apply Hl. }
  rewrite (bind_Ret _ _ _ _ _ Hr2). exists w2. split; [|split; [|split]].
  - rewrite (received_S w w1) by done. unfold ret. by destruct (r =? 0).
  - rewrite Htr2, Htr1, <- app_assoc. by rewrite <- bind_app.
  - intros oid. by rewrite Hob2, Hob1.
  - intros i. rewrite Hin2, Hin1. f_equal. cbn [length]. lia.
Qed.

(** The events of the clock and data pins of the bus. *)
Definition on_bus (ss : spi_software) (e : event) : Prop :=
  e = Ev_out_toggle (ss_sclk ss) \/ exists v, e = Ev_out_write (ss_mosi ss) v.

Lemma bits_on_bus ss bits : Forall (on_bus ss) (bits ≫= bit_events ss).
Proof.
  induction bits as [|b bits IH]; [constructor|]. cbn [mbind list_bind]. apply Forall_app. split; [|done].
  unfold bit_events, on_bus. destruct (has (ss_mode ss) 1);
    repeat (apply Forall_cons; split; [eauto|]); constructor.
Qed.

(** C18: A transfer with a device on a software bus.  The clock is put to the idle level of
    its mode before the device is selected and the device is deselected at the end; in
    between only the clock and data pins change, and the device, which samples its input
    on the edges of its mode, reads the bits of the data, highest bit first, and is left
    between two clock pulses.  The data is replaced by the readings, highest bit first,
    when it is to be received, and kept otherwise. *)
Theorem spi_software_exchange oid d ss r data w :
  obj_at w oid = Some (O_spidev d) -> spi_union d = SB_software ss ->
  CONFIG_HAVE_GPIO_BITBANGING = true -> has (spi_flags d) SF_SOFTWARE = true ->
  has (spi_flags d) SF_HAVE_PIN = true -> ss_mosi ss <> ss_sclk ss -> level_inputs w ->
  exists data' evs w', spidev_transfer oid r data w = Ret data' w' /\
    trace w' = trace w
      ++ [Ev_out_write (ss_sclk ss) (Z.land (ss_mode ss) 2);
          Ev_out_write (spi_pin d) (b2z (has (spi_flags d) SF_CS_ACTIVE_HIGH))]
      ++ evs ++ [Ev_out_write (spi_pin d) (b2z (negb (has (spi_flags d) SF_CS_ACTIVE_HIGH)))] /\
    Forall (on_bus ss) evs /\
    (forall m, exists m',
       foldl (slave_step (has (ss_mode ss) 1) (ss_mosi ss) (ss_sclk ss)) (mk_slave m false []) evs
       = mk_slave m' false (data ≫= msb_bits 8)) /\
    length data' = length data /\
    (if r =? 0 then data' = data else data' ≫= msb_bits 8 = levels w 0 (8 * length data)).
Proof.
  intros Ho Hu Hbb Hsw Hpin Hne Hl. unfold spidev_transfer, spi_software_prepare, gpio_out_write.
  repeat wstep. assert (has (spi_flags d) (Z.lor SF_SOFTWARE SF_HARDWARE) = true) as ->.
  { unfold has in *. destruct (Z.eqb_spec (Z.land (spi_flags d) (Z.lor SF_SOFTWARE SF_HARDWARE)) 0) as [E|]; [|done].
    exfalso. apply (f_equal (fun x => Z.land x SF_SOFTWARE)) in E. rewrite <- Z.land_assoc in E.
    change (Z.land (Z.lor SF_SOFTWARE SF_HARDWARE) SF_SOFTWARE) with SF_SOFTWARE in E.
    rewrite Z.land_0_l in E. by rewrite E in Hsw. }
  rewrite Hbb, Hsw, Hpin, Hu. cbn [negb andb when]. repeat wstep.
  match goal with |- context [bind (spi_software_transfer _ _ _) _ ?x] => set (w1 := x) end.
  destruct (software_transfer_run ss r data w1) as (w2 & Hr & Htr & _ & _).
  { intros i. unfold w1. autorewrite with wget. apply Hl. }
  rewrite (bind_Ret _ _ _ _ _ Hr). repeat wstep.
  exists (if r =? 0 then data else received w data), ((data ≫= msb_bits 8) ≫= bit_events ss).
  eexists. split; [reflexivity|]. split; [|split; [apply bits_on_bus|split; [|split]]].
  - autorewrite with wget. rewrite Htr. unfold w1. autorewrite with wget. by rewrite <- !app_assoc.
  - intros m. exact (slave_bits ss (mk_slave m false []) (data ≫= msb_bits 8) Hne eq_refl).
  - destruct (r =? 0); [done|]. unfold received. by rewrite length_fmap, length_seq.
  - destruct (r =? 0); [done|]. apply received_bits.
Qed.

(** ** Buffer arguments *)

(** The pointer that [command_parsef] stores for a buffer argument at offset [p] of the
    received block gives the handler exactly the bytes that follow the length. *)
Theorem buffer_argument_loads p len w :
  0 <= p -> 0 <= len -> p + 1 + len <= zlen (hw_receive (w_hw w)) ->
  0 <= console_receive_buffer -> console_receive_buffer + zlen (hw_receive (w_hw w)) < 4294967296 ->
  load_arg (command_encode_ptr sizeof_size_t console_receive_buffer (console_receive_buffer + p + 1)) len w
  = Ret (takeZ len (dropZ (p + 1) (hw_receive (w_hw w)))) w.
Proof.
  intros Hp Hl Hb Hbase Hend.
  assert (arg_offset (command_encode_ptr sizeof_size_t console_receive_buffer
            (console_receive_buffer + p + 1)) = p + 1) as E.
  { unfold arg_offset, command_decode_ptr, command_encode_ptr.
    destruct (4 <? sizeof_size_t); rewrite u32_small; lia. }
  unfold load_arg. unfold bind, gets. rewrite E.
  destruct (Z.leb_spec 0 (p + 1)); [|lia].
  destruct (Z.leb_spec (p + 1 + len) (zlen (hw_receive (w_hw w)))); [done|lia].
Qed.

(** ** Thermocouples *)

(** The reports of a sequence of results [(next_begin_time, value, fault)]. *)
Fixpoint respond_all (oid : Z) (rs : list (Z * Z * Z)) : M world unit :=
  match rs with
  | [] => ret tt
  | (time, value, fault) :: rs => thermocouple_respond oid time value fault ;; respond_all oid rs
  end.

Definition bad_result (t : thermocouple_spi) (r : Z * Z * Z) : bool :=
  let '(_, value, fault) := r in result_invalid t value fault.

(** Whether [n] bad results in a row end somewhere in [rs], with [c] before it. *)
Fixpoint streak (t : thermocouple_spi) (n c : nat) (rs : list (Z * Z * Z)) : bool :=
  match rs with
  | [] => false
  | r :: rs =>
      if bad_result t r then if (n <=? S c)%nat then true else streak t n (S c) rs
      else streak t n 0 rs
  end.

Lemma streak_spec t n c rs :
  (c < n)%nat ->
  streak t n c rs = true <->
  (n - c <= length rs /\ Forall (fun r => bad_result t r = true) (take (n - c) rs))%nat \/
  exists i, (S i + n <= length rs)%nat /\ Forall (fun r => bad_result t r = true) (take n (drop (S i) rs)).
Proof.
  revert c. induction rs as [|r rs IH]; intros c Hc; cbn [streak length].
  { split; [done|]. intros [[? _]|(i & ? & _)]; lia. }
  destruct (bad_result t r) eqn:Eb.
  - destruct (Nat.leb_spec n (S c)).
    + split; [|done]. intros _. left. replace (n - c)%nat with 1%nat by lia. split; [lia|].
      cbn [take]. by repeat constructor.
    + rewrite IH by lia. replace (n - c)%nat with (S (n - S c)) by lia. cbn [take]. split.
      * intros [[? ?]|(i & ? & ?)]; [left; split; [lia|by constructor]|].
        right. exists (S i). split; [lia|done].
      * intros [[? Hf]|(i & ? & Hf)]; [apply Forall_cons in Hf as [_ Hf]; left; split; [lia|done]|].
        cbn [drop] in Hf. destruct i as [|i]; [|right; exists i; split; [lia|done]].
        left. rewrite drop_0 in Hf. split; [lia|].
        replace (take (n - S c) rs) with (take (n - S c) (take n rs)) by (rewrite take_take; f_equal; lia).
        by apply Forall_take.
  - rewrite IH by lia. split.
    + intros [[? Hf]|(i & ? & ?)].
      * right. exists 0%nat. cbn [drop]. rewrite Nat.sub_0_r in *. rewrite drop_0. split; [lia|done].
      * right. exists (S i). split; [lia|done].
    + intros [[? Hf]|(i & ? & Hf)].
      * replace (n - c)%nat with (S (n - c - 1)) in Hf by lia. cbn [take] in Hf.
        apply Forall_cons in Hf as [Hf _]. congruence.
      * cbn [drop] in Hf. destruct i as [|i]; [|right; exists i; split; [lia|done]].
        left. rewrite drop_0 in Hf. rewrite Nat.sub_0_r. split; [lia|done].
Qed.

(** A response changes nothing but the trace and the guard of [command_sendf]. *)
Lemma sendf_run fmt args w :
  exists w', sendf fmt args w = Ret tt w' /\ w_base w' = w_base w /\ w_sched w' = w_sched w.
Proof.
  unfold sendf, command_sendf, cmd_gets, cmd_modify, bind, gets, modify. cbn.
  destruct (z2b (in_sendf (w_cmd w))); eexists; done.
Qed.

(** The count of bad results after a response, and when it shuts down. *)
Lemma respond_run oid time value fault t w :
  obj_at w oid = Some (O_thermocouple t) -> shutdown_status (w_sched w) = 0 ->
  0 <= th_invalid_count t < th_max_invalid t -> th_max_invalid t < 256 ->
  exists w',
    if result_invalid t value fault
    then if th_max_invalid t <=? th_invalid_count t + 1
         then thermocouple_respond oid time value fault w = Shut "Thermocouple reader fault" w'
         else thermocouple_respond oid time value fault w = Ret tt w' /\
              obj_at w' oid = Some (O_thermocouple (t <| th_invalid_count := th_invalid_count t + 1 |>)) /\
              w_sched w' = w_sched w
    else thermocouple_respond oid time value fault w = Ret tt w' /\
         obj_at w' oid = Some (O_thermocouple (t <| th_invalid_count := 0 |>)) /\ w_sched w' = w_sched w.
Proof.
  intros Ho Hs Hc Hm. unfold thermocouple_respond.
  destruct (sendf_run "thermocouple_result oid=%c next_clock=%u value=%u fault=%c"
    [VA_int oid; VA_int time; VA_int value; VA_int fault] w) as (w1 & Hsend & Hb1 & Hs1).
  rewrite (bind_Ret _ _ _ _ _ Hsend).
  assert (Ho1 : obj_at w1 oid = Some (O_thermocouple t)) by (unfold obj_at in *; by rewrite Hb1).
  repeat wstep. destruct (result_invalid t value fault).
  - repeat wstep. cbn [th_invalid_count th_max_invalid upd]. rewrite u8_small by lia.
    destruct (Z.leb_spec (th_max_invalid t) (th_invalid_count t + 1)),
      (Z.ltb_spec (th_invalid_count t + 1) (th_max_invalid t)); try lia.
    + eexists. unfold sched_try_shutdown, sget, gets, bind. cbn. rewrite Hs1, Hs. reflexivity.
    + eexists. split; [reflexivity|]. split; [by eapply obj_at_put|done].
  - eexists. split; [by apply omod_Ret|]. split; [by eapply obj_at_put|done].
Qed.

Lemma respond_all_run oid rs t w :
  obj_at w oid = Some (O_thermocouple t) -> shutdown_status (w_sched w) = 0 ->
  0 <= th_invalid_count t < th_max_invalid t -> th_max_invalid t < 256 ->
  exists w', respond_all oid rs w
    = if streak t (Z.to_nat (th_max_invalid t)) (Z.to_nat (th_invalid_count t)) rs
      then Shut "Thermocouple reader fault" w' else Ret tt w'.
Proof.
  revert t w. induction rs as [|[[time value] fault] rs IH]; intros t w Ho Hs Hc Hm.
  { by exists w. }
  destruct (respond_run oid time value fault t w Ho Hs Hc Hm) as (w1 & Hr).
  cbn [respond_all streak bad_result]. unfold bind.
  assert (Hst : forall c n rs', streak (t <| th_invalid_count := c |>) n (Z.to_nat c) rs' = streak t n (Z.to_nat c) rs').
  { intros c n rs'. generalize (Z.to_nat c). induction rs' as [|[[? ?] ?] rs' IHr]; intros k; [done|].
    cbn [streak bad_result]. by rewrite !IHr. }
  destruct (result_invalid t value fault).
  - replace (Z.to_nat (th_max_invalid t) <=? S (Z.to_nat (th_invalid_count t)))%nat
      with (th_max_invalid t <=? th_invalid_count t + 1).
    2: { destruct (Z.leb_spec (th_max_invalid t) (th_invalid_count t + 1)),
           (Nat.leb_spec (Z.to_nat (th_max_invalid t)) (S (Z.to_nat (th_invalid_count t)))); done || lia. }
    destruct (Z.leb_spec (th_max_invalid t) (th_invalid_count t + 1)).
    + exists w1. by rewrite Hr.
    + destruct Hr as (Hr & Ho1 & Hs1). rewrite Hr.
      destruct (IH _ w1 Ho1) as (w2 & ->); cbn [th_invalid_count th_max_invalid upd]; try lia; try congruence.
      exists w2. rewrite (Hst (th_invalid_count t + 1)). by rewrite Z2Nat.inj_add, Nat.add_1_r by lia.
  - destruct Hr as (Hr & Ho1 & Hs1). rewrite Hr.
    destruct (IH _ w1 Ho1) as (w2 & ->); cbn [th_invalid_count th_max_invalid upd]; try lia; try congruence.
    exists w2. by rewrite (Hst 0).
Qed.

(** A temperature chip that keeps reporting faults or values out of range stops the
    machine, and nothing else of it does: the results of a query shut the firmware down
    exactly when [max_invalid] of them in a row are bad. *)
Theorem thermocouple_stops_on_faults oid rs t w :
  obj_at w oid = Some (O_thermocouple t) -> shutdown_status (w_sched w) = 0 ->
  th_invalid_count t = 0 -> 0 < th_max_invalid t < 256 ->
  exists w',
    (respond_all oid rs w = Shut "Thermocouple reader fault" w' /\
     exists i, (i + Z.to_nat (th_max_invalid t) <= length rs)%nat /\
       Forall (fun r => bad_result t r = true) (take (Z.to_nat (th_max_invalid t)) (drop i rs))) \/
    (respond_all oid rs w = Ret tt w' /\
     forall i, (i + Z.to_nat (th_max_invalid t) <= length rs)%nat ->
       ~ Forall (fun r => bad_result t r = true) (take (Z.to_nat (th_max_invalid t)) (drop i rs))).
Proof.
  intros Ho Hs Hc Hm. destruct (respond_all_run oid rs t w Ho Hs ltac:(lia) ltac:(lia)) as (w' & Hr).
  rewrite Hc in Hr. pose proof (streak_spec t (Z.to_nat (th_max_invalid t)) 0 rs ltac:(lia)) as Hsp.
  rewrite Nat.sub_0_r in Hsp. change (Z.to_nat 0) with 0%nat in Hr. exists w'.
  destruct (streak t (Z.to_nat (th_max_invalid t)) 0 rs).
  - left. split; [exact Hr|]. destruct (proj1 Hsp eq_refl) as [[? ?]|(i & ? & ?)].
    + exists 0%nat. by rewrite drop_0.
    + by exists (S i).
  - right. split; [exact Hr|]. intros [|i] Hi Hf.
    + assert (false = true) by (apply Hsp; left; by rewrite drop_0 in Hf). done.
    + assert (false = true) by (apply Hsp; right; by exists i). done.
Qed.
End bus.

(** ** Witnesses: a chip on a software bus and a thermocouple *)

Definition demo_spi : spidev_s := mk_spidev (SB_software (mk_spi_software 4 5 6 1)) 9 3.
Definition demo_thermo : thermocouple_spi := mk_thermocouple 1000 100 200 0 2 0 0 0.
Definition bus_world : world :=
  (uart_world demo_idle None [1; 0; 1; 0; 0; 1; 0; 1])
    <| w_base ::= fun b => b
         <| oids := Some [mk_oid (Some OT_spi) (Some (O_spidev demo_spi));
                          mk_oid (Some OT_thermocouple) (Some (O_thermocouple demo_thermo))] |>
         <| oid_count := 2 |> |>.

Lemma spi_software_exchange_witness :
  exists data' evs w', spidev_transfer (mch := demo_machine) 0 1 [60] bus_world = Ret data' w' /\
    data' ≫= msb_bits 8 = [true; false; true; false; false; true; false; true] /\
    exists m', foldl (slave_step true 5 6) (mk_slave true false []) evs
      = mk_slave m' false [false; false; true; true; true; true; false; false].
Proof.
  destruct (spi_software_exchange (mch := demo_machine) 0 demo_spi (mk_spi_software 4 5 6 1) 1 [60] bus_world)
    as (data' & evs & w' & Hrun & _ & _ & Hsl & _ & Hdata).
  - reflexivity.
  - reflexivity.
  - reflexivity.
  - reflexivity.
  - reflexivity.
  - discriminate.
  - intros i. do 8 (destruct i as [|i]; [vm_compute; split; congruence|]).
    unfold input_at. cbn. destruct i; vm_compute; split; congruence.
  - exists data', evs, w'. split; [exact Hrun|]. split; [exact Hdata|exact (Hsl true)].
Defined.

Lemma buffer_argument_loads_witness :
  @load_arg demo_machine (command_encode_ptr 8 5000 5002) 2 bus_world = Ret [180; 3] bus_world.
Proof.
  apply (buffer_argument_loads (mch := demo_machine) 1 2 bus_world); vm_compute; congruence.
Defined.

Lemma thermocouple_stops_on_faults_witness :
  exists w', (respond_all (tgt := demo_target) 1 [(0, 150, 0); (0, 250, 0); (0, 150, 4); (0, 150, 0)] bus_world
              = Shut "Thermocouple reader fault" w').
Proof.
  destruct (thermocouple_stops_on_faults (tgt := demo_target) 1
    [(0, 150, 0); (0, 250, 0); (0, 150, 4); (0, 150, 0)] demo_thermo bus_world) as (w' & [[H _]|[_ H]]).
  - reflexivity.
  - reflexivity.
  - reflexivity.
  - cbn. lia.
  - exists w'. exact H.
  - exfalso. apply (H 1%nat); [cbn; lia|]. cbn. repeat constructor.
Defined.
