(* ===== verification/DeviceFacts.v ===== *)
(** * What devices leave alone

    A query of a chip reads the clock and transfers bytes over a bus.  [quiet] collects
    what such an operation does not change, so that the properties of the sensor drivers
    can step over it. *)

From S2P Require Import Prelude Command Sched SchedFacts Basecmd BasecmdFacts World WorldFacts Bus BusFacts.

(** The report of a sensor: an object id, a sequence number and a buffer. *)
Definition is_report (oid : Z) (e : event) : bool :=
  match e with
  | Ev_console _ (VA_int o :: VA_int _ :: VA_buffer _ _ :: _) => o =? oid
  | _ => false
  end.
Definition reports (oid : Z) (l : list event) : list event := filter (fun e => is_report oid e = true) l.

Lemma reports_app oid l k : reports oid (l ++ k) = reports oid l ++ reports oid k.
Proof. apply filter_app. Qed.

(** The clock readings taken so far, and the reading [i]. *)
Definition reads (w : world) : nat := hw_clock_reads (w_hw w).
Definition clock_at (w : world) (i : nat) : Z := u32 (hw_clock (w_hw w) i).

(** [w'] has the objects, timers and the state of the parser of [w] and shows no new report. *)
Record quiet (w w' : world) : Prop := {
  q_obj : forall o, obj_at w' o = obj_at w o;
  q_timer : forall t, timer_at w' t = timer_at w t;
  q_cmd : w_cmd w' = w_cmd w;
  q_clock : hw_clock (w_hw w') = hw_clock (w_hw w);
  q_reads : (reads w <= reads w')%nat;
  q_trace : exists evs, trace w' = trace w ++ evs /\ forall o, reports o evs = [] }.

Lemma quiet_refl w : quiet w w.
Proof. constructor; try done. exists []. split; [by rewrite app_nil_r|done]. Qed.

Lemma quiet_trans w1 w2 w3 : quiet w1 w2 -> quiet w2 w3 -> quiet w1 w3.
Proof.
  intros [O1 T1 C1 K1 R1 (e1 & E1 & N1)] [O2 T2 C2 K2 R2 (e2 & E2 & N2)].
  constructor; try congruence; [lia|].
  exists (e1 ++ e2). split; [by rewrite E2, E1, app_assoc|].
  intros o. by rewrite reports_app, N1, N2.
Qed.

#[export] Instance quiet_preorder : PreOrder quiet.
Proof. split; [exact quiet_refl|exact quiet_trans]. Qed.

Lemma quiet_tick w : quiet w (tick w).
Proof. constructor; try done; [unfold reads; cbn; lia|]. exists []. by rewrite app_nil_r. Qed.

Lemma quiet_take w : quiet w (take_input w).
Proof. constructor; try done. exists []. by rewrite app_nil_r. Qed.

Lemma quiet_event e w : (forall o, is_report o e = false) -> quiet w (put_event e w).
Proof.
  intros He. constructor; try done. exists [e]. split; [done|].
  intros o. unfold reports. rewrite filter_cons. by rewrite He.
Qed.

(** ** Reports in blocks

    A sensor stores bytes in a buffer and reports them in blocks of [size] bytes with
    consecutive 16-bit sequence numbers. *)

Definition block_report (ce : command_encoder) (oid size : Z) (i : nat) (block : list Z) : event :=
  Ev_console ce [VA_int oid; VA_int (u16 (Z.of_nat i)); VA_buffer size block].

(** The reports between [w0] and [w] and then the buffer hold [bytes]; [seq] is next. *)
Definition stream (ce : command_encoder) (oid size : Z) (w0 w : world) (seq : Z)
    (buf bytes : list Z) : Prop :=
  exists blocks evs, trace w = trace w0 ++ evs /\
    reports oid evs = imap (block_report ce oid size) blocks /\
    Forall (fun b => zlen b = size) blocks /\
    seq = u16 (Z.of_nat (length blocks)) /\
    concat blocks ++ buf = bytes.

Section stream.
Context (ce : command_encoder) (oid size : Z) (w0 : world).

Lemma stream_start w : stream ce oid size w w 0 [] [].
Proof. exists [], []. by rewrite app_nil_r. Qed.

Lemma stream_quiet w w' seq buf bytes :
  stream ce oid size w0 w seq buf bytes -> quiet w w' -> stream ce oid size w0 w' seq buf bytes.
Proof.
  intros (bl & evs & E & R & B) [_ _ _ _ _ (ev & Qe & Qn)]. exists bl, (evs ++ ev).
  by rewrite Qe, E, app_assoc, reports_app, R, Qn, app_nil_r.
Qed.

Lemma stream_append w w' seq buf bytes l :
  stream ce oid size w0 w seq buf bytes -> trace w' = trace w ->
  stream ce oid size w0 w' seq (buf ++ l) (bytes ++ l).
Proof.
  intros (bl & evs & E & R & B & S & C) Ht. exists bl, evs. rewrite Ht.
  do 4 (split; [done|]). by rewrite app_assoc, C.
Qed.

Lemma stream_flush w w' seq buf bytes :
  stream ce oid size w0 w seq buf bytes -> zlen buf = size ->
  trace w' = trace w ++ [Ev_console ce [VA_int oid; VA_int seq; VA_buffer size buf]] ->
  stream ce oid size w0 w' (u16 (seq + 1)) [] bytes.
Proof.
  intros (bl & evs & E & R & B & -> & C) Hl Ht.
  exists (bl ++ [buf]), (evs ++ [block_report ce oid size (length bl) buf]).
  split; [by rewrite Ht, E, <- app_assoc|]. split; [|split; [|split]].
  - rewrite reports_app, R, imap_app. f_equal. unfold reports. rewrite filter_cons.
    cbn. rewrite Z.eqb_refl, Nat.add_0_r. by rewrite decide_True.
  - apply Forall_app. split; [done|]. by constructor.
  - rewrite length_app. cbn. unfold u16. rewrite Zplus_mod_idemp_l. f_equal. lia.
  - rewrite concat_app. cbn [concat]. by rewrite !app_nil_r.
Qed.
End stream.

Section bus.
Context {cfg : Config} {tgt : Target} {mch : Machine}.

Lemma read_bytes_run n w :
  exists l w', read_bytes n w = Ret l w' /\ length l = n /\ Forall (fun b => 0 <= b < 256) l /\ quiet w w'.
Proof.
  revert w. induction n as [|n IH]; intros w; cbn [read_bytes].
  { exists [], w. split; [done|]. split; [done|]. split; [constructor|]. apply quiet_refl. }
  wstep. destruct (IH (take_input w)) as (l & w' & E & Hl & Hb & Hq). rewrite (bind_Ret _ _ _ _ _ E).
  eexists _, w'. split; [reflexivity|]. split; [by cbn; rewrite Hl|]. split.
  - constructor; [apply u8_range|done].
  - etransitivity; [apply quiet_take|done].
Qed.

(** The readings to come start with [l]. *)
Definition inputs_are (w : world) (l : list Z) : Prop := forall i x, l !! i = Some x -> input_at w i = x.

Lemma inputs_same w w' l : inputs_are w l -> (forall i, input_at w' i = input_at w i) -> inputs_are w' l.
Proof. intros H E i x Hx. rewrite E. by apply H. Qed.

Lemma read_bytes_inputs w l l2 :
  inputs_are w (l ++ l2) -> Forall (fun b => 0 <= b < 256) l ->
  exists w', read_bytes (length l) w = Ret l w' /\ inputs_are w' l2 /\ quiet w w'.
Proof.
  revert w. induction l as [|b l IH]; intros w Hi Hb; cbn [read_bytes length].
  { exists w. split; [done|]. split; [done|reflexivity]. }
  wstep. apply Forall_cons in Hb as [Hb0 Hb]. destruct (IH (take_input w)) as (w' & E & Hi' & Q); [|done|].
  { intros i x Hx. rewrite input_at_take. by apply Hi. }
  rewrite (bind_Ret _ _ _ _ _ E). exists w'. split; [|split; [done|]].
  - rewrite next_input_at, (Hi 0%nat b eq_refl), u8_small by lia. done.
  - etransitivity; [apply quiet_take|done].
Qed.

(** A device with a chip select on a bus of the board. *)
Definition on_hardware_bus (d : spidev_s) : Prop :=
  (exists c, spi_union d = SB_config c) /\ has (spi_flags d) SF_SOFTWARE = false /\
  has (spi_flags d) SF_HARDWARE = true.

(** A transfer is quiet before and after its bytes are read. *)
Lemma spidev_transfer_around oid d r data w :
  obj_at w oid = Some (O_spidev d) -> on_hardware_bus d ->
  exists w1, quiet w w1 /\ (forall i, input_at w1 i = input_at w i) /\
    forall l w2, (if r =? 0 then ret data else read_bytes (length data)) w1 = Ret l w2 ->
      exists w3, spidev_transfer oid r data w = Ret l w3 /\ quiet w2 w3 /\
        forall i, input_at w3 i = input_at w2 i.
Proof.
  intros Ho ((c & Hc) & Hs & Hh). unfold spidev_transfer, spi_prepare, spi_transfer, gpio_out_write.
  repeat wstep. assert (has (spi_flags d) (Z.lor SF_SOFTWARE SF_HARDWARE) = true) as ->.
  { unfold has in *. rewrite Z.land_lor_distr_r. apply negb_true_iff, Z.eqb_neq.
    apply negb_true_iff, Z.eqb_neq in Hh. intros E. apply Z.lor_eq_0_iff in E. lia. }
  rewrite Hs, Hc, andb_false_r. cbn [negb]. repeat wstep.
  assert (Hpin : forall v (k : unit -> M world (list Z)) w,
    exists w', bind (when (has (spi_flags d) SF_HAVE_PIN) (emit (Ev_out_write (spi_pin d) v))) k w = k tt w' /\
      quiet w w' /\ forall i, input_at w' i = input_at w i).
  { intros v k w0. destruct (has (spi_flags d) SF_HAVE_PIN).
    - eexists. split; [by wstep|]. split; [by apply quiet_event|done].
    - exists w0. split; [by wstep|]. by split. }
  match goal with |- context [bind (when _ _) ?k ?x] =>
    destruct (Hpin (b2z (has (spi_flags d) SF_CS_ACTIVE_HIGH)) k x) as (w1 & -> & Q1 & I1) end.
  exists (put_event (Ev_spi_transfer c r data) w1). split; [|split].
  - etransitivity; [|by apply quiet_event]. etransitivity; [|exact Q1]. by apply quiet_event.
  - intros i. rewrite input_at_event. apply I1.
  - intros l w2 E. repeat wstep. destruct (r =? 0); cbn [negb]; rewrite (bind_Ret _ _ _ _ _ E).
    all: match goal with |- context [bind (when _ _) ?k ?x] =>
      destruct (Hpin (b2z (negb (has (spi_flags d) SF_CS_ACTIVE_HIGH))) k x) as (w3 & -> & Q3 & I3) end.
    all: by exists w3.
Qed.

Lemma spidev_transfer_quiet oid d r data w :
  obj_at w oid = Some (O_spidev d) -> on_hardware_bus d ->
  exists data' w', spidev_transfer oid r data w = Ret data' w' /\ length data' = length data /\
    (r <> 0 -> Forall (fun b => 0 <= b < 256) data') /\ (r = 0 -> data' = data) /\ quiet w w'.
Proof.
  intros Ho Hb. destruct (spidev_transfer_around oid d r data w Ho Hb) as (w1 & Q1 & _ & H).
  destruct (Z.eqb_spec r 0) as [->|Hr].
  - destruct (H data w1 eq_refl) as (w3 & E & Q3 & _). exists data, w3.
    do 4 (split; [done|]). by etransitivity.
  - destruct (read_bytes_run (length data) w1) as (l & w2 & E & Hl & Hby & Q2).
    destruct (H l w2 E) as (w3 & E3 & Q3 & _). exists l, w3. do 4 (split; [done|]).
    etransitivity; [exact Q1|]. by etransitivity.
Qed.

(** A transfer that receives gets the next bytes of the chip. *)
Lemma spidev_transfer_inputs oid d data l l2 w :
  obj_at w oid = Some (O_spidev d) -> on_hardware_bus d -> length l = length data ->
  inputs_are w (l ++ l2) -> Forall (fun b => 0 <= b < 256) l ->
  exists w', spidev_transfer oid 1 data w = Ret l w' /\ inputs_are w' l2 /\ quiet w w'.
Proof.
  intros Ho Hb Hl Hi Hby. destruct (spidev_transfer_around oid d 1 data w Ho Hb) as (w1 & Q1 & I1 & H).
  destruct (read_bytes_inputs w1 l l2) as (w2 & E & Hi2 & Q2); [by eapply inputs_same|done|].
  rewrite Hl in E. destruct (H l w2 E) as (w3 & E3 & Q3 & I3). exists w3.
  split; [done|]. split; [by eapply inputs_same|]. etransitivity; [exact Q1|]. by etransitivity.
Qed.

(** A busy wait reads the clock until it passes its end, which it has to do within
    [wait_fuel] readings. *)
Lemma wait_loop_ticks fuel elapsed w :
  (exists k, (k < fuel)%nat /\ elapsed (clock_at w (reads w + k)) = true) ->
  exists n, wait_loop fuel elapsed w = Ret tt (Nat.iter n tick w).
Proof.
  revert w. induction fuel as [|fuel IH]; intros w (k & Hk & He); [lia|].
  cbn [wait_loop]. wstep. destruct (elapsed (clock_now w)) eqn:E; [by exists 1%nat|].
  change (irq_poll (W := world)) with (ret (W := world) tt). wstep.
  destruct (IH (tick w)) as (n & Hr).
  - destruct k as [|k]; [exfalso; rewrite Nat.add_0_r in He; unfold clock_now, clock_at, reads in *; congruence|].
    exists k. split; [lia|]. unfold clock_at, reads in *. cbn. by rewrite <- Nat.add_succ_r.
  - exists (S n). rewrite Hr. by rewrite Nat.iter_succ_r.
Qed.

Lemma quiet_ticks n w : quiet w (Nat.iter n tick w).
Proof.
  induction n as [|n IH]; [reflexivity|]. rewrite Nat.iter_succ. etransitivity; [exact IH|apply quiet_tick].
Qed.

Lemma wait_loop_quiet fuel elapsed w :
  (exists k, (k < fuel)%nat /\ elapsed (clock_at w (reads w + k)) = true) ->
  exists w', wait_loop fuel elapsed w = Ret tt w' /\ quiet w w'.
Proof. intros (n & E)%wait_loop_ticks. eexists. split; [exact E|apply quiet_ticks]. Qed.

(** A response outside of another one. *)
Lemma sendf_Ret fmt args w :
  in_sendf (w_cmd w) = 0 ->
  sendf fmt args w = Ret tt (put_event (Ev_console (ctr_lookup_encoder fmt) args) w).
Proof.
  intros H. unfold sendf, command_sendf, cmd_gets, cmd_modify, bind, gets, modify. cbn. rewrite H. cbn.
  unfold put_event. destruct w as [[] ? ? ? ?]. cbn in *. by rewrite H.
Qed.
End bus.
