(* ===== verification/Angle.v ===== *)
(** * Magnetic angle sensors

    src/sensor_angle.c: a timer marks a sensor as due, a task queries its chip and
    stores one entry of three bytes per event, and entries are reported in blocks.
    The host takes the time of an entry from its position in the reported data. *)

From S2P Require Import Prelude Command Sched Basecmd World Bus.

Section angle.
Context {cfg : Config} {tgt : Target} {mch : Machine}.

Definition SA_CHIP_A1333 : Z := 0.
Definition SA_CHIP_AS5047D : Z := 1.
Definition SA_CHIP_TLE5012B : Z := 2.
Definition SA_CHIP_MAX : Z := 3.

Definition TCODE_ERROR : Z := 255.
Definition SE_OVERFLOW : Z := 0.
Definition SE_SCHEDULE : Z := 1.
Definition SE_SPI_TIME : Z := 2.
Definition SE_CRC : Z := 3.
Definition SE_DUP : Z := 4.
Definition SE_NO_ANGLE : Z := 5.

Definition MAX_SPI_READ_TIME : Z := timer_from_us 50.
Definition SA_PENDING : Z := 4.

(** [ARRAY_SIZE(sa->data)]. *)
Definition SA_DATA_SIZE : Z := 48.

Definition set_angle_wake (v : Z) (k : wakes) : wakes := k <| angle_wake := v |>.
Definition angle_timer (oid : Z) : tid := T_obj oid 0.

Definition angle_event (oid : Z) : M world Z :=
  a <- oget (T := spi_angle) oid ;;
  (if has (sa_flags a) SA_PENDING
   then omod oid (fun a => a <| sa_overflow ::= fun o => u8 (o + 1) |>)
   else omod oid (fun a => a <| sa_flags ::= fun f => Z.lor f SA_PENDING |>)) ;;
  sched_wake_task set_angle_wake ;;
  tmod (angle_timer oid) (fun t => t <| t_waketime ::= fun w => u32 (w + sa_rest_ticks a) |>) ;;
  ret SF_RESCHEDULE.

Definition spi_angle_zero : spi_angle := mk_spi_angle 0 0 0 0 0 0 0 0 (repeat 0 48).

Definition command_config_spi_angle (args : list Z) : M world unit :=
  let chip_type := u8 (nthZ args 2) in
  if SA_CHIP_MAX <? chip_type then shutdown "Invalid spi_angle chip type"
  else
    oid <- obj_alloc (nthZ args 0) OT_spi_angle spi_angle_zero [0] ;;
    tmod (angle_timer oid) (fun t => t <| t_func := Some F_angle_event |>) ;;
    spi <- spidev_oid_lookup (nthZ args 1) ;;
    omod oid (fun a => a <| sa_spi := spi |>) ;;
    d <- oget (T := spidev_s) spi ;;
    if spidev_have_cs_pin d =? 0 then shutdown "angle sensor requires cs pin"
    else omod oid (fun a => a <| sa_chip_type := chip_type |>).

Definition angle_report (oid : Z) : M world unit :=
  a <- oget (T := spi_angle) oid ;;
  sendf "spi_angle_data oid=%c sequence=%hu data=%*s"
    [VA_int oid; VA_int (sa_sequence a); VA_buffer (sa_data_count a) (sa_data a)] ;;
  omod oid (fun a => a <| sa_data_count := 0 |>) ;;
  omod oid (fun a => a <| sa_sequence ::= fun s => u16 (s + 1) |>).

Definition angle_check_report (oid : Z) : M world unit :=
  a <- oget (T := spi_angle) oid ;;
  when (SA_DATA_SIZE <? sa_data_count a + 3) (angle_report oid).

(** A store past the end of [data] is stuck. *)
Definition angle_add (oid tcode data : Z) : M world unit :=
  a <- oget (T := spi_angle) oid ;;
  let c := sa_data_count a in
  if SA_DATA_SIZE <? c + 3 then stuck
  else
    omod oid (fun a => a <| sa_data ::= fun d =>
      <[Z.to_nat (c + 2) := u8 (Z.shiftr data 8)]>
        (<[Z.to_nat (c + 1) := u8 data]> (<[Z.to_nat c := u8 tcode]> d)) |>) ;;
    omod oid (fun a => a <| sa_data_count ::= fun c => u8 (c + 3) |>).

Definition angle_add_error (oid error_code : Z) : M world unit :=
  angle_add oid TCODE_ERROR error_code.

(** The time of a measurement relative to its event, in units of [2^time_shift] ticks.  A
    shift by 32 or more is undefined. *)
Definition time_code (time_shift stime mtime : Z) : M world Z :=
  let tdiff := u32 (mtime - stime) in
  if time_shift =? 0 then ret tdiff
  else if 32 <=? time_shift then stuck
  else ret (Z.shiftr (u32 (tdiff + Z.shiftl 1 (time_shift - 1))) time_shift).

Definition angle_add_data (oid stime mtime angle : Z) : M world unit :=
  a <- oget (T := spi_angle) oid ;;
  tdiff <- time_code (sa_time_shift a) stime mtime ;;
  if TCODE_ERROR <=? tdiff then angle_add_error oid SE_SCHEDULE
  else angle_add oid tdiff angle.

Definition a1333_query (oid stime : Z) : M world unit :=
  a <- oget (T := spi_angle) oid ;;
  mtime1 <- timer_read_time ;;
  msg <- spidev_transfer (sa_spi a) 1 [50; 0] ;;
  mtime2 <- timer_read_time ;;
  if MAX_SPI_READ_TIME <? u32 (mtime2 - mtime1) then angle_add_error oid SE_SPI_TIME
  else if has (nthZ msg 0) 128 then angle_add_error oid SE_CRC
  else angle_add_data oid stime mtime1
         (Z.lor (Z.shiftl (nthZ msg 0) 9) (Z.shiftl (nthZ msg 1) 1)).

(** The parity of the bits of the two bytes, in bit 0. *)
Definition parity (m0 m1 : Z) : Z :=
  let p := Z.lxor m0 m1 in
  let p := Z.lxor p (Z.shiftr p 4) in
  let p := Z.lxor p (Z.shiftr p 2) in
  Z.lxor p (Z.shiftr p 1).

Definition as5047d_query (oid stime : Z) : M world unit :=
  a <- oget (T := spi_angle) oid ;;
  mtime1 <- timer_read_time ;;
  spidev_transfer (sa_spi a) 0 [127; 254] ;;
  mtime2 <- timer_read_time ;;
  if MAX_SPI_READ_TIME <? u32 (mtime2 - mtime1) then angle_add_error oid SE_SPI_TIME
  else
    msg <- spidev_transfer (sa_spi a) 1 [192; 0] ;;
    if has (parity (nthZ msg 0) (nthZ msg 1)) 1 then angle_add_error oid SE_CRC
    else if has (nthZ msg 0) 64 then angle_add_error oid SE_NO_ANGLE
    else angle_add_data oid stime mtime2
           (Z.lor (Z.shiftl (nthZ msg 0) 10) (Z.shiftl (nthZ msg 1) 2)).

Definition TLE_READ : Z := 128.
Definition TLE_READ_LATCH : Z := Z.lor TLE_READ 4.
Definition TLE_REG_AVAL : Z := 2.

Fixpoint crc8_bits (n : nat) (crc : Z) : Z :=
  match n with
  | O => crc
  | S n => crc8_bits n (u8 (if has crc 128 then Z.lxor (Z.shiftl crc 1) 29 else Z.shiftl crc 1))
  end.
Definition crc8 (crc data : Z) : Z := crc8_bits 8 (Z.lxor crc data).

Definition udelay (usecs : Z) : M world unit :=
  now <- timer_read_time ;;
  let end_ := u32 (now + timer_from_us usecs) in
  wait_loop wait_fuel (fun t => timer_is_before end_ t).

(** Data is latched on the rising chip select of an empty message; the time of that. *)
Definition tle5012b_latch (cs_pin : Z) : M world Z :=
  gpio_out_write cs_pin 0 ;;
  udelay 1 ;;
  gpio_out_write cs_pin 1 ;;
  timer_read_time.

Definition tle5012b_query (oid stime : Z) : M world unit :=
  a <- oget (T := spi_angle) oid ;;
  d <- oget (T := spidev_s) (sa_spi a) ;;
  mtime <- tle5012b_latch (spidev_get_cs_pin d) ;;
  msg <- spidev_transfer (sa_spi a) 1
           [TLE_READ_LATCH; Z.lor (Z.shiftl TLE_REG_AVAL 4) 3; 0; 0; 0; 0; 0; 0; 0; 0] ;;
  let crc := foldl crc8 5 (takeZ 6 (dropZ 2 msg)) in
  if negb (Z.land (Z.lnot crc) 255 =? nthZ msg 9) then angle_add_error oid SE_CRC
  else if negb (has (nthZ msg 8) 16) then angle_add_error oid SE_NO_ANGLE
  else if negb (has (nthZ msg 2) 128) then angle_add_error oid SE_DUP
  else if timer_from_us (32 * 32 * 1000000 / 750000) <? u32 (mtime - stime)
  then angle_add_error oid SE_SCHEDULE
  else angle_add oid (Z.land (Z.shiftr (nthZ msg 6) 1) 63)
         (Z.lor (Z.shiftl (nthZ msg 2) 9) (Z.shiftl (nthZ msg 3) 1)).

Definition command_query_spi_angle (args : list Z) : M world unit :=
  oid <- oid_lookup (nthZ args 0) OT_spi_angle ;;
  sched_del_timer (angle_timer oid) ;;
  omod oid (fun a => a <| sa_flags := 0 |>) ;;
  if nthZ args 2 =? 0 then
    a <- oget (T := spi_angle) oid ;;
    when (negb (sa_data_count a =? 0)) (angle_report oid) ;;
    a <- oget (T := spi_angle) oid ;;
    sendf "spi_angle_end oid=%c sequence=%hu" [VA_int oid; VA_int (sa_sequence a)]
  else
    tmod (angle_timer oid) (fun t => t <| t_waketime := nthZ args 1 |>) ;;
    omod oid (fun a => a <| sa_rest_ticks := nthZ args 2 |>) ;;
    omod oid (fun a => a <| sa_sequence := 0 |>) ;;
    omod oid (fun a => a <| sa_data_count := 0 |>) ;;
    omod oid (fun a => a <| sa_time_shift := u8 (nthZ args 3) |>) ;;
    sched_add_timer (angle_timer oid).

Definition command_spi_angle_transfer (args : list Z) : M world unit :=
  oid <- oid_lookup (nthZ args 0) OT_spi_angle ;;
  a <- oget (T := spi_angle) oid ;;
  let data_len := u8 (nthZ args 1) in
  '(mtime, data_len, data) <-
    (if sa_chip_type a =? SA_CHIP_TLE5012B then
       d <- oget (T := spidev_s) (sa_spi a) ;;
       mtime <- tle5012b_latch (spidev_get_cs_pin d) ;;
       data <- load_arg (nthZ args 2) data_len ;;
       data <- spidev_transfer (sa_spi a) 1 data ;;
       ret (mtime, data_len, data)
     else
       mtime1 <- timer_read_time ;;
       data <- load_arg (nthZ args 2) data_len ;;
       data <- spidev_transfer (sa_spi a) 1 data ;;
       mtime2 <- timer_read_time ;;
       let data_len := if MAX_SPI_READ_TIME <? u32 (mtime2 - mtime1) then 0 else data_len in
       ret (if sa_chip_type a =? SA_CHIP_AS5047D then mtime2 else mtime1, data_len, data)) ;;
  store_arg (nthZ args 2) data ;;
  sendf "spi_angle_transfer_response oid=%c clock=%u response=%*s"
    [VA_int oid; VA_int mtime; VA_buffer data_len data].

(** [while (overflow--)]: one error entry per event that was missed. *)
Fixpoint add_overflows (n : nat) (oid : Z) : M world unit :=
  match n with
  | O => ret tt
  | S n => angle_add_error oid SE_OVERFLOW ;; angle_check_report oid ;; add_overflows n oid
  end.

(** The dispatch on the chip in [spi_angle_task]. *)
Definition angle_query (oid chip stime : Z) : M world unit :=
  if chip =? SA_CHIP_A1333 then a1333_query oid stime
  else if chip =? SA_CHIP_AS5047D then as5047d_query oid stime
  else if chip =? SA_CHIP_TLE5012B then tle5012b_query oid stime
  else ret tt.

(** The body of the loop of [spi_angle_task]. *)
Definition angle_handle (oid : Z) : M world unit :=
  a <- oget (T := spi_angle) oid ;;
  if negb (has (sa_flags a) SA_PENDING) then ret tt
  else
    tm <- tget (angle_timer oid) ;;
    omod oid (fun a => a <| sa_flags := 0 |>) ;;
    omod oid (fun a => a <| sa_overflow := 0 |>) ;;
    let stime := u32 (t_waketime tm - sa_rest_ticks a) in
    add_overflows (Z.to_nat (sa_overflow a)) oid ;;
    angle_query oid (sa_chip_type a) stime ;;
    angle_check_report oid.

Definition spi_angle_task : M world unit :=
  woken <- sched_check_wake angle_wake set_angle_wake ;;
  if negb woken then ret tt else foreach_oid OT_spi_angle angle_handle.
End angle.
