(* ===== verification/AngleFacts.v ===== *)
(** * Properties of the angle sensors

    The host takes the time of an entry from its position in the reports, so that every
    timer event has to give exactly one entry, in order, whatever the task misses. *)

From Stdlib Require Import Ring.
From S2P Require Import Prelude Command Sched SchedFacts Basecmd BasecmdFacts World WorldFacts StepperFacts TmcuartFacts Bus BusFacts DeviceFacts Angle.

(** ** Entries *)

(** An entry: the time code and the angle or the error code. *)
Notation entry := (Z * Z)%type.
Definition entry_bytes (e : entry) : list Z := [u8 (fst e); u8 (snd e); u8 (Z.shiftr (snd e) 8)].

(** The bytes not yet reported. *)
Definition buffered (a : spi_angle) : list Z := takeZ (sa_data_count a) (sa_data a).

Definition added (e : entry) (a : spi_angle) : spi_angle :=
  let c := sa_data_count a in
  a <| sa_data ::= fun d =>
         <[Z.to_nat (c + 2) := u8 (Z.shiftr (snd e) 8)]>
           (<[Z.to_nat (c + 1) := u8 (snd e)]> (<[Z.to_nat c := u8 (fst e)]> d)) |>
    <| sa_data_count := c + 3 |>.

(** Three stores behind the first [c] elements of an array. *)
Lemma insert3 (l : list Z) (c : nat) x y z :
  (c + 3 <= length l)%nat ->
  take (c + 3) (<[(c + 2)%nat := z]> (<[(c + 1)%nat := y]> (<[c := x]> l))) = take c l ++ [x; y; z].
Proof.
  intros Hl. apply list_eq. intros i. rewrite lookup_take.
  destruct (decide (i < c)%nat) as [Hi|Hi].
  - rewrite lookup_app_l by (rewrite length_take; lia). rewrite lookup_take.
    rewrite !decide_True by lia. by rewrite !list_lookup_insert_ne by lia.
  - rewrite lookup_app_r by (rewrite length_take; lia). rewrite length_take, Nat.min_l by lia.
    destruct (decide (i < c + 3)%nat) as [Hi3|Hi3].
    + assert (i = c \/ i = c + 1 \/ i = c + 2)%nat as [->|[->| ->]] by lia.
      * rewrite !list_lookup_insert_ne by lia. rewrite list_lookup_insert_eq by lia. by rewrite Nat.sub_diag.
      * rewrite list_lookup_insert_ne by lia. rewrite list_lookup_insert_eq by (rewrite length_insert; lia).
        by replace (c + 1 - c)%nat with 1%nat by lia.
      * rewrite list_lookup_insert_eq by (rewrite !length_insert; lia).
        by replace (c + 2 - c)%nat with 2%nat by lia.
    + symmetry. apply lookup_ge_None_2. cbn. lia.
Qed.

Lemma buffered_added e a :
  length (sa_data a) = 48%nat -> 0 <= sa_data_count a <= 45 ->
  buffered (added e a) = buffered a ++ entry_bytes e.
Proof.
  intros Hl Hc. unfold buffered, added, takeZ, entry_bytes. cbn [upd sa_data sa_data_count].
  rewrite <- (insert3 (sa_data a) (Z.to_nat (sa_data_count a))) by lia.
  by rewrite !Z2Nat.inj_add by lia.
Qed.

Section angle.
Context {cfg : Config} {tgt : Target} {mch : Machine}.

(** The encoder of the reports. *)
Definition angle_encoder : command_encoder :=
  ctr_lookup_encoder "spi_angle_data oid=%c sequence=%hu data=%*s".

(** What stays as it was when the query was set up. *)
Definition same_setup (a a' : spi_angle) : Prop :=
  sa_rest_ticks a' = sa_rest_ticks a /\ sa_spi a' = sa_spi a /\
  sa_chip_type a' = sa_chip_type a /\ sa_time_shift a' = sa_time_shift a.

Lemma angle_add_Ret oid t x a w :
  obj_at w oid = Some (O_spi_angle a) -> 0 <= sa_data_count a <= 45 ->
  angle_add oid t x w = Ret tt (put_obj oid (O_spi_angle (added (t, x) a)) w).
Proof.
  intros Ho Hc. unfold angle_add, SA_DATA_SIZE. wstep.
  destruct (Z.ltb_spec 48 (sa_data_count a + 3)); [lia|]. wstep.
  erewrite omod_Ret by wget_solve. cbn [upd sa_data_count]. rewrite (u8_small (sa_data_count a + 3)) by lia.
  by rewrite put_obj_put.
Qed.

Section run.
Context (oid : Z) (w0 : world) (a0 : spi_angle) (d : spidev_s) (t0 : Z).

(** The reports and the buffer of [w] hold the entries [es] since [w0]. *)
Record acc (w : world) (a : spi_angle) (es : list entry) : Prop := {
  acc_obj : obj_at w oid = Some (O_spi_angle a);
  acc_dev : obj_at w (sa_spi a0) = Some (O_spidev d);
  acc_bus : on_hardware_bus d;
  acc_cmd : in_sendf (w_cmd w) = 0;
  acc_setup : same_setup a0 a;
  acc_len : length (sa_data a) = 48%nat;
  acc_count : exists m, (m <= 15)%nat /\ sa_data_count a = 3 * Z.of_nat m;
  acc_clock : hw_clock (w_hw w) = hw_clock (w_hw w0);
  acc_reads : (reads w0 <= reads w)%nat;
  acc_data : stream angle_encoder oid SA_DATA_SIZE w0 w (sa_sequence a) (buffered a) (es ≫= entry_bytes) }.

Lemma acc_quiet w w' a es : acc w a es -> quiet w w' -> acc w' a es.
Proof.
  intros [] Q. pose proof Q as [Qo Qt Qc Qk Qr _].
  constructor; try congruence; rewrite ?Qo, ?Qc; try done; [lia|]. by eapply stream_quiet.
Qed.

Lemma dev_ne w a es : acc w a es -> Z.to_nat oid <> Z.to_nat (sa_spi a0).
Proof. intros [Ho Hd] E. unfold obj_at in *. rewrite E in Ho. congruence. Qed.

(** An update of the object that keeps its set-up and its entries. *)
Lemma acc_put w a es a' :
  acc w a es -> same_setup a a' -> sa_data a' = sa_data a -> sa_data_count a' = sa_data_count a ->
  sa_sequence a' = sa_sequence a -> acc (put_obj oid (O_spi_angle a') w) a' es.
Proof.
  intros Ha (S1 & S2 & S3 & S4) Hd Hc Hs. pose proof (dev_ne _ _ _ Ha) as Hne.
  destruct Ha as [Ho Hdev Hbus Hcmd (? & ? & ? & ?) Hl Hcnt Hk Hr Hdat].
  constructor; try done; rewrite ?Hd, ?Hc, ?Hs; try done.
  - by eapply obj_at_put.
  - by rewrite obj_at_put_ne.
  - repeat split; congruence.
  - unfold buffered in *. by rewrite Hd, Hc.
Qed.

(** One entry is stored, and reported together with the block that it completes. *)
Lemma acc_add w a es t x :
  acc w a es ->
  exists a' w', bind (angle_add oid t x) (fun _ => angle_check_report oid) w = Ret tt w' /\
    acc w' a' (es ++ [(t, x)]) /\ sa_flags a' = sa_flags a /\ sa_overflow a' = sa_overflow a /\
    (forall tm, timer_at w' tm = timer_at w tm) /\ reads w' = reads w.
Proof.
  intros Ha. pose proof (dev_ne _ _ _ Ha) as Hne.
  destruct Ha as [Ho Hdev Hbus Hcmd Hset Hl (m & Hm & Hc) Hk Hr Hdat].
  rewrite (bind_Ret _ _ _ _ _ (angle_add_Ret oid t x a w Ho ltac:(lia))).
  pose proof (buffered_added (t, x) a Hl ltac:(lia)) as Hbuf.
  assert (Hlen : length (sa_data (added (t, x) a)) = 48%nat) by (unfold added; cbn; by rewrite !length_insert).
  set (a1 := added (t, x) a) in *. set (w1 := put_obj oid (O_spi_angle a1) w).
  assert (Ho1 : obj_at w1 oid = Some (O_spi_angle a1)) by (by eapply obj_at_put).
  assert (Hd1 : obj_at w1 (sa_spi a0) = Some (O_spidev d)) by (unfold w1; by rewrite obj_at_put_ne).
  assert (Hbytes : stream angle_encoder oid SA_DATA_SIZE w0 w1 (sa_sequence a1) (buffered a1)
                     ((es ++ [(t, x)]) ≫= entry_bytes)).
  { rewrite Hbuf, bind_app. cbn [mbind list_bind]. rewrite app_nil_r. by eapply stream_append. }
  assert (Hc1 : sa_data_count a1 = 3 * Z.of_nat (S m)) by (unfold a1, added; cbn; lia).
  unfold angle_check_report, SA_DATA_SIZE. wstep. rewrite Hc1.
  destruct (Z.ltb_spec 48 (3 * Z.of_nat (S m) + 3)) as [Hfull|Hroom]; cbn [when].
  - unfold angle_report. wstep. rewrite (bind_Ret _ _ _ _ _ (sendf_Ret _ _ w1 Hcmd)).
    wstep. erewrite omod_Ret by wget_solve. rewrite put_obj_event, put_obj_put.
    assert (m = 15%nat) as -> by lia.
    exists (a1 <| sa_data_count := 0 |> <| sa_sequence ::= fun s => u16 (s + 1) |>). eexists. split; [reflexivity|].
    split; [|by repeat split]. constructor; try done.
    + rewrite obj_at_event. by eapply obj_at_put.
    + by rewrite obj_at_event, obj_at_put_ne.
    + exists 0%nat. split; [lia|done].
    + assert (Hall : buffered a1 = sa_data a1).
      { unfold buffered, takeZ. rewrite Hc1. apply take_ge. lia. }
      unfold buffered. cbn [upd sa_data sa_data_count sa_sequence].
      eapply stream_flush; [exact Hbytes|rewrite Hall; unfold zlen; by rewrite Hlen|].
      autorewrite with wget. by rewrite Hall, Hc1.
  - eexists a1, w1. split; [reflexivity|]. split; [|by repeat split]. constructor; try done.
    exists (S m). split; [lia|done].
Qed.

(** ** A query stores one entry *)

(** The time code of a measurement [diff] ticks after its event. *)
Definition code_units (shift diff : Z) : Z :=
  if shift =? 0 then diff else Z.shiftr (u32 (diff + Z.shiftl 1 (shift - 1))) shift.

(** An entry for the event at [stime]: an error, or a measurement whose time is one of the
    clock readings [lo] to [hi] and whose time code is relative to [stime] (the tle5012b has
    its own frame counter instead, and its measurements are taken within 1365us). *)
Definition entry_for (lo hi : nat) (stime : Z) (e : entry) : Prop :=
  fst e = TCODE_ERROR \/
  exists i, (lo <= i < hi)%nat /\
    let diff := u32 (clock_at w0 i - stime) in
    if sa_chip_type a0 =? SA_CHIP_TLE5012B then diff <= timer_from_us 1365 /\ 0 <= fst e < 64
    else fst e = code_units (sa_time_shift a0) diff /\ fst e < TCODE_ERROR.

Lemma entry_for_mono lo hi lo' hi' st e :
  entry_for lo hi st e -> (lo' <= lo)%nat -> (hi <= hi')%nat -> entry_for lo' hi' st e.
Proof.
  intros [He|(i & Hi & He)] Hl Hh; [by left|]. right. exists i. split; [lia|done].
Qed.

(** A query leaves everything alone and then adds an entry. *)
Definition adds_entry (m : M world unit) (w : world) (stime : Z) : Prop :=
  exists e wq, quiet w wq /\ m w = angle_add oid (fst e) (snd e) wq /\
    entry_for (reads w) (reads wq) stime e.

Lemma adds_error c w wq m st : m w = angle_add_error oid c wq -> quiet w wq -> adds_entry m w st.
Proof. intros E Q. exists (TCODE_ERROR, c), wq. split; [done|]. split; [done|]. by left. Qed.

Lemma adds_data w wq m st i x a es :
  acc wq a es -> quiet w wq -> (reads w <= i < reads wq)%nat ->
  sa_chip_type a0 <> SA_CHIP_TLE5012B -> 0 <= sa_time_shift a0 < 32 ->
  m w = angle_add_data oid st (clock_at w0 i) x wq -> adds_entry m w st.
Proof.
  intros Ha Q Hi Hc Hs E. unfold angle_add_data in E.
  pose proof (acc_obj _ _ _ Ha) as Ho. destruct (acc_setup _ _ _ Ha) as (_ & _ & _ & Hsh).
  assert (Hg : oget oid wq = Ret a wq) by (by apply oget_Ret).
  rewrite (bind_Ret _ _ _ _ _ Hg) in E.
  assert (Ht : time_code (sa_time_shift a) st (clock_at w0 i) wq
             = Ret (code_units (sa_time_shift a0) (u32 (clock_at w0 i - st))) wq).
  { unfold time_code, code_units. rewrite Hsh. destruct (Z.eqb_spec (sa_time_shift a0) 0); [done|].
    destruct (Z.leb_spec 32 (sa_time_shift a0)); [lia|done]. }
  rewrite (bind_Ret _ _ _ _ _ Ht) in E.
  destruct (Z.leb_spec TCODE_ERROR (code_units (sa_time_shift a0) (u32 (clock_at w0 i - st)))).
  - by eapply adds_error.
  - exists (code_units (sa_time_shift a0) (u32 (clock_at w0 i - st)), x), wq.
    split; [done|]. split; [done|]. right. exists i. split; [done|].
    destruct (Z.eqb_spec (sa_chip_type a0) SA_CHIP_TLE5012B); [done|]. split; [done|by cbn [fst]].
Qed.

(** The clock passes the end of a wait of 1us within [wait_fuel] readings. *)
Definition clock_passes (w : world) : Prop :=
  forall i, exists k, (k < wait_fuel)%nat /\
    timer_is_before (u32 (clock_at w i + timer_from_us 1)) (clock_at w (S i + k)) = true.

Lemma clock_now_at w : hw_clock (w_hw w) = hw_clock (w_hw w0) -> clock_now w = clock_at w0 (reads w).
Proof. unfold clock_now, clock_at, reads. by intros ->. Qed.

Lemma transfer_acc w a es r data :
  acc w a es ->
  exists data' w', spidev_transfer (sa_spi a) r data w = Ret data' w' /\ quiet w w' /\ acc w' a es.
Proof.
  intros Ha. destruct (acc_setup _ _ _ Ha) as (_ & Hsp & _ & _). rewrite Hsp.
  destruct (spidev_transfer_quiet (sa_spi a0) d r data w (acc_dev _ _ _ Ha) (acc_bus _ _ _ Ha))
    as (data' & w' & E & _ & _ & _ & Q).
  exists data', w'. split; [done|]. split; [done|]. by eapply acc_quiet.
Qed.

Lemma a1333_adds w a es st :
  acc w a es -> sa_chip_type a0 <> SA_CHIP_TLE5012B -> 0 <= sa_time_shift a0 < 32 ->
  adds_entry (a1333_query oid st) w st.
Proof.
  intros Ha Hc Hs. pose proof (acc_obj _ _ _ Ha) as Ho.
  assert (Ha1 : acc (tick w) a es) by (eapply acc_quiet; [done|apply quiet_tick]).
  destruct (transfer_acc (tick w) a es 1 [50; 0] Ha1) as (msg & w2 & E & Q & Ha2).
  assert (Q3 : quiet w (tick w2)).
  { eapply quiet_trans; [apply quiet_tick|]. eapply quiet_trans; [exact Q|apply quiet_tick]. }
  assert (Hrun : a1333_query oid st w =
    (if MAX_SPI_READ_TIME <? u32 (clock_now w2 - clock_now w) then angle_add_error oid SE_SPI_TIME
     else if has (nthZ msg 0) 128 then angle_add_error oid SE_CRC
     else angle_add_data oid st (clock_now w)
       (Z.lor (Z.shiftl (nthZ msg 0) 9) (Z.shiftl (nthZ msg 1) 1))) (tick w2)).
  { unfold a1333_query. repeat wstep. rewrite (bind_Ret _ _ _ _ _ E). by repeat wstep. }
  destruct (MAX_SPI_READ_TIME <? u32 (clock_now w2 - clock_now w)); [by eapply adds_error|].
  destruct (has (nthZ msg 0) 128); [by eapply adds_error|].
  rewrite (clock_now_at w) in Hrun by apply Ha.
  eapply (adds_data w (tick w2) _ st (reads w)); try done.
  - eapply acc_quiet; [exact Ha2|apply quiet_tick].
  - pose proof (q_reads _ _ Q). unfold reads in *. cbn in *. lia.
Qed.

Lemma as5047d_adds w a es st :
  acc w a es -> sa_chip_type a0 <> SA_CHIP_TLE5012B -> 0 <= sa_time_shift a0 < 32 ->
  adds_entry (as5047d_query oid st) w st.
Proof.
  intros Ha Hc Hs. pose proof (acc_obj _ _ _ Ha) as Ho.
  assert (Ha1 : acc (tick w) a es) by (eapply acc_quiet; [done|apply quiet_tick]).
  destruct (transfer_acc (tick w) a es 0 [127; 254] Ha1) as (msg0 & w2 & E & Q & Ha2).
  assert (Ha3 : acc (tick w2) a es) by (eapply acc_quiet; [done|apply quiet_tick]).
  destruct (transfer_acc (tick w2) a es 1 [192; 0] Ha3) as (msg & w4 & E4 & Q4 & Ha4).
  assert (Q2 : quiet w (tick w2)).
  { eapply quiet_trans; [apply quiet_tick|]. eapply quiet_trans; [exact Q|apply quiet_tick]. }
  assert (Hrun : as5047d_query oid st w =
    if MAX_SPI_READ_TIME <? u32 (clock_now w2 - clock_now w) then angle_add_error oid SE_SPI_TIME (tick w2)
    else
     (if has (parity (nthZ msg 0) (nthZ msg 1)) 1 then angle_add_error oid SE_CRC
      else if has (nthZ msg 0) 64 then angle_add_error oid SE_NO_ANGLE
      else angle_add_data oid st (clock_now w2)
           (Z.lor (Z.shiftl (nthZ msg 0) 10) (Z.shiftl (nthZ msg 1) 2))) w4).
  { unfold as5047d_query. repeat wstep. rewrite (bind_Ret _ _ _ _ _ E). repeat wstep.
    destruct (MAX_SPI_READ_TIME <? u32 (clock_now w2 - clock_now w)); [done|].
    by rewrite (bind_Ret _ _ _ _ _ E4). }
  assert (Q5 : quiet w w4) by (by eapply quiet_trans).
  destruct (MAX_SPI_READ_TIME <? u32 (clock_now w2 - clock_now w)); [by eapply adds_error|].
  destruct (has (parity (nthZ msg 0) (nthZ msg 1)) 1); [by eapply adds_error|].
  destruct (has (nthZ msg 0) 64); [by eapply adds_error|].
  rewrite (clock_now_at w2) in Hrun by apply Ha2.
  eapply (adds_data w w4 _ st (reads w2)); try done.
  pose proof (q_reads _ _ Q). pose proof (q_reads _ _ Q4). unfold reads in *. cbn in *. lia.
Qed.

(** The latch takes the time of its last clock reading. *)
Lemma latch_run w pin :
  hw_clock (w_hw w) = hw_clock (w_hw w0) -> clock_passes w0 ->
  exists w', tle5012b_latch pin w = Ret (clock_at w0 (reads w')) (tick w') /\ quiet w w'.
Proof.
  intros Hk Hcl. set (w1 := put_event (Ev_out_write pin 0) w).
  assert (Q1 : quiet w w1) by (by apply quiet_event).
  destruct (wait_loop_quiet wait_fuel (fun t => timer_is_before (u32 (clock_now w1 + timer_from_us 1)) t) (tick w1))
    as (w2 & E2 & Q2).
  { destruct (Hcl (reads w1)) as (k & Hlt & Hb). exists k. split; [done|].
    assert (Hk1 : hw_clock (w_hw w1) = hw_clock (w_hw w0)) by exact Hk.
    rewrite (clock_now_at w1 Hk1). unfold clock_at in *. cbn [tick upd w_hw hw_clock reads hw_clock_reads] in *.
    by rewrite Hk1. }
  assert (Q3 : quiet w (put_event (Ev_out_write pin 1) w2)).
  { eapply quiet_trans; [exact Q1|]. eapply quiet_trans; [apply quiet_tick|].
    eapply quiet_trans; [exact Q2|]. by apply quiet_event. }
  exists (put_event (Ev_out_write pin 1) w2). split; [|done].
  unfold tle5012b_latch, gpio_out_write, udelay. wstep. fold w1. repeat wstep.
  rewrite (bind_Ret _ _ _ _ _ E2). wstep. rewrite <- clock_now_at; [done|].
  by rewrite (q_clock _ _ Q3).
Qed.

Lemma tle5012b_adds w a es st :
  acc w a es -> clock_passes w0 -> sa_chip_type a0 = SA_CHIP_TLE5012B ->
  adds_entry (tle5012b_query oid st) w st.
Proof.
  intros Ha Hcl Hc. pose proof (acc_obj _ _ _ Ha) as Ho. pose proof (acc_dev _ _ _ Ha) as Hd.
  destruct (acc_setup _ _ _ Ha) as (_ & Hsp & _ & _).
  destruct (latch_run w (spi_pin d) (acc_clock _ _ _ Ha) Hcl) as (w3 & Hlatch & Q3).
  assert (Ha3 : acc (tick w3) a es) by (eapply acc_quiet; [by eapply acc_quiet|apply quiet_tick]).
  destruct (transfer_acc (tick w3) a es 1
    [TLE_READ_LATCH; Z.lor (Z.shiftl TLE_REG_AVAL 4) 3; 0; 0; 0; 0; 0; 0; 0; 0] Ha3) as (msg & w4 & E4 & Q4 & Ha4).
  assert (Q5 : quiet w w4).
  { eapply quiet_trans; [exact Q3|]. eapply quiet_trans; [apply quiet_tick|done]. }
  assert (Hrun : tle5012b_query oid st w =
    (let crc := foldl crc8 5 (takeZ 6 (dropZ 2 msg)) in
     if negb (Z.land (Z.lnot crc) 255 =? nthZ msg 9) then angle_add_error oid SE_CRC
     else if negb (has (nthZ msg 8) 16) then angle_add_error oid SE_NO_ANGLE
     else if negb (has (nthZ msg 2) 128) then angle_add_error oid SE_DUP
     else if timer_from_us (32 * 32 * 1000000 / 750000) <? u32 (clock_at w0 (reads w3) - st)
     then angle_add_error oid SE_SCHEDULE
     else angle_add oid (Z.land (Z.shiftr (nthZ msg 6) 1) 63)
         (Z.lor (Z.shiftl (nthZ msg 2) 9) (Z.shiftl (nthZ msg 3) 1))) w4).
  { unfold tle5012b_query. wstep. rewrite Hsp. wstep. unfold spidev_get_cs_pin.
    rewrite (bind_Ret _ _ _ _ _ Hlatch). rewrite Hsp in E4. by rewrite (bind_Ret _ _ _ _ _ E4). }
  cbv zeta in Hrun. destruct (negb _); [by eapply adds_error|].
  destruct (negb _); [by eapply adds_error|]. destruct (negb _); [by eapply adds_error|].
  change (timer_from_us (32 * 32 * 1000000 / 750000)) with (timer_from_us 1365) in Hrun.
  destruct (Z.ltb_spec (timer_from_us 1365) (u32 (clock_at w0 (reads w3) - st))); [by eapply adds_error|].
  eexists (_, _), w4. split; [done|]. split; [exact Hrun|]. right. exists (reads w3). split.
  - pose proof (q_reads _ _ Q3). pose proof (q_reads _ _ Q4). unfold reads in *. cbn in *. lia.
  - rewrite Hc. cbn [Z.eqb fst]. split; [done|].
    change 63 with (Z.ones 6). rewrite Z.land_ones by lia. by apply Z.mod_pos_bound.
Qed.

Lemma query_adds w a es st :
  acc w a es -> clock_passes w0 -> 0 <= sa_chip_type a0 < SA_CHIP_MAX -> 0 <= sa_time_shift a0 < 32 ->
  adds_entry (angle_query oid (sa_chip_type a0) st) w st.
Proof.
  intros Ha Hcl Hc Hs. unfold angle_query.
  destruct (Z.eqb_spec (sa_chip_type a0) SA_CHIP_A1333) as [E|].
  { eapply a1333_adds; [done|by rewrite E|done]. }
  destruct (Z.eqb_spec (sa_chip_type a0) SA_CHIP_AS5047D) as [E|].
  { eapply as5047d_adds; [done|by rewrite E|done]. }
  destruct (Z.eqb_spec (sa_chip_type a0) SA_CHIP_TLE5012B) as [E|]; [by eapply tle5012b_adds|].
  unfold SA_CHIP_A1333, SA_CHIP_AS5047D, SA_CHIP_TLE5012B, SA_CHIP_MAX in *. lia.
Qed.

(** ** The task *)

Lemma overflows_run n w a es :
  acc w a es ->
  exists a' w', add_overflows n oid w = Ret tt w' /\
    acc w' a' (es ++ repeat (TCODE_ERROR, SE_OVERFLOW) n) /\
    sa_flags a' = sa_flags a /\ sa_overflow a' = sa_overflow a /\
    (forall tm, timer_at w' tm = timer_at w tm) /\ reads w' = reads w.
Proof.
  revert w a es. induction n as [|n IH]; intros w a es Ha; cbn [add_overflows repeat].
  { exists a, w. rewrite app_nil_r. do 2 (split; [done|]). by repeat split. }
  destruct (acc_add w a es TCODE_ERROR SE_OVERFLOW Ha) as (a1 & w1 & E & Ha1 & F1 & O1 & T1 & R1).
  rewrite <- bind_bind. unfold angle_add_error. rewrite (bind_Ret _ _ _ _ _ E).
  destruct (IH _ _ _ Ha1) as (a2 & w2 & -> & Ha2 & F2 & O2 & T2 & R2).
  exists a2, w2. rewrite <- app_assoc in Ha2. split; [done|]. split; [exact Ha2|].
  split; [congruence|]. split; [congruence|]. split; [|congruence].
  intros tm. by rewrite T2, T1.
Qed.

(** The entries [es] of [n] events: the event [k] was due at [t0 + k * rest_ticks]. *)
Definition due (k : nat) : Z := u32 (t0 + Z.of_nat k * sa_rest_ticks a0).
Definition entries_ok (w : world) (es : list entry) : Prop :=
  forall k e, es !! k = Some e -> entry_for (reads w0) (reads w) (due k) e.

Record tracked (w : world) (a : spi_angle) (es : list entry) (n p : nat) : Prop := {
  tr_acc : acc w a es;
  tr_timer : exists tv, timer_at w (angle_timer oid) = Some tv /\ t_waketime tv = due n;
  tr_pending : sa_flags a = (if (p =? 0)%nat then 0 else SA_PENDING) /\
               sa_overflow a = Z.of_nat (pred p);
  tr_count : (length es + p = n)%nat;
  tr_entries : entries_ok w es }.

Lemma event_run w a es n p :
  tracked w a es n p -> (p < 256)%nat ->
  exists a' w', angle_event oid w = Ret SF_RESCHEDULE w' /\ tracked w' a' es (S n) (S p).
Proof.
  intros [Ha (tv & Ht & Hw) [Hf Hov] Hn He] Hp. pose proof (acc_obj _ _ _ Ha) as Ho.
  destruct (acc_setup _ _ _ Ha) as (Hrest & _).
  assert (Hdue : u32 (t_waketime tv + sa_rest_ticks a) = due (S n)).
  { rewrite Hw, Hrest. unfold due, u32. rewrite Zplus_mod_idemp_l. f_equal. lia. }
  set (a' := if (p =? 0)%nat then a <| sa_flags := SA_PENDING |>
             else a <| sa_overflow := Z.of_nat p |>).
  assert (Hrun : angle_event oid w = Ret SF_RESCHEDULE
    (put_timer (angle_timer oid) (tv <| t_waketime := due (S n) |>)
       (woken set_angle_wake (put_obj oid (O_spi_angle a') w)))).
  { unfold angle_event. wstep. rewrite Hf, <- Hdue. unfold a'. destruct p as [|p]; cbn [Nat.eqb].
    - replace (has 0 SA_PENDING) with false by done. repeat wstep. cbn [upd sa_flags]. by rewrite Hf.
    - replace (has SA_PENDING SA_PENDING) with true by done. repeat wstep.
      replace (Z.of_nat (S p)) with (u8 (sa_overflow a + 1)); [done|].
      rewrite Hov, u8_small; cbn [pred]; lia. }
  eexists a', _. split; [exact Hrun|].
  assert (Ha' : acc (put_obj oid (O_spi_angle a') w) a' es).
  { apply (acc_put w a); try done; unfold a', same_setup; by destruct (p =? 0)%nat. }
  constructor; try done; try lia.
  - destruct Ha'. by constructor.
  - exists (tv <| t_waketime := due (S n) |>). split; [|done]. apply timer_at_put.
  - unfold a'. cbn [Nat.eqb pred]. destruct p as [|p]; cbn [Nat.eqb upd sa_flags sa_overflow] in *; [by rewrite Hov|].
    by rewrite Hf.
Qed.

(** What a pass of the task leaves behind: an entry for every event so far. *)
Lemma handle_run w a es n p :
  tracked w a es n p -> (p <= 256)%nat -> clock_passes w0 -> 0 <= sa_chip_type a0 < SA_CHIP_MAX ->
  0 <= sa_time_shift a0 < 32 ->
  exists a' w' es', angle_handle oid w = Ret tt w' /\ tracked w' a' (es ++ es') n 0.
Proof.
  intros [Ha (tv & Ht & Hw) [Hf Hov] Hn He] Hp Hcl Hc Hs. pose proof (acc_obj _ _ _ Ha) as Ho.
  destruct (acc_setup _ _ _ Ha) as (Hrest & _ & Hchip & _).
  unfold angle_handle. wstep. rewrite Hf. destruct p as [|p]; cbn [Nat.eqb].
  { replace (has 0 SA_PENDING) with false by done. exists a, w, []. rewrite app_nil_r.
    split; [done|]. constructor; eauto. }
  replace (has SA_PENDING SA_PENDING) with true by done. cbn [negb]. repeat wstep. cbn [pred] in Hov.
  set (a1 := a <| sa_flags := 0 |> <| sa_overflow := 0 |>).
  assert (Ha1 : acc (put_obj oid (O_spi_angle a1) w) a1 es) by (by apply (acc_put w a)).
  destruct (overflows_run (Z.to_nat (sa_overflow a)) _ _ _ Ha1) as (a2 & w2 & E2 & Ha2 & F2 & O2 & T2 & R2).
  unfold a1 in E2. rewrite (bind_Ret _ _ _ _ _ E2), Hchip.
  set (st := u32 (t_waketime tv - sa_rest_ticks a)).
  destruct (query_adds w2 a2 _ st Ha2 Hcl Hc Hs) as (e & wq & Q & Hm & Hentry).
  destruct (acc_add wq a2 _ (fst e) (snd e) (acc_quiet _ _ _ _ Ha2 Q)) as (a3 & w3 & E3 & Ha3 & F3 & O3 & T3 & R3).
  exists a3, w3, (repeat (TCODE_ERROR, SE_OVERFLOW) (Z.to_nat (sa_overflow a)) ++ [e]).
  split; [unfold bind in *; by rewrite Hm|].
  replace (fst e, snd e) with e in Ha3 by (by destruct e). rewrite app_assoc.
  assert (Hst : st = due (n - 1)).
  { unfold st, due. rewrite Hw, Hrest. unfold due, u32. rewrite Zminus_mod_idemp_l.
    rewrite Nat2Z.inj_sub by lia. f_equal. ring. }
  constructor; [done| | | |].
  - exists tv. split; [|done]. rewrite T3, (q_timer _ _ Q), T2. done.
  - split; [by rewrite F3, F2|by rewrite O3, O2].
  - rewrite !length_app, repeat_length. cbn. lia.
  - pose proof (q_reads _ _ Q). intros k x. rewrite lookup_app_Some. intros [Hk|[Hk Hx]].
    + apply lookup_app_Some in Hk as [Hk|[_ Hk]].
      * eapply entry_for_mono; [by apply He|lia|]. rewrite R3. etransitivity; [|exact H]. by rewrite R2.
      * left. apply list_elem_of_lookup_2, list_elem_of_In, repeat_spec in Hk. by subst.
    + rewrite length_app, repeat_length in Hk, Hx. destruct (k - _)%nat as [|?] eqn:Ek; [|done].
      cbn in Hx. injection Hx as <-. replace k with (n - 1)%nat by lia. rewrite <- Hst.
      eapply entry_for_mono; [exact Hentry| |by rewrite R3]. apply (acc_reads _ _ _ Ha2).
Qed.
End run.

(** ** Any interleaving of events and passes of the task *)

Inductive angle_op : Type := Op_event | Op_task.

Fixpoint angle_run (oid : Z) (ops : list angle_op) : M world unit :=
  match ops with
  | [] => ret tt
  | Op_event :: ops => angle_event oid ;; angle_run oid ops
  | Op_task :: ops => angle_handle oid ;; angle_run oid ops
  end.

Lemma angle_run_app oid l k w :
  angle_run oid (l ++ k) w = bind (angle_run oid l) (fun _ => angle_run oid k) w.
Proof.
  revert w. induction l as [|[] l IH]; intros w; cbn [app angle_run]; [done|..];
    rewrite bind_bind; unfold bind at 1 2.
  - destruct (angle_event oid w); [apply IH|done..].
  - destruct (angle_handle oid w); [apply IH|done..].
Qed.

Fixpoint events (ops : list angle_op) : nat :=
  match ops with
  | [] => 0
  | Op_event :: ops => S (events ops)
  | Op_task :: ops => events ops
  end.

(** The task runs at least once in 256 events ([p] since the last pass), which is what the
    8-bit count of missed events can tell apart. *)
Fixpoint gaps_ok (p : nat) (ops : list angle_op) : bool :=
  match ops with
  | [] => true
  | Op_event :: ops => (p <? 256)%nat && gaps_ok (S p) ops
  | Op_task :: ops => gaps_ok 0 ops
  end.

Lemma run_tracked oid w0 a0 d t0 ops w a es n p :
  tracked oid w0 a0 d t0 w a es n p -> clock_passes w0 ->
  0 <= sa_chip_type a0 < SA_CHIP_MAX -> 0 <= sa_time_shift a0 < 32 ->
  gaps_ok p ops = true -> (p <= 256)%nat ->
  exists a' w' es' p', angle_run oid ops w = Ret tt w' /\ (p' <= 256)%nat /\
    tracked oid w0 a0 d t0 w' a' es' (n + events ops) p'.
Proof.
  intros Ht Hcl Hc Hs. revert w a es n p Ht.
  induction ops as [|[] ops IH]; intros w a es n p Ht Hg Hp; cbn [angle_run gaps_ok] in *.
  - exists a, w, es, p. by rewrite Nat.add_0_r.
  - apply andb_true_iff in Hg as [Hlt%Nat.ltb_lt Hg].
    destruct (event_run _ _ _ _ _ _ _ _ _ _ Ht Hlt) as (a1 & w1 & E & Ht1).
    rewrite (bind_Ret _ _ _ _ _ E). destruct (IH _ _ _ _ _ Ht1 Hg Hlt) as (a2 & w2 & es2 & p2 & R & Hp2 & Ht2).
    exists a2, w2, es2, p2. split; [done|]. split; [done|]. cbn [events].
    by rewrite Nat.add_succ_r.
  - destruct (handle_run _ _ _ _ _ _ _ _ _ _ Ht Hp Hcl Hc Hs) as (a1 & w1 & e1 & E & Ht1).
    rewrite (bind_Ret _ _ _ _ _ E). by apply (IH _ _ _ _ _ Ht1 Hg ltac:(lia)).
Qed.

End angle.

(** ** Witnesses: an as5047d on a bus of the board *)

Definition demo_chip : spidev_s := mk_spidev (SB_config 3) 9 (Z.lor SF_HAVE_PIN SF_HARDWARE).
Definition demo_angle (flags overflow : Z) : spi_angle :=
  mk_spi_angle 1000 0 0 flags SA_CHIP_AS5047D 0 2 overflow (repeat 0 48).
Definition angle_world (a : spi_angle) : world :=
  (uart_world demo_idle (Some F_angle_event) (repeat 33 40))
    <| w_base ::= fun b => b
         <| oids := Some [mk_oid (Some OT_spi) (Some (O_spidev demo_chip));
                          mk_oid (Some OT_spi_angle) (Some (O_spi_angle a))] |>
         <| oid_count := 2 |> |>
    <| w_sched ::= fun s => s <| timers ::= <[T_obj 1 0 := mk_timer None (Some F_angle_event) 4294967000]> |> |>.

Lemma demo_clock_passes a : clock_passes (cfg := edge_config) (mch := demo_machine) (angle_world a).
Proof.
  intros i. exists 0%nat. split; [cbn; lia|]. unfold clock_at. cbn [angle_world uart_world demo_world upd w_hw hw_clock].
  replace (u32 (u32 (100 * Z.of_nat i) + timer_from_us (H := edge_config) 1)) with (u32 (100 * Z.of_nat i + 16))
    by (change (timer_from_us (H := edge_config) 1) with 16; unfold u32; by rewrite Zplus_mod_idemp_l).
  rewrite timer_is_before_spec by lia. apply Z.ltb_lt. lia.
Qed.


(** ** Boundary cases *)

(** [command_query_spi_angle] does not reset the count of missed events: when a query ends
    with missed events, the next one starts with an entry too many, and every measurement of
    it is dated one sample too late for each of them. *)
Example stale_overflow_shifts_entries :
  exists w1 w2 a1 a2,
    command_query_spi_angle (tgt := demo_target) [1; 5000; 1000; 2]
      (angle_world (demo_angle SA_PENDING 1)) = Ret tt w1 /\
    obj_at w1 1 = Some (O_spi_angle a1) /\ sa_overflow a1 = 1 /\ sa_sequence a1 = 0 /\
    angle_run (cfg := edge_config) (tgt := demo_target) (mch := demo_machine) 1 [Op_event; Op_task] w1
    = Ret tt w2 /\
    obj_at w2 1 = Some (O_spi_angle a2) /\ sa_data_count a2 = 6.
Proof.
  do 4 eexists. split; [vm_compute; reflexivity|]. split; [vm_compute; reflexivity|].
  split; [vm_compute; reflexivity|]. split; [vm_compute; reflexivity|].
  split; [vm_compute; reflexivity|]. split; vm_compute; reflexivity.
Qed.

(** The chip type after the last one is accepted, and its events give no entries. *)
Example unknown_chip_accepted :
  exists w1, command_config_spi_angle (tgt := demo_target) [1; 0; SA_CHIP_MAX]
    ((angle_world (demo_angle 0 0)) <| w_base ::= fun b => b
       <| oids := Some [mk_oid (Some OT_spi) (Some (O_spidev demo_chip)); mk_oid None None] |>
       <| move_list := 0 |> <| move_count := 0 |> |>) = Ret tt w1 /\
  exists w2 a2, angle_run (cfg := edge_config) (tgt := demo_target) (mch := demo_machine) 1 [Op_event; Op_task]
      (angle_world (demo_angle 0 0 <| sa_chip_type := SA_CHIP_MAX |>)) = Ret tt w2 /\
    obj_at w2 1 = Some (O_spi_angle a2) /\ sa_data_count a2 = 0 /\ sa_flags a2 = 0.
Proof.
  eexists. split; [vm_compute; reflexivity|]. do 2 eexists. split; [vm_compute; reflexivity|].
  split; [vm_compute; reflexivity|]. split; vm_compute; reflexivity.
Qed.

(** The constant that stands for the checksum of the two command bytes. *)
Example tle5012b_command_crc :
  crc8 (crc8 255 TLE_READ_LATCH) (Z.lor (Z.shiftl TLE_REG_AVAL 4) 3) = 5.
Proof. reflexivity. Qed.

(** The folded parity of a reply is the parity of its 16 bits. *)
Lemma parity_spec m0 m1 :
  0 <= m0 < 256 -> 0 <= m1 < 256 ->
  has (parity m0 m1) 1 = foldr xorb false (Z.testbit (Z.lor (Z.shiftl m0 8) m1) <$> seqZ 0 16).
Proof.
  intros H0 H1.
  assert (Hb : forall i, 0 <= i -> Z.testbit (Z.lor (Z.shiftl m0 8) m1) i
    = if i <? 8 then Z.testbit m1 i else Z.testbit m0 (i - 8)).
  { intros i Hi. rewrite Z.lor_spec. destruct (Z.ltb_spec i 8).
    - by rewrite Z.shiftl_spec_low by lia.
    - rewrite Z.shiftl_spec by lia. rewrite (Z.bits_above_log2 m1 i), orb_false_r; [done|lia|].
      destruct (Z.eq_dec m1 0) as [->|]; [cbn; lia|]. apply Z.log2_lt_pow2; [lia|].
      apply Z.lt_le_trans with (2 ^ 8); [lia|]. apply Z.pow_le_mono_r; lia. }
  assert (Hp : has (parity m0 m1) 1 = Z.testbit (parity m0 m1) 0).
  { unfold has. rewrite <- (Z.shiftr_0_r (parity m0 m1)) at 1. rewrite shiftr_land1 by lia.
    by destruct (Z.testbit (parity m0 m1) 0). }
  rewrite Hp. unfold parity. rewrite !Z.lxor_spec, !Z.shiftr_spec, !Z.lxor_spec by lia.
  rewrite !Z.shiftr_spec, !Z.lxor_spec by lia. rewrite !Z.shiftr_spec, !Z.lxor_spec by lia.
  change (seqZ 0 16) with [0; 1; 2; 3; 4; 5; 6; 7; 8; 9; 10; 11; 12; 13; 14; 15].
  cbn [fmap list_fmap foldr]. rewrite !Hb by lia. cbn -[Z.testbit].
  repeat match goal with |- context [Z.testbit ?m ?i] =>
    let j := eval compute in i in progress change (Z.testbit m i) with (Z.testbit m j) end.
  ring.
Qed.
