(* ===== verification/Accel.v ===== *)
(** * Accelerometers

    src/sensor_adxl345.c and src/sensor_mpu9250.c: a timer starts the measurements and then
    wakes a task that moves samples from the chip into a buffer, which is reported when it is
    full.  [decode_sample] is the host's reading of a sample (klippy/extras/adxl345.py). *)

From S2P Require Import Prelude Command Sched Basecmd World Bus.

Section accel.
Context {cfg : Config} {tgt : Target} {mch : Machine}.

Definition AX_HAVE_START : Z := 1.
Definition AX_RUNNING : Z := 2.
Definition AX_PENDING : Z := 4.

Definition accel_timer (oid : Z) : tid := T_obj oid 0.

(** ** ADXL345 *)

Definition set_adxl345_wake (v : Z) (k : wakes) : wakes := k <| adxl345_wake := v |>.

(** [ARRAY_SIZE(ax->data)]. *)
Definition AX_DATA_SIZE : Z := 50.

Definition adxl345_event (oid : Z) : M world Z :=
  omod oid (fun a => a <| ax_flags ::= fun f => Z.lor f AX_PENDING |>) ;;
  sched_wake_task set_adxl345_wake ;;
  ret SF_DONE.

Definition adxl345_zero : adxl345 := mk_adxl345 0 0 0 0 0 0 (repeat 0 50).

Definition command_config_adxl345 (args : list Z) : M world unit :=
  oid <- obj_alloc (nthZ args 0) OT_adxl345 adxl345_zero [0] ;;
  tmod (accel_timer oid) (fun t => t <| t_func := Some F_adxl345_event |>) ;;
  spi <- spidev_oid_lookup (nthZ args 1) ;;
  omod oid (fun a => a <| ax_spi := spi |>).

Definition adxl_report (oid : Z) : M world unit :=
  a <- oget (T := adxl345) oid ;;
  sendf "adxl345_data oid=%c sequence=%hu data=%*s"
    [VA_int oid; VA_int (ax_sequence a); VA_buffer (ax_data_count a) (ax_data a)] ;;
  omod oid (fun a => a <| ax_data_count := 0 |>) ;;
  omod oid (fun a => a <| ax_sequence ::= fun s => u16 (s + 1) |>).

Definition adxl_status (oid time1 time2 fifo : Z) : M world unit :=
  a <- oget (T := adxl345) oid ;;
  sendf "adxl345_status oid=%c clock=%u query_ticks=%u next_sequence=%hu buffered=%c fifo=%c limit_count=%hu"
    [VA_int oid; VA_int time1; VA_int (u32 (time2 - time1)); VA_int (ax_sequence a);
     VA_int (ax_data_count a); VA_int fifo; VA_int (ax_limit_count a)].

Definition adxl_reschedule_timer (oid : Z) : M world unit :=
  a <- oget (T := adxl345) oid ;;
  now <- timer_read_time ;;
  tmod (accel_timer oid) (fun t => t <| t_waketime := u32 (now + ax_rest_ticks a) |>) ;;
  sched_add_timer (accel_timer oid).

Definition AR_POWER_CTL : Z := 45.
Definition AR_DATAX0 : Z := 50.
Definition AR_FIFO_STATUS : Z := 57.
Definition AM_READ : Z := 128.
Definition AM_MULTI : Z := 64.
Definition SET_FIFO_CTL : Z := 144.

(** The high nibble is neither all 0 nor all 1, as no sign extension has it. *)
Definition bad_sign (b : Z) : bool := has b 240 && negb (Z.land b 240 =? 240).
(** The check of a message for a glitch of the bus. *)
Definition adxl_glitch (msg : list Z) : bool :=
  bad_sign (nthZ msg 2) || bad_sign (nthZ msg 4) || bad_sign (nthZ msg 6) ||
  negb (nthZ msg 7 =? SET_FIFO_CTL) || (32 <? clear (nthZ msg 8) 128).
(** The five bytes stored for a message. *)
Definition adxl_pack (msg : list Z) : list Z :=
  if adxl_glitch msg then [255; 255; 255; 255; 255]
  else [nthZ msg 1; nthZ msg 3; nthZ msg 5;
        u8 (Z.lor (Z.land (nthZ msg 2) 31) (Z.shiftl (nthZ msg 6) 5));
        u8 (Z.lor (Z.land (nthZ msg 4) 31) (Z.land (Z.shiftl (nthZ msg 6) 2) 96))].

(** [memcpy(&data[pos], l, len)]. *)
Definition store_at (pos : Z) (l data : list Z) : list Z :=
  takeZ pos data ++ l ++ dropZ (pos + zlen l) data.

(** The first half of [adxl_query]: a sample is read and stored, and a full buffer is
    reported; the fifo status.  A store past the end of [data] is stuck. *)
Definition adxl_sample (oid : Z) : M world Z :=
  a <- oget (T := adxl345) oid ;;
  msg <- spidev_transfer (ax_spi a) 1
           [Z.lor (Z.lor AR_DATAX0 AM_READ) AM_MULTI; 0; 0; 0; 0; 0; 0; 0; 0] ;;
  let fifo_status := if adxl_glitch msg then 0 else clear (nthZ msg 8) 128 in
  (if AX_DATA_SIZE <? ax_data_count a + 5 then stuck
   else omod oid (fun a => a <| ax_data ::= store_at (ax_data_count a) (adxl_pack msg) |>)) ;;
  omod oid (fun a => a <| ax_data_count ::= fun c => u8 (c + 5) |>) ;;
  a <- oget (T := adxl345) oid ;;
  when (AX_DATA_SIZE <? ax_data_count a + 5) (adxl_report oid) ;;
  ret fifo_status.

Definition adxl_query (oid : Z) : M world unit :=
  fifo_status <- adxl_sample oid ;;
  when (31 <=? fifo_status)
    (omod oid (fun a => a <| ax_limit_count ::= fun c => u16 (c + 1) |>)) ;;
  if (1 <? fifo_status) && (fifo_status <=? 32) then sched_wake_task set_adxl345_wake
  else
    a <- oget (T := adxl345) oid ;;
    when (has (ax_flags a) AX_RUNNING)
      (sched_del_timer (accel_timer oid) ;;
       omod oid (fun a => a <| ax_flags ::= fun f => clear f AX_PENDING |>) ;;
       adxl_reschedule_timer oid).

Definition adxl_start (oid : Z) : M world unit :=
  sched_del_timer (accel_timer oid) ;;
  omod oid (fun a => a <| ax_flags := AX_RUNNING |>) ;;
  a <- oget (T := adxl345) oid ;;
  spidev_transfer (ax_spi a) 0 [AR_POWER_CTL; 8] ;;
  adxl_reschedule_timer oid.

(** The loop of [adxl_stop]: [msg[1]] at its end. *)
Fixpoint adxl_drain (n : nat) (oid last : Z) : M world Z :=
  match n with
  | O => ret last
  | S n =>
      a <- oget (T := adxl345) oid ;;
      msg <- spidev_transfer (ax_spi a) 1 [Z.lor AR_FIFO_STATUS AM_READ; 0] ;;
      let fifo_status := clear (nthZ msg 1) 128 in
      if fifo_status =? 0 then ret (nthZ msg 1)
      else
        when (fifo_status <=? 32) (adxl_query oid) ;;
        adxl_drain n oid (nthZ msg 1)
  end.

Definition adxl_stop (oid : Z) : M world unit :=
  sched_del_timer (accel_timer oid) ;;
  omod oid (fun a => a <| ax_flags := 0 |>) ;;
  a <- oget (T := adxl345) oid ;;
  end1_time <- timer_read_time ;;
  spidev_transfer (ax_spi a) 0 [AR_POWER_CTL; 0] ;;
  end2_time <- timer_read_time ;;
  last <- adxl_drain 33 oid 0 ;;
  a <- oget (T := adxl345) oid ;;
  when (negb (ax_data_count a =? 0)) (adxl_report oid) ;;
  adxl_status oid end1_time end2_time last.

Definition command_query_adxl345 (args : list Z) : M world unit :=
  oid <- oid_lookup (nthZ args 0) OT_adxl345 ;;
  if nthZ args 2 =? 0 then adxl_stop oid
  else
    sched_del_timer (accel_timer oid) ;;
    tmod (accel_timer oid) (fun t => t <| t_waketime := nthZ args 1 |>) ;;
    omod oid (fun a => a <| ax_rest_ticks := nthZ args 2 |>) ;;
    omod oid (fun a => a <| ax_flags := AX_HAVE_START |>) ;;
    omod oid (fun a => a <| ax_limit_count := 0 |> <| ax_sequence := 0 |>) ;;
    omod oid (fun a => a <| ax_data_count := 0 |>) ;;
    sched_add_timer (accel_timer oid).

Definition command_query_adxl345_status (args : list Z) : M world unit :=
  oid <- oid_lookup (nthZ args 0) OT_adxl345 ;;
  a <- oget (T := adxl345) oid ;;
  time1 <- timer_read_time ;;
  msg <- spidev_transfer (ax_spi a) 1 [Z.lor AR_FIFO_STATUS AM_READ; 0] ;;
  time2 <- timer_read_time ;;
  adxl_status oid time1 time2 (nthZ msg 1).

Definition adxl345_task : M world unit :=
  woken <- sched_check_wake adxl345_wake set_adxl345_wake ;;
  if negb woken then ret tt
  else foreach_oid OT_adxl345 (fun oid =>
    a <- oget (T := adxl345) oid ;;
    if negb (has (ax_flags a) AX_PENDING) then ret tt
    else if has (ax_flags a) AX_HAVE_START then adxl_start oid
    else adxl_query oid).

(** The host's reading of a sample; [None] is counted as an error. *)
Definition decode_sample (s : list Z) : option (Z * Z * Z) :=
  let xlow := nthZ s 0 in
  let ylow := nthZ s 1 in
  let zlow := nthZ s 2 in
  let xzhigh := nthZ s 3 in
  let yzhigh := nthZ s 4 in
  if has yzhigh 128 then None
  else Some (Z.lor xlow (Z.shiftl (Z.land xzhigh 31) 8) - Z.shiftl (Z.land xzhigh 16) 9,
             Z.lor ylow (Z.shiftl (Z.land yzhigh 31) 8) - Z.shiftl (Z.land yzhigh 16) 9,
             Z.lor (Z.lor zlow (Z.shiftl (Z.land xzhigh 224) 3)) (Z.shiftl (Z.land yzhigh 224) 6)
               - Z.shiftl (Z.land yzhigh 64) 7).

(** ** MPU9250 *)

Definition AR_FIFO_SIZE : Z := 512.
Definition AR_FIFO_EN : Z := 35.
Definition AR_USER_CTRL : Z := 106.
Definition AR_FIFO_COUNT_H : Z := 114.
Definition AR_FIFO : Z := 116.
Definition SET_ENABLE_FIFO : Z := 8.
Definition SET_DISABLE_FIFO : Z := 0.
Definition SET_USER_FIFO_RESET : Z := 4.
Definition SET_USER_FIFO_EN : Z := 64.
Definition BYTES_PER_FIFO_ENTRY : Z := 6.
(** [sizeof(mp->data)]. *)
Definition MP_DATA_SIZE : Z := 48.

Definition set_mpu9250_wake (v : Z) (k : wakes) : wakes := k <| mpu9250_wake := v |>.

Definition mp_i2c_config (oid : Z) : M world Z :=
  m <- oget (T := mpu9250) oid ;;
  d <- oget (T := i2cdev_s) (mp_i2c m) ;;
  ret (i2c_config d).

Definition get_fifo_status (oid : Z) : M world Z :=
  c <- mp_i2c_config oid ;;
  msg <- i2c_read c [AR_FIFO_COUNT_H] 2 ;;
  ret (Z.lor (Z.shiftl (Z.land 31 (nthZ msg 0)) 8) (nthZ msg 1)).

Definition mpu9250_event (oid : Z) : M world Z :=
  omod oid (fun m => m <| mp_flags ::= fun f => Z.lor f AX_PENDING |>) ;;
  sched_wake_task set_mpu9250_wake ;;
  ret SF_DONE.

Definition mpu9250_zero : mpu9250 := mk_mpu9250 0 0 0 0 0 0 (repeat 0 48).

Definition command_config_mpu9250 (args : list Z) : M world unit :=
  oid <- obj_alloc (nthZ args 0) OT_mpu9250 mpu9250_zero [0] ;;
  tmod (accel_timer oid) (fun t => t <| t_func := Some F_mpu9250_event |>) ;;
  i2c <- i2cdev_oid_lookup (nthZ args 1) ;;
  omod oid (fun m => m <| mp_i2c := i2c |>).

Definition mp9250_report (oid : Z) : M world unit :=
  m <- oget (T := mpu9250) oid ;;
  sendf "mpu9250_data oid=%c sequence=%hu data=%*s"
    [VA_int oid; VA_int (mp_sequence m); VA_buffer (mp_data_count m) (mp_data m)] ;;
  omod oid (fun m => m <| mp_data_count := 0 |>) ;;
  omod oid (fun m => m <| mp_sequence ::= fun s => u16 (s + 1) |>).

Definition mp9250_status (oid time1 time2 fifo : Z) : M world unit :=
  m <- oget (T := mpu9250) oid ;;
  sendf "mpu9250_status oid=%c clock=%u query_ticks=%u next_sequence=%hu buffered=%c fifo=%u limit_count=%hu"
    [VA_int oid; VA_int time1; VA_int (u32 (time2 - time1)); VA_int (mp_sequence m);
     VA_int (mp_data_count m); VA_int fifo; VA_int (mp_limit_count m)].

Definition mp9250_reschedule_timer (oid : Z) : M world unit :=
  m <- oget (T := mpu9250) oid ;;
  now <- timer_read_time ;;
  tmod (accel_timer oid) (fun t => t <| t_waketime := u32 (now + mp_rest_ticks m) |>) ;;
  sched_add_timer (accel_timer oid).

(** The bytes to read, in whole packets that fit in the buffer. *)
Definition bytes_to_read (fifo_bytes data_count : Z) : Z :=
  let n := if fifo_bytes <? MP_DATA_SIZE - data_count then Z.land fifo_bytes 255
           else Z.land (MP_DATA_SIZE - data_count) 255 in
  n / BYTES_PER_FIFO_ENTRY * BYTES_PER_FIFO_ENTRY.

(** The first half of [mp9250_query]: packets are read, and a full buffer is reported; the
    bytes read and the bytes in the fifo.  A store past the end of [data] is stuck. *)
Definition mp9250_sample (oid : Z) : M world (Z * Z) :=
  fifo_bytes <- get_fifo_status oid ;;
  when (AR_FIFO_SIZE - BYTES_PER_FIFO_ENTRY <=? fifo_bytes)
    (omod oid (fun m => m <| mp_limit_count ::= fun c => u16 (c + 1) |>)) ;;
  m <- oget (T := mpu9250) oid ;;
  let n := bytes_to_read fifo_bytes (mp_data_count m) in
  (if 0 <? n then
     c <- mp_i2c_config oid ;;
     data <- i2c_read c [AR_FIFO] n ;;
     (if MP_DATA_SIZE <? mp_data_count m + n then stuck
      else omod oid (fun m => m <| mp_data ::= store_at (mp_data_count m) data |>)) ;;
     omod oid (fun m => m <| mp_data_count ::= fun c => u8 (c + n) |>) ;;
     m <- oget (T := mpu9250) oid ;;
     when (MP_DATA_SIZE <? mp_data_count m + BYTES_PER_FIFO_ENTRY) (mp9250_report oid)
   else ret tt) ;;
  ret (n, fifo_bytes).

Definition mp9250_query (oid : Z) : M world unit :=
  '(n, fifo_bytes) <- mp9250_sample oid ;;
  if (0 <? n) && (n / BYTES_PER_FIFO_ENTRY <? fifo_bytes / BYTES_PER_FIFO_ENTRY)
  then sched_wake_task set_mpu9250_wake
  else
    m <- oget (T := mpu9250) oid ;;
    when (has (mp_flags m) AX_RUNNING)
      (sched_del_timer (accel_timer oid) ;;
       omod oid (fun m => m <| mp_flags ::= fun f => clear f AX_PENDING |>) ;;
       mp9250_reschedule_timer oid).

Definition mp9250_start (oid : Z) : M world unit :=
  sched_del_timer (accel_timer oid) ;;
  omod oid (fun m => m <| mp_flags := AX_RUNNING |>) ;;
  c <- mp_i2c_config oid ;;
  i2c_write c [AR_FIFO_EN; SET_DISABLE_FIFO] ;;
  i2c_write c [AR_USER_CTRL; SET_USER_FIFO_RESET] ;;
  i2c_write c [AR_USER_CTRL; SET_USER_FIFO_EN] ;;
  i2c_write c [AR_FIFO_EN; SET_ENABLE_FIFO] ;;
  mp9250_reschedule_timer oid.

(** The loop of [mp9250_stop]: the count that ends it.  The code has no bound; a chip whose
    count goes down by what is read needs no more than [8191 / 6] turns. *)
Fixpoint mp9250_drain (fuel : nat) (oid fifo_bytes : Z) : M world Z :=
  match fuel with
  | O => stuck
  | S fuel =>
      if BYTES_PER_FIFO_ENTRY <=? fifo_bytes then
        mp9250_query oid ;;
        fifo_bytes <- get_fifo_status oid ;;
        mp9250_drain fuel oid fifo_bytes
      else ret fifo_bytes
  end.

Definition mp9250_stop (oid : Z) : M world unit :=
  sched_del_timer (accel_timer oid) ;;
  omod oid (fun m => m <| mp_flags := 0 |>) ;;
  c <- mp_i2c_config oid ;;
  end1_time <- timer_read_time ;;
  i2c_write c [AR_FIFO_EN; SET_DISABLE_FIFO] ;;
  end2_time <- timer_read_time ;;
  fifo_bytes <- get_fifo_status oid ;;
  fifo_bytes <- mp9250_drain 1366 oid fifo_bytes ;;
  m <- oget (T := mpu9250) oid ;;
  when (0 <? mp_data_count m) (mp9250_report oid) ;;
  mp9250_status oid end1_time end2_time (fifo_bytes / BYTES_PER_FIFO_ENTRY).

Definition command_query_mpu9250 (args : list Z) : M world unit :=
  oid <- oid_lookup (nthZ args 0) OT_mpu9250 ;;
  if nthZ args 2 =? 0 then mp9250_stop oid
  else
    sched_del_timer (accel_timer oid) ;;
    tmod (accel_timer oid) (fun t => t <| t_waketime := nthZ args 1 |>) ;;
    omod oid (fun m => m <| mp_rest_ticks := nthZ args 2 |>) ;;
    omod oid (fun m => m <| mp_flags := AX_HAVE_START |>) ;;
    omod oid (fun m => m <| mp_limit_count := 0 |> <| mp_sequence := 0 |>) ;;
    omod oid (fun m => m <| mp_data_count := 0 |>) ;;
    sched_add_timer (accel_timer oid).

Definition command_query_mpu9250_status (args : list Z) : M world unit :=
  oid <- oid_lookup (nthZ args 0) OT_mpu9250 ;;
  time1 <- timer_read_time ;;
  c <- mp_i2c_config oid ;;
  msg <- i2c_read c [AR_FIFO_COUNT_H] 2 ;;
  time2 <- timer_read_time ;;
  let fifo_bytes := Z.lor (Z.shiftl (Z.land 31 (nthZ msg 0)) 8) (nthZ msg 1) in
  mp9250_status oid time1 time2 (fifo_bytes / BYTES_PER_FIFO_ENTRY).

Definition mpu9250_task : M world unit :=
  woken <- sched_check_wake mpu9250_wake set_mpu9250_wake ;;
  if negb woken then ret tt
  else foreach_oid OT_mpu9250 (fun oid =>
    m <- oget (T := mpu9250) oid ;;
    if negb (has (mp_flags m) AX_PENDING) then ret tt
    else if has (mp_flags m) AX_HAVE_START then mp9250_start oid
    else mp9250_query oid).
End accel.
