(* ===== verification/AccelFacts.v ===== *)
(** * Properties of the accelerometers

    A sample survives the packing by the firmware and the unpacking by the host; every
    sample read from a chip is reported once, in order and within the buffer. *)

From S2P Require Import Prelude Command Sched SchedFacts Basecmd BasecmdFacts World WorldFacts StepperFacts TmcuartFacts Bus BusFacts DeviceFacts Accel.

(** ** Packing of a sample *)

(** The bytes that pass the sign check. *)
Definition signed_bytes : list Z := filter (fun b => bad_sign b = false) (seqZ 0 256).

Definition xz_high (m2 m6 : Z) : Z := u8 (Z.lor (Z.land m2 31) (Z.shiftl m6 5)).
Definition yz_high (m4 m6 : Z) : Z := u8 (Z.lor (Z.land m4 31) (Z.land (Z.shiftl m6 2) 96)).

(** The high parts of the decoded values are those of the readings. *)
Definition high_parts_ok (m2 m4 m6 : Z) : bool :=
  let xz := xz_high m2 m6 in
  let yz := yz_high m4 m6 in
  let x := Z.shiftl (Z.land xz 31) 8 in
  let y := Z.shiftl (Z.land yz 31) 8 in
  let z := Z.lor (Z.shiftl (Z.land xz 224) 3) (Z.shiftl (Z.land yz 224) 6) in
  negb (has yz 128) &&
  (x mod 256 =? 0) && (x - Z.shiftl (Z.land xz 16) 9 =? i16 (256 * m2)) &&
  (y mod 256 =? 0) && (y - Z.shiftl (Z.land yz 16) 9 =? i16 (256 * m4)) &&
  (z mod 256 =? 0) && (z - Z.shiftl (Z.land yz 64) 7 =? i16 (256 * m6)).

Lemma high_parts_check :
  forallb (fun m2 => forallb (fun m4 => forallb (high_parts_ok m2 m4) signed_bytes) signed_bytes) signed_bytes
  = true.
Proof. vm_compute. reflexivity. Qed.

Lemma high_parts m2 m4 m6 :
  0 <= m2 < 256 -> 0 <= m4 < 256 -> 0 <= m6 < 256 ->
  bad_sign m2 = false -> bad_sign m4 = false -> bad_sign m6 = false ->
  high_parts_ok m2 m4 m6 = true.
Proof.
  intros H2 H4 H6 B2 B4 B6.
  assert (Hin : forall m, 0 <= m < 256 -> bad_sign m = false -> In m signed_bytes).
  { intros m Hm Hb. apply list_elem_of_In, list_elem_of_filter. split; [done|].
    apply elem_of_seqZ. lia. }
  pose proof high_parts_check as H. rewrite forallb_forall in H. specialize (H m2 (Hin _ H2 B2)).
  cbn beta in H. rewrite forallb_forall in H. specialize (H m4 (Hin _ H4 B4)).
  cbn beta in H. rewrite forallb_forall in H. by apply H, Hin.
Qed.

(** A byte below a multiple of 256. *)
Lemma lor_low lo h : 0 <= lo < 256 -> h mod 256 = 0 -> Z.lor lo h = lo + h.
Proof.
  intros Hl Hh. rewrite (Z.div_mod h 256), Hh, Z.add_0_r by lia.
  rewrite Z.lor_comm. change 256 with (2 ^ 8) at 1. rewrite Z.mul_comm, <- Z.shiftl_mul_pow2 by lia.
  rewrite lor_shiftl_add; lia.
Qed.

Lemma i16_low lo h : 0 <= lo < 256 -> 0 <= h < 256 -> i16 (lo + 256 * h) = lo + i16 (256 * h).
Proof. intros. wrap_lia. Qed.

(** The reading of an axis: two bytes of a message. *)
Definition reading (msg : list Z) (i : Z) : Z := i16 (nthZ msg i + 256 * nthZ msg (i + 1)).

Lemma decode_bytes xl yl zl xz yz :
  decode_sample [xl; yl; zl; xz; yz]
  = if has yz 128 then None
    else Some (Z.lor xl (Z.shiftl (Z.land xz 31) 8) - Z.shiftl (Z.land xz 16) 9,
               Z.lor yl (Z.shiftl (Z.land yz 31) 8) - Z.shiftl (Z.land yz 16) 9,
               Z.lor (Z.lor zl (Z.shiftl (Z.land xz 224) 3)) (Z.shiftl (Z.land yz 224) 6)
                 - Z.shiftl (Z.land yz 64) 7).
Proof. done. Qed.

Lemma pack_roundtrip msg :
  (forall i, 0 <= nthZ msg i < 256) ->
  decode_sample (adxl_pack msg)
  = if adxl_glitch msg then None else Some (reading msg 1, reading msg 3, reading msg 5).
Proof.
  intros Hm. unfold adxl_pack. destruct (adxl_glitch msg) eqn:G; [done|].
  unfold adxl_glitch in G. repeat (apply orb_false_iff in G as [G ?]).
  pose proof (high_parts _ _ _ (Hm 2) (Hm 4) (Hm 6) G H2 H1) as Hh.
  unfold high_parts_ok in Hh. repeat (apply andb_true_iff in Hh as [Hh ?]).
  apply negb_true_iff in Hh. rewrite decode_bytes.
  fold (xz_high (nthZ msg 2) (nthZ msg 6)) (yz_high (nthZ msg 4) (nthZ msg 6)).
  rewrite Hh, <- Z.lor_assoc. unfold reading.
  rewrite !lor_low, !i16_low by (first [apply Hm | by apply Z.eqb_eq]).
  repeat match goal with E : (_ =? _) = true |- _ => apply Z.eqb_eq in E end.
  change (1 + 1) with 2. change (3 + 1) with 4. change (5 + 1) with 6. do 3 f_equal; lia.
Qed.

(** ** The buffer *)

Lemma store_at_length pos l data :
  0 <= pos -> pos + zlen l <= zlen data -> length (store_at pos l data) = length data.
Proof.
  intros Hp Hl. unfold store_at, takeZ, dropZ, zlen in *.
  rewrite !length_app, length_take, length_drop. lia.
Qed.

Lemma store_at_prefix pos l data :
  0 <= pos -> pos + zlen l <= zlen data ->
  takeZ (pos + zlen l) (store_at pos l data) = takeZ pos data ++ l.
Proof.
  intros Hp Hl. unfold store_at, takeZ, dropZ, zlen in *. rewrite app_assoc.
  rewrite take_app_length'; [done|]. rewrite length_app, length_take. lia.
Qed.

Lemma pack_length msg : length (adxl_pack msg) = 5%nat.
Proof. unfold adxl_pack. by destruct (adxl_glitch msg). Qed.

Lemma nthZ_byte l i : Forall (fun b => 0 <= b < 256) l -> 0 <= nthZ l i < 256.
Proof.
  intros Hl. unfold nthZ. destruct (nth_in_or_default (Z.to_nat i) l 0) as [Hin| ->]; [|lia].
  rewrite Forall_forall in Hl. by apply Hl, list_elem_of_In.
Qed.

Section accel.
Context {cfg : Config} {tgt : Target} {mch : Machine}.

Definition adxl_encoder : command_encoder :=
  ctr_lookup_encoder "adxl345_data oid=%c sequence=%hu data=%*s".
Definition ax_buffered (a : adxl345) : list Z := takeZ (ax_data_count a) (ax_data a).

(** The samples [ss] taken since [w0] are in the reports and the buffer of [w], which holds up
    to [n] of them. *)
Record ax_acc (oid : Z) (w0 : world) (a0 : adxl345) (d : spidev_s) (n : nat) (w : world) (a : adxl345)
    (ss : list (list Z)) : Prop := {
  ax_obj : obj_at w oid = Some (O_adxl345 a);
  ax_dev : obj_at w (ax_spi a0) = Some (O_spidev d);
  ax_bus : on_hardware_bus d;
  ax_cmd : in_sendf (w_cmd w) = 0;
  ax_same : ax_spi a = ax_spi a0;
  ax_len : length (ax_data a) = 50%nat;
  ax_count : exists m, (m <= n)%nat /\ ax_data_count a = 5 * Z.of_nat m;
  ax_stream : stream adxl_encoder oid AX_DATA_SIZE w0 w (ax_sequence a) (ax_buffered a) (concat ss) }.

Section run.
Context (oid : Z) (w0 : world) (a0 : adxl345) (d : spidev_s).

Lemma ax_ne n w a ss : ax_acc oid w0 a0 d n w a ss -> Z.to_nat oid <> Z.to_nat (ax_spi a0).
Proof. intros [Ho Hd] E. unfold obj_at in *. rewrite E in Ho. congruence. Qed.

Lemma ax_quiet n w w' a ss : ax_acc oid w0 a0 d n w a ss -> quiet w w' -> ax_acc oid w0 a0 d n w' a ss.
Proof.
  intros [] Q. pose proof Q as [Qo _ Qc _ _ _].
  constructor; try congruence; rewrite ?Qo, ?Qc; try done. by eapply stream_quiet.
Qed.

(** A sample is stored behind the others. *)
Definition ax_stored (s : list Z) (a : adxl345) : adxl345 :=
  a <| ax_data ::= store_at (ax_data_count a) s |> <| ax_data_count := ax_data_count a + 5 |>.

Lemma ax_store w a ss s :
  ax_acc oid w0 a0 d 9 w a ss -> length s = 5%nat ->
  ax_acc oid w0 a0 d 10 (put_obj oid (O_adxl345 (ax_stored s a)) w) (ax_stored s a) (ss ++ [s]).
Proof.
  intros Ha Hs. pose proof (ax_ne _ _ _ _ Ha) as Hne.
  destruct Ha as [Ho Hdev Hbus Hcmd Hsp Hl (m & Hm & Hc) Hst].
  assert (Hzs : zlen s = 5) by (unfold zlen; by rewrite Hs).
  assert (Hzd : zlen (ax_data a) = 50) by (unfold zlen; by rewrite Hl).
  constructor; try done.
  - by eapply obj_at_put.
  - by rewrite obj_at_put_ne.
  - unfold ax_stored. cbn [upd ax_data]. rewrite store_at_length; lia.
  - exists (S m). split; [lia|]. unfold ax_stored. cbn. lia.
  - rewrite concat_app. cbn [concat]. rewrite app_nil_r. unfold ax_buffered, ax_stored.
    cbn [upd ax_data ax_data_count ax_sequence]. replace (ax_data_count a + 5) with (ax_data_count a + zlen s) by lia.
    rewrite store_at_prefix by lia. by eapply stream_append.
Qed.

(** A full buffer is reported. *)
Lemma ax_check_report w a ss :
  ax_acc oid w0 a0 d 10 w a ss ->
  exists a' w', when (AX_DATA_SIZE <? ax_data_count a + 5) (adxl_report oid) w = Ret tt w' /\
    ax_acc oid w0 a0 d 9 w' a' ss /\ ax_flags a' = ax_flags a /\ forall i, input_at w' i = input_at w i.
Proof.
  intros Ha. pose proof (ax_ne _ _ _ _ Ha) as Hne.
  destruct Ha as [Ho Hdev Hbus Hcmd Hsp Hl (m & Hm & Hc) Hst]. unfold AX_DATA_SIZE in *.
  destruct (Z.ltb_spec 50 (ax_data_count a + 5)); cbn [when].
  - unfold adxl_report. wstep. rewrite (bind_Ret _ _ _ _ _ (sendf_Ret _ _ w Hcmd)). wstep.
    erewrite omod_Ret by wget_solve. rewrite put_obj_event, put_obj_put.
    assert (m = 10%nat) as -> by lia.
    exists (a <| ax_data_count := 0 |> <| ax_sequence ::= fun s => u16 (s + 1) |>).
    eexists. split; [reflexivity|]. split; [|split; [done|intros i; by autorewrite with wget]]. constructor; try done.
    + rewrite obj_at_event. by eapply obj_at_put.
    + by rewrite obj_at_event, obj_at_put_ne.
    + exists 0%nat. split; [lia|done].
    + assert (Hall : ax_buffered a = ax_data a).
      { unfold ax_buffered, takeZ. rewrite Hc. apply take_ge. lia. }
      unfold ax_buffered. cbn [upd ax_data ax_data_count ax_sequence].
      eapply stream_flush; [exact Hst|rewrite Hall; unfold zlen; by rewrite Hl|].
      autorewrite with wget. by rewrite Hall, Hc.
  - exists a, w. split; [done|]. split; [|done]. constructor; try done. exists m. split; [lia|done].
Qed.

(** A message of the chip: nine bytes. *)
Definition is_msg (msg : list Z) : Prop := length msg = 9%nat /\ Forall (fun b => 0 <= b < 256) msg.
(** The fifo status that a query takes from a message. *)
Definition fifo_of (msg : list Z) : Z := if adxl_glitch msg then 0 else clear (nthZ msg 8) 128.

Lemma adxl_sample_run w a ss msg l2 :
  ax_acc oid w0 a0 d 9 w a ss -> is_msg msg -> inputs_are w (msg ++ l2) ->
  exists a' w', adxl_sample oid w = Ret (fifo_of msg) w' /\
    ax_acc oid w0 a0 d 9 w' a' (ss ++ [adxl_pack msg]) /\ ax_flags a' = ax_flags a /\ inputs_are w' l2.
Proof.
  intros Ha [Hl Hby] Hi. pose proof (ax_obj _ _ _ _ _ _ _ _ Ha) as Ho.
  destruct (ax_count _ _ _ _ _ _ _ _ Ha) as (m & Hm & Hc).
  unfold adxl_sample. wstep. rewrite (ax_same _ _ _ _ _ _ _ _ Ha).
  destruct (spidev_transfer_inputs (ax_spi a0) d
    [Z.lor (Z.lor AR_DATAX0 AM_READ) AM_MULTI; 0; 0; 0; 0; 0; 0; 0; 0] msg l2 w
    (ax_dev _ _ _ _ _ _ _ _ Ha) (ax_bus _ _ _ _ _ _ _ _ Ha) Hl Hi Hby) as (w1 & E & Hi1 & Q).
  rewrite (bind_Ret _ _ _ _ _ E).
  pose proof (ax_quiet _ _ _ _ _ Ha Q) as Ha1. clear Ho. pose proof (ax_obj _ _ _ _ _ _ _ _ Ha1) as Ho.
  unfold AX_DATA_SIZE. destruct (Z.ltb_spec 50 (ax_data_count a + 5)); [lia|]. repeat wstep.
  cbn [upd ax_data_count]. rewrite (u8_small (ax_data_count a + 5)) by lia.
  pose proof (ax_store _ _ _ _ Ha1 (pack_length msg)) as Ha2.
  destruct (ax_check_report _ _ _ Ha2) as (a3 & w3 & E3 & Ha3 & Hf3 & Hi3).
  exists a3, w3. split; [|split; [done|split; [done|by eapply inputs_same]]].
  change (to_obj _) with (O_adxl345 (ax_stored (adxl_pack msg) a)). by rewrite (bind_Ret _ _ _ _ _ E3).
Qed.

(** The chip has more samples behind this one. *)
Definition has_more (msg : list Z) : bool := (1 <? fifo_of msg) && (fifo_of msg <=? 32).

(** A query that has not to sleep for the next sample touches no timer. *)
Lemma adxl_query_run w a ss msg l2 :
  ax_acc oid w0 a0 d 9 w a ss -> is_msg msg -> has_more msg = true \/ has (ax_flags a) AX_RUNNING = false ->
  inputs_are w (msg ++ l2) ->
  exists a' w', adxl_query oid w = Ret tt w' /\ ax_acc oid w0 a0 d 9 w' a' (ss ++ [adxl_pack msg]) /\
    ax_flags a' = ax_flags a /\ inputs_are w' l2.
Proof.
  intros Ha Hmsg Hmore Hi. destruct (adxl_sample_run w a ss msg l2 Ha Hmsg Hi) as (a1 & w1 & E1 & Ha1 & Hf1 & Hi1).
  unfold adxl_query. rewrite (bind_Ret _ _ _ _ _ E1). fold (has_more msg).
  assert (Hlim : exists a2 w2,
    when (31 <=? fifo_of msg) (omod oid (fun a => a <| ax_limit_count ::= fun c => u16 (c + 1) |>)) w1 = Ret tt w2 /\
    ax_acc oid w0 a0 d 9 w2 a2 (ss ++ [adxl_pack msg]) /\ ax_flags a2 = ax_flags a /\ inputs_are w2 l2).
  { destruct (31 <=? fifo_of msg); cbn [when]; [|by exists a1, w1].
    exists (a1 <| ax_limit_count ::= fun c => u16 (c + 1) |>). eexists. split; [apply omod_Ret, Ha1|].
    split; [|by split; [|eapply inputs_same]]. pose proof (ax_ne _ _ _ _ Ha1) as Hne. destruct Ha1.
    constructor; [by eapply obj_at_put|by rewrite obj_at_put_ne|done..]. }
  destruct Hlim as (a2 & w2 & E2 & Ha2 & Hf2 & Hi2). rewrite (bind_Ret _ _ _ _ _ E2).
  destruct (has_more msg).
  - exists a2, (woken set_adxl345_wake w2). split; [apply wake_task_Ret|].
    split; [|by split; [|eapply inputs_same]]. destruct Ha2. by constructor.
  - destruct Hmore as [|Hrun]; [done|]. pose proof (ax_obj _ _ _ _ _ _ _ _ Ha2) as Ho2. wstep.
    rewrite Hf2, Hrun. by exists a2, w2.
Qed.
End run.

Fixpoint adxl_queries (n : nat) (oid : Z) : M world unit :=
  match n with O => ret tt | S n => adxl_query oid ;; adxl_queries n oid end.

Lemma adxl_queries_run oid w0 a0 d msgs w a ss :
  ax_acc oid w0 a0 d 9 w a ss -> Forall is_msg msgs ->
  Forall (fun msg => has_more msg = true \/ has (ax_flags a) AX_RUNNING = false) msgs ->
  inputs_are w (concat msgs) ->
  exists a' w', adxl_queries (length msgs) oid w = Ret tt w' /\
    ax_acc oid w0 a0 d 9 w' a' (ss ++ (adxl_pack <$> msgs)).
Proof.
  revert w a ss. induction msgs as [|msg msgs IH]; intros w a ss Ha Hm Hmore Hi; cbn [adxl_queries length].
  { exists a, w. cbn. by rewrite app_nil_r. }
  apply Forall_cons in Hm as [Hm1 Hm]. apply Forall_cons in Hmore as [Hmore1 Hmore].
  destruct (adxl_query_run _ _ _ _ _ _ _ _ _ Ha Hm1 Hmore1 Hi) as (a1 & w1 & E & Ha1 & Hf & Hi1).
  rewrite (bind_Ret _ _ _ _ _ E). rewrite <- Hf in Hmore.
  destruct (IH _ _ _ Ha1 Hm Hmore Hi1) as (a2 & w2 & E2 & Ha2).
  exists a2, w2. split; [done|]. rewrite <- app_assoc in Ha2. exact Ha2.
Qed.


(** ** Draining an MPU9250 *)

Definition mpu_encoder : command_encoder :=
  ctr_lookup_encoder "mpu9250_data oid=%c sequence=%hu data=%*s".
Definition mp_buffered (m : mpu9250) : list Z := takeZ (mp_data_count m) (mp_data m).

Section mpu.
Context (oid : Z) (w0 : world) (m0 : mpu9250) (d : i2cdev_s).

(** The bytes read since [w0] are in the reports and the buffer of [w], and no measurement is
    running. *)
Record mp_acc (w : world) (m : mpu9250) (bytes : list Z) : Prop := {
  mp_obj : obj_at w oid = Some (O_mpu9250 m);
  mp_dev : obj_at w (mp_i2c m0) = Some (O_i2cdev d);
  mp_cmd : in_sendf (w_cmd w) = 0;
  mp_same : mp_i2c m = mp_i2c m0;
  mp_stopped : has (mp_flags m) AX_RUNNING = false;
  mp_len : length (mp_data m) = 48%nat;
  mp_count : exists k, (k <= 7)%nat /\ mp_data_count m = 6 * Z.of_nat k;
  mp_stream : stream mpu_encoder oid MP_DATA_SIZE w0 w (mp_sequence m) (mp_buffered m) bytes }.

Lemma mp_ne w m bytes : mp_acc w m bytes -> Z.to_nat oid <> Z.to_nat (mp_i2c m0).
Proof. intros [Ho Hd] E. unfold obj_at in *. rewrite E in Ho. congruence. Qed.

Lemma mp_quiet w w' m bytes : mp_acc w m bytes -> quiet w w' -> mp_acc w' m bytes.
Proof.
  intros [] Q. pose proof Q as [Qo _ Qc _ _ _].
  constructor; try congruence; rewrite ?Qo, ?Qc; try done. by eapply stream_quiet.
Qed.

Lemma mp_read w m bytes l l2 reg :
  mp_acc w m bytes -> inputs_are w (l ++ l2) -> Forall (fun b => 0 <= b < 256) l ->
  exists w', bind (mp_i2c_config oid) (fun c => i2c_read c reg (zlen l)) w = Ret l w' /\
    inputs_are w' l2 /\ mp_acc w' m bytes.
Proof.
  intros Ha Hi Hb. pose proof (mp_obj _ _ _ Ha) as Ho. pose proof (mp_dev _ _ _ Ha) as Hd.
  unfold mp_i2c_config, i2c_read. repeat wstep. rewrite (mp_same _ _ _ Ha). repeat wstep.
  unfold zlen. rewrite Nat2Z.id.
  destruct (read_bytes_inputs (put_event (Ev_i2c_read (i2c_config d) reg (Z.of_nat (length l))) w) l l2)
    as (w' & E & Hi' & Q); [by eapply inputs_same|done|].
  exists w'. split; [exact E|]. split; [done|]. eapply mp_quiet; [|exact Q].
  eapply mp_quiet; [exact Ha|]. by apply quiet_event.
Qed.

(** The two bytes of the count. *)
Definition count_bytes (c : Z) : list Z := [c / 256; c mod 256].

Lemma fifo_status_run w m bytes c l2 :
  mp_acc w m bytes -> 0 <= c < 8192 -> inputs_are w (count_bytes c ++ l2) ->
  exists w', get_fifo_status oid w = Ret c w' /\ inputs_are w' l2 /\ mp_acc w' m bytes.
Proof.
  intros Ha Hc Hi. assert (Hq : 0 <= c / 256 < 32) by (split; [apply Z.div_pos; lia|apply Z.div_lt_upper_bound; lia]).
  pose proof (Z.mod_pos_bound c 256 ltac:(lia)) as Hr.
  destruct (mp_read w m bytes (count_bytes c) l2 [AR_FIFO_COUNT_H] Ha Hi) as (w' & E & Hi' & Ha').
  { repeat constructor; lia. }
  exists w'. split; [|done]. unfold get_fifo_status. change (zlen (count_bytes c)) with 2 in E.
  unfold bind in *. destruct (mp_i2c_config oid w) as [k w1| |]; [|done..]. rewrite E. unfold ret. f_equal.
  change (nthZ (count_bytes c) 0) with (c / 256). change (nthZ (count_bytes c) 1) with (c mod 256).
  rewrite Z.land_comm. change 31 with (Z.ones 5). rewrite Z.land_ones by lia. change (2 ^ 5) with 32.
  rewrite (Z.mod_small (c / 256)), lor_shiftl_add by (change (2 ^ 8) with 256; lia). change (2 ^ 8) with 256.
  pose proof (Z.div_mod c 256 ltac:(lia)). lia.
Qed.

(** Whole packets as far as they fit. *)
Lemma bytes_to_read_spec c k :
  0 <= c < 8192 -> (k <= 7)%nat ->
  exists j, bytes_to_read c (6 * Z.of_nat k) = 6 * Z.of_nat j /\ (k + j <= 8)%nat /\
    6 * Z.of_nat j <= c /\ (6 <= c -> (0 < j)%nat) /\
    (6 * Z.of_nat j / 6 <? c / 6 = false -> Z.of_nat j = c / 6).
Proof.
  intros Hc Hk. unfold bytes_to_read, MP_DATA_SIZE, BYTES_PER_FIFO_ENTRY.
  assert (Hs : forall x, 0 <= x < 256 -> Z.land x 255 = x).
  { intros x Hx. change 255 with (Z.ones 8). rewrite Z.land_ones, Z.mod_small by (cbn; lia). done. }
  destruct (Z.ltb_spec c (48 - 6 * Z.of_nat k)); rewrite Hs by lia.
  - exists (Z.to_nat (c / 6)). pose proof (Z.div_mod c 6 ltac:(lia)).
    pose proof (Z.mod_pos_bound c 6 ltac:(lia)). rewrite Z2Nat.id by (apply Z.div_pos; lia).
    repeat split; try lia.
  - exists (8 - k)%nat. replace (48 - 6 * Z.of_nat k) with (Z.of_nat (8 - k) * 6) by lia.
    rewrite Z.div_mul by lia. split; [lia|]. split; [lia|]. split; [lia|]. split; [lia|].
    intros Hlt%Z.ltb_ge. rewrite (Z.mul_comm 6), Z.div_mul in Hlt by lia.
    pose proof (Z.div_le_lower_bound c 6 (Z.of_nat (8 - k)) ltac:(lia) ltac:(lia)). lia.
Qed.

(** The number of buffered bytes after [n] more. *)
Definition next_count (cnt n : Z) : Z := if 48 <? cnt + n + 6 then 0 else cnt + n.

(** The packets are stored, and a full buffer is reported. *)
Lemma mp_store w m bytes k j l :
  mp_acc w m bytes -> mp_data_count m = 6 * Z.of_nat k -> (k + j <= 8)%nat -> zlen l = 6 * Z.of_nat j ->
  exists m' w',
    bind (omod oid (fun m => m <| mp_data ::= store_at (mp_data_count m) l |>)) (fun _ =>
      bind (omod oid (fun m => m <| mp_data_count ::= fun c => u8 (c + zlen l) |>)) (fun _ =>
        bind (oget (T := mpu9250) oid) (fun m =>
          when (MP_DATA_SIZE <? mp_data_count m + BYTES_PER_FIFO_ENTRY) (mp9250_report oid)))) w
    = Ret tt w' /\ mp_acc w' m' (bytes ++ l) /\
    mp_data_count m' = next_count (mp_data_count m) (zlen l) /\
    (forall i, input_at w' i = input_at w i).
Proof.
  intros Ha Hk Hj Hl. pose proof (mp_ne _ _ _ Ha) as Hne.
  destruct Ha as [Ho Hdev Hcmd Hsp Hrun Hlen _ Hst].
  assert (Hzd : zlen (mp_data m) = 48) by (unfold zlen; by rewrite Hlen).
  repeat wstep. cbn [upd mp_data_count]. rewrite (u8_small (mp_data_count m + zlen l)) by lia.
  set (m1 := m <| mp_data ::= store_at (mp_data_count m) l |> <| mp_data_count := mp_data_count m + zlen l |>).
  change (to_obj _) with (O_mpu9250 m1). set (w1 := put_obj oid (O_mpu9250 m1) w).
  assert (Ho1 : obj_at w1 oid = Some (O_mpu9250 m1)) by (by eapply obj_at_put).
  assert (Hd1 : obj_at w1 (mp_i2c m0) = Some (O_i2cdev d)) by (unfold w1; by rewrite obj_at_put_ne).
  assert (Hl1 : length (mp_data m1) = 48%nat).
  { unfold m1. cbn [upd mp_data]. rewrite store_at_length; lia. }
  assert (Hst1 : stream mpu_encoder oid MP_DATA_SIZE w0 w1 (mp_sequence m1) (mp_buffered m1) (bytes ++ l)).
  { unfold mp_buffered, m1. cbn [upd mp_data mp_data_count mp_sequence].
    rewrite store_at_prefix by lia. by eapply stream_append. }
  unfold MP_DATA_SIZE, BYTES_PER_FIFO_ENTRY.
  destruct (Z.ltb_spec 48 (mp_data_count m + zlen l + 6)); cbn [when].
  - unfold mp9250_report. wstep. rewrite (bind_Ret _ _ _ _ _ (sendf_Ret _ _ w1 Hcmd)). wstep.
    erewrite omod_Ret by wget_solve. rewrite put_obj_event, put_obj_put.
    exists (m1 <| mp_data_count := 0 |> <| mp_sequence ::= fun s => u16 (s + 1) |>).
    eexists. split; [reflexivity|]. unfold next_count.
    split; [|destruct (Z.ltb_spec 48 (mp_data_count m + zlen l + 6)); [done|lia]]. constructor; try done.
    + rewrite obj_at_event. by eapply obj_at_put.
    + by rewrite obj_at_event, obj_at_put_ne.
    + exists 0%nat. split; [lia|done].
    + assert (Hall : mp_buffered m1 = mp_data m1).
      { unfold mp_buffered, takeZ. apply take_ge. rewrite Hl1. unfold m1. cbn. lia. }
      unfold mp_buffered at 1. cbn [upd mp_data mp_data_count mp_sequence].
      eapply stream_flush; [exact Hst1|rewrite Hall; unfold zlen; by rewrite Hl1|].
      autorewrite with wget. rewrite Hall. unfold MP_DATA_SIZE.
      replace (mp_data_count m1) with 48 by (unfold m1; cbn; lia). done.
  - eexists m1, w1. split; [reflexivity|]. unfold next_count.
    split; [|destruct (Z.ltb_spec 48 (mp_data_count m + zlen l + 6)); [lia|done]]. constructor; try done.
    exists (k + j)%nat. split; [lia|]. unfold m1. cbn. lia.
Qed.

(** An update that keeps the buffer. *)
Lemma mp_put w m bytes m' :
  mp_acc w m bytes -> mp_i2c m' = mp_i2c m -> mp_flags m' = mp_flags m -> mp_data m' = mp_data m ->
  mp_data_count m' = mp_data_count m -> mp_sequence m' = mp_sequence m ->
  mp_acc (put_obj oid (O_mpu9250 m') w) m' bytes.
Proof.
  intros Ha Hi Hf Hd Hc Hs. pose proof (mp_ne _ _ _ Ha) as Hne. destruct Ha.
  constructor; try congruence; rewrite ?Hd, ?Hc, ?Hs, ?Hf; try done.
  - by eapply obj_at_put.
  - by rewrite obj_at_put_ne.
  - unfold mp_buffered in *. by rewrite Hd, Hc.
Qed.

Lemma mp_sample_run w m bytes q l2 :
  mp_acc w m bytes -> zlen q < 8192 -> 6 <= zlen q -> Forall (fun b => 0 <= b < 256) q ->
  let n := bytes_to_read (zlen q) (mp_data_count m) in
  inputs_are w (count_bytes (zlen q) ++ takeZ n q ++ l2) ->
  exists m' w', mp9250_sample oid w = Ret (n, zlen q) w' /\ mp_acc w' m' (bytes ++ takeZ n q) /\
    mp_data_count m' = next_count (mp_data_count m) n /\ inputs_are w' l2.
Proof.
  intros Ha Hq H6 Hb n Hi. assert (0 <= zlen q) by (unfold zlen; lia).
  destruct (fifo_status_run w m bytes (zlen q) _ Ha ltac:(lia) Hi) as (w1 & E1 & Hi1 & Ha1).
  unfold mp9250_sample. rewrite (bind_Ret _ _ _ _ _ E1).
  assert (Hlim : exists m1 w2,
    when (AR_FIFO_SIZE - BYTES_PER_FIFO_ENTRY <=? zlen q)
      (omod oid (fun m => m <| mp_limit_count ::= fun c => u16 (c + 1) |>)) w1 = Ret tt w2 /\
    mp_acc w2 m1 bytes /\ mp_data_count m1 = mp_data_count m /\ inputs_are w2 (takeZ n q ++ l2)).
  { pose proof (mp_obj _ _ _ Ha1) as Ho1. destruct (_ <=? zlen q); cbn [when].
    - eexists _, _. split; [apply omod_Ret; exact Ho1|]. split; [by eapply mp_put|]. by split; [|eapply inputs_same].
    - by exists m, w1. }
  destruct Hlim as (m1 & w2 & E2 & Ha2 & Hc2 & Hi2). rewrite (bind_Ret _ _ _ _ _ E2).
  pose proof (mp_obj _ _ _ Ha2) as Ho2. wstep. rewrite Hc2. fold n.
  destruct (mp_count _ _ _ Ha) as (k & Hk & Hck).
  destruct (bytes_to_read_spec (zlen q) k ltac:(lia) Hk) as (j & Hj & Hkj & Hle & Hpos & _).
  rewrite <- Hck in Hj. fold n in Hj. specialize (Hpos H6).
  assert (Hn : zlen (takeZ n q) = n).
  { unfold zlen, takeZ in *. rewrite length_take. lia. }
  destruct (Z.ltb_spec 0 n); [|lia].
  destruct (mp_read w2 m1 bytes (takeZ n q) l2 [AR_FIFO] Ha2 Hi2 (Forall_take _ _ _ Hb)) as (w3 & E3 & Hi3 & Ha3).
  rewrite Hn in E3.
  destruct (mp_store w3 m1 bytes k j (takeZ n q) Ha3) as (m4 & w4 & E4 & Ha4 & Hc4 & Hin4); [congruence|done|lia|].
  rewrite Hn in E4, Hc4. rewrite Hc2 in Hc4.
  match goal with |- context [bind ?X ?k w2] => assert (Eb : X w2 = Ret tt w4) end.
  { rewrite <- (bind_bind (mp_i2c_config oid) (fun c => i2c_read c [AR_FIFO] n)), (bind_Ret _ _ _ _ _ E3).
    unfold MP_DATA_SIZE at 1. destruct (Z.ltb_spec 48 (mp_data_count m + n)); [lia|exact E4]. }
  exists m4, w4. rewrite (bind_Ret _ _ _ _ _ Eb). split; [done|]. split; [done|]. split; [done|].
  by eapply inputs_same.
Qed.

(** Without a running measurement a query touches no timer. *)
Lemma mp_query_run w m bytes q l2 :
  mp_acc w m bytes -> zlen q < 8192 -> 6 <= zlen q -> Forall (fun b => 0 <= b < 256) q ->
  let n := bytes_to_read (zlen q) (mp_data_count m) in
  inputs_are w (count_bytes (zlen q) ++ takeZ n q ++ l2) ->
  exists m' w', mp9250_query oid w = Ret tt w' /\ mp_acc w' m' (bytes ++ takeZ n q) /\
    mp_data_count m' = next_count (mp_data_count m) n /\ inputs_are w' l2.
Proof.
  intros Ha Hq H6 Hb n Hi. destruct (mp_sample_run w m bytes q l2 Ha Hq H6 Hb Hi) as (m' & w' & E & Ha' & Hc & Hi').
  unfold mp9250_query. rewrite (bind_Ret _ _ _ _ _ E). fold n.
  destruct ((0 <? n) && _).
  - exists m', (woken set_mpu9250_wake w'). split; [apply wake_task_Ret|]. split; [|by split; [|eapply inputs_same]].
    destruct Ha'. by constructor.
  - pose proof (mp_obj _ _ _ Ha') as Ho'. exists m', w'. wstep. rewrite (mp_stopped _ _ _ Ha').
    split; [done|]. split; [done|]. by split.
Qed.
End mpu.

(** The readings that a chip with the bytes [q] in its fifo gives to [mp9250_drain], when
    [cnt] bytes are buffered: the count for the query, the bytes that it asks for, and the
    count that is left. *)
Fixpoint drain_inputs (fuel : nat) (cnt : Z) (q : list Z) : list Z :=
  match fuel with
  | O => []
  | S fuel =>
      if 6 <=? zlen q then
        let n := bytes_to_read (zlen q) cnt in
        count_bytes (zlen q) ++ takeZ n q ++ count_bytes (zlen q - n)
          ++ drain_inputs fuel (next_count cnt n) (dropZ n q)
      else []
  end.

Lemma drain_run fuel oid w0 m0 d w m bytes q :
  mp_acc oid w0 m0 d w m bytes -> zlen q < 8192 -> Forall (fun b => 0 <= b < 256) q ->
  zlen q < 6 * Z.of_nat fuel -> inputs_are w (drain_inputs fuel (mp_data_count m) q) ->
  exists m' w', mp9250_drain fuel oid (zlen q) w = Ret (zlen q mod 6) w' /\
    mp_acc oid w0 m0 d w' m' (bytes ++ takeZ (zlen q - zlen q mod 6) q).
Proof.
  revert w m bytes q. induction fuel as [|fuel IH]; intros w m bytes q Ha Hq Hb Hf Hi.
  { unfold zlen in *. lia. }
  cbn [mp9250_drain drain_inputs] in *. unfold BYTES_PER_FIFO_ENTRY.
  assert (0 <= zlen q) by (unfold zlen; lia).
  destruct (Z.leb_spec 6 (zlen q)) as [H6|H6].
  2: { exists m, w. rewrite Z.mod_small, Z.sub_diag by lia. cbn. by rewrite app_nil_r. }
  set (n := bytes_to_read (zlen q) (mp_data_count m)) in *.
  destruct (mp_query_run oid w0 m0 d w m bytes q _ Ha Hq H6 Hb Hi) as (m1 & w1 & E1 & Ha1 & Hc1 & Hi1).
  rewrite (bind_Ret _ _ _ _ _ E1). fold n in Ha1, Hc1.
  destruct (mp_count _ _ _ _ _ _ _ Ha) as (k & Hk & Hck).
  destruct (bytes_to_read_spec (zlen q) k ltac:(lia) Hk) as (j & Hj & Hkj & Hle & Hpos & _).
  rewrite <- Hck in Hj. fold n in Hj. specialize (Hpos H6).
  assert (Hz : zlen (dropZ n q) = zlen q - n) by (unfold zlen, dropZ in *; rewrite length_drop; lia).
  destruct (fifo_status_run oid w0 m0 d w1 m1 _ (zlen q - n) _ Ha1 ltac:(lia) Hi1) as (w2 & E2 & Hi2 & Ha2).
  rewrite (bind_Ret _ _ _ _ _ E2), <- Hz. rewrite <- Hc1 in Hi2.
  destruct (IH w2 m1 _ (dropZ n q) Ha2 ltac:(lia) (Forall_drop _ _ _ Hb) ltac:(lia) Hi2) as (m3 & w3 & E3 & Ha3).
  assert (Hmod : zlen (dropZ n q) mod 6 = zlen q mod 6).
  { rewrite Hz, Hj. replace (zlen q - 6 * Z.of_nat j) with (zlen q + (- Z.of_nat j) * 6) by lia.
    by rewrite Z.mod_add by lia. }
  pose proof (Z.mod_pos_bound (zlen (dropZ n q)) 6 ltac:(lia)).
  pose proof (Z.mod_le (zlen (dropZ n q)) 6 ltac:(lia) ltac:(lia)).
  exists m3, w3. rewrite <- Hmod. split; [done|].
  rewrite <- app_assoc in Ha3. replace (takeZ (zlen q - zlen (dropZ n q) mod 6) q)
    with (takeZ n q ++ takeZ (zlen (dropZ n q) - zlen (dropZ n q) mod 6) (dropZ n q)); [done|].
  unfold takeZ, dropZ in *. rewrite take_take_drop. f_equal. lia.
Qed.

(** Stopping an MPU9250 loses no measurement.  The chip has the bytes [q] in its fifo, less
    than its 13-bit count can tell, and answers with its count and with its bytes.  The loop
    of [mp9250_stop] ends with the incomplete packet in the fifo, and all complete packets
    follow, in order and within the buffer, what was reported and buffered before. *)
Theorem mpu_drain_complete oid m d q w :
  obj_at w oid = Some (O_mpu9250 m) -> obj_at w (mp_i2c m) = Some (O_i2cdev d) ->
  in_sendf (w_cmd w) = 0 -> has (mp_flags m) AX_RUNNING = false ->
  length (mp_data m) = 48%nat -> mp_data_count m = 0 -> mp_sequence m = 0 ->
  zlen q < 8192 -> Forall (fun b => 0 <= b < 256) q ->
  inputs_are w (count_bytes (zlen q) ++ drain_inputs 1366 0 q) ->
  exists w' m' blocks evs,
    (fifo_bytes <- get_fifo_status oid ;; mp9250_drain 1366 oid fifo_bytes) w
    = Ret (zlen q mod 6) w' /\
    obj_at w' oid = Some (O_mpu9250 m') /\ trace w' = trace w ++ evs /\
    reports oid evs = imap (block_report mpu_encoder oid 48) blocks /\
    Forall (fun b => zlen b = 48) blocks /\
    concat blocks ++ mp_buffered m' = takeZ (zlen q - zlen q mod 6) q.
Proof.
  intros Ho Hd Hcmd Hfl Hl Hcnt Hseq Hq Hb Hi.
  assert (Ha : mp_acc oid w m d w m []).
  { constructor; try done; [exists 0%nat; split; [lia|done]|].
    unfold mp_buffered. rewrite Hcnt, Hseq. apply stream_start. }
  assert (0 <= zlen q) by (unfold zlen; lia).
  destruct (fifo_status_run oid w m d w m [] (zlen q) _ Ha ltac:(lia) Hi) as (w1 & E1 & Hi1 & Ha1).
  rewrite <- Hcnt in Hi1. destruct (drain_run 1366 oid w m d w1 m [] q Ha1 Hq Hb ltac:(lia) Hi1) as (m' & w' & E & Ha').
  rewrite (bind_Ret _ _ _ _ _ E1).
  destruct (mp_stream _ _ _ _ _ _ _ Ha') as (bl & evs & Ht & Hr & Hbl & _ & Hc).
  exists w', m', bl, evs. split; [done|]. split; [apply Ha'|]. by repeat split.
Qed.
End accel.

(** ** Witnesses *)

Definition demo_adxl : adxl345 := mk_adxl345 1000 0 0 0 4 0 (repeat 0 50).
Definition demo_mpu : mpu9250 := mk_mpu9250 1000 2 0 0 0 0 (repeat 0 48).
Definition accel_world (inputs : list Z) : world :=
  (uart_world demo_idle None inputs)
    <| w_base ::= fun b => b
         <| oids := Some [mk_oid (Some OT_spi) (Some (O_spidev (mk_spidev (SB_config 3) 9 5)));
                          mk_oid (Some OT_adxl345) (Some (O_adxl345 demo_adxl));
                          mk_oid (Some OT_i2c) (Some (O_i2cdev (mk_i2cdev 4)));
                          mk_oid (Some OT_mpu9250) (Some (O_mpu9250 demo_mpu))] |>
         <| oid_count := 4 |> |>.

(** Two messages: the first says that there is another sample, the second is a glitch. *)
Definition demo_msgs : list (list Z) :=
  [[0; 16; 0; 240; 255; 1; 0; 144; 2]; [0; 16; 0; 16; 32; 1; 0; 144; 1]].


(** Nine packets and one byte in the fifo: a block of eight is reported. *)
Definition demo_fifo : list Z := seqZ 0 55.

Lemma mpu_drain_complete_witness :
  exists w' m' blocks,
    (fifo_bytes <- get_fifo_status 3 ;; mp9250_drain (tgt := demo_target) 1366 3 fifo_bytes)
      (accel_world (count_bytes 55 ++ drain_inputs 1366 0 demo_fifo)) = Ret 1 w' /\
    obj_at w' 3 = Some (O_mpu9250 m') /\ Forall (fun b => zlen b = 48) blocks /\
    concat blocks ++ mp_buffered m' = seqZ 0 54.
Proof.
  destruct (mpu_drain_complete (tgt := demo_target) 3 demo_mpu (mk_i2cdev 4) demo_fifo
    (accel_world (count_bytes 55 ++ drain_inputs 1366 0 demo_fifo)))
    as (w' & m' & bl & evs & Hrun & Ho & _ & _ & Hbl & Hcat).
  - reflexivity.
  - reflexivity.
  - reflexivity.
  - reflexivity.
  - reflexivity.
  - reflexivity.
  - reflexivity.
  - reflexivity.
  - apply Forall_forall. intros x Hx%elem_of_seqZ. lia.
  - intros i x Hx. unfold input_at. cbn [accel_world uart_world upd w_hw hw_input hw_input_reads demo_world].
    by apply nth_lookup_Some.
  - exists w', m', bl. split; [exact Hrun|]. split; [exact Ho|]. split; [exact Hbl|exact Hcat].
Defined.
