(* ===== verification/Display.v ===== *)
(** * Displays and LED strips

    src/lcd_st7920.c, src/lcd_hd44780.c and src/neopixel.c: chips that are driven through
    pins, with waits on the clock between the changes. *)

From S2P Require Import Prelude Command Sched Basecmd World.

Section display.
Context {cfg : Config} {tgt : Target} {mch : Machine}.

Definition nsecs_to_ticks (ns : Z) : Z := timer_from_us (u32 (ns * 1000)) / 1000000.

Definition ndelay (nsecs : Z) : M world unit :=
  if CONFIG_MACH_AVR then ret tt
  else
    now <- timer_read_time ;;
    let end_ := u32 (now + nsecs_to_ticks nsecs) in
    wait_loop wait_fuel (fun t => negb (timer_is_before t end_)).

(** [while (timer_read_time() - last < ticks) irq_poll();] *)
Definition wait_since (last ticks : Z) : M world unit :=
  wait_loop wait_fuel (fun t => negb (u32 (t - last) <? ticks)).

(** ** ST7920 *)

Definition SYNC_CMD : Z := 248.
Definition SYNC_DATA : Z := 250.

(** The loop over the bits of a byte. *)
Fixpoint st7920_xmit_bits (n : nat) (sclk sid data : Z) : M world unit :=
  match n with
  | O => ret tt
  | S n =>
      data <- (if has data 128 then gpio_out_toggle sid ;; ret (u8 (Z.lnot data)) else ret data) ;;
      ndelay 200 ;;
      gpio_out_toggle sclk ;;
      ndelay 200 ;;
      let data := u8 (Z.shiftl data 1) in
      gpio_out_toggle sclk ;;
      st7920_xmit_bits n sclk sid data
  end.

Definition st7920_xmit_byte (s : st7920) (data : Z) : M world unit :=
  st7920_xmit_bits 8 (st_sclk s) (st_sid s) data.

(** One command byte of [st7920_xmit]: the time at its end. *)
Definition st7920_xmit_cmd (s : st7920) (last_cmd_time wait_ticks cmd : Z) : M world Z :=
  st7920_xmit_byte s (Z.land cmd 240) ;;
  wait_since last_cmd_time wait_ticks ;;
  st7920_xmit_byte s (u8 (Z.shiftl cmd 4)) ;;
  timer_read_time.

(** The loop over the bytes after the first. *)
Fixpoint st7920_xmit_rest (s : st7920) (last_cmd_time : Z) (cmds : list Z) : M world Z :=
  match cmds with
  | [] => ret last_cmd_time
  | cmd :: cmds =>
      last_cmd_time <- st7920_xmit_cmd s last_cmd_time (st_cmd_wait_ticks s) cmd ;;
      st7920_xmit_rest s last_cmd_time cmds
  end.

Definition st7920_xmit (oid : Z) (cmds : list Z) : M world unit :=
  match cmds with
  | [] => ret tt
  | cmd :: cmds =>
      s <- oget (T := st7920) oid ;;
      last_cmd_time <- st7920_xmit_cmd s (st_last_cmd_time s) (st_sync_wait_ticks s) cmd ;;
      last_cmd_time <- st7920_xmit_rest s last_cmd_time cmds ;;
      omod oid (fun s => s <| st_last_cmd_time := last_cmd_time |>)
  end.

Definition st7920_zero : st7920 := mk_st7920 0 0 0 0 0.

Definition command_config_st7920 (args : list Z) : M world unit :=
  oid <- obj_alloc (nthZ args 0) OT_st7920 st7920_zero [] ;;
  sclk <- gpio_out_setup (nthZ args 2) 0 ;;
  omod oid (fun s => s <| st_sclk := sclk |>) ;;
  sid <- gpio_out_setup (nthZ args 3) 0 ;;
  omod oid (fun s => s <| st_sid := sid |>) ;;
  gpio_out_setup (nthZ args 1) 1 ;;
  if negb CONFIG_HAVE_STRICT_TIMING then
    omod oid (fun s => s <| st_sync_wait_ticks := nthZ args 4 |>) ;;
    omod oid (fun s => s <| st_cmd_wait_ticks := nthZ args 5 |>)
  else
    s <- oget (T := st7920) oid ;;
    st7920_xmit_byte s SYNC_CMD ;;
    st7920_xmit_byte s 32 ;;
    start <- timer_read_time ;;
    st7920_xmit_byte s 0 ;;
    end_ <- timer_read_time ;;
    omod oid (fun s => s <| st_last_cmd_time := end_ |>) ;;
    let diff := u32 (end_ - start) in
    when (diff <? nthZ args 4)
      (omod oid (fun s => s <| st_sync_wait_ticks := nthZ args 4 - diff |>)) ;;
    when (diff <? nthZ args 5)
      (omod oid (fun s => s <| st_cmd_wait_ticks := nthZ args 5 - diff |>)).

Definition st7920_send (sync : Z) (args : list Z) : M world unit :=
  oid <- oid_lookup (nthZ args 0) OT_st7920 ;;
  s <- oget (T := st7920) oid ;;
  st7920_xmit_byte s sync ;;
  cmds <- load_arg (nthZ args 2) (u8 (nthZ args 1)) ;;
  st7920_xmit oid cmds.
Definition command_st7920_send_cmds (args : list Z) : M world unit := st7920_send SYNC_CMD args.
Definition command_st7920_send_data (args : list Z) : M world unit := st7920_send SYNC_DATA args.

Definition st7920_shutdown : M world unit :=
  foreach_oid OT_st7920 (fun oid =>
    s <- oget (T := st7920) oid ;;
    gpio_out_write (st_sclk s) 0 ;;
    gpio_out_write (st_sid s) 0).

(** ** HD44780 *)

Definition hd44780_xmit_bits (toggle e d4 d5 d6 d7 : Z) : M world unit :=
  gpio_out_toggle e ;;
  when (has toggle 16) (gpio_out_toggle d4) ;;
  when (has toggle 32) (gpio_out_toggle d5) ;;
  when (has toggle 64) (gpio_out_toggle d6) ;;
  when (has toggle 128) (gpio_out_toggle d7) ;;
  ndelay 230 ;;
  gpio_out_toggle e.

Definition hd44780_xmit_byte (oid data : Z) : M world unit :=
  h <- oget (T := hd44780) oid ;;
  hd44780_xmit_bits (Z.lxor (hd_last h) data) (hd_e h) (hd_d4 h) (hd_d5 h) (hd_d6 h) (hd_d7 h) ;;
  omod oid (fun h => h <| hd_last := u8 (Z.shiftl data 4) |>) ;;
  ndelay (500 - 230) ;;
  hd44780_xmit_bits (Z.lxor data (u8 (Z.shiftl data 4)))
    (hd_e h) (hd_d4 h) (hd_d5 h) (hd_d6 h) (hd_d7 h).

(** The loop of [hd44780_xmit]: the time of the last byte. *)
Fixpoint hd44780_xmit_loop (oid last_cmd_time cmd_wait_ticks : Z) (data : list Z) : M world Z :=
  match data with
  | [] => ret last_cmd_time
  | b :: data =>
      wait_since last_cmd_time cmd_wait_ticks ;;
      hd44780_xmit_byte oid b ;;
      last_cmd_time <- timer_read_time ;;
      hd44780_xmit_loop oid last_cmd_time cmd_wait_ticks data
  end.

Definition hd44780_xmit (oid : Z) (data : list Z) : M world unit :=
  h <- oget (T := hd44780) oid ;;
  last_cmd_time <- hd44780_xmit_loop oid (hd_last_cmd_time h) (hd_cmd_wait_ticks h) data ;;
  omod oid (fun h => h <| hd_last_cmd_time := last_cmd_time |>).

Definition hd44780_zero : hd44780 := mk_hd44780 0 0 0 0 0 0 0 0 0.

Definition command_config_hd44780 (args : list Z) : M world unit :=
  oid <- obj_alloc (nthZ args 0) OT_hd44780 hd44780_zero [] ;;
  rs <- gpio_out_setup (nthZ args 1) 0 ;; omod oid (fun h => h <| hd_rs := rs |>) ;;
  e <- gpio_out_setup (nthZ args 2) 0 ;; omod oid (fun h => h <| hd_e := e |>) ;;
  d4 <- gpio_out_setup (nthZ args 3) 0 ;; omod oid (fun h => h <| hd_d4 := d4 |>) ;;
  d5 <- gpio_out_setup (nthZ args 4) 0 ;; omod oid (fun h => h <| hd_d5 := d5 |>) ;;
  d6 <- gpio_out_setup (nthZ args 5) 0 ;; omod oid (fun h => h <| hd_d6 := d6 |>) ;;
  d7 <- gpio_out_setup (nthZ args 6) 0 ;; omod oid (fun h => h <| hd_d7 := d7 |>) ;;
  if negb CONFIG_HAVE_STRICT_TIMING then
    omod oid (fun h => h <| hd_cmd_wait_ticks := nthZ args 7 |>)
  else
    start <- timer_read_time ;;
    hd44780_xmit_byte oid 0 ;;
    end_ <- timer_read_time ;;
    let diff := u32 (end_ - start) in
    when (diff <? nthZ args 7)
      (omod oid (fun h => h <| hd_cmd_wait_ticks := nthZ args 7 - diff |>)).

Definition hd44780_send (rs : Z) (args : list Z) : M world unit :=
  oid <- oid_lookup (nthZ args 0) OT_hd44780 ;;
  h <- oget (T := hd44780) oid ;;
  gpio_out_write (hd_rs h) rs ;;
  data <- load_arg (nthZ args 2) (u8 (nthZ args 1)) ;;
  hd44780_xmit oid data.
Definition command_hd44780_send_cmds (args : list Z) : M world unit := hd44780_send 0 args.
Definition command_hd44780_send_data (args : list Z) : M world unit := hd44780_send 1 args.

Definition hd44780_shutdown : M world unit :=
  foreach_oid OT_hd44780 (fun oid =>
    h <- oget (T := hd44780) oid ;;
    gpio_out_write (hd_rs h) 0 ;;
    gpio_out_write (hd_e h) 0 ;;
    gpio_out_write (hd_d4 h) 0 ;;
    gpio_out_write (hd_d5 h) 0 ;;
    gpio_out_write (hd_d6 h) 0 ;;
    gpio_out_write (hd_d7 h) 0 ;;
    omod oid (fun h => h <| hd_last := 0 |>)).

(** ** Neopixel strips *)

(** [neopixel_time_t] is an [unsigned int], which has 16 bits on AVR. *)
Definition neopixel_time (z : Z) : Z := if CONFIG_MACH_AVR then u16 z else u32 z.

Definition neopixel_check_elapsed (t1 t2 ticks : Z) : bool := ticks <=? neopixel_time (t2 - t1).

(** TCNT1 of AVR is the low half of the clock. *)
Definition neopixel_get_time : M world Z := t <- timer_read_time ;; ret (neopixel_time t).

Definition neopixel_delay (start ticks : Z) : M world unit :=
  if CONFIG_MACH_AVR then ret tt
  else wait_loop wait_fuel (fun t => neopixel_check_elapsed start (neopixel_time t) ticks).

Definition PULSE_LONG_TICKS : Z := neopixel_time (nsecs_to_ticks 650).
Definition PULSE_SHORT_TICKS : Z := neopixel_time (nsecs_to_ticks 200).
Definition BIT_MIN_TICKS : Z := neopixel_time (nsecs_to_ticks 1250).

Definition command_config_neopixel (args : list Z) : M world unit :=
  pin <- gpio_out_setup (nthZ args 1) 0 ;;
  let data_size := u16 (nthZ args 2) in
  if has data_size 32768 then shutdown "Invalid neopixel data_size"
  else
    oid <- obj_alloc_extra data_size (nthZ args 0) OT_neopixel
             (mk_neopixel 0 0 0 0 0 (repeat 0 (Z.to_nat data_size))) [] ;;
    omod oid (fun n => n <| np_pin := pin |>) ;;
    omod oid (fun n => n <| np_data_size := data_size |>) ;;
    omod oid (fun n => n <| np_bit_max_ticks := neopixel_time (nthZ args 3) |>) ;;
    omod oid (fun n => n <| np_reset_min_ticks := nthZ args 4 |>).

(** One bit: the time of its rising edge, or nothing when it came too late. *)
Definition send_bit (pin bit_max_ticks last_start : Z) (bit : bool) : M world (option Z) :=
  neopixel_delay last_start BIT_MIN_TICKS ;;
  start <- neopixel_get_time ;;
  gpio_out_toggle_noirq pin ;;
  if bit then
    if neopixel_check_elapsed last_start start bit_max_ticks then ret None
    else
      neopixel_delay start PULSE_LONG_TICKS ;;
      gpio_out_toggle_noirq pin ;;
      now <- neopixel_get_time ;;
      neopixel_delay now PULSE_SHORT_TICKS ;;
      ret (Some start)
  else
    neopixel_delay start PULSE_SHORT_TICKS ;;
    gpio_out_toggle_noirq pin ;;
    if neopixel_check_elapsed last_start start bit_max_ticks then ret None
    else ret (Some start).

Fixpoint send_bits (n : nat) (pin bit_max_ticks last_start byte : Z) : M world (option Z) :=
  match n with
  | O => ret (Some last_start)
  | S n =>
      r <- send_bit pin bit_max_ticks last_start (has byte 128) ;;
      match r with
      | None => ret None
      | Some start => send_bits n pin bit_max_ticks start (u8 (Z.shiftl byte 1))
      end
  end.

Fixpoint send_bytes (pin bit_max_ticks last_start : Z) (data : list Z) : M world (option Z) :=
  match data with
  | [] => ret (Some last_start)
  | byte :: data =>
      r <- send_bits 8 pin bit_max_ticks last_start byte ;;
      match r with
      | None => ret None
      | Some start => send_bytes pin bit_max_ticks start data
      end
  end.

Definition send_data (oid : Z) : M world Z :=
  n <- oget (T := neopixel_s) oid ;;
  wait_since (np_last_req_time n) (np_reset_min_ticks n) ;;
  last_start <- neopixel_get_time ;;
  r <- send_bytes (np_pin n) (np_bit_max_ticks n) last_start (takeZ (np_data_size n) (np_data n)) ;;
  match r with
  | Some _ =>
      now <- timer_read_time ;;
      omod oid (fun n => n <| np_last_req_time := now |>) ;;
      ret 0
  | None =>
      gpio_out_write (np_pin n) 0 ;;
      now <- timer_read_time ;;
      omod oid (fun n => n <| np_last_req_time := now |>) ;;
      ret (-1)
  end.

(** [uint_fast16_t] has 16 bits on AVR and 32 bits elsewhere. *)
Definition uint_fast16 (z : Z) : Z := if CONFIG_MACH_AVR then u16 z else u32 z.

(** A store outside of [data] is stuck. *)
Definition command_neopixel_update (args : list Z) : M world unit :=
  oid <- oid_lookup (nthZ args 0) OT_neopixel ;;
  n <- oget (T := neopixel_s) oid ;;
  let pos := uint_fast16 (nthZ args 1) in
  let data_len := u8 (nthZ args 2) in
  if has pos 32768 || (np_data_size n <? uint_fast16 (pos + data_len))
  then shutdown "Invalid neopixel update command"
  else
    data <- load_arg (nthZ args 3) data_len ;;
    if zlen (np_data n) <? pos + zlen data then stuck
    else omod oid (fun n => n <| np_data ::= fun d =>
           takeZ pos d ++ data ++ dropZ (pos + zlen data) d |>).

Definition command_neopixel_send (args : list Z) : M world unit :=
  oid <- oid_lookup (nthZ args 0) OT_neopixel ;;
  r <- send_data oid ;;
  sendf "neopixel_result oid=%c success=%c" [VA_int oid; VA_int (if r =? 0 then 1 else 0)].
End display.
