(* ===== verification/DisplayFacts.v ===== *)
(** * Properties of the displays

    What the chip at the other end of the pins receives. *)

From S2P Require Import Prelude Command Sched SchedFacts Basecmd BasecmdFacts World WorldFacts StepperFacts TmcuartFacts Bus BusFacts DeviceFacts Display.

(** ** Driving pins *)

(** From [w] to [w'] the pins change by [evs]; objects, command arguments and the clock stay. *)
Record drives (w w' : world) (evs : list event) : Prop := {
  dr_obj : forall o, obj_at w' o = obj_at w o;
  dr_receive : hw_receive (w_hw w') = hw_receive (w_hw w);
  dr_clock : hw_clock (w_hw w') = hw_clock (w_hw w);
  dr_trace : trace w' = trace w ++ evs }.

Lemma drives_trans w1 w2 w3 e1 e2 : drives w1 w2 e1 -> drives w2 w3 e2 -> drives w1 w3 (e1 ++ e2).
Proof.
  intros [O1 R1 C1 T1] [O2 R2 C2 T2]. constructor; try congruence. by rewrite T2, T1, app_assoc.
Qed.

Lemma drives_event e w : drives w (put_event e w) [e].
Proof. by constructor. Qed.

Lemma drives_ticks n w : drives w (Nat.iter n tick w) [].
Proof.
  induction n as [|n IH]; [by constructor; [..|rewrite app_nil_r]|].
  rewrite Nat.iter_succ. eapply (drives_trans _ _ _ [] []); [exact IH|].
  by constructor; [..|rewrite app_nil_r].
Qed.

(** The operation returns and drives the pins by [evs]. *)
Definition outputs {A} (m : M world A) (w : world) (evs : list event) : Prop :=
  exists a w', m w = Ret a w' /\ drives w w' evs.

Lemma outputs_bind {A B} (m : M world A) (k : A -> M world B) w e1 e2 :
  outputs m w e1 -> (forall a w', drives w w' e1 -> outputs (k a) w' e2) ->
  outputs (bind m k) w (e1 ++ e2).
Proof.
  intros (a & w1 & E & D1) Hk. destruct (Hk a w1 D1) as (b & w2 & E2 & D2).
  exists b, w2. rewrite (bind_Ret _ _ _ _ _ E). split; [done|]. by eapply drives_trans.
Qed.

Lemma outputs_ret {A} (a : A) w : outputs (ret a) w [].
Proof. exists a, w. split; [done|]. by constructor; [..|rewrite app_nil_r]. Qed.

Lemma outputs_same {A} (m m' : M world A) w evs : m w = m' w -> outputs m' w evs -> outputs m w evs.
Proof. intros E (a & w' & E' & D). exists a, w'. by rewrite E. Qed.

Lemma outputs_emit e w : outputs (emit e) w [e].
Proof. eexists _, _. split; [done|apply drives_event]. Qed.

Lemma outputs_time w : outputs timer_read_time w [].
Proof. eexists _, _. split; [apply read_time_Ret|]. apply (drives_ticks 1). Qed.

Section display.
Context {cfg : Config} {tgt : Target} {mch : Machine}.

(** The clock runs on: it passes the end of every wait within [wait_fuel] readings. *)
Definition clock_runs (w : world) (max_ticks : Z) : Prop :=
  forall i ticks s, 0 <= ticks <= max_ticks ->
    (exists k, (k < wait_fuel)%nat /\
       timer_is_before (clock_at w (S i + k)) (u32 (clock_at w i + ticks)) = false) /\
    (exists k, (k < wait_fuel)%nat /\ u32 (clock_at w (i + k) - s) <? ticks = false).

Lemma clock_runs_same w w' evs T : drives w w' evs -> clock_runs w T -> clock_runs w' T.
Proof. intros [_ _ Hc _] H. unfold clock_runs, clock_at in *. by rewrite Hc. Qed.

Lemma wait_since_outputs w last ticks T :
  clock_runs w T -> 0 <= ticks <= T -> outputs (wait_since last ticks) w [].
Proof.
  intros Hc Ht. destruct (Hc (reads w) ticks last Ht) as [_ (k & Hk & E)].
  destruct (wait_loop_ticks wait_fuel (fun t => negb (u32 (t - last) <? ticks)) w) as (n & En).
  { exists k. by rewrite E. }
  exists tt, (Nat.iter n tick w). split; [done|apply drives_ticks].
Qed.

Lemma ndelay_outputs w ns T :
  clock_runs w T -> 0 <= nsecs_to_ticks ns <= T -> outputs (ndelay ns) w [].
Proof.
  intros Hc Ht. unfold ndelay. destruct CONFIG_MACH_AVR; [apply outputs_ret|].
  destruct (Hc (reads w) (nsecs_to_ticks ns) 0 Ht) as [(k & Hk & E) _].
  destruct (wait_loop_ticks wait_fuel
    (fun t => negb (timer_is_before t (u32 (clock_now w + nsecs_to_ticks ns)))) (tick w)) as (n & En).
  { exists k. split; [done|]. unfold clock_now, clock_at, reads in *. cbn in *. by rewrite E. }
  exists tt, (Nat.iter n tick (tick w)). split.
  - wstep. exact En.
  - apply (drives_trans _ (tick w) _ [] []); [apply (drives_ticks 1)|apply drives_ticks].
Qed.

(** ** ST7920 *)

(** The chip samples its data line on the rising edge of the clock line. *)
Record st_chip := mk_chip { ch_sid : bool; ch_sclk : bool; ch_bits : list bool }.

Definition st_step (sclk sid : Z) (c : st_chip) (e : event) : st_chip :=
  match e with
  | Ev_out_toggle pin =>
      if pin =? sclk
      then mk_chip (ch_sid c) (negb (ch_sclk c))
             (if ch_sclk c then ch_bits c else ch_bits c ++ [ch_sid c])
      else if pin =? sid then mk_chip (negb (ch_sid c)) (ch_sclk c) (ch_bits c)
      else c
  | _ => c
  end.

(** The pin changes for the [n] highest bits of [data], relative to the level of [sid]. *)
Fixpoint st_events (sclk sid : Z) (n : nat) (data : Z) : list event :=
  match n with
  | O => []
  | S n =>
      (if Z.testbit data 7 then [Ev_out_toggle sid] else []) ++
      [Ev_out_toggle sclk; Ev_out_toggle sclk] ++
      st_events sclk sid n (u8 (Z.shiftl (if Z.testbit data 7 then u8 (Z.lnot data) else data) 1))
  end.

Lemma has128 d : has d 128 = Z.testbit d 7.
Proof. unfold has. rewrite land128. by destruct (Z.testbit d 7). Qed.

Lemma st_bits_outputs n sclk sid data w T :
  clock_runs w T -> 0 <= nsecs_to_ticks 200 <= T ->
  outputs (st7920_xmit_bits n sclk sid data) w (st_events sclk sid n data).
Proof.
  revert data w. induction n as [|n IH]; intros data w Hc Ht; [apply outputs_ret|].
  cbn [st7920_xmit_bits st_events]. rewrite has128.
  assert (Htail : forall data' w', clock_runs w' T -> outputs
    (ndelay 200 ;; gpio_out_toggle sclk ;; ndelay 200 ;;
     (let data := u8 (Z.shiftl data' 1) in gpio_out_toggle sclk ;; st7920_xmit_bits n sclk sid data))
    w' ([] ++ [Ev_out_toggle sclk] ++ [] ++ [Ev_out_toggle sclk] ++
        st_events sclk sid n (u8 (Z.shiftl data' 1)))).
  { intros data' w' Hc'. apply outputs_bind; [by eapply ndelay_outputs|]. intros _ w1 D1.
    apply outputs_bind; [apply outputs_emit|]. intros _ w2 D2.
    apply outputs_bind; [eapply ndelay_outputs; [|done]; by do 2 (eapply clock_runs_same; [eassumption|])|].
    intros _ w3 D3. apply outputs_bind; [apply outputs_emit|]. intros _ w4 D4. apply IH; [|done].
    by do 4 (eapply clock_runs_same; [eassumption|]). }
  destruct (Z.testbit data 7).
  - eapply outputs_same; [apply bind_bind|]. apply outputs_bind; [apply outputs_emit|].
    intros a w1 D1. eapply outputs_same; [apply bind_ret_l|]. apply Htail. by eapply clock_runs_same.
  - eapply outputs_same; [apply bind_ret_l|]. by apply Htail.
Qed.

(** The levels of the data line for the [n] highest bits of [data] relative to the level [b]. *)
Definition line_bits (b : bool) (n : nat) (data : Z) : list bool :=
  (fun i : nat => xorb b (Z.testbit data (7 - Z.of_nat i))) <$> seq 0 n.

Lemma line_bits_S b n data :
  (n < 8)%nat ->
  line_bits b (S n) data = xorb b (Z.testbit data 7) ::
    line_bits (xorb b (Z.testbit data 7)) n
      (u8 (Z.shiftl (if Z.testbit data 7 then u8 (Z.lnot data) else data) 1)).
Proof.
  intros Hn. unfold line_bits. cbn [seq fmap list_fmap]. f_equal.
  rewrite <- seq_shift, <- list_fmap_compose. apply list_fmap_ext. intros j i Hi%lookup_seq. cbn [compose].
  unfold u8. change 256 with (2 ^ 8). rewrite Z.mod_pow2_bits_low, Z.shiftl_spec by lia.
  replace (7 - Z.of_nat i - 1) with (7 - Z.of_nat (S i)) by lia.
  destruct (Z.testbit data 7); [|by rewrite xorb_false_r].
  rewrite Z.mod_pow2_bits_low, Z.lnot_spec by lia. by destruct b, (Z.testbit data (7 - Z.of_nat (S i))).
Qed.

(** The chip takes these bits, and its data line is left at the last of them. *)
Lemma st_chip_bits sclk sid n data b bits :
  sclk <> sid -> (n <= 8)%nat ->
  foldl (st_step sclk sid) (mk_chip b false bits) (st_events sclk sid n data)
  = mk_chip (default b (last (line_bits b n data))) false (bits ++ line_bits b n data).
Proof.
  intros Hne. revert data b bits. induction n as [|n IH]; intros data b bits Hn.
  { cbn. by rewrite app_nil_r. }
  assert (E1 : (sid =? sclk) = false) by (apply Z.eqb_neq; congruence).
  cbn [st_events]. rewrite line_bits_S by lia. rewrite !foldl_app.
  assert (Hstep : foldl (st_step sclk sid)
      (foldl (st_step sclk sid) (mk_chip b false bits) (if Z.testbit data 7 then [Ev_out_toggle sid] else []))
      [Ev_out_toggle sclk; Ev_out_toggle sclk]
    = mk_chip (xorb b (Z.testbit data 7)) false (bits ++ [xorb b (Z.testbit data 7)])).
  { destruct (Z.testbit data 7); cbn; rewrite ?E1, !Z.eqb_refl; cbn; by destruct b. }
  rewrite Hstep, IH by lia. rewrite last_cons, <- app_assoc.
  by destruct (last (line_bits _ n _)).
Qed.

(** A byte with a low last bit leaves the chip as it found it. *)
Lemma st_chip_byte sclk sid data bits :
  sclk <> sid -> Z.testbit data 0 = false ->
  foldl (st_step sclk sid) (mk_chip false false bits) (st_events sclk sid 8 data)
  = mk_chip false false (bits ++ msb_bits 8 data).
Proof.
  intros Hne H0. rewrite st_chip_bits by (done || lia).
  assert (line_bits false 8 data = msb_bits 8 data) as ->.
  { apply list_fmap_ext. intros _ i _. by rewrite xorb_false_l. }
  change (last (msb_bits 8 data)) with (Some (Z.testbit data 0)). by rewrite H0.
Qed.

(** The two bytes that carry a command byte, a nibble in the upper half of each. *)
Definition nibbles (cmd : Z) : list Z := [Z.land cmd 240; u8 (Z.shiftl cmd 4)].

Lemma nibbles_low cmd b : b ∈ nibbles cmd -> Z.testbit b 0 = false.
Proof.
  unfold nibbles. rewrite !elem_of_cons. intros [->|[->|[]%not_elem_of_nil]].
  - rewrite Z.land_spec. by rewrite andb_false_r.
  - unfold u8. change 256 with (2 ^ 8). rewrite Z.mod_pow2_bits_low by lia. by rewrite Z.shiftl_spec_low.
Qed.

Lemma st_chip_bytes sclk sid l bits :
  sclk <> sid -> (forall b, b ∈ l -> Z.testbit b 0 = false) ->
  foldl (st_step sclk sid) (mk_chip false false bits) (l ≫= st_events sclk sid 8)
  = mk_chip false false (bits ++ (l ≫= msb_bits 8)).
Proof.
  intros Hne. revert bits. induction l as [|b l IH]; intros bits Hl; cbn [mbind list_bind].
  { by rewrite app_nil_r. }
  rewrite foldl_app, st_chip_byte by (try done; apply Hl; constructor).
  rewrite IH, <- app_assoc; [done|]. intros b' Hb'. apply Hl. by constructor.
Qed.

(** ** Transmission *)

(** The waits of a display are covered by the clock. *)
Definition st_waits_ok (s : st7920) (T : Z) : Prop :=
  0 <= nsecs_to_ticks 200 <= T /\ 0 <= st_sync_wait_ticks s <= T /\ 0 <= st_cmd_wait_ticks s <= T.

Lemma st_cmd_outputs s last wait cmd w T :
  clock_runs w T -> st_waits_ok s T -> 0 <= wait <= T ->
  outputs (st7920_xmit_cmd s last wait cmd) w (nibbles cmd ≫= st_events (st_sclk s) (st_sid s) 8).
Proof.
  intros Hc (Hn & _ & _) Hw. unfold st7920_xmit_cmd, st7920_xmit_byte. cbn [nibbles mbind list_bind].
  apply outputs_bind; [by eapply st_bits_outputs|]. intros _ w1 D1.
  pose proof (clock_runs_same _ _ _ _ D1 Hc) as Hc1.
  eapply (outputs_bind _ _ _ []); [by eapply wait_since_outputs|]. intros _ w2 D2.
  pose proof (clock_runs_same _ _ _ _ D2 Hc1) as Hc2.
  apply outputs_bind; [by eapply st_bits_outputs|]. intros _ w3 D3. apply outputs_time.
Qed.

Lemma st_rest_outputs s last cmds w T :
  clock_runs w T -> st_waits_ok s T ->
  outputs (st7920_xmit_rest s last cmds) w
    ((cmds ≫= nibbles) ≫= st_events (st_sclk s) (st_sid s) 8).
Proof.
  revert last w. induction cmds as [|cmd cmds IH]; intros last w Hc Hw; [apply outputs_ret|].
  cbn [st7920_xmit_rest]. change ((cmd :: cmds) ≫= nibbles) with (nibbles cmd ++ (cmds ≫= nibbles)).
  rewrite bind_app. apply outputs_bind; [by eapply st_cmd_outputs; [..|apply Hw]|].
  intros t w1 D1. apply IH; [by eapply clock_runs_same|done].
Qed.

Lemma load_arg_same w w' ptr len l :
  hw_receive (w_hw w') = hw_receive (w_hw w) -> load_arg ptr len w = Ret l w -> load_arg ptr len w' = Ret l w'.
Proof.
  intros Hr. unfold load_arg, bind, gets. rewrite Hr.
  destruct ((0 <=? _) && _); [|done]. unfold ret. intros E. by injection E as ->.
Qed.

(** What an ST7920 receives.  With the lines of the display low, [st7920_send_cmds] and
    [st7920_send_data] return, and the chip, which samples its data line on the rising edge of
    its clock line, has read the sync byte and then, for every byte of the command, its two
    nibbles, each in the upper half of a byte, with the highest bit first; the lines are low
    again for the next command.  The inverting trick of [st7920_xmit_byte] relies on the last
    bit of every byte being 0. *)
Theorem st7920_receives_commands sync args oid s cmds T w :
  oid_lookup (nthZ args 0) OT_st7920 w = Ret oid w -> obj_at w oid = Some (O_st7920 s) ->
  load_arg (nthZ args 2) (u8 (nthZ args 1)) w = Ret cmds w ->
  sync = SYNC_CMD \/ sync = SYNC_DATA -> st_sclk s <> st_sid s ->
  clock_runs w T -> st_waits_ok s T ->
  exists w' evs, st7920_send sync args w = Ret tt w' /\ trace w' = trace w ++ evs /\
    forall bits, foldl (st_step (st_sclk s) (st_sid s)) (mk_chip false false bits) evs
      = mk_chip false false (bits ++ ((sync :: (cmds ≫= nibbles)) ≫= msb_bits 8)).
Proof.
  intros Hlk Ho Hld Hsync Hne Hc Hw. unfold st7920_send. rewrite (bind_Ret _ _ _ _ _ Hlk). wstep.
  set (evs := (sync :: (cmds ≫= nibbles)) ≫= st_events (st_sclk s) (st_sid s) 8).
  assert (Hchip : forall bits, foldl (st_step (st_sclk s) (st_sid s)) (mk_chip false false bits) evs
      = mk_chip false false (bits ++ ((sync :: (cmds ≫= nibbles)) ≫= msb_bits 8))).
  { intros bits. apply st_chip_bytes; [done|]. intros b. rewrite elem_of_cons.
    intros [->|(cmd & Hb & _)%list_elem_of_bind]; [by destruct Hsync as [->| ->]|by eapply nibbles_low]. }
  destruct (st_bits_outputs 8 (st_sclk s) (st_sid s) sync w T Hc (proj1 Hw)) as ([] & w1 & E1 & D1).
  unfold st7920_xmit_byte. rewrite (bind_Ret _ _ _ _ _ E1).
  rewrite (bind_Ret _ _ _ _ _ (load_arg_same _ _ _ _ _ (dr_receive _ _ _ D1) Hld)).
  pose proof (clock_runs_same _ _ _ _ D1 Hc) as Hc1. rewrite <- (dr_obj _ _ _ D1) in Ho.
  destruct cmds as [|cmd cmds]; cbn [st7920_xmit].
  { exists w1, evs. split; [done|]. split; [|done]. rewrite (dr_trace _ _ _ D1). unfold evs.
    cbn [mbind list_bind]. by rewrite app_nil_r. }
  wstep. destruct (st_cmd_outputs s (st_last_cmd_time s) (st_sync_wait_ticks s) cmd w1 T Hc1 Hw (proj1 (proj2 Hw)))
    as (t2 & w2 & E2 & D2).
  rewrite (bind_Ret _ _ _ _ _ E2). pose proof (clock_runs_same _ _ _ _ D2 Hc1) as Hc2.
  destruct (st_rest_outputs s t2 cmds w2 T Hc2 Hw) as (t3 & w3 & E3 & D3).
  rewrite (bind_Ret _ _ _ _ _ E3). rewrite <- (dr_obj _ _ _ D2), <- (dr_obj _ _ _ D3) in Ho.
  erewrite omod_Ret by exact Ho. eexists _, evs. split; [reflexivity|]. split; [|done].
  rewrite trace_obj, (dr_trace _ _ _ D3), (dr_trace _ _ _ D2), (dr_trace _ _ _ D1), <- !app_assoc.
  f_equal. unfold evs. change ((sync :: ((cmd :: cmds) ≫= nibbles))) with ([sync] ++ nibbles cmd ++ (cmds ≫= nibbles)).
  rewrite !bind_app. f_equal. cbn [mbind list_bind]. by rewrite app_nil_r.
Qed.

(** ** HD44780 *)

(** The chip takes a nibble from its data lines, bits 4 to 7 of [hc_lines], on the falling edge
    of its enable line. *)
Record hd_chip := mk_hd { hc_e : bool; hc_lines : Z; hc_nibbles : list Z }.

(** The pins of the enable line and of the four data lines. *)
Definition hd_pins (h : hd44780) : list Z := [hd_e h; hd_d4 h; hd_d5 h; hd_d6 h; hd_d7 h].

Definition hd_step (h : hd44780) (c : hd_chip) (e : event) : hd_chip :=
  match e with
  | Ev_out_toggle pin =>
      if pin =? hd_e h
      then mk_hd (negb (hc_e c)) (hc_lines c)
             (if hc_e c then hc_nibbles c ++ [hc_lines c] else hc_nibbles c)
      else
        let flip b := mk_hd (hc_e c) (Z.lxor (hc_lines c) b) (hc_nibbles c) in
        if pin =? hd_d4 h then flip 16 else if pin =? hd_d5 h then flip 32
        else if pin =? hd_d6 h then flip 64 else if pin =? hd_d7 h then flip 128 else c
  | _ => c
  end.

Definition hd_events (h : hd44780) (toggle : Z) : list event :=
  [Ev_out_toggle (hd_e h)] ++
  (if has toggle 16 then [Ev_out_toggle (hd_d4 h)] else []) ++
  (if has toggle 32 then [Ev_out_toggle (hd_d5 h)] else []) ++
  (if has toggle 64 then [Ev_out_toggle (hd_d6 h)] else []) ++
  (if has toggle 128 then [Ev_out_toggle (hd_d7 h)] else []) ++
  [] ++ [Ev_out_toggle (hd_e h)].

Lemma outputs_when b e w : outputs (when b (emit e)) w (if b then [e] else []).
Proof. destruct b; [apply outputs_emit|apply outputs_ret]. Qed.

Lemma hd_bits_outputs h toggle w T :
  clock_runs w T -> 0 <= nsecs_to_ticks 230 <= T ->
  outputs (hd44780_xmit_bits toggle (hd_e h) (hd_d4 h) (hd_d5 h) (hd_d6 h) (hd_d7 h)) w (hd_events h toggle).
Proof.
  intros Hc Ht. unfold hd44780_xmit_bits, hd_events, gpio_out_toggle.
  apply outputs_bind; [apply outputs_emit|]. intros _ w1 D1.
  do 4 (apply outputs_bind; [apply outputs_when|]; intros _ ? ?).
  apply outputs_bind; [|intros; apply outputs_emit].
  eapply ndelay_outputs; [|done]. by do 5 (eapply clock_runs_same; [eassumption|]).
Qed.

(** The toggled lines, for the set bits of [toggle]. *)
Lemma land_pow2 t n : 0 <= n -> Z.land t (2 ^ n) = if has t (2 ^ n) then 2 ^ n else 0.
Proof.
  intros Hn. unfold has. destruct (Z.eqb_spec (Z.land t (2 ^ n)) 0) as [->|Hne]; [done|]. cbn [negb].
  apply Z.bits_inj'. intros i Hi. rewrite Z.land_spec, Z.pow2_bits_eqb by lia.
  destruct (Z.eqb_spec n i) as [->|]; [|by rewrite andb_false_r]. rewrite andb_true_r.
  destruct (Z.testbit t i) eqn:E; [done|]. exfalso. apply Hne. apply Z.bits_inj'. intros j Hj.
  rewrite Z.land_spec, Z.pow2_bits_eqb, Z.bits_0 by lia. destruct (Z.eqb_spec i j) as [<-|]; [by rewrite E|].
  by rewrite andb_false_r.
Qed.

Lemma land240 t :
  Z.land t 240 = Z.lxor (Z.lxor (Z.lxor (if has t 16 then 16 else 0) (if has t 32 then 32 else 0))
                   (if has t 64 then 64 else 0)) (if has t 128 then 128 else 0).
Proof.
  change 240 with (Z.lor (Z.lor (Z.lor (2 ^ 4) (2 ^ 5)) (2 ^ 6)) (2 ^ 7)).
  rewrite !Z.land_lor_distr_r, !land_pow2 by lia.
  change (2 ^ 4) with 16. change (2 ^ 5) with 32. change (2 ^ 6) with 64. change (2 ^ 7) with 128.
  by destruct (has t 16), (has t 32), (has t 64), (has t 128).
Qed.

Lemma hd_chip_step h toggle lines l :
  NoDup (hd_pins h) ->
  foldl (hd_step h) (mk_hd false lines l) (hd_events h toggle)
  = mk_hd false (Z.lxor lines (Z.land toggle 240)) (l ++ [Z.lxor lines (Z.land toggle 240)]).
Proof.
  unfold hd_pins. rewrite !NoDup_cons, !not_elem_of_cons.
  intros ((N1 & N2 & N3 & N4 & _) & (N5 & N6 & N7 & _) & (N8 & N9 & _) & (N10 & _) & _).
  assert (Hf : forall x y, x <> y -> (x =? y) = false /\ (y =? x) = false).
  { intros x y Hxy. split; apply Z.eqb_neq; congruence. }
  destruct (Hf _ _ N1), (Hf _ _ N2), (Hf _ _ N3), (Hf _ _ N4), (Hf _ _ N5), (Hf _ _ N6), (Hf _ _ N7),
    (Hf _ _ N8), (Hf _ _ N9), (Hf _ _ N10). clear Hf.
  assert (Hs : forall e lines l, foldl (hd_step h) (mk_hd e lines l)
    ((if has toggle 16 then [Ev_out_toggle (hd_d4 h)] else []) ++
     (if has toggle 32 then [Ev_out_toggle (hd_d5 h)] else []) ++
     (if has toggle 64 then [Ev_out_toggle (hd_d6 h)] else []) ++
     (if has toggle 128 then [Ev_out_toggle (hd_d7 h)] else []))
    = mk_hd e (Z.lxor lines (Z.land toggle 240)) l).
  { intros e lines0 l0. rewrite land240. destruct (has toggle 16), (has toggle 32), (has toggle 64), (has toggle 128);
      cbn [app foldl hd_step]; rewrite ?Z.eqb_refl;
      repeat match goal with H : (_ =? _) = false |- _ => rewrite H; clear H end;
      cbn [hc_e hc_lines hc_nibbles]; rewrite <- ?Z.lxor_assoc; cbn; rewrite ?Z.lxor_0_r; done. }
  unfold hd_events. cbn [app foldl]. unfold hd_step at 2. rewrite Z.eqb_refl. cbn [hc_e hc_lines hc_nibbles negb].
  rewrite !app_assoc, foldl_app, <- !app_assoc, Hs. cbn [foldl hd_step]. by rewrite Z.eqb_refl.
Qed.

Lemma land_lxor_distr a b c : Z.land (Z.lxor a b) c = Z.lxor (Z.land a c) (Z.land b c).
Proof.
  apply Z.bits_inj'. intros i Hi. rewrite Z.lxor_spec, !Z.land_spec, Z.lxor_spec.
  by destruct (Z.testbit a i), (Z.testbit b i), (Z.testbit c i).
Qed.

Lemma low_nibble data : Z.land (u8 (Z.shiftl data 4)) 240 = u8 (Z.shiftl data 4).
Proof.
  apply Z.bits_inj'. intros i Hi. rewrite Z.land_spec. unfold u8. change 256 with (2 ^ 8).
  change 240 with (Z.shiftl (Z.ones 4) 4). rewrite Z.shiftl_spec by lia.
  destruct (Z.ltb_spec i 8).
  - rewrite Z.mod_pow2_bits_low, Z.shiftl_spec, Z.testbit_ones by lia.
    destruct (Z.leb_spec 0 (i - 4)); cbn [andb].
    + destruct (Z.ltb_spec (i - 4) 4); [by rewrite andb_true_r|lia].
    + rewrite andb_false_r. by rewrite Z.testbit_neg_r by lia.
  - by rewrite Z.mod_pow2_bits_high by lia.
Qed.

(** The bytes on the data lines of the chip follow [hd_last]. *)
Definition hd_byte_events (h : hd44780) (last data : Z) : list event :=
  hd_events h (Z.lxor last data) ++ hd_events h (Z.lxor data (u8 (Z.shiftl data 4))).

Lemma hd_chip_byte h last data l :
  NoDup (hd_pins h) ->
  foldl (hd_step h) (mk_hd false (Z.land last 240) l) (hd_byte_events h last data)
  = mk_hd false (Z.land (u8 (Z.shiftl data 4)) 240) (l ++ nibbles data).
Proof.
  intros Hd. unfold hd_byte_events. rewrite foldl_app, !hd_chip_step by done. rewrite !land_lxor_distr.
  assert (Hx : forall a b, Z.lxor a (Z.lxor a b) = b).
  { intros a b. by rewrite <- Z.lxor_assoc, Z.lxor_nilpotent, Z.lxor_0_l. }
  rewrite !Hx, <- app_assoc, low_nibble. done.
Qed.

Definition hd_waits_ok (h : hd44780) (T : Z) : Prop :=
  0 <= nsecs_to_ticks 230 <= T /\ 0 <= nsecs_to_ticks 270 <= T /\ 0 <= hd_cmd_wait_ticks h <= T.

Lemma hd_byte_run oid h data w T :
  obj_at w oid = Some (O_hd44780 h) -> clock_runs w T -> hd_waits_ok h T ->
  exists w', hd44780_xmit_byte oid data w = Ret tt w' /\
    obj_at w' oid = Some (O_hd44780 (h <| hd_last := u8 (Z.shiftl data 4) |>)) /\
    clock_runs w' T /\ trace w' = trace w ++ hd_byte_events h (hd_last h) data.
Proof.
  intros Ho Hc (H1 & H2 & _). unfold hd44780_xmit_byte. wstep.
  destruct (hd_bits_outputs h (Z.lxor (hd_last h) data) w T Hc H1) as ([] & w1 & E1 & D1).
  rewrite (bind_Ret _ _ _ _ _ E1). rewrite <- (dr_obj _ _ _ D1) in Ho. wstep.
  set (h' := h <| hd_last := u8 (Z.shiftl data 4) |>). change (to_obj _) with (O_hd44780 h').
  set (w2 := put_obj oid (O_hd44780 h') w1).
  assert (Hc2 : clock_runs w2 T) by (exact (clock_runs_same _ _ _ _ D1 Hc)).
  destruct (ndelay_outputs w2 270 T Hc2 H2) as ([] & w3 & E3 & D3).
  change (500 - 230) with 270. rewrite (bind_Ret _ _ _ _ _ E3).
  pose proof (clock_runs_same _ _ _ _ D3 Hc2) as Hc3.
  destruct (hd_bits_outputs h (Z.lxor data (u8 (Z.shiftl data 4))) w3 T Hc3 H1) as ([] & w4 & E4 & D4).
  exists w4. split; [exact E4|]. split; [|split].
  - rewrite (dr_obj _ _ _ D4), (dr_obj _ _ _ D3). by eapply obj_at_put.
  - by eapply clock_runs_same.
  - rewrite (dr_trace _ _ _ D4), (dr_trace _ _ _ D3), app_nil_r. unfold w2.
    rewrite trace_obj, (dr_trace _ _ _ D1). unfold hd_byte_events. by rewrite app_assoc.
Qed.

Lemma hd_loop_run oid last data h w T :
  obj_at w oid = Some (O_hd44780 h) -> clock_runs w T -> hd_waits_ok h T -> NoDup (hd_pins h) ->
  exists t w' h' evs, hd44780_xmit_loop oid last (hd_cmd_wait_ticks h) data w = Ret t w' /\
    obj_at w' oid = Some (O_hd44780 h') /\ trace w' = trace w ++ evs /\
    (forall l, foldl (hd_step h) (mk_hd false (Z.land (hd_last h) 240) l) evs
       = mk_hd false (Z.land (hd_last h') 240) (l ++ (data ≫= nibbles))).
Proof.
  revert last h w. induction data as [|b data IH]; intros last h w Ho Hc Hw Hd; cbn [hd44780_xmit_loop].
  { exists last, w, h, []. split; [done|]. split; [done|]. split; [by rewrite app_nil_r|].
    intros l. cbn. by rewrite app_nil_r. }
  destruct (wait_since_outputs w last (hd_cmd_wait_ticks h) T Hc (proj2 (proj2 Hw))) as ([] & w1 & E1 & D1).
  rewrite (bind_Ret _ _ _ _ _ E1). rewrite <- (dr_obj _ _ _ D1) in Ho.
  destruct (hd_byte_run oid h b w1 T Ho (clock_runs_same _ _ _ _ D1 Hc) Hw) as (w2 & E2 & Ho2 & Hc2 & Ht2).
  rewrite (bind_Ret _ _ _ _ _ E2). wstep.
  destruct (IH (clock_now w2) _ (tick w2) Ho2 (clock_runs_same _ _ _ _ (drives_ticks 1 w2) Hc2) Hw Hd)
    as (t & w3 & h3 & evs & E3 & Ho3 & Ht3 & Hch).
  exists t, w3, h3, (hd_byte_events h (hd_last h) b ++ evs). split; [exact E3|]. split; [done|]. split.
  - rewrite Ht3, trace_tick, Ht2, (dr_trace _ _ _ D1), app_nil_r. by rewrite app_assoc.
  - intros l. rewrite foldl_app, hd_chip_byte by done. specialize (Hch (l ++ nibbles b)).
    cbn [mbind list_bind]. rewrite app_assoc. exact Hch.
Qed.

(** What an HD44780 receives.  [hd44780_send_cmds] and [hd44780_send_data] return; the register
    line is set first, and then the chip, which takes a nibble from its four data lines on the
    falling edge of its enable line, gets the high and the low nibble of every byte.  The
    firmware only toggles lines: it relies on [last] telling the levels of the data lines,
    which holds again at the end. *)
Theorem hd44780_receives_bytes rs args oid h data T w :
  oid_lookup (nthZ args 0) OT_hd44780 w = Ret oid w -> obj_at w oid = Some (O_hd44780 h) ->
  load_arg (nthZ args 2) (u8 (nthZ args 1)) w = Ret data w ->
  NoDup (hd_pins h) -> clock_runs w T -> hd_waits_ok h T ->
  exists w' h' evs, hd44780_send rs args w = Ret tt w' /\
    obj_at w' oid = Some (O_hd44780 h') /\
    trace w' = trace w ++ Ev_out_write (hd_rs h) rs :: evs /\
    forall l, foldl (hd_step h) (mk_hd false (Z.land (hd_last h) 240) l) evs
      = mk_hd false (Z.land (hd_last h') 240) (l ++ (data ≫= nibbles)).
Proof.
  intros Hlk Ho Hld Hd Hc Hw. unfold hd44780_send, gpio_out_write. rewrite (bind_Ret _ _ _ _ _ Hlk). repeat wstep.
  set (w1 := put_event (Ev_out_write (hd_rs h) rs) w).
  assert (D1 : drives w w1 [Ev_out_write (hd_rs h) rs]) by apply drives_event.
  rewrite (bind_Ret _ _ _ _ _ (load_arg_same _ _ _ _ _ (dr_receive _ _ _ D1) Hld)). unfold hd44780_xmit.
  assert (Ho1 : obj_at w1 oid = Some (O_hd44780 h)) by done. wstep.
  destruct (hd_loop_run oid (hd_last_cmd_time h) data h w1 T Ho1 (clock_runs_same _ _ _ _ D1 Hc) Hw Hd)
    as (t & w2 & h2 & evs & E2 & Ho2 & Ht2 & Hch).
  rewrite (bind_Ret _ _ _ _ _ E2). erewrite omod_Ret by exact Ho2.
  exists (put_obj oid (O_hd44780 (h2 <| hd_last_cmd_time := t |>)) w2), (h2 <| hd_last_cmd_time := t |>), evs.
  split; [done|]. split; [by eapply obj_at_put|]. split; [|exact Hch].
  rewrite trace_obj, Ht2. unfold w1. by rewrite trace_event, <- app_assoc.
Qed.

(** ** Neopixel strips *)

(** The level of a pin after events. *)
Definition level_step (pin : Z) (b : bool) (e : event) : bool :=
  match e with
  | Ev_out_toggle p => if p =? pin then negb b else b
  | Ev_out_write p v => if p =? pin then negb (v =? 0) else b
  | _ => b
  end.

Lemma neo_delay_outputs w start ticks T :
  clock_runs w T -> 0 <= ticks <= T -> outputs (neopixel_delay start ticks) w [].
Proof.
  intros Hc Ht. unfold neopixel_delay, neopixel_check_elapsed, neopixel_time.
  destruct CONFIG_MACH_AVR; [apply outputs_ret|].
  destruct (Hc (reads w) ticks start Ht) as [_ (k & Hk & E)].
  destruct (wait_loop_ticks wait_fuel (fun t => ticks <=? u32 (u32 t - start)) w) as (n & En).
  { exists k. split; [done|]. apply Z.leb_le. apply Z.ltb_ge in E. unfold clock_at in *.
    unfold u32 in *. by rewrite Zmod_mod. }
  exists tt, (Nat.iter n tick w). split; [done|apply drives_ticks].
Qed.

Definition neo_waits_ok (n : neopixel_s) (T : Z) : Prop :=
  0 <= BIT_MIN_TICKS <= T /\ 0 <= PULSE_LONG_TICKS <= T /\ 0 <= PULSE_SHORT_TICKS <= T /\
  0 <= np_reset_min_ticks n <= T.

Lemma get_time_outputs w : outputs neopixel_get_time w [].
Proof.
  eapply (outputs_bind _ _ _ [] []); [apply outputs_time|]. intros. apply outputs_ret.
Qed.

(** One pulse, or the failure of a bit that came too late. *)
Definition pulse (pin : Z) : list event := [Ev_out_toggle pin; Ev_out_toggle pin].

Definition bit_result (pin : Z) (pulses : nat) (r : option Z) (evs : list event) : Prop :=
  match r with
  | Some _ => evs = concat (repeat (pulse pin) pulses)
  | None => Forall (fun e => e = Ev_out_toggle pin) evs
  end.

Definition runs_to {A} (m : M world A) (w : world) (P : A -> list event -> Prop) : Prop :=
  exists a w' evs, m w = Ret a w' /\ drives w w' evs /\ P a evs.

Lemma runs_bind {A B} (m : M world A) (k : A -> M world B) w (P : A -> list event -> Prop)
    (Q : B -> list event -> Prop) :
  runs_to m w P ->
  (forall a w' e1, drives w w' e1 -> P a e1 -> runs_to (k a) w' (fun b e2 => Q b (e1 ++ e2))) ->
  runs_to (bind m k) w Q.
Proof.
  intros (a & w1 & e1 & E & D1 & HP) Hk. destruct (Hk a w1 e1 D1 HP) as (b & w2 & e2 & E2 & D2 & HQ).
  exists b, w2, (e1 ++ e2). rewrite (bind_Ret _ _ _ _ _ E). split; [done|]. split; [by eapply drives_trans|done].
Qed.

Lemma runs_ret {A} (a : A) w (P : A -> list event -> Prop) : P a [] -> runs_to (ret a) w P.
Proof. exists a, w, []. split; [done|]. split; [by constructor; [..|rewrite app_nil_r]|done]. Qed.

Lemma runs_outputs {A} (m : M world A) w evs : outputs m w evs -> runs_to m w (fun _ e => e = evs).
Proof. intros (a & w' & E & D). by exists a, w', evs. Qed.

Lemma send_bit_runs pin bmax last bit w T n :
  clock_runs w T -> neo_waits_ok n T -> runs_to (send_bit pin bmax last bit) w (bit_result pin 1).
Proof.
  intros Hc (H1 & H2 & H3 & _). unfold send_bit, gpio_out_toggle_noirq.
  eapply runs_bind; [apply runs_outputs; by eapply neo_delay_outputs|]. intros _ w1 _ D1 ->.
  eapply runs_bind; [apply runs_outputs, get_time_outputs|]. intros start w2 _ D2 ->.
  eapply runs_bind; [apply runs_outputs, outputs_emit|]. intros _ w3 _ D3 ->.
  assert (Hc3 : clock_runs w3 T) by (by do 3 (eapply clock_runs_same; [eassumption|])).
  destruct bit.
  - destruct (neopixel_check_elapsed last start bmax); [apply runs_ret; by repeat constructor|].
    eapply runs_bind; [apply runs_outputs; by eapply neo_delay_outputs|]. intros _ w4 _ D4 ->.
    eapply runs_bind; [apply runs_outputs, outputs_emit|]. intros _ w5 _ D5 ->.
    eapply runs_bind; [apply runs_outputs, get_time_outputs|]. intros now w6 _ D6 ->.
    eapply runs_bind.
    { apply runs_outputs. eapply neo_delay_outputs; [|exact H3]. by do 3 (eapply clock_runs_same; [eassumption|]). }
    intros _ w7 _ D7 ->. by apply runs_ret.
  - eapply runs_bind; [apply runs_outputs; by eapply neo_delay_outputs|]. intros _ w4 _ D4 ->.
    eapply runs_bind; [apply runs_outputs, outputs_emit|]. intros _ w5 _ D5 ->.
    destruct (neopixel_check_elapsed last start bmax); apply runs_ret; [by repeat constructor|done].
Qed.

Lemma bit_result_fail pin k evs start e2 :
  bit_result pin k (Some start) evs -> bit_result pin 0 None e2 -> bit_result pin 0 None (evs ++ e2).
Proof.
  cbn. intros -> H2. apply Forall_app. split; [|done].
  induction k as [|k IH]; [constructor|]. cbn. by repeat constructor.
Qed.

Lemma bit_result_app pin k j evs start r e2 :
  bit_result pin k (Some start) evs -> bit_result pin j r e2 -> bit_result pin (k + j) r (evs ++ e2).
Proof.
  intros H1 H2. destruct r as [r|]; [|by eapply bit_result_fail]. cbn in *. subst.
  by rewrite repeat_app, concat_app.
Qed.

Lemma send_bits_runs m pin bmax last byte w T n :
  clock_runs w T -> neo_waits_ok n T -> runs_to (send_bits m pin bmax last byte) w (bit_result pin m).
Proof.
  revert last byte w. induction m as [|m IH]; intros last byte w Hc Hw; cbn [send_bits]; [by apply runs_ret|].
  eapply runs_bind; [by eapply send_bit_runs|]. intros [start|] w1 e1 D1 H1.
  - destruct (IH start (u8 (Z.shiftl byte 1)) w1 (clock_runs_same _ _ _ _ D1 Hc) Hw) as (r & w2 & e2 & E & D & H2).
    exists r, w2, e2. split; [done|]. split; [done|]. by apply (bit_result_app pin 1 m _ start).
  - apply runs_ret. by rewrite app_nil_r.
Qed.

Lemma send_bytes_runs pin bmax last data w T n :
  clock_runs w T -> neo_waits_ok n T ->
  runs_to (send_bytes pin bmax last data) w (bit_result pin (8 * length data)).
Proof.
  revert last w. induction data as [|b data IH]; intros last w Hc Hw; cbn [send_bytes]; [by apply runs_ret|].
  eapply runs_bind; [by eapply send_bits_runs|]. intros [start|] w1 e1 D1 H1.
  - destruct (IH start w1 (clock_runs_same _ _ _ _ D1 Hc) Hw) as (r & w2 & e2 & E & D & H2).
    exists r, w2, e2. split; [done|]. split; [done|].
    replace (8 * length (b :: data))%nat with (8 + 8 * length data)%nat by (cbn [length]; lia).
    by apply (bit_result_app pin 8 _ _ start).
  - apply runs_ret. by rewrite app_nil_r.
Qed.

(** Sending to a strip returns and leaves its line low, as the next pulse needs it.  A success
    means that every bit of the data was sent as one pulse; when an interrupt delays a bit too
    long, the transmission ends with -1. *)
Theorem neopixel_line_returns_low oid n T w :
  obj_at w oid = Some (O_neopixel n) -> clock_runs w T -> neo_waits_ok n T ->
  exists r w' evs, send_data oid w = Ret r w' /\ trace w' = trace w ++ evs /\
    foldl (level_step (np_pin n)) false evs = false /\
    ((r = 0 /\ evs = concat (repeat (pulse (np_pin n)) (8 * length (takeZ (np_data_size n) (np_data n))))) \/
     r = -1).
Proof.
  intros Ho Hc Hw. unfold send_data. wstep.
  destruct (wait_since_outputs w (np_last_req_time n) (np_reset_min_ticks n) T Hc) as ([] & w1 & E1 & D1);
    [apply Hw|].
  rewrite (bind_Ret _ _ _ _ _ E1). destruct (get_time_outputs w1) as (start & w2 & E2 & D2).
  rewrite (bind_Ret _ _ _ _ _ E2).
  pose proof (drives_trans _ _ _ _ _ D1 D2) as D3. cbn [app] in D3.
  destruct (send_bytes_runs (np_pin n) (np_bit_max_ticks n) start (takeZ (np_data_size n) (np_data n)) w2 T n
    (clock_runs_same _ _ _ _ D3 Hc) Hw) as (r & w4 & evs & E4 & D4 & Hr).
  rewrite (bind_Ret _ _ _ _ _ E4). pose proof (drives_trans _ _ _ _ _ D3 D4) as D5. cbn [app] in D5.
  rewrite <- (dr_obj _ _ _ D5) in Ho. destruct r as [t|]; cbn [bit_result] in Hr.
  - repeat wstep. eexists 0, _, evs. split; [reflexivity|]. split; [autorewrite with wget; apply (dr_trace _ _ _ D5)|].
    split; [|by left]. rewrite Hr. generalize (8 * length (takeZ (np_data_size n) (np_data n)))%nat.
    intros k. induction k as [|k IH]; [done|]. cbn [repeat concat]. rewrite foldl_app. cbn. by rewrite Z.eqb_refl.
  - unfold gpio_out_write. repeat wstep.
    eexists (-1), _, (evs ++ [Ev_out_write (np_pin n) 0]). split; [reflexivity|]. split; [|split; [|by right]].
    + autorewrite with wget. rewrite (dr_trace _ _ _ D5). by rewrite <- app_assoc.
    + rewrite foldl_app. cbn. by rewrite Z.eqb_refl.
Qed.

(** Bit 15 of a position. *)
Lemma has_bit15 pos : has pos 32768 = negb ((pos / 32768) mod 2 =? 0).
Proof.
  unfold has. f_equal. change 32768 with (2 ^ 15). rewrite land_pow2 by lia.
  assert (E : has pos (2 ^ 15) = Z.testbit pos 15).
  { unfold has. destruct (Z.testbit pos 15) eqn:E.
    - apply negb_true_iff, Z.eqb_neq. intros H. apply (f_equal (fun x => Z.testbit x 15)) in H.
      rewrite Z.land_spec, Z.pow2_bits_true, E, Z.bits_0 in H by lia. done.
    - apply negb_false_iff, Z.eqb_eq, Z.bits_inj'. intros i Hi.
      rewrite Z.land_spec, Z.pow2_bits_eqb, Z.bits_0 by lia.
      destruct (Z.eqb_spec 15 i) as [<-|]; [by rewrite E|by rewrite andb_false_r]. }
  rewrite E, Z.testbit_eqb by lia. pose proof (Z.mod_pos_bound (pos / 2 ^ 15) 2 ltac:(lia)).
  destruct (Z.eqb_spec ((pos / 2 ^ 15) mod 2) 1), (Z.eqb_spec ((pos / 2 ^ 15) mod 2) 0); done || lia.
Qed.

(** A position with a clear bit 15 leaves room for a length in either width. *)
Lemma position_room arg len :
  0 <= len < 256 -> has (uint_fast16 arg) 32768 = false ->
  uint_fast16 (uint_fast16 arg + len) = uint_fast16 arg + len.
Proof.
  intros Hl. rewrite has_bit15. intros Hb%negb_false_iff%Z.eqb_eq. unfold uint_fast16 in *.
  destruct CONFIG_MACH_AVR; wrap_lia.
Qed.

(** An update of the colours of a strip never writes outside of its data.  It shuts down
    exactly when the range does not fit, and otherwise replaces it, with positions of 16 bits
    (AVR) as well as of 32 bits, in which [pos + data_len] could wrap. *)
Theorem neopixel_update_in_range args oid n data w :
  oid_lookup (nthZ args 0) OT_neopixel w = Ret oid w -> obj_at w oid = Some (O_neopixel n) ->
  load_arg (nthZ args 3) (u8 (nthZ args 2)) w = Ret data w -> zlen data = u8 (nthZ args 2) ->
  zlen (np_data n) = np_data_size n -> np_data_size n < 32768 ->
  let pos := uint_fast16 (nthZ args 1) in
  if pos + zlen data <=? np_data_size n
  then exists n', command_neopixel_update args w = Ret tt (put_obj oid (O_neopixel n') w) /\
         np_data n' = takeZ pos (np_data n) ++ data ++ dropZ (pos + zlen data) (np_data n) /\
         zlen (np_data n') = np_data_size n' /\ np_data_size n' = np_data_size n
  else command_neopixel_update args w = Shut "Invalid neopixel update command" w.
Proof.
  intros Hlk Ho Hld Hlen Hsz Hmax pos. unfold command_neopixel_update.
  rewrite (bind_Ret _ _ _ _ _ Hlk). wstep. fold pos.
  pose proof (u8_range (nthZ args 2)) as H8.
  assert (Hpos : 0 <= pos) by (unfold pos, uint_fast16; destruct CONFIG_MACH_AVR; wrap_lia).
  destruct (has pos 32768) eqn:Hb; cbn [orb].
  - destruct (Z.leb_spec (pos + zlen data) (np_data_size n)); [|done]. exfalso.
    rewrite has_bit15, Z.div_small in Hb by lia. done.
  - pose proof (position_room (nthZ args 1) (u8 (nthZ args 2)) H8 Hb) as Hr. fold pos in Hr.
    rewrite Hr, <- Hlen. rewrite <- Hlen in Hld.
    destruct (Z.leb_spec (pos + zlen data) (np_data_size n)), (Z.ltb_spec (np_data_size n) (pos + zlen data));
      try lia; [|done].
    rewrite (bind_Ret _ _ _ _ _ Hld).
    destruct (Z.ltb_spec (zlen (np_data n)) (pos + zlen data)); [lia|].
    erewrite omod_Ret by exact Ho. eexists. split; [reflexivity|]. cbn [upd np_data np_data_size].
    split; [done|]. split; [|done]. rewrite <- Hsz. unfold zlen, takeZ, dropZ in *.
    rewrite !length_app, length_take, length_drop. lia.
Qed.
End display.

(** ** Witnesses *)

Definition demo_st : st7920 := mk_st7920 0 20 10 5 6.
Definition demo_hd : hd44780 := mk_hd44780 0 10 0 1 2 3 4 5 6.
Definition demo_neo : neopixel_s := mk_neopixel 5 50000 0 20 3 [255; 0; 7].
Definition display_world : world :=
  (uart_world demo_idle None [])
    <| w_base ::= fun b => b
         <| oids := Some [mk_oid (Some OT_st7920) (Some (O_st7920 demo_st));
                          mk_oid (Some OT_hd44780) (Some (O_hd44780 demo_hd));
                          mk_oid (Some OT_neopixel) (Some (O_neopixel demo_neo))] |>
         <| oid_count := 3 |> |>.

Lemma display_clock_runs : clock_runs (mch := demo_machine) display_world 50.
Proof.
  intros i ticks s Ht. unfold clock_at. cbn [display_world uart_world demo_world upd w_hw hw_clock]. split.
  - exists 0%nat. split; [cbn; lia|].
    replace (u32 (u32 (100 * Z.of_nat i) + ticks)) with (u32 (100 * Z.of_nat i + ticks))
      by (unfold u32; by rewrite Zplus_mod_idemp_l).
    rewrite timer_is_before_spec by lia. apply Z.ltb_ge. lia.
  - destruct (Z.ltb_spec (u32 (u32 (100 * Z.of_nat (i + 0)) - s)) ticks) as [H|H].
    + exists 1%nat. split; [cbn; lia|]. apply Z.ltb_ge. wrap_lia.
    + exists 0%nat. split; [cbn; lia|]. by apply Z.ltb_ge.
Qed.

(** The command bytes 180 and 3 are in the receive buffer at offset 2. *)
Lemma st7920_receives_commands_witness :
  exists w' evs,
    command_st7920_send_cmds (cfg := edge_config) (mch := demo_machine) [0; 2; 2] display_world = Ret tt w' /\
    trace w' = evs /\
    foldl (st_step 5 6) (mk_chip false false []) evs
    = mk_chip false false ([248; 176; 64; 0; 48] ≫= msb_bits 8).
Proof.
  destruct (st7920_receives_commands (cfg := edge_config) (mch := demo_machine) SYNC_CMD [0; 2; 2] 0 demo_st
    [180; 3] 50 display_world) as (w' & evs & Hrun & Htr & Hch).
  - reflexivity.
  - reflexivity.
  - vm_compute. reflexivity.
  - by left.
  - discriminate.
  - apply display_clock_runs.
  - unfold st_waits_ok. vm_compute. repeat split; congruence.
  - exists w', evs. split; [exact Hrun|]. split; [exact Htr|]. exact (Hch []).
Defined.

Lemma hd44780_receives_bytes_witness :
  exists w' h' evs,
    command_hd44780_send_data (cfg := edge_config) (mch := demo_machine) [1; 2; 2] display_world = Ret tt w' /\
    trace w' = Ev_out_write 1 1 :: evs /\
    foldl (hd_step demo_hd) (mk_hd false 0 []) evs 
    = mk_hd false (Z.land (hd_last h') 240) [176; 64; 0; 48].
Proof.
  destruct (hd44780_receives_bytes (cfg := edge_config) (mch := demo_machine) 1 [1; 2; 2] 1 demo_hd
    [180; 3] 50 display_world) as (w' & h' & evs & Hrun & Ho & Htr & Hch).
  - reflexivity.
  - reflexivity.
  - vm_compute. reflexivity.
  - apply (bool_decide_unpack (NoDup (hd_pins demo_hd))). vm_compute. exact I.
  - apply display_clock_runs.
  - unfold hd_waits_ok. vm_compute. repeat split; congruence.
  - exists w', h', evs. split; [exact Hrun|]. split; [exact Htr|]. exact (Hch []).
Defined.

Lemma neopixel_line_returns_low_witness :
  exists r w' evs, send_data (cfg := edge_config) (mch := demo_machine) 2 display_world = Ret r w' /\
    trace w' = evs /\ foldl (level_step 5) false evs = false.
Proof.
  destruct (neopixel_line_returns_low (cfg := edge_config) (mch := demo_machine) 2 demo_neo 50 display_world)
    as (r & w' & evs & Hrun & Htr & Hlow & _).
  - reflexivity.
  - apply display_clock_runs.
  - unfold neo_waits_ok. vm_compute. repeat split; congruence.
  - exists r, w', evs. split; [exact Hrun|]. split; [exact Htr|exact Hlow].
Defined.

Lemma neopixel_update_in_range_witness :
  exists n', command_neopixel_update (cfg := edge_config) (mch := demo_machine) [2; 1; 2; 2] display_world
    = Ret tt (put_obj 2 (O_neopixel n') display_world) /\ np_data n' = [255; 180; 3].
Proof.
  destruct (neopixel_update_in_range (cfg := edge_config) (mch := demo_machine) [2; 1; 2; 2] 2 demo_neo [180; 3]
    display_world) as (n' & Hrun & Hd & _).
  - reflexivity.
  - reflexivity.
  - vm_compute. reflexivity.
  - reflexivity.
  - reflexivity.
  - vm_compute. reflexivity.
  - exists n'. split; [exact Hrun|exact Hd].
Defined.
