(* ===== verification/Stepcompress.v ===== *)
(** * Step compression

    klippy/chelper/stepcompress.c: the host turns the step times of a stepper into
    [queue_step] commands (interval, count, add) and merges the commands of all
    steppers of a micro-controller.

    The step time buffer is the list of its cells; [queue_pos] and [queue_next] are
    indices into it and a store outside of it is stuck.  [int32_t] arithmetic wraps
    as the compiled code does.  Linked lists are lists; a loop over the buffer takes
    the number of pending steps as fuel. *)

From S2P Require Import Prelude Double Wire Command Msgblock.

Definition ERROR_RET : Z := -989898989.
Definition QUEUE_START_SIZE : Z := 1024.
Definition QUADRATIC_DEV : Z := 11.
Definition CLOCK_DIFF_MAX : Z := 805306368.
Definition MAX_CLOCK : Z := 9223372036854775807.
Definition INT32_MIN : Z := -2147483648.

Record step_move := mk_step { sv_interval : Z; sv_count : Z; sv_add : Z }.

(** The conversions of [(struct step_move){ interval, count, add }]. *)
Definition to_step_move (interval count add : Z) : step_move :=
  mk_step (u32 interval) (u16 count) (i16 add).

Record history_steps := mk_hist {
  hs_first_clock : Z; hs_last_clock : Z; hs_start_position : Z;
  hs_step_count : Z; hs_interval : Z; hs_add : Z }.

Record stepcompress (D : Type) := mk_sc {
  sc_queue : list Z; sc_queue_pos : Z; sc_queue_next : Z;
  sc_max_error : Z;
  sc_mcu_time_offset : D; sc_mcu_freq : D; sc_last_step_print_time : D;
  sc_last_step_clock : Z;
  sc_msg_queue : list (queue_message D);
  sc_oid : Z; sc_queue_step_msgtag : Z; sc_set_next_step_dir_msgtag : Z;
  sc_sdir : Z; sc_invert_sdir : Z;
  sc_next_step_clock : Z; sc_next_step_dir : Z;
  sc_last_position : Z;
  sc_history_list : list history_steps }.
Arguments mk_sc {D}.
Arguments sc_queue {D}.
Arguments sc_queue_pos {D}.
Arguments sc_queue_next {D}.
Arguments sc_max_error {D}.
Arguments sc_mcu_time_offset {D}.
Arguments sc_mcu_freq {D}.
Arguments sc_last_step_print_time {D}.
Arguments sc_last_step_clock {D}.
Arguments sc_msg_queue {D}.
Arguments sc_oid {D}.
Arguments sc_queue_step_msgtag {D}.
Arguments sc_set_next_step_dir_msgtag {D}.
Arguments sc_sdir {D}.
Arguments sc_invert_sdir {D}.
Arguments sc_next_step_clock {D}.
Arguments sc_next_step_dir {D}.
Arguments sc_last_position {D}.
Arguments sc_history_list {D}.
#[export] Instance eta_sc {D} : Settable (stepcompress D) := fun s =>
  mk_sc (sc_queue s) (sc_queue_pos s) (sc_queue_next s) (sc_max_error s)
    (sc_mcu_time_offset s) (sc_mcu_freq s) (sc_last_step_print_time s)
    (sc_last_step_clock s) (sc_msg_queue s) (sc_oid s) (sc_queue_step_msgtag s)
    (sc_set_next_step_dir_msgtag s) (sc_sdir s) (sc_invert_sdir s)
    (sc_next_step_clock s) (sc_next_step_dir s) (sc_last_position s) (sc_history_list s).

(** [queue_end - queue]. *)
Definition sc_queue_end {D} (sc : stepcompress D) : Z := zlen (sc_queue sc).

(** ** Compression *)

Definition idiv_up (n d : Z) : Z :=
  if 0 <=? n then Z.quot (i32 (i32 (n + d) - 1)) d else Z.quot n d.
Definition idiv_down (n d : Z) : Z :=
  if 0 <=? n then Z.quot n d else Z.quot (i32 (i32 (n - d) + 1)) d.

Record points := mk_points { minp : Z; maxp : Z }.

Section compress.
Context {D : Type} (sc : stepcompress D).

(** [pos] is an index into the buffer. *)
Definition minmax_point (pos : Z) : points :=
  let lsc := u32 (sc_last_step_clock sc) in
  let point := u32 (nthZ (sc_queue sc) pos - lsc) in
  let prevpoint := if sc_queue_pos sc <? pos
                   then u32 (nthZ (sc_queue sc) (pos - 1) - lsc) else 0 in
  let max_error := u32 (point - prevpoint) / 2 in
  let max_error := if sc_max_error sc <? max_error then sc_max_error sc else max_error in
  mk_points (i32 (point - max_error)) (i32 point).

(** [n*(n-1)/2] on [int32_t]. *)
Definition add_factor (n : Z) : Z := Z.quot (i32 (n * (n - 1))) 2.

(** Where the inner loop of [compress_bisect_add] stops. *)
Inductive fit :=
| Fit_all (interval count : Z)
| Fit_break (nextpoint : points) (nextmininterval nextmaxinterval interval nextcount : Z).

(** The inner loop: find the longest valid sequence with the given [add].  [avail] is
    [qlast - queue_pos]; every iteration takes one more of these points. *)
Fixpoint fit_loop (fuel : nat) (avail add nextmininterval nextmaxinterval interval nextcount : Z) : fit :=
  let nextcount := nextcount + 1 in
  match fuel with
  | O => Fit_all interval (nextcount - 1)
  | S fuel =>
      if avail <=? nextcount - 1 then Fit_all interval (nextcount - 1)
      else
        let nextpoint := minmax_point (sc_queue_pos sc + nextcount - 1) in
        let c := i32 (add * add_factor nextcount) in
        let nextmininterval :=
          if i32 (nextmininterval * nextcount) <? i32 (minp nextpoint - c)
          then idiv_up (i32 (minp nextpoint - c)) nextcount else nextmininterval in
        let nextmaxinterval :=
          if i32 (maxp nextpoint - c) <? i32 (nextmaxinterval * nextcount)
          then idiv_down (i32 (maxp nextpoint - c)) nextcount else nextmaxinterval in
        if nextmaxinterval <? nextmininterval
        then Fit_break nextpoint nextmininterval nextmaxinterval interval nextcount
        else fit_loop fuel avail add nextmininterval nextmaxinterval nextmaxinterval nextcount
  end.

(** The variables of the outer loop. *)
Record bisect := mk_bisect {
  bs_outer_min : Z; bs_outer_max : Z;
  bs_add : Z; bs_minadd : Z; bs_maxadd : Z;
  bs_bestinterval : Z; bs_bestcount : Z; bs_bestadd : Z; bs_bestreach : Z;
  bs_zerointerval : Z; bs_zerocount : Z }.

(** Record the sequence when it is the best one so far. *)
Definition note_best (s : bisect) (interval count : Z) : bool * bisect :=
  let reach := i32 (i32 (bs_add s * add_factor count) + i32 (interval * count)) in
  if (bs_bestreach s <? reach) || ((reach =? bs_bestreach s) && (bs_bestinterval s <? interval))
  then (true, mk_bisect (bs_outer_min s) (bs_outer_max s) (bs_add s) (bs_minadd s) (bs_maxadd s)
          interval count (bs_add s) reach
          (if bs_add s =? 0 then interval else bs_zerointerval s)
          (if bs_add s =? 0 then count else bs_zerocount s))
  else (false, s).

(** Narrow the range of [add]: the pair of the new bounds of [add] and of the
    intervals. *)
Definition narrow (s : bisect) (nextpoint : points) (nmin nmax interval nextcount : Z) :
    (Z * Z) * (Z * Z) :=
  let add := bs_add s in
  let count := nextcount - 1 in
  let naf := add_factor nextcount in
  let nextreach := i32 (i32 (add * naf) + i32 (interval * nextcount)) in
  let '(minadd, maxadd, omin, omax) :=
    if nextreach <? minp nextpoint
    then (add + 1, bs_maxadd s, bs_outer_min s, nmax)
    else (bs_minadd s, add - 1, nmin, bs_outer_max s) in
  let '(minadd, maxadd) :=
    if 1 <? count then
      let errdelta := i32 (u32 (sc_max_error sc * QUADRATIC_DEV) / u32 (i32 (count * count))) in
      (if minadd <? i32 (add - errdelta) then i32 (add - errdelta) else minadd,
       if i32 (add + errdelta) <? maxadd then i32 (add + errdelta) else maxadd)
    else (minadd, maxadd) in
  let c := i32 (omax * nextcount) in
  let minadd := if i32 (minadd * naf) <? i32 (minp nextpoint - c)
                then idiv_up (i32 (minp nextpoint - c)) naf else minadd in
  let c := i32 (omin * nextcount) in
  let maxadd := if i32 (maxp nextpoint - c) <? i32 (maxadd * naf)
                then idiv_down (i32 (maxp nextpoint - c)) naf else maxadd in
  ((minadd, maxadd), (omin, omax)).

Inductive bisect_result :=
| B_return (m : step_move) | B_break (s : bisect) | B_continue (s : bisect).

(** One iteration of the outer loop. *)
Definition bisect_step (avail : Z) (s : bisect) : bisect_result :=
  match fit_loop (Z.to_nat avail) avail (bs_add s) (bs_outer_min s) (bs_outer_max s) (bs_outer_max s) 1 with
  | Fit_all interval count => B_return (to_step_move interval count (bs_add s))
  | Fit_break nextpoint nmin nmax interval nextcount =>
      let count := nextcount - 1 in
      let '(better, s) := note_best s interval count in
      if better && (512 <? count) then B_break s
      else
        let '((minadd, maxadd), (omin, omax)) := narrow s nextpoint nmin nmax interval nextcount in
        let s := mk_bisect omin omax
          (i32 (maxadd - Z.quot (i32 (maxadd - minadd)) 4)) minadd maxadd
          (bs_bestinterval s) (bs_bestcount s) (bs_bestadd s) (bs_bestreach s)
          (bs_zerointerval s) (bs_zerocount s) in
        if maxadd <? minadd then B_break s else B_continue s
  end.

Fixpoint bisect_loop (fuel : nat) (avail : Z) (s : bisect) : option (step_move + bisect) :=
  match fuel with
  | O => None
  | S fuel =>
      match bisect_step avail s with
      | B_return m => Some (inl m)
      | B_break s => Some (inr s)
      | B_continue s => bisect_loop fuel avail s
      end
  end.

(** [None] when the outer loop does not end within [2^17] iterations; the range of
    [add] has [2^16] values and every iteration drops at least one. *)
Definition compress_bisect_add : option step_move :=
  let avail := Z.min (sc_queue_next sc - sc_queue_pos sc) 65535 in
  let point := minmax_point (sc_queue_pos sc) in
  match bisect_loop (Z.to_nat 131072) avail
          (mk_bisect (minp point) (maxp point) 0 (-32768) 32767 0 1 1 INT32_MIN 0 0) with
  | None => None
  | Some (inl m) => Some m
  | Some (inr s) =>
      if bs_bestcount s <=? bs_zerocount s + Z.quot (bs_zerocount s) 16
      then Some (to_step_move (bs_zerointerval s) (bs_zerocount s) 0)
      else Some (to_step_move (bs_bestinterval s) (bs_bestcount s) (bs_bestadd s))
  end.

(** ** Checking *)

(** The loop of [check_line]: [false] is one of its error returns.  The comparisons
    of [uint32_t] with [int32_t] are unsigned. *)
Fixpoint check_loop (n : nat) (i : Z) (add interval p : Z) : bool :=
  match n with
  | O => true
  | S n =>
      let point := minmax_point (sc_queue_pos sc + i) in
      let p := u32 (p + interval) in
      if (p <? u32 (minp point)) || (u32 (maxp point) <? p) then false
      else if 2147483648 <=? interval then false
      else check_loop n (i + 1) add (u32 (interval + add)) p
  end.

Definition check_line (move : step_move) : Z :=
  if (sv_count move =? 0)
     || ((sv_interval move =? 0) && (sv_add move =? 0) && (1 <? sv_count move))
     || (2147483648 <=? sv_interval move) then ERROR_RET
  else if check_loop (Z.to_nat (sv_count move)) 0 (sv_add move) (sv_interval move) 0
  then 0 else ERROR_RET.
End compress.

(** ** Interface *)

Section stepcompress.
Context {D : Type} `{DoubleOps D}.
Notation MC := (M (stepcompress D)).

Definition scget {A} (f : stepcompress D -> A) : MC A := gets f.
Definition scmod (f : stepcompress D -> stepcompress D) : MC unit := modify f.

Definition stepcompress_alloc (oid : Z) : stepcompress D :=
  mk_sc [] 0 0 0 dzero dzero dzero 0 [] oid 0 0 (-1) 0 0 0 0 [].

Definition stepcompress_fill (max_error queue_step_msgtag set_next_step_dir_msgtag : Z) : MC unit :=
  scmod (fun sc => sc <| sc_max_error := max_error |>
                      <| sc_queue_step_msgtag := queue_step_msgtag |>
                      <| sc_set_next_step_dir_msgtag := set_next_step_dir_msgtag |>).

Definition stepcompress_set_invert_sdir (invert_sdir : Z) : MC unit :=
  let invert_sdir := b2z (z2b invert_sdir) in
  cur <- scget sc_invert_sdir ;;
  when (negb (invert_sdir =? cur))
    (scmod (fun sc => sc <| sc_invert_sdir := invert_sdir |>) ;;
     sdir <- scget sc_sdir ;;
     when (0 <=? sdir) (scmod (fun sc => sc <| sc_sdir := Z.lxor sdir 1 |>))).

(** The list is kept newest first; the loop removes from its other end. *)
Fixpoint free_old (end_clock : Z) (oldest_first : list history_steps) : list history_steps :=
  match oldest_first with
  | [] => []
  | hs :: rest => if end_clock <? hs_last_clock hs then hs :: rest else free_old end_clock rest
  end.

Definition free_history (end_clock : Z) : MC unit :=
  scmod (fun sc => sc <| sc_history_list ::= fun l => rev (free_old end_clock (rev l)) |>).

Definition stepcompress_get_oid : MC Z := scget sc_oid.
Definition stepcompress_get_step_dir : MC Z := scget sc_next_step_dir.

Definition HISTORY_EXPIRE : D := dofZ 30.

Definition calc_last_step_print_time : MC unit :=
  clock <- scget sc_last_step_clock ;;
  let lsc := dofZ clock in
  scmod (fun sc => sc <| sc_last_step_print_time :=
    (sc_mcu_time_offset sc + (lsc - dlit 1 2) / sc_mcu_freq sc)%D |>) ;;
  freq <- scget sc_mcu_freq ;;
  when ((freq * HISTORY_EXPIRE)%D <? lsc)%D
    (free_history (u64 (dtruncZ (lsc - freq * HISTORY_EXPIRE)%D))).

Definition stepcompress_set_time (time_offset mcu_freq : D) : MC unit :=
  scmod (fun sc => sc <| sc_mcu_time_offset := time_offset |>) ;;
  scmod (fun sc => sc <| sc_mcu_freq := mcu_freq |>) ;;
  calc_last_step_print_time.

(** [qm->min_clock] and [qm->req_clock]. *)
Definition qm_clocks (qm : queue_message D) : Z * Z :=
  match qm_when qm with QM_clocks mc rc => (mc, rc) | QM_times _ _ => (0, 0) end.
Definition qm_set_clocks (min_clock req_clock : Z) (qm : queue_message D) : queue_message D :=
  {| qm_len := qm_len qm; qm_msg := qm_msg qm; qm_when := QM_clocks min_clock req_clock;
     qm_notify_id := qm_notify_id qm |}.

(** A new message with the given clocks, at the end of [msg_queue]. *)
Definition queue_msg (data : list Z) (min_clock req_clock : Z) : MC unit :=
  '(qm, _) <- deref (message_alloc_and_encode data) ;;
  scmod (fun sc => sc <| sc_msg_queue ::= fun l => l ++ [qm_set_clocks min_clock req_clock qm] |>).

Definition add_move (first_clock : Z) (move : step_move) : MC unit :=
  let addfactor := add_factor (sv_count move) in
  let ticks := u32 (i32 (sv_add move * addfactor)
                    + u32 (sv_interval move * (sv_count move - 1))) in
  let last_clock := u64 (first_clock + ticks) in
  sc <- scget (fun sc => sc) ;;
  let lsc := sc_last_step_clock sc in
  let req_clock := if (sv_count move =? 1) && (u64 (lsc + CLOCK_DIFF_MAX) <=? first_clock)
                   then first_clock else lsc in
  queue_msg [u32 (sc_queue_step_msgtag sc); sc_oid sc; sv_interval move; sv_count move;
             u32 (sv_add move)] lsc req_clock ;;
  scmod (fun sc => sc <| sc_last_step_clock := last_clock |>) ;;
  let step_count := if negb (sc_sdir sc =? 0) then sv_count move else - sv_count move in
  let hs := mk_hist first_clock last_clock (sc_last_position sc) step_count
              (i32 (sv_interval move)) (sv_add move) in
  scmod (fun sc => sc <| sc_last_position := i64 (sc_last_position sc + step_count) |>) ;;
  scmod (fun sc => sc <| sc_history_list ::= cons hs |>).

(** The loop of [queue_flush]; every iteration takes at least one step. *)
Fixpoint flush_loop (fuel : nat) (move_clock : Z) : MC Z :=
  sc <- scget (fun sc => sc) ;;
  if sc_last_step_clock sc <? move_clock then
    match fuel with
    | O => stuck
    | S fuel =>
        move <- deref (compress_bisect_add sc) ;;
        let ret_ := check_line sc move in
        if negb (ret_ =? 0) then ret ret_
        else
          add_move (u64 (sc_last_step_clock sc + sv_interval move)) move ;;
          if sc_queue_next sc <=? sc_queue_pos sc + sv_count move then
            scmod (fun sc => sc <| sc_queue_pos := 0 |> <| sc_queue_next := 0 |>) ;;
            calc_last_step_print_time ;;
            ret 0
          else
            scmod (fun sc => sc <| sc_queue_pos := sc_queue_pos sc + sv_count move |>) ;;
            flush_loop fuel move_clock
    end
  else calc_last_step_print_time ;; ret 0.

Definition queue_flush (move_clock : Z) : MC Z :=
  sc <- scget (fun sc => sc) ;;
  if sc_queue_next sc <=? sc_queue_pos sc then ret 0
  else flush_loop (Z.to_nat (sc_queue_next sc - sc_queue_pos sc)) move_clock.

Definition stepcompress_flush_far (abs_step_clock : Z) : MC Z :=
  lsc <- scget sc_last_step_clock ;;
  add_move abs_step_clock (to_step_move (abs_step_clock - lsc) 1 0) ;;
  calc_last_step_print_time ;;
  ret 0.

Definition set_next_step_dir (sdir : Z) : MC Z :=
  cur <- scget sc_sdir ;;
  if cur =? sdir then ret 0
  else
    r <- queue_flush UINT64_MAX ;;
    if negb (r =? 0) then ret r
    else
      scmod (fun sc => sc <| sc_sdir := sdir |>) ;;
      sc <- scget (fun sc => sc) ;;
      queue_msg [u32 (sc_set_next_step_dir_msgtag sc); sc_oid sc;
                 u32 (Z.lxor sdir (sc_invert_sdir sc))] 0 (sc_last_step_clock sc) ;;
      ret 0.

(** [*sc->queue_next++ = clock]. *)
Definition queue_store (clock : Z) : MC unit :=
  sc <- scget (fun sc => sc) ;;
  if sc_queue_next sc <? sc_queue_end sc then
    scmod (fun sc => sc
      <| sc_queue ::= <[Z.to_nat (sc_queue_next sc) := u32 clock]> |>
      <| sc_queue_next := sc_queue_next sc + 1 |>)
  else stuck.

Definition queue_append_far : MC Z :=
  step_clock <- scget sc_next_step_clock ;;
  scmod (fun sc => sc <| sc_next_step_clock := 0 |>) ;;
  r <- queue_flush (u64 (step_clock - CLOCK_DIFF_MAX + 1)) ;;
  if negb (r =? 0) then ret r
  else
    lsc <- scget sc_last_step_clock ;;
    if u64 (lsc + CLOCK_DIFF_MAX) <=? step_clock then stepcompress_flush_far step_clock
    else queue_store step_clock ;; ret 0.

(** [while (in_use >= alloc) alloc *= 2]; the buffer is shorter than [2^31] cells. *)
Fixpoint grow (fuel : nat) (in_use alloc : Z) : option Z :=
  if alloc <=? in_use then
    match fuel with O => None | S fuel => grow fuel in_use (alloc * 2) end
  else Some alloc.

(** The part of [queue_append_extend] that makes room; cells that [realloc] adds are
    zero here and written before they are read. *)
Definition make_room : MC unit :=
  sc <- scget (fun sc => sc) ;;
  let in_use := sc_queue_next sc - sc_queue_pos sc in
  (if 0 <? sc_queue_pos sc then
     scmod (fun sc => sc <| sc_queue ::= fun q =>
       takeZ in_use (dropZ (sc_queue_pos sc) q) ++ dropZ in_use q |>)
   else
     let alloc := sc_queue_end sc in
     let alloc := if alloc =? 0 then QUEUE_START_SIZE else alloc in
     alloc <- deref (grow 32 in_use alloc) ;;
     scmod (fun sc => sc <| sc_queue ::= fun q =>
       takeZ alloc q ++ repeat 0 (Z.to_nat (alloc - zlen q)) |>)) ;;
  scmod (fun sc => sc <| sc_queue_pos := 0 |> <| sc_queue_next := in_use |>).

Definition queue_append_extend : MC Z :=
  sc <- scget (fun sc => sc) ;;
  r <- (if 65535 + 2000 <? sc_queue_next sc - sc_queue_pos sc then
          let flush := u32 (nthZ (sc_queue sc) (sc_queue_next sc - 65535)
                            - u32 (sc_last_step_clock sc)) in
          queue_flush (u64 (sc_last_step_clock sc + flush))
        else ret 0) ;;
  if negb (r =? 0) then ret r
  else
    sc <- scget (fun sc => sc) ;;
    when (sc_queue_end sc <=? sc_queue_next sc) make_room ;;
    clock <- scget sc_next_step_clock ;;
    queue_store clock ;;
    scmod (fun sc => sc <| sc_next_step_clock := 0 |>) ;;
    ret 0.

Definition queue_append : MC Z :=
  sc <- scget (fun sc => sc) ;;
  r <- (if negb (sc_next_step_dir sc =? sc_sdir sc)
        then set_next_step_dir (sc_next_step_dir sc) else ret 0) ;;
  if negb (r =? 0) then ret r
  else
    sc <- scget (fun sc => sc) ;;
    if u64 (sc_last_step_clock sc + CLOCK_DIFF_MAX) <=? sc_next_step_clock sc then queue_append_far
    else if sc_queue_end sc <=? sc_queue_next sc then queue_append_extend
    else
      queue_store (sc_next_step_clock sc) ;;
      scmod (fun sc => sc <| sc_next_step_clock := 0 |>) ;;
      ret 0.

Definition SDS_FILTER_TIME : D := dlit 750 1000000.

Definition stepcompress_append (sdir : Z) (print_time step_time : D) : MC Z :=
  sc <- scget (fun sc => sc) ;;
  let offset := (print_time - sc_last_step_print_time sc)%D in
  let rel_sc := ((step_time + offset) * sc_mcu_freq sc)%D in
  let step_clock := u64 (sc_last_step_clock sc + u64 (dtruncZ rel_sc)) in
  let store :=
    scmod (fun sc => sc <| sc_next_step_clock := step_clock |>) ;;
    scmod (fun sc => sc <| sc_next_step_dir := sdir |>) ;;
    ret 0 in
  if negb (sc_next_step_clock sc =? 0) then
    let diff := dofZ (i64 (step_clock - sc_next_step_clock sc)) in
    if negb (sdir =? sc_next_step_dir sc) && (diff <? SDS_FILTER_TIME * sc_mcu_freq sc)%D then
      scmod (fun sc => sc <| sc_next_step_clock := 0 |>) ;;
      scmod (fun sc => sc <| sc_next_step_dir := sdir |>) ;;
      ret 0
    else
      r <- queue_append ;;
      if negb (r =? 0) then ret r else store
  else store.

Definition stepcompress_commit : MC Z :=
  c <- scget sc_next_step_clock ;;
  if negb (c =? 0) then queue_append else ret 0.

Definition stepcompress_flush (move_clock : Z) : MC Z :=
  c <- scget sc_next_step_clock ;;
  r <- (if negb (c =? 0) && (c <=? move_clock) then queue_append else ret 0) ;;
  if negb (r =? 0) then ret r else queue_flush move_clock.

Definition stepcompress_reset (last_step_clock : Z) : MC Z :=
  r <- stepcompress_flush UINT64_MAX ;;
  if negb (r =? 0) then ret r
  else
    scmod (fun sc => sc <| sc_last_step_clock := last_step_clock |>) ;;
    scmod (fun sc => sc <| sc_sdir := -1 |>) ;;
    calc_last_step_print_time ;;
    ret 0.

Definition stepcompress_set_last_position (clock last_position : Z) : MC Z :=
  r <- stepcompress_flush UINT64_MAX ;;
  if negb (r =? 0) then ret r
  else
    scmod (fun sc => sc <| sc_last_position := last_position |>) ;;
    scmod (fun sc => sc <| sc_history_list ::= cons (mk_hist clock clock last_position 0 0 0) |>) ;;
    ret 0.

(** The number of steps of a history entry taken at [clock]. *)
Definition past_offset (hs : history_steps) (clock : Z) : Z :=
  let interval := hs_interval hs in
  let add := hs_add hs in
  let ticks := i32 (i32 (clock - hs_first_clock hs) + interval) in
  if add =? 0 then Z.quot ticks interval
  else
    let a := (dlit 1 2 * dofZ add)%D in
    let b := (dofZ interval - dlit 1 2 * dofZ add)%D in
    let c := dofZ (i32 (- ticks)) in
    i32 (dtruncZ ((dsqrt (b * b - dofZ 4 * a * c) - b) / (dofZ 2 * a))%D).

(** The loop of [stepcompress_find_past_position]. *)
Fixpoint find_past (clock last_position : Z) (l : list history_steps) : Z :=
  match l with
  | [] => last_position
  | hs :: l =>
      if clock <? hs_first_clock hs then find_past clock (hs_start_position hs) l
      else if hs_last_clock hs <=? clock then i64 (hs_start_position hs + hs_step_count hs)
      else
        let offset := past_offset hs clock in
        if hs_step_count hs <? 0 then i64 (hs_start_position hs - offset)
        else i64 (hs_start_position hs + offset)
  end.

Definition stepcompress_find_past_position (clock : Z) : MC Z :=
  sc <- scget (fun sc => sc) ;;
  ret (find_past clock (sc_last_position sc) (sc_history_list sc)).

Definition stepcompress_queue_msg (data : list Z) : MC Z :=
  r <- stepcompress_flush UINT64_MAX ;;
  if negb (r =? 0) then ret r
  else
    lsc <- scget sc_last_step_clock ;;
    queue_msg data 0 lsc ;;
    ret 0.

(** The loop of [stepcompress_extract_old]: the entries stored to [p]. *)
Fixpoint extract_old (max start_clock end_clock : Z) (l : list history_steps) : list history_steps :=
  match l with
  | [] => []
  | hs :: l =>
      if (hs_last_clock hs <=? start_clock) || (max <=? 0) then []
      else if end_clock <=? hs_first_clock hs then extract_old max start_clock end_clock l
      else hs :: extract_old (max - 1) start_clock end_clock l
  end.

Definition stepcompress_extract_old (max start_clock end_clock : Z) : MC (list history_steps) :=
  l <- scget sc_history_list ;; ret (extract_old max start_clock end_clock l).
End stepcompress.

(** ** Synchronisation *)

(** [struct steppersync]; [ss_sq] is the serial queue (with the command queue of the
    object), whose [serialqueue_send_batch] is the operation used here. *)
Record steppersync (Q D : Type) := mk_ss {
  ss_sq : Q; ss_sc_list : list (stepcompress D); ss_move_clocks : list Z }.
Arguments mk_ss {Q D}.
Arguments ss_sq {Q D}.
Arguments ss_sc_list {Q D}.
Arguments ss_move_clocks {Q D}.
#[export] Instance eta_ss {Q D} : Settable (steppersync Q D) := fun s =>
  mk_ss (ss_sq s) (ss_sc_list s) (ss_move_clocks s).

(** [mc[pos] = clock]; [None] outside of the array. *)
Definition mc_store (pos clock : Z) (mc : list Z) : option (list Z) :=
  if pos <? zlen mc then Some (<[Z.to_nat pos := clock]> mc) else None.

(** The loop of [heap_replace]: [pos] at least doubles in every iteration. *)
Fixpoint heap_loop (fuel : nat) (pos req_clock : Z) (mc : list Z) : option (list Z) :=
  match fuel with
  | O => None
  | S fuel =>
      let child1_pos := 2 * pos + 1 in
      let child2_pos := 2 * pos + 2 in
      let child2_clock := if child2_pos <? zlen mc then nthZ mc child2_pos else UINT64_MAX in
      let child1_clock := if child1_pos <? zlen mc then nthZ mc child1_pos else UINT64_MAX in
      if (req_clock <=? child1_clock) && (req_clock <=? child2_clock)
      then mc_store pos req_clock mc
      else if child1_clock <? child2_clock then
        mc' ← mc_store pos child1_clock mc; heap_loop fuel child1_pos req_clock mc'
      else
        mc' ← mc_store pos child2_clock mc; heap_loop fuel child2_pos req_clock mc'
  end.

Definition heap_replace (req_clock : Z) (mc : list Z) : option (list Z) :=
  heap_loop (S (length mc)) 0 req_clock mc.

Section steppersync.
Context {Q D : Type} `{DoubleOps D}.
Context (serialqueue_send_batch : list (queue_message D) -> Q -> Q).
Notation MS := (M (steppersync Q D)).

Definition steppersync_alloc (sq : Q) (sc_list : list (stepcompress D)) (move_num : Z) :
    steppersync Q D :=
  mk_ss sq sc_list (repeat 0 (Z.to_nat move_num)).

(** Run an operation of every [stepcompress] in order, up to the first error. *)
Fixpoint each_sc (op : M (stepcompress D) Z) (done rest : list (stepcompress D)) :
    outcome (list (stepcompress D)) Z :=
  match rest with
  | [] => Ret 0 done
  | sc :: rest =>
      match op sc with
      | Ret r sc' => if negb (r =? 0) then Ret r (done ++ sc' :: rest)
                     else each_sc op (done ++ [sc']) rest
      | Shut e sc' => Shut e (done ++ sc' :: rest)
      | Stuck => Stuck
      end
  end.

Definition run_each (op : M (stepcompress D) Z) : MS Z := fun ss =>
  match each_sc op [] (ss_sc_list ss) with
  | Ret r l => Ret r (ss <| ss_sc_list := l |>)
  | Shut e l => Shut e (ss <| ss_sc_list := l |>)
  | Stuck => Stuck
  end.

Definition steppersync_set_time (time_offset mcu_freq : D) : MS unit :=
  run_each (stepcompress_set_time time_offset mcu_freq ;; ret 0) ;; ret tt.

(** The search for the message with the lowest [req_clock]: its stepper and the
    clock. *)
Fixpoint find_lowest (i : nat) (l : list (stepcompress D)) (best : option nat) (req_clock : Z) :
    option nat * Z :=
  match l with
  | [] => (best, req_clock)
  | sc :: l =>
      match sc_msg_queue sc with
      | m :: _ => let rc := snd (qm_clocks m) in
                  if rc <? req_clock then find_lowest (S i) l (Some i) rc
                  else find_lowest (S i) l best req_clock
      | [] => find_lowest (S i) l best req_clock
      end
  end.

(** One iteration of the ordering loop: [None] is the [break]. *)
Definition next_msg (move_clock : Z) : MS (option (queue_message D)) :=
  ss <- gets (fun ss => ss) ;;
  match find_lowest 0 (ss_sc_list ss) None MAX_CLOCK with
  | (None, _) => ret None
  | (Some i, req_clock) =>
      sc <- deref (ss_sc_list ss !! i) ;;
      match sc_msg_queue sc with
      | [] => stuck
      | qm :: rest =>
          let min_clock := fst (qm_clocks qm) in
          if negb (min_clock =? 0) && (move_clock <? req_clock) then ret None
          else
            next_avail <- deref (head (ss_move_clocks ss)) ;;
            mc <- (if negb (min_clock =? 0) then deref (heap_replace min_clock (ss_move_clocks ss))
                   else ret (ss_move_clocks ss)) ;;
            modify (fun ss => ss
              <| ss_move_clocks := mc |>
              <| ss_sc_list ::= <[i := sc <| sc_msg_queue := rest |>]> |>) ;;
            ret (Some (qm_set_clocks next_avail req_clock qm))
      end
  end.

(** The ordering loop; every iteration takes a message. *)
Fixpoint order_loop (fuel : nat) (move_clock : Z) (msgs : list (queue_message D)) :
    MS (list (queue_message D)) :=
  match fuel with
  | O => stuck
  | S fuel =>
      m <- next_msg move_clock ;;
      match m with
      | None => ret msgs
      | Some qm => order_loop fuel move_clock (msgs ++ [qm])
      end
  end.

Definition total_msgs (l : list (stepcompress D)) : nat :=
  foldr (fun sc n => (length (sc_msg_queue sc) + n)%nat) 0%nat l.

Definition steppersync_flush (move_clock : Z) : MS Z :=
  r <- run_each (stepcompress_flush move_clock) ;;
  if negb (r =? 0) then ret r
  else
    fuel <- gets (fun ss => S (total_msgs (ss_sc_list ss))) ;;
    msgs <- order_loop fuel move_clock [] ;;
    when (bool_decide (msgs <> []))
      (modify (fun ss => ss <| ss_sq ::= serialqueue_send_batch msgs |>)) ;;
    ret 0.
End steppersync.
