(* ===== verification/StepcompressFacts.v ===== *)
(** * Properties of step compression

    The commands that [queue_flush] emits make the micro-controller step at most
    [max_error] ticks before, and never after, the requested times. *)

From S2P Require Import Prelude Double Wire Command CommandFacts Msgblock Sched SchedFacts Basecmd BasecmdFacts World WorldFacts Stepper StepperFacts Stepcompress.
From Stdlib Require Import Sorting.Sorted.

Section facts.
Context {D : Type} {DO : DoubleOps D}.
Implicit Types sc : stepcompress D.

(** ** The pending steps *)

(** The queued steps as absolute clocks: the buffer holds their lower 32 bits. *)
Record sc_rep (sc : stepcompress D) (reqs : list Z) : Prop := {
  rep_range : 0 <= sc_queue_pos sc /\ sc_queue_pos sc + zlen reqs = sc_queue_next sc /\
    sc_queue_next sc <= sc_queue_end sc;
  rep_cells : takeZ (zlen reqs) (dropZ (sc_queue_pos sc) (sc_queue sc)) = map u32 reqs;
  rep_sorted : StronglySorted Z.le (sc_last_step_clock sc :: reqs);
  rep_bound : Forall (fun r => r < sc_last_step_clock sc + CLOCK_DIFF_MAX /\ r < 2 ^ 63) reqs;
  rep_clock : 0 <= sc_last_step_clock sc < 2 ^ 63;
  rep_error : 0 <= sc_max_error sc < 4294967296;
  rep_oid : 0 <= sc_oid sc < 4294967296;
}.

(** Request [i] relative to the last step, and the one before it. *)
Definition req_off (sc : stepcompress D) (reqs : list Z) (i : nat) : Z :=
  nth i reqs 0 - sc_last_step_clock sc.
Definition req_prev (sc : stepcompress D) (reqs : list Z) (i : nat) : Z :=
  match i with O => 0 | S i => req_off sc reqs i end.

(** The tolerance for a step: [max_error], but at most half of the distance to the
    step before. *)
Definition tolerance (sc : stepcompress D) (reqs : list Z) (i : nat) : Z :=
  Z.min (sc_max_error sc) ((req_off sc reqs i - req_prev sc reqs i) / 2).

Lemma sorted_nth (l : list Z) i j :
  StronglySorted Z.le l -> (i <= j < length l)%nat -> nth i l 0 <= nth j l 0.
Proof.
  intros Hs. revert i j. induction Hs as [|x l Hs IH HF]; intros i j Hij; simpl in *; [lia|].
  destruct i as [|i], j as [|j]; try lia.
  - rewrite List.Forall_forall in HF. apply HF. apply nth_In. lia.
  - apply IH. lia.
Qed.

Lemma req_off_bounds sc reqs i :
  sc_rep sc reqs -> (i < length reqs)%nat ->
  0 <= req_prev sc reqs i <= req_off sc reqs i /\ req_off sc reqs i < CLOCK_DIFF_MAX.
Proof.
  intros [_ _ Hs Hb _ _ _] Hi.
  assert (Hup : req_off sc reqs i < CLOCK_DIFF_MAX).
  { unfold req_off. rewrite List.Forall_forall in Hb. specialize (Hb _ (nth_In reqs 0 Hi)). lia. }
  assert (Hlo : forall k, (k < length reqs)%nat -> 0 <= req_off sc reqs k).
  { intros k Hk. unfold req_off. pose proof (sorted_nth _ 0 (S k) Hs ltac:(simpl; lia)) as H.
    simpl in H. lia. }
  split; [|done]. destruct i as [|i]; simpl; [split; [lia|by apply Hlo]|].
  split; [apply Hlo; lia|]. unfold req_off.
  pose proof (sorted_nth _ (S i) (S (S i)) Hs ltac:(simpl; lia)) as H. simpl in H. lia.
Qed.

Lemma rep_cell sc reqs i :
  sc_rep sc reqs -> (i < length reqs)%nat ->
  nthZ (sc_queue sc) (sc_queue_pos sc + Z.of_nat i) = u32 (nth i reqs 0).
Proof.
  intros [(Hp & _) Hc _ _ _ _ _] Hi.
  assert (E : nth i (takeZ (zlen reqs) (dropZ (sc_queue_pos sc) (sc_queue sc))) 0 = u32 (nth i reqs 0)).
  { rewrite Hc. rewrite (nth_indep _ 0 (u32 0)) by (rewrite length_map; lia). apply map_nth. }
  rewrite <- E. unfold nthZ, takeZ, dropZ, zlen. rewrite !nth_lookup.
  rewrite lookup_take_lt by lia. rewrite lookup_drop. do 2 f_equal. lia.
Qed.

Lemma sub_u32 a b : u32 (u32 a - u32 b) = u32 (a - b).
Proof. unfold u32. by rewrite <- Zminus_mod. Qed.

(** What [minmax_point] computes. *)
Lemma minmax_point_rep sc reqs i :
  sc_rep sc reqs -> (i < length reqs)%nat ->
  minmax_point sc (sc_queue_pos sc + Z.of_nat i)
  = mk_points (req_off sc reqs i - tolerance sc reqs i) (req_off sc reqs i) /\
  0 <= tolerance sc reqs i /\
  req_prev sc reqs i <= req_off sc reqs i - tolerance sc reqs i.
Proof.
  intros Hr Hi. destruct (req_off_bounds sc reqs i Hr Hi) as [Hb Hm]. unfold CLOCK_DIFF_MAX in Hm.
  assert (Hpt : u32 (nthZ (sc_queue sc) (sc_queue_pos sc + Z.of_nat i) - u32 (sc_last_step_clock sc))
                = req_off sc reqs i).
  { rewrite (rep_cell sc reqs i Hr Hi), sub_u32. apply u32_small. unfold req_off in *. lia. }
  assert (Hpv : (if sc_queue_pos sc <? sc_queue_pos sc + Z.of_nat i
    then u32 (nthZ (sc_queue sc) (sc_queue_pos sc + Z.of_nat i - 1) - u32 (sc_last_step_clock sc)) else 0)
    = req_prev sc reqs i).
  { destruct i as [|i]; [by rewrite Z.add_0_r, Z.ltb_irrefl|].
    replace (sc_queue_pos sc <? sc_queue_pos sc + Z.of_nat (S i)) with true by (symmetry; apply Z.ltb_lt; lia).
    replace (sc_queue_pos sc + Z.of_nat (S i) - 1) with (sc_queue_pos sc + Z.of_nat i) by lia.
    destruct (req_off_bounds sc reqs i Hr ltac:(lia)) as [Hb' Hm']. unfold CLOCK_DIFF_MAX in Hm'.
    rewrite (rep_cell sc reqs i Hr) by lia. rewrite sub_u32. simpl. apply u32_small.
    unfold req_off in *. lia. }
  unfold minmax_point. rewrite Hpt, Hpv.
  rewrite (u32_small (req_off sc reqs i - req_prev sc reqs i)) by lia.
  pose proof (rep_error _ _ Hr) as He. set (g := req_off sc reqs i - req_prev sc reqs i) in *.
  assert (Hg : 0 <= g / 2 <= g) by (split; [apply Z.div_pos|apply Z.div_le_upper_bound]; lia).
  assert (Et : (if sc_max_error sc <? g / 2 then sc_max_error sc else g / 2) = tolerance sc reqs i).
  { unfold tolerance. fold g. destruct (Z.ltb_spec (sc_max_error sc) (g / 2)); lia. }
  rewrite Et. assert (Ht : 0 <= tolerance sc reqs i <= g) by (unfold tolerance; fold g; lia).
  split; [|lia]. rewrite !i32_small by lia. done.
Qed.

(** ** Checked moves *)

(** Step [k] of a move takes place this long after the last step. *)
Notation step_off m k := (step_time 0 (sv_interval m) (sv_add m) k).

Lemma step_off_one i a : step_time 0 i a 1 = i.
Proof. rewrite step_time_one. lia. Qed.

Lemma step_shift p i a k : 0 <= k ->
  step_time p i a (k + 1) = step_time (p + i) (i + a) a k.
Proof.
  intros Hk. unfold step_time.
  assert (H : (k + 1) * (k + 1 - 1) / 2 = k * (k - 1) / 2 + k).
  { replace ((k + 1) * (k + 1 - 1)) with (k * (k - 1) + k * 2) by lia. by rewrite Z.div_add by lia. }
  rewrite H. lia.
Qed.

Lemma check_loop_sound sc reqs n i add iv p :
  sc_rep sc reqs -> check_loop sc n (Z.of_nat i) add iv p = true ->
  (i + n <= length reqs)%nat -> 0 <= iv < 4294967296 -> 0 <= p < 2147483648 ->
  -32768 <= add < 32768 ->
  forall k, 1 <= k <= Z.of_nat n ->
    let j := (i + Z.to_nat (k - 1))%nat in
    req_off sc reqs j - tolerance sc reqs j <= step_time p iv add k <= req_off sc reqs j /\
    0 <= iv + add * (k - 1) < 2147483648.
Proof.
  intros Hr. revert i iv p. induction n as [|n IH]; intros i iv p Hc Hl Hiv Hp Hadd k Hk; [lia|].
  cbn [check_loop] in Hc.
  destruct (minmax_point_rep sc reqs i Hr ltac:(lia)) as (Emm & Ht0 & Hlo). rewrite Emm in Hc.
  destruct (req_off_bounds sc reqs i Hr ltac:(lia)) as [Hb Hm]. unfold CLOCK_DIFF_MAX in Hm.
  cbn [minp maxp] in Hc. rewrite (u32_small (req_off sc reqs i)) in Hc by lia.
  rewrite (u32_small (req_off sc reqs i - tolerance sc reqs i)) in Hc by lia.
  destruct ((u32 (p + iv) <? _) || _) eqn:Eb; [done|]. apply orb_false_iff in Eb as [E1 E2].
  destruct (Z.leb_spec 2147483648 iv) as [|Hiv2]; [done|].
  rewrite (u32_small (p + iv)) in E1, E2, Hc by lia.
  destruct (decide (k = 1)) as [->|Hk1].
  - cbn zeta. change (Z.to_nat (1 - 1)) with 0%nat. rewrite Nat.add_0_r, step_time_one. lia.
  - destruct n as [|n]; [lia|].
    assert (Hnext : 0 <= iv + add < 2147483648 /\ u32 (iv + add) = iv + add).
    { cbn [check_loop] in Hc.
      destruct ((_ <? _) || _) in Hc; [done|].
      destruct (Z.leb_spec 2147483648 (u32 (iv + add))) as [|Hn]; [done|].
      unfold u32 in *. destruct (Z.lt_ge_cases (iv + add) 0).
      - rewrite <- (Z_mod_plus_full (iv + add) 1) in Hn.
        rewrite Z.mod_small in Hn by lia. lia.
      - rewrite Z.mod_small in Hn |- * by lia. lia. }
    destruct Hnext as [Hn1 Hn2]. rewrite Hn2 in Hc.
    replace (Z.of_nat i + 1) with (Z.of_nat (S i)) in Hc by lia.
    destruct (IH (S i) (iv + add) (p + iv) Hc ltac:(lia) ltac:(lia) ltac:(lia) Hadd (k - 1) ltac:(lia))
      as [H1 H2].
    replace (S i + Z.to_nat (k - 1 - 1))%nat with (i + Z.to_nat (k - 1))%nat in H1 by lia.
    assert (E : step_time p iv add k = step_time (p + iv) (iv + add) add (k - 1)).
    { rewrite <- step_shift by lia. f_equal. lia. }
    cbn zeta. rewrite E. split; [lia|].
    replace (iv + add * (k - 1)) with (iv + add + add * (k - 1 - 1)) by lia. lia.
Qed.

Definition move_ok (m : step_move) : Prop :=
  0 <= sv_interval m < 4294967296 /\ 0 <= sv_count m < 65536 /\ -32768 <= sv_add m < 32768.

(** A move that [check_line] accepts. *)
Lemma check_line_sound sc reqs m :
  sc_rep sc reqs -> move_ok m -> sv_count m <= zlen reqs -> check_line sc m = 0 ->
  1 <= sv_count m /\ forall k, 1 <= k <= sv_count m ->
    let j := Z.to_nat (k - 1) in
    req_off sc reqs j - tolerance sc reqs j <= step_off m k <= req_off sc reqs j /\
    0 <= sv_interval m + sv_add m * (k - 1) < 2147483648.
Proof.
  intros Hr (Hi & Hc & Ha) Hl Hck. unfold check_line in Hck.
  destruct ((sv_count m =? 0) || _ || _) eqn:Eb; [done|].
  apply orb_false_iff in Eb as [Eb _]. apply orb_false_iff in Eb as [Eb _]. apply Z.eqb_neq in Eb.
  destruct (check_loop sc _ 0 _ _ _) eqn:El; [|done].
  split; [lia|]. intros k Hk. unfold zlen in Hl.
  apply (check_loop_sound sc reqs (Z.to_nat (sv_count m)) 0); try done; lia.
Qed.

(** The arithmetic of [add_move] is exact on such a move. *)
Lemma add_times_factor iv a n p :
  1 <= n -> 0 <= iv + a * (n - 1) -> step_time 0 iv a n = p -> 0 <= iv -> p < 1073741824 ->
  Z.abs a * (n * (n - 1) / 2) <= p /\ (a = 0 \/ n * (n - 1) < 2147483648).
Proof.
  intros Hn Hlast Hp Hiv Hmax.
  assert (Hf : 2 * (n * (n - 1) / 2) = n * (n - 1)).
  { rewrite <- Z.divide_div_mul_exact, Z.mul_comm, Z.div_mul; try lia.
    destruct (Zeven_odd_dec n) as [He|Ho].
    - apply Zeven_div2 in He. exists (Z.div2 n * (n - 1)). lia.
    - apply Zodd_div2 in Ho. exists (n * Z.div2 n). lia. }
  unfold step_time in Hp. set (f := n * (n - 1) / 2) in *.
  assert (H1 : Z.abs a * f <= p).
  { destruct (Z.abs_spec a) as [[? ->]|[? ->]]; nia. }
  split; [done|]. destruct (decide (a = 0)) as [|Ha]; [by left|right]. nia.
Qed.

Lemma ticks_exact iv a n :
  1 <= n < 65536 -> -32768 <= a < 32768 -> 0 <= iv < 2147483648 -> 0 <= iv + a * (n - 1) ->
  0 <= step_time 0 iv a n - iv -> step_time 0 iv a n < 1073741824 ->
  u32 (i32 (a * add_factor n) + u32 (iv * (n - 1))) = step_time 0 iv a n - iv.
Proof.
  intros Hn Ha Hiv Hlast Hpos Hmax.
  destruct (add_times_factor iv a n _ ltac:(lia) Hlast eq_refl ltac:(lia) Hmax) as [Hb Hc].
  assert (Hprod : i32 (a * add_factor n) = a * (n * (n - 1) / 2)).
  { destruct Hc as [->|Hc]; [done|]. unfold add_factor. rewrite (i32_small (n * (n - 1))) by nia.
    rewrite Z.quot_div_nonneg by nia. apply i32_small.
    assert (Hf : 0 <= n * (n - 1) / 2) by (apply Z.div_pos; nia).
    set (f := n * (n - 1) / 2) in *. clearbody f.
    destruct (Z.abs_spec a) as [[? E]|[? E]]; rewrite E in Hb; nia. }
  rewrite Hprod. unfold u32. rewrite Zplus_mod_idemp_r. unfold step_time in *.
  rewrite Z.mod_small; lia.
Qed.

(** ** The number of steps of a compressed move *)

Lemma fit_loop_count (sc : stepcompress D) fuel avail add nmin nmax iv n :
  1 <= n <= avail -> avail - n <= Z.of_nat fuel ->
  match fit_loop sc fuel avail add nmin nmax iv n with
  | Fit_all _ c => 1 <= c <= avail
  | Fit_break _ _ _ _ nc => 2 <= nc <= avail
  end.
Proof.
  revert nmin nmax iv n. induction fuel as [|fuel IH]; intros nmin nmax iv n Hn Hf; cbn [fit_loop].
  - lia.
  - destruct (Z.leb_spec avail (n + 1 - 1)); [lia|]. cbv zeta.
    match goal with |- context [if ?b then Fit_break _ _ _ _ _ else _] => destruct b end; [lia|].
    apply IH; lia.
Qed.

Definition counts_ok (avail : Z) (s : bisect) : Prop :=
  1 <= bs_bestcount s <= avail /\ 0 <= bs_zerocount s <= avail.

Lemma note_best_counts avail s iv c b s' :
  counts_ok avail s -> 1 <= c <= avail -> note_best s iv c = (b, s') -> counts_ok avail s'.
Proof.
  intros [H1 H2] Hc. unfold note_best. destruct (_ || _); intros [= <- <-]; [|done].
  split; cbn [bs_bestcount bs_zerocount]; [lia|]. destruct (_ =? 0); lia.
Qed.

Lemma bisect_step_counts (sc : stepcompress D) avail s :
  1 <= avail < 65536 -> counts_ok avail s ->
  match bisect_step sc avail s with
  | B_return m => 1 <= sv_count m <= avail
  | B_break s' | B_continue s' => counts_ok avail s'
  end.
Proof.
  intros Ha Hs. unfold bisect_step.
  pose proof (fit_loop_count sc (Z.to_nat avail) avail (bs_add s) (bs_outer_min s) (bs_outer_max s)
    (bs_outer_max s) 1 ltac:(lia) ltac:(lia)) as Hf.
  destruct (fit_loop _ _ _ _ _ _ _ _) as [iv c|np nmin nmax iv nc].
  - cbn [sv_count to_step_move]. rewrite u16_small; lia.
  - destruct (note_best s iv (nc - 1)) as [b s1] eqn:Eb.
    apply (note_best_counts avail) in Eb; [|done|lia].
    destruct (b && (512 <? nc - 1)); [done|].
    destruct (narrow _ _ _ _ _ _ _) as [[? ?] [? ?]].
    by destruct (_ <? _).
Qed.

Lemma bisect_loop_counts (sc : stepcompress D) fuel avail s :
  1 <= avail < 65536 -> counts_ok avail s ->
  match bisect_loop sc fuel avail s with
  | Some (inl m) => 1 <= sv_count m <= avail
  | Some (inr s') => counts_ok avail s'
  | None => True
  end.
Proof.
  intros Ha. revert s. induction fuel as [|fuel IH]; intros s Hs; cbn [bisect_loop]; [done|].
  pose proof (bisect_step_counts sc avail s Ha Hs) as H.
  destruct (bisect_step sc avail s); [done|done|]. by apply IH.
Qed.

Lemma to_step_move_ok i c a : move_ok (to_step_move i c a).
Proof.
  split; [apply u32_range|]. split; [apply u16_range|]. apply i16_range.
Qed.

Lemma compress_count (sc : stepcompress D) m :
  0 < sc_queue_next sc - sc_queue_pos sc -> compress_bisect_add sc = Some m ->
  move_ok m /\ 1 <= sv_count m <= sc_queue_next sc - sc_queue_pos sc.
Proof.
  intros Hn. unfold compress_bisect_add.
  set (avail := Z.min _ 65535).
  assert (Ha : 1 <= avail < 65536 /\ avail <= sc_queue_next sc - sc_queue_pos sc) by lia.
  match goal with |- context [bisect_loop sc ?f avail ?s] =>
    pose proof (bisect_loop_counts sc f avail s (proj1 Ha)) as Hl;
    destruct (bisect_loop sc f avail s) as [[m'|s']|] eqn:El; [| |done] end.
  - intros [= ->]. specialize (Hl ltac:(split; simpl; lia)). split; [|lia].
    clear -El. revert El. generalize (Z.to_nat 131072) as fuel.
    match goal with |- forall fuel, bisect_loop _ _ _ ?s = _ -> _ => generalize s end.
    intros s fuel. revert s. induction fuel as [|fuel IH]; intros s; cbn [bisect_loop]; [done|].
    unfold bisect_step. destruct (fit_loop _ _ _ _ _ _ _ _).
    + intros [= <-]. apply to_step_move_ok.
    + destruct (note_best _ _ _) as [b s1]. destruct (b && _); [done|].
      destruct (narrow _ _ _ _ _ _ _) as [[? ?] [? ?]]. destruct (_ <? _); [done|]. apply IH.
  - specialize (Hl ltac:(split; simpl; lia)). destruct Hl as [H1 H2].
    destruct (Z.leb_spec (bs_bestcount s') (bs_zerocount s' + Z.quot (bs_zerocount s') 16)) as [Hle|Hgt];
      intros [= <-]; (split; [apply to_step_move_ok|]); cbn [sv_count to_step_move]; rewrite u16_small; try lia.
    assert (Z.quot (bs_zerocount s') 16 <= bs_zerocount s' ).
    { rewrite Z.quot_div_nonneg by lia. apply Z.div_le_upper_bound; lia. }
    destruct (decide (bs_zerocount s' = 0)) as [E|]; [rewrite E in Hle; change (Z.quot 0 16) with 0 in Hle; lia|lia].
Qed.

(** ** Emitting moves *)

(** The parameters of a [queue_step] command. *)
Definition queue_step_data (sc : stepcompress D) (m : step_move) : list Z :=
  [u32 (sc_queue_step_msgtag sc); sc_oid sc; sv_interval m; sv_count m; u32 (sv_add m)].

(** The buffer and the parameters are as before. *)
Definition kept (sc sc' : stepcompress D) : Prop :=
  sc_queue sc' = sc_queue sc /\ sc_max_error sc' = sc_max_error sc /\ sc_oid sc' = sc_oid sc /\
  sc_queue_step_msgtag sc' = sc_queue_step_msgtag sc /\ sc_sdir sc' = sc_sdir sc.

Lemma kept_trans a b c : kept a b -> kept b c -> kept a c.
Proof. intros (?&?&?&?&?) (?&?&?&?&?). split_and!; congruence. Qed.

(** The steps of a move that starts at [t0], and of a sequence of moves. *)
Definition move_times (t0 : Z) (m : step_move) : list Z :=
  map (fun k => step_time t0 (sv_interval m) (sv_add m) (Z.of_nat k)) (seq 1 (Z.to_nat (sv_count m))).
Definition move_end (t0 : Z) (m : step_move) : Z :=
  step_time t0 (sv_interval m) (sv_add m) (sv_count m).
Fixpoint moves_times (t0 : Z) (ms : list step_move) : list Z :=
  match ms with [] => [] | m :: ms => move_times t0 m ++ moves_times (move_end t0 m) ms end.
Definition moves_end (t0 : Z) (ms : list step_move) : Z := foldl move_end t0 ms.

Definition dir_of (sdir : Z) : Z := if sdir =? 0 then -1 else 1.

(** A message that carries a [queue_step] command for [m]. *)
Definition carries (sc : stepcompress D) (m : step_move) (qm : queue_message D) : Prop :=
  qm_msg qm = encode_args (queue_step_data sc m).

Lemma queue_msg_run data mc rc sc :
  Forall is_u32 data -> (length data <= 11)%nat ->
  exists qm, qm_msg qm = encode_args data /\ qm_clocks qm = (mc, rc) /\
    queue_msg data mc rc sc = Ret tt (sc <| sc_msg_queue ::= fun l => l ++ [qm] |>).
Proof.
  intros Hd Hl. unfold queue_msg, message_alloc_and_encode.
  assert (Hlen : zlen (encode_args data) <= 5 * zlen data).
  { clear Hl. induction Hd as [|x l Hx _ IH]; [done|]. unfold encode_args in *. cbn [map concat].
    rewrite zlen_app, zlen_cons. pose proof (encode_int_length_bound x Hx). lia. }
  rewrite encode_loop_spec by (try done; unfold zlen; simpl; lia).
  change (zlen []) with 0. rewrite decide_True by (unfold zlen in *; lia). cbn [app].
  cbn [deref]. rewrite bind_ret_l. eexists. split; [|split; [|reflexivity]]; [|reflexivity].
  cbn [qm_msg qm_set_clocks message_set]. unfold takeZ. apply take_ge. unfold zlen. lia.
Qed.

Lemma add_move_run sc first m :
  0 <= sc_oid sc < 4294967296 -> move_ok m ->
  exists sc1 qm, add_move first m sc = Ret tt sc1 /\ carries sc m qm /\
    fst (qm_clocks qm) = sc_last_step_clock sc /\
    sc_msg_queue sc1 = sc_msg_queue sc ++ [qm] /\
    sc_last_step_clock sc1 = u64 (first + u32 (i32 (sv_add m * add_factor (sv_count m))
                                               + u32 (sv_interval m * (sv_count m - 1)))) /\
    sc_last_position sc1 = i64 (sc_last_position sc + dir_of (sc_sdir sc) * sv_count m) /\
    sc_queue_pos sc1 = sc_queue_pos sc /\ sc_queue_next sc1 = sc_queue_next sc /\ kept sc sc1.
Proof.
  intros Ho (Hi & Hc & Ha). unfold add_move. cbv zeta.
  change (scget (fun sc => sc)) with (gets (fun sc : stepcompress D => sc)).
  rewrite (bind_Ret (gets (fun sc : stepcompress D => sc)) _ sc sc sc eq_refl).
  match goal with |- context [queue_msg ?d ?mc ?rc] =>
    destruct (queue_msg_run d mc rc sc) as (qm & Hq & Hcl & Hrun) end.
  { repeat (apply Forall_cons; split; [unfold is_u32; try apply u32_range; lia|]). constructor. }
  { simpl. lia. }
  rewrite (bind_Ret _ _ _ _ _ Hrun).
  do 2 eexists. split; [reflexivity|]. split; [exact Hq|]. split; [by rewrite Hcl|].
  split; [reflexivity|]. split; [reflexivity|]. split; [|by split_and!].
  cbn [sc_last_position upd]. unfold dir_of. destruct (sc_sdir sc =? 0); cbn [negb]; f_equal; lia.
Qed.

Lemma calc_time_run sc :
  exists sc1, calc_last_step_print_time sc = Ret tt sc1 /\ kept sc sc1 /\
    sc_msg_queue sc1 = sc_msg_queue sc /\ sc_last_step_clock sc1 = sc_last_step_clock sc /\
    sc_last_position sc1 = sc_last_position sc /\
    sc_queue_pos sc1 = sc_queue_pos sc /\ sc_queue_next sc1 = sc_queue_next sc.
Proof.
  unfold calc_last_step_print_time, scget, scmod, gets, modify, bind, when, free_history.
  destruct (dltb _ _); eexists; (split; [reflexivity|]); by split_and!.
Qed.

(** A checked move covers a prefix of the requests. *)
Definition within (err : Z) (t r : Z) : Prop := r - err <= t <= r.

Lemma move_covers sc reqs m :
  sc_rep sc reqs -> move_ok m -> sv_count m <= zlen reqs -> check_line sc m = 0 ->
  Forall2 (within (sc_max_error sc)) (move_times (sc_last_step_clock sc) m)
    (takeZ (sv_count m) reqs) /\
  u64 (u64 (sc_last_step_clock sc + sv_interval m)
       + u32 (i32 (sv_add m * add_factor (sv_count m)) + u32 (sv_interval m * (sv_count m - 1))))
  = move_end (sc_last_step_clock sc) m /\
  sc_last_step_clock sc <= move_end (sc_last_step_clock sc) m <= nth (Z.to_nat (sv_count m - 1)) reqs 0.
Proof.
  intros Hr Hm Hl Hck.
  destruct (check_line_sound sc reqs m Hr Hm Hl Hck) as [Hc1 Hk].
  destruct Hm as (Hi & Hc & Ha). pose proof (rep_clock _ _ Hr) as Hclk.
  assert (Ht : forall k, step_time (sc_last_step_clock sc) (sv_interval m) (sv_add m) k
    = sc_last_step_clock sc + step_off m k) by (intros k; unfold step_time; lia).
  assert (Hlast : 0 <= step_off m (sv_count m) - sv_interval m).
  { destruct (Hk 1 ltac:(lia)) as [H1 _]. rewrite step_off_one in H1.
    destruct (decide (sv_count m = 1)) as [->|Hne]; [rewrite step_off_one; lia|].
    destruct (Hk (sv_count m) ltac:(lia)) as [H2 _]. cbn zeta in H1, H2.
    set (j := Z.to_nat (sv_count m - 1)) in *.
    destruct (minmax_point_rep sc reqs j Hr) as (_ & _ & Hp); [unfold zlen in Hl; lia|].
    assert (Hpr : req_off sc reqs 0 <= req_prev sc reqs j).
    { unfold j. replace (Z.to_nat (sv_count m - 1)) with (S (Z.to_nat (sv_count m - 2))) by lia.
      cbn [req_prev]. unfold req_off.
      pose proof (sorted_nth _ 1 (S (Z.to_nat (sv_count m - 2))) (rep_sorted _ _ Hr)
        ltac:(simpl; unfold zlen in Hl; lia)) as H. cbn [nth] in H. lia. }
    change (Z.to_nat (1 - 1)) with 0%nat in H1. lia. }
  destruct (Hk (sv_count m) ltac:(lia)) as [Hend Hiv]. cbn zeta in Hend.
  destruct (Hk 1 ltac:(lia)) as [Hf1 Hiv1].
  destruct (req_off_bounds sc reqs (Z.to_nat (sv_count m - 1)) Hr) as [Hb Hmax];
    [unfold zlen in Hl; lia|]. unfold CLOCK_DIFF_MAX in Hmax.
  split; [|split].
  - apply Forall2_same_length_lookup_2.
    { unfold move_times, takeZ. rewrite length_map, length_seq, length_take. unfold zlen in Hl. lia. }
    intros i t r Hti Hri. unfold move_times in Hti.
    apply list_lookup_fmap_Some in Hti as (k & -> & Hki).
    apply lookup_seq in Hki as [-> Hik].
    unfold takeZ in Hri. rewrite lookup_take_lt in Hri by lia.
    destruct (Hk (Z.of_nat (1 + i)) ltac:(lia)) as [H _]. cbn zeta in H.
    replace (Z.to_nat (Z.of_nat (1 + i) - 1)) with i in H by lia.
    assert (Er : nth i reqs 0 = r) by (by rewrite nth_lookup, Hri).
    unfold within. rewrite Ht. unfold tolerance, req_off in H. rewrite Er in H. lia.
  - unfold move_end. rewrite Ht. rewrite ticks_exact; try lia.
    + unfold u64. rewrite Zplus_mod_idemp_l.
      replace (_ + sv_interval m + _) with (sc_last_step_clock sc + step_off m (sv_count m)) by lia.
      apply Z.mod_small. lia.
  - unfold move_end. rewrite Ht. unfold req_off in Hend.
    pose proof (minmax_point_rep sc reqs (Z.to_nat (sv_count m - 1)) Hr ltac:(unfold zlen in Hl; lia)).
    lia.
Qed.

(** ** Flushing *)

Lemma sorted_drop (n : nat) x (l : list Z) t :
  StronglySorted Z.le (x :: l) -> (forall y, y ∈ drop n l -> t <= y) -> StronglySorted Z.le (t :: drop n l).
Proof.
  intros Hs Ht. apply StronglySorted_inv in Hs as [Hs _]. constructor.
  - revert n Ht. induction Hs as [|y l Hs IH HF]; intros n Ht; [destruct n; constructor|].
    destruct n as [|n]; [by constructor|]. by apply (IH n).
  - apply List.Forall_forall. intros y Hy. apply Ht. by apply list_elem_of_In.
Qed.

(** The state that has taken [c] of the requests, the last one at [t]. *)
Lemma rep_advance sc sc' reqs c t :
  sc_rep sc reqs -> kept sc sc' -> 1 <= c <= zlen reqs ->
  sc_last_step_clock sc <= t <= nth (Z.to_nat (c - 1)) reqs 0 ->
  sc_last_step_clock sc' = t ->
  (sc_queue_pos sc' = sc_queue_pos sc + c /\ sc_queue_next sc' = sc_queue_next sc \/
   c = zlen reqs /\ sc_queue_pos sc' = 0 /\ sc_queue_next sc' = 0) ->
  sc_rep sc' (dropZ c reqs).
Proof.
  intros [Hrg Hcl Hs Hb Hclk He Ho] (Kq & Ke & Ko & _) Hc Ht El Hpos.
  unfold zlen in *. unfold dropZ in *.
  assert (Hin : nth (Z.to_nat (c - 1)) reqs 0 ∈ reqs) by (apply list_elem_of_In, nth_In; lia).
  assert (Hge : forall y, y ∈ drop (Z.to_nat c) reqs -> t <= y).
  { intros y Hy. apply list_elem_of_lookup in Hy as [i Hi]. rewrite lookup_drop in Hi.
    assert (Ey : nth (Z.to_nat c + i) reqs 0 = y) by (by rewrite nth_lookup, Hi).
    apply lookup_lt_Some in Hi.
    pose proof (sorted_nth _ (S (Z.to_nat (c - 1))) (S (Z.to_nat c + i)) Hs ltac:(simpl; lia)) as H.
    cbn [nth] in H. lia. }
  rewrite Forall_forall in Hb. destruct (Hb _ Hin) as [Hb1 Hb2].
  split.
  - unfold sc_queue_end, zlen in *. rewrite Kq, length_drop. destruct Hpos as [[-> ->]|(-> & -> & ->)]; lia.
  - rewrite Kq. unfold zlen, takeZ in *. rewrite length_drop.
    destruct Hpos as [[-> _]|(-> & -> & _)].
    + assert (E : drop (Z.to_nat c) (map u32 reqs) = map u32 (drop (Z.to_nat c) reqs)) by (by rewrite fmap_drop).
      rewrite <- E, <- Hcl. unfold dropZ. rewrite skipn_firstn_comm, drop_drop.
      f_equal; [lia|]. f_equal. lia.
    + rewrite drop_ge by lia. replace (Z.to_nat _) with 0%nat by lia. done.
  - rewrite El. by eapply sorted_drop.
  - apply Forall_forall. intros y Hy. assert (Hy' : y ∈ reqs).
    { apply list_elem_of_lookup in Hy as [i Hi]. rewrite lookup_drop in Hi. by eapply list_elem_of_lookup_2. }
    destruct (Hb y Hy'). rewrite El. lia.
  - rewrite El. lia.
  - by rewrite Ke.
  - by rewrite Ko.
Qed.

Lemma rep_ext sc sc' reqs :
  sc_rep sc reqs -> kept sc sc' -> sc_last_step_clock sc' = sc_last_step_clock sc ->
  sc_queue_pos sc' = sc_queue_pos sc -> sc_queue_next sc' = sc_queue_next sc -> sc_rep sc' reqs.
Proof.
  intros [Hrg Hcl Hs Hb Hclk He Ho] (Kq & Ke & Ko & _) E1 E2 E3.
  split; unfold sc_queue_end in *; rewrite ?Kq, ?Ke, ?Ko, ?E1, ?E2, ?E3; done.
Qed.

(** The outcome of a flush: moves [ms] have been emitted for the requests [done];
    [rest] are left. *)
Definition flushed (sc sc' : stepcompress D) (ms : list step_move) (taken rest : list Z) : Prop :=
  sc_rep sc' rest /\ kept sc sc' /\
  Forall2 (within (sc_max_error sc)) (moves_times (sc_last_step_clock sc) ms) taken /\
  sc_last_step_clock sc' = moves_end (sc_last_step_clock sc) ms /\
  (exists qms, sc_msg_queue sc' = sc_msg_queue sc ++ qms /\ Forall2 (carries sc) ms qms) /\
  sc_last_position sc' = i64 (sc_last_position sc + dir_of (sc_sdir sc) * zlen taken).

Lemma flushed_nil sc sc' rest :
  sc_rep sc' rest -> kept sc sc' -> sc_msg_queue sc' = sc_msg_queue sc ->
  sc_last_step_clock sc' = sc_last_step_clock sc -> sc_last_position sc' = sc_last_position sc ->
  -9223372036854775808 <= sc_last_position sc < 9223372036854775808 ->
  flushed sc sc' [] [] rest.
Proof.
  intros Hr Hk Hm Hc Hp Hpos. split; [done|]. split; [done|]. split; [constructor|].
  split; [done|]. split; [exists []; rewrite app_nil_r; by split|].
  rewrite Hp. unfold zlen. simpl. rewrite Z.mul_0_r, Z.add_0_r. unfold i64.
  rewrite Z.mod_small; lia.
Qed.

Lemma kept_refl sc : kept sc sc.
Proof. by split_and!. Qed.

Lemma i64_range z : -9223372036854775808 <= i64 z < 9223372036854775808.
Proof. unfold i64. pose proof (Z.mod_pos_bound (z + 9223372036854775808) 18446744073709551616). lia. Qed.

Lemma i64_add a b : i64 (i64 a + b) = i64 (a + b).
Proof.
  unfold i64. set (M := 18446744073709551616). set (H := 9223372036854775808).
  replace ((a + H) mod M - H + b + H) with ((a + H) mod M + b) by lia.
  rewrite Zplus_mod_idemp_l. do 2 f_equal. lia.
Qed.

Lemma flushed_cons sc sc1 sc' m ms c taken rest qm :
  flushed sc1 sc' ms taken rest -> kept sc sc1 -> carries sc m qm ->
  sc_msg_queue sc1 = sc_msg_queue sc ++ [qm] ->
  sc_last_step_clock sc1 = move_end (sc_last_step_clock sc) m ->
  sc_last_position sc1 = i64 (sc_last_position sc + dir_of (sc_sdir sc) * zlen c) ->
  Forall2 (within (sc_max_error sc)) (move_times (sc_last_step_clock sc) m) c ->
  flushed sc sc' (m :: ms) (c ++ taken) rest.
Proof.
  intros (Hr & Hk & HF & Hl & (qms & Hq & Hc) & Hp) Hk1 Hcar Hq1 Hl1 Hp1 HF1.
  destruct Hk1 as (Kq & Ke & Ko & Kt & Kd) eqn:Ek. clear Ek.
  split; [done|]. split; [by eapply kept_trans|]. split; [|split; [|split]].
  - cbn [moves_times]. apply Forall2_app; [done|]. rewrite <- Hl1, <- Ke. exact HF.
  - rewrite Hl, Hl1. done.
  - exists (qm :: qms). split; [by rewrite Hq, Hq1, <- app_assoc|]. constructor; [done|].
    eapply Forall2_impl; [exact Hc|]. intros x y. unfold carries, queue_step_data. by rewrite Kt, Ko.
  - rewrite Hp, Hp1, Kd, zlen_app, i64_add. f_equal. lia.
Qed.

(** One iteration of the loop that takes a move. *)
Lemma flush_move sc reqs m :
  sc_rep sc reqs -> reqs <> [] -> compress_bisect_add sc = Some m -> check_line sc m = 0 ->
  exists sc1 qm, add_move (u64 (sc_last_step_clock sc + sv_interval m)) m sc = Ret tt sc1 /\
    1 <= sv_count m <= zlen reqs /\ carries sc m qm /\ kept sc sc1 /\
    sc_msg_queue sc1 = sc_msg_queue sc ++ [qm] /\
    sc_last_step_clock sc1 = move_end (sc_last_step_clock sc) m /\
    sc_last_position sc1
      = i64 (sc_last_position sc + dir_of (sc_sdir sc) * zlen (takeZ (sv_count m) reqs)) /\
    Forall2 (within (sc_max_error sc)) (move_times (sc_last_step_clock sc) m) (takeZ (sv_count m) reqs) /\
    sc_queue_pos sc1 = sc_queue_pos sc /\ sc_queue_next sc1 = sc_queue_next sc /\
    (forall sc2, kept sc sc2 -> sc_last_step_clock sc2 = sc_last_step_clock sc1 ->
      (sc_queue_pos sc2 = sc_queue_pos sc + sv_count m /\ sc_queue_next sc2 = sc_queue_next sc \/
       sv_count m = zlen reqs /\ sc_queue_pos sc2 = 0 /\ sc_queue_next sc2 = 0) ->
      sc_rep sc2 (dropZ (sv_count m) reqs)).
Proof.
  intros Hr Hne Em Hck. pose proof (rep_range _ _ Hr) as (Hq0 & Hq1 & Hq2).
  assert (Hlen : 1 <= zlen reqs).
  { destruct reqs; [done|]. rewrite zlen_cons. pose proof (zlen_nonneg reqs). lia. }
  destruct (compress_count sc m ltac:(lia) Em) as [Hm Hc].
  destruct (move_covers sc reqs m Hr Hm ltac:(lia) Hck) as (HF & Eend & Hend).
  destruct (add_move_run sc (u64 (sc_last_step_clock sc + sv_interval m)) m (rep_oid _ _ Hr) Hm)
    as (sc1 & qm & Hadd & Hcar & _ & Hmq & Hl1 & Hp1 & E1 & E2 & Hk1).
  rewrite Eend in Hl1. assert (Hz : zlen (takeZ (sv_count m) reqs) = sv_count m).
  { unfold takeZ, zlen in *. rewrite length_take. lia. }
  exists sc1, qm. rewrite Hz. split_and!; try done; try lia.
  intros sc2 Hk2 Hl2 Hpos. eapply (rep_advance sc sc2 reqs (sv_count m)); try done; try lia.
Qed.

Lemma takeZ_dropZ {A} n (l : list A) : l = takeZ n l ++ dropZ n l.
Proof. unfold takeZ, dropZ. by rewrite take_drop. Qed.

Lemma check_line_result sc m : check_line sc m = 0 \/ check_line sc m = ERROR_RET.
Proof. unfold check_line. destruct (_ || _); [by right|]. destruct (check_loop _ _ _ _ _ _); auto. Qed.

Lemma flush_loop_sound fuel mc sc reqs r sc' :
  sc_rep sc reqs -> reqs <> [] -> -9223372036854775808 <= sc_last_position sc < 9223372036854775808 ->
  flush_loop fuel mc sc = Ret r sc' ->
  exists ms taken rest, reqs = taken ++ rest /\ flushed sc sc' ms taken rest /\
    (r = 0 /\ (rest = [] \/ mc <= sc_last_step_clock sc') \/ r = ERROR_RET).
Proof.
  revert sc reqs. induction fuel as [|fuel IH]; intros sc reqs Hr Hne Hpos Hrun;
    cbn [flush_loop] in Hrun; unfold scget in Hrun;
    rewrite (bind_Ret (gets (fun sc : stepcompress D => sc)) _ sc sc sc eq_refl) in Hrun;
    (destruct (Z.ltb_spec (sc_last_step_clock sc) mc) as [Hlt|Hge]; [|
      destruct (calc_time_run sc) as (sc1 & Hcalc & Hk & Em & El & Ep & E1 & E2);
      rewrite (bind_Ret _ _ _ _ _ Hcalc) in Hrun; injection Hrun as <- <-;
      exists [], [], reqs; split; [done|]; split; [apply flushed_nil; try done; by eapply rep_ext|];
      left; split; [done|right; by rewrite El]]).
  - done.
  - destruct (compress_bisect_add sc) as [m|] eqn:Em; [|done]. cbn [deref] in Hrun.
    rewrite bind_ret_l in Hrun. cbv zeta in Hrun.
    destruct (Z.eqb_spec (check_line sc m) 0) as [Hck|Hck]; cbn [negb] in Hrun.
    2: { injection Hrun as <- <-. exists [], [], reqs. split; [done|].
         split; [apply flushed_nil; by try apply kept_refl|].
         right. by destruct (check_line_result sc m). }
    destruct (flush_move sc reqs m Hr Hne Em Hck) as
      (sc1 & qm & Hadd & Hc & Hcar & Hk1 & Hmq & Hl1 & Hp1 & HF & E1 & E2 & Hadv).
    rewrite (bind_Ret _ _ _ _ _ Hadd) in Hrun.
    pose proof (rep_range _ _ Hr) as (_ & Hq1 & _).
    destruct (Z.leb_spec (sc_queue_next sc) (sc_queue_pos sc + sv_count m)) as [Hall|Hsome].
    + set (sc2 := sc1 <| sc_queue_pos := 0 |> <| sc_queue_next := 0 |>).
      destruct (calc_time_run sc2) as (sc3 & Hcalc & Hk3 & Em3 & El3 & Ep3 & E13 & E23).
      assert (Hrun' : bind calc_last_step_print_time (fun _ => ret 0) sc2 = Ret r sc') by exact Hrun.
      rewrite (bind_Ret _ _ _ _ _ Hcalc) in Hrun'. injection Hrun' as <- <-.
      assert (Hd : dropZ (sv_count m) reqs = []) by (unfold dropZ; apply drop_ge; unfold zlen in *; lia).
      exists [m], (takeZ (sv_count m) reqs ++ []), [].
      split; [rewrite app_nil_r, <- Hd; apply takeZ_dropZ|]. split; [|left; by auto].
      assert (Hk13 : kept sc1 sc3) by exact Hk3.
      apply (flushed_cons sc sc1 sc3 m [] _ [] [] qm); try done.
      apply flushed_nil; try done; [|rewrite Hp1; apply i64_range].
      rewrite <- Hd. apply Hadv; [by eapply kept_trans|done|]. right. rewrite E13, E23. split; [lia|done].
    + set (sc2 := sc1 <| sc_queue_pos := sc_queue_pos sc1 + sv_count m |>).
      assert (Hrun' : flush_loop fuel mc sc2 = Ret r sc') by exact Hrun.
      assert (Hr2 : sc_rep sc2 (dropZ (sv_count m) reqs)).
      { apply Hadv; [exact Hk1|done|]. left. cbn [sc_queue_pos sc_queue_next upd sc2]. by rewrite E1, E2. }
      assert (Hne2 : dropZ (sv_count m) reqs <> []).
      { intros E. apply (f_equal length) in E. unfold dropZ, zlen in *. rewrite length_drop in E. simpl in E. lia. }
      destruct (IH sc2 _ Hr2 Hne2) as (ms & taken & rest & Er & Hfl & Hres); [|done|].
      { change (sc_last_position sc2) with (sc_last_position sc1). rewrite Hp1. apply i64_range. }
      exists (m :: ms), (takeZ (sv_count m) reqs ++ taken), rest.
      split; [rewrite <- app_assoc, <- Er; apply takeZ_dropZ|]. split; [|done].
      by apply (flushed_cons sc sc2 sc' m ms _ taken rest qm).
Qed.

(** C21: The steps that a flush commits the micro-controller to are the requested ones,
    never late and at most [max_error] ticks early.  When [queue_flush] returns, it has
    turned a prefix of the requested step times into [queue_step] commands, in order and
    without losing or repeating a step: step [k] of a command (interval, count, add) that
    starts at the clock of the step before takes place at [step_time], as the stepper
    event of the micro-controller computes it.  The host's own clock and position agree
    with the commands.  A return value of 0 means that all steps before [move_clock] have
    been committed; otherwise it is [ERROR_RET] and the commands queued so far are still
    right. *)
Theorem flush_commits_requested_steps mc sc reqs r sc' :
  sc_rep sc reqs -> -9223372036854775808 <= sc_last_position sc < 9223372036854775808 ->
  queue_flush mc sc = Ret r sc' ->
  exists ms taken rest, reqs = taken ++ rest /\
    Forall2 (within (sc_max_error sc)) (moves_times (sc_last_step_clock sc) ms) taken /\
    (exists qms, sc_msg_queue sc' = sc_msg_queue sc ++ qms /\ Forall2 (carries sc) ms qms) /\
    sc_last_step_clock sc' = moves_end (sc_last_step_clock sc) ms /\
    sc_last_position sc' = i64 (sc_last_position sc + dir_of (sc_sdir sc) * zlen taken) /\
    sc_rep sc' rest /\
    (r = 0 /\ (rest = [] \/ mc <= sc_last_step_clock sc') \/ r = ERROR_RET).
Proof.
  intros Hr Hpos Hrun. unfold queue_flush, scget in Hrun.
  rewrite (bind_Ret (gets (fun sc : stepcompress D => sc)) _ sc sc sc eq_refl) in Hrun.
  pose proof (rep_range _ _ Hr) as (Hq0 & Hq1 & Hq2).
  destruct (Z.leb_spec (sc_queue_next sc) (sc_queue_pos sc)) as [Hle|Hlt].
  - injection Hrun as <- <-. assert (Hnil : reqs = []).
    { destruct reqs; [done|]. rewrite zlen_cons in Hq1. pose proof (zlen_nonneg reqs). lia. }
    subst reqs. destruct (flushed_nil sc sc [] Hr (kept_refl sc) eq_refl eq_refl eq_refl Hpos)
      as (R & _ & F & C & Q & P).
    exists [], [], []. split; [done|]. do 4 (split; [done|]). split; [done|]. left. split; [done|by left].
  - assert (Hne : reqs <> []) by (intros ->; unfold zlen in Hq1; simpl in Hq1; lia).
    destruct (flush_loop_sound _ mc sc reqs r sc' Hr Hne Hpos Hrun)
      as (ms & taken & rest & E & (R & _ & F & C & Q & P) & Hres).
    exists ms, taken, rest. by do 6 (split; [done|]).
Qed.
End facts.

(** ** Witness: eight steps of an accelerating stepper *)

Definition demo_sc : stepcompress binary64 :=
  mk_sc [1000; 2000; 3000; 3900; 4700; 5400; 6000; 6500] 0 8 25
    (dofZ 0) (dofZ 16000000) (dofZ 0) 0 [] 3 5 6 1 0 0 1 0 [].
Definition demo_reqs : list Z := [1000; 2000; 3000; 3900; 4700; 5400; 6000; 6500].

Lemma demo_sc_rep : sc_rep demo_sc demo_reqs.
Proof.
  split.
  - cbn. unfold sc_queue_end, zlen. cbn. lia.
  - vm_compute. reflexivity.
  - cbn [demo_sc sc_last_step_clock]. unfold demo_reqs. repeat constructor; lia.
  - unfold demo_reqs, CLOCK_DIFF_MAX. cbn [demo_sc sc_last_step_clock]. repeat constructor; lia.
  - cbn [demo_sc sc_last_step_clock]. lia.
  - cbn [demo_sc sc_max_error]. lia.
  - cbn [demo_sc sc_oid]. lia.
Qed.

Definition demo_flushed : stepcompress binary64 :=
  match queue_flush 100000 demo_sc with Ret _ sc => sc | _ => demo_sc end.

Lemma flush_commits_requested_steps_witness :
  exists ms, Forall2 (within 25) (moves_times 0 ms) demo_reqs /\
    sc_last_step_clock demo_flushed = moves_end 0 ms /\ sc_last_position demo_flushed = 8.
Proof.
  destruct (flush_commits_requested_steps 100000 demo_sc demo_reqs 0 demo_flushed demo_sc_rep)
    as (ms & taken & rest & E & F & _ & C & P & R & Hr).
  - cbn. lia.
  - vm_compute. reflexivity.
  - assert (Hrest : rest = []).
    { destruct Hr as [[_ [?|Hr]]|Hr]; [done| |discriminate Hr]. vm_compute in Hr. by destruct Hr. }
    subst rest. rewrite app_nil_r in E. subst taken. exists ms. split; [exact F|]. split; [exact C|].
    rewrite P. reflexivity.
Defined.
