(* ===== verification/CompressFacts.v ===== *)
(** * Totality of the compression

    [compress_bisect_add] ends, and finds a move that [check_line] accepts, whenever
    up to 128 steps are pending that span less than 2^28 ticks: with these bounds none
    of its [int32_t] computations overflows. *)

From S2P Require Import Prelude Double Wire Command CommandFacts Msgblock Sched SchedFacts Basecmd BasecmdFacts World WorldFacts Stepper StepperFacts Stepcompress StepcompressFacts.
From Stdlib Require Import Sorting.Sorted.

(** ** Rounding *)

Lemma idiv_up_spec n d :
  0 < d <= 65536 -> -2147483648 <= n < 2147483648 - d ->
  n <= idiv_up n d * d < n + d.
Proof.
  intros Hd Hn. unfold idiv_up. destruct (Z.leb_spec 0 n).
  - rewrite (i32_small (n + d)), i32_small by lia. rewrite Z.quot_div_nonneg by lia.
    pose proof (Z.div_mod (n + d - 1) d ltac:(lia)). pose proof (Z.mod_pos_bound (n + d - 1) d ltac:(lia)). nia.
  - pose proof (Z.quot_rem n d ltac:(lia)). pose proof (Z.rem_bound_pos_neg n d ltac:(lia) ltac:(lia)). nia.
Qed.

Lemma idiv_down_spec n d :
  0 < d <= 65536 -> -2147483648 + d <= n < 2147483648 ->
  n - d < idiv_down n d * d <= n.
Proof.
  intros Hd Hn. unfold idiv_down. destruct (Z.leb_spec 0 n).
  - rewrite Z.quot_div_nonneg by lia.
    pose proof (Z.div_mod n d ltac:(lia)). pose proof (Z.mod_pos_bound n d ltac:(lia)). nia.
  - rewrite (i32_small (n - d)), i32_small by lia.
    pose proof (Z.quot_rem (n - d + 1) d ltac:(lia)).
    destruct (Z.eq_dec (n - d + 1) 0) as [E|].
    { rewrite E, Z.quot_0_l by lia. lia. }
    pose proof (Z.rem_bound_pos_neg (n - d + 1) d ltac:(lia) ltac:(lia)). nia.
Qed.

(** Triangular numbers. *)
Definition af (k : Z) : Z := k * (k - 1) / 2.

Lemma af_range k : 1 <= k <= 128 -> 0 <= af k <= 8128 /\ 2 * af k = k * (k - 1).
Proof.
  intros Hk. assert (Hf : 2 * af k = k * (k - 1)).
  { unfold af. rewrite <- Z.divide_div_mul_exact, Z.mul_comm, Z.div_mul; try lia.
    destruct (Zeven_odd_dec k) as [He|Ho].
    - apply Zeven_div2 in He. exists (Z.div2 k * (k - 1)). lia.
    - apply Zodd_div2 in Ho. exists (k * Z.div2 k). lia. }
  split; [|done]. nia.
Qed.

Lemma add_factor_af k : 1 <= k <= 128 -> add_factor k = af k.
Proof.
  intros Hk. unfold add_factor, af. rewrite i32_small by nia. apply Z.quot_div_nonneg; nia.
Qed.

Lemma af_pos k : 2 <= k <= 128 -> 1 <= af k.
Proof. intros Hk. destruct (af_range k ltac:(lia)). nia. Qed.

Lemma add_af_bound a k : -32768 <= a <= 32767 -> 1 <= k <= 128 -> - 266338304 <= a * af k <= 266338304.
Proof. intros Ha Hk. destruct (af_range k Hk) as [Hf _]. nia. Qed.

Lemma step_time_af x a k : step_time 0 x a k = x * k + a * af k.
Proof. unfold step_time, af. lia. Qed.

Section fit.
#[local] Set Default Proof Using "Type*".
Context {D : Type} {DO : DoubleOps D} (sc : stepcompress D) (reqs : list Z).
Context (Hrep : sc_rep sc reqs).
Context (Hlen : zlen reqs <= 128).
Context (Hspan : forall i, (i < length reqs)%nat -> req_off sc reqs i < 268435456).

(** The acceptable times of step [k], from 1. *)
Definition hi (k : Z) : Z := req_off sc reqs (Z.to_nat (k - 1)).
Definition lo (k : Z) : Z := hi k - tolerance sc reqs (Z.to_nat (k - 1)).

Lemma lo_hi k : 1 <= k <= zlen reqs ->
  0 <= lo k <= hi k /\ hi k < 268435456 /\ (2 <= k -> hi (k - 1) <= lo k) /\ (k = 1 -> hi 1 <= 2 * lo 1).
Proof.
  intros Hk. unfold zlen in Hk. set (i := Z.to_nat (k - 1)).
  destruct (minmax_point_rep sc reqs i Hrep ltac:(lia)) as (_ & H1 & H2).
  destruct (req_off_bounds sc reqs i Hrep ltac:(lia)) as [H3 _].
  pose proof (Hspan i ltac:(lia)) as H4. unfold lo, hi. fold i. split; [lia|]. split; [lia|]. split.
  - intros Hk2. replace (Z.to_nat (k - 1 - 1)) with (Nat.pred i) by lia.
    destruct i as [|i'] eqn:Ei; [lia|]. simpl. simpl in H2. lia.
  - intros ->. change i with 0%nat in *. unfold tolerance. simpl.
    pose proof (Z.div_mod (req_off sc reqs 0 - 0) 2 ltac:(lia)).
    pose proof (Z.mod_pos_bound (req_off sc reqs 0 - 0) 2 ltac:(lia)).
    rewrite Z.sub_0_r in *. change (Z.to_nat (1 - 1)) with 0%nat. simpl in *. lia.
Qed.

Lemma hi_mono k : 1 <= k <= zlen reqs -> hi 1 <= hi k.
Proof.
  intros Hk. unfold hi, req_off. pose proof (rep_sorted _ _ Hrep) as Hs. unfold zlen in Hk.
  pose proof (sorted_nth _ 1 (S (Z.to_nat (k - 1))) Hs ltac:(simpl; lia)) as H. cbn [nth] in H.
  change (Z.to_nat (1 - 1)) with 0%nat. lia.
Qed.

Lemma lo_after_first k : 2 <= k <= zlen reqs -> hi 1 <= lo k.
Proof.
  intros Hk. destruct (lo_hi k ltac:(lia)) as (_ & _ & H & _). specialize (H ltac:(lia)).
  pose proof (hi_mono (k - 1) ltac:(lia)). lia.
Qed.

Lemma minmax_lo_hi k : 1 <= k <= zlen reqs ->
  minmax_point sc (sc_queue_pos sc + k - 1) = mk_points (lo k) (hi k).
Proof.
  intros Hk. unfold zlen in Hk.
  destruct (minmax_point_rep sc reqs (Z.to_nat (k - 1)) Hrep ltac:(lia)) as (E & _).
  replace (sc_queue_pos sc + k - 1) with (sc_queue_pos sc + Z.of_nat (Z.to_nat (k - 1))) by lia.
  exact E.
Qed.

(** ** The inner loop *)

Notation val x a k := (x * k + a * af k).

(** Sequences within the bounds: all steps up to [n] are early enough, or late
    enough. *)
Definition below (x a n : Z) : Prop := forall k, 1 <= k <= n -> val x a k <= hi k.
Definition above (x a n : Z) : Prop := forall k, 1 <= k <= n -> lo k <= val x a k.
Definition valid (x a n : Z) : Prop := above x a n /\ below x a n.

Lemma below_le x y a n : x <= y -> below y a n -> below x a n.
Proof. intros Hxy H k Hk. specialize (H k Hk). nia. Qed.
Lemma above_le x y a n : x <= y -> above x a n -> above y a n.
Proof. intros Hxy H k Hk. specialize (H k Hk). nia. Qed.
Lemma below_S x a n : below x a n -> val x a (n + 1) <= hi (n + 1) -> below x a (n + 1).
Proof. intros H H1 k Hk. destruct (decide (k = n + 1)) as [->|]; [done|]. apply H. lia. Qed.
Lemma above_S x a n : above x a n -> lo (n + 1) <= val x a (n + 1) -> above x a (n + 1).
Proof. intros H H1 k Hk. destruct (decide (k = n + 1)) as [->|]; [done|]. apply H. lia. Qed.

Definition BB : Z := 534773761.

(** The loop invariant, having accepted [n] points; [omin] and [omax] are the
    intervals at its start. *)
Record fit_inv (omin omax a n nmin nmax : Z) : Prop := {
  fi_min : omin <= nmin <= BB;
  fi_max : - BB <= nmax <= omax;
  fi_above : above nmin a n;
  fi_below : below nmax a n;
  fi_ok : n = 1 /\ nmin = omin /\ nmax = omax \/ 2 <= n /\ nmin <= nmax;
}.

Lemma fit_inv_products omin omax a n nmin nmax :
  fit_inv omin omax a n nmin nmax -> -32768 <= a <= 32767 -> 1 <= n < zlen reqs -> 0 <= omin ->
  0 <= nmin * (n + 1) <= 2 * BB /\ - (2 * BB) <= nmax * (n + 1) <= 2 * BB.
Proof.
  intros [H1 H2 H3 H4 H5] Ha Hn Ho. unfold BB in *.
  destruct H5 as [(-> & -> & ->)|[Hn2 Hle]].
  - specialize (H4 1 ltac:(lia)). change (af 1) with 0 in H4.
    destruct (lo_hi 1 ltac:(lia)) as (_ & Hh & _). lia.
  - specialize (H4 n ltac:(lia)). pose proof (add_af_bound a n Ha ltac:(lia)).
    destruct (lo_hi n ltac:(lia)) as (_ & Hh & _).
    assert (nmax * n <= 534773760) by lia. nia.
Qed.

Lemma fit_loop_spec fuel avail omin omax a n nmin nmax :
  avail <= zlen reqs -> 1 <= n <= avail -> avail - n <= Z.of_nat fuel -> -32768 <= a <= 32767 ->
  0 <= omin -> fit_inv omin omax a n nmin nmax ->
  match fit_loop sc fuel avail a nmin nmax nmax n with
  | Fit_all iv c => exists nmin', c = avail /\ fit_inv omin omax a c nmin' iv
  | Fit_break np nmin' nmax' iv nc =>
      2 <= nc <= avail /\ np = mk_points (lo nc) (hi nc) /\ nmax' < nmin' /\
      (exists nm, nm <= nmin' /\ fit_inv omin omax a (nc - 1) nm iv) /\ nmax' <= iv /\
      above nmin' a nc /\ below nmax' a nc /\
      nmin' <= BB /\ - BB <= nmax' /\ 0 <= nmin' * nc <= 2 * BB /\ - (2 * BB) <= nmax' * nc <= 2 * BB
  end.
Proof.
  intros Hav. revert n nmin nmax. induction fuel as [|fuel IH]; intros n nmin nmax Hn Hf Ha Ho Hi;
    cbn [fit_loop].
  { exists nmin. replace (n + 1 - 1) with n by lia. assert (n = avail) by lia. subst n. by split. }
  destruct (Z.leb_spec avail (n + 1 - 1)) as [Hle|Hlt].
  { exists nmin. replace (n + 1 - 1) with n in * by lia. assert (n = avail) by lia. subst n. by split. }
  cbv zeta. set (nc := n + 1) in *.
  rewrite (minmax_lo_hi nc) by lia. cbn [minp maxp]. rewrite add_factor_af by lia.
  pose proof (add_af_bound a nc Ha ltac:(lia)) as Hc. rewrite (i32_small (a * af nc)) by lia.
  destruct (lo_hi nc ltac:(lia)) as (Hl & Hh & _).
  destruct (fit_inv_products _ _ _ _ _ _ Hi Ha ltac:(lia) Ho) as [Hp1 Hp2]. fold nc in Hp1, Hp2.
  unfold BB in *. rewrite (i32_small (nmin * nc)), (i32_small (nmax * nc)) by lia.
  rewrite (i32_small (lo nc - a * af nc)), (i32_small (hi nc - a * af nc)) by lia.
  pose proof (idiv_up_spec (lo nc - a * af nc) nc ltac:(lia) ltac:(lia)) as Hu.
  pose proof (idiv_down_spec (hi nc - a * af nc) nc ltac:(lia) ltac:(lia)) as Hd.
  set (up := idiv_up (lo nc - a * af nc) nc) in *.
  set (down := idiv_down (hi nc - a * af nc) nc) in *.
  pose proof Hi as [H1 H2 H3 H4 H5]. unfold BB in H1, H2.
  assert (Hmin : exists nmin', (if nmin * nc <? lo nc - a * af nc then up else nmin) = nmin' /\
    nmin <= nmin' <= 534773761 /\ lo nc <= val nmin' a nc /\ 0 <= nmin' * nc <= 1069547522).
  { eexists. split; [reflexivity|]. destruct (Z.ltb_spec (nmin * nc) (lo nc - a * af nc)) as [Hlt1|Hge1].
    - assert (nmin < up) by nia. nia.
    - lia. }
  assert (Hmax : exists nmax', (if hi nc - a * af nc <? nmax * nc then down else nmax) = nmax' /\
    -534773761 <= nmax' <= nmax /\ val nmax' a nc <= hi nc /\ - 1069547522 <= nmax' * nc <= 1069547522).
  { eexists. split; [reflexivity|]. destruct (Z.ltb_spec (hi nc - a * af nc) (nmax * nc)) as [Hlt1|Hge1].
    - assert (down < nmax) by nia. nia.
    - lia. }
  destruct Hmin as (nmin' & -> & M1 & M2 & M3). destruct Hmax as (nmax' & -> & N1 & N2 & N3).
  assert (Hab : above nmin' a nc) by (apply above_S; [by apply (above_le nmin); [lia|]|done]).
  assert (Hbe : below nmax' a nc) by (apply below_S; [by apply (below_le _ nmax); [lia|]|done]).
  destruct (Z.ltb_spec nmax' nmin') as [Hbreak|Hgo].
  - split; [lia|]. split; [done|]. split; [done|]. replace (nc - 1) with n by lia.
    split; [exists nmin; split; [lia|done]|]. split_and!; try done; lia.
  - apply IH; try lia. split; unfold BB; try done; lia.
Qed.

(** ** The outer loop *)

(** The invariant of the outer loop.  [first] distinguishes its first iteration. *)
Record bisect_inv (s : bisect) : Prop := {
  bi_min : lo 1 <= bs_outer_min s <= BB;
  bi_max : - BB <= bs_outer_max s <= hi 1;
  bi_add : -32768 <= bs_minadd s <= bs_add s /\ bs_add s <= bs_maxadd s <= 32767;
  bi_best : bs_bestreach s = INT32_MIN /\ bs_add s = 0 /\ bs_outer_max s = hi 1 /\
              bs_bestcount s = 1 /\ bs_zerocount s = 0 \/
            valid (bs_bestinterval s) (bs_bestadd s) (bs_bestcount s) /\ hi 1 <= bs_bestreach s /\
              -32768 <= bs_bestadd s <= 32767 /\ 2 <= zlen reqs;
  bi_counts : counts_ok (zlen reqs) s;
  bi_zero : bs_zerocount s = 0 \/ valid (bs_zerointerval s) 0 (bs_zerocount s);
}.

(** What [note_best] records is valid. *)
Lemma note_best_valid s iv c b s' nm :
  bisect_inv s -> 1 <= c < zlen reqs -> fit_inv (bs_outer_min s) (bs_outer_max s) (bs_add s) c nm iv ->
  note_best s iv c = (b, s') ->
  valid (bs_bestinterval s') (bs_bestadd s') (bs_bestcount s') /\ hi 1 <= bs_bestreach s' /\
  -32768 <= bs_bestadd s' <= 32767 /\
  (bs_zerocount s' = 0 \/ valid (bs_zerointerval s') 0 (bs_zerocount s')) /\
  counts_ok (zlen reqs) s' /\ bs_outer_min s' = bs_outer_min s /\ bs_outer_max s' = bs_outer_max s /\
  bs_add s' = bs_add s /\ bs_minadd s' = bs_minadd s /\ bs_maxadd s' = bs_maxadd s.
Proof.
  intros Hi Hc Hf Hnb. pose proof (note_best_counts (zlen reqs) s iv c b s' (bi_counts _ Hi) ltac:(lia) Hnb) as Hcs.
  pose proof Hi as [H1 H2 H3 H4 H5 H6]. pose proof Hf as [F1 F2 F3 F4 F5].
  assert (Ha : -32768 <= bs_add s <= 32767) by lia.
  pose proof (add_af_bound (bs_add s) c Ha ltac:(lia)) as Hab.
  destruct (lo_hi 1 ltac:(lia)) as (L1 & L2 & _ & L3).
  destruct (lo_hi c ltac:(lia)) as (C1 & C2 & _).
  assert (Hp : - 1069547522 <= iv * c <= 1069547522).
  { pose proof (F4 c ltac:(lia)) as Hb. unfold BB in *.
    destruct F5 as [(-> & -> & ->)|[Hn2 Hle]]; [lia|]. nia. }
  unfold note_best in Hnb. rewrite add_factor_af in Hnb by lia.
  rewrite (i32_small (bs_add s * af c)), (i32_small (iv * c)), i32_small in Hnb by lia.
  set (reach := bs_add s * af c + iv * c) in *.
  assert (Hvalid : 2 <= c -> valid iv (bs_add s) c /\ hi 1 <= reach).
  { intros Hc2. destruct F5 as [(-> & _)|[_ Hle]]; [lia|].
    assert (Hv : valid iv (bs_add s) c) by (split; [by apply (above_le nm)|done]).
    split; [done|]. destruct Hv as [Hv _]. specialize (Hv c ltac:(lia)).
    pose proof (lo_after_first c ltac:(lia)). unfold reach. lia. }
  assert (Hone : c = 1 -> reach = iv /\ iv = bs_outer_max s).
  { intros ->. unfold reach. change (af 1) with 0. destruct F5 as [(_ & _ & ->)|[? _]]; lia. }
  destruct ((bs_bestreach s <? reach) || _) eqn:Eb; injection Hnb as <- <-.
  - assert (Hgood : valid iv (bs_add s) c /\ hi 1 <= reach).
    { destruct (decide (c = 1)) as [->|]; [|by apply Hvalid; lia].
      destruct (Hone eq_refl) as [E1 E2].
      assert (Hiv : iv = hi 1).
      { destruct H4 as [(_ & _ & Hm & _)|(_ & Hr & _)]; lia. }
      split; [|lia]. split; intros k Hk; assert (k = 1) as -> by lia; change (af 1) with 0; lia. }
    cbn [bs_bestinterval bs_bestadd bs_bestcount bs_bestreach bs_zerocount bs_zerointerval
         bs_outer_min bs_outer_max bs_add bs_minadd bs_maxadd] in *.
    split; [apply Hgood|]. split; [apply Hgood|]. split; [done|]. split; [|by split_and!].
    destruct (Z.eqb_spec (bs_add s) 0) as [E|]; [|done]. right. rewrite <- E. apply Hgood.
  - apply orb_false_iff in Eb as [Eb _]. apply Z.ltb_ge in Eb.
    destruct H4 as [(Hr & Hz & Hm & _)|(Hv & Hr & Hb & _)]; [|by do 9 (split; [done|])].
    exfalso. unfold INT32_MIN in Hr. unfold reach in Eb. lia.
Qed.

(** The numbers that [narrow] compares. *)
Lemma narrow_products s nm iv nc nmin nmax :
  bisect_inv s -> 2 <= nc <= zlen reqs ->
  fit_inv (bs_outer_min s) (bs_outer_max s) (bs_add s) (nc - 1) nm iv ->
  nm <= nmin -> 0 <= nmin * nc <= 2 * BB -> - (2 * BB) <= nmax * nc <= 2 * BB -> nmax <= iv ->
  - (2 * BB) <= iv * nc <= 2 * BB /\ 0 <= bs_outer_min s * nc <= 2 * BB /\
  - (2 * BB) <= bs_outer_max s * nc <= 3 * BB.
Proof.
  intros [H1 H2 H3 _ _ _] Hnc Hf Hnm Hp Hq Hle.
  destruct (lo_hi 1 ltac:(lia)) as (L1 & L2 & _ & L3). specialize (L3 eq_refl).
  pose proof (fit_inv_products _ _ _ _ _ _ Hf ltac:(lia) ltac:(lia) ltac:(lia)) as [P1 P2].
  replace (nc - 1 + 1) with nc in * by lia. pose proof Hf as [F1 F2 F3 F4 F5].
  assert (Hom : bs_outer_min s * nc <= nmin * nc) by (apply Z.mul_le_mono_nonneg_r; lia).
  assert (Hom0 : 0 <= bs_outer_min s * nc) by (apply Z.mul_nonneg_nonneg; lia).
  split; [done|]. split; [lia|]. unfold BB in *.
  destruct F5 as [(Hn & -> & ->)|[Hn2 Hmm]]; [lia|].
  pose proof (F4 (nc - 1) ltac:(lia)) as Hb. destruct (lo_hi (nc - 1) ltac:(lia)) as (_ & C2 & _).
  pose proof (add_af_bound (bs_add s) (nc - 1) ltac:(lia) ltac:(lia)).
  assert (Hx : lo 1 * (nc - 1) <= iv * (nc - 1)) by (apply Z.mul_le_mono_nonneg_r; lia).
  assert (Hy : hi 1 * (nc - 1) <= 2 * lo 1 * (nc - 1)) by (apply Z.mul_le_mono_nonneg_r; lia).
  assert (Hz : hi 1 <= 534773760) by lia.
  assert (Ho : bs_outer_max s * nc <= hi 1 * nc) by (apply Z.mul_le_mono_nonneg_r; lia).
  assert (Hv : 0 <= bs_outer_max s * nc) by (apply Z.mul_nonneg_nonneg; lia).
  lia.
Qed.

(** The range of [add] shrinks. *)
Lemma narrow_spec s np nmin nmax iv nc nm mina maxa omin omax :
  bisect_inv s -> 2 <= nc <= zlen reqs -> np = mk_points (lo nc) (hi nc) ->
  fit_inv (bs_outer_min s) (bs_outer_max s) (bs_add s) (nc - 1) nm iv ->
  nm <= nmin -> nmin <= BB -> - BB <= nmax <= iv ->
  0 <= nmin * nc <= 2 * BB -> - (2 * BB) <= nmax * nc <= 2 * BB ->
  narrow sc s np nmin nmax iv nc = ((mina, maxa), (omin, omax)) ->
  lo 1 <= omin <= BB /\ - BB <= omax <= hi 1 /\
  bs_minadd s <= mina /\ maxa <= bs_maxadd s /\ (bs_add s < mina \/ maxa < bs_add s).
Proof.
  intros Hi Hnc -> Hf Hnm Hb1 Hb2 Hp Hq Hnar.
  destruct (narrow_products s nm iv nc nmin nmax Hi Hnc Hf Hnm Hp Hq ltac:(lia)) as (P1 & P2 & P3).
  pose proof Hi as [H1 H2 H3 _ _ _]. pose proof Hf as [F1 F2 _ _ _].
  destruct (lo_hi nc ltac:(lia)) as (L1 & L2 & _).
  destruct (af_range nc ltac:(lia)) as [Haf _]. pose proof (af_pos nc ltac:(lia)) as Haf1.
  pose proof (add_af_bound (bs_add s) nc ltac:(lia) ltac:(lia)) as Hab.
  unfold narrow in Hnar. rewrite add_factor_af in Hnar by lia. cbn [minp maxp] in Hnar. cbv zeta in Hnar.
  set (a := bs_add s) in *. set (naf := af nc) in *.
  unfold BB in *.
  rewrite (i32_small (a * naf)), (i32_small (iv * nc)), (i32_small (a * naf + iv * nc)) in Hnar by lia.
  (* the two sides of the sequence *)
  assert (Hside : exists m1 M1 o1 O1,
    (if a * naf + iv * nc <? lo nc then (a + 1, bs_maxadd s, bs_outer_min s, nmax)
     else (bs_minadd s, a - 1, nmin, bs_outer_max s)) = (m1, M1, o1, O1) /\
    bs_minadd s <= m1 <= 32768 /\ -32769 <= M1 <= bs_maxadd s /\ (a < m1 \/ M1 < a) /\
    lo 1 <= o1 <= 534773761 /\ -534773761 <= O1 <= hi 1 /\
    0 <= o1 * nc <= 1069547522 /\ -1069547522 <= O1 * nc <= 1604321283).
  { destruct (_ <? _); do 4 eexists; (split; [reflexivity|]); split_and!; lia. }
  destruct Hside as (m1 & M1 & o1 & O1 & E & S1 & S2 & S3 & S4 & S5 & S6 & S7). rewrite E in Hnar. clear E.
  (* the maximum deviation *)
  assert (Hdev : exists m2 M2,
    (if 1 <? nc - 1 then
       let errdelta := i32 (u32 (sc_max_error sc * QUADRATIC_DEV) / u32 (i32 ((nc - 1) * (nc - 1)))) in
       (if m1 <? i32 (a - errdelta) then i32 (a - errdelta) else m1,
        if i32 (a + errdelta) <? M1 then i32 (a + errdelta) else M1)
     else (m1, M1)) = (m2, M2) /\ m1 <= m2 <= 32768 /\ -32769 <= M2 <= M1).
  { destruct (Z.ltb_spec 1 (nc - 1)) as [Hc|Hc]; [|do 2 eexists; split; [reflexivity|lia]].
    assert (Hsq : u32 (i32 ((nc - 1) * (nc - 1))) = (nc - 1) * (nc - 1)) by (rewrite i32_small, u32_small by nia; done).
    cbv zeta. rewrite Hsq. assert (He : 0 <= u32 (sc_max_error sc * QUADRATIC_DEV) / ((nc - 1) * (nc - 1)) < 1073741824).
    { pose proof (u32_range (sc_max_error sc * QUADRATIC_DEV)). split; [apply Z.div_pos; nia|].
      apply Z.div_lt_upper_bound; nia. }
    rewrite (i32_small (u32 _ / _)) by lia. set (e := u32 (sc_max_error sc * QUADRATIC_DEV) / ((nc - 1) * (nc - 1))) in *.
    rewrite (i32_small (a - e)), (i32_small (a + e)) by lia.
    do 2 eexists. split; [reflexivity|].
    destruct (Z.ltb_spec m1 (a - e)), (Z.ltb_spec (a + e) M1); lia. }
  destruct Hdev as (m2 & M2 & E & T1 & T2). cbv zeta in E. rewrite E in Hnar. clear E.
  assert (Hm2 : -266338304 <= m2 * naf <= 266346432) by nia.
  assert (HM2 : -266346432 <= M2 * naf <= 266338304) by nia.
  rewrite (i32_small (O1 * nc)), (i32_small (o1 * nc)) in Hnar by lia.
  rewrite (i32_small (m2 * naf)), (i32_small (M2 * naf)) in Hnar by lia.
  rewrite (i32_small (lo nc - O1 * nc)), (i32_small (hi nc - o1 * nc)) in Hnar by lia.
  injection Hnar as <- <- <- <-.
  pose proof (idiv_up_spec (lo nc - O1 * nc) naf ltac:(lia) ltac:(lia)) as Hu.
  pose proof (idiv_down_spec (hi nc - o1 * nc) naf ltac:(lia) ltac:(lia)) as Hd.
  assert (Hup : m2 <= (if m2 * naf <? lo nc - O1 * nc then idiv_up (lo nc - O1 * nc) naf else m2)).
  { destruct (Z.ltb_spec (m2 * naf) (lo nc - O1 * nc)); [|lia].
    apply Z.lt_le_incl, (Z.mul_lt_mono_pos_r naf); lia. }
  assert (Hdn : (if hi nc - o1 * nc <? M2 * naf then idiv_down (hi nc - o1 * nc) naf else M2) <= M2).
  { destruct (Z.ltb_spec (hi nc - o1 * nc) (M2 * naf)); [|lia].
    apply Z.lt_le_incl, (Z.mul_lt_mono_pos_r naf); lia. }
  split_and!; lia.
Qed.

(** A sequence that may be returned. *)
Definition found (m : step_move) : Prop :=
  exists x c a, m = to_step_move x c a /\ 1 <= c <= zlen reqs /\ -32768 <= a <= 32767 /\ valid x a c.

Lemma bisect_step_spec s :
  bisect_inv s -> 1 <= zlen reqs ->
  match bisect_step sc (zlen reqs) s with
  | B_return m => found m
  | B_break s' =>
      valid (bs_bestinterval s') (bs_bestadd s') (bs_bestcount s') /\
      -32768 <= bs_bestadd s' <= 32767 /\ counts_ok (zlen reqs) s' /\
      (bs_zerocount s' = 0 \/ valid (bs_zerointerval s') 0 (bs_zerocount s'))
  | B_continue s' => bisect_inv s' /\ bs_maxadd s' - bs_minadd s' < bs_maxadd s - bs_minadd s
  end.
Proof.
  intros Hi H1. pose proof Hi as [Hmin Hmax Hadd Hbest Hcnt Hzero].
  destruct (lo_hi 1 ltac:(lia)) as (L1 & L2 & _ & _).
  assert (Hf0 : fit_inv (bs_outer_min s) (bs_outer_max s) (bs_add s) 1 (bs_outer_min s) (bs_outer_max s)).
  { split; try lia; try (intros k Hk; assert (k = 1) as -> by lia; change (af 1) with 0; lia). }
  pose proof (fit_loop_spec (Z.to_nat (zlen reqs)) (zlen reqs) (bs_outer_min s) (bs_outer_max s)
    (bs_add s) 1 _ _ ltac:(lia) ltac:(lia) ltac:(lia) ltac:(lia) ltac:(lia) Hf0) as Hfit.
  unfold bisect_step.
  destruct (fit_loop _ _ _ _ _ _ _ _) as [iv c|np nmin nmax iv nc].
  - destruct Hfit as (nm & -> & [F1 F2 F3 F4 F5]). exists iv, (zlen reqs), (bs_add s).
    split; [done|]. split; [lia|]. split; [lia|]. split; [|done].
    destruct F5 as [(E & -> & ->)|[_ Hle]]; [|by apply (above_le nm)].
    intros k Hk. assert (k = 1) as -> by lia. change (af 1) with 0.
    destruct Hbest as [(_ & _ & -> & _)|(_ & _ & _ & ?)]; lia.
  - destruct Hfit as (Hnc & Enp & Hlt & (nm & Hnm & Hf) & Hle & Hab & Hbe & B1 & B2 & B3 & B4).
    destruct (note_best s iv (nc - 1)) as [b s1] eqn:Enb.
    destruct (note_best_valid s iv (nc - 1) b s1 nm Hi ltac:(lia) Hf Enb)
      as (V & Vr & Va & Vz & Vc & E1 & E2 & E3 & E4 & E5).
    destruct (b && (512 <? nc - 1)); [by do 3 (split; [done|])|].
    destruct (narrow sc s1 np nmin nmax iv nc) as [[mina maxa] [omin omax]] eqn:En.
    assert (Hi1 : bisect_inv s1).
    { split; rewrite ?E1, ?E2, ?E3, ?E4, ?E5; try done. right. split; [done|]. split; [done|]. split; [done|lia]. }
    destruct (narrow_spec s1 np nmin nmax iv nc nm mina maxa omin omax Hi1 Hnc Enp)
      as (N1 & N2 & N3 & N4 & N5); try done; try lia.
    { by rewrite E1, E2, E3. }
    destruct (Z.ltb_spec maxa mina) as [Hbr|Hgo].
    { split; [exact V|]. split; [exact Va|]. split; [exact Vc|exact Vz]. }
    rewrite E4 in N3. rewrite E5 in N4. rewrite E3 in N5.
    assert (Hq : 0 <= Z.quot (i32 (maxa - mina)) 4 <= maxa - mina).
    { rewrite i32_small by lia. rewrite Z.quot_div_nonneg by lia.
      split; [apply Z.div_pos; lia|apply Z.div_le_upper_bound; lia]. }
    split; [|cbn [bs_maxadd bs_minadd]; lia].
    split; cbn [bs_outer_min bs_outer_max bs_add bs_minadd bs_maxadd bs_bestreach bs_bestcount
      bs_bestinterval bs_bestadd bs_zerocount bs_zerointerval]; try done.
    + rewrite (i32_small (maxa - Z.quot _ _)) by lia. lia.
    + right. split; [done|]. split; [done|]. split; [done|lia].
Qed.

Lemma bisect_loop_spec fuel s :
  bisect_inv s -> 1 <= zlen reqs -> bs_maxadd s - bs_minadd s < Z.of_nat fuel ->
  match bisect_loop sc fuel (zlen reqs) s with
  | None => False
  | Some (inl m) => found m
  | Some (inr s') =>
      valid (bs_bestinterval s') (bs_bestadd s') (bs_bestcount s') /\
      -32768 <= bs_bestadd s' <= 32767 /\ counts_ok (zlen reqs) s' /\
      (bs_zerocount s' = 0 \/ valid (bs_zerointerval s') 0 (bs_zerocount s'))
  end.
Proof.
  intros Hi H1. revert s Hi. induction fuel as [|fuel IH]; intros s Hi Hf.
  - pose proof (bi_add _ Hi). lia.
  - cbn [bisect_loop]. pose proof (bisect_step_spec s Hi H1) as Hs.
    destruct (bisect_step sc (zlen reqs) s); [done|done|]. destruct Hs. apply IH; [done|lia].
Qed.

Lemma compress_found : reqs <> [] -> exists m, compress_bisect_add sc = Some m /\ found m.
Proof.
  intros Hne. pose proof (rep_range _ _ Hrep) as (Hq0 & Hq1 & Hq2).
  assert (H1 : 1 <= zlen reqs).
  { destruct reqs as [|r l]; [done|]. rewrite zlen_cons. pose proof (zlen_nonneg l). lia. }
  destruct (lo_hi 1 ltac:(lia)) as (L1 & L2 & _ & _).
  unfold compress_bisect_add. replace (Z.min _ 65535) with (zlen reqs) by lia.
  replace (sc_queue_pos sc) with (sc_queue_pos sc + 1 - 1) by lia.
  rewrite (minmax_lo_hi 1) by lia. cbn [minp maxp].
  assert (Hfuel : Z.of_nat (Z.to_nat 131072) = 131072) by (apply Z2Nat.id; lia).
  set (fuel := Z.to_nat 131072) in *. clearbody fuel.
  set (s0 := mk_bisect (lo 1) (hi 1) 0 (-32768) 32767 0 1 1 INT32_MIN 0 0).
  assert (Hi0 : bisect_inv s0).
  { split; unfold s0; cbn [bs_outer_min bs_outer_max bs_add bs_minadd bs_maxadd bs_bestreach bs_bestcount
      bs_bestinterval bs_bestadd bs_zerocount bs_zerointerval]; unfold BB; try lia; try (by left).
    unfold counts_ok. cbn [bs_bestcount bs_zerocount]. lia. }
  pose proof (bisect_loop_spec fuel s0 Hi0 H1 ltac:(cbn [bs_maxadd bs_minadd s0]; lia)) as Hb.
  destruct (bisect_loop sc fuel (zlen reqs) s0) as [[m|s']|]; [by exists m| |done].
  destruct Hb as (V & Va & [Vc1 Vc2] & Vz).
  destruct (Z.leb_spec (bs_bestcount s') (bs_zerocount s' + Z.quot (bs_zerocount s') 16)) as [Hz|_];
    eexists; (split; [reflexivity|]).
  - assert (bs_zerocount s' <> 0).
    { intros E. rewrite E in Hz. change (Z.quot 0 16) with 0 in Hz. lia. }
    exists (bs_zerointerval s'), (bs_zerocount s'), 0. split; [done|]. split; [lia|]. split; [lia|].
    by destruct Vz.
  - by exists (bs_bestinterval s'), (bs_bestcount s'), (bs_bestadd s').
Qed.

(** ** Such a move is accepted *)

Lemma check_loop_complete n i x a c :
  valid x a c -> c <= zlen reqs -> -32768 <= a <= 32767 -> (i + n = Z.to_nat c)%nat -> (1 <= n)%nat ->
  check_loop sc n (Z.of_nat i) a (x + a * Z.of_nat i) (step_time 0 x a (Z.of_nat i)) = true.
Proof.
  intros Hv Hc Ha. revert i. induction n as [|n IH]; intros i Hin Hn; [lia|].
  cbn [check_loop]. set (k := Z.of_nat i + 1).
  replace (sc_queue_pos sc + Z.of_nat i) with (sc_queue_pos sc + k - 1) by lia.
  rewrite (minmax_lo_hi k) by lia. cbn [minp maxp].
  destruct Hv as [Hab Hbe]. pose proof (Hab k ltac:(lia)) as A1. pose proof (Hbe k ltac:(lia)) as A2.
  destruct (lo_hi k ltac:(lia)) as (L1 & L2 & L3 & _).
  assert (Ek : step_time 0 x a (Z.of_nat i) + (x + a * Z.of_nat i) = x * k + a * af k).
  { rewrite <- step_time_af. unfold k. rewrite step_time_succ. lia. }
  assert (Hiv : 0 <= x + a * Z.of_nat i < 268435456).
  { destruct i as [|i'].
    - change (step_time 0 x a (Z.of_nat 0)) with (0 + x * 0 + a * 0) in Ek. lia.
    - specialize (L3 ltac:(lia)). pose proof (Hbe (k - 1) ltac:(lia)) as B1. pose proof (Hab (k - 1) ltac:(lia)) as B2.
      rewrite step_time_af in Ek. replace (k - 1) with (Z.of_nat (S i')) in * by lia.
      destruct (lo_hi (Z.of_nat (S i')) ltac:(lia)) as (? & _). lia. }
  rewrite Ek, !u32_small by lia.
  destruct (Z.ltb_spec (x * k + a * af k) (lo k)); [lia|].
  destruct (Z.ltb_spec (hi k) (x * k + a * af k)); [lia|]. cbn [orb].
  destruct (Z.leb_spec 2147483648 (x + a * Z.of_nat i)); [lia|].
  destruct n as [|n']; [done|].
  assert (Hnx : 0 <= x + a * k < 268435456).
  { destruct (lo_hi (k + 1) ltac:(lia)) as (M1 & M2 & M3 & _). specialize (M3 ltac:(lia)).
    replace (k + 1 - 1) with k in M3 by lia.
    pose proof (Hab (k + 1) ltac:(lia)) as C1. pose proof (Hbe (k + 1) ltac:(lia)) as C2.
    pose proof (step_time_succ 0 x a k) as Es. rewrite !step_time_af in Es. lia. }
  replace (x + a * Z.of_nat i + a) with (x + a * k) by (unfold k; lia). rewrite u32_small by lia.
  replace (Z.of_nat i + 1) with (Z.of_nat (S i)) by lia.
  replace k with (Z.of_nat (S i)) by (unfold k; lia). rewrite <- step_time_af.
  apply IH; lia.
Qed.

Lemma found_accepted m :
  found m -> (2 <= zlen reqs -> 0 < hi 2) -> check_line sc m = 0.
Proof.
  intros (x & c & a & -> & Hc & Ha & Hv) H2. pose proof Hv as [Hab Hbe].
  pose proof (Hab 1 ltac:(lia)) as A1. pose proof (Hbe 1 ltac:(lia)) as A2. change (af 1) with 0 in *.
  destruct (lo_hi 1 ltac:(lia)) as (L1 & L2 & _).
  unfold check_line, to_step_move. cbn [sv_interval sv_count sv_add].
  rewrite u32_small, u16_small, i16_small by lia.
  destruct (Z.eqb_spec c 0); [lia|]. destruct (Z.leb_spec 2147483648 x); [lia|].
  assert (Hz : (x =? 0) && (a =? 0) && (1 <? c) = false).
  { destruct (Z.eqb_spec x 0) as [->|]; [|done]. destruct (Z.eqb_spec a 0) as [->|]; [|done].
    destruct (Z.ltb_spec 1 c); [|done]. exfalso. specialize (H2 ltac:(lia)).
    pose proof (Hab 2 ltac:(lia)) as B. unfold lo, tolerance in B.
    fold (hi 2) in B. change (req_prev sc reqs (Z.to_nat (2 - 1))) with (hi 1) in B.
    change (req_off sc reqs (Z.to_nat (2 - 1))) with (hi 2) in B.
    pose proof (Z.div_mod (hi 2 - hi 1) 2 ltac:(lia)). pose proof (Z.mod_pos_bound (hi 2 - hi 1) 2 ltac:(lia)).
    lia. }
  rewrite Hz. cbn [orb].
  pose proof (check_loop_complete (Z.to_nat c) 0 x a c Hv ltac:(lia) Ha ltac:(lia) ltac:(lia)) as Hl.
  change (Z.of_nat 0) with 0 in Hl. rewrite Z.mul_0_r, Z.add_0_r in Hl.
  change (step_time 0 x a 0) with (0 + x * 0 + a * 0) in Hl.
  replace (0 + x * 0 + a * 0) with 0 in Hl by lia. by rewrite Hl.
Qed.
End fit.

(** ** Flushing succeeds *)

Section total.
#[local] Set Default Proof Using "Type*".
Context {D : Type} {DO : DoubleOps D}.
Implicit Types sc : stepcompress D.

(** Up to 128 steps at increasing times that span less than 2^28 ticks. *)
Definition moderate (sc : stepcompress D) (reqs : list Z) : Prop :=
  zlen reqs <= 128 /\ StronglySorted Z.lt reqs /\
  Forall (fun r => r < sc_last_step_clock sc + 268435456) reqs.

Lemma moderate_span sc reqs i :
  moderate sc reqs -> (i < length reqs)%nat -> req_off sc reqs i < 268435456.
Proof.
  intros (_ & _ & HF) Hi. rewrite List.Forall_forall in HF.
  specialize (HF _ (nth_In reqs 0 Hi)). unfold req_off. lia.
Qed.

Lemma moderate_second sc reqs :
  sc_rep sc reqs -> moderate sc reqs -> 2 <= zlen reqs -> 0 < hi sc reqs 2.
Proof.
  intros Hr (_ & Hs & _) H2. destruct reqs as [|a [|b l]]; [by unfold zlen in H2..|].
  unfold hi, req_off. change (nth (Z.to_nat (2 - 1)) (a :: b :: l) 0) with b.
  pose proof (sorted_nth _ 0 1 (rep_sorted _ _ Hr) ltac:(simpl; lia)) as H. cbn [nth] in H.
  apply StronglySorted_inv in Hs as [_ Hs]. apply Forall_cons in Hs as [? _]. lia.
Qed.

Lemma moderate_drop sc sc' reqs c :
  moderate sc reqs -> sc_last_step_clock sc <= sc_last_step_clock sc' -> moderate sc' (dropZ c reqs).
Proof.
  intros (H1 & H2 & H3) Hle. unfold dropZ. split; [|split].
  - unfold zlen in *. rewrite length_drop. lia.
  - clear -H2. revert reqs H2. generalize (Z.to_nat c) as n. induction n as [|n IH]; intros [|r l] Hs; try done.
    apply StronglySorted_inv in Hs as [Hs _]. by apply IH.
  - apply Forall_forall. intros y Hy. rewrite Forall_forall in H3.
    apply list_elem_of_lookup in Hy as [i Hi]. rewrite lookup_drop in Hi.
    specialize (H3 y (list_elem_of_lookup_2 _ _ _ Hi)). lia.
Qed.

Lemma compress_succeeds sc reqs :
  sc_rep sc reqs -> moderate sc reqs -> reqs <> [] ->
  exists m, compress_bisect_add sc = Some m /\ check_line sc m = 0.
Proof.
  intros Hr Hm Hne. pose proof Hm as (H1 & _ & _).
  assert (Hspan : forall i, (i < length reqs)%nat -> req_off sc reqs i < 268435456).
  { intros i. by apply moderate_span. }
  destruct (compress_found sc reqs Hr H1 Hspan Hne) as (m & Em & Hf).
  exists m. split; [done|]. apply (found_accepted sc reqs Hr H1 Hspan m Hf).
  by apply moderate_second.
Qed.

Lemma flush_loop_total fuel mc sc reqs :
  sc_rep sc reqs -> moderate sc reqs -> reqs <> [] -> zlen reqs <= Z.of_nat fuel ->
  exists sc', flush_loop fuel mc sc = Ret 0 sc'.
Proof.
  revert sc reqs. induction fuel as [|fuel IH]; intros sc reqs Hr Hm Hne Hf.
  { destruct reqs; [done|]. rewrite zlen_cons in Hf. pose proof (zlen_nonneg reqs). lia. }
  cbn [flush_loop]. unfold scget.
  rewrite (bind_Ret (gets (fun sc : stepcompress D => sc)) _ sc sc sc eq_refl).
  destruct (Z.ltb_spec (sc_last_step_clock sc) mc) as [Hlt|Hge].
  2: { destruct (calc_time_run sc) as (sc1 & Hcalc & _). rewrite (bind_Ret _ _ _ _ _ Hcalc). by eexists. }
  destruct (compress_succeeds sc reqs Hr Hm Hne) as (m & Em & Hck). rewrite Em. cbn [deref].
  rewrite bind_ret_l. cbv zeta. rewrite Hck. cbn [negb Z.eqb].
  destruct (flush_move sc reqs m Hr Hne Em Hck) as
    (sc1 & qm & Hadd & Hc & _ & Hk1 & _ & Hl1 & _ & HF & E1 & E2 & Hadv).
  rewrite (bind_Ret _ _ _ _ _ Hadd).
  pose proof (rep_range _ _ Hr) as (_ & Hq1 & _).
  destruct (Z.leb_spec (sc_queue_next sc) (sc_queue_pos sc + sv_count m)) as [Hall|Hsome].
  - set (sc2 := sc1 <| sc_queue_pos := 0 |> <| sc_queue_next := 0 |>).
    destruct (calc_time_run sc2) as (sc3 & Hcalc & _). exists sc3.
    change (bind calc_last_step_print_time (fun _ => ret 0) sc2 = Ret 0 sc3).
    by rewrite (bind_Ret _ _ _ _ _ Hcalc).
  - set (sc2 := sc1 <| sc_queue_pos := sc_queue_pos sc1 + sv_count m |>).
    change (exists sc', flush_loop fuel mc sc2 = Ret 0 sc').
    assert (Hr2 : sc_rep sc2 (dropZ (sv_count m) reqs)).
    { apply Hadv; [exact Hk1|done|]. left. cbn [sc_queue_pos sc_queue_next upd sc2]. by rewrite E1, E2. }
    apply (IH sc2 (dropZ (sv_count m) reqs)); [done| | |].
    + apply (moderate_drop sc); [done|]. change (sc_last_step_clock sc2) with (sc_last_step_clock sc1).
      destruct (compress_count sc m ltac:(lia) Em) as [Hmk _].
      destruct (move_covers sc reqs m Hr Hmk ltac:(lia) Hck) as (_ & _ & He). rewrite Hl1. lia.
    + intros E. apply (f_equal length) in E. unfold dropZ, zlen in *. rewrite length_drop in E. simpl in E. lia.
    + unfold dropZ, zlen in *. rewrite length_drop. lia.
Qed.

(** C22: Flushing always succeeds on moderate queues.  With up to 128 pending steps at
    increasing times, spanning less than 2^28 ticks, every round of [compress_bisect_add]
    ends (the range of [add] shrinks in each of its iterations), overflows no [int32_t],
    and finds a move that [check_line] accepts; [queue_flush] returns 0 with every step
    before [move_clock] committed. *)
Theorem flush_succeeds mc sc reqs :
  sc_rep sc reqs -> moderate sc reqs ->
  -9223372036854775808 <= sc_last_position sc < 9223372036854775808 ->
  exists sc' ms taken rest, queue_flush mc sc = Ret 0 sc' /\ reqs = taken ++ rest /\
    Forall2 (within (sc_max_error sc)) (moves_times (sc_last_step_clock sc) ms) taken /\
    sc_rep sc' rest /\ (rest = [] \/ mc <= sc_last_step_clock sc').
Proof.
  intros Hr Hm Hpos. pose proof (rep_range _ _ Hr) as (Hq0 & Hq1 & Hq2).
  assert (Hrun : exists sc', queue_flush mc sc = Ret 0 sc' /\ (reqs = [] -> sc' = sc)).
  { unfold queue_flush, scget. rewrite (bind_Ret (gets (fun sc : stepcompress D => sc)) _ sc sc sc eq_refl).
    destruct (Z.leb_spec (sc_queue_next sc) (sc_queue_pos sc)) as [Hle|Hlt]; [by eexists|].
    destruct (flush_loop_total (Z.to_nat (sc_queue_next sc - sc_queue_pos sc)) mc sc reqs) as [sc' Hrun];
      try done; [by intros ->; unfold zlen in Hq1; simpl in Hq1; lia|lia|].
    exists sc'. split; [done|]. intros ->. unfold zlen in Hq1. simpl in Hq1. lia. }
  destruct Hrun as (sc' & Hrun & Hnil).
  destruct (decide (reqs = [])) as [->|Hne].
  { rewrite (Hnil eq_refl) in *. exists sc, [], [], []. split; [done|]. split; [done|].
    split; [constructor|]. split; [done|by left]. }
  assert (Hloop : flush_loop (Z.to_nat (sc_queue_next sc - sc_queue_pos sc)) mc sc = Ret 0 sc').
  { unfold queue_flush, scget in Hrun.
    rewrite (bind_Ret (gets (fun sc : stepcompress D => sc)) _ sc sc sc eq_refl) in Hrun.
    destruct (Z.leb_spec (sc_queue_next sc) (sc_queue_pos sc)); [|done].
    destruct reqs; [done|]. rewrite zlen_cons in Hq1. pose proof (zlen_nonneg reqs). lia. }
  destruct (flush_loop_sound _ mc sc reqs 0 sc' Hr Hne Hpos Hloop)
    as (ms & taken & rest & E & (R & _ & F & _) & Hres).
  exists sc', ms, taken, rest. do 4 (split; [done|]). by destruct Hres as [[_ ?]|].
Qed.
End total.

Lemma flush_succeeds_witness :
  exists sc' ms, queue_flush 100000 demo_sc = Ret 0 sc' /\ Forall2 (within 25) (moves_times 0 ms) demo_reqs.
Proof.
  destruct (flush_succeeds 100000 demo_sc demo_reqs demo_sc_rep)
    as (sc' & ms & taken & rest & Hrun & E & F & R & Hr).
  - split; [by vm_compute|]. split.
    + unfold demo_reqs. repeat (constructor; [|repeat (constructor; [lia|]); constructor]). constructor.
    + unfold demo_reqs. repeat (apply Forall_cons; split; [vm_compute; congruence|]). constructor.
  - cbn. lia.
  - exists sc', ms. split; [exact Hrun|].
    assert (Hrest : rest = []).
    { destruct Hr as [?|Hr]; [done|]. assert (Es : sc' = demo_flushed) by (unfold demo_flushed; by rewrite Hrun).
      rewrite Es in Hr. vm_compute in Hr. by destruct Hr. }
    subst rest. rewrite app_nil_r in E. by subst taken.
Defined.
