(* ===== verification/SyncFacts.v ===== *)
(** * Properties of the stepper synchronisation

    [heap_replace] keeps a binary min-heap of the clocks at which the move slots of the
    micro-controller become free; [steppersync_flush] merges the commands of the
    steppers in the order of their clocks and never overcommits the move queue. *)

From S2P Require Import Prelude Double Wire Command Msgblock Stepcompress StepcompressFacts.
From Stdlib Require Import Sorting.Sorted.

(** ** The heap *)

Definition child (i j : nat) : Prop := j = (2 * i + 1)%nat \/ j = (2 * i + 2)%nat.

Definition heap (mc : list Z) : Prop :=
  forall i j x y, child i j -> mc !! i = Some x -> mc !! j = Some y -> x <= y.

(** A heap whose element at [pos] is to become [req]: the element that is there is
    ignored, and its parent bounds [req] and its children from below. *)
Record hole (pos : nat) (req : Z) (mc : list Z) : Prop := {
  hole_order i j x y : child i j -> i <> pos -> j <> pos ->
    mc !! i = Some x -> mc !! j = Some y -> x <= y;
  hole_children i j x y : child i pos -> child pos j ->
    mc !! i = Some x -> mc !! j = Some y -> x <= y;
  hole_req i x : child i pos -> mc !! i = Some x -> x <= req;
}.

Lemma hole_fill pos req mc :
  hole pos req mc -> (forall j y, child pos j -> mc !! j = Some y -> req <= y) ->
  heap (<[pos := req]> mc).
Proof.
  intros [Ho _ Hr] Hc i j x y Hij Hi Hj.
  apply list_lookup_insert_Some in Hi as [(<- & <- & _)|[Hi1 Hi2]];
    apply list_lookup_insert_Some in Hj as [(<- & <- & _)|[Hj1 Hj2]]; eauto; lia.
Qed.

(** The smaller child moves up. *)
Lemma hole_down pos c x req mc :
  hole pos req mc -> child pos c -> mc !! c = Some x -> x <= req ->
  (forall j y, child pos j -> mc !! j = Some y -> x <= y) ->
  hole c req (<[pos := x]> mc).
Proof.
  intros [Ho Hch Hr] Hc Hx Hreq Hmin.
  assert (Hcp : c <> pos) by (unfold child in Hc; lia).
  assert (Hpar : forall i, child i c -> i = pos) by (unfold child in *; lia). split.
  - intros i j a b Hij Hi Hj Hla Hlb.
    apply list_lookup_insert_Some in Hla as [(<- & <- & _)|[Hi1 Hla]];
      apply list_lookup_insert_Some in Hlb as [(<- & <- & _)|[Hj1 Hlb]]; eauto; lia.
  - intros i j a b Hic Hcj Hla Hlb. rewrite (Hpar i Hic) in Hla.
    apply list_lookup_insert_Some in Hla as [(_ & <- & _)|[? _]]; [|done].
    apply list_lookup_insert_Some in Hlb as [(<- & _)|[_ Hlb]]; [unfold child in *; lia|].
    destruct (decide (j = pos)); [unfold child in *; lia|]. by apply (Ho c j).
  - intros i a Hic Hla. rewrite (Hpar i Hic) in Hla.
    by apply list_lookup_insert_Some in Hla as [(_ & <- & _)|[? _]].
Qed.

Definition clocks_ok (mc : list Z) : Prop := Forall (fun c => 0 <= c <= UINT64_MAX) mc.

Lemma repeat_lookup {A} (x y : A) n i : repeat x n !! i = Some y -> y = x.
Proof. intros H. by apply list_elem_of_lookup_2, list_elem_of_In, repeat_spec in H. Qed.

(** [mc[j]] as the loop reads it. *)
Definition child_clock (mc : list Z) (j : Z) : Z :=
  if j <? zlen mc then nthZ mc j else UINT64_MAX.

Lemma child_clock_lookup mc (j : nat) y :
  mc !! j = Some y -> child_clock mc (Z.of_nat j) = y.
Proof.
  intros H. pose proof (lookup_lt_Some _ _ _ H). unfold child_clock, zlen, nthZ.
  destruct (Z.ltb_spec (Z.of_nat j) (Z.of_nat (length mc))); [|lia].
  rewrite Nat2Z.id, nth_lookup, H. done.
Qed.

Lemma child_clock_max mc (j : nat) :
  clocks_ok mc -> child_clock mc (Z.of_nat j) <= UINT64_MAX /\
  (child_clock mc (Z.of_nat j) < UINT64_MAX -> mc !! j = Some (child_clock mc (Z.of_nat j))).
Proof.
  intros Hok. destruct (mc !! j) as [y|] eqn:E.
  - rewrite (child_clock_lookup _ _ _ E). split; [|done].
    unfold clocks_ok in Hok. rewrite Forall_lookup in Hok. by apply (Hok j y).
  - apply lookup_ge_None in E. unfold child_clock, zlen.
    destruct (Z.ltb_spec (Z.of_nat j) (Z.of_nat (length mc))); [lia|]. split; [done|lia].
Qed.

Lemma mc_store_run (pos : nat) x mc :
  (pos < length mc)%nat -> mc_store (Z.of_nat pos) x mc = Some (<[pos := x]> mc).
Proof.
  intros H. unfold mc_store, zlen. destruct (Z.ltb_spec (Z.of_nat pos) (Z.of_nat (length mc))); [|lia].
  by rewrite Nat2Z.id.
Qed.

(** Sinking a child does not change what is stored in the end. *)
Lemma sink_perm pos c (x req : Z) mc :
  (pos < length mc)%nat -> pos <> c -> mc !! c = Some x ->
  <[c := req]> (<[pos := x]> mc) ≡ₚ <[pos := req]> mc.
Proof.
  intros Hp Hne Hc.
  rewrite <- (Permutation_insert_swap (<[pos := req]> mc) pos c req x).
  - by rewrite list_insert_insert_eq.
  - by rewrite list_lookup_insert_eq.
  - by rewrite list_lookup_insert_ne.
Qed.

(** The loop never stores outside of the array. *)
Lemma heap_loop_spec fuel (pos : nat) req mc :
  hole pos req mc -> clocks_ok mc -> 0 <= req <= UINT64_MAX ->
  (pos < length mc)%nat -> (length mc - pos < fuel)%nat ->
  exists mc', heap_loop fuel (Z.of_nat pos) req mc = Some mc' /\ heap mc' /\
    mc' ≡ₚ <[pos := req]> mc.
Proof.
  revert pos mc. induction fuel as [|fuel IH]; intros pos mc Hh Hok Hreq Hpos Hf; [lia|].
  cbn [heap_loop]. fold (child_clock mc (2 * Z.of_nat pos + 1)) (child_clock mc (2 * Z.of_nat pos + 2)).
  replace (2 * Z.of_nat pos + 1) with (Z.of_nat (2 * pos + 1)) by lia.
  replace (2 * Z.of_nat pos + 2) with (Z.of_nat (2 * pos + 2)) by lia.
  destruct (child_clock_max mc (2 * pos + 1) Hok) as [B1 L1].
  destruct (child_clock_max mc (2 * pos + 2) Hok) as [B2 L2].
  set (c1 := child_clock mc (Z.of_nat (2 * pos + 1))) in *.
  set (c2 := child_clock mc (Z.of_nat (2 * pos + 2))) in *.
  assert (Hmin : forall x, x <= c1 -> x <= c2 -> forall j y, child pos j -> mc !! j = Some y -> x <= y).
  { intros x H1 H2 j y [->| ->] Hy; apply child_clock_lookup in Hy; subst c1 c2; lia. }
  assert (Hdown : forall c x, child pos c -> mc !! c = Some x -> x <= req -> x <= c1 -> x <= c2 ->
    exists mc', mc_store (Z.of_nat pos) x mc ≫= (fun mc1 => heap_loop fuel (Z.of_nat c) req mc1) = Some mc' /\
      heap mc' /\ mc' ≡ₚ <[pos := req]> mc).
  { intros c x Hc Hx Hr H1 H2. rewrite (mc_store_run _ _ _ Hpos). cbn [mbind option_bind].
    pose proof (lookup_lt_Some _ _ _ Hx) as Hlt. assert (Hgt : (pos < c)%nat) by (unfold child in Hc; lia).
    destruct (IH c (<[pos := x]> mc)) as (mc' & E & Hp & Hm);
      [exact (hole_down pos c x req mc Hh Hc Hx Hr (Hmin x H1 H2))| |done|by rewrite length_insert|rewrite length_insert; lia|].
    { apply Forall_insert; [done|]. unfold clocks_ok in Hok. rewrite Forall_lookup in Hok. by apply (Hok c). }
    exists mc'. do 2 (split; [done|]). rewrite Hm. apply sink_perm; auto. lia. }
  destruct (Z.leb_spec req c1) as [R1|R1], (Z.leb_spec req c2) as [R2|R2]; cbn [andb].
  1: { rewrite (mc_store_run _ _ _ Hpos). eexists. split; [done|]. split; [|done].
       apply hole_fill; [done|]. by apply Hmin. }
  all: destruct (Z.ltb_spec c1 c2) as [C|C];
    try (exfalso; lia); (apply Hdown; [(by left) || (by right)|first [apply L1|apply L2]; lia|lia..]).
Qed.

(** The first element of a heap is its least. *)
Lemma heap_head_least mc x i y :
  heap mc -> mc !! 0%nat = Some x -> mc !! i = Some y -> x <= y.
Proof.
  intros Hh H0. revert y. induction i as [i IH] using lt_wf_ind; intros y Hy.
  destruct (decide (i = 0%nat)) as [->|Hi]; [by simplify_eq|].
  set (p := ((i - 1) / 2)%nat).
  assert (Hp : child p i).
  { unfold child, p. pose proof (Nat.div_mod_eq (i - 1) 2). pose proof (Nat.mod_upper_bound (i - 1) 2). lia. }
  assert (Hlt : (p < i)%nat) by (unfold child in Hp; lia).
  destruct (lookup_lt_is_Some_2 mc p) as [z Hz]; [pose proof (lookup_lt_Some _ _ _ Hy); lia|].
  pose proof (IH p Hlt z Hz). pose proof (Hh p i z y Hp Hz Hy). lia.
Qed.

Lemma heap_replace_spec req slot slots :
  heap (slot :: slots) -> clocks_ok (slot :: slots) -> 0 <= req <= UINT64_MAX ->
  Forall (Z.le slot) slots /\
  exists mc', heap_replace req (slot :: slots) = Some mc' /\ heap mc' /\ mc' ≡ₚ req :: slots.
Proof.
  intros Hh Hok Hreq. split.
  - rewrite Forall_lookup. intros i y Hy. by apply (heap_head_least (slot :: slots) slot (S i)).
  - apply (heap_loop_spec _ 0); [|done|done|simpl; lia|simpl; lia]. split.
    + intros i j x y Hij _ _. by apply Hh.
    + intros i j x y Hi. unfold child in Hi. lia.
    + intros i x Hi. unfold child in Hi. lia.
Qed.

(** ** Every clock is a [uint64_t] *)

Section wf.
Context {D : Type} {DO : DoubleOps D}.
#[local] Set Default Proof Using "Type*".

Definition is_u64 (c : Z) : Prop := 0 <= c <= UINT64_MAX.

Lemma is_u64_u64 z : is_u64 (u64 z).
Proof. unfold is_u64, UINT64_MAX. pose proof (u64_range z). lia. Qed.

Definition msg_wf (qm : queue_message D) : Prop :=
  is_u64 (fst (qm_clocks qm)) /\ is_u64 (snd (qm_clocks qm)).

Record sc_wf (sc : stepcompress D) : Prop := {
  wf_last : is_u64 (sc_last_step_clock sc);
  wf_next : is_u64 (sc_next_step_clock sc);
  wf_msgs : Forall msg_wf (sc_msg_queue sc);
}.

(** [m] keeps the clocks in range, from the state [sc]. *)
Definition keeps {A} (m : M (stepcompress D) A) (sc : stepcompress D) : Prop :=
  match m sc with Ret _ sc' | Shut _ sc' => sc_wf sc' | Stuck => True end.

Lemma keeps_bind {A B} (m : M (stepcompress D) A) (k : A -> M (stepcompress D) B) sc :
  keeps m sc -> (forall a sc', sc_wf sc' -> keeps (k a) sc') -> keeps (bind m k) sc.
Proof. unfold keeps, bind. intros Hm Hk. destruct (m sc); auto. by apply Hk. Qed.

Lemma keeps_get {A B} (f : stepcompress D -> A) (k : A -> M (stepcompress D) B) sc :
  keeps (k (f sc)) sc -> keeps (bind (scget f) k) sc.
Proof. done. Qed.

Lemma keeps_deref {A B} (o : option A) (k : A -> M (stepcompress D) B) sc :
  (forall a, o = Some a -> keeps (k a) sc) -> keeps (bind (deref o) k) sc.
Proof. destruct o as [a|]; intros H; [exact (H a eq_refl)|done]. Qed.

Lemma keeps_mod f sc :
  sc_wf sc -> is_u64 (sc_last_step_clock (f sc)) -> is_u64 (sc_next_step_clock (f sc)) ->
  (sc_msg_queue (f sc) = sc_msg_queue sc) -> keeps (scmod f) sc.
Proof. intros [H1 H2 H3] A B E. unfold keeps, scmod, modify. split; [done..|]. by rewrite E. Qed.

Lemma keeps_queue_msg data a b sc : sc_wf sc -> is_u64 a -> is_u64 b -> keeps (queue_msg data a b) sc.
Proof.
  intros [H1 H2 H3] A B. unfold queue_msg. apply keeps_deref. intros [qm n] _.
  unfold keeps, scmod, modify. split; [done..|]. cbn. apply Forall_app. by split; [|apply Forall_singleton].
Qed.

(** One step through a computation. *)
Ltac keep_step :=
  lazymatch goal with
  | |- keeps (bind (scget _) _) _ => apply keeps_get
  | |- keeps (bind (deref _) _) _ => apply keeps_deref; intros ? _
  | |- keeps (bind _ _) _ => apply keeps_bind; [|intros ? ? ?]
  | |- keeps (if ?b then _ else _) _ => destruct b
  | |- keeps (when ?b _) _ => destruct b; unfold when
  | |- keeps (let '(_, _) := ?x in _) _ => destruct x
  | |- keeps (ret _) _ => assumption
  | |- keeps stuck _ => exact I
  | |- keeps (queue_msg _ _ _) _ => apply keeps_queue_msg
  | |- keeps (scmod _) _ => apply keeps_mod
  | |- sc_wf _ => assumption
  | |- is_u64 (u64 _) => apply is_u64_u64
  | |- is_u64 (sc_last_step_clock ?sc) =>
      first [is_var sc; apply wf_last; assumption | progress (cbn [upd sc_last_step_clock])]
  | |- is_u64 (sc_next_step_clock ?sc) =>
      first [is_var sc; apply wf_next; assumption | progress (cbn [upd sc_next_step_clock])]
  | |- is_u64 _ => first [assumption | unfold is_u64, UINT64_MAX; lia]
  | |- sc_msg_queue _ = sc_msg_queue _ => reflexivity
  end.
Ltac keep := repeat keep_step.

Lemma keeps_free_history c sc : sc_wf sc -> keeps (free_history c) sc.
Proof. intros. unfold free_history. keep. Qed.

Lemma keeps_calc sc : sc_wf sc -> keeps calc_last_step_print_time sc.
Proof. intros. unfold calc_last_step_print_time. keep. by apply keeps_free_history. Qed.

Lemma keeps_add_move fc m sc : sc_wf sc -> is_u64 fc -> keeps (add_move fc m) sc.
Proof.
  intros Hw Hf. unfold add_move. cbv zeta. apply keeps_get.
  apply keeps_bind; [|intros ? ? ?; keep]. apply keeps_queue_msg; [done|by apply wf_last|].
  destruct (_ && _); [done|by apply wf_last].
Qed.

Lemma keeps_flush_loop fuel mc sc : sc_wf sc -> keeps (flush_loop fuel mc) sc.
Proof.
  revert sc. induction fuel as [|fuel IH]; intros sc Hw; cbn [flush_loop]; cbv zeta; keep;
    try (by apply keeps_calc); try (apply keeps_add_move; [done|apply is_u64_u64]); by apply IH.
Qed.

Lemma keeps_queue_flush mc sc : sc_wf sc -> keeps (queue_flush mc) sc.
Proof. intros. unfold queue_flush. keep. by apply keeps_flush_loop. Qed.

Lemma keeps_flush_far c sc : sc_wf sc -> is_u64 c -> keeps (stepcompress_flush_far c) sc.
Proof. intros. unfold stepcompress_flush_far. keep; [by apply keeps_add_move|by apply keeps_calc]. Qed.

Lemma keeps_set_dir d sc : sc_wf sc -> keeps (set_next_step_dir d) sc.
Proof. intros. unfold set_next_step_dir. keep. by apply keeps_queue_flush. Qed.

Lemma keeps_store c sc : sc_wf sc -> keeps (queue_store c) sc.
Proof. intros. unfold queue_store. keep. Qed.

Lemma keeps_append_far sc : sc_wf sc -> keeps queue_append_far sc.
Proof.
  intros. unfold queue_append_far. keep;
    [by apply keeps_queue_flush|apply keeps_flush_far; [done|by apply wf_next]|by apply keeps_store].
Qed.

Lemma keeps_make_room sc : sc_wf sc -> keeps make_room sc.
Proof. intros. unfold make_room. cbv zeta. keep. Qed.

Lemma keeps_append_extend sc : sc_wf sc -> keeps queue_append_extend sc.
Proof.
  intros. unfold queue_append_extend. cbv zeta. keep;
    [by apply keeps_queue_flush|by apply keeps_make_room|by apply keeps_store..].
Qed.

Lemma keeps_append sc : sc_wf sc -> keeps queue_append sc.
Proof.
  intros. unfold queue_append. keep;
    [by apply keeps_set_dir|by apply keeps_append_far|by apply keeps_append_extend|by apply keeps_store].
Qed.

Lemma keeps_flush mc sc : sc_wf sc -> keeps (stepcompress_flush mc) sc.
Proof. intros. unfold stepcompress_flush. keep; [by apply keeps_append|by apply keeps_queue_flush]. Qed.

(** Every clock of a [stepcompress] object stays a [uint64_t]: its last and its pending
    step clock and both clocks of every message it has queued.  A new object has this
    property and every operation keeps it, also when it ends with an error. *)
Theorem stepcompress_clocks_u64 :
  (forall oid, sc_wf (stepcompress_alloc oid)) /\
  forall sc, sc_wf sc ->
    (forall a b c, keeps (stepcompress_fill a b c) sc) /\
    (forall b, keeps (stepcompress_set_invert_sdir b) sc) /\
    (forall off freq, keeps (stepcompress_set_time off freq) sc) /\
    (forall sdir print_time step_time, keeps (stepcompress_append sdir print_time step_time) sc) /\
    keeps stepcompress_commit sc /\
    (forall clock, keeps (stepcompress_flush clock) sc) /\
    (forall clock, is_u64 clock -> keeps (stepcompress_reset clock) sc) /\
    (forall clock pos, keeps (stepcompress_set_last_position clock pos) sc) /\
    (forall data, keeps (stepcompress_queue_msg data) sc).
Proof.
  split; [intros; split; [vm_compute; split; discriminate..|constructor]|].
  intros sc Hw. split_and!; intros.
  - unfold stepcompress_fill. keep.
  - unfold stepcompress_set_invert_sdir. cbv zeta. keep.
  - unfold stepcompress_set_time. keep. by apply keeps_calc.
  - unfold stepcompress_append. cbv zeta. keep. by apply keeps_append.
  - unfold stepcompress_commit. keep. by apply keeps_append.
  - by apply keeps_flush.
  - unfold stepcompress_reset. keep; [by apply keeps_flush|by apply keeps_calc].
  - unfold stepcompress_set_last_position. keep. by apply keeps_flush.
  - unfold stepcompress_queue_msg. keep. by apply keeps_flush.
Qed.
End wf.

(** ** Merging the command queues *)

(** [merges qs ms qs']: taking the messages [ms] one by one, each from the front of some
    queue, leaves the queues [qs']. *)
Inductive merges {A} : list (list A) -> list A -> list (list A) -> Prop :=
| merges_nil qs : merges qs [] qs
| merges_cons qs i m rest ms qs' :
    qs !! i = Some (m :: rest) -> merges (<[i := rest]> qs) ms qs' -> merges qs (m :: ms) qs'.

Lemma merges_snoc {A} qs ms qs1 i (m : A) rest :
  merges qs ms qs1 -> qs1 !! i = Some (m :: rest) -> merges qs (ms ++ [m]) (<[i := rest]> qs1).
Proof. induction 1; intros; simpl; econstructor; eauto using merges_nil. Qed.

(** No message is lost or duplicated. *)
Lemma merges_perm {A} (qs qs' : list (list A)) ms :
  merges qs ms qs' -> concat qs ≡ₚ ms ++ concat qs'.
Proof.
  induction 1 as [|qs i m rest ms qs' Hi _ IH]; [done|]. simpl. rewrite <- IH.
  apply list_elem_of_split_length in Hi as (l1 & l2 & -> & ->).
  rewrite insert_app_r_alt, Nat.sub_diag by lia. cbn [list_insert insert]. rewrite !concat_app. simpl.
  by rewrite (Permutation_middle (concat l1)).
Qed.

Section sync.
Context {Q D : Type} {DO : DoubleOps D} (send_batch : list (queue_message D) -> Q -> Q).
#[local] Set Default Proof Using "Type*".
Implicit Types (ss : steppersync Q D) (m : queue_message D).

Definition min_of m : Z := fst (qm_clocks m).
Definition req_of m : Z := snd (qm_clocks m).
Definition queues ss : list (list (queue_message D)) := sc_msg_queue <$> ss_sc_list ss.

(** No queue starts with a clock before [c]. *)
Definition heads_from (c : Z) (qs : list (list (queue_message D))) : Prop :=
  forall i m rest, qs !! i = Some (m :: rest) -> c <= req_of m.

Lemma find_lowest_spec l i best rc b rc' :
  find_lowest i l best rc = (b, rc') ->
  rc' <= rc /\ heads_from rc' (sc_msg_queue <$> l) /\
  ((b = best /\ rc' = rc) \/
   exists k sc m rest, b = Some (i + k)%nat /\ l !! k = Some sc /\ sc_msg_queue sc = m :: rest /\ req_of m = rc').
Proof.
  revert i best rc. induction l as [|sc l IH]; intros i best rc H; cbn [find_lowest] in H.
  { injection H as <- <-. split; [lia|]. split; [by intros ? ? ?|by left]. }
  assert (Hskip : find_lowest (S i) l best rc = (b, rc') ->
    (forall m rest, sc_msg_queue sc = m :: rest -> rc <= req_of m) ->
    rc' <= rc /\ heads_from rc' (sc_msg_queue <$> sc :: l) /\
    ((b = best /\ rc' = rc) \/ exists k sc0 m rest, b = Some (i + k)%nat /\ (sc :: l) !! k = Some sc0 /\
        sc_msg_queue sc0 = m :: rest /\ req_of m = rc')).
  { intros Hf Hh. destruct (IH _ _ _ Hf) as (Hle & Hall & Hb). split; [done|]. split.
    - intros [|k] m rest Hk; [|by apply (Hall k m rest)]. injection Hk as Hk. specialize (Hh _ _ Hk). lia.
    - destruct Hb as [?|(k & sc0 & m & rest & -> & ? & ? & ?)]; [by left|right].
      exists (S k), sc0, m, rest. split; [f_equal; lia|done]. }
  destruct (sc_msg_queue sc) as [|m rest] eqn:Eq; [by apply Hskip|]. fold (req_of m) in H.
  destruct (Z.ltb_spec (req_of m) rc) as [Hlt|Hge].
  - destruct (IH _ _ _ H) as (Hle & Hall & Hb). split; [lia|]. split.
    + intros [|k] m' rest' Hk; [|by apply (Hall k m' rest')]. injection Hk as Hk. rewrite Eq in Hk.
      injection Hk as <- <-. lia.
    + right. destruct Hb as [[-> ->]|(k & sc0 & m' & rest' & -> & ? & ? & ?)].
      * exists 0%nat, sc, m, rest. split; [f_equal; lia|done].
      * exists (S k), sc0, m', rest'. split; [f_equal; lia|done].
  - apply Hskip; [done|]. intros m' rest' E. injection E as <- <-. done.
Qed.

(** The slots of the move queue, as a heap of the clocks at which they become free. *)
Record slots_ok (mc : list Z) : Prop := {
  sl_heap : heap mc; sl_clocks : clocks_ok mc; sl_some : mc <> [] }.

(** A message takes the earliest slot, which is then busy until the clock that the
    message carries; a message without such a clock leaves the slots alone. *)
Definition takes_slot (mc : list Z) m (slot : Z) (mc' : list Z) : Prop :=
  exists others, mc ≡ₚ slot :: others /\ Forall (Z.le slot) others /\
    mc' ≡ₚ (if min_of m =? 0 then slot else min_of m) :: others.

(** One round of the ordering loop. *)
Lemma next_msg_run mclk ss :
  slots_ok (ss_move_clocks ss) -> Forall sc_wf (ss_sc_list ss) ->
  (next_msg mclk ss = Ret None ss /\
     forall i m rest, queues ss !! i = Some (m :: rest) -> MAX_CLOCK <= req_of m \/ mclk < req_of m) \/
  exists i m rest slot ss',
    next_msg mclk ss = Ret (Some (qm_set_clocks slot (req_of m) m)) ss' /\
    queues ss !! i = Some (m :: rest) /\ queues ss' = <[i := rest]> (queues ss) /\
    heads_from (req_of m) (queues ss) /\ msg_wf m /\
    takes_slot (ss_move_clocks ss) m slot (ss_move_clocks ss') /\
    slots_ok (ss_move_clocks ss') /\ Forall sc_wf (ss_sc_list ss') /\ ss_sq ss' = ss_sq ss.
Proof.
  intros [Hh Hc Hs] Hwf. unfold next_msg.
  rewrite (bind_Ret (gets (fun ss : steppersync Q D => ss)) _ ss ss ss eq_refl).
  destruct (find_lowest 0 (ss_sc_list ss) None MAX_CLOCK) as [b rc] eqn:Ef.
  destruct (find_lowest_spec _ _ _ _ _ _ Ef) as (Hle & Hall & [[-> ->]|(i & sc & m & rest & -> & Hi & Hq & Er)]).
  { left. split; [done|]. intros i m rest Hm. left. by apply (Hall i m rest). }
  cbn [Nat.add]. rewrite Hi. cbn [deref]. rewrite bind_ret_l, Hq. cbv zeta. fold (min_of m). subst rc.
  assert (Hqi : queues ss !! i = Some (m :: rest)) by (unfold queues; by rewrite list_lookup_fmap, Hi, <- Hq).
  destruct (ss_move_clocks ss) as [|slot slots] eqn:Emc; [done|].
  assert (Hm : msg_wf m).
  { rewrite Forall_lookup in Hwf. destruct (Hwf i sc Hi) as [_ _ HF]. rewrite Hq in HF. by apply Forall_cons in HF as [? _]. }
  destruct (heap_replace_spec (min_of m) slot slots Hh Hc) as (Hleast & mc' & Erep & Hh' & Hp'); [by apply Hm|].
  destruct (negb (min_of m =? 0) && (mclk <? req_of m)) eqn:Eb.
  { left. split; [done|]. intros j m' rest' Hj. right. apply andb_true_iff in Eb as [_ Eb].
    apply Z.ltb_lt in Eb. pose proof (Hall j m' rest' Hj). lia. }
  right. exists i, m, rest, slot.
  set (mc1 := if negb (min_of m =? 0) then mc' else slot :: slots).
  exists (ss <| ss_move_clocks := mc1 |> <| ss_sc_list ::= <[i := sc <| sc_msg_queue := rest |>]> |>).
  split. { cbn [head deref]. rewrite bind_ret_l. unfold mc1. destruct (negb _); [by rewrite Erep|done]. }
  split; [done|]. split; [unfold queues; cbn; by rewrite list_fmap_insert|]. split; [done|]. split; [done|].
  assert (Hmc : slots_ok mc1 /\ takes_slot (slot :: slots) m slot mc1).
  { unfold mc1, takes_slot. destruct (min_of m =? 0) eqn:E0; cbn [negb].
    - split; [done|]. by exists slots.
    - split; [|by exists slots]. split; [done| |by intros ->; apply Permutation_nil_l in Hp'].
      unfold clocks_ok in *. rewrite Hp'. apply Forall_cons in Hc as [_ Hc]. apply Forall_cons.
      split; [apply Hm|done]. }
  destruct Hmc as [Hok Ht]. split; [done|]. split; [done|]. split; [|done].
  apply Forall_insert; [done|]. rewrite Forall_lookup in Hwf. destruct (Hwf i sc Hi) as [W1 W2 W3].
  split; [done..|]. cbn. rewrite Hq in W3. by apply Forall_cons in W3 as [_ ?].
Qed.

(** A batched message is the queued one with another earliest time of transmission. *)
Definition retimed m m' : Prop :=
  qm_msg m' = qm_msg m /\ qm_len m' = qm_len m /\ req_of m' = req_of m.

Definition by_clock m m' : Prop := req_of m <= req_of m'.
Definition in_order (qs : list (list (queue_message D))) : Prop := Forall (StronglySorted by_clock) qs.

Lemma in_order_clocks (qs : list (list (queue_message D))) :
  Forall (StronglySorted Z.le) (map (map req_of) qs) -> in_order qs.
Proof using D.
  unfold in_order. rewrite List.Forall_map. intros HF. eapply Forall_impl; [exact HF|]. clear HF. intros q.
  induction q as [|m q IH]; intros H; [constructor|]. apply StronglySorted_inv in H as [H HF].
  constructor; [by apply IH|]. exact (proj1 (List.Forall_map req_of _ q) HF).
Qed.

(** ** Capacity of the move queue *)

(** The messages of a batch leave in order, each no earlier than its [min_clock]: the
    transmit times are the running maximum. *)
Fixpoint transmit (last : Z) (slots : list Z) : list Z :=
  match slots with [] => [] | s :: l => Z.max last s :: transmit (Z.max last s) l end.
Definition last_transmit (last : Z) (slots : list Z) : Z := foldl Z.max last slots.

(** A log of (transmit time, clock at which the move has been loaded by its stepper): the
    moves that occupy a slot of the micro-controller at time [t]. *)
Definition in_use (t : Z) (log : list (Z * Z)) : nat :=
  length (filter (fun p => fst p <= t < snd p) log).
Definition busy_after (t : Z) (mc : list Z) : nat := length (filter (fun c => t < c) mc).

Record capacity ss (last : Z) (log : list (Z * Z)) : Prop := {
  cap_slots : slots_ok (ss_move_clocks ss);
  cap_last : 0 <= last;
  cap_cover t : last <= t -> (in_use t log <= busy_after t (ss_move_clocks ss))%nat;
  cap_bound t : (in_use t log <= length (ss_move_clocks ss))%nat;
}.

Lemma in_use_snoc t log p :
  in_use t (log ++ [p]) = (in_use t log + if bool_decide (fst p <= t < snd p)%Z then 1 else 0)%nat.
Proof.
  unfold in_use. rewrite filter_app, length_app, filter_cons, filter_nil.
  destruct (decide _) as [H|H]; [rewrite bool_decide_true by done|rewrite bool_decide_false by done]; done.
Qed.

Lemma busy_after_cons t c mc :
  busy_after t (c :: mc) = ((if bool_decide (t < c)%Z then 1 else 0) + busy_after t mc)%nat.
Proof.
  unfold busy_after. rewrite filter_cons.
  destruct (decide _) as [H|H]; [rewrite bool_decide_true by done|rewrite bool_decide_false by done]; done.
Qed.

Lemma busy_after_le t mc : (busy_after t mc <= length mc)%nat.
Proof. apply length_filter. Qed.

Lemma busy_after_perm t mc mc' : mc ≡ₚ mc' -> busy_after t mc = busy_after t mc'.
Proof. intros H. unfold busy_after. by rewrite H. Qed.

Lemma takes_slot_length mc m slot mc' : takes_slot mc m slot mc' -> length mc' = length mc.
Proof. intros (o & H1 & _ & H2). by rewrite H1, H2. Qed.

Lemma capacity_step ss ss' last log m slot :
  capacity ss last log -> is_u64 (min_of m) ->
  takes_slot (ss_move_clocks ss) m slot (ss_move_clocks ss') -> slots_ok (ss_move_clocks ss') ->
  capacity ss' (Z.max last slot) (log ++ [(Z.max last slot, min_of m)]).
Proof.
  intros [Hs Hl Hc Hb] Hm Ht Hok. pose proof (takes_slot_length _ _ _ _ Ht) as Hlen.
  assert (Hcov : forall t, Z.max last slot <= t ->
    (in_use t (log ++ [(Z.max last slot, min_of m)]) <= busy_after t (ss_move_clocks ss'))%nat).
  { intros t Hge. destruct Ht as (o & H1 & _ & H2). specialize (Hc t ltac:(lia)).
    rewrite (busy_after_perm t _ _ H1), busy_after_cons, bool_decide_false in Hc by lia.
    rewrite in_use_snoc, (busy_after_perm t _ _ H2), busy_after_cons. cbn [fst snd].
    unfold is_u64 in Hm. destruct (Z.eqb_spec (min_of m) 0);
      repeat case_bool_decide; lia. }
  split; [done|lia|done|]. intros t. rewrite Hlen. destruct (Z.le_gt_cases (Z.max last slot) t) as [Hge|Hlt].
  - specialize (Hcov t Hge). pose proof (busy_after_le t (ss_move_clocks ss')). lia.
  - rewrite in_use_snoc. cbn [fst snd]. rewrite bool_decide_false by lia. specialize (Hb t). lia.
Qed.

(** ** The ordering loop *)

Lemma total_msgs_concat (l : list (stepcompress D)) :
  total_msgs l = length (concat (sc_msg_queue <$> l)).
Proof. induction l as [|sc l IH]; [done|]. simpl. by rewrite length_app, IH. Qed.

Lemma heads_from_rest qs i m rest :
  in_order qs -> heads_from (req_of m) qs -> qs !! i = Some (m :: rest) ->
  in_order (<[i := rest]> qs) /\ heads_from (req_of m) (<[i := rest]> qs).
Proof.
  intros Ho Hh Hi. assert (Hq := Ho). unfold in_order in Hq. rewrite Forall_lookup in Hq.
  apply Hq, StronglySorted_inv in Hi as Hi'. destruct Hi' as [Hs HF]. split.
  - by apply Forall_insert.
  - intros j m' rest' Hj. apply list_lookup_insert_Some in Hj as [(-> & E & _)|[_ Hj]]; [|by apply (Hh j m' rest')].
    subst rest. by apply Forall_cons in HF as [? _].
Qed.

Lemma order_loop_run fuel mclk ss acc last log :
  (total_msgs (ss_sc_list ss) < fuel)%nat -> Forall sc_wf (ss_sc_list ss) -> capacity ss last log ->
  exists ms outs ss', order_loop fuel mclk acc ss = Ret (acc ++ outs) ss' /\
    merges (queues ss) ms (queues ss') /\ Forall2 retimed ms outs /\
    (forall c, in_order (queues ss) -> heads_from c (queues ss) ->
      StronglySorted by_clock ms /\ Forall (fun m => c <= req_of m) ms) /\
    (forall i m rest, queues ss' !! i = Some (m :: rest) -> MAX_CLOCK <= req_of m \/ mclk < req_of m) /\
    Forall sc_wf (ss_sc_list ss') /\ ss_sq ss' = ss_sq ss /\
    length (ss_move_clocks ss') = length (ss_move_clocks ss) /\
    capacity ss' (last_transmit last (min_of <$> outs))
      (log ++ zip (transmit last (min_of <$> outs)) (min_of <$> ms)).
Proof.
  revert ss acc last log. induction fuel as [|fuel IH]; intros ss acc last log Hf Hwf Hcap; [lia|].
  cbn [order_loop].
  destruct (next_msg_run mclk ss (cap_slots _ _ _ Hcap) Hwf) as
    [[E Hrem]|(i & m & rest & slot & ss1 & E & Hq & Hq1 & Hlow & Hm & Ht & Hok & Hwf1 & Hsq)];
    rewrite (bind_Ret _ _ _ _ _ E).
  { exists [], [], ss. simpl. rewrite !app_nil_r. split; [done|]. split; [constructor|].
    split; [constructor|]. split; [by repeat constructor|]. done. }
  assert (Hmin : min_of (qm_set_clocks slot (req_of m) m) = slot) by done.
  destruct (IH ss1 (acc ++ [qm_set_clocks slot (req_of m) m]) (Z.max last slot)
              (log ++ [(Z.max last slot, min_of m)])) as
    (ms & outs & ss' & Er & Hmg & Hrt & Hord & Hrem & Hwf' & Hsq' & Hlen & Hcap'); [|done|..].
  { rewrite total_msgs_concat in *. fold (queues ss) in Hf. fold (queues ss1). rewrite Hq1.
    pose proof (merges_perm _ _ _ (merges_cons _ i m rest [] _ Hq (merges_nil _))) as Hp.
    apply Permutation_length in Hp. simpl in Hp. lia. }
  { eapply capacity_step; eauto. apply Hm. }
  exists (m :: ms), (qm_set_clocks slot (req_of m) m :: outs), ss'.
  split; [by rewrite Er, <- app_assoc|]. split; [by econstructor; [|rewrite <- Hq1]|].
  split; [by constructor|]. split.
  { intros c Ho Hh. destruct (heads_from_rest _ _ _ _ Ho Hlow Hq) as [Ho1 Hh1]. rewrite <- Hq1 in Ho1, Hh1.
    destruct (Hord _ Ho1 Hh1) as [S1 S2]. pose proof (Hh i m rest Hq) as Hc.
    split; [by constructor|]. constructor; [done|]. eapply Forall_impl; [exact S2|]. simpl. lia. }
  split; [done|]. split; [done|]. split; [by rewrite Hsq'|].
  split; [by rewrite Hlen; eapply takes_slot_length|].
  cbn [fmap list_fmap transmit zip zip_with last_transmit foldl]. rewrite Hmin.
  rewrite (cons_middle _ log), app_assoc. exact Hcap'.
Qed.

(** ** Flushing *)

Lemma each_sc_wf op (l rest l' : list (stepcompress D)) r :
  (forall sc, sc_wf sc -> keeps op sc) -> Forall sc_wf l -> Forall sc_wf rest ->
  each_sc op l rest = Ret r l' -> Forall sc_wf l'.
Proof.
  intros Hop. revert l. induction rest as [|sc rest IH]; intros l Hl Hr H; cbn [each_sc] in H; [by simplify_eq|].
  apply Forall_cons in Hr as [Hsc Hr]. specialize (Hop sc Hsc) as Hk. unfold keeps in Hk.
  destruct (op sc) as [x sc'| |]; [|done..]. destruct (negb (x =? 0)).
  - injection H as <- <-. apply Forall_app. by split; [|constructor].
  - apply (IH (l ++ [sc'])); [|done|done]. apply Forall_app. by split; [|apply Forall_singleton].
Qed.

(** The first part of [steppersync_flush] leaves everything but the steppers alone. *)
Lemma run_flush_each mclk ss r ss1 :
  Forall sc_wf (ss_sc_list ss) -> run_each (stepcompress_flush mclk) ss = Ret r ss1 ->
  Forall sc_wf (ss_sc_list ss1) /\ ss_move_clocks ss1 = ss_move_clocks ss /\ ss_sq ss1 = ss_sq ss.
Proof.
  intros Hwf. unfold run_each. destruct (each_sc _ _ _) as [x l| |] eqn:E; [|done..].
  intros H. injection H as <- <-. split; [|done]. cbn.
  eapply each_sc_wf; [|by apply Forall_nil|exact Hwf|exact E]. intros sc Hsc. by apply keeps_flush.
Qed.

Lemma capacity_objects ss ss1 last log :
  ss_move_clocks ss1 = ss_move_clocks ss -> capacity ss last log -> capacity ss1 last log.
Proof. intros E [H1 H2 H3 H4]. split; rewrite ?E; auto. Qed.

Lemma capacity_alloc (sq : Q) (l : list (stepcompress D)) n :
  0 < n -> capacity (steppersync_alloc sq l n) 0 [].
Proof using Type.
  intros Hn. unfold steppersync_alloc. split; cbn [ss_move_clocks].
  - split.
    + intros i j x y _ Hi Hj. rewrite (repeat_lookup _ _ _ _ Hi), (repeat_lookup _ _ _ _ Hj). done.
    + apply Forall_lookup. intros i x Hi. rewrite (repeat_lookup _ _ _ _ Hi). unfold UINT64_MAX. lia.
    + intros E. apply (f_equal length) in E. rewrite repeat_length in E. simpl in E. lia.
  - done.
  - intros t _. unfold in_use. rewrite filter_nil. simpl. lia.
  - intros t. unfold in_use. rewrite filter_nil. simpl. lia.
Qed.

Lemma flush_run mclk ss ss1 last log :
  Forall sc_wf (ss_sc_list ss) -> capacity ss last log ->
  run_each (stepcompress_flush mclk) ss = Ret 0 ss1 ->
  exists ms batch ss', steppersync_flush send_batch mclk ss = Ret 0 ss' /\
    merges (queues ss1) ms (queues ss') /\ Forall2 retimed ms batch /\
    (in_order (queues ss1) -> StronglySorted by_clock ms) /\
    (forall i m rest, queues ss' !! i = Some (m :: rest) -> MAX_CLOCK <= req_of m \/ mclk < req_of m) /\
    Forall sc_wf (ss_sc_list ss') /\
    ss_sq ss' = (if decide (batch = []) then ss_sq ss else send_batch batch (ss_sq ss)) /\
    length (ss_move_clocks ss') = length (ss_move_clocks ss) /\
    capacity ss' (last_transmit last (min_of <$> batch))
      (log ++ zip (transmit last (min_of <$> batch)) (min_of <$> ms)).
Proof.
  intros Hwf Hcap Hrun. destruct (run_flush_each _ _ _ _ Hwf Hrun) as (Hwf1 & Emc & Esq).
  destruct (order_loop_run (S (total_msgs (ss_sc_list ss1))) mclk ss1 [] last log) as
    (ms & batch & ss2 & Er & Hmg & Hrt & Hord & Hrem & Hwf2 & Hsq & Hlen & Hcap2);
    [lia|done|by eapply capacity_objects|].
  exists ms, batch. unfold steppersync_flush. rewrite (bind_Ret _ _ _ _ _ Hrun). cbn [negb Z.eqb].
  rewrite (bind_Ret (gets _) _ ss1 _ ss1 eq_refl), (bind_Ret _ _ _ _ _ Er). cbn [app].
  assert (Hs : in_order (queues ss1) -> StronglySorted by_clock ms).
  { intros Ho. apply (Hord 0 Ho). intros i m rest Hi.
    unfold queues in Hi. apply list_lookup_fmap_Some in Hi as (sc & Hi & Em).
    rewrite Forall_lookup in Hwf1. specialize (Hwf1 _ _ Em) as [_ _ HF]. rewrite <- Hi in HF.
    apply Forall_cons in HF as [[_ [? _]] _]. done. }
  rewrite Emc in Hlen. destruct (decide (batch = [])) as [Eb|Eb].
  - rewrite bool_decide_false by (by intros H). exists ss2. do 6 (split; [done|]).
    split; [by rewrite Hsq|]. done.
  - rewrite bool_decide_true by done.
    exists (ss2 <| ss_sq ::= send_batch batch |>). do 6 (split; [done|]).
    split; [cbn; by rewrite Hsq, Esq|]. split; [done|]. by apply (capacity_objects ss2).
Qed.

(** C24: A flush sends the commands of all steppers in the order of their clocks.  When the
    steppers have been flushed to [move_clock] without an error, [steppersync_flush]
    succeeds, and the batch it sends is a merge of the command queues of the steppers:
    no command is lost, repeated or changed other than in its earliest time of
    transmission, and the commands of a stepper keep their order.  With the queue of
    every stepper in the order of the clocks, the batch is too.  What stays queued is
    due after [move_clock]. *)
Theorem flush_merges_in_order mclk ss ss1 last log :
  Forall sc_wf (ss_sc_list ss) -> capacity ss last log ->
  run_each (stepcompress_flush mclk) ss = Ret 0 ss1 ->
  exists ms batch ss', steppersync_flush send_batch mclk ss = Ret 0 ss' /\
    merges (queues ss1) ms (queues ss') /\ concat (queues ss1) ≡ₚ ms ++ concat (queues ss') /\
    Forall2 retimed ms batch /\
    (in_order (queues ss1) -> StronglySorted by_clock ms) /\
    (forall i m rest, queues ss' !! i = Some (m :: rest) -> MAX_CLOCK <= req_of m \/ mclk < req_of m) /\
    ss_sq ss' = (if decide (batch = []) then ss_sq ss else send_batch batch (ss_sq ss)).
Proof.
  intros Hwf Hcap Hrun. destruct (flush_run mclk ss ss1 last log Hwf Hcap Hrun) as
    (ms & batch & ss' & E & Hmg & Hrt & Hs & Hrem & _ & Hsq & _).
  exists ms, batch, ss'. do 2 (split; [done|]). split; [by apply merges_perm|]. done.
Qed.

(** C23: The move queue of the micro-controller never overflows.  Of the moves sent so far,
    at most [move_num] occupy a slot at any time [t], if a message leaves no earlier than
    its [min_clock] and after the ones before it, and the micro-controller loads a move at
    the latest at the clock at which the move before it ends: [steppersync_alloc]
    establishes this and every [steppersync_flush] keeps it for the log extended by the
    messages sent, whatever happens to the steppers in between. *)
Theorem move_queue_never_overflows :
  (forall sq l n, 0 < n -> capacity (steppersync_alloc sq l n) 0 []) /\
  (forall ss ss' last log, ss_move_clocks ss' = ss_move_clocks ss -> capacity ss last log ->
     capacity ss' last log) /\
  forall mclk ss ss' r last log,
    Forall sc_wf (ss_sc_list ss) -> capacity ss last log ->
    steppersync_flush send_batch mclk ss = Ret r ss' ->
    exists ms batch, Forall2 retimed ms batch /\
      ss_sq ss' = (if decide (batch = []) then ss_sq ss else send_batch batch (ss_sq ss)) /\
      length (ss_move_clocks ss') = length (ss_move_clocks ss) /\
      capacity ss' (last_transmit last (min_of <$> batch))
        (log ++ zip (transmit last (min_of <$> batch)) (min_of <$> ms)).
Proof.
  split; [|split].
  - apply capacity_alloc.
  - intros. by eapply capacity_objects.
  - intros mclk ss ss' r last log Hwf Hcap H. pose proof H as H'. unfold steppersync_flush in H'.
    apply bind_Ret_inv in H' as (x & ss1 & Hrun & H').
    destruct (Z.eqb_spec x 0) as [->|Hx]; cbn [negb] in H'.
    + destruct (flush_run mclk ss ss1 last log Hwf Hcap Hrun) as
        (ms & batch & ss2 & E & _ & Hrt & _ & _ & _ & Hsq & Hlen & Hc).
      rewrite E in H. injection H as <- <-. by exists ms, batch.
    + injection H' as <- <-. destruct (run_flush_each _ _ _ _ Hwf Hrun) as (_ & Emc & Esq).
      exists [], []. split; [constructor|]. split; [done|]. split; [by rewrite Emc|].
      cbn. rewrite app_nil_r. by eapply capacity_objects.
Qed.
End sync.

(** [heap_replace] takes the earliest slot of the move queue out of the heap and puts
    in the clock at which the slot becomes free again: the result is a heap with the new
    clock in the place of the least old one.  It ends and stays within the array
    whatever the number of slots. *)
Theorem heap_replace_takes_least req slot slots :
  heap (slot :: slots) -> clocks_ok (slot :: slots) -> 0 <= req <= UINT64_MAX ->
  Forall (Z.le slot) slots /\
  exists mc', heap_replace req (slot :: slots) = Some mc' /\ heap mc' /\ mc' ≡ₚ req :: slots.
Proof. apply heap_replace_spec. Qed.

(** ** Witnesses *)

Lemma heap_replace_takes_least_witness :
  exists mc', heap_replace 5 [1; 3; 2; 7; 4] = Some mc' /\ heap mc' /\ mc' ≡ₚ [5; 3; 2; 7; 4].
Proof.
  apply (heap_replace_takes_least 5 1 [3; 2; 7; 4]).
  - intros i j x y [-> | ->]; do 5 (destruct i as [|i]; [simpl; intros; simplify_eq; lia|]);
      intros Hi; by apply lookup_lt_Some in Hi; simpl in Hi; lia.
  - unfold clocks_ok, UINT64_MAX. repeat (apply Forall_cons; split; [lia|]). by apply Forall_nil.
  - unfold UINT64_MAX. lia.
Defined.

Lemma stepcompress_clocks_u64_witness :
  sc_wf (stepcompress_alloc (D := binary64) 3) /\
  keeps (stepcompress_reset 77) (stepcompress_alloc (D := binary64) 3).
Proof.
  destruct (stepcompress_clocks_u64 (D := binary64)) as [H1 H2].
  split; [apply H1|]. destruct (H2 _ (H1 3)) as (_ & _ & _ & _ & _ & _ & Hr & _).
  assert (H77 : is_u64 77) by (unfold is_u64, UINT64_MAX; lia). exact (Hr 77 H77).
Defined.

(** Two steppers on a micro-controller with two move slots; the serial queue is the list
    of the batches sent. *)
Definition demo_sc2 : stepcompress binary64 :=
  demo_sc <| sc_oid := 4 |> <| sc_queue := [500; 2500; 4000; 5000; 5900; 6600; 7200; 7700] |>.
Definition demo_ss : steppersync (list (list (queue_message binary64))) binary64 :=
  steppersync_alloc [] [demo_sc; demo_sc2] 2.
Definition demo_send (b : list (queue_message binary64)) sent := sent ++ [b].
Definition demo_ss1 :=
  match run_each (stepcompress_flush 100000) demo_ss with Ret _ ss => ss | _ => demo_ss end.

Lemma demo_wf : Forall sc_wf (ss_sc_list demo_ss).
Proof.
  repeat (apply Forall_cons; split; [split; [vm_compute; split; discriminate..|constructor]|]). constructor.
Qed.

Lemma flush_merges_in_order_witness :
  exists ms batch ss', steppersync_flush demo_send 100000 demo_ss = Ret 0 ss' /\
    StronglySorted by_clock ms /\ Forall2 retimed ms batch /\
    concat (queues demo_ss1) ≡ₚ ms ++ concat (queues ss').
Proof.
  destruct (flush_merges_in_order demo_send 100000 demo_ss demo_ss1 0 [] demo_wf) as
    (ms & batch & ss' & E & _ & Hp & Hrt & Hs & _).
  - by apply capacity_alloc.
  - vm_compute. reflexivity.
  - exists ms, batch, ss'. split; [exact E|]. split; [|by split]. apply Hs.
    apply in_order_clocks.
    assert (E1 : map (map req_of) (queues demo_ss1) = [[0; 3000]; [0; 2500; 5000; 7175]]) by (vm_compute; reflexivity).
    rewrite E1. repeat (apply Forall_cons; split; [repeat constructor; lia|]). by apply Forall_nil.
Defined.

Lemma move_queue_never_overflows_witness :
  exists ss' last log, steppersync_flush demo_send 100000 demo_ss = Ret 0 ss' /\
    capacity ss' last log /\ length (ss_move_clocks ss') = 2%nat.
Proof.
  destruct (move_queue_never_overflows demo_send) as (Hinit & _ & Hflush).
  destruct (steppersync_flush demo_send 100000 demo_ss) as [r ss'| |] eqn:E;
    [|vm_compute in E; discriminate E..].
  assert (Er : r = 0) by (vm_compute in E; congruence). subst r.
  destruct (Hflush 100000 demo_ss ss' 0 0 [] demo_wf (Hinit _ _ 2 ltac:(lia)) E) as (ms & batch & _ & _ & Hl & Hc).
  exists ss'. eexists. eexists. split; [done|]. split; [exact Hc|exact Hl].
Defined.
