(* ===== verification/AppendFacts.v ===== *)
(** * Appending steps to the compression queue

    [queue_append] stores a step in the buffer, which it shuffles or extends as needed;
    the pending steps stay in order.  Storing a step far in the future does not check
    for room: there is a sequence of calls after which it writes past the buffer. *)

From S2P Require Import Prelude Double Wire Command Msgblock Stepcompress StepcompressFacts.
From Stdlib Require Import Sorting.Sorted.

Section append.
Context {D : Type} {DO : DoubleOps D}.
#[local] Set Default Proof Using "Type*".
Implicit Types sc : stepcompress D.

(** The calls that only touch the buffer and the pending step. *)
Definition same_but_buffer sc sc' : Prop :=
  sc_last_step_clock sc' = sc_last_step_clock sc /\ sc_max_error sc' = sc_max_error sc /\
  sc_oid sc' = sc_oid sc /\ sc_msg_queue sc' = sc_msg_queue sc /\
  sc_last_position sc' = sc_last_position sc /\ sc_history_list sc' = sc_history_list sc /\
  sc_sdir sc' = sc_sdir sc.

Lemma sorted_snoc l c : StronglySorted Z.le l -> Forall (fun x => x <= c) l -> StronglySorted Z.le (l ++ [c]).
Proof.
  induction 1 as [|x l Hs IH HF]; intros Hc; simpl; [by repeat constructor|].
  apply Forall_cons in Hc as [Hx Hc]. constructor; [by apply IH|].
  apply Forall_app. by split; [|apply Forall_singleton].
Qed.

(** A step that fits: it becomes the last pending one. *)
Lemma store_run sc reqs c :
  sc_rep sc reqs -> sc_queue_next sc < sc_queue_end sc ->
  Forall (fun r => r <= c) (sc_last_step_clock sc :: reqs) ->
  c < sc_last_step_clock sc + CLOCK_DIFF_MAX -> c < 2 ^ 63 ->
  exists sc', queue_store c sc = Ret tt sc' /\ sc_rep sc' (reqs ++ [c]) /\ same_but_buffer sc sc' /\
    sc_next_step_clock sc' = sc_next_step_clock sc.
Proof.
  intros [(H1 & H2 & H3) Hc Hs Hb Hk He Ho] Hroom Hle Hd Hmax.
  unfold queue_store, scget. rewrite (bind_Ret (gets _) _ sc _ sc eq_refl).
  destruct (Z.ltb_spec (sc_queue_next sc) (sc_queue_end sc)); [|lia].
  eexists. split; [done|]. split; [|done].
  split; cbn [sc_queue_pos sc_queue_next sc_queue sc_last_step_clock sc_max_error sc_oid upd]; try done.
  - rewrite zlen_app. unfold sc_queue_end, zlen in *. cbn [sc_queue upd]. rewrite length_insert. cbn. lia.
  - unfold sc_queue_end, takeZ, dropZ, zlen in *. rewrite map_app, <- Hc, length_app.
    set (q := sc_queue sc) in *. set (p := Z.to_nat (sc_queue_pos sc)).
    assert (Hn : (Z.to_nat (sc_queue_next sc) = p + length reqs)%nat) by lia. rewrite Hn.
    rewrite drop_insert_ge by lia. replace (p + length reqs - p)%nat with (length reqs) by lia.
    replace (Z.to_nat (Z.of_nat (length reqs + length [c]))) with (S (length reqs)) by (simpl; lia).
    rewrite Nat2Z.id. assert (Hlt : (length reqs < length (drop p q))%nat) by (rewrite length_drop; lia).
    rewrite (take_S_r _ _ (u32 c)) by (by apply list_lookup_insert_eq).
    by rewrite take_insert_ge by lia.
  - rewrite app_comm_cons. by apply sorted_snoc.
  - apply Forall_app. by split; [|apply Forall_singleton].
Qed.

Lemma grow_run fuel in_use alloc :
  0 <= in_use -> 1 <= alloc -> in_use < alloc * 2 ^ Z.of_nat fuel ->
  exists a, grow fuel in_use alloc = Some a /\ in_use < a /\ alloc <= a.
Proof using Type.
  revert alloc. induction fuel as [|fuel IH]; intros alloc H0 H1 H2; cbn [grow];
    destruct (Z.leb_spec alloc in_use) as [Hle|Hgt]; try (exists alloc; split; [done|lia]).
  - simpl in H2. lia.
  - destruct (IH (alloc * 2)) as (a & Ha & ? & ?); [lia|lia| |exists a; split; [done|lia]].
    rewrite Nat2Z.inj_succ, Z.pow_succ_r in H2 by lia. lia.
Qed.

Lemma takeZ_prefix {A} n (x y : list A) : zlen x = n -> takeZ n (dropZ 0 (x ++ y)) = x.
Proof using Type.
  intros <-. unfold takeZ, dropZ, zlen. cbn [Z.to_nat drop]. rewrite Nat2Z.id. apply take_app_length.
Qed.

(** Making room keeps the pending steps. *)
Lemma make_room_run sc reqs :
  sc_rep sc reqs -> sc_queue_next sc = sc_queue_end sc -> zlen reqs < 2147483648 ->
  exists sc', make_room sc = Ret tt sc' /\ sc_rep sc' reqs /\ sc_queue_next sc' < sc_queue_end sc' /\
    same_but_buffer sc sc' /\ sc_next_step_clock sc' = sc_next_step_clock sc.
Proof.
  intros [(H1 & H2 & H3) Hc Hs Hb Hk He Ho] Hfull Hlen. unfold make_room, scget.
  rewrite (bind_Ret (gets _) _ sc _ sc eq_refl). cbv zeta.
  assert (Ein : sc_queue_next sc - sc_queue_pos sc = zlen reqs) by lia. rewrite Ein.
  pose proof (zlen_nonneg reqs) as H0. set (q := sc_queue sc) in *.
  assert (Hfit : zlen reqs <= zlen (dropZ (sc_queue_pos sc) q)).
  { unfold sc_queue_end, dropZ, zlen in *. fold q in H3. rewrite length_drop. lia. }
  assert (Htl : zlen (takeZ (zlen reqs) (dropZ (sc_queue_pos sc) q)) = zlen reqs).
  { unfold takeZ, zlen in *. rewrite length_take. lia. }
  destruct (Z.ltb_spec 0 (sc_queue_pos sc)) as [Hp|Hp].
  - eexists. split; [done|].
    assert (Hq : zlen (takeZ (zlen reqs) (dropZ (sc_queue_pos sc) q) ++ dropZ (zlen reqs) q) = zlen q).
    { rewrite zlen_app, Htl. unfold sc_queue_end, dropZ, zlen in *. fold q in H3. rewrite length_drop. lia. }
    split; [|split; [|done]].
    + split; cbn; try done.
      * unfold sc_queue_end in *. cbn. fold q in H3 |- *. rewrite Hq. lia.
      * fold q. rewrite <- Hc. by apply takeZ_prefix.
    + unfold sc_queue_end in *. cbn. fold q in Hfull |- *. rewrite Hq. lia.
  - assert (Hp0 : sc_queue_pos sc = 0) by lia.
    set (alloc := if sc_queue_end sc =? 0 then QUEUE_START_SIZE else sc_queue_end sc).
    assert (Ha : 1 <= alloc /\ sc_queue_end sc <= alloc).
    { unfold alloc, QUEUE_START_SIZE. destruct (Z.eqb_spec (sc_queue_end sc) 0); lia. }
    destruct (grow_run 32 (zlen reqs) alloc) as (a & Eg & Hlt & Hge); [lia|lia|simpl; lia|].
    rewrite Eg. eexists. split; [done|].
    assert (Hqa : zlen q <= a) by (unfold sc_queue_end in Ha; fold q in Ha; lia).
    assert (Hta : takeZ a q = q) by (unfold takeZ, zlen in *; apply take_ge; lia).
    assert (Hq : zlen (takeZ a q ++ repeat 0 (Z.to_nat (a - zlen q))) = a).
    { rewrite Hta, zlen_app. unfold zlen in *. rewrite repeat_length. lia. }
    split; [|split; [|done]].
    + split; cbn; try done.
      * unfold sc_queue_end. cbn. fold q. rewrite Hq. lia.
      * fold q. rewrite Hta, <- Hc, Hp0. unfold takeZ, dropZ. cbn [Z.to_nat drop].
        rewrite Hp0 in Hfit. unfold dropZ, zlen in Hfit |- *. cbn [Z.to_nat drop] in Hfit. apply take_app_le. lia.
    + unfold sc_queue_end. cbn. fold q. rewrite Hq. lia.
Qed.

(** A step in the current direction, after the pending ones and less than
    [CLOCK_DIFF_MAX] ticks after the last committed one, becomes the last pending step:
    [queue_append] stores it on each of its paths (there is room, the buffer is shuffled,
    it is allocated or doubled) and returns 0; committed commands, clock and position do
    not change, and no store is outside of the buffer. *)
Theorem append_adds_step sc reqs :
  sc_rep sc reqs -> zlen reqs <= 65535 + 2000 -> sc_next_step_dir sc = sc_sdir sc ->
  Forall (fun r => r <= sc_next_step_clock sc) (sc_last_step_clock sc :: reqs) ->
  sc_next_step_clock sc < sc_last_step_clock sc + CLOCK_DIFF_MAX -> sc_next_step_clock sc < 2 ^ 63 ->
  exists sc', queue_append sc = Ret 0 sc' /\ sc_rep sc' (reqs ++ [sc_next_step_clock sc]) /\
    same_but_buffer sc sc' /\ sc_next_step_clock sc' = 0.
Proof.
  intros Hr Hlen Hdir Hle Hd Hmax. unfold queue_append, scget.
  rewrite (bind_Ret (gets (fun sc : stepcompress D => sc)) _ sc _ sc eq_refl), Hdir, Z.eqb_refl.
  cbn [negb]. rewrite bind_ret_l. cbn [negb Z.eqb].
  rewrite (bind_Ret (gets (fun sc : stepcompress D => sc)) _ sc _ sc eq_refl).
  pose proof (rep_clock _ _ Hr) as Hk. pose proof (rep_range _ _ Hr) as (Hr1 & Hr2 & Hr3).
  rewrite (u64_small (_ + CLOCK_DIFF_MAX)) by (unfold CLOCK_DIFF_MAX in *; lia).
  destruct (Z.leb_spec (sc_last_step_clock sc + CLOCK_DIFF_MAX) (sc_next_step_clock sc)); [lia|].
  destruct (Z.leb_spec (sc_queue_end sc) (sc_queue_next sc)) as [Hfull|Hroom].
  - unfold queue_append_extend, scget.
    rewrite (bind_Ret (gets (fun sc : stepcompress D => sc)) _ sc _ sc eq_refl).
    destruct (Z.ltb_spec (65535 + 2000) (sc_queue_next sc - sc_queue_pos sc)); [lia|].
    rewrite bind_ret_l. cbn [negb Z.eqb].
    rewrite (bind_Ret (gets (fun sc : stepcompress D => sc)) _ sc _ sc eq_refl).
    replace (sc_queue_end sc <=? sc_queue_next sc) with true by (symmetry; apply Z.leb_le; lia).
    destruct (make_room_run sc reqs) as (sc1 & E1 & R1 & Hroom & S1 & N1); [done|lia|lia|].
    cbn [when]. rewrite (bind_Ret _ _ _ _ _ E1).
    rewrite (bind_Ret (gets sc_next_step_clock) _ sc1 _ sc1 eq_refl), N1.
    destruct S1 as (K1 & K2 & K3 & K4 & K5 & K6 & K7).
    destruct (store_run sc1 reqs (sc_next_step_clock sc)) as (sc2 & E2 & R2 & S2 & N2);
      rewrite ?K1; [done|done|done|done|done|].
    rewrite (bind_Ret _ _ _ _ _ E2). destruct S2 as (M1 & M2 & M3 & M4 & M5 & M6 & M7).
    eexists. split; [done|]. split; [by destruct R2|]. split; [|done].
    repeat split; cbn; congruence.
  - destruct (store_run sc reqs (sc_next_step_clock sc)) as (sc2 & E2 & R2 & S2 & N2); [done..|].
    rewrite (bind_Ret _ _ _ _ _ E2). eexists. split; [done|]. split; [by destruct R2|]. done.
Qed.
End append.

(** ** Writing past the buffer *)

(** A clock as a time at 2^20 ticks per second; these conversions are exact. *)
Definition tick (c : Z) : binary64 := (dofZ c / dofZ 1048576)%D.

Fixpoint append_all (cs : list Z) : M (stepcompress binary64) Z :=
  match cs with
  | [] => ret 0
  | c :: cs =>
      r <- stepcompress_append 0 (tick 0) (tick c) ;;
      if negb (r =? 0) then ret r else append_all cs
  end.

(** 1024 steps at uneven distances, then one [CLOCK_DIFF_MAX + 5] ticks after the last
    committed step. *)
Definition uneven (i : Z) : Z := 1000 * i + 100 * ((i * i) mod 7) + 10.
Definition full_then_far : M (stepcompress binary64) Z :=
  stepcompress_fill 0 5 6 ;;
  stepcompress_set_time (tick 0) (dofZ 1048576) ;;
  append_all (map uneven (seqZ 0 1024) ++ [CLOCK_DIFF_MAX + 5]).

(** The state after a call that returned. *)
Definition after {W} (o : outcome W Z) (w : W) : W := match o with Ret _ w' => w' | _ => w end.
Definition returned_0 {W} (o : outcome W Z) : bool := match o with Ret r _ => r =? 0 | _ => false end.

Lemma returned_after {W} (o : outcome W Z) w : returned_0 o = true -> o = Ret 0 (after o w).
Proof. destruct o as [r w'| |]; [|done..]. simpl. by intros ->%Z.eqb_eq. Qed.

Definition full_buffer : stepcompress binary64 :=
  after (full_then_far (stepcompress_alloc 3)) (stepcompress_alloc 3).
Definition partly_flushed : stepcompress binary64 :=
  after (queue_flush 6 (full_buffer <| sc_next_step_clock := 0 |>)) full_buffer.

(** [queue_append_far] can write past the end of the buffer.  From a new object, 1024
    uneven steps fill the buffer; every call returns 0.  When the next step, more than
    [CLOCK_DIFF_MAX] ticks after the last committed one, is committed, the flush frees
    only the first cells: [queue_next] still is [queue_end], and the step, which no longer
    is far, is stored there without a check, outside of the buffer. *)
Theorem far_append_overruns :
  full_then_far (stepcompress_alloc 3) = Ret 0 full_buffer /\
  sc_next_step_clock full_buffer - CLOCK_DIFF_MAX + 1 = 6 /\
  queue_flush 6 (full_buffer <| sc_next_step_clock := 0 |>) = Ret 0 partly_flushed /\
  sc_queue_next partly_flushed = sc_queue_end partly_flushed /\
  sc_next_step_clock full_buffer < sc_last_step_clock partly_flushed + CLOCK_DIFF_MAX /\
  stepcompress_commit full_buffer = Stuck.
Proof.
  split; [apply returned_after; vm_compute; reflexivity|]. split; [vm_compute; reflexivity|].
  split; [apply returned_after; vm_compute; reflexivity|]. do 2 (split; [vm_compute; reflexivity|]).
  vm_compute. reflexivity.
Qed.

(** ** Witness *)

Lemma append_adds_step_witness :
  exists sc', queue_append (demo_sc <| sc_next_step_clock := 7000 |> <| sc_next_step_dir := 1 |>) = Ret 0 sc' /\
    sc_rep sc' (demo_reqs ++ [7000]).
Proof.
  set (sc := demo_sc <| sc_next_step_clock := 7000 |> <| sc_next_step_dir := 1 |>).
  assert (Hr : sc_rep sc demo_reqs) by (destruct demo_sc_rep; by split).
  destruct (append_adds_step sc demo_reqs Hr) as (sc' & E & R & _).
  - vm_compute. discriminate.
  - reflexivity.
  - unfold demo_reqs. repeat (apply Forall_cons; split; [vm_compute; discriminate|]). by apply Forall_nil.
  - vm_compute. reflexivity.
  - vm_compute. reflexivity.
  - by exists sc'.
Defined.
