(* ===== verification/Trapq.v ===== *)
(** * Trapezoidal velocity movement queue

    klippy/chelper/trapq.c: the moves of the tool head with constant acceleration, in the
    order of their times, and the history of finished moves.

    The list [moves] always starts and ends with a sentinel: [tq_head], the moves
    [tq_body] and [tq_tail] are its elements. *)

From S2P Require Import Prelude Double.

(** [struct coord]; [axis[i]] is the same storage. *)
Record coord (D : Type) := mk_coord { cx : D; cy : D; cz : D }.
Arguments mk_coord {D}.
Arguments cx {D}.
Arguments cy {D}.
Arguments cz {D}.
#[export] Instance eta_coord {D} : Settable (coord D) := fun c => mk_coord (cx c) (cy c) (cz c).

Record move (D : Type) := mk_move {
  m_print_time : D; m_move_t : D; m_start_v : D; m_half_accel : D;
  m_start_pos : coord D; m_axes_r : coord D }.
Arguments mk_move {D}.
Arguments m_print_time {D}.
Arguments m_move_t {D}.
Arguments m_start_v {D}.
Arguments m_half_accel {D}.
Arguments m_start_pos {D}.
Arguments m_axes_r {D}.
#[export] Instance eta_move {D} : Settable (move D) := fun m =>
  mk_move (m_print_time m) (m_move_t m) (m_start_v m) (m_half_accel m) (m_start_pos m) (m_axes_r m).

Record trapq (D : Type) := mk_trapq {
  tq_head : move D; tq_body : list (move D); tq_tail : move D; tq_history : list (move D) }.
Arguments mk_trapq {D}.
Arguments tq_head {D}.
Arguments tq_body {D}.
Arguments tq_tail {D}.
Arguments tq_history {D}.
#[export] Instance eta_trapq {D} : Settable (trapq D) := fun q =>
  mk_trapq (tq_head q) (tq_body q) (tq_tail q) (tq_history q).

(** The list [moves]. *)
Definition tq_moves {D} (q : trapq D) : list (move D) := tq_head q :: tq_body q ++ [tq_tail q].

Record pull_move (D : Type) := mk_pull {
  pm_print_time : D; pm_move_t : D; pm_start_v : D; pm_accel : D;
  pm_start : coord D; pm_r : coord D }.
Arguments mk_pull {D}.

Section trapq.
Context {D : Type} `{DoubleOps D}.

Definition zero_coord : coord D := mk_coord dzero dzero dzero.
Definition move_alloc : move D := mk_move dzero dzero dzero dzero zero_coord zero_coord.

Definition move_get_distance (m : move D) (move_time : D) : D :=
  ((m_start_v m + m_half_accel m * move_time) * move_time)%D.

Definition move_get_coord (m : move D) (move_time : D) : coord D :=
  let move_dist := move_get_distance m move_time in
  mk_coord (cx (m_start_pos m) + cx (m_axes_r m) * move_dist)%D
           (cy (m_start_pos m) + cy (m_axes_r m) * move_dist)%D
           (cz (m_start_pos m) + cz (m_axes_r m) * move_dist)%D.

(** The literal 9999999999999999.9: the nearest double is 10^16. *)
Definition NEVER_TIME : D := dofZ 10000000000000000.

Definition trapq_alloc : trapq D :=
  mk_trapq move_alloc []
    (move_alloc <| m_print_time := NEVER_TIME |> <| m_move_t := NEVER_TIME |>) [].

(** The end of a move. *)
Definition m_end (m : move D) : D := (m_print_time m + m_move_t m)%D.

(** The element before the tail sentinel. *)
Definition tq_last (q : trapq D) : move D := List.last (tq_body q) (tq_head q).

Definition trapq_check_sentinels (q : trapq D) : trapq D :=
  if dnz (m_print_time (tq_tail q)) then q
  else match tq_body q with
       | [] => q <| tq_tail ::= fun t => t <| m_print_time := NEVER_TIME |> |>
       | _ =>
           let m := tq_last q in
           q <| tq_tail ::= fun t => t
             <| m_print_time := m_end m |>
             <| m_start_pos := move_get_coord m (m_move_t m) |> |>
       end.

Definition MAX_NULL_MOVE : D := dofZ 1.

(** The move that fills the time between [prev] and [m]. *)
Definition null_move (prev m : move D) : move D :=
  let print_time :=
    if negb (dnz (m_print_time prev)) && (MAX_NULL_MOVE <? m_print_time m)%D
    then (m_print_time m - MAX_NULL_MOVE)%D else m_end prev in
  move_alloc <| m_start_pos := m_start_pos m |>
             <| m_print_time := print_time |>
             <| m_move_t := (m_print_time m - print_time)%D |>.

Definition trapq_add_move (m : move D) (q : trapq D) : trapq D :=
  let prev := tq_last q in
  let fill := if (m_end prev <? m_print_time m)%D then [null_move prev m] else [] in
  q <| tq_body ::= fun l => (l ++ fill) ++ [m] |>
    <| tq_tail ::= fun t => t <| m_print_time := dzero |> |>.

(** One of the three parts of [trapq_append]: the queue, and the time and position at
    which the part ends. *)
Definition append_part (part_t start_v half_accel : D) (axes_r : coord D)
    (s : trapq D * D * coord D) : trapq D * D * coord D :=
  let '(q, print_time, start_pos) := s in
  if dnz part_t then
    let m := mk_move print_time part_t start_v half_accel start_pos axes_r in
    (trapq_add_move m q, (print_time + part_t)%D, move_get_coord m part_t)
  else s.

Definition trapq_append (print_time accel_t cruise_t decel_t : D) (start_pos axes_r : coord D)
    (start_v cruise_v accel : D) (q : trapq D) : trapq D :=
  let s := (q, print_time, start_pos) in
  let s := append_part accel_t start_v (dlit 1 2 * accel)%D axes_r s in
  let s := append_part cruise_t cruise_v dzero axes_r s in
  let '(q, _, _) := append_part decel_t cruise_v (- dlit 1 2 * accel)%D axes_r s in
  q.

Definition HISTORY_EXPIRE : D := dofZ 30.

(** The first loop of [trapq_finalize_moves] on the moves after the head sentinel: what
    is left of them and the history. *)
Fixpoint finalize_loop (print_time : D) (body history : list (move D)) :
    list (move D) * list (move D) :=
  match body with
  | [] => ([], history)
  | m :: rest =>
      if (print_time <? m_end m)%D then (body, history)
      else finalize_loop print_time rest
             (if dnz (m_start_v m) || dnz (m_half_accel m) then m :: history else history)
  end.

(** The second loop, on the history from its oldest move on; [latest] is kept. *)
Fixpoint expire_loop (expire_time : D) (oldest_first : list (move D)) : list (move D) :=
  match oldest_first with
  | [] => []
  | [latest] => [latest]
  | m :: rest => if (expire_time <? m_end m)%D then oldest_first else expire_loop expire_time rest
  end.

Definition expire_history (history : list (move D)) : list (move D) :=
  match history with
  | [] => []
  | latest :: _ => rev (expire_loop (m_end latest - HISTORY_EXPIRE)%D (rev history))
  end.

Definition trapq_finalize_moves (print_time : D) (q : trapq D) : trapq D :=
  let '(body, history) := finalize_loop print_time (tq_body q) (tq_history q) in
  let tail := match body with
              | [] => tq_tail q <| m_print_time := NEVER_TIME |>
              | _ => tq_tail q
              end in
  mk_trapq (tq_head q) body tail (expire_history history).

(** The loop of [trapq_set_position] on the history. *)
Fixpoint prune_history (print_time : D) (history : list (move D)) : list (move D) :=
  match history with
  | [] => []
  | m :: rest =>
      if (m_print_time m <? print_time)%D then
        (if (print_time <? m_end m)%D
         then m <| m_move_t := (print_time - m_print_time m)%D |> else m) :: rest
      else prune_history print_time rest
  end.

Definition trapq_set_position (print_time : D) (pos : coord D) (q : trapq D) : trapq D :=
  let q := trapq_finalize_moves NEVER_TIME q in
  let marker := move_alloc <| m_print_time := print_time |> <| m_start_pos := pos |> in
  q <| tq_history ::= fun h => marker :: prune_history print_time h |>.

(** The entries that [trapq_extract_old] stores to [p]. *)
Fixpoint extract_old (max : Z) (start_time end_time : D) (l : list (move D)) : list (pull_move D) :=
  match l with
  | [] => []
  | m :: l =>
      if (m_end m <=? start_time)%D || (max <=? 0) then []
      else if (end_time <=? m_print_time m)%D then extract_old max start_time end_time l
      else mk_pull (m_print_time m) (m_move_t m) (m_start_v m) (dofZ 2 * m_half_accel m)%D
             (m_start_pos m) (m_axes_r m)
           :: extract_old (max - 1) start_time end_time l
  end.

Definition trapq_extract_old (max : Z) (start_time end_time : D) (q : trapq D) : list (pull_move D) :=
  extract_old max start_time end_time (tq_history q).
End trapq.
