(* ===== verification/TrapqFacts.v ===== *)
(** * Properties of the movement queue

    Over the real numbers: the moves of a queue follow each other without gaps, and an
    appended trapezoid move puts the tool head at every time where the velocity profile
    says. *)

From S2P Require Import Prelude Double Trapq.
From Stdlib Require Import Reals Lra.
#[local] Open Scope R_scope.

(** ** Comparisons of real numbers *)

Lemma dltb_true (x y : R) : dltb x y = true <-> x < y.
Proof. cbn. destruct (Rlt_dec x y); split; (done || lra). Qed.
Lemma dltb_false (x y : R) : dltb x y = false <-> y <= x.
Proof. cbn. destruct (Rlt_dec x y); split; (done || lra). Qed.
Lemma dleb_true (x y : R) : dleb x y = true <-> x <= y.
Proof. cbn. destruct (Rle_dec x y); split; (done || lra). Qed.
Lemma dleb_false (x y : R) : dleb x y = false <-> y < x.
Proof. cbn. destruct (Rle_dec x y); split; (done || lra). Qed.
Lemma dnz_true (x : R) : dnz x = true <-> x <> 0.
Proof. unfold dnz. cbn. destruct (Req_dec_T x 0); split; (done || lra). Qed.
Lemma dnz_false (x : R) : dnz x = false <-> x = 0.
Proof. unfold dnz. cbn. destruct (Req_dec_T x 0); split; (done || lra). Qed.

Lemma dltb_spec (x y : R) : BoolSpec (x < y) (y <= x) (dltb x y).
Proof. destruct (dltb x y) eqn:E; [apply dltb_true in E|apply dltb_false in E]; by constructor. Qed.
Lemma dleb_spec (x y : R) : BoolSpec (x <= y) (y < x) (dleb x y).
Proof. destruct (dleb x y) eqn:E; [apply dleb_true in E|apply dleb_false in E]; by constructor. Qed.
Lemma dnz_spec (x : R) : BoolSpec (x <> 0) (x = 0) (dnz x).
Proof. destruct (dnz x) eqn:E; [apply dnz_true in E|apply dnz_false in E]; by constructor. Qed.

(** Case analysis on a comparison of doubles in the goal. *)
Ltac rcase :=
  match goal with
  | |- context [dltb ?a ?b] => destruct (dltb_spec a b)
  | |- context [dleb ?a ?b] => destruct (dleb_spec a b)
  | |- context [dnz ?a] => destruct (dnz_spec a)
  end.

(** ** Chains of moves *)

Implicit Types (m : move R) (l : list (move R)) (q : trapq R).

(** Every move starts when the one before it ends. *)
Fixpoint chain l : Prop :=
  match l with
  | m :: ((m' :: _) as r) => m_end m = m_print_time m' /\ chain r
  | _ => True
  end.

Lemma chain_snoc l m d :
  chain l -> (l <> [] -> m_end (List.last l d) = m_print_time m) -> chain (l ++ [m]).
Proof.
  induction l as [|a l IH]; intros Hc Hl; [done|]. destruct l as [|b l].
  - split; [exact (Hl ltac:(discriminate))|done].
  - destruct Hc as [He Hc]. split; [done|]. apply IH; [done|]. intros _. exact (Hl ltac:(discriminate)).
Qed.

Lemma chain_tail m l : chain (m :: l) -> chain l.
Proof. destruct l; [done|]. by intros [_ ?]. Qed.

(** The move that is under way at time [t]. *)
Fixpoint move_at l (t : R) : option (move R) :=
  match l with [] => None | m :: l => if Rlt_dec t (m_end m) then Some m else move_at l t end.

(** Where the tool head is. *)
Definition position_in m (t : R) : coord R := move_get_coord m (t - m_print_time m).

Lemma move_at_app l k t :
  move_at (l ++ k) t = match move_at l t with Some m => Some m | None => move_at k t end.
Proof. induction l as [|m l IH]; [done|]. cbn [move_at app]. by destruct (Rlt_dec t (m_end m)). Qed.

Lemma move_at_earlier l a b m : a <= b -> move_at l b = Some m -> exists n, move_at l a = Some n.
Proof.
  intros Hab. induction l as [|x l IH]; intros Hm; [done|]. cbn [move_at] in *.
  destruct (Rlt_dec a (m_end x)); [by eexists|]. destruct (Rlt_dec b (m_end x)); [lra|]. by apply IH.
Qed.

Lemma move_at_done l d t :
  chain l -> Forall (fun m => 0 < m_move_t m) l -> (l <> [] -> m_end (List.last l d) <= t) ->
  move_at l t = None.
Proof.
  induction l as [|m l IH]; intros Hc Hp Ht; [done|]. apply Forall_cons in Hp as [Hm Hp]. cbn [move_at].
  assert (Hnone : move_at l t = None).
  { apply IH; [by eapply chain_tail|done|]. intros Hne. destruct l; [done|]. exact (Ht ltac:(discriminate)). }
  destruct (Rlt_dec t (m_end m)) as [Hlt|]; [|done]. exfalso.
  destruct l as [|m' l]; [specialize (Ht ltac:(discriminate)); cbn [List.last] in Ht; lra|].
  destruct Hc as [He _]. cbn [move_at] in Hnone. destruct (Rlt_dec t (m_end m')); [done|].
  apply Forall_cons in Hp as [Hm' _]. unfold m_end in *. cbn in *. lra.
Qed.

(** ** The queue *)

Record tq_inv q : Prop := {
  inv_head : tq_head q = move_alloc;
  inv_chain : chain (tq_body q);
  inv_pos : Forall (fun m => 0 < m_move_t m) (tq_body q);
  inv_last : tq_body q <> [] -> 0 < m_print_time (tq_last q);
}.

Lemma alloc_inv : tq_inv trapq_alloc.
Proof. by split. Qed.

Lemma last_snoc l m d : List.last (l ++ [m]) d = m.
Proof. apply List.last_last. Qed.

(** What [trapq_add_move] puts between the moves there are and the new one: nothing, or a
    move that stands still where the new one starts, until it does. *)
Definition filler q m (fill : list (move R)) : Prop :=
  fill = [] /\ m_end (tq_last q) = m_print_time m \/
  exists n, fill = [n] /\ m_end n = m_print_time m /\ 0 < m_move_t n /\
    m_axes_r n = zero_coord /\ m_start_pos n = m_start_pos m /\
    (tq_body q <> [] -> m_print_time n = m_end (tq_last q)).

Lemma trapq_add_move_run q m :
  tq_inv q -> m_end (tq_last q) <= m_print_time m -> 0 < m_print_time m ->
  exists fill, tq_body (trapq_add_move m q) = (tq_body q ++ fill) ++ [m] /\ filler q m fill /\
    tq_head (trapq_add_move m q) = tq_head q.
Proof.
  intros [Hh Hc Hp Hl] He Hm. unfold trapq_add_move. eexists. split; [done|]. split; [|done].
  destruct (dltb_spec (m_end (tq_last q)) (m_print_time m)) as [Hlt|Hge].
  2: { left. split; [done|]. lra. }
  right. eexists. split; [done|].
  assert (Hfirst : tq_body q = [] -> tq_last q = move_alloc) by (unfold tq_last; intros ->; apply Hh).
  unfold null_move, m_end in *. cbn.
  destruct (dnz_spec (m_print_time (tq_last q))) as [Hnz|Hz]; cbn [negb andb].
  - cbn in *. split; [lra|]. split; [lra|]. by repeat split.
  - assert (Hb : tq_body q = []).
    { destruct (tq_body q) eqn:Eb; [done|]. specialize (Hl ltac:(discriminate)). lra. }
    rewrite (Hfirst Hb) in *. cbn in *.
    destruct (Rlt_dec 1 (m_print_time m)); cbn; (split; [lra|]); (split; [lra|]); by repeat split.
Qed.

Lemma add_move_inv q m :
  tq_inv q -> m_end (tq_last q) <= m_print_time m -> 0 < m_print_time m -> 0 < m_move_t m ->
  tq_inv (trapq_add_move m q) /\ tq_last (trapq_add_move m q) = m /\
  (forall t, m_print_time m <= t -> move_at (tq_body (trapq_add_move m q)) t = move_at [m] t) /\
  (forall t, m_end (tq_last q) <= t < m_print_time m -> forall n,
     move_at (tq_body (trapq_add_move m q)) t = Some n -> position_in n t = m_start_pos m) /\
  (forall t n, move_at (tq_body q) t = Some n -> move_at (tq_body (trapq_add_move m q)) t = Some n).
Proof.
  intros Hi He Hm Hmt. destruct (trapq_add_move_run q m Hi He Hm) as (fill & Eb & Hf & Eh).
  destruct Hi as [Hh Hc Hp Hl].
  assert (Hlast : tq_last (trapq_add_move m q) = m) by (unfold tq_last; rewrite Eb; apply last_snoc).
  assert (Hc1 : chain (tq_body q ++ fill) /\ Forall (fun m => 0 < m_move_t m) (tq_body q ++ fill) /\
    (tq_body q ++ fill <> [] -> m_end (List.last (tq_body q ++ fill) (tq_head q)) = m_print_time m)).
  { destruct Hf as [[-> Hlink]|(n & -> & E1 & E2 & E3 & E4 & E5)].
    - rewrite app_nil_r. by repeat split.
    - split; [|split].
      + apply (chain_snoc _ _ (tq_head q)); [done|]. intros Hne. symmetry. by apply E5.
      + apply Forall_app. by split; [|apply Forall_singleton].
      + intros _. by rewrite last_snoc. }
  destruct Hc1 as (Hc1 & Hp1 & Hl1). split; [|split; [done|split; [|split]]].
  - split; [by rewrite Eh| | |by rewrite Hlast].
    + rewrite Eb. by apply (chain_snoc _ _ (tq_head q)).
    + rewrite Eb. apply Forall_app. by split; [|apply Forall_singleton].
  - intros t Ht. rewrite Eb, move_at_app. rewrite (move_at_done _ (tq_head q)); [done..|].
    intros Hne. rewrite (Hl1 Hne). done.
  - intros t [Ht1 Ht2] n Hn. rewrite Eb, !move_at_app in Hn.
    rewrite (move_at_done _ (tq_head q) t Hc Hp) in Hn by (intros _; exact Ht1).
    destruct Hf as [[-> Hlink]|(nm & -> & E1 & E2 & E3 & E4 & E5)]; cbn [move_at] in Hn.
    + lra.
    + rewrite E1 in Hn. destruct (Rlt_dec t (m_print_time m)); [|lra]. injection Hn as <-.
      unfold position_in, move_get_coord. rewrite E3, E4. destruct (m_start_pos m). cbn. f_equal; lra.
  - intros t n Hn. by rewrite Eb, !move_at_app, Hn.
Qed.

(** ** Trapezoid moves *)

Definition along (start axes : coord R) (dist : R) : coord R :=
  mk_coord (cx start + cx axes * dist) (cy start + cy axes * dist) (cz start + cz axes * dist).

(** The distance after time [s] of a move that accelerates for [accel_t] from [start_v],
    cruises for [cruise_t] at [cruise_v] and then decelerates. *)
Definition trapezoid (accel_t cruise_t start_v cruise_v accel s : R) : R :=
  if Rlt_dec s accel_t then start_v * s + accel / 2 * s ^ 2
  else
    let d1 := start_v * accel_t + accel / 2 * accel_t ^ 2 in
    let s := s - accel_t in
    if Rlt_dec s cruise_t then d1 + cruise_v * s
    else
      let d2 := d1 + cruise_v * cruise_t in
      let s := s - cruise_t in
      d2 + cruise_v * s - accel / 2 * s ^ 2.

Section profile.
Context (accel_t cruise_t start_v cruise_v accel : R).
Context (Ha : 0 <= accel_t) (Hc : 0 <= cruise_t).
#[local] Set Default Proof Using "All".
Notation dist := (trapezoid accel_t cruise_t start_v cruise_v accel).

Lemma trapezoid_accel s : 0 <= s <= accel_t -> dist s = (start_v + (1 / 2 * accel) * s) * s.
Proof.
  intros Hs. unfold trapezoid. destruct (Rlt_dec s accel_t) as [|Hn]; [field|].
  replace s with accel_t by lra. replace (accel_t - accel_t) with 0 by lra.
  destruct (Rlt_dec 0 cruise_t); [field|]. replace cruise_t with 0 by lra. field.
Qed.

Lemma trapezoid_cruise s :
  0 <= s <= cruise_t -> dist (accel_t + s) = dist accel_t + (cruise_v + 0 * s) * s.
Proof.
  intros Hs. rewrite (trapezoid_accel accel_t) by lra. unfold trapezoid.
  destruct (Rlt_dec (accel_t + s) accel_t); [lra|]. replace (accel_t + s - accel_t) with s by lra.
  destruct (Rlt_dec s cruise_t); [field|]. replace s with cruise_t by lra. field.
Qed.

Lemma trapezoid_decel s :
  0 <= s -> dist (accel_t + cruise_t + s) = dist (accel_t + cruise_t) + (cruise_v + (- (1 / 2) * accel) * s) * s.
Proof.
  intros Hs. rewrite (trapezoid_cruise cruise_t), (trapezoid_accel accel_t) by lra. unfold trapezoid.
  destruct (Rlt_dec (accel_t + cruise_t + s) accel_t); [lra|].
  destruct (Rlt_dec (accel_t + cruise_t + s - accel_t) cruise_t); [lra|]. field.
Qed.
End profile.

Section parts.
Context (q0 : trapq R) (t0 : R) (start axes : coord R) (dist : R -> R).

(** The queue [q] moves the tool head along the profile [dist] from [t0] to [t1], where it
    then is at [pos]; what was there before is unchanged. *)
Record follows (s : trapq R * R * coord R) : Prop := {
  fo_inv : tq_inv s.1.1;
  fo_time : t0 <= s.1.2;
  fo_end : m_end (tq_last s.1.1) <= s.1.2;
  fo_started : t0 < s.1.2 -> m_end (tq_last s.1.1) = s.1.2;
  fo_pos : s.2 = along start axes (dist (s.1.2 - t0));
  fo_profile t : t0 <= t < s.1.2 ->
    exists m, move_at (tq_body s.1.1) t = Some m /\ position_in m t = along start axes (dist (t - t0));
  fo_gap t m : m_end (tq_last q0) <= t < t0 -> move_at (tq_body s.1.1) t = Some m -> t0 < s.1.2 ->
    position_in m t = start;
  fo_before t m : move_at (tq_body q0) t = Some m -> move_at (tq_body s.1.1) t = Some m;
  fo_same : s.1.2 = t0 -> s.1.1 = q0;
}.

Lemma append_part_follows part_t v ha q t1 pos :
  0 < t0 -> dist 0 = 0 -> 0 <= part_t -> m_end (tq_last q0) <= t0 -> follows (q, t1, pos) ->
  (forall s, 0 <= s <= part_t -> dist (t1 - t0 + s) = dist (t1 - t0) + (v + ha * s) * s) ->
  follows (append_part part_t v ha axes (q, t1, pos)) /\
  (append_part part_t v ha axes (q, t1, pos)).1.2 = t1 + part_t.
Proof.
  intros Ht0 Hd0 Hp Hq0 [Hi Ht He Hst Hpos Hpr Hgap Hbef Hsame] Hd. cbn [fst snd] in *.
  unfold append_part. destruct (dnz_spec part_t) as [Hnz|Hz].
  2: { subst part_t. split; [by split|]. cbn. lra. }
  assert (Hpt : 0 < part_t) by lra. split; [|done].
  set (m := mk_move t1 part_t v ha pos axes).
  assert (Hcoord : forall s, 0 <= s <= part_t -> move_get_coord m s = along start axes (dist (t1 - t0 + s))).
  { intros s Hs. rewrite (Hd s Hs). unfold move_get_coord, move_get_distance, along. cbn.
    rewrite Hpos. cbn. f_equal; ring. }
  destruct (add_move_inv q m Hi) as (Hi' & Hl & Hat & Hg & Hb); [exact He|cbn; lra|exact Hpt|].
  split; cbn [fst snd]; rewrite ?Hl.
  - done.
  - cbn. lra.
  - apply Rle_refl.
  - done.
  - rewrite Hcoord by lra. do 2 f_equal. cbn. lra.
  - intros t [H1 H2]. destruct (Rle_lt_dec t1 t) as [Hge|Hlt].
    + exists m. cbn in H2. split.
      * rewrite Hat by exact Hge. cbn [move_at]. destruct (Rlt_dec t (m_end m)) as [|Hn]; [done|].
        exfalso. apply Hn. unfold m_end. cbn. lra.
      * unfold position_in. rewrite Hcoord by (cbn; lra). do 2 f_equal. cbn. lra.
    + destruct (Hpr t ltac:(lra)) as (m' & Hm' & Hpm). exists m'. split; [by apply Hb|done].
  - intros t n Ht' Hn _. destruct (Rle_lt_dec t1 t0) as [Hle|Hgt].
    + assert (t1 = t0) by lra. subst t1. rewrite (Hsame eq_refl) in *.
      rewrite (Hg t Ht' n Hn). cbn. rewrite Hpos. unfold along.
      replace (t0 - t0) with 0 by lra. rewrite Hd0. destruct start. cbn. f_equal; ring.
    + destruct (move_at (tq_body q) t) as [n'|] eqn:En'.
      * rewrite (Hb t n' En') in Hn. injection Hn as <-. by apply Hgap.
      * exfalso. destruct (Hpr t0 ltac:(lra)) as (m0 & Hm0 & _).
        destruct (move_at_earlier _ t t0 _ ltac:(lra) Hm0) as [y Hy]. congruence.
  - intros t n Hn. apply Hb. by apply Hbef.
  - cbn. lra.
Qed.
End parts.

(** C25: The tool head follows the trapezoid velocity profile of an appended move.  On a
    well-formed queue that ends by [print_time], [trapq_append] leaves a well-formed queue
    (the moves follow each other without gaps, each with a positive duration); at every time
    from the start to the end of the move the head is where the profile says (acceleration
    from [start_v], cruising, deceleration) along [axes_r] from [start_pos]; between the end
    of the queue and the start it stands at [start_pos]; what was queued before is
    unchanged. *)
Theorem append_follows_trapezoid q print_time accel_t cruise_t decel_t start_pos axes_r
    start_v cruise_v accel :
  tq_inv q -> 0 < print_time -> m_end (tq_last q) <= print_time ->
  0 <= accel_t -> 0 <= cruise_t -> 0 <= decel_t -> 0 < accel_t + cruise_t + decel_t ->
  let q' := trapq_append print_time accel_t cruise_t decel_t start_pos axes_r start_v cruise_v accel q in
  tq_inv q' /\
  m_end (tq_last q') = print_time + accel_t + cruise_t + decel_t /\
  (forall t, print_time <= t < print_time + accel_t + cruise_t + decel_t ->
     exists m, move_at (tq_body q') t = Some m /\
       position_in m t = along start_pos axes_r (trapezoid accel_t cruise_t start_v cruise_v accel (t - print_time))) /\
  (forall t m, m_end (tq_last q) <= t < print_time -> move_at (tq_body q') t = Some m ->
     position_in m t = start_pos) /\
  (forall t m, move_at (tq_body q) t = Some m -> move_at (tq_body q') t = Some m).
Proof.
  intros Hi Ht He Ha Hc Hd Hsum. cbv zeta.
  set (dist := trapezoid accel_t cruise_t start_v cruise_v accel).
  assert (Hd0 : dist 0 = 0) by (unfold dist; rewrite trapezoid_accel by lra; ring).
  assert (F0 : follows q print_time start_pos axes_r dist (q, print_time, start_pos)).
  { split; cbn [fst snd]; try done; try lra.
    - replace (print_time - print_time) with 0 by lra. rewrite Hd0. unfold along. destruct start_pos.
      cbn. f_equal; ring.
    - intros t Hlt. lra.
    - intros. lra. }
  unfold trapq_append. cbv zeta.
  destruct (append_part_follows q print_time start_pos axes_r dist accel_t start_v (dlit 1 2 * accel)%D
    q print_time start_pos Ht Hd0 Ha He F0) as [F1 T1].
  { intros s Hs. replace (print_time - print_time + s) with s by lra.
    replace (print_time - print_time) with 0 by lra. rewrite Hd0, Rplus_0_l. by apply trapezoid_accel. }
  destruct (append_part accel_t _ _ _ _) as [[q1 t1] p1]. cbn [fst snd] in T1. subst t1.
  destruct (append_part_follows q print_time start_pos axes_r dist cruise_t cruise_v dzero
    q1 (print_time + accel_t) p1 Ht Hd0 Hc He F1) as [F2 T2].
  { intros s Hs. replace (print_time + accel_t - print_time) with accel_t by lra.
    by apply trapezoid_cruise. }
  destruct (append_part cruise_t _ _ _ _) as [[q2 t2] p2]. cbn [fst snd] in T2. subst t2.
  destruct (append_part_follows q print_time start_pos axes_r dist decel_t cruise_v (- dlit 1 2 * accel)%D
    q2 (print_time + accel_t + cruise_t) p2 Ht Hd0 Hd He F2) as [F3 T3].
  { intros s Hs. replace (print_time + accel_t + cruise_t - print_time) with (accel_t + cruise_t) by lra.
    apply trapezoid_decel; [done|done|lra]. }
  destruct (append_part decel_t _ _ _ _) as [[q3 t3] p3]. cbn [fst snd] in T3. subst t3.
  destruct F3 as [Hi3 _ _ Hst _ Hpr Hgap Hbef _]. cbn [fst snd] in *.
  split; [done|]. split; [apply Hst; lra|]. split; [done|]. split; [|done].
  intros t m Hm Hat. apply (Hgap t m Hm Hat). lra.
Qed.

(** ** Finished moves *)

(** The history keeps the moves that move. *)
Definition moving m : Prop := m_start_v m <> 0 \/ m_half_accel m <> 0.

Lemma finalize_loop_spec t l h l' h' :
  finalize_loop t l h = (l', h') ->
  exists gone, l = gone ++ l' /\ Forall (fun m => m_end m <= t) gone /\
    (forall m, head l' = Some m -> t < m_end m) /\
    (forall m, m ∈ h' <-> m ∈ h \/ m ∈ gone /\ moving m).
Proof.
  revert h. induction l as [|m l IH]; intros h E; cbn [finalize_loop] in E.
  { injection E as <- <-. exists []. split; [done|]. split; [constructor|]. split; [done|]. set_solver. }
  destruct (dltb_spec t (m_end m)) as [Hlt|Hge].
  { injection E as <- <-. exists []. split; [done|]. split; [constructor|]. split; [naive_solver|]. set_solver. }
  destruct (IH _ E) as (gone & -> & Hg & Hh & Hin). exists (m :: gone).
  split; [done|]. split; [by constructor|]. split; [done|]. intros x. rewrite Hin. unfold moving.
  destruct (dnz_spec (m_start_v m)), (dnz_spec (m_half_accel m)); cbn [orb]; set_solver.
Qed.

Lemma expire_loop_spec e l m :
  (m ∈ expire_loop e l -> m ∈ l) /\ (m ∈ l -> m ∈ expire_loop e l \/ m_end m <= e).
Proof.
  induction l as [|x l IH]; [set_solver|]. destruct l as [|y l]; [set_solver|].
  cbn [expire_loop] in *. destruct (dltb_spec e (m_end x)); set_solver.
Qed.

Lemma expire_loop_last e l : last (expire_loop e l) = last l.
Proof.
  induction l as [|x l IH]; [done|]. destruct l as [|y l]; [done|].
  cbn [expire_loop] in *. destruct (dltb_spec e (m_end x)); [done|]. rewrite IH. done.
Qed.

Lemma expire_history_spec (h : list (move R)) m :
  (m ∈ expire_history h -> m ∈ h) /\ (m ∈ h -> m ∈ expire_history h \/
     exists latest, head (expire_history h) = Some latest /\ m_end m <= m_end latest - 30).
Proof.
  destruct h as [|latest h]; [set_solver|]. unfold expire_history. rewrite !rev_alt.
  fold (reverse (latest :: h)). set (e := (m_end latest - HISTORY_EXPIRE)%D).
  destruct (expire_loop_spec e (reverse (latest :: h)) m) as [H1 H2]. rewrite elem_of_reverse in H1, H2.
  fold (reverse (expire_loop e (reverse (latest :: h)))). rewrite elem_of_reverse.
  split; [done|]. intros Hx. destruct (H2 Hx) as [?|Hold]; [by left|]. right. exists latest. split; [|done].
  by rewrite head_reverse, expire_loop_last, last_reverse.
Qed.

Lemma last_app_ne l k d : k <> [] -> List.last (l ++ k) d = List.last k d.
Proof.
  intros Hk. induction l as [|m l IH]; [done|]. simpl. rewrite IH. by destruct l, k.
Qed.

Lemma chain_suffix l k : chain (l ++ k) -> chain k.
Proof. induction l as [|m l IH]; [done|]. intros H. apply IH. by eapply chain_tail. Qed.

Lemma chain_ends_after l t :
  chain l -> Forall (fun m => 0 < m_move_t m) l -> (forall m, head l = Some m -> t < m_end m) ->
  Forall (fun m => t < m_end m) l.
Proof.
  induction l as [|m l IH]; intros Hc Hp Hh; [constructor|]. apply Forall_cons in Hp as [Hm Hp].
  constructor; [by apply Hh|]. apply IH; [by eapply chain_tail|done|].
  intros m' Hm'. destruct l as [|m1 l]; [done|]. injection Hm' as ->. destruct Hc as [He _].
  apply Forall_cons in Hp as [Hm1 _]. specialize (Hh m eq_refl). unfold m_end in *. cbn in *. lra.
Qed.

Lemma move_at_gone l k t : Forall (fun m => m_end m <= t) l -> move_at (l ++ k) t = move_at k t.
Proof.
  induction 1 as [|m l Hm _ IH]; [done|]. cbn [app move_at].
  destruct (Rlt_dec t (m_end m)); [lra|done].
Qed.

(** [trapq_finalize_moves] drops exactly the moves that have ended: the queue stays well
    formed, the moves left end after [print_time], and nothing changes from then on.  A
    dropped move is in the history if it is one that moves and not older than 30 seconds
    before the latest one; the history has no other new entries. *)
Theorem finalize_drops_finished q t :
  tq_inv q ->
  let q' := trapq_finalize_moves t q in
  tq_inv q' /\ Forall (fun m => t < m_end m) (tq_body q') /\
  (forall u, t <= u -> move_at (tq_body q') u = move_at (tq_body q) u) /\
  (forall m, m ∈ tq_history q' ->
     m ∈ tq_history q \/ m ∈ tq_body q /\ m_end m <= t /\ moving m) /\
  (forall m, m ∈ tq_body q -> m_end m <= t -> moving m ->
     m ∈ tq_history q' \/ exists latest, head (tq_history q') = Some latest /\ m_end m <= m_end latest - 30).
Proof.
  intros [Hh Hc Hp Hl]. unfold trapq_finalize_moves.
  destruct (finalize_loop t (tq_body q) (tq_history q)) as [b h] eqn:E.
  destruct (finalize_loop_spec _ _ _ _ _ E) as (gone & Eb & Hg & Hhd & Hin).
  cbv zeta. cbn [tq_body tq_history tq_head tq_tail].
  assert (Hcb : chain b) by (rewrite Eb in Hc; by eapply chain_suffix).
  assert (Hpb : Forall (fun m => 0 < m_move_t m) b) by (rewrite Eb in Hp; by apply Forall_app in Hp as [_ ?]).
  split; [|split; [|split; [|split]]].
  - split; cbn [tq_head tq_body]; [done..|]. intros Hne.
    unfold tq_last in *. cbn [tq_body tq_head]. rewrite Eb in Hl.
    rewrite (last_app_ne gone b) in Hl by done. apply Hl. by destruct gone.
  - by apply chain_ends_after.
  - intros u Hu. rewrite Eb. symmetry. apply move_at_gone. eapply Forall_impl; [exact Hg|]. simpl. intros; lra.
  - intros m Hm. apply expire_history_spec, Hin in Hm as [?|[Hm ?]]; [by left|right].
    rewrite Forall_forall in Hg. rewrite Eb. set_solver.
  - intros m Hm Hend Hmv. apply expire_history_spec, Hin. right. split; [|done].
    rewrite Eb in Hm. apply elem_of_app in Hm as [?|Hm]; [done|]. exfalso.
    pose proof (chain_ends_after b t Hcb Hpb Hhd) as HF. rewrite Forall_forall in HF. pose proof (HF m Hm) as Hlt. cbv beta in Hlt. lra.
Qed.

(** ** Witnesses *)

Definition demo_start : coord R := mk_coord 10 20 5.
Definition demo_axes : coord R := mk_coord 1 0 0.
Definition demo_tq : trapq R := trapq_append 2 1 2 1 demo_start demo_axes 0 10 10 trapq_alloc.

Lemma append_follows_trapezoid_witness :
  tq_inv demo_tq /\
  exists m, move_at (tq_body demo_tq) 4 = Some m /\ position_in m 4 = mk_coord 25 20 5.
Proof.
  destruct (append_follows_trapezoid trapq_alloc 2 1 2 1 demo_start demo_axes 0 10 10 alloc_inv)
    as (Hi & _ & Hp & _); [lra|cbn; lra|lra..|].
  split; [exact Hi|]. destruct (Hp 4 ltac:(lra)) as (m & Hm & Hc). exists m. split; [exact Hm|].
  rewrite Hc. unfold along, trapezoid. cbn.
  destruct (Rlt_dec (4 - 2) 1); [lra|]. destruct (Rlt_dec (4 - 2 - 1) 2); [|lra]. f_equal; lra.
Defined.

Definition demo_move : move R := mk_move 2 1 10 0 demo_start demo_axes.

Lemma finalize_drops_finished_witness :
  let q := trapq_add_move demo_move trapq_alloc in
  let q' := trapq_finalize_moves 5 q in
  tq_inv q' /\ demo_move ∈ tq_history q'.
Proof.
  intros q q'. assert (Hi : tq_inv q) by (apply add_move_inv; [apply alloc_inv|cbn; lra..]).
  destruct (finalize_drops_finished q 5 Hi) as (Hi' & _ & _ & _ & Hin). split; [exact Hi'|].
  assert (Hm : demo_move ∈ tq_body q).
  { unfold q, trapq_add_move. cbn [tq_body upd]. set_solver. }
  assert (Hmv : moving demo_move) by (left; cbn; lra).
  destruct (Hin demo_move Hm ltac:(unfold m_end; cbn; lra) Hmv) as [?|(latest & Hl & Hold)]; [done|].
  exfalso. assert (Hlat : latest ∈ tq_history q') by (by apply head_Some_elem_of).
  destruct (finalize_drops_finished q 5 Hi) as (_ & _ & _ & Hsrc & _).
  destruct (Hsrc latest Hlat) as [Hno|(_ & Hend & _)]; [cbn in Hno; set_solver|].
  unfold m_end in *. cbn in *. lra.
Defined.
