(* ===== verification/Kinematics.v ===== *)
(** * Kinematics

    klippy/chelper/kin_*.c: the position of a stepper as a function of the time in a move
    of the tool head.

    A [struct stepper_kinematics] that a file embeds in a larger struct is a constructor
    of [kinematics] with the other members of that struct; the constructor is the
    [calc_position_cb].  [char] arguments are character codes.  A position callback gets
    the list of moves and an index into it, as pressure advance and input shaping look at
    the moves around; leaving the list is [None].  The file kin_coreuv.c reads members
    that [struct coord] does not have and is not part of the build. *)

From S2P Require Import Prelude Double Trapq.
From Stdlib Require Import Reals.

(** Functions of libm and the constant [M_PI]. *)
Class Trig (D : Type) := {
  dcos : D -> D;
  dsin : D -> D;
  datan2 : D -> D -> D;
  M_PI : D;
}.

(** The angle of the point (x, y). *)
Definition Ratan2 (y x : R) : R :=
  if Rlt_dec 0 x then atan (y / x)
  else if Rlt_dec x 0 then (if Rle_dec 0 y then atan (y / x) + PI else atan (y / x) - PI)%R
  else if Rlt_dec 0 y then (PI / 2)%R else if Rlt_dec y 0 then (- PI / 2)%R else 0%R.

#[export] Instance real_trig : Trig R := {
  dcos := cos; dsin := sin; datan2 := Ratan2; M_PI := PI;
}.

Definition AF_X : Z := 1.
Definition AF_Y : Z := 2.
Definition AF_Z : Z := 4.

(** An element of [pulses]; [num_pulses] is the length of the list. *)
Record pulse (D : Type) := mk_pulse { p_t : D; p_a : D }.
Arguments mk_pulse {D}.
Arguments p_t {D}.
Arguments p_a {D}.
Definition shaper_pulses (D : Type) : Type := list (pulse D).

(** The callbacks that [input_shaper_set_sk] chooses from. *)
Inductive shaper_cb := shaper_x | shaper_y | shaper_xy.

Inductive kinematics (D : Type) :=
| K_null
| cart_stepper_x | cart_stepper_y | cart_stepper_z
| cart_reverse_stepper_x | cart_reverse_stepper_y | cart_reverse_stepper_z
| corexy_stepper_plus | corexy_stepper_minus
| corexz_stepper_plus | corexz_stepper_minus
| delta_stepper (arm2 tower_x tower_y : D)
| deltesian_stepper (arm2 arm_x : D)
| polar_stepper_radius | polar_stepper_angle
| rotary_stepper (cos sin shoulder_radius shoulder_height upper_arm2 lower_arm2 : D)
| winch_stepper (anchor : coord D)
| extruder_stepper (pressure_advance half_smooth_time inv_half_smooth_time2 : D)
| input_shaper_unset (m : move D) (sx sy : shaper_pulses D)
| input_shaper (cb : shaper_cb) (m : move D) (sx sy : shaper_pulses D)
    (orig_sk : kinematics D) (orig_commanded_pos : D) (orig_active_flags : Z).
Arguments K_null {D}.
Arguments cart_stepper_x {D}.
Arguments cart_stepper_y {D}.
Arguments cart_stepper_z {D}.
Arguments cart_reverse_stepper_x {D}.
Arguments cart_reverse_stepper_y {D}.
Arguments cart_reverse_stepper_z {D}.
Arguments corexy_stepper_plus {D}.
Arguments corexy_stepper_minus {D}.
Arguments corexz_stepper_plus {D}.
Arguments corexz_stepper_minus {D}.
Arguments delta_stepper {D}.
Arguments deltesian_stepper {D}.
Arguments polar_stepper_radius {D}.
Arguments polar_stepper_angle {D}.
Arguments rotary_stepper {D}.
Arguments winch_stepper {D}.
Arguments extruder_stepper {D}.
Arguments input_shaper_unset {D}.
Arguments input_shaper {D}.

Section kin.
Context {D : Type} `{DoubleOps D} `{Trig D}.

(** ** Pressure advance *)

Definition extruder_integrate (base start_v half_accel start end_ : D) : D :=
  let half_v := (dlit 1 2 * start_v)%D in
  let sixth_a := (dofZ 1 / dofZ 3 * half_accel)%D in
  let si := (start * (base + start * (half_v + start * sixth_a)))%D in
  let ei := (end_ * (base + end_ * (half_v + end_ * sixth_a)))%D in
  (ei - si)%D.

Definition extruder_integrate_time (base start_v half_accel start end_ : D) : D :=
  let half_b := (dlit 1 2 * base)%D in
  let third_v := (dofZ 1 / dofZ 3 * start_v)%D in
  let eighth_a := (dlit 25 100 * half_accel)%D in
  let si := (start * start * (half_b + start * (third_v + start * eighth_a)))%D in
  let ei := (end_ * end_ * (half_b + end_ * (third_v + end_ * eighth_a)))%D in
  (ei - si)%D.

Definition pa_move_integrate (m : move D) (pressure_advance base start end_ time_offset : D) : D :=
  let start := if (start <? dzero)%D then dzero else start in
  let end_ := if (m_move_t m <? end_)%D then m_move_t m else end_ in
  let pressure_advance := if dnz (cy (m_axes_r m)) then pressure_advance else dzero in
  let base := (base + pressure_advance * m_start_v m)%D in
  let start_v := (m_start_v m + pressure_advance * dofZ 2 * m_half_accel m)%D in
  let ha := m_half_accel m in
  let iext := extruder_integrate base start_v ha start end_ in
  let wgt_ext := extruder_integrate_time base start_v ha start end_ in
  (wgt_ext - time_offset * iext)%D.

(** The loop over the previous moves; [i] is the index of the current one. *)
Fixpoint pa_prev (ms : list (move D)) (pressure_advance start_base : D) (i : nat) (start res : D) :
    option D :=
  if (start <? dzero)%D then
    match i with
    | O => None
    | S i =>
        prev ← ms !! i;
        let start := (start + m_move_t prev)%D in
        let base := (cx (m_start_pos prev) - start_base)%D in
        pa_prev ms pressure_advance start_base i start
          (res + pa_move_integrate prev pressure_advance base start (m_move_t prev) start)%D
    end
  else Some res.

(** The loop over the moves [rest] after [m]. *)
Fixpoint pa_next (pressure_advance start_base : D) (m : move D) (rest : list (move D)) (end_ res : D) :
    option D :=
  if (m_move_t m <? end_)%D then
    match rest with
    | [] => None
    | m' :: rest =>
        let end_ := (end_ - m_move_t m)%D in
        let base := (cx (m_start_pos m') - start_base)%D in
        pa_next pressure_advance start_base m' rest end_
          (res - pa_move_integrate m' pressure_advance base dzero end_ end_)%D
    end
  else Some res.

Definition pa_range_integrate (ms : list (move D)) (i : nat) (move_time pressure_advance hst : D) :
    option D :=
  m ← ms !! i;
  let start := (move_time - hst)%D in
  let end_ := (move_time + hst)%D in
  let start_base := cx (m_start_pos m) in
  let res := (dzero + pa_move_integrate m pressure_advance dzero start move_time start)%D in
  let res := (res - pa_move_integrate m pressure_advance dzero move_time end_ end_)%D in
  res ← pa_prev ms pressure_advance start_base i start res;
  pa_next pressure_advance start_base m (drop (S i) ms) end_ res.

(** ** Input shaping *)

Definition shift_pulses (sp : shaper_pulses D) : shaper_pulses D :=
  let ts := foldl (fun ts p => ts + p_a p * p_t p)%D dzero sp in
  map (fun p => mk_pulse (p_t p - ts)%D (p_a p)) sp.

(** [a] and [t] are arrays of [n] elements. *)
Definition init_shaper (n : Z) (a t : list D) : shaper_pulses D * Z :=
  if (n <? 0) || (5 <? n) then ([], -1)
  else
    let sum_a := foldl dadd dzero a in
    let inv_a := (dofZ 1 / sum_a)%D in
    let sp := rev (zip_with (fun ai ti => mk_pulse (- ti)%D (ai * inv_a)%D) a t) in
    (shift_pulses sp, 0).

(** [coord.axis[axis - 'x']]. *)
Definition coord_axis (c : coord D) (axis : Z) : D :=
  if axis =? 120 then cx c else if axis =? 121 then cy c else cz c.

Definition get_axis_position (m : move D) (axis : Z) (move_time : D) : D :=
  let axis_r := coord_axis (m_axes_r m) axis in
  let start_pos := coord_axis (m_start_pos m) axis in
  let move_dist := move_get_distance m move_time in
  (start_pos + axis_r * move_dist)%D.

(** The first loop of [get_axis_position_across_moves]: the index and the time in that
    move. *)
Fixpoint seek_prev (ms : list (move D)) (i : nat) (time : D) : option (nat * D) :=
  if (time <? dzero)%D then
    match i with
    | O => None
    | S i => m ← ms !! i; seek_prev ms i (time + m_move_t m)%D
    end
  else Some (i, time).

(** The second loop, on the moves from the current one on. *)
Fixpoint seek_next (ms : list (move D)) (time : D) : option (move D * D) :=
  match ms with
  | [] => None
  | m :: rest => if (m_move_t m <? time)%D then seek_next rest (time - m_move_t m)%D else Some (m, time)
  end.

Definition get_axis_position_across_moves (ms : list (move D)) (i : nat) (axis : Z) (time : D) : option D :=
  seek_prev ms i time ≫= fun '(i, time) =>
  seek_next (drop i ms) time ≫= fun '(m, time) =>
  Some (get_axis_position m axis time).

Fixpoint shape (ms : list (move D)) (i : nat) (axis : Z) (move_time : D) (sp : shaper_pulses D) (res : D) :
    option D :=
  match sp with
  | [] => Some res
  | p :: sp =>
      x ← get_axis_position_across_moves ms i axis (move_time + p_t p)%D;
      shape ms i axis move_time sp (res + p_a p * x)%D
  end.

Definition calc_position (ms : list (move D)) (i : nat) (axis : Z) (move_time : D)
    (sp : shaper_pulses D) : option D :=
  shape ms i axis move_time sp dzero.

Definition DUMMY_T : D := dofZ 500.

(** ** Rotary delta *)

Definition rotary_two_arm_calc (dx dy upper_arm2 lower_arm2 : D) : D :=
  let inv_dy := (dofZ 1 / dy)%D in
  let c1 := (dlit 1 2 * inv_dy * (dx * dx + dy * dy + upper_arm2 - lower_arm2))%D in
  let c2 := (dx * inv_dy)%D in
  let scale := (c2 * c2 + dofZ 1)%D in
  let scaled_elbow_x := (c1 * c2 + dsqrt (scale * upper_arm2 - c1 * c1))%D in
  let scaled_elbow_y := (c1 * scale - c2 * scaled_elbow_x)%D in
  datan2 scaled_elbow_y scaled_elbow_x.

(** ** The position callbacks *)

Definition cart_stepper_x_calc_position (m : move D) (move_time : D) : D := cx (move_get_coord m move_time).
Definition cart_stepper_y_calc_position (m : move D) (move_time : D) : D := cy (move_get_coord m move_time).
Definition cart_stepper_z_calc_position (m : move D) (move_time : D) : D := cz (move_get_coord m move_time).
Definition cart_reverse_stepper_x_calc_position (m : move D) (move_time : D) : D :=
  (- cx (move_get_coord m move_time))%D.
Definition cart_reverse_stepper_y_calc_position (m : move D) (move_time : D) : D :=
  (- cy (move_get_coord m move_time))%D.
Definition cart_reverse_stepper_z_calc_position (m : move D) (move_time : D) : D :=
  (- cz (move_get_coord m move_time))%D.

Definition corexy_stepper_plus_calc_position (m : move D) (move_time : D) : D :=
  let c := move_get_coord m move_time in (cx c + cy c)%D.
Definition corexy_stepper_minus_calc_position (m : move D) (move_time : D) : D :=
  let c := move_get_coord m move_time in (cx c - cy c)%D.

Definition corexz_stepper_plus_calc_position (m : move D) (move_time : D) : D :=
  let c := move_get_coord m move_time in (cx c + cz c)%D.
Definition corexz_stepper_minus_calc_position (m : move D) (move_time : D) : D :=
  let c := move_get_coord m move_time in (cx c - cz c)%D.

Definition delta_stepper_calc_position (arm2 tower_x tower_y : D) (m : move D) (move_time : D) : D :=
  let c := move_get_coord m move_time in
  let dx := (tower_x - cx c)%D in
  let dy := (tower_y - cy c)%D in
  (dsqrt (arm2 - dx * dx - dy * dy) + cz c)%D.

Definition deltesian_stepper_calc_position (arm2 arm_x : D) (m : move D) (move_time : D) : D :=
  let c := move_get_coord m move_time in
  let dx := (cx c - arm_x)%D in
  (dsqrt (arm2 - dx * dx) + cz c)%D.

Definition polar_stepper_radius_calc_position (m : move D) (move_time : D) : D :=
  let c := move_get_coord m move_time in
  dsqrt (cx c * cx c + cy c * cy c)%D.

Definition polar_stepper_angle_calc_position (commanded_pos : D) (m : move D) (move_time : D) : D :=
  let c := move_get_coord m move_time in
  let angle := datan2 (cy c) (cx c) in
  if (M_PI <? angle - commanded_pos)%D then (angle - dofZ 2 * M_PI)%D
  else if (angle - commanded_pos <? - M_PI)%D then (angle + dofZ 2 * M_PI)%D
  else angle.

Definition rotary_stepper_calc_position (cos sin shoulder_radius shoulder_height upper_arm2 lower_arm2 : D)
    (m : move D) (move_time : D) : D :=
  let c := move_get_coord m move_time in
  let sjz := (cy c * cos - cx c * sin)%D in
  let sjx := (cx c * cos + cy c * sin - shoulder_radius)%D in
  let sjy := (cz c - shoulder_height)%D in
  rotary_two_arm_calc sjx sjy upper_arm2 (lower_arm2 - sjz * sjz)%D.

Definition winch_stepper_calc_position (anchor : coord D) (m : move D) (move_time : D) : D :=
  let c := move_get_coord m move_time in
  let dx := (cx anchor - cx c)%D in
  let dy := (cy anchor - cy c)%D in
  let dz := (cz anchor - cz c)%D in
  dsqrt (dx * dx + dy * dy + dz * dz)%D.

Definition extruder_calc_position (pressure_advance hst inv_half_smooth_time2 : D)
    (ms : list (move D)) (i : nat) (m : move D) (move_time : D) : option D :=
  if negb (dnz hst) then Some (cx (m_start_pos m) + move_get_distance m move_time)%D
  else
    area ← pa_range_integrate ms i move_time pressure_advance hst;
    Some (cx (m_start_pos m) + area * inv_half_smooth_time2)%D.

(** The callbacks of the input shaper set a component of the position of the move [im] that
    the shaper embeds and evaluate the original kinematics there: where to evaluate it
    (moves, index and time) and the embedded move. *)
Definition shaper_x_calc_position (sx : shaper_pulses D) (im : move D) (ms : list (move D)) (i : nat)
    (move_time : D) : option (list (move D) * nat * D * move D) :=
  match sx with
  | [] => Some (ms, i, move_time, im)
  | _ =>
      x ← calc_position ms i 120 move_time sx;
      let im := im <| m_start_pos ::= fun s => s <| cx := x |> |> in
      Some ([im], 0%nat, DUMMY_T, im)
  end.

Definition shaper_y_calc_position (sy : shaper_pulses D) (im : move D) (ms : list (move D)) (i : nat)
    (move_time : D) : option (list (move D) * nat * D * move D) :=
  match sy with
  | [] => Some (ms, i, move_time, im)
  | _ =>
      y ← calc_position ms i 121 move_time sy;
      let im := im <| m_start_pos ::= fun s => s <| cy := y |> |> in
      Some ([im], 0%nat, DUMMY_T, im)
  end.

Definition shaper_xy_calc_position (sx sy : shaper_pulses D) (im m : move D) (ms : list (move D)) (i : nat)
    (move_time : D) : option (list (move D) * nat * D * move D) :=
  match sx, sy with
  | [], [] => Some (ms, i, move_time, im)
  | _, _ =>
      let c := move_get_coord m move_time in
      x ← match sx with [] => Some (cx c) | _ => calc_position ms i 120 move_time sx end;
      y ← match sy with [] => Some (cy c) | _ => calc_position ms i 121 move_time sy end;
      let im := im <| m_start_pos := c <| cx := x |> <| cy := y |> |> in
      Some ([im], 0%nat, DUMMY_T, im)
  end.

(** [calc_position_cb(sk, m, move_time)] where [m] is element [i] of [ms]: the position and
    the object with the embedded move of an input shaper updated.  A callback that looks at
    the moves around of that embedded move is stuck. *)
Fixpoint calc_position_cb (k : kinematics D) (commanded_pos : D) (ms : list (move D)) (i : nat)
    (move_time : D) : option (D * kinematics D) :=
  m ← ms !! i;
  match k with
  | K_null | input_shaper_unset _ _ _ => None
  | cart_stepper_x => Some (cart_stepper_x_calc_position m move_time, k)
  | cart_stepper_y => Some (cart_stepper_y_calc_position m move_time, k)
  | cart_stepper_z => Some (cart_stepper_z_calc_position m move_time, k)
  | cart_reverse_stepper_x => Some (cart_reverse_stepper_x_calc_position m move_time, k)
  | cart_reverse_stepper_y => Some (cart_reverse_stepper_y_calc_position m move_time, k)
  | cart_reverse_stepper_z => Some (cart_reverse_stepper_z_calc_position m move_time, k)
  | corexy_stepper_plus => Some (corexy_stepper_plus_calc_position m move_time, k)
  | corexy_stepper_minus => Some (corexy_stepper_minus_calc_position m move_time, k)
  | corexz_stepper_plus => Some (corexz_stepper_plus_calc_position m move_time, k)
  | corexz_stepper_minus => Some (corexz_stepper_minus_calc_position m move_time, k)
  | delta_stepper arm2 tower_x tower_y =>
      Some (delta_stepper_calc_position arm2 tower_x tower_y m move_time, k)
  | deltesian_stepper arm2 arm_x => Some (deltesian_stepper_calc_position arm2 arm_x m move_time, k)
  | polar_stepper_radius => Some (polar_stepper_radius_calc_position m move_time, k)
  | polar_stepper_angle => Some (polar_stepper_angle_calc_position commanded_pos m move_time, k)
  | rotary_stepper cos sin shoulder_radius shoulder_height upper_arm2 lower_arm2 =>
      Some (rotary_stepper_calc_position cos sin shoulder_radius shoulder_height upper_arm2 lower_arm2
              m move_time, k)
  | winch_stepper anchor => Some (winch_stepper_calc_position anchor m move_time, k)
  | extruder_stepper pressure_advance hst inv_half_smooth_time2 =>
      x ← extruder_calc_position pressure_advance hst inv_half_smooth_time2 ms i m move_time;
      Some (x, k)
  | input_shaper cb im sx sy orig orig_pos orig_flags =>
      match cb with
      | shaper_x => shaper_x_calc_position sx im ms i move_time
      | shaper_y => shaper_y_calc_position sy im ms i move_time
      | shaper_xy => shaper_xy_calc_position sx sy im m ms i move_time
      end ≫= fun '(ms, i, t, im) =>
      calc_position_cb orig orig_pos ms i t ≫= fun '(x, orig) =>
      Some (x, input_shaper cb im sx sy orig orig_pos orig_flags)
  end.

Definition polar_stepper_angle_post_fixup (commanded_pos : D) : D :=
  if (commanded_pos <? - M_PI)%D then (commanded_pos + dofZ 2 * M_PI)%D
  else if (M_PI <? commanded_pos)%D then (commanded_pos - dofZ 2 * M_PI)%D
  else commanded_pos.

(** [post_cb(sk)]: the new [commanded_pos]. *)
Definition post_cb (k : kinematics D) (commanded_pos : D) : D :=
  match k with
  | polar_stepper_angle => polar_stepper_angle_post_fixup commanded_pos
  | _ => commanded_pos
  end.
End kin.

(** ** Objects *)

(** [struct stepper_kinematics]; [sk_tq] tells whether the pointer to the trapezoid queue is
    set.  The step compression object is kept beside. *)
Record stepper_kinematics (D : Type) := mk_sk {
  sk_step_dist : D; sk_commanded_pos : D; sk_last_flush_time : D; sk_last_move_time : D;
  sk_tq : bool; sk_active_flags : Z;
  sk_gen_steps_pre_active : D; sk_gen_steps_post_active : D;
  sk_kin : kinematics D }.
Arguments mk_sk {D}.
Arguments sk_step_dist {D}.
Arguments sk_commanded_pos {D}.
Arguments sk_last_flush_time {D}.
Arguments sk_last_move_time {D}.
Arguments sk_tq {D}.
Arguments sk_active_flags {D}.
Arguments sk_gen_steps_pre_active {D}.
Arguments sk_gen_steps_post_active {D}.
Arguments sk_kin {D}.
#[export] Instance eta_sk {D} : Settable (stepper_kinematics D) := fun s =>
  mk_sk (sk_step_dist s) (sk_commanded_pos s) (sk_last_flush_time s) (sk_last_move_time s)
    (sk_tq s) (sk_active_flags s) (sk_gen_steps_pre_active s) (sk_gen_steps_post_active s) (sk_kin s).

Section alloc.
Context {D : Type} `{DoubleOps D} `{Trig D}.
Implicit Types sk orig_sk : stepper_kinematics D.

(** [malloc], [memset], then the callback and the flags. *)
Definition new_sk (k : kinematics D) (active_flags : Z) : stepper_kinematics D :=
  mk_sk dzero dzero dzero dzero false active_flags dzero dzero k.

Definition cartesian_stepper_alloc (axis : Z) : stepper_kinematics D :=
  if axis =? 120 then new_sk cart_stepper_x AF_X
  else if axis =? 121 then new_sk cart_stepper_y AF_Y
  else if axis =? 122 then new_sk cart_stepper_z AF_Z
  else new_sk K_null 0.

Definition cartesian_reverse_stepper_alloc (axis : Z) : stepper_kinematics D :=
  if axis =? 120 then new_sk cart_reverse_stepper_x AF_X
  else if axis =? 121 then new_sk cart_reverse_stepper_y AF_Y
  else if axis =? 122 then new_sk cart_reverse_stepper_z AF_Z
  else new_sk K_null 0.

(** The codes of the characters + and - are 43 and 45. *)
Definition corexy_stepper_alloc (type : Z) : stepper_kinematics D :=
  new_sk (if type =? 43 then corexy_stepper_plus
          else if type =? 45 then corexy_stepper_minus else K_null) (Z.lor AF_X AF_Y).

Definition corexz_stepper_alloc (type : Z) : stepper_kinematics D :=
  new_sk (if type =? 43 then corexz_stepper_plus
          else if type =? 45 then corexz_stepper_minus else K_null) (Z.lor AF_X AF_Z).

Definition delta_stepper_alloc (arm2 tower_x tower_y : D) : stepper_kinematics D :=
  new_sk (delta_stepper arm2 tower_x tower_y) (Z.lor (Z.lor AF_X AF_Y) AF_Z).

Definition deltesian_stepper_alloc (arm2 arm_x : D) : stepper_kinematics D :=
  new_sk (deltesian_stepper arm2 arm_x) (Z.lor AF_X AF_Z).

(** The codes of the letters r and a are 114 and 97. *)
Definition polar_stepper_alloc (type : Z) : stepper_kinematics D :=
  new_sk (if type =? 114 then polar_stepper_radius
          else if type =? 97 then polar_stepper_angle else K_null) (Z.lor AF_X AF_Y).

Definition rotary_delta_stepper_alloc (shoulder_radius shoulder_height angle upper_arm lower_arm : D) :
    stepper_kinematics D :=
  new_sk (rotary_stepper (dcos angle) (dsin angle) shoulder_radius shoulder_height
            (upper_arm * upper_arm)%D (lower_arm * lower_arm)%D) (Z.lor (Z.lor AF_X AF_Y) AF_Z).

Definition winch_stepper_alloc (anchor_x anchor_y anchor_z : D) : stepper_kinematics D :=
  new_sk (winch_stepper (mk_coord anchor_x anchor_y anchor_z)) (Z.lor (Z.lor AF_X AF_Y) AF_Z).

Definition extruder_stepper_alloc : stepper_kinematics D :=
  new_sk (extruder_stepper dzero dzero dzero) AF_X.

(** [None] when [sk] is not an extruder stepper. *)
Definition extruder_set_pressure_advance (pressure_advance smooth_time : D) sk :
    option (stepper_kinematics D) :=
  match sk_kin sk with
  | extruder_stepper pa _ inv =>
      let hst := (smooth_time * dlit 1 2)%D in
      let sk := sk <| sk_gen_steps_pre_active := hst |> <| sk_gen_steps_post_active := hst |> in
      Some (sk <| sk_kin :=
        if negb (dnz hst) then extruder_stepper pa hst inv
        else extruder_stepper pressure_advance hst (dofZ 1 / (hst * hst))%D |>)
  | _ => None
  end.

Definition input_shaper_alloc : stepper_kinematics D :=
  new_sk (input_shaper_unset (move_alloc <| m_move_t := (dofZ 2 * DUMMY_T)%D |>) [] []) 0.

(** The members of a [struct input_shaper]: the embedded move and the pulses. *)
Definition shaper_parts (k : kinematics D) : option (move D * shaper_pulses D * shaper_pulses D) :=
  match k with
  | input_shaper_unset m sx sy | input_shaper _ m sx sy _ _ _ => Some (m, sx, sy)
  | _ => None
  end.

Definition input_shaper_set_sk orig_sk sk : option (stepper_kinematics D * Z) :=
  shaper_parts (sk_kin sk) ≫= fun '(m, sx, sy) =>
  let af := sk_active_flags orig_sk in
  let set cb :=
    Some (sk <| sk_kin := input_shaper cb m sx sy (sk_kin orig_sk) (sk_commanded_pos orig_sk) af |>
             <| sk_active_flags := af |>, 0) in
  if af =? AF_X then set shaper_x
  else if af =? AF_Y then set shaper_y
  else if has af (Z.lor AF_X AF_Y) then set shaper_xy
  else Some (sk, -1).

(** [sp->pulses[num_pulses-1].t] and [-sp->pulses[0].t] of a shaper with pulses. *)
Definition last_pulse_t (sp : shaper_pulses D) : D := match List.last sp (mk_pulse dzero dzero) with mk_pulse t _ => t end.
Definition first_pulse_t (sp : shaper_pulses D) : D := match sp with p :: _ => (- p_t p)%D | [] => dzero end.
Definition has_pulses (sp : shaper_pulses D) : bool := match sp with [] => false | _ => true end.

Definition shaper_note_generation_time (sx sy : shaper_pulses D) sk : stepper_kinematics D :=
  let af := sk_active_flags sk in
  let '(pre_active, post_active) :=
    if has af AF_X && has_pulses sx then (last_pulse_t sx, first_pulse_t sx) else (dzero, dzero) in
  let '(pre_active, post_active) :=
    if has af AF_Y && has_pulses sy then
      (if (pre_active <? last_pulse_t sy)%D then last_pulse_t sy else pre_active,
       if (post_active <? first_pulse_t sy)%D then first_pulse_t sy else post_active)
    else (pre_active, post_active) in
  sk <| sk_gen_steps_pre_active := pre_active |> <| sk_gen_steps_post_active := post_active |>.

(** [None] when [orig_sk] is not set. *)
Definition input_shaper_set_shaper_params (axis n : Z) (a t : list D) sk :
    option (stepper_kinematics D * Z) :=
  if negb (axis =? 120) && negb (axis =? 121) then Some (sk, -1)
  else match sk_kin sk with
  | input_shaper cb m sx sy orig orig_pos orig_flags =>
      let '(sp, status) :=
        if has orig_flags (if axis =? 120 then AF_X else AF_Y) then init_shaper n a t else ([], 0) in
      let '(sx, sy) := if axis =? 120 then (sp, sy) else (sx, sp) in
      Some (shaper_note_generation_time sx sy
              (sk <| sk_kin := input_shaper cb m sx sy orig orig_pos orig_flags |>), status)
  | _ => None
  end.

Definition input_shaper_get_step_generation_window (n : Z) (a t : list D) : D :=
  let '(sp, _) := init_shaper n a t in
  match sp with
  | [] => dzero
  | _ => let window := first_pulse_t sp in
         if (window <? last_pulse_t sp)%D then last_pulse_t sp else window
  end.
End alloc.
