(* ===== verification/KinFacts.v ===== *)
(** * Properties of the kinematics

    Over the real numbers: the geometry of the arm kinematics, input shaping as the
    identity on motion with constant speed, and pressure advance as the smoothed advanced
    position of the extruder. *)

From S2P Require Import Prelude Double Trapq TrapqFacts Kinematics.
From Stdlib Require Import Reals Lra.
#[local] Open Scope R_scope.

Implicit Types (m : move R) (ms : list (move R)) (sp : shaper_pulses R).

(** ** Input shaping *)

(** Sums over the pulses of a shaper. *)
Fixpoint weight sp : R := match sp with [] => 0 | p :: sp => p_a p + weight sp end.
Fixpoint moment sp : R := match sp with [] => 0 | p :: sp => p_a p * p_t p + moment sp end.

Lemma weight_app sp sp' : weight (sp ++ sp') = weight sp + weight sp'.
Proof. induction sp as [|p sp IH]; simpl; [lra|]. rewrite IH. lra. Qed.

Lemma weight_rev sp : weight (rev sp) = weight sp.
Proof. induction sp as [|p sp IH]; [done|]. simpl. rewrite weight_app, IH. simpl. lra. Qed.

Lemma moment_fold sp x : foldl (fun ts p => ts + p_a p * p_t p)%D x sp = x + moment sp.
Proof. revert x. induction sp as [|p sp IH]; intros x; simpl; [lra|]. rewrite IH. cbn. lra. Qed.

Lemma sum_fold (l : list R) x : foldl dadd x l = x + foldr Rplus 0 l.
Proof. revert x. induction l as [|y l IH]; intros x; simpl; [lra|]. rewrite IH. cbn. lra. Qed.

(** Shifted pulses are balanced around 0. *)
Lemma shift_pulses_spec sp :
  weight sp = 1 -> weight (shift_pulses sp) = 1 /\ moment (shift_pulses sp) = 0.
Proof.
  intros H1. unfold shift_pulses. rewrite moment_fold. cbn [dzero dofZ real_ops].
  set (ts := 0 + moment sp).
  assert (Hw : forall l, weight (map (fun p => mk_pulse (p_t p - ts)%D (p_a p)) l) = weight l).
  { induction l as [|p l IH]; cbn [map weight p_a]; [done|]. by rewrite IH. }
  assert (Hm : forall l, moment (map (fun p => mk_pulse (p_t p - ts)%D (p_a p)) l) = moment l - ts * weight l).
  { induction l as [|p l IH]; cbn [map weight moment p_a p_t]; [lra|]. rewrite IH. cbn. lra. }
  split; [by rewrite Hw|]. rewrite Hm, H1. unfold ts. lra.
Qed.

(** The pulses that [init_shaper] sets up. *)
Lemma init_shaper_spec (a t : list R) :
  length a = length t -> (length a <= 5)%nat -> foldr Rplus 0 a <> 0 ->
  exists sp, init_shaper (zlen a) a t = (sp, 0%Z) /\ length sp = length a /\ weight sp = 1 /\ moment sp = 0.
Proof.
  intros Hlen H5 Hs. unfold init_shaper, zlen.
  replace ((Z.of_nat (length a) <? 0)%Z || (5 <? Z.of_nat (length a))%Z) with false.
  2: { symmetry. apply orb_false_iff. split; [apply Z.ltb_ge|apply Z.ltb_ge]; lia. }
  rewrite sum_fold. cbn [dzero dofZ real_ops]. rewrite Rplus_0_l.
  set (sum := foldr Rplus 0 a) in *.
  set (sp0 := zip_with _ a t).
  assert (Hw : weight sp0 = sum / sum).
  { unfold sp0. cbn. clear H5. replace (sum / sum) with (foldr Rplus 0 a * (1 / sum)) by (unfold sum; field; done).
    generalize (1 / sum) as c. clear -Hlen. revert t Hlen. induction a as [|x a IH]; intros [|y t] Hl c; try done.
    - simpl. lra.
    - simpl. rewrite (IH t) by (simpl in Hl; lia). lra. }
  assert (H1 : weight (rev sp0) = 1) by (rewrite weight_rev, Hw; field; done).
  destruct (shift_pulses_spec (rev sp0) H1) as [E1 E2]. eexists. split; [done|]. split; [|done].
  unfold shift_pulses. rewrite length_map, length_rev. unfold sp0. rewrite length_zip_with. lia.
Qed.

(** Shaping a position that is linear in time. *)
Lemma shape_linear ms i axis mt x v sp r :
  Forall (fun p => get_axis_position_across_moves ms i axis (mt + p_t p)%D = Some (x + v * (mt + p_t p))) sp ->
  shape ms i axis mt sp r = Some (r + weight sp * (x + v * mt) + v * moment sp).
Proof.
  revert r. induction sp as [|p sp IH]; intros r HF; cbn [shape weight moment].
  - f_equal. lra.
  - apply Forall_cons in HF as [Hp HF]. rewrite Hp. cbn [mbind option_bind]. rewrite IH by done.
    f_equal. cbn. lra.
Qed.

(** Input shaping is the identity on motion with constant speed (and so on standing
    still): [init_shaper] normalises any pulses whose weights do not add up to 0, and
    where the moves around have constant speed along the axis, the shaped position is the
    position itself. *)
Theorem shaper_identity_at_constant_speed (a t : list R) ms i axis move_time x v :
  length a = length t -> (length a <= 5)%nat -> foldr Rplus 0 a <> 0 ->
  (forall p, p ∈ (init_shaper (zlen a) a t).1 ->
     get_axis_position_across_moves ms i axis (move_time + p_t p)%D = Some (x + v * (move_time + p_t p))) ->
  calc_position ms i axis move_time (init_shaper (zlen a) a t).1 = Some (x + v * move_time).
Proof.
  intros Hl H5 Hs. destruct (init_shaper_spec a t Hl H5 Hs) as (sp & E & _ & Hw & Hm).
  rewrite E. cbn [fst]. intros Hp. unfold calc_position.
  rewrite (shape_linear _ _ _ _ x v) by (by apply Forall_forall). f_equal. rewrite Hw, Hm. cbn. lra.
Qed.

(** ** Pressure advance *)


(** ** Angles *)

Lemma sqrt_one_plus (x y : R) : x <> 0 -> sqrt (1 + (y / x)^2) = sqrt (x^2 + y^2) / Rabs x.
Proof.
  intros Hx. replace (1 + (y / x)^2) with ((x^2 + y^2) / x^2) by (field; done).
  assert (Hp : 0 < x^2) by nra. rewrite sqrt_div_alt by done. f_equal.
  replace (x^2) with (Rsqr x) by (unfold Rsqr; ring). apply sqrt_Rsqr_abs.
Qed.

Lemma Ratan2_polar (y x : R) :
  0 < x^2 + y^2 ->
  sqrt (x^2 + y^2) * cos (Ratan2 y x) = x /\ sqrt (x^2 + y^2) * sin (Ratan2 y x) = y.
Proof.
  intros Hr. set (r := sqrt (x^2 + y^2)) in *. assert (Hr0 : 0 < r) by (by apply sqrt_lt_R0).
  assert (Hrr : r * r = x^2 + y^2) by (apply sqrt_sqrt; lra).
  assert (Hatan : x <> 0 -> r * cos (atan (y / x)) = Rabs x /\ r * sin (atan (y / x)) = y / x * Rabs x).
  { intros Hx. rewrite cos_atan, sin_atan. replace (Rsqr (y / x)) with ((y / x)^2) by (unfold Rsqr; ring).
    rewrite !(sqrt_one_plus x y Hx). fold r.
    assert (Ha : Rabs x <> 0) by (by apply Rabs_no_R0). split; field; repeat split; try done; lra. }
  unfold Ratan2. destruct (Rlt_dec 0 x) as [Hx|Hx].
  { destruct (Hatan ltac:(lra)) as [A B]. rewrite A, B, Rabs_right by lra. split; [done|field; lra]. }
  destruct (Rlt_dec x 0) as [Hx'|Hx'].
  { destruct (Hatan ltac:(lra)) as [A B]. rewrite Rabs_left in A, B by lra.
    destruct (Rle_dec 0 y).
    - rewrite neg_cos, neg_sin. split; [lra|]. rewrite <- Ropp_mult_distr_r, B. field. lra.
    - assert (Ec : cos (atan (y / x) - PI) = - cos (atan (y / x))).
      { rewrite cos_minus, cos_PI, sin_PI. lra. }
      assert (Es : sin (atan (y / x) - PI) = - sin (atan (y / x))).
      { rewrite sin_minus, cos_PI, sin_PI. lra. }
      rewrite Ec, Es. split; [lra|]. rewrite <- Ropp_mult_distr_r, B. field. lra. }
  assert (x = 0) by lra. subst x. assert (Hy : r * r = y * y) by lra.
  destruct (Rlt_dec 0 y); [|destruct (Rlt_dec y 0); [|nra]].
  - rewrite cos_PI2, sin_PI2. split; [lra|]. nra.
  - replace (- PI / 2) with (- (PI / 2)) by lra. rewrite cos_neg, sin_neg, cos_PI2, sin_PI2. split; [lra|]. nra.
Qed.

Lemma Ratan2_range (y x : R) : - PI < Ratan2 y x <= PI.
Proof.
  pose proof PI_RGT_0. pose proof (atan_bound (y / x)) as Hb. unfold Ratan2.
  destruct (Rlt_dec 0 x); [lra|]. destruct (Rlt_dec x 0).
  - destruct (Rle_dec 0 y) as [Hy|Hy].
    + assert (Hq : y / x <= 0) by (unfold Rdiv; assert (/ x < 0) by (by apply Rinv_lt_0_compat); nra).
      assert (atan (y / x) <= 0); [|lra].
      destruct Hq as [Hq|Hq]; [apply atan_increasing in Hq; rewrite atan_0 in Hq; lra|rewrite Hq, atan_0; lra].
    + assert (Hq : 0 < y / x) by (unfold Rdiv; assert (/ x < 0) by (by apply Rinv_lt_0_compat); nra).
      apply atan_increasing in Hq. rewrite atan_0 in Hq. lra.
  - destruct (Rlt_dec 0 y); [lra|]. destruct (Rlt_dec y 0); lra.
Qed.

(** The bed of a polar printer takes the shorter turn: with the commanded angle within half
    a turn of 0, the angle that [polar_stepper_angle_calc_position] returns is at most half
    a turn away from it, and points to the tool head; [polar_stepper_angle_post_fixup]
    brings the commanded angle back to within half a turn of 0. *)
Theorem polar_takes_shorter_turn ms i m t cp :
  ms !! i = Some m -> - PI <= cp <= PI ->
  let c := move_get_coord m t in
  exists angle, calc_position_cb polar_stepper_angle cp ms i t = Some (angle, polar_stepper_angle) /\
    Rabs (angle - cp) <= PI /\
    (0 < (cx c)^2 + (cy c)^2 ->
       sqrt ((cx c)^2 + (cy c)^2) * cos angle = cx c /\ sqrt ((cx c)^2 + (cy c)^2) * sin angle = cy c) /\
    - PI <= post_cb polar_stepper_angle angle <= PI.
Proof.
  intros Hm Hcp c. cbn [calc_position_cb]. rewrite Hm. cbn [mbind option_bind].
  unfold polar_stepper_angle_calc_position. fold c. cbv zeta.
  pose proof PI_RGT_0 as Hpi. pose proof (Ratan2_range (cy c) (cx c)) as Hr.
  pose proof (Ratan2_polar (cy c) (cx c)) as Hp. set (a := Ratan2 (cy c) (cx c)) in *.
  assert (Hpost : forall x, - (3 * PI) <= x <= 3 * PI -> - PI <= post_cb polar_stepper_angle x <= PI).
  { intros x Hx. unfold post_cb, polar_stepper_angle_post_fixup. destruct (dltb_spec x (- M_PI)%D) as [H1|H1]; [cbn in *; lra|].
    destruct (dltb_spec M_PI x); cbn in *; lra. }
  eexists. split; [done|]. cbn [datan2 real_trig]. fold a.
  assert (Hp2 : cos (a - 2 * PI) = cos a /\ sin (a - 2 * PI) = sin a).
  { split; [rewrite <- (cos_period (a - 2 * PI) 1)|rewrite <- (sin_period (a - 2 * PI) 1)];
      f_equal; simpl; lra. }
  assert (Hp3 : cos (a + 2 * PI) = cos a /\ sin (a + 2 * PI) = sin a).
  { split; [rewrite <- (cos_period a 1)|rewrite <- (sin_period a 1)]; f_equal; simpl; lra. }
  destruct (dltb_spec M_PI (a - cp)%D) as [H1|H1]; [|destruct (dltb_spec (a - cp)%D (- M_PI)%D) as [H2|H2]];
    cbn in *.
  - rewrite (proj1 Hp2), (proj2 Hp2). split; [apply Rabs_le; lra|]. split; [done|]. apply Hpost. lra.
  - rewrite (proj1 Hp3), (proj2 Hp3). split; [apply Rabs_le; lra|]. split; [done|]. apply Hpost. lra.
  - split; [apply Rabs_le; lra|]. split; [done|]. apply Hpost. lra.
Qed.

(** ** Arms *)

(** The two formulas of the comment in kin_rotary_delta.c: the elbow is at the end of the
    upper arm, and the lower arm spans the rest to the effector. *)
Lemma rotary_two_arm_closes dx dy u2 l2 :
  dy <> 0 -> 0 < u2 ->
  let c1 := 1 / 2 * (1 / dy) * (dx * dx + dy * dy + u2 - l2) in
  let scale := (dx * (1 / dy)) * (dx * (1 / dy)) + 1 in
  0 <= scale * u2 - c1 * c1 ->
  let angle := rotary_two_arm_calc dx dy u2 l2 in
  (dx - sqrt u2 * cos angle)^2 + (dy - sqrt u2 * sin angle)^2 = l2.
Proof.
  intros Hdy Hu c1 scale Hd. cbv zeta. unfold rotary_two_arm_calc. cbn.
  fold c1. fold scale. set (c2 := dx * (1 / dy)) in *.
  set (r := sqrt (scale * u2 - c1 * c1)). set (x := c1 * c2 + r). set (y := c1 * scale - c2 * x).
  assert (Hrr : r * r = scale * u2 - c1 * c1) by (by apply sqrt_sqrt).
  assert (Hs : 0 < scale) by (pose proof (Rle_0_sqr c2) as Hsq; unfold Rsqr in Hsq; unfold scale; lra).
  assert (Hxy : x^2 + y^2 = scale^2 * u2).
  { replace (x^2 + y^2) with (scale * ((x - c1 * c2) * (x - c1 * c2) + c1 * c1)) by (unfold y, scale; ring).
    replace (x - c1 * c2) with r by (unfold x; ring). rewrite Hrr. ring. }
  assert (Hpos : 0 < x^2 + y^2) by (rewrite Hxy; apply Rmult_lt_0_compat; [apply pow_lt|]; lra).
  destruct (Ratan2_polar y x Hpos) as [Hc Hsn].
  assert (Hroot : sqrt (x^2 + y^2) = scale * sqrt u2).
  { rewrite Hxy, sqrt_mult by (try apply pow_le; lra). f_equal. apply sqrt_pow2. lra. }
  rewrite Hroot in Hc, Hsn. set (uc := sqrt u2 * cos (Ratan2 y x)). set (us := sqrt u2 * sin (Ratan2 y x)).
  assert (Ec : uc = x / scale) by (unfold uc; apply (Rmult_eq_reg_l scale); [field_simplify; [lra|lra]|lra]).
  assert (Es : us = y / scale) by (unfold us; apply (Rmult_eq_reg_l scale); [field_simplify; [lra|lra]|lra]).
  assert (Hdot : dx * uc + dy * us = dy * c1).
  { rewrite Ec, Es. unfold y. replace dx with (c2 * dy) by (unfold c2; field; done). field. lra. }
  assert (Hcc : dy * c1 = 1 / 2 * (dx * dx + dy * dy + u2 - l2)) by (unfold c1; field; done).
  assert (Hnorm : uc^2 + us^2 = u2).
  { rewrite Ec, Es. replace ((x / scale)^2 + (y / scale)^2) with ((x^2 + y^2) / scale^2) by (field; lra).
    rewrite Hxy. field. lra. }
  transitivity (dx * dx + dy * dy - 2 * (dx * uc + dy * us) + (uc^2 + us^2)); [unfold uc, us; ring|].
  rewrite Hdot, Hcc, Hnorm. field.
Qed.

(** The arms reach the tool head.  The position of a delta carriage is the height from which
    an arm of the given length reaches the tool head; the same for the carriage of a
    deltesian printer, the line of a winch, and the upper arm of a rotary delta, whose
    elbow is at the distance of the lower arm from the effector. *)
Theorem arms_reach_tool_head ms i m t cp :
  ms !! i = Some m ->
  let c := move_get_coord m t in
  (forall arm2 tx ty, (tx - cx c)^2 + (ty - cy c)^2 <= arm2 ->
     exists h, calc_position_cb (delta_stepper arm2 tx ty) cp ms i t = Some (h, delta_stepper arm2 tx ty) /\
       cz c <= h /\ (tx - cx c)^2 + (ty - cy c)^2 + (h - cz c)^2 = arm2) /\
  (forall arm2 ax, (cx c - ax)^2 <= arm2 ->
     exists h, calc_position_cb (deltesian_stepper arm2 ax) cp ms i t = Some (h, deltesian_stepper arm2 ax) /\
       cz c <= h /\ (cx c - ax)^2 + (h - cz c)^2 = arm2) /\
  (forall a, exists len, calc_position_cb (winch_stepper a) cp ms i t = Some (len, winch_stepper a) /\
     0 <= len /\ len^2 = (cx a - cx c)^2 + (cy a - cy c)^2 + (cz a - cz c)^2) /\
  (forall shoulder_radius shoulder_height angle upper lower,
     let sk := rotary_delta_stepper_alloc shoulder_radius shoulder_height angle upper lower in
     let sjz := cy c * cos angle - cx c * sin angle in
     let sjx := cx c * cos angle + cy c * sin angle - shoulder_radius in
     let sjy := cz c - shoulder_height in
     let c1 := 1 / 2 * (1 / sjy) * (sjx * sjx + sjy * sjy + upper * upper - (lower * lower - sjz * sjz)) in
     0 < upper -> sjy <> 0 -> c1 * c1 <= (sjx * (1 / sjy) * (sjx * (1 / sjy)) + 1) * (upper * upper) ->
     exists arm, calc_position_cb (sk_kin sk) cp ms i t = Some (arm, sk_kin sk) /\
       (sjx - upper * cos arm)^2 + (sjy - upper * sin arm)^2 + sjz^2 = lower^2).
Proof.
  intros Hm. cbv zeta. cbn [calc_position_cb]. rewrite Hm. cbn [mbind option_bind].
  unfold delta_stepper_calc_position, deltesian_stepper_calc_position, winch_stepper_calc_position. cbv zeta.
  remember (move_get_coord m t) as c eqn:Ec. split; [|split; [|split]].
  - intros arm2 tx ty Hr. eexists. split; [done|]. cbn [dadd dsub dmul dsqrt real_ops].
    set (s := arm2 - (tx - cx c) * (tx - cx c) - (ty - cy c) * (ty - cy c)).
    assert (Hs : 0 <= s) by (unfold s; nra). pose proof (sqrt_pos s). split; [lra|].
    replace (sqrt s + cz c - cz c) with (sqrt s) by ring. rewrite pow2_sqrt by done. unfold s. ring.
  - intros arm2 ax Hr. eexists. split; [done|]. cbn [dadd dsub dmul dsqrt real_ops]. set (s := arm2 - (cx c - ax) * (cx c - ax)).
    assert (Hs : 0 <= s) by (unfold s; nra). pose proof (sqrt_pos s). split; [lra|].
    replace (sqrt s + cz c - cz c) with (sqrt s) by ring. rewrite pow2_sqrt by done. unfold s. ring.
  - intros a. eexists. split; [done|]. cbn [dadd dsub dmul dsqrt real_ops].
    set (s := _ + _ + _). assert (Hs : 0 <= s) by (repeat apply Rplus_le_le_0_compat; apply Rle_0_sqr).
    split; [apply sqrt_pos|]. rewrite pow2_sqrt by done. unfold s. ring.
  - intros rad hgt angle upper lower Hu Hy Hd.
    cbn [sk_kin rotary_delta_stepper_alloc new_sk calc_position_cb]. rewrite Hm. cbn [mbind option_bind].
    unfold rotary_stepper_calc_position. rewrite <- Ec. cbv zeta. eexists. split; [done|].
    cbn [dadd dsub dmul real_ops dcos dsin real_trig].
    set (sjz := cy c * cos angle - cx c * sin angle) in *.
    set (sjx := cx c * cos angle + cy c * sin angle - rad) in *. set (sjy := cz c - hgt) in *.
    pose proof (rotary_two_arm_closes sjx sjy (upper * upper) (lower * lower - sjz * sjz) Hy ltac:(nra)) as H.
    cbv zeta in H. specialize (H ltac:(lra)).
    replace (sqrt (upper * upper)) with upper in H by (symmetry; apply sqrt_square; lra).
    rewrite H. ring.
Qed.

(** ** Witnesses *)

Definition kin_move : move R := mk_move 2 10 5 0 (mk_coord 10 20 5) (mk_coord 1 1 0).

Lemma kin_move_linear t :
  0 <= t <= 10 -> get_axis_position_across_moves [kin_move] 0 120 t = Some (10 + 5 * t).
Proof.
  intros Ht. unfold get_axis_position_across_moves. cbn [seek_prev].
  destruct (dltb_spec t dzero) as [H|_]; [cbn in H; lra|]. cbn [mbind option_bind drop seek_next].
  destruct (dltb_spec (m_move_t kin_move) t) as [H|_]; [cbn in H; lra|].
  cbn [mbind option_bind]. f_equal. cbn. lra.
Qed.

Lemma shaper_identity_at_constant_speed_witness :
  calc_position [kin_move] 0 120 5 (init_shaper 2 [1; 1] [0; 1 / 2]).1 = Some (10 + 5 * 5).
Proof.
  apply (shaper_identity_at_constant_speed [1; 1] [0; 1 / 2] [kin_move] 0 120 5 10 5); [done|simpl; lia|cbn; lra|].
  intros p Hp. apply kin_move_linear. revert Hp. unfold init_shaper, shift_pulses.
  change ((zlen [1; 1] <? 0) || (5 <? zlen [1; 1]))%Z with false.
  cbn [fst zip_with rev app foldl map p_t p_a].
  intros [->|[->|Hp]%elem_of_cons]%elem_of_cons; [cbn; lra|cbn; lra|by apply not_elem_of_nil in Hp].
Defined.


Lemma polar_takes_shorter_turn_witness :
  exists angle, calc_position_cb polar_stepper_angle 3 [kin_move] 0 5 = Some (angle, polar_stepper_angle) /\
    Rabs (angle - 3) <= PI.
Proof.
  destruct (polar_takes_shorter_turn [kin_move] 0 kin_move 5 3) as (angle & E & H & _); [done| |].
  - pose proof PI_RGT_0. pose proof PI2_3_2 as Hp. lra.
  - exists angle. by split.
Defined.

Lemma arms_reach_tool_head_witness :
  exists h, calc_position_cb (delta_stepper 90000 0 0) 0 [kin_move] 0 5 = Some (h, delta_stepper 90000 0 0) /\
    (0 - 35)^2 + (0 - 45)^2 + (h - 5)^2 = 90000.
Proof.
  destruct (arms_reach_tool_head [kin_move] 0 kin_move 5 0 eq_refl) as [H _].
  destruct (H 90000 0 0) as (h & E & _ & Hd); [cbn; lra|]. exists h. split; [exact E|]. rewrite <- Hd. cbn. lra.
Defined.
