(* ===== verification/Itersolve.v ===== *)
(** * Iterative solver

    klippy/chelper/itersolve.c: find the times at which the position of a stepper crosses
    the next half step and submit them to the step compression.

    What the solver needs of the step compression is the class [StepSink].  The moves of
    the trapezoid queue are addressed by their index; leaving the list is stuck.  The seek
    loop has no bound of its own: [fuel] limits the iterations of one call. *)

From S2P Require Import Prelude Double Wire Command Msgblock Stepcompress Trapq Kinematics.

(** The calls of stepcompress.c that the solver makes. *)
Class StepSink (S D : Type) := {
  sink_get_step_dir : M S Z;
  sink_append : Z -> D -> D -> M S Z;
  sink_commit : M S Z;
}.

#[export] Instance stepcompress_sink {D} `{DoubleOps D} : StepSink (stepcompress D) D := {
  sink_get_step_dir := stepcompress_get_step_dir;
  sink_append := stepcompress_append;
  sink_commit := stepcompress_commit;
}.

(** The objects that a call works on. *)
Record iter (S D : Type) := mk_iter {
  it_sk : stepper_kinematics D; it_tq : trapq D; it_sc : S }.
Arguments mk_iter {S D}.
Arguments it_sk {S D}.
Arguments it_tq {S D}.
Arguments it_sc {S D}.
#[export] Instance eta_iter {S D} : Settable (iter S D) := fun s =>
  mk_iter (it_sk s) (it_tq s) (it_sc s).

(** [struct timepos]. *)
Record timepos (D : Type) := mk_timepos { tp_time : D; tp_position : D }.
Arguments mk_timepos {D}.
Arguments tp_time {D}.
Arguments tp_position {D}.

(** The variables of the seek loop. *)
Record seek (D : Type) := mk_seek {
  old_guess : timepos D; guess : timepos D;
  sdir : bool; is_dir_change : bool; have_bracket : bool; check_oscillate : bool;
  target : D; last_time : D; low_time : D; high_time : D }.
Arguments mk_seek {D}.
Arguments old_guess {D}.
Arguments guess {D}.
Arguments sdir {D}.
Arguments is_dir_change {D}.
Arguments have_bracket {D}.
Arguments check_oscillate {D}.
Arguments target {D}.
Arguments last_time {D}.
Arguments low_time {D}.
Arguments high_time {D}.

Section solver.
Context {S D : Type} `{DoubleOps D} `{Trig D} `{StepSink S D}.
Notation MI := (M (iter S D)).
Implicit Types s : seek D.

Definition sk_gets {A} (f : stepper_kinematics D -> A) : MI A := gets (fun w => f (it_sk w)).
Definition sk_modify (f : stepper_kinematics D -> stepper_kinematics D) : MI unit :=
  modify (fun w => w <| it_sk ::= f |>).

(** A call of the step compression. *)
Definition sink {A} (m : M S A) : MI A := fun w =>
  match m (it_sc w) with
  | Ret a sc => Ret a (w <| it_sc := sc |>)
  | Shut e sc => Shut e (w <| it_sc := sc |>)
  | Stuck => Stuck
  end.

(** [sk->calc_position_cb(sk, m, move_time)] for the move at index [i]. *)
Definition sk_calc (ms : list (move D)) (i : nat) (move_time : D) : MI D :=
  sk <- sk_gets (fun sk => sk) ;;
  '(x, k) <- deref (calc_position_cb (sk_kin sk) (sk_commanded_pos sk) ms i move_time) ;;
  sk_modify (fun sk => sk <| sk_kin := k |>) ;;
  ret x.

Definition SEEK_TIME_RESET : D := dlit 1 10000.

Definition dmin_end (x end_ : D) : D := if (end_ <? x)%D then end_ else x.

(** [sdir ? x : -x]. *)
Definition signed (dir : bool) (x : D) : D := if dir then x else (- x)%D.

(** [sdir ? target + half_step + half_step : target - half_step - half_step]. *)
Definition next_target (dir : bool) (half_step x : D) : D :=
  if dir then (x + half_step + half_step)%D else (x - half_step - half_step)%D.

Definition secant s : D :=
  let guess_dist := (tp_position (guess s) - target s)%D in
  let og_dist := (tp_position (old_guess s) - target s)%D in
  ((tp_time (old_guess s) * guess_dist - tp_time (guess s) * og_dist) / (guess_dist - og_dist))%D.

(** The next time to try, with the new [check_oscillate] and [high_time]; [None] is the
    [break] when there are no more steps. *)
Definition next_guess (end_ : D) s : option (D * bool * D) :=
  let next_time := secant s in
  if negb ((low_time s <? next_time)%D && (next_time <? high_time s)%D) then
    if have_bracket s then Some (((low_time s + high_time s) * dlit 1 2)%D, false, high_time s)
    else if (end_ <=? tp_time (guess s))%D then None
    else Some (high_time s, check_oscillate s,
               dmin_end (dofZ 2 * high_time s - last_time s)%D end_)
  else Some (next_time, check_oscillate s, high_time s).

(** The bounds after a guess that is not close enough. *)
Definition update_bounds (half_step : D) s : seek D :=
  let guess_dist := (tp_position (guess s) - target s)%D in
  let rel_dist := signed (sdir s) guess_dist in
  if (dzero <? rel_dist)%D then
    let stalled := have_bracket s && (tp_time (old_guess s) <=? low_time s)%D in
    mk_seek (if stalled && check_oscillate s then guess s else old_guess s) (guess s)
      (sdir s) (is_dir_change s) true (if stalled then true else check_oscillate s)
      (target s) (last_time s) (low_time s) (tp_time (guess s))
  else if (rel_dist <? - (half_step + half_step + dlit 1 100000000))%D then
    let dir := negb (sdir s) in
    mk_seek (old_guess s) (guess s) dir true true false
      (next_target dir half_step (target s)) (last_time s) (last_time s) (tp_time (guess s))
  else
    mk_seek (old_guess s) (guess s) (sdir s) (is_dir_change s) (have_bracket s) (check_oscillate s)
      (target s) (last_time s) (tp_time (guess s)) (high_time s).

(** After a step at the guessed time. *)
Definition reset_bounds (half_step end_ : D) s : seek D :=
  let t := tp_time (guess s) in
  let seek_time_delta := (dlit 3 2 * (t - last_time s))%D in
  let seek_time_delta := if (seek_time_delta <? dlit 1 1000000000)%D
                         then dlit 1 1000000000 else seek_time_delta in
  let seek_time_delta := if is_dir_change s && (SEEK_TIME_RESET <? seek_time_delta)%D
                         then SEEK_TIME_RESET else seek_time_delta in
  mk_seek (old_guess s) (guess s) (sdir s) false false false
    (next_target (sdir s) half_step (target s)) t t (dmin_end (t + seek_time_delta)%D end_).

Inductive seek_result := Seek_break (s : seek D) | Seek_return (ret : Z) | Seek_continue (s : seek D).

(** Submit the step at the guessed time. *)
Definition submit_step (print_time half_step end_ : D) s : MI seek_result :=
  r <- sink (sink_append (b2z (sdir s)) print_time (tp_time (guess s))) ;;
  if negb (r =? 0) then ret (Seek_return r)
  else ret (Seek_continue (reset_bounds half_step end_ s)).

(** One iteration of the seek loop. *)
Definition seek_step (ms : list (move D)) (i : nat) (print_time half_step end_ : D) s : MI seek_result :=
  match next_guess end_ s with
  | None => ret (Seek_break s)
  | Some (next_time, oscillate, high) =>
      position <- sk_calc ms i next_time ;;
      let s := mk_seek (guess s) (mk_timepos next_time position) (sdir s) (is_dir_change s)
                 (have_bracket s) oscillate (target s) (last_time s) (low_time s) high in
      let guess_dist := (position - target s)%D in
      if (dlit 1 1000000000 <? dabs guess_dist)%D then
        let rel_dist := signed (sdir s) guess_dist in
        let s := update_bounds half_step s in
        if negb (have_bracket s) || (dlit 1 1000000000 <? high_time s - low_time s)%D then
          when (negb (is_dir_change s) && (- half_step <=? rel_dist)%D) (sink sink_commit ;; ret tt) ;;
          ret (Seek_continue s)
        else submit_step print_time half_step end_ s
      else submit_step print_time half_step end_ s
  end.

Fixpoint seek_loop (fuel : nat) (ms : list (move D)) (i : nat) (print_time half_step end_ : D) s :
    MI (Z + seek D) :=
  match fuel with
  | O => stuck
  | Datatypes.S fuel =>
      r <- seek_step ms i print_time half_step end_ s ;;
      match r with
      | Seek_break s => ret (inr s)
      | Seek_return r => ret (inl r)
      | Seek_continue s => seek_loop fuel ms i print_time half_step end_ s
      end
  end.

(** The variables at the start of the seek loop. *)
Definition seek_init (commanded_pos half_step start end_ : D) (dir : bool) : seek D :=
  let old_guess := mk_timepos start commanded_pos in
  mk_seek old_guess old_guess dir false false false
    (commanded_pos + signed dir half_step)%D start start (dmin_end (start + SEEK_TIME_RESET)%D end_).

Definition itersolve_gen_steps_range (fuel : nat) (ms : list (move D)) (i : nat) (abs_start abs_end : D) :
    MI Z :=
  m <- deref (ms !! i) ;;
  sk <- sk_gets (fun sk => sk) ;;
  let half_step := (dlit 1 2 * sk_step_dist sk)%D in
  let start := (abs_start - m_print_time m)%D in
  let end_ := (abs_end - m_print_time m)%D in
  let start := if (start <? dzero)%D then dzero else start in
  let end_ := if (m_move_t m <? end_)%D then m_move_t m else end_ in
  dir <- sink sink_get_step_dir ;;
  r <- seek_loop fuel ms i (m_print_time m) half_step end_
         (seek_init (sk_commanded_pos sk) half_step start end_ (z2b dir)) ;;
  match r with
  | inl r => ret r
  | inr s =>
      sk_modify (fun sk => sk <| sk_commanded_pos := (target s - signed (sdir s) half_step)%D |>) ;;
      sk_modify (fun sk => sk <| sk_commanded_pos := post_cb (sk_kin sk) (sk_commanded_pos sk) |>) ;;
      ret 0
  end.

Definition check_active (sk : stepper_kinematics D) (m : move D) : bool :=
  let af := sk_active_flags sk in
  (has af AF_X && dnz (cx (m_axes_r m))) || (has af AF_Y && dnz (cy (m_axes_r m)))
  || (has af AF_Z && dnz (cz (m_axes_r m))).

(** [while (time >= m->print_time + m->move_t) m = next(m)] from index [i] on. *)
Fixpoint skip_done (time : D) (ms : list (move D)) (i : nat) : option nat :=
  match ms with
  | [] => None
  | m :: ms => if (m_end m <=? time)%D then skip_done time ms (i + 1)%nat else Some i
  end.

(** [while (--skip_count && pm->print_time > abs_start) pm = prev(pm)]; [n] is the value of
    [skip_count] after the first decrement. *)
Fixpoint skip_back (n : nat) (ms : list (move D)) (abs_start : D) (j : nat) : option nat :=
  match n with
  | O => Some j
  | Datatypes.S n =>
      m ← ms !! j;
      if (abs_start <? m_print_time m)%D then
        match j with O => None | Datatypes.S j => skip_back n ms abs_start j end
      else Some j
  end.

(** [do { gen(pm); pm = next(pm); } while (pm != m)] over the given indices. *)
Fixpoint gen_moves (fuel : nat) (ms : list (move D)) (js : list nat) (abs_start flush_time : D) : MI Z :=
  match js with
  | [] => ret 0
  | j :: js =>
      r <- itersolve_gen_steps_range fuel ms j abs_start flush_time ;;
      if negb (r =? 0) then ret r else gen_moves fuel ms js abs_start flush_time
  end.

(** The steps leading up to the activity of the stepper at move [i]. *)
Definition gen_pre_active (fuel : nat) (ms : list (move D)) (i skip_count : nat)
    (move_start last_flush_time force_steps_time flush_time : D) : MI Z :=
  pre <- sk_gets sk_gen_steps_pre_active ;;
  if negb (Nat.eqb skip_count 0) && dnz pre then
    let abs_start := (move_start - pre)%D in
    let abs_start := if (abs_start <? last_flush_time)%D then last_flush_time else abs_start in
    let abs_start := if (abs_start <? force_steps_time)%D then force_steps_time else abs_start in
    j <- deref (match i with
                | O => None
                | Datatypes.S p => skip_back (skip_count - 1) ms abs_start p
                end) ;;
    gen_moves fuel ms (seq j (i - j)) abs_start flush_time
  else ret 0.

(** The loop of [itersolve_generate_steps]; [rest] are the moves from index [i] on. *)
Fixpoint generate_loop (fuel : nat) (ms rest : list (move D)) (i skip_count : nat)
    (last_flush_time flush_time force_steps_time : D) : MI Z :=
  match rest with
  | [] => stuck
  | m :: rest =>
      let move_start := m_print_time m in
      let move_end := (move_start + m_move_t m)%D in
      sk <- sk_gets (fun sk => sk) ;;
      if check_active sk m then
        r <- gen_pre_active fuel ms i skip_count move_start last_flush_time force_steps_time flush_time ;;
        if negb (r =? 0) then ret r
        else
        r <- itersolve_gen_steps_range fuel ms i last_flush_time flush_time ;;
        if negb (r =? 0) then ret r
        else if (flush_time <=? move_end)%D then
          sk_modify (fun sk => sk <| sk_last_move_time := flush_time |>) ;; ret 0
        else
          sk_modify (fun sk => sk <| sk_last_move_time := move_end |>) ;;
          post <- sk_gets sk_gen_steps_post_active ;;
          generate_loop fuel ms rest (i + 1)%nat 0%nat last_flush_time flush_time (move_end + post)%D
      else
        r <- (if (move_start <? force_steps_time)%D then
                let abs_end := if (flush_time <? force_steps_time)%D then flush_time else force_steps_time in
                itersolve_gen_steps_range fuel ms i last_flush_time abs_end
              else ret 0) ;;
        if negb (r =? 0) then ret r
        else
        let skip_count := if (move_start <? force_steps_time)%D then 1%nat else (skip_count + 1)%nat in
        pre <- sk_gets sk_gen_steps_pre_active ;;
        if (flush_time + pre <=? move_end)%D then ret 0
        else generate_loop fuel ms rest (i + 1)%nat skip_count last_flush_time flush_time force_steps_time
  end.

Definition itersolve_generate_steps (fuel : nat) (flush_time : D) : MI Z :=
  last_flush_time <- sk_gets sk_last_flush_time ;;
  sk_modify (fun sk => sk <| sk_last_flush_time := flush_time |>) ;;
  has_tq <- sk_gets sk_tq ;;
  if negb has_tq then ret 0
  else
    modify (fun w => w <| it_tq ::= trapq_check_sentinels |>) ;;
    ms <- gets (fun w => tq_moves (it_tq w)) ;;
    i <- deref (skip_done last_flush_time ms 0) ;;
    sk <- sk_gets (fun sk => sk) ;;
    generate_loop fuel ms (drop i ms) i 0 last_flush_time flush_time
      (sk_last_move_time sk + sk_gen_steps_post_active sk)%D.

(** The loop of [itersolve_check_active] on the moves from the first one on. *)
Fixpoint active_loop (sk : stepper_kinematics D) (flush_time : D) (ms : list (move D)) : option D :=
  match ms with
  | [] => None
  | m :: ms =>
      if check_active sk m then Some (m_print_time m)
      else if (flush_time <=? m_end m)%D then Some dzero
      else active_loop sk flush_time ms
  end.

Definition itersolve_check_active (flush_time : D) : MI D :=
  has_tq <- sk_gets sk_tq ;;
  if negb has_tq then ret dzero
  else
    modify (fun w => w <| it_tq ::= trapq_check_sentinels |>) ;;
    ms <- gets (fun w => tq_moves (it_tq w)) ;;
    sk <- sk_gets (fun sk => sk) ;;
    i <- deref (skip_done (sk_last_flush_time sk) ms 0) ;;
    deref (active_loop sk flush_time (drop i ms)).

Definition itersolve_is_active_axis (axis : Z) (sk : stepper_kinematics D) : Z :=
  if (axis <? 120) || (122 <? axis) then 0
  else b2z (has (sk_active_flags sk) (Z.shiftl AF_X (axis - 120))).

(** The queue itself is [it_tq]. *)
Definition itersolve_set_trapq (tq : trapq D) : MI unit :=
  modify (fun w => w <| it_tq := tq |> <| it_sk ::= fun sk => sk <| sk_tq := true |> |>).

Definition itersolve_set_stepcompress (sc : S) (step_dist : D) : MI unit :=
  modify (fun w => w <| it_sc := sc |> <| it_sk ::= fun sk => sk <| sk_step_dist := step_dist |> |>).

Definition itersolve_calc_position_from_coord (x y z : D) : MI D :=
  let m := move_alloc <| m_start_pos := mk_coord x y z |> <| m_move_t := dofZ 1000 |> in
  sk_calc [m] 0 (dofZ 500).

Definition itersolve_set_position (x y z : D) : MI unit :=
  pos <- itersolve_calc_position_from_coord x y z ;;
  sk_modify (fun sk => sk <| sk_commanded_pos := pos |>).

Definition itersolve_get_commanded_pos : MI D := sk_gets sk_commanded_pos.
End solver.
Arguments seek_result D : clear implicits.
