(* ===== verification/ItersolveFacts.v ===== *)
(** * Properties of the iterative solver

    Over the real numbers and for every kinematics and step compression: the solver submits
    step times in order and within the requested range, and the commanded position counts
    the steps. *)

From S2P Require Import Prelude Double Wire Command Msgblock Stepcompress Trapq TrapqFacts Kinematics KinFacts Itersolve.
From Stdlib Require Import Reals Lra.
From Stdlib Require Import Sorting.Sorted.
#[local] Open Scope R_scope.

(** ** A step compression with a log

    The calls are passed on; the log keeps the direction and the time in the move of every
    step that the step compression has accepted. *)
#[export] Instance logged {S} `{StepSink S R} : StepSink (S * list (Z * R)) R := {
  sink_get_step_dir w :=
    match sink_get_step_dir w.1 with
    | Ret d s => Ret d (s, w.2) | Shut e s => Shut e (s, w.2) | Stuck => Stuck
    end;
  sink_append dir print_time t w :=
    match sink_append dir print_time t w.1 with
    | Ret r s => Ret r (s, if (r =? 0)%Z then w.2 ++ [(dir, t)] else w.2)
    | Shut e s => Shut e (s, w.2) | Stuck => Stuck
    end;
  sink_commit w :=
    match sink_commit w.1 with
    | Ret r s => Ret r (s, w.2) | Shut e s => Shut e (s, w.2) | Stuck => Stuck
    end;
}.

Section solver.
Context {S : Type} {SS : StepSink S R}.
Context (ms : list (move R)) (i : nat) (print_time half_step start end_ c0 : R).
Notation world := (iter (S * list (Z * R)) R).
Implicit Types (s : seek R) (w : world) (log : list (Z * R)).
#[local] Set Default Proof Using "Type*".

Definition log_of w : list (Z * R) := (it_sc w).2.

(** The direction of a step: 1 is forward. *)
Definition dir_sign (d : Z) : R := if (d =? 0)%Z then -1 else 1.
Definition net_steps log : R := foldr (fun p n => dir_sign p.1 + n) 0 log.

Lemma net_steps_snoc log p : net_steps (log ++ [p]) = net_steps log + dir_sign p.1.
Proof using Type. induction log as [|q log IH]; simpl; [lra|]. unfold net_steps in *. simpl. rewrite IH. lra. Qed.

(** ** The bounds of the search *)

Definition bounds s : Prop :=
  start <= last_time s /\ last_time s <= low_time s /\ low_time s <= high_time s /\ high_time s <= end_.

Lemma dmin_end_spec (x : R) : dmin_end x end_ = Rmin x end_.
Proof using Type.
  unfold dmin_end. destruct (dltb_spec end_ x); [rewrite Rmin_right|rewrite Rmin_left]; lra.
Qed.

(** A guess is within the old and the new bounds. *)
Lemma next_guess_bounds s t osc high :
  bounds s -> next_guess end_ s = Some (t, osc, high) ->
  low_time s <= t /\ t <= high /\ high_time s <= high <= end_ /\ t <= end_.
Proof using Type.
  intros (H1 & H2 & H3 & H4). unfold next_guess. generalize (secant s) as x. intros x.
  destruct (dltb_spec (low_time s) x) as [A|A], (dltb_spec x (high_time s)) as [B|B];
    cbn [andb negb]; [intros E; injection E as <- <- <-; lra|..];
    (destruct (have_bracket s); [intros E; injection E as <- <- <-; unfold dlit; cbn; lra|]);
    (destruct (dleb_spec end_ (tp_time (guess s))); [done|]); intros E; injection E as <- <- <-;
    rewrite dmin_end_spec; cbn; unfold Rmin; destruct (Rle_dec _ _); lra.
Qed.

Lemma update_bounds_keeps s :
  bounds s -> low_time s <= tp_time (guess s) -> tp_time (guess s) <= high_time s ->
  bounds (update_bounds half_step s) /\ last_time (update_bounds half_step s) = last_time s /\
  guess (update_bounds half_step s) = guess s.
Proof using Type.
  intros (H1 & H2 & H3 & H4) Hlo Hhi. unfold update_bounds, bounds.
  destruct (dltb dzero _); [|destruct (dltb _ _)]; cbn; repeat split; lra.
Qed.

Lemma reset_bounds_keeps s :
  bounds s -> last_time s <= tp_time (guess s) <= end_ ->
  bounds (reset_bounds half_step end_ s) /\ last_time (reset_bounds half_step end_ s) = tp_time (guess s).
Proof using Type.
  intros (H1 & H2 & H3 & H4) Ht. unfold reset_bounds, bounds. cbn [last_time low_time high_time].
  rewrite dmin_end_spec.
  match goal with |- context [Rmin (_ + ?x)%D _] => assert (Hd : 0 <= x); [|revert Hd; generalize x as d] end.
  { destruct (_ && _); [unfold SEEK_TIME_RESET, dlit; cbn; lra|].
    match goal with |- context [dltb ?a ?b] => destruct (dltb_spec a b) as [_|Hge] end; unfold dlit in *; cbn in *; lra. }
  intros d Hd. split; [|done]. cbn. split; [lra|]. split; [lra|]. unfold Rmin. destruct (Rle_dec _ _); lra.
Qed.

(** ** The position that has been reached *)

Definition reached s : R := target s - signed (sdir s) half_step.

Lemma update_bounds_reached s : reached (update_bounds half_step s) = reached s.
Proof using Type.
  unfold update_bounds, reached. destruct (dltb dzero _); [done|]. destruct (dltb _ _); [|done].
  cbn. destruct (sdir s); cbn; lra.
Qed.

Lemma reset_bounds_reached s :
  reached (reset_bounds half_step end_ s) = reached s + 2 * half_step * dir_sign (b2z (sdir s)).
Proof using Type. unfold reset_bounds, reached. cbn. unfold dir_sign. destruct (sdir s); cbn; lra. Qed.

(** ** The invariant of the loop *)

(** The steps submitted since the log was [log0]. *)
Record seek_inv (log0 : list (Z * R)) s w : Prop := {
  si_bounds : bounds s;
  si_steps : exists steps, log_of w = log0 ++ steps /\
    StronglySorted (fun p q => p.2 <= q.2) steps /\
    Forall (fun p => start <= p.2 <= last_time s) steps /\
    reached s = c0 + 2 * half_step * net_steps steps;
}.

Lemma seek_inv_step log0 s s' w w' :
  seek_inv log0 s w -> bounds s' -> last_time s' = last_time s -> reached s' = reached s ->
  log_of w' = log_of w -> seek_inv log0 s' w'.
Proof using Type.
  intros [Hb (steps & E & Hs & HF & Hr)] Hb' El Er Elog. split; [done|].
  exists steps. rewrite Elog, El, Er. done.
Qed.

Lemma seek_inv_submit log0 s w w' :
  seek_inv log0 s w -> last_time s <= tp_time (guess s) <= end_ ->
  log_of w' = log_of w ++ [(b2z (sdir s), tp_time (guess s))] ->
  seek_inv log0 (reset_bounds half_step end_ s) w'.
Proof using Type.
  intros [Hb (steps & E & Hs & HF & Hr)] Ht Elog.
  destruct (reset_bounds_keeps s Hb Ht) as [Hb' El]. split; [done|].
  exists (steps ++ [(b2z (sdir s), tp_time (guess s))]). rewrite Elog, E, El. destruct Hb as (B1 & _).
  split; [by rewrite app_assoc|]. split; [|split].
  - clear -Hs HF Ht. induction Hs as [|p l Hs IH HF']; simpl; [by repeat constructor|].
    apply Forall_cons in HF as [Hp HF]. constructor; [by apply IH|]. apply Forall_app. split; [done|].
    apply Forall_singleton. simpl. lra.
  - apply Forall_app. split; [|apply Forall_singleton; simpl; lra].
    eapply Forall_impl; [exact HF|]. simpl. intros p Hp. lra.
  - rewrite reset_bounds_reached, Hr, net_steps_snoc. simpl. lra.
Qed.

(** ** One iteration *)

Lemma sk_calc_log t w x w' : sk_calc ms i t w = Ret x w' -> log_of w' = log_of w.
Proof using Type.
  unfold sk_calc, sk_gets, sk_modify, bind, gets. cbn [deref].
  destruct (calc_position_cb _ _ _ _ _) as [[y k]|]; [|done]. by intros [= <- <-].
Qed.

Lemma commit_log b w x w' :
  when b (sink sink_commit ;; ret tt) w = Ret x w' -> log_of w' = log_of w.
Proof using Type.
  destruct b; cbn [when]; [|by intros [= <- <-]]. unfold sink, bind. cbn [sink_commit logged].
  destruct (sink_commit (it_sc w).1); [|done..]. by intros [= <- <-].
Qed.

Lemma submit_inv log0 s w r w' :
  seek_inv log0 s w -> last_time s <= tp_time (guess s) <= end_ ->
  submit_step print_time half_step end_ s w = Ret r w' ->
  match r with
  | Seek_continue s' => seek_inv log0 s' w'
  | Seek_return z => z <> 0%Z /\ log_of w' = log_of w
  | Seek_break _ => False
  end.
Proof using Type.
  intros Hi Ht H. unfold submit_step, sink, bind in H. cbn [sink_append logged] in H.
  destruct (sink_append _ _ _ (it_sc w).1) as [z sc| |] eqn:E; [|done..].
  destruct (Z.eqb_spec z 0) as [->|Hz]; cbn [negb] in H; injection H as <- <-; [|by split].
  by apply (seek_inv_submit log0 s w).
Qed.

Lemma seek_step_inv log0 s w r w' :
  seek_inv log0 s w -> seek_step ms i print_time half_step end_ s w = Ret r w' ->
  match r with
  | Seek_continue s' => seek_inv log0 s' w'
  | Seek_return z => z <> 0%Z /\ exists s', seek_inv log0 s' w'
  | Seek_break s' => s' = s /\ w' = w
  end.
Proof using Type.
  intros Hi H. unfold seek_step in H.
  destruct (next_guess end_ s) as [[[t osc] high]|] eqn:Eg; [|by injection H as <- <-].
  destruct (next_guess_bounds s t osc high (si_bounds _ _ _ Hi) Eg) as (Hlo & Hhi & Hh & He).
  apply bind_Ret_inv in H as (x & w1 & Hc & H). apply sk_calc_log in Hc.
  set (s1 := mk_seek (guess s) (mk_timepos t x) (sdir s) (is_dir_change s) (have_bracket s) osc
                (target s) (last_time s) (low_time s) high) in *.
  pose proof (si_bounds _ _ _ Hi) as (B1 & B2 & B3 & B4).
  assert (Hi1 : seek_inv log0 s1 w1).
  { apply (seek_inv_step log0 s s1 w w1); [done| |done|done|done]. unfold bounds. cbn. lra. }
  assert (Hsub : forall s2, seek_inv log0 s2 w1 -> last_time s2 = last_time s -> guess s2 = guess s1 ->
    submit_step print_time half_step end_ s2 w1 = Ret r w' ->
    match r with
    | Seek_continue s' => seek_inv log0 s' w'
    | Seek_return z => z <> 0%Z /\ exists s', seek_inv log0 s' w'
    | Seek_break s' => s' = s /\ w' = w
    end).
  { intros s2 Hi2 El Egu Hs. assert (Ht : last_time s2 <= tp_time (guess s2) <= end_) by (rewrite El, Egu; cbn; lra).
    pose proof (submit_inv log0 s2 w1 r w' Hi2 Ht Hs) as Hr. destruct r as [|z|]; [done| |done].
    destruct Hr as [Hz Hl]. split; [done|]. exists s2.
    apply (seek_inv_step log0 s2 s2 w1 w'); try done. apply Hi2. }
  cbv zeta in H. destruct (dltb _ _); [|by apply (Hsub s1)].
  destruct (update_bounds_keeps s1 (si_bounds _ _ _ Hi1)) as (Hb2 & El2 & Eg2); [cbn; lra|cbn; lra|].
  assert (Hi2 : seek_inv log0 (update_bounds half_step s1) w1).
  { apply (seek_inv_step log0 s1 _ w1 w1); try done. apply update_bounds_reached. }
  destruct (_ || _); [|by apply (Hsub (update_bounds half_step s1))].
  apply bind_Ret_inv in H as ([] & w2 & Hc2 & H). apply commit_log in Hc2. injection H as <- <-.
  by apply (seek_inv_step log0 (update_bounds half_step s1) _ w1 w2).
Qed.

(** ** The whole loop *)

(** One iteration that goes on. *)
Definition iterates (a b : seek R * world) : Prop :=
  seek_step ms i print_time half_step end_ a.1 a.2 = Ret (Seek_continue b.1) b.2.

Lemma init_inv dir w : start <= end_ -> seek_inv (log_of w) (seek_init c0 half_step start end_ dir) w.
Proof using Type.
  intros He. split.
  - unfold bounds. cbn [seek_init last_time low_time high_time]. rewrite dmin_end_spec.
    unfold SEEK_TIME_RESET, dlit, Rmin. cbn. destruct (Rle_dec _ _); lra.
  - exists []. split; [by rewrite app_nil_r|]. split; [constructor|]. split; [constructor|].
    unfold reached. cbn. lra.
Qed.

Lemma seek_loop_inv fuel log0 s w r w' :
  seek_inv log0 s w -> seek_loop fuel ms i print_time half_step end_ s w = Ret r w' ->
  exists s', seek_inv log0 s' w' /\ match r with inl z => z <> 0%Z | inr sb => sb = s' end.
Proof using Type.
  revert s w. induction fuel as [|fuel IH]; intros s w Hi H; [done|]. cbn [seek_loop] in H.
  apply bind_Ret_inv in H as (q & w1 & H1 & H). pose proof (seek_step_inv log0 s w q w1 Hi H1) as Hq.
  destruct q as [sb|z|sc].
  - destruct Hq as [-> ->]. injection H as <- <-. by exists s.
  - destruct Hq as (Hz & s' & Hi'). injection H as <- <-. by exists s'.
  - by apply (IH sc w1).
Qed.

(** Nothing in the loop changes the commanded position. *)
Definition commanded w : R := sk_commanded_pos (it_sk w).

Lemma sink_commanded {A} (m : M (S * list (Z * R)) A) w x w' : sink m w = Ret x w' -> commanded w' = commanded w.
Proof using Type. unfold sink. destruct (m (it_sc w)); [|done..]. by intros [= <- <-]. Qed.

Lemma sk_calc_commanded t w x w' : sk_calc ms i t w = Ret x w' -> commanded w' = commanded w.
Proof using Type.
  unfold sk_calc, sk_gets, sk_modify, bind, gets. cbn [deref].
  destruct (calc_position_cb _ _ _ _ _) as [[y k]|]; [|done]. by intros [= <- <-].
Qed.

Lemma submit_commanded s w r w' :
  submit_step print_time half_step end_ s w = Ret r w' -> commanded w' = commanded w.
Proof using Type.
  unfold submit_step. intros H. apply bind_Ret_inv in H as (z & w1 & H1 & H). apply sink_commanded in H1.
  rewrite <- H1. destruct (negb _); by injection H as <- <-.
Qed.

Lemma seek_step_commanded s w r w' :
  seek_step ms i print_time half_step end_ s w = Ret r w' -> commanded w' = commanded w.
Proof using Type.
  unfold seek_step. destruct (next_guess end_ s) as [[[t osc] high]|]; [|by intros [= <- <-]].
  intros H. apply bind_Ret_inv in H as (x & w1 & Hc & H). apply sk_calc_commanded in Hc. rewrite <- Hc.
  cbv zeta in H. destruct (dltb _ _); [|by eapply submit_commanded].
  destruct (_ || _); [|by eapply submit_commanded].
  apply bind_Ret_inv in H as ([] & w2 & H2 & H). injection H as <- <-.
  destruct (_ && _); cbn [when] in H2; [|by injection H2 as <-].
  apply bind_Ret_inv in H2 as (z & w3 & H2 & H3). apply sink_commanded in H2. injection H3 as <-. done.
Qed.

Lemma seek_loop_commanded fuel s w r w' :
  seek_loop fuel ms i print_time half_step end_ s w = Ret r w' -> commanded w' = commanded w.
Proof using Type.
  revert s w. induction fuel as [|fuel IH]; intros s w H; [done|]. cbn [seek_loop] in H.
  apply bind_Ret_inv in H as (q & w1 & H1 & H). apply seek_step_commanded in H1. rewrite <- H1.
  destruct q; [by injection H as <- <-..|by eapply IH].
Qed.

(** C26: The solver submits its steps in order.  In every iteration of the seek loop of
    [itersolve_gen_steps_range] (also if the loop never ended), the steps submitted so far
    are in the order of their times and within the searched range of the move, and the
    position searched for is half a step, in the current direction, from the starting
    position advanced by the steps submitted (forward minus backward). *)
Theorem solver_steps_in_order dir w s' w' :
  start <= end_ -> reach iterates (seek_init c0 half_step start end_ dir, w) (s', w') ->
  exists steps, log_of w' = log_of w ++ steps /\
    StronglySorted (fun p q => p.2 <= q.2) steps /\
    Forall (fun p => start <= p.2 <= end_) steps /\
    target s' = c0 + 2 * half_step * net_steps steps + signed (sdir s') half_step.
Proof using Type.
  intros He Hr.
  assert (Hi : seek_inv (log_of w) s' w').
  { apply (reach_invariant iterates (fun p => seek_inv (log_of w) p.1 p.2)) in Hr; [done|by apply init_inv|].
    intros [a wa] [b wb] Ha Hab. exact (seek_step_inv _ _ _ _ _ Ha Hab). }
  destruct Hi as [(B1 & B2 & B3 & B4) (steps & E & Hs & HF & Hreach)]. exists steps.
  do 2 (split; [done|]). split; [|unfold reached in Hreach; cbn in *; lra].
  eapply Forall_impl; [exact HF|]. simpl. intros p Hp. lra.
Qed.
End solver.

(** The commanded position counts the steps.  When [itersolve_gen_steps_range] returns 0,
    [commanded_pos] has moved by [step_dist] for each step submitted, forward or backward
    (then normalised by [post_cb], which only the polar angle has); an error of the step
    compression leaves it unchanged. *)
Theorem commanded_pos_counts_steps {S} `{StepSink S R} fuel ms i abs_start abs_end
    (w w' : iter (S * list (Z * R)) R) r m :
  ms !! i = Some m -> abs_start <= abs_end -> m_print_time m <= abs_end -> 0 <= m_move_t m ->
  abs_start <= m_print_time m + m_move_t m ->
  itersolve_gen_steps_range fuel ms i abs_start abs_end w = Ret r w' ->
  exists steps, log_of w' = log_of w ++ steps /\
    StronglySorted (fun p q => p.2 <= q.2) steps /\
    sk_commanded_pos (it_sk w') =
      (if (r =? 0)%Z
       then post_cb (sk_kin (it_sk w'))
              (sk_commanded_pos (it_sk w) + sk_step_dist (it_sk w) * net_steps steps)
       else sk_commanded_pos (it_sk w)).
Proof.
  intros Hm H1 H2 H3 H4 Hrun. unfold itersolve_gen_steps_range in Hrun. rewrite Hm in Hrun.
  cbn [deref] in Hrun. rewrite bind_ret_l in Hrun.
  apply bind_Ret_inv in Hrun as (sk & w0 & Hsk & Hrun). injection Hsk as <- <-.
  set (hs := (dlit 1 2 * sk_step_dist (it_sk w))%D) in *.
  apply bind_Ret_inv in Hrun as (dir & w1 & Hdir & Hrun).
  assert (Hl1 : log_of w1 = log_of w).
  { unfold sink in Hdir. cbn [sink_get_step_dir logged] in Hdir.
    destruct (sink_get_step_dir (it_sc w).1); [|done..]. by injection Hdir as <- <-. }
  apply sink_commanded in Hdir. apply bind_Ret_inv in Hrun as (q & w2 & Hloop & Hrun).
  set (start := if dltb _ dzero then _ else _) in *. set (end_ := if dltb (m_move_t m) _ then _ else _) in *.
  assert (Hse : start <= end_).
  { unfold start, end_. repeat rcase; cbn in *; lra. }
  pose proof (seek_loop_commanded _ _ _ _ _ _ _ _ _ _ Hloop) as Hcmd. rewrite Hdir in Hcmd.
  destruct (seek_loop_inv ms i (m_print_time m) hs start end_ (sk_commanded_pos (it_sk w)) fuel (log_of w1) _ w1 q w2
    (init_inv _ _ _ _ _ w1 Hse) Hloop) as (s' & [_ (steps & E & Hs & _ & Hr)] & Hq).
  exists steps. rewrite <- Hl1. destruct q as [z|sb].
  - injection Hrun as <- <-. do 2 (split; [done|]). by destruct (Z.eqb_spec z 0).
  - subst sb. injection Hrun as <- <-. do 2 (split; [done|]). cbn [Z.eqb].
    change (post_cb (sk_kin (it_sk w2)) (reached hs s')
            = post_cb (sk_kin (it_sk w2)) (sk_commanded_pos (it_sk w) + sk_step_dist (it_sk w) * net_steps steps)).
    f_equal. rewrite Hr. unfold hs, dlit. cbn. lra.
Qed.

(** ** Witnesses *)

(** A cartesian stepper at the start of a move, over the step compression itself. *)
Definition iter_demo : iter (stepcompress R * list (Z * R)) R :=
  mk_iter (cartesian_stepper_alloc 120 <| sk_step_dist := 1 |> <| sk_commanded_pos := 10 |> <| sk_tq := true |>)
    trapq_alloc (stepcompress_alloc 3, []).

(** The first guess is where the search interval ends, before the step. *)
Lemma demo_first_guess :
  seek_step [kin_move] 0 2 (1 / 2) 10 (seek_init 10 (1 / 2) 0 10 true) iter_demo
  = Ret (Seek_continue (mk_seek (mk_timepos 0 10)
           (mk_timepos (0 + 1 / 10000) (10 + 1 * ((5 + 0 * (0 + 1 / 10000)) * (0 + 1 / 10000))))
           true false false false (10 + 1 / 2) 0 (0 + 1 / 10000) (2 * (0 + 1 / 10000) - 0))) iter_demo.
Proof.
  assert (Hh : high_time (seek_init 10 (1 / 2) 0 10 true) = 0 + 1 / 10000).
  { unfold seek_init. cbn [high_time]. unfold dmin_end.
    destruct (dltb_spec 10 (0 + SEEK_TIME_RESET)%D) as [H|_]; [unfold SEEK_TIME_RESET, dlit in H; cbn in H; lra|].
    unfold SEEK_TIME_RESET, dlit. cbn. reflexivity. }
  assert (Hg : next_guess 10 (seek_init 10 (1 / 2) 0 10 true) = Some (0 + 1 / 10000, false, 2 * (0 + 1 / 10000) - 0)).
  { unfold next_guess. rewrite Hh. cbn [low_time seek_init have_bracket guess tp_time check_oscillate last_time].
    assert (Hs : secant (seek_init 10 (1 / 2) 0 10 true) = 0) by (unfold secant; cbn; unfold Rdiv; ring).
    rewrite Hs. destruct (dltb_spec 0 0) as [H|_]; [lra|]. cbn [andb negb].
    destruct (dleb_spec 10 0) as [H|_]; [lra|]. unfold dmin_end.
    rcase; [exfalso; cbn in *; lra|reflexivity]. }
  set (t := 0 + 1 / 10000) in *. set (x := 10 + 1 * ((5 + 0 * t) * t)).
  assert (Hx : x = 10 + 1 / 2000) by (unfold x, t; lra).
  unfold seek_step. rewrite Hg.
  assert (Hc : sk_calc [kin_move] 0 t iter_demo = Ret x iter_demo).
  { unfold sk_calc, bind, sk_gets, gets, deref. cbn -[IZR Rplus Rmult]. reflexivity. }
  rewrite (bind_Ret _ _ _ _ _ Hc). cbv zeta.
  cbn [target sdir old_guess guess is_dir_change have_bracket last_time low_time seek_init].
  set (s1 := mk_seek _ _ _ _ _ _ _ _ _ _).
  assert (Hu : update_bounds (1 / 2) s1 = mk_seek (mk_timepos 0 10) (mk_timepos t x) true false false false
                 (10 + 1 / 2) 0 t (2 * t - 0)).
  { unfold update_bounds. rcase; [exfalso; cbn in *; lra|]. rcase; [|reflexivity].
    exfalso. unfold dlit in *. cbn in *. lra. }
  rewrite Hu. rcase.
  2: { exfalso. unfold dlit in *. cbn in *. rewrite Rabs_left in * by lra. lra. }
  cbn [have_bracket negb orb is_dir_change andb]. by rcase.
Qed.

Lemma solver_steps_in_order_witness :
  exists s', reach (iterates [kin_move] 0 2 (1 / 2) 10)
      (seek_init 10 (1 / 2) 0 10 true, iter_demo) (s', iter_demo) /\
    s' <> seek_init 10 (1 / 2) 0 10 true /\ target s' = 10 + 1 / 2.
Proof.
  set (s' := mk_seek (mk_timepos 0 10)
    (mk_timepos (0 + 1 / 10000) (10 + 1 * ((5 + 0 * (0 + 1 / 10000)) * (0 + 1 / 10000))))
    true false false false (10 + 1 / 2) 0 (0 + 1 / 10000) (2 * (0 + 1 / 10000) - 0)).
  assert (Hr : reach (iterates [kin_move] 0 2 (1 / 2) 10)
      (seek_init 10 (1 / 2) 0 10 true, iter_demo) (s', iter_demo)).
  { eapply reach_step; [apply reach_refl|]. exact demo_first_guess. }
  exists s'. split; [exact Hr|]. split; [intros E; apply (f_equal (fun s => tp_time (guess s))) in E; cbn in E; lra|].
  destruct (solver_steps_in_order [kin_move] 0 2 (1 / 2) 0 10 10 true iter_demo s' iter_demo ltac:(lra) Hr)
    as (steps & El & _ & _ & Ht).
  assert (Hnil : steps = []) by (symmetry in El; exact El). rewrite Ht, Hnil. cbn. lra.
Defined.

(** A range that has already been searched. *)
Lemma commanded_pos_counts_steps_witness :
  exists w' steps, itersolve_gen_steps_range 5 [kin_move] 0 4 4 iter_demo = Ret 0%Z w' /\
    log_of w' = steps /\
    sk_commanded_pos (it_sk w') = post_cb (sk_kin (it_sk w')) (10 + 1 * net_steps steps).
Proof.
  assert (Hrun : exists w', itersolve_gen_steps_range 5 [kin_move] 0 4 4 iter_demo = Ret 0%Z w').
  { eexists. unfold itersolve_gen_steps_range. cbn [lookup list_lookup deref]. rewrite bind_ret_l.
    rewrite (bind_Ret (sk_gets (fun sk => sk)) _ iter_demo (it_sk iter_demo) iter_demo eq_refl). cbv zeta.
    assert (Hd : sink sink_get_step_dir iter_demo = Ret 0%Z iter_demo).
    { unfold sink. cbn -[IZR Rplus Rmult]. reflexivity. }
    rewrite (bind_Ret _ _ _ _ _ Hd).
    set (start := if dltb _ dzero then _ else _). set (end_ := if dltb _ _ then _ else _).
    assert (Es : start = 2) by (unfold start; rcase; cbn in *; lra).
    assert (Ee : end_ = 2) by (unfold end_; rcase; cbn in *; lra).
    cbn [seek_loop]. unfold seek_step.
    assert (Hg : next_guess end_ (seek_init (sk_commanded_pos (it_sk iter_demo))
      (dlit 1 2 * sk_step_dist (it_sk iter_demo))%D start end_ (z2b 0)) = None).
    { unfold next_guess. rewrite Es, Ee. cbn [low_time high_time have_bracket guess tp_time seek_init].
      assert (Hb : (dltb 2 (secant (seek_init 10 (dlit 1 2 * 1)%D 2 2 (z2b 0))) &&
        dltb (secant (seek_init 10 (dlit 1 2 * 1)%D 2 2 (z2b 0))) (dmin_end (2 + SEEK_TIME_RESET)%D 2)) = false).
      { unfold dmin_end. rcase; [|done]. rcase; [|done]. exfalso. revert H0. rcase; intros; lra. }
      change (sk_commanded_pos (it_sk iter_demo)) with 10. change (sk_step_dist (it_sk iter_demo)) with 1.
      rewrite Hb. cbn [negb]. rcase; [done|lra]. }
    rewrite Hg. reflexivity. }
  destruct Hrun as [w' Hrun].
  destruct (commanded_pos_counts_steps 5 [kin_move] 0 4 4 iter_demo w' 0 kin_move) as (steps & El & _ & Hc);
    [done|lra|cbn; lra|cbn; lra|cbn; lra|exact Hrun|].
  exists w', steps. split; [exact Hrun|]. split; [exact El|exact Hc].
Defined.
