(* ===== verification/Pollreactor.v ===== *)
(** * The reactor of the host's background thread

    klippy/chelper/pollreactor.c: a loop that runs timer callbacks and waits for
    activity on file descriptors.  The callbacks and the system call [poll] are
    parameters; [wake] lists the wake-up times of the timers. *)

From S2P Require Import Prelude Double.
From Stdlib Require Import Reals Lra.

Section constants.
Context {D : Type} `{DoubleOps D}.

Definition PR_NOW : D := dofZ 0.
Definition PR_NEVER : D := dofZ 9999999999999999.

(** [ceil] of the C library, on finite arguments. *)
Definition dceil (x : D) : D :=
  let t := dtruncZ x in if (dofZ t <? x)%D then dofZ (t + 1) else dofZ t.
End constants.

Record pollreactor (D : Type) := mk_pr {
  pr_num_fds : Z; pr_must_exit : Z; pr_next_timer : D; pr_wake : list D }.
Arguments mk_pr {D}.
Arguments pr_num_fds {D}.
Arguments pr_must_exit {D}.
Arguments pr_next_timer {D}.
Arguments pr_wake {D}.
#[export] Instance eta_pr {D} : Settable (pollreactor D) := fun p =>
  mk_pr (pr_num_fds p) (pr_must_exit p) (pr_next_timer p) (pr_wake p).

Section pollreactor.
Context {D : Type} `{DoubleOps D}.

Definition pollreactor_alloc (num_fds num_timers : Z) : pollreactor D :=
  mk_pr num_fds 0 PR_NEVER (repeat PR_NEVER (Z.to_nat num_timers)).

Definition pollreactor_add_timer (pos : nat) (pr : pollreactor D) : pollreactor D :=
  pr <| pr_wake ::= <[pos := PR_NEVER]> |>.

(** The timers of the code are constants below [num_timers]. *)
Definition pollreactor_get_timer (pos : nat) (pr : pollreactor D) : D :=
  default PR_NEVER (pr_wake pr !! pos).

Definition pollreactor_update_timer (pos : nat) (waketime : D) (pr : pollreactor D) :
    pollreactor D :=
  let pr := pr <| pr_wake ::= <[pos := waketime]> |> in
  if (waketime <? pr_next_timer pr)%D then pr <| pr_next_timer := waketime |> else pr.

Definition pollreactor_do_exit (pr : pollreactor D) : pollreactor D :=
  pr <| pr_must_exit := 1 |>.

Definition pollreactor_is_exit (pr : pollreactor D) : Z := pr_must_exit pr.

(** The sleep duration at the end of [pollreactor_check_timers]. *)
Definition poll_timeout (next_timer eventtime : D) : Z :=
  let timeout := dceil ((next_timer - eventtime) * dofZ 1000)%D in
  if (timeout <? dofZ 1)%D then 1
  else if (dofZ 1000 <? timeout)%D then 1000 else i32 (dtruncZ timeout).

Context {W : Type} `{Part W (pollreactor D)}.
Context (timer_callback : nat -> D -> M W D).

Definition pr_get : M W (pollreactor D) := gets part_get.
Definition pr_mod (f : pollreactor D -> pollreactor D) : M W unit :=
  modify (fun w => part_set (f (part_get w)) w).

(** The loop over the timers, from timer [i] on with [n] left; the result is [busy]. *)
Fixpoint timers_loop (n i : nat) (eventtime : D) (busy : bool) : M W bool :=
  match n with
  | O => ret busy
  | S n =>
      pr <- pr_get ;;
      t <- deref (pr_wake pr !! i) ;;
      '(busy, t) <-
        (if (t <=? eventtime)%D then
           t <- timer_callback i eventtime ;;
           pr_mod (fun pr => pr <| pr_wake ::= <[i := t]> |>) ;;
           ret (true, t)
         else ret (busy, t)) ;;
      pr_mod (fun pr => if (t <? pr_next_timer pr)%D
                        then pr <| pr_next_timer := t |> else pr) ;;
      timers_loop n (S i) eventtime busy
  end.

Definition pollreactor_check_timers (eventtime : D) (busy : bool) : M W Z :=
  pr <- pr_get ;;
  busy <-
    (if (pr_next_timer pr <=? eventtime)%D then
       pr_mod (fun pr => pr <| pr_next_timer := PR_NEVER |>) ;;
       timers_loop (length (pr_wake pr)) 0 eventtime busy
     else ret busy) ;;
  if busy : bool then ret 0
  else pr <- pr_get ;; ret (poll_timeout (pr_next_timer pr) eventtime).

(** [poll] and [get_monotonic]: the return value, the [revents] of the file
    descriptors and the time afterwards, for a timeout. *)
Context (fd_callback : nat -> D -> M W unit).
Context (os_poll : Z -> M W (Z * list Z * D)).

Fixpoint fds_loop (i : nat) (revents : list Z) (eventtime : D) : M W unit :=
  match revents with
  | [] => ret tt
  | r :: revents =>
      when (z2b r) (fd_callback i eventtime) ;;
      fds_loop (S i) revents eventtime
  end.

(** [iterations] rounds of the loop of [pollreactor_run], fewer after an exit. *)
Fixpoint pollreactor_run (iterations : nat) (eventtime : D) (busy : bool) : M W unit :=
  match iterations with
  | O => ret tt
  | S iterations =>
      pr <- pr_get ;;
      if z2b (pr_must_exit pr) then ret tt
      else
        timeout <- pollreactor_check_timers eventtime busy ;;
        '(r, revents, eventtime) <- os_poll timeout ;;
        if 0 <? r then
          fds_loop 0 (takeZ (pr_num_fds pr) revents) eventtime ;;
          pollreactor_run iterations eventtime true
        else if r <? 0 then
          pr_mod pollreactor_do_exit ;;
          pollreactor_run iterations eventtime false
        else pollreactor_run iterations eventtime false
  end.
End pollreactor.
