(* ===== verification/PollreactorFacts.v ===== *)
(** * The reactor waits for its first timer (klippy/chelper/pollreactor.c)

    Over the real numbers: [next_timer] is never later than the wake-up time of a timer,
    whatever the callbacks do, and the sleep of the reactor ends less than a millisecond
    after the first timer is due. *)

From S2P Require Import Prelude Double Pollreactor.
From Stdlib Require Import Reals Lra.

#[local] Open Scope R_scope.

(** ** Sleep durations *)

Lemma R_trunc_IZR (n : Z) : (0 <= n)%Z -> R_trunc (IZR n) = n.
Proof. intros Hn. apply R_trunc_pos; [done|]. lra. Qed.

(** [ceil], from zero on. *)
Lemma dceil_spec (x : R) : 0 <= x -> exists n : Z, dceil x = IZR n /\ x <= IZR n < x + 1 /\ (0 <= n)%Z.
Proof.
  intros Hx. unfold dceil. cbn [dtruncZ dofZ dltb real_ops]. unfold R_trunc.
  destruct (Rlt_dec x 0) as [|_]; [lra|]. destruct (archimed x) as [H1 H2].
  set (n := up x) in *. clearbody n.
  assert (Hn : (0 < n)%Z) by (apply lt_IZR; lra).
  assert (En : IZR (n - 1) = IZR n - 1) by by rewrite minus_IZR.
  destruct (Rlt_dec (IZR (n - 1)) x).
  - exists n. replace (n - 1 + 1)%Z with n by lia. split; [done|]. split; [lra|lia].
  - exists (n - 1)%Z. split; [done|]. split; [lra|lia].
Qed.

(** The sleep lasts between 1 and 1000 milliseconds and ends less than a millisecond after
    the timer is due. *)
Lemma poll_timeout_spec (next eventtime : R) :
  eventtime < next ->
  (1 <= poll_timeout next eventtime <= 1000)%Z /\
  eventtime + IZR (poll_timeout next eventtime) / 1000 < next + 1 / 1000.
Proof.
  intros Hlt. unfold poll_timeout. cbn [dsub dmul dofZ dltb dtruncZ real_ops].
  destruct (dceil_spec ((next - eventtime) * 1000)) as (n & -> & Hn & Hn0); [lra|].
  destruct (Rlt_dec (IZR n) 1); [split; [lia|lra]|].
  destruct (Rlt_dec 1000 (IZR n)); [split; [lia|lra]|].
  assert (1 <= n <= 1000)%Z by (split; apply le_IZR; lra).
  rewrite R_trunc_IZR, i32_small by lia. split; [done|lra].
Qed.

(** ** Timers *)

(** Timer [j] is not before [next_timer]. *)
Definition covers (p : pollreactor R) (j : nat) : Prop :=
  forall t, pr_wake p !! j = Some t -> pr_next_timer p <= t.

(** [pollreactor_update_timer] covers the timer it sets, and the others as before. *)
Lemma update_timer_covers pos t p j : covers p j -> covers (pollreactor_update_timer pos t p) j.
Proof.
  unfold covers, pollreactor_update_timer. intros Hc t' Ht'. cbn [dltb real_ops] in *.
  assert (Hle : pr_next_timer (pollreactor_update_timer pos t p) <= pr_next_timer p /\
    pr_next_timer (pollreactor_update_timer pos t p) <= t).
  { unfold pollreactor_update_timer. cbn [dltb real_ops]. destruct p; cbn. destruct (Rlt_dec _ _) as [?|?%Rnot_lt_le]; cbn in *; lra. }
  unfold pollreactor_update_timer in Hle. cbn [dltb real_ops] in Hle.
  assert (Hw : (<[pos := t]> (pr_wake p)) !! j = Some t').
  { destruct p; cbn in *. destruct (Rlt_dec _ _); exact Ht'. }
  apply list_lookup_insert_Some in Hw as [(_ & <- & _)|[_ Hw]]; [apply Hle|]. apply Hc in Hw. lra.
Qed.

Section reactor.
Context {W : Type} {HP : Part W (pollreactor R)}.
Context (timer_callback : nat -> R -> M W R).
Notation the_pr w := (part_get w : pollreactor R).

(** A callback returns; it may set timers with [pollreactor_update_timer]. *)
Definition callback_ok : Prop := forall i t w, exists t' w', timer_callback i t w = Ret t' w' /\
  length (pr_wake (the_pr w')) = length (pr_wake (the_pr w)) /\
  forall j, covers (the_pr w) j -> covers (the_pr w') j.

Lemma bind_pr_get {B} (k : pollreactor R -> M W B) w : bind pr_get k w = k (the_pr w) w.
Proof. done. Qed.

Lemma bind_pr_mod {B} f (k : unit -> M W B) w :
  bind (pr_mod f) k w = k tt (part_set (f (the_pr w)) w).
Proof. done. Qed.

(** The update of [next_timer] after timer [i] was looked at. *)
Definition lower (t : R) (p : pollreactor R) : pollreactor R :=
  if (t <? pr_next_timer p)%D then p <| pr_next_timer := t |> else p.

Lemma lower_covers u t p : pr_wake (lower t p) = pr_wake p /\ pr_next_timer (lower t p) <= t /\
  pr_next_timer (lower t p) <= pr_next_timer p /\
  (u < t -> u < pr_next_timer p -> u < pr_next_timer (lower t p)).
Proof.
  unfold lower. cbn [dltb real_ops]. destruct p; cbn. destruct (Rlt_dec _ _) as [?|?%Rnot_lt_le]; cbn in *; split_and?; try done; lra.
Qed.

(** The loop over the timers: it covers every timer it passes, and when no callback ran the
    timers are as before and none is due. *)
Lemma timers_loop_run n i eventtime busy w :
  callback_ok -> (i + n)%nat = length (pr_wake (the_pr w)) ->
  (forall j, (j < i)%nat -> covers (the_pr w) j) ->
  exists b w', timers_loop timer_callback n i eventtime busy w = Ret b w' /\
    (forall j, covers (the_pr w') j) /\
    (b = false -> busy = false /\
       (eventtime < pr_next_timer (the_pr w) -> eventtime < pr_next_timer (the_pr w')) /\
       forall j t, (i <= j)%nat -> pr_wake (the_pr w) !! j = Some t -> eventtime < t).
Proof.
  intros Hcb. revert i busy w. induction n as [|n IH]; intros i busy w Hlen Hcov; cbn [timers_loop].
  { exists busy, w. split; [done|]. split.
    - intros j t Ht. apply (Hcov j); [|done]. apply lookup_lt_Some in Ht. lia.
    - intros ->. split; [done|]. split; [done|]. intros j t Hj Ht. apply lookup_lt_Some in Ht. lia. }
  rewrite bind_pr_get. destruct (lookup_lt_is_Some_2 (pr_wake (the_pr w)) i) as [t Et]; [lia|].
  rewrite Et. cbn [deref]. rewrite bind_ret_l. cbn [dleb real_ops].
  assert (Hnext : forall busy' t' w1, length (pr_wake (the_pr w1)) = length (pr_wake (the_pr w)) ->
    pr_wake (the_pr w1) !! i = Some t' -> (forall j, (j < i)%nat -> covers (the_pr w1) j) ->
    exists b w', timers_loop timer_callback n (S i) eventtime busy' (part_set (lower t' (the_pr w1)) w1) = Ret b w' /\
      (forall j, covers (the_pr w') j) /\
      (b = false -> busy' = false /\
         (eventtime < t' -> eventtime < pr_next_timer (the_pr w1) -> eventtime < pr_next_timer (the_pr w')) /\
         forall j t, (S i <= j)%nat -> pr_wake (the_pr w1) !! j = Some t -> eventtime < t)).
  { intros busy' t' w1 El Ei Hc. destruct (lower_covers eventtime t' (the_pr w1)) as (Ew & H1 & H2 & H3).
    destruct (IH (S i) busy' (part_set (lower t' (the_pr w1)) w1)) as (b & w' & E & Hall & Hf).
    - rewrite part_get_set, Ew, El. lia.
    - intros j Hj u Hu. rewrite part_get_set in Hu |- *. rewrite Ew in Hu. destruct (decide (j = i)) as [->|].
      + replace u with t' by congruence. done.
      + apply Rle_trans with (1 := H2). apply (Hc j); [lia|done].
    - exists b, w'. split; [done|]. split; [done|]. intros Hb. specialize (Hf Hb).
      rewrite part_get_set, Ew in Hf. destruct Hf as (-> & Hn & Hd). auto. }
  destruct (Rle_dec t eventtime) as [Hdue|Hdue].
  - destruct (Hcb i eventtime w) as (t' & w1 & E1 & El & Hc1).
    rewrite bind_bind, (bind_Ret _ _ _ _ _ E1), bind_bind, bind_pr_mod, bind_ret_l, bind_pr_mod.
    set (w2 := part_set _ w1).
    assert (E2 : the_pr w2 = (the_pr w1) <| pr_wake ::= <[i := t']> |>) by (unfold w2; by rewrite part_get_set).
    destruct (Hnext true t' w2) as (b & w' & E & Hall & Hf).
    + rewrite E2. cbn. by rewrite length_insert.
    + rewrite E2. cbn. apply list_lookup_insert_eq. lia.
    + intros j Hj u Hu. rewrite E2 in Hu |- *. cbn in Hu |- *.
      rewrite list_lookup_insert_ne in Hu by lia. by apply (Hc1 j (Hcov j Hj)).
    + exists b, w'. split; [exact E|]. split; [done|]. intros Hb. by destruct (Hf Hb).
  - rewrite bind_ret_l, bind_pr_mod.
    destruct (Hnext busy t w eq_refl Et Hcov) as (b & w' & E & Hall & Hf).
    exists b, w'. split; [exact E|]. split; [done|]. intros Hb. destruct (Hf Hb) as (-> & Hn & Hd).
    split; [done|]. split; [intros; apply Hn; lra|]. intros j u Hj Hu. destruct (decide (j = i)) as [->|].
    + replace u with t by congruence. lra.
    + apply (Hd j); [lia|done].
Qed.

(** C32: the reactor never sleeps past a timer: in every round of [pollreactor_run],
    whatever the callbacks do with the timers, [next_timer] stays at or before each of
    them; the round sleeps only when no timer is due, for 1 to 1000 milliseconds, and wakes
    up less than a millisecond after the first timer. *)
Theorem reactor_waits_for_timers eventtime busy w :
  callback_ok -> eventtime < PR_NEVER -> (forall j, covers (the_pr w) j) ->
  exists timeout w', pollreactor_check_timers timer_callback eventtime busy w = Ret timeout w' /\
    (forall j, covers (the_pr w') j) /\
    (timeout = 0%Z \/
     (1 <= timeout <= 1000)%Z /\ busy = false /\
     forall j t, pr_wake (the_pr w') !! j = Some t ->
       eventtime < t /\ eventtime + IZR timeout / 1000 < t + 1 / 1000).
Proof.
  intros Hcb Hnever Hcov. unfold pollreactor_check_timers. rewrite bind_pr_get. cbn [dleb real_ops].
  assert (Hend : forall (b : bool) w',
    (forall j, covers (the_pr w') j) ->
    (b = false -> busy = false /\ eventtime < pr_next_timer (the_pr w')) ->
    exists timeout w'', (if b then ret 0%Z
        else pr <- pr_get ;; ret (poll_timeout (pr_next_timer pr) eventtime)) w' = Ret timeout w'' /\
      (forall j, covers (the_pr w'') j) /\
      (timeout = 0%Z \/ (1 <= timeout <= 1000)%Z /\ busy = false /\
       forall j t, pr_wake (the_pr w'') !! j = Some t ->
         eventtime < t /\ eventtime + IZR timeout / 1000 < t + 1 / 1000)).
  { intros [] w' Hc Hb; [exists 0%Z, w'; by auto|]. destruct (Hb eq_refl) as [Hbusy Hlt].
    destruct (poll_timeout_spec _ _ Hlt) as [Hr Hw].
    eexists _, w'. split; [reflexivity|]. split; [done|]. right. split; [done|]. split; [done|].
    intros j t Ht. apply Hc in Ht. lra. }
  destruct (Rle_dec (pr_next_timer (the_pr w)) eventtime) as [Hdue|Hdue].
  2: { rewrite bind_ret_l. apply Hend; [done|]. intros ->. split; [done|lra]. }
  rewrite bind_bind, bind_pr_mod. set (w1 := part_set _ w).
  assert (E1 : the_pr w1 = (the_pr w) <| pr_next_timer := PR_NEVER |>) by (unfold w1; by rewrite part_get_set).
  destruct (timers_loop_run (length (pr_wake (the_pr w))) 0 eventtime busy w1)
    as (b & w' & E & Hall & Hf); [done|by rewrite E1|lia|].
  rewrite (bind_Ret _ _ _ _ _ E). apply Hend; [done|]. intros Hb. destruct (Hf Hb) as (-> & Hn & _).
  split; [done|]. apply Hn. by rewrite E1.
Qed.
End reactor.

(** ** Instances of the properties *)

(** A callback that postpones its own timer and sets the other one. *)
Definition demo_callback (i : nat) (t : R) : M (pollreactor R) R :=
  modify (pollreactor_update_timer (1 - i) (t + 2)) ;; ret (t + 1).

Definition demo_reactor : pollreactor R := pollreactor_update_timer 0 3 (pollreactor_alloc 1 2).

Lemma demo_callback_ok : callback_ok demo_callback.
Proof.
  intros i t w. eexists _, _. split; [reflexivity|]. split.
  - unfold pollreactor_update_timer. destruct w; cbn. destruct (Rlt_dec _ _); cbn; by rewrite length_insert.
  - intros j Hj. by apply update_timer_covers.
Qed.

Lemma reactor_waits_for_timers_witness :
  exists timeout w', pollreactor_check_timers demo_callback 5 false demo_reactor = Ret timeout w' /\
    forall j, covers w' j.
Proof.
  destruct (reactor_waits_for_timers demo_callback 5 false demo_reactor) as (timeout & w' & E & Hc & _).
  - exact demo_callback_ok.
  - unfold PR_NEVER. cbn [dofZ real_ops]. lra.
  - intros j. apply update_timer_covers. intros t. unfold pollreactor_alloc. cbn [pr_wake pr_next_timer].
    intros Ht. apply list_elem_of_lookup_2, list_elem_of_In, repeat_spec in Ht. rewrite Ht. lra.
  - exists timeout, w'. split; [exact E|exact Hc].
Defined.
