(* ===== verification/Serialqueue.v ===== *)
(** * The serial queue of the host

    klippy/chelper/serialqueue.c: the queues of commands for a micro-controller,
    their transmission at the right time in blocks with sequence numbers, the
    retransmission of blocks and the messages received.

    Every function of the code that takes the lock keeps it until it returns (apart
    from the calls of fast readers, which [handle_message] leaves to its caller): each
    is one atomic operation on the state.  A [struct command_queue *] is a key of
    [sq_queues], as the queues are shared with the callers.  [sq_input_buf] holds the
    [input_pos] bytes in the buffer.  [int] counters wrap as the compiled code does.  The
    system is a parameter: the results of its calls ([HostOS]), which the code only logs,
    and the trace [w_out] of what is passed to it. *)

From S2P Require Import Prelude Double Wire Command Msgblock Stepcompress Pollreactor.

(** ** Data *)

Definition SQPF_SERIAL : nat := 0.
Definition SQPF_PIPE : nat := 1.
Definition SQPF_NUM : Z := 2.
Definition SQPT_RETRANSMIT : nat := 0.
Definition SQPT_COMMAND : nat := 1.
Definition SQPT_NUM : Z := 2.

(** The characters 'u', 'c' and 'f'. *)
Definition SQT_UART : Z := 117.
Definition SQT_CAN : Z := 99.
Definition SQT_DEBUGFILE : Z := 102.

Definition MAX_PENDING_BLOCKS : Z := 12.
Definition DEBUG_QUEUE_SENT : nat := 100.
Definition DEBUG_QUEUE_RECEIVE : nat := 100.
Definition BACKGROUND_PRIORITY_CLOCK : Z := 9223372032559808512.
Definition CANBUS_PACKET_BITS : Z := (1 + 11 + 3 + 4) + (16 + 2 + 7 + 3).
Definition CANBUS_IFS_BITS : Z := 4.
Definition INPUT_BUF_SIZE : Z := 4096.

Section constants.
Context {D : Type} `{DoubleOps D}.
Definition MIN_RTO : D := dlit 25 1000.
Definition MAX_RTO : D := dofZ 5.
Definition MIN_REQTIME_DELTA : D := dlit 250 1000.
Definition MIN_BACKGROUND_DELTA : D := dlit 5 1000.
End constants.

Record command_queue (D : Type) := mk_cq {
  cq_stalled_queue : list (queue_message D);
  cq_ready_queue : list (queue_message D) }.
Arguments mk_cq {D}.
Arguments cq_stalled_queue {D}.
Arguments cq_ready_queue {D}.
#[export] Instance eta_cq {D} : Settable (command_queue D) := fun q =>
  mk_cq (cq_stalled_queue q) (cq_ready_queue q).

(** [struct fastreader]; [fr_func] names the object it is embedded in. *)
Record fastreader := mk_fr { fr_func : Z; fr_prefix : list Z }.

#[export] Instance fastreader_eq_dec : EqDecision fastreader.
Proof. solve_decision. Defined.

Record serialqueue (D : Type) := mk_sq {
  sq_pr : pollreactor D;
  sq_serial_fd_type : Z;
  sq_client_id : Z;
  sq_input_buf : list Z;
  sq_need_sync : Z;
  sq_receive_waiting : Z;
  sq_receive_window : Z;
  sq_bittime_adjust : D;
  sq_idle_time : D;
  sq_ce : clock_estimate D;
  sq_last_receive_sent_time : D;
  sq_send_seq : Z;
  sq_receive_seq : Z;
  sq_ignore_nak_seq : Z;
  sq_last_ack_seq : Z;
  sq_retransmit_seq : Z;
  sq_rtt_sample_seq : Z;
  sq_sent_queue : list (queue_message D);
  sq_srtt : D;
  sq_rttvar : D;
  sq_rto : D;
  sq_queues : gmap Z (command_queue D);
  sq_pending_queues : list Z;
  sq_ready_bytes : Z;
  sq_stalled_bytes : Z;
  sq_need_ack_bytes : Z;
  sq_last_ack_bytes : Z;
  sq_need_kick_clock : Z;
  sq_notify_queue : list (queue_message D);
  sq_receive_queue : list (queue_message D);
  sq_fast_readers : list fastreader;
  sq_old_sent : list (queue_message D);
  sq_old_receive : list (queue_message D);
  sq_bytes_write : Z;
  sq_bytes_read : Z;
  sq_bytes_retransmit : Z;
  sq_bytes_invalid : Z }.
Arguments mk_sq {D}.
Arguments sq_pr {D}.
Arguments sq_serial_fd_type {D}.
Arguments sq_client_id {D}.
Arguments sq_input_buf {D}.
Arguments sq_need_sync {D}.
Arguments sq_receive_waiting {D}.
Arguments sq_receive_window {D}.
Arguments sq_bittime_adjust {D}.
Arguments sq_idle_time {D}.
Arguments sq_ce {D}.
Arguments sq_last_receive_sent_time {D}.
Arguments sq_send_seq {D}.
Arguments sq_receive_seq {D}.
Arguments sq_ignore_nak_seq {D}.
Arguments sq_last_ack_seq {D}.
Arguments sq_retransmit_seq {D}.
Arguments sq_rtt_sample_seq {D}.
Arguments sq_sent_queue {D}.
Arguments sq_srtt {D}.
Arguments sq_rttvar {D}.
Arguments sq_rto {D}.
Arguments sq_queues {D}.
Arguments sq_pending_queues {D}.
Arguments sq_ready_bytes {D}.
Arguments sq_stalled_bytes {D}.
Arguments sq_need_ack_bytes {D}.
Arguments sq_last_ack_bytes {D}.
Arguments sq_need_kick_clock {D}.
Arguments sq_notify_queue {D}.
Arguments sq_receive_queue {D}.
Arguments sq_fast_readers {D}.
Arguments sq_old_sent {D}.
Arguments sq_old_receive {D}.
Arguments sq_bytes_write {D}.
Arguments sq_bytes_read {D}.
Arguments sq_bytes_retransmit {D}.
Arguments sq_bytes_invalid {D}.
#[export] Instance eta_sq {D} : Settable (serialqueue D) := fun s =>
  mk_sq (sq_pr s) (sq_serial_fd_type s) (sq_client_id s) (sq_input_buf s)
    (sq_need_sync s) (sq_receive_waiting s) (sq_receive_window s)
    (sq_bittime_adjust s) (sq_idle_time s) (sq_ce s) (sq_last_receive_sent_time s)
    (sq_send_seq s) (sq_receive_seq s) (sq_ignore_nak_seq s) (sq_last_ack_seq s)
    (sq_retransmit_seq s) (sq_rtt_sample_seq s) (sq_sent_queue s) (sq_srtt s)
    (sq_rttvar s) (sq_rto s) (sq_queues s) (sq_pending_queues s) (sq_ready_bytes s)
    (sq_stalled_bytes s) (sq_need_ack_bytes s) (sq_last_ack_bytes s)
    (sq_need_kick_clock s) (sq_notify_queue s) (sq_receive_queue s)
    (sq_fast_readers s) (sq_old_sent s) (sq_old_receive s) (sq_bytes_write s)
    (sq_bytes_read s) (sq_bytes_retransmit s) (sq_bytes_invalid s).

Record pull_queue_message (D : Type) := mk_pqm {
  pqm_msg : list Z; pqm_len : Z; pqm_sent_time : D; pqm_receive_time : D;
  pqm_notify_id : Z }.
Arguments mk_pqm {D}.
Arguments pqm_msg {D}.
Arguments pqm_len {D}.
Arguments pqm_sent_time {D}.
Arguments pqm_receive_time {D}.
Arguments pqm_notify_id {D}.

(** ** The system *)

(** What the code passes to the system. *)
Inductive sq_event : Type :=
| Ev_write (data : list Z)
| Ev_can (can_id : Z) (data : list Z)
| Ev_flush
| Ev_kick
| Ev_signal
| Ev_log (what : string).

Class HostOS (D : Type) := {
  os_ret : nat -> Z;
  os_monotonic : nat -> D;
}.

(** [w_calls] counts the calls made so far. *)
Record sqworld (D : Type) := mk_w {
  w_sq : serialqueue D; w_out : list sq_event; w_calls : nat }.
Arguments mk_w {D}.
Arguments w_sq {D}.
Arguments w_out {D}.
Arguments w_calls {D}.
#[export] Instance eta_w {D} : Settable (sqworld D) := fun w =>
  mk_w (w_sq w) (w_out w) (w_calls w).

#[export, program] Instance Part_w_pr D : Part (sqworld D) (pollreactor D) := {
  part_get w := sq_pr (w_sq w);
  part_set p w := w <| w_sq ::= fun sq => sq <| sq_pr := p |> |>;
}.
Solve Obligations with by intros; repeat (match goal with
  w : sqworld _ |- _ => destruct w as [[] ??] end).

Section serialqueue.
Context {D : Type} `{DoubleOps D} `{HostOS D}.
Notation MQ := (M (sqworld D)).
Notation qmsg := (queue_message D).

Definition sqget {A} (f : serialqueue D -> A) : MQ A := gets (fun w => f (w_sq w)).
Definition sqmod (f : serialqueue D -> serialqueue D) : MQ unit :=
  modify (fun w => w <| w_sq ::= f |>).
Definition emit (e : sq_event) : MQ unit := modify (fun w => w <| w_out ::= fun l => l ++ [e] |>).

(** The result of the next system call. *)
Definition sys_ret : MQ Z :=
  n <- gets w_calls ;; modify (fun w => w <| w_calls ::= S |>) ;; ret (os_ret n).
Definition get_monotonic : MQ D :=
  n <- gets w_calls ;; modify (fun w => w <| w_calls ::= S |>) ;; ret (os_monotonic n).

(** A system call whose failure is logged. *)
Definition sys_call (e : sq_event) (what : string) : MQ unit :=
  emit e ;; r <- sys_ret ;; when (r <? 0) (emit (Ev_log what)).

Definition update_timer (pos : nat) (waketime : D) : MQ unit :=
  pr_mod (pollreactor_update_timer pos waketime).

(** [qm->receive_time] and the assignment of both times. *)
Definition qm_receive_time (qm : qmsg) : D :=
  match qm_when qm with QM_times _ rt => rt | QM_clocks _ _ => dzero end.
Definition qm_sent_time (qm : qmsg) : D :=
  match qm_when qm with QM_times st _ => st | QM_clocks _ _ => dzero end.
Definition qm_set_times (sent_time receive_time : D) (qm : qmsg) : qmsg :=
  {| qm_len := qm_len qm; qm_msg := qm_msg qm; qm_when := QM_times sent_time receive_time;
     qm_notify_id := qm_notify_id qm |}.
Definition qm_req_clock (qm : qmsg) : Z := snd (qm_clocks qm).
Definition qm_min_clock (qm : qmsg) : Z := fst (qm_clocks qm).

(** ** Helpers *)

Definition debug_queue_alloc (count : nat) : list qmsg := repeat message_alloc count.

Definition debug_queue_add (qm : qmsg) (root : list qmsg) : list qmsg := tail (root ++ [qm]).

Definition check_wake_receive : MQ unit :=
  waiting <- sqget sq_receive_waiting ;;
  when (z2b waiting)
    (sqmod (fun sq => sq <| sq_receive_waiting := 0 |>) ;; emit Ev_signal).

Definition kick_bg_thread : MQ unit := sys_call Ev_kick "pipe write".

Definition calculate_bittime (sq : serialqueue D) (bytes : Z) : D :=
  let bytes := u32 bytes in
  if sq_serial_fd_type sq =? SQT_CAN then
    let pkts := u32 (u32 (bytes + 8 - 1) / 8) in
    let bits := u32 (bytes * 8 + pkts * CANBUS_PACKET_BITS - CANBUS_IFS_BITS) in
    (sq_bittime_adjust sq * dofZ bits)%D
  else (sq_bittime_adjust sq * dofZ bytes)%D.

(** ** Reception *)

(** The loop of [update_receive_seq] over the sent queue. *)
Fixpoint ack_loop (sent : list qmsg) (sent_seq rseq : Z) (sq : serialqueue D) : serialqueue D :=
  match sent with
  | [] => sq <| sq_send_seq := rseq |> <| sq_last_receive_sent_time := dzero |>
  | s :: sent =>
      let sq := sq <| sq_need_ack_bytes ::= fun n => i32 (n - qm_len s) |>
                   <| sq_sent_queue := sent |>
                   <| sq_old_sent ::= debug_queue_add s |> in
      let sent_seq := u64 (sent_seq + 1) in
      if rseq =? sent_seq
      then sq <| sq_last_receive_sent_time := qm_receive_time s |>
              <| sq_last_ack_bytes := qm_len s |>
      else ack_loop sent sent_seq rseq sq
  end.

(** The round trip estimation of [update_receive_seq] (RFC 6298). *)
Definition update_rtt (eventtime : D) (sq : serialqueue D) : serialqueue D :=
  let delta := (eventtime - sq_last_receive_sent_time sq)%D in
  let sq :=
    if negb (dnz (sq_srtt sq)) then
      sq <| sq_rttvar := (delta / dofZ 2)%D |> <| sq_srtt := (delta * dofZ 10)%D |>
    else
      let sq := sq <| sq_rttvar :=
        ((dofZ 3 * sq_rttvar sq + dabs (sq_srtt sq - delta)) / dofZ 4)%D |> in
      sq <| sq_srtt := ((dofZ 7 * sq_srtt sq + delta) / dofZ 8)%D |> in
  let rttvar4 := (sq_rttvar sq * dofZ 4)%D in
  let rttvar4 := if (rttvar4 <? dlit 1 1000)%D then dlit 1 1000 else rttvar4 in
  let sq := sq <| sq_rto := (sq_srtt sq + rttvar4)%D |> in
  let sq := if (sq_rto sq <? MIN_RTO)%D then sq <| sq_rto := MIN_RTO |>
            else if (MAX_RTO <? sq_rto sq)%D then sq <| sq_rto := MAX_RTO |> else sq in
  sq <| sq_rtt_sample_seq := 0 |>.

Definition sq_update_timer (pos : nat) (waketime : D) (sq : serialqueue D) : serialqueue D :=
  sq <| sq_pr ::= pollreactor_update_timer pos waketime |>.

Definition update_receive_seq (eventtime : D) (rseq : Z) (sq : serialqueue D) : serialqueue D :=
  let sq := ack_loop (sq_sent_queue sq) (sq_receive_seq sq) rseq sq in
  let sq := sq <| sq_receive_seq := rseq |> in
  let sq := sq_update_timer SQPT_COMMAND PR_NOW sq in
  let sq :=
    if z2b (sq_rtt_sample_seq sq) && (sq_rtt_sample_seq sq <? rseq)
       && dnz (sq_last_receive_sent_time sq)
    then update_rtt eventtime sq else sq in
  match sq_sent_queue sq with
  | [] => sq_update_timer SQPT_RETRANSMIT PR_NEVER sq
  | sent :: _ =>
      let nr := (eventtime + sq_rto sq + calculate_bittime sq (qm_len sent))%D in
      sq_update_timer SQPT_RETRANSMIT nr sq
  end.

(** The receive sequence number of a block whose second byte is [seq], before the
    check of [handle_message]. *)
Definition receive_seq_of (sq : serialqueue D) (seq : Z) : Z :=
  let rseq := Z.lor (clear (sq_receive_seq sq) MESSAGE_SEQ_MASK) (Z.land seq MESSAGE_SEQ_MASK) in
  if rseq <? sq_receive_seq sq then u64 (rseq + (MESSAGE_SEQ_MASK + 1)) else rseq.

(** The loop over [notify_queue]; the pair says whether a message moved. *)
Fixpoint notify_loop (notify : list qmsg) (wake_seq : Z) (eventtime : D)
    (sq : serialqueue D) : bool * serialqueue D :=
  match notify with
  | [] => (false, sq)
  | qm :: notify =>
      if wake_seq <? qm_req_clock qm then (false, sq)
      else
        let qm := qm_set_times (sq_last_receive_sent_time sq) eventtime
                    {| qm_len := 0; qm_msg := []; qm_when := qm_when qm;
                       qm_notify_id := qm_notify_id qm |} in
        let sq := sq <| sq_notify_queue := notify |>
                     <| sq_receive_queue ::= fun l => l ++ [qm] |> in
        (true, (notify_loop notify wake_seq eventtime sq).2)
  end.

(** The first fast reader that matches a message. *)
Definition find_fastreader (msg : list Z) (len : Z) (readers : list fastreader) :
    option fastreader :=
  snd <$> list_find (fun fr =>
    ~ (len < zlen (fr_prefix fr) + MESSAGE_MIN) /\
    takeZ (zlen (fr_prefix fr)) (dropZ MESSAGE_HEADER_SIZE msg) = fr_prefix fr) readers.

(** The content of a message: an acknowledgement or data. *)
Definition handle_data (rseq len : Z) (msg : list Z) (sq : serialqueue D) (must_wake : bool) :
    MQ bool :=
  if len =? MESSAGE_MIN then
    (if sq_last_ack_seq sq <? rseq then
       sqmod (fun sq => sq <| sq_last_ack_seq := rseq |>)
     else when ((sq_ignore_nak_seq sq <? rseq) && bool_decide (sq_sent_queue sq <> []))
            (update_timer SQPT_RETRANSMIT PR_NOW)) ;;
    ret must_wake
  else
    now <- get_monotonic ;;
    let sent_time := if sq_retransmit_seq sq <? rseq
                     then sq_last_receive_sent_time sq else dzero in
    let qm := qm_set_times sent_time (now - calculate_bittime sq len)%D
                (message_fill msg len) in
    sqmod (fun sq => sq <| sq_receive_queue ::= fun l => l ++ [qm] |>) ;;
    ret true.

(** [handle_message] from the notifications on; the result is the fast reader to call. *)
Definition handle_content (rseq len : Z) (msg : list Z) (eventtime : D) : MQ (option fastreader) :=
  sq <- sqget (fun sq => sq) ;;
  let wake_seq := u64 (rseq - 1 - (if MESSAGE_MIN <? len then 1 else 0)) in
  let '(must_wake, sq) := notify_loop (sq_notify_queue sq) wake_seq eventtime sq in
  sqmod (fun _ => sq) ;;
  must_wake <- handle_data rseq len msg sq must_wake ;;
  when must_wake check_wake_receive ;;
  readers <- sqget sq_fast_readers ;;
  ret (find_fastreader msg len readers).

(** [handle_message] on the [len] bytes at the start of the input buffer. *)
Definition handle_message (eventtime : D) (len : Z) : MQ (option fastreader) :=
  sq <- sqget (fun sq => sq) ;;
  let msg := takeZ len (sq_input_buf sq) in
  let rseq := receive_seq_of sq (nthZ msg MESSAGE_POS_SEQ) in
  if negb (rseq =? sq_receive_seq sq) && (sq_send_seq sq <? rseq)
     && negb (sq_receive_seq sq =? 1) then
    sqmod (fun sq => sq <| sq_bytes_invalid ::= fun n => u32 (n + len) |>) ;;
    ret None
  else
    when (negb (rseq =? sq_receive_seq sq)) (sqmod (update_receive_seq eventtime rseq)) ;;
    sqmod (fun sq => sq <| sq_bytes_read ::= fun n => u32 (n + len) |>) ;;
    handle_content rseq len msg eventtime.

(** ** Transmission *)

(** The loop of [do_write] for a CAN bus: frames of up to eight bytes, until an error. *)
Fixpoint can_write_loop (fuel : nat) (buf : list Z) : MQ unit :=
  match buf with
  | [] => ret tt
  | _ :: _ =>
      match fuel with
      | O => stuck
      | S fuel =>
          id <- sqget sq_client_id ;;
          emit (Ev_can id (take 8 buf)) ;;
          r <- sys_ret ;;
          if r <? 0 then emit (Ev_log "can write")
          else can_write_loop fuel (drop 8 buf)
      end
  end.

Definition do_write (buf : list Z) : MQ unit :=
  ty <- sqget sq_serial_fd_type ;;
  if negb (ty =? SQT_CAN) then sys_call (Ev_write buf) "write"
  else can_write_loop (length buf) buf.

(** Callback of the pipe; the bytes read are discarded. *)
Definition kick_event (eventtime : D) : MQ unit :=
  r <- sys_ret ;;
  when (r <? 0) (emit (Ev_log "pipe read")) ;;
  update_timer SQPT_COMMAND PR_NOW.

(** The blocks of the sent queue, as [retransmit_event] copies them; the buffer has
    [MESSAGE_MAX * MAX_PENDING_BLOCKS + 1] bytes. *)
Definition retransmit_buf (sent : list qmsg) : list Z :=
  MESSAGE_SYNC :: concat (map qm_msg sent).

Definition retransmit_event (eventtime : D) : MQ D :=
  ty <- sqget sq_serial_fd_type ;;
  when (ty =? SQT_UART) (sys_call Ev_flush "tcflush") ;;
  sent <- sqget sq_sent_queue ;;
  let buf := retransmit_buf sent in
  let buflen := zlen buf in
  let first_buflen := match sent with [] => 0 | qm :: _ => qm_len qm + 1 end in
  if MESSAGE_MAX * MAX_PENDING_BLOCKS + 1 <? buflen then stuck
  else
  do_write buf ;;
  sqmod (fun sq => sq <| sq_bytes_retransmit ::= fun n => u32 (n + buflen) |>) ;;
  timer <- sqget (fun sq => pollreactor_get_timer SQPT_RETRANSMIT (sq_pr sq)) ;;
  (if (timer =? PR_NOW)%D then
     sqmod (fun sq => sq <| sq_ignore_nak_seq := sq_receive_seq sq |>) ;;
     sqmod (fun sq => if sq_receive_seq sq <? sq_retransmit_seq sq
                      then sq <| sq_ignore_nak_seq := sq_retransmit_seq sq |> else sq)
   else
     sqmod (fun sq => sq <| sq_rto := (sq_rto sq * dofZ 2)%D |>) ;;
     sqmod (fun sq => if (MAX_RTO <? sq_rto sq)%D then sq <| sq_rto := MAX_RTO |> else sq) ;;
     sqmod (fun sq => sq <| sq_ignore_nak_seq := sq_send_seq sq |>)) ;;
  sqmod (fun sq => sq <| sq_retransmit_seq := sq_send_seq sq |>) ;;
  sqmod (fun sq => sq <| sq_rtt_sample_seq := 0 |>) ;;
  sqmod (fun sq => sq <| sq_idle_time := (eventtime + calculate_bittime sq buflen)%D |>) ;;
  sqget (fun sq => (eventtime + sq_rto sq + calculate_bittime sq first_buflen)%D).

(** The search for the ready message with the lowest [req_clock]: its queue and the
    message. *)
Fixpoint find_ready (queues : gmap Z (command_queue D)) (pending : list Z) (min_clock : Z)
    (best : option (Z * qmsg)) : option (option (Z * qmsg)) :=
  match pending with
  | [] => Some best
  | q :: pending =>
      cq ← queues !! q;
      match cq_ready_queue cq with
      | m :: _ => if qm_req_clock m <? min_clock
                  then find_ready queues pending (qm_req_clock m) (Some (q, m))
                  else find_ready queues pending min_clock best
      | [] => find_ready queues pending min_clock best
      end
  end.

(** Remove the first ready message of queue [q], and the queue when it is empty. *)
Definition take_ready (q : Z) (qm : qmsg) (cq : command_queue D) (sq : serialqueue D) :
    serialqueue D :=
  let ready := tail (cq_ready_queue cq) in
  let sq := sq <| sq_queues ::= <[q := cq <| cq_ready_queue := ready |>]> |> in
  let sq := if bool_decide (ready = [] /\ cq_stalled_queue cq = [])
            then sq <| sq_pending_queues ::= filter (fun x => x <> q) |> else sq in
  let sq := sq <| sq_ready_bytes ::= fun n => i32 (n - qm_len qm) |> in
  if z2b (qm_notify_id qm)
  then sq <| sq_notify_queue ::= fun l =>
               l ++ [qm_set_clocks (qm_min_clock qm) (sq_send_seq sq) qm] |>
  else sq.

(** The loop of [build_and_send_command]; the list is the content of the block. *)
Fixpoint build_loop (fuel : nat) (content : list Z) : MQ (list Z) :=
  bytes <- sqget sq_ready_bytes ;;
  if bytes =? 0 then ret content
  else match fuel with
  | O => stuck
  | S fuel =>
      sq <- sqget (fun sq => sq) ;;
      best <- deref (find_ready (sq_queues sq) (sq_pending_queues sq) MAX_CLOCK None) ;;
      '(q, qm) <- deref best ;;
      if MESSAGE_MAX - MESSAGE_TRAILER_SIZE <? MESSAGE_HEADER_SIZE + zlen content + qm_len qm
      then ret content
      else
        cq <- deref (sq_queues sq !! q) ;;
        sqmod (take_ready q qm cq) ;;
        build_loop fuel (content ++ qm_msg qm)
  end.

(** Header and trailer around the content of a block. *)
Definition block_of (send_seq : Z) (content : list Z) : list Z :=
  let len := MESSAGE_HEADER_SIZE + zlen content + MESSAGE_TRAILER_SIZE in
  let buf := u8 len :: u8 (Z.lor MESSAGE_DEST (Z.land send_seq MESSAGE_SEQ_MASK)) :: content in
  let crc := msgblock_crc16_ccitt buf (len - MESSAGE_TRAILER_SIZE) in
  buf ++ [Z.shiftr crc 8; Z.land crc 255; MESSAGE_SYNC].

(** The messages in the queues that wait for transmission. *)
Definition queued_msgs (sq : serialqueue D) : nat :=
  foldr (fun q n => match sq_queues sq !! q with
                    | Some cq => length (cq_ready_queue cq) + length (cq_stalled_queue cq) + n
                    | None => n
                    end)%nat 0%nat (sq_pending_queues sq).

(** The second half of [build_and_send_command]: the frame around the content and its
    copy in the sent queue. *)
Definition store_block (pending : Z) (eventtime : D) (content : list Z) : MQ (list Z) :=
  sq <- sqget (fun sq => sq) ;;
  let block := block_of (sq_send_seq sq) content in
  let len := zlen block in
  if MESSAGE_MAX <? len then stuck
  else
  let idletime := if (sq_idle_time sq <? eventtime)%D then eventtime else sq_idle_time sq in
  let idletime := (idletime + calculate_bittime sq (pending + len))%D in
  let out := qm_set_times eventtime idletime (message_set block len message_alloc) in
  when (bool_decide (sq_sent_queue sq = []))
    (update_timer SQPT_RETRANSMIT (idletime + sq_rto sq)%D) ;;
  when (sq_rtt_sample_seq sq =? 0)
    (sqmod (fun sq => sq <| sq_rtt_sample_seq := sq_send_seq sq |>)) ;;
  sqmod (fun sq => sq <| sq_send_seq ::= fun n => u64 (n + 1) |>) ;;
  sqmod (fun sq => sq <| sq_need_ack_bytes ::= fun n => i32 (n + len) |>) ;;
  sqmod (fun sq => sq <| sq_sent_queue ::= fun l => l ++ [out] |>) ;;
  ret block.

(** The block, for which the caller has [MESSAGE_MAX] bytes. *)
Definition build_and_send_command (pending : Z) (eventtime : D) : MQ (list Z) :=
  fuel <- sqget queued_msgs ;;
  content <- build_loop fuel [] ;;
  store_block pending eventtime content.

(** [need_ack_bytes] of [check_send_command]: whether the receive window is full. *)
Definition window_full (sq : serialqueue D) : bool :=
  (sq_receive_seq sq <? sq_send_seq sq) && z2b (sq_receive_window sq) &&
  (let need_ack_bytes := i32 (sq_need_ack_bytes sq + MESSAGE_MAX) in
   let need_ack_bytes := if sq_last_ack_seq sq <? sq_receive_seq sq
                         then i32 (need_ack_bytes + sq_last_ack_bytes sq)
                         else need_ack_bytes in
   sq_receive_window sq <? need_ack_bytes).

(** The inner loop over [stalled_queue]: what stays, what becomes ready, and the
    smallest clock of a stalled message. *)
Fixpoint unstall (stalled : list qmsg) (ack_clock min_stalled : Z) :
    list qmsg * list qmsg * Z :=
  match stalled with
  | [] => ([], [], min_stalled)
  | qm :: rest =>
      if ack_clock <? qm_min_clock qm
      then (stalled, [], if qm_min_clock qm <? min_stalled then qm_min_clock qm
                         else min_stalled)
      else let '(still, now_ready, ms) := unstall rest ack_clock min_stalled in
           (still, qm :: now_ready, ms)
  end.

Definition len_sum (l : list qmsg) : Z := foldr (fun m n => qm_len m + n) 0 l.

(** The loop over [pending_queues]; [bgtime] is the time of background messages.  The
    pair is [min_stalled_clock] and [min_ready_clock]. *)
Fixpoint stalled_loop (pending : list Z) (ack_clock : Z) (bgtime : D)
    (min_stalled min_ready : Z) : MQ (Z * Z) :=
  match pending with
  | [] => ret (min_stalled, min_ready)
  | q :: pending =>
      sq <- sqget (fun sq => sq) ;;
      cq <- deref (sq_queues sq !! q) ;;
      let '(still, now_ready, min_stalled) :=
        unstall (cq_stalled_queue cq) ack_clock min_stalled in
      let ready := cq_ready_queue cq ++ now_ready in
      sqmod (fun sq => sq
        <| sq_queues ::= <[q := mk_cq still ready]> |>
        <| sq_stalled_bytes ::= fun n => i32 (n - len_sum now_ready) |>
        <| sq_ready_bytes ::= fun n => i32 (n + len_sum now_ready) |>) ;;
      let min_ready :=
        match ready with
        | [] => min_ready
        | qm :: _ =>
            let bgoffset := (MIN_REQTIME_DELTA + MIN_BACKGROUND_DELTA)%D in
            let req_clock := if qm_req_clock qm =? BACKGROUND_PRIORITY_CLOCK
                             then clock_from_time (sq_ce sq) (bgtime + bgoffset)%D
                             else qm_req_clock qm in
            if req_clock <? min_ready then req_clock else min_ready
        end in
      stalled_loop pending ack_clock bgtime min_stalled min_ready
  end.

Definition check_send_command (pending : Z) (eventtime : D) : MQ D :=
  sq <- sqget (fun sq => sq) ;;
  if (MAX_PENDING_BLOCKS <=? u64 (sq_send_seq sq - sq_receive_seq sq))
     && negb (sq_receive_seq sq =? UINT64_MAX) then ret PR_NEVER
  else if window_full sq then ret PR_NEVER
  else
  let idletime := if (sq_idle_time sq <? eventtime)%D then eventtime else sq_idle_time sq in
  let idletime := (idletime + calculate_bittime sq (pending + MESSAGE_MIN))%D in
  let ack_clock := clock_from_time (sq_ce sq) idletime in
  let bgtime := if z2b pending then idletime else sq_idle_time sq in
  '(min_stalled, min_ready) <-
    stalled_loop (sq_pending_queues sq) ack_clock bgtime MAX_CLOCK MAX_CLOCK ;;
  ready_bytes <- sqget sq_ready_bytes ;;
  let freq := est_freq (sq_ce sq) in
  if MESSAGE_PAYLOAD_MAX <=? ready_bytes then ret PR_NOW
  else if negb (dnz freq) then
    (if z2b ready_bytes then ret PR_NOW
     else sqmod (fun sq => sq <| sq_need_kick_clock := MAX_CLOCK |>) ;; ret PR_NEVER)
  else
  let reqclock_delta := u64 (dtruncZ (MIN_REQTIME_DELTA * freq)%D) in
  if min_ready <=? u64 (ack_clock + reqclock_delta) then ret PR_NOW
  else
  let wantclock := u64 (min_ready - reqclock_delta) in
  let wantclock := if min_stalled <? wantclock then min_stalled else wantclock in
  sqmod (fun sq => sq <| sq_need_kick_clock := wantclock |>) ;;
  ret (idletime + dofZ (u64 (wantclock - ack_clock)) / freq)%D.

(** The write of the collected blocks in [command_event]. *)
Definition write_blocks (buf : list Z) (eventtime : D) : MQ unit :=
  do_write buf ;;
  sqmod (fun sq => sq <| sq_bytes_write ::= fun n => u32 (n + zlen buf) |>) ;;
  sqmod (fun sq =>
    let idletime := if (sq_idle_time sq <? eventtime)%D then eventtime else sq_idle_time sq in
    sq <| sq_idle_time := (idletime + calculate_bittime sq (zlen buf))%D |>).

(** The loop of [command_event]; [buf] holds the bytes of the blocks not yet written.
    Its capacity is [MESSAGE_MAX * MAX_PENDING_BLOCKS]; a store past it is stuck. *)
Fixpoint command_loop (fuel : nat) (buf : list Z) (eventtime : D) : MQ D :=
  match fuel with
  | O => stuck
  | S fuel =>
      waketime <- check_send_command (zlen buf) eventtime ;;
      let now := (waketime =? PR_NOW)%D in
      let flush := negb now || (MESSAGE_MAX * MAX_PENDING_BLOCKS <? zlen buf + MESSAGE_MAX) in
      when (flush && negb (zlen buf =? 0)) (write_blocks buf eventtime) ;;
      let buf := if flush then [] else buf in
      if negb now then ret waketime
      else
        block <- build_and_send_command (zlen buf) eventtime ;;
        if MESSAGE_MAX * MAX_PENDING_BLOCKS <? zlen (buf ++ block) then stuck
        else command_loop fuel (buf ++ block) eventtime
  end.

(** Every iteration but the last sends a block: at most [MAX_PENDING_BLOCKS] of them
    without an acknowledgement, or one per message when writing to a file. *)
Definition command_event (eventtime : D) : MQ D :=
  n <- sqget queued_msgs ;;
  command_loop (14 + n) [] eventtime.

(** [background_thread], after [pollreactor_run] returns. *)
Definition background_thread_exit : MQ unit := check_wake_receive.

(** ** Interface *)

(** [rets]: the results of [pipe], the two mutexes, the condition variable and the thread. *)
Definition serialqueue_alloc (rets : list Z) (serial_fd_type client_id : Z) :
    option (serialqueue D) :=
  let pr := pollreactor_alloc SQPF_NUM SQPT_NUM in
  let pr := pollreactor_add_timer SQPT_RETRANSMIT pr in
  let pr := pollreactor_add_timer SQPT_COMMAND pr in
  let file := serial_fd_type =? SQT_DEBUGFILE in
  if negb (forallb (Z.eqb 0) rets) then None
  else Some {|
    sq_pr := pr; sq_serial_fd_type := serial_fd_type; sq_client_id := client_id;
    sq_input_buf := []; sq_need_sync := 0; sq_receive_waiting := 0;
    sq_receive_window := 0; sq_bittime_adjust := dzero; sq_idle_time := dzero;
    sq_ce := {| last_clock := 0; conv_clock := 0; conv_time := dzero; est_freq := dzero |};
    sq_last_receive_sent_time := dzero;
    sq_send_seq := 1; sq_receive_seq := if file then UINT64_MAX else 1;
    sq_ignore_nak_seq := 0; sq_last_ack_seq := 0; sq_retransmit_seq := 0;
    sq_rtt_sample_seq := 0; sq_sent_queue := [];
    sq_srtt := dzero; sq_rttvar := dzero; sq_rto := if file then PR_NEVER else MIN_RTO;
    sq_queues := ∅; sq_pending_queues := [];
    sq_ready_bytes := 0; sq_stalled_bytes := 0; sq_need_ack_bytes := 0;
    sq_last_ack_bytes := 0; sq_need_kick_clock := MAX_CLOCK;
    sq_notify_queue := []; sq_receive_queue := []; sq_fast_readers := [];
    sq_old_sent := debug_queue_alloc DEBUG_QUEUE_SENT;
    sq_old_receive := debug_queue_alloc DEBUG_QUEUE_RECEIVE;
    sq_bytes_write := 0; sq_bytes_read := 0; sq_bytes_retransmit := 0;
    sq_bytes_invalid := 0 |}.

(** The request of [serialqueue_exit], before the thread is joined. *)
Definition serialqueue_exit : MQ unit :=
  pr_mod pollreactor_do_exit ;; kick_bg_thread.

(** The new queue has the key [cq], which is not in use. *)
Definition serialqueue_alloc_commandqueue (cq : Z) : MQ unit :=
  sqmod (fun sq => sq <| sq_queues ::= <[cq := mk_cq [] []]> |>).

Definition serialqueue_free_commandqueue (cq : Z) : MQ unit :=
  queues <- sqget sq_queues ;;
  q <- deref (queues !! cq) ;;
  if bool_decide (cq_ready_queue q <> [] \/ cq_stalled_queue q <> [])
  then emit (Ev_log "Memory leak! Can't free non-empty commandqueue")
  else sqmod (fun sq => sq <| sq_queues ::= delete cq |>).

Definition serialqueue_add_fastreader (fr : fastreader) : MQ unit :=
  sqmod (fun sq => sq <| sq_fast_readers ::= fun l => l ++ [fr] |>).

(** The reader is an element of the list. *)
Definition serialqueue_rm_fastreader (fr : fastreader) : MQ unit :=
  sqmod (fun sq => sq <| sq_fast_readers ::= filter (fun x => x <> fr) |>).

(** The update of [min_clock] in [serialqueue_send_batch]. *)
Definition set_min_clock (qm : qmsg) : qmsg :=
  if (u64 (qm_min_clock qm + 2147483648) <? qm_req_clock qm)
     && negb (qm_req_clock qm =? BACKGROUND_PRIORITY_CLOCK)
  then qm_set_clocks (u64 (qm_req_clock qm - 2147483648)) (qm_req_clock qm) qm else qm.

(** Messages of [len] bytes join the stalled messages of queue [q]. *)
Definition enqueue (cq : Z) (q : command_queue D) (msgs : list qmsg) (len : Z) : MQ unit :=
  when (bool_decide (cq_ready_queue q = [] /\ cq_stalled_queue q = []))
    (sqmod (fun sq => sq <| sq_pending_queues ::= fun l => l ++ [cq] |>)) ;;
  sqmod (fun sq => sq
    <| sq_queues ::= <[cq := q <| cq_stalled_queue ::= fun l => l ++ msgs |>]> |>
    <| sq_stalled_bytes ::= fun n => i32 (n + len) |>).

Definition serialqueue_send_batch (cq : Z) (msgs : list qmsg) : MQ unit :=
  let msgs := map set_min_clock msgs in
  let len := i32 (len_sum msgs) in
  if len =? 0 then ret tt
  else
    qm <- deref (head msgs) ;;
    sq <- sqget (fun sq => sq) ;;
    q <- deref (sq_queues sq !! cq) ;;
    enqueue cq q msgs len ;;
    if qm_min_clock qm <? sq_need_kick_clock sq then
      sqmod (fun sq => sq <| sq_need_kick_clock := 0 |>) ;;
      kick_bg_thread
    else ret tt.

Definition serialqueue_send_one (cq : Z) (qm : qmsg) : MQ unit :=
  serialqueue_send_batch cq [qm].

Definition serialqueue_send (cq : Z) (msg : list Z) (len min_clock req_clock notify_id : Z) :
    MQ unit :=
  let qm := message_fill msg len in
  let qm := qm_set_clocks min_clock req_clock qm in
  serialqueue_send_one cq
    {| qm_len := qm_len qm; qm_msg := qm_msg qm; qm_when := qm_when qm;
       qm_notify_id := notify_id |}.

Definition to_pull (qm : qmsg) : pull_queue_message D :=
  mk_pqm (qm_msg qm) (qm_len qm) (qm_sent_time qm) (qm_receive_time qm) (qm_notify_id qm).

(** One turn of [serialqueue_pull]: [None] is the wait for the condition variable, after
    which the caller runs again; [Some None] is the exit with length -1. *)
Definition serialqueue_pull : MQ (option (option (pull_queue_message D))) :=
  sq <- sqget (fun sq => sq) ;;
  match sq_receive_queue sq with
  | [] =>
      if z2b (pollreactor_is_exit (sq_pr sq)) then ret (Some None)
      else sqmod (fun sq => sq <| sq_receive_waiting := 1 |>) ;; ret None
  | qm :: rest =>
      sqmod (fun sq => sq <| sq_receive_queue := rest |>) ;;
      when (negb (qm_len qm =? 0))
        (sqmod (fun sq => sq <| sq_old_receive ::= debug_queue_add qm |>)) ;;
      ret (Some (Some (to_pull qm)))
  end.

Definition serialqueue_set_wire_frequency (frequency : D) : MQ unit :=
  sqmod (fun sq => sq <| sq_bittime_adjust :=
    if sq_serial_fd_type sq =? SQT_CAN then (dofZ 1 / frequency)%D
    else (dofZ 10 / frequency)%D |>).

Definition serialqueue_set_receive_window (receive_window : Z) : MQ unit :=
  sqmod (fun sq => sq <| sq_receive_window := receive_window |>).

Definition serialqueue_set_clock_est (freq ctime : D) (cclock lclock : Z) : MQ unit :=
  sqmod (fun sq => sq <| sq_ce := {| last_clock := lclock; conv_clock := cclock;
                                     conv_time := ctime; est_freq := freq |} |>).

Definition serialqueue_get_clock_est : MQ (clock_estimate D) := sqget sq_ce.

(** The numbers [serialqueue_get_stats] prints, integers first. *)
Definition serialqueue_get_stats : MQ (list Z * list D) :=
  sqget (fun sq =>
    ([sq_bytes_write sq; sq_bytes_read sq; sq_bytes_retransmit sq; sq_bytes_invalid sq;
      u32 (i32 (sq_send_seq sq)); u32 (i32 (sq_receive_seq sq));
      u32 (i32 (sq_retransmit_seq sq)); u32 (sq_ready_bytes sq); u32 (sq_stalled_bytes sq)],
     [sq_srtt sq; sq_rttvar sq; sq_rto sq])).

(** The walk of [serialqueue_extract_old]: the first [max] messages with content; the
    caller's [notify_id] fields are left alone (0 here). *)
Definition extract_walk (max : Z) (current : list qmsg) : list (pull_queue_message D) :=
  takeZ max (map (fun qm => mk_pqm (qm_msg qm) (qm_len qm) (qm_sent_time qm)
                              (qm_receive_time qm) 0)
               (filter (fun qm => qm_len qm <> 0) current)).

Definition serialqueue_extract_old (sentq : bool) (max : Z) :
    MQ (Z * list (pull_queue_message D)) :=
  sq <- sqget (fun sq => sq) ;;
  let current := if sentq then sq_old_sent sq else sq_old_receive sq in
  (if sentq then
     sqmod (fun sq => sq <| sq_old_sent := debug_queue_alloc DEBUG_QUEUE_SENT |>)
   else sqmod (fun sq => sq <| sq_old_receive := debug_queue_alloc DEBUG_QUEUE_RECEIVE |>)) ;;
  let q := extract_walk max current in
  ret (zlen q, q).
End serialqueue.

(** ** Input

    The callback of the serial port runs in a world [W] that contains the serial queue,
    as a fast reader may act on other queues. *)

(** What [read] returns: an error or end of file, bytes, or a frame of a CAN bus. *)
Inductive read_result : Type :=
| Rd_fail (ret : Z)
| Rd_bytes (data : list Z)
| Rd_can (can_id : Z) (data : list Z).

Section input.
Context {D : Type} `{DoubleOps D} `{HostOS D}.
Context {W : Type} `{Part W (sqworld D)}.
Context (call_fastreader : fastreader -> list Z -> Z -> M W unit).

Definition zsq {A} (m : M (sqworld D) A) : M W A := zoom m.

(** A block of [len] bytes at the start of the buffer [buf], or [- len] bytes to skip; the
    result is the number of bytes to remove. *)
Definition take_input (eventtime : D) (buf : list Z) (len : Z) : M W Z :=
  if 0 <? len then
    fr <- zsq (handle_message eventtime len) ;;
    match fr with
    | Some fr => call_fastreader fr buf len
    | None => ret tt
    end ;;
    ret len
  else
    let len := - len in
    zsq (sqmod (fun sq => sq <| sq_bytes_invalid ::= fun n => u32 (n + len) |>)) ;;
    ret len.

(** The loop over the blocks in the buffer; every turn but the last consumes a byte. *)
Fixpoint input_loop (fuel : nat) (eventtime : D) : M W unit :=
  match fuel with
  | O => stuck
  | S fuel =>
      sq <- zsq (sqget (fun sq => sq)) ;;
      let '(len, need_sync) := msgblock_check (sq_need_sync sq) (sq_input_buf sq) in
      zsq (sqmod (fun sq => sq <| sq_need_sync := need_sync |>)) ;;
      if len =? 0 then ret tt
      else
        len <- take_input eventtime (sq_input_buf sq) len ;;
        zsq (sqmod (fun sq => sq <| sq_input_buf ::= dropZ len |>)) ;;
        input_loop fuel eventtime
  end.

(** Store bytes at [input_pos]; a store past the end of the buffer is stuck. *)
Definition store_input (data : list Z) : M (sqworld D) unit :=
  sq <- sqget (fun sq => sq) ;;
  if INPUT_BUF_SIZE <? zlen (sq_input_buf sq) + zlen data then stuck
  else sqmod (fun sq => sq <| sq_input_buf ::= fun l => l ++ data |>).

Definition input_blocks (eventtime : D) : M W unit :=
  n <- zsq (sqget (fun sq => S (length (sq_input_buf sq)))) ;;
  input_loop n eventtime.

(** [input_event]; a [read] on a serial line returns at most the bytes asked for. *)
Definition input_event (rd : read_result) (eventtime : D) : M W unit :=
  sq <- zsq (sqget (fun sq => sq)) ;;
  if sq_serial_fd_type sq =? SQT_CAN then
    match rd with
    | Rd_can can_id data =>
        if negb (can_id =? sq_client_id sq + 1) then ret tt
        else zsq (store_input data) ;; input_blocks eventtime
    | _ => zsq (emit (Ev_log "can read") ;; pr_mod pollreactor_do_exit)
    end
  else
    match rd with
    | Rd_bytes ((_ :: _) as data) =>
        zsq (store_input data) ;; input_blocks eventtime
    | Rd_fail r =>
        zsq (emit (Ev_log (if r <? 0 then "read" else "Got EOF when reading from device")) ;;
             pr_mod pollreactor_do_exit)
    | _ => zsq (emit (Ev_log "Got EOF when reading from device") ;;
                pr_mod pollreactor_do_exit)
    end.
End input.
