(* ===== verification/SerialqueueFacts.v ===== *)
(** * Correctness of the serial queue (klippy/chelper/serialqueue.c)

    The invariant of the state: the sent queue holds the blocks between [receive_seq] and
    [send_seq], at most [MAX_PENDING_BLOCKS] of them, each the frame of its sequence
    number; the byte counters are the sums over the queues; every message queued fits a
    block.  Every operation preserves it and none is stuck. *)

From S2P Require Import Prelude Double Wire Command CommandFacts Msgblock Stepcompress Pollreactor Serialqueue.

(** ** Blocks *)

(** The second byte of a block with sequence number [n]. *)
Definition seq_of (n : Z) : Z := 16 + n mod 16.

Lemma seq_of_byte n : seq_byte (seq_of n).
Proof. unfold seq_byte, seq_of. Z.div_mod_to_equations. lia. Qed.

Lemma land_mask4 z : Z.land z 15 = z mod 16.
Proof. change 15 with (Z.ones 4). by rewrite Z.land_ones. Qed.

Lemma dest_seq n : Z.lor MESSAGE_DEST (Z.land n MESSAGE_SEQ_MASK) = seq_of n.
Proof.
  unfold MESSAGE_DEST, MESSAGE_SEQ_MASK, seq_of. rewrite land_mask4.
  change 16 with (Z.shiftl 1 4) at 1. rewrite lor_shiftl_add; [done|lia|].
  change (2 ^ 4) with 16. Z.div_mod_to_equations. lia.
Qed.

Lemma block_of_frame n content :
  zlen content <= 59 -> block_of n content = frame (seq_of n) content.
Proof.
  intros Hl. pose proof (zlen_nonneg content) as Hn.
  rewrite frame_unfold by done. unfold block_of. rewrite dest_seq.
  unfold MESSAGE_HEADER_SIZE, MESSAGE_TRAILER_SIZE, MESSAGE_MIN, MESSAGE_SYNC.
  pose proof (seq_of_byte n) as Hs. unfold seq_byte in Hs.
  replace (2 + zlen content + 3) with (5 + zlen content) by lia.
  rewrite !u8_small by lia. rewrite msgblock_crc16_eq by lia.
  replace (5 + zlen content - 3) with (2 + zlen content) by lia.
  rewrite land_mask8, shiftr_div by lia. done.
Qed.

(** A sequence number is recovered from its low four bits while it is less than 16
    ahead. *)
Lemma clear_mask4 z : clear z 15 = z - z mod 16.
Proof.
  unfold clear. change 15 with (Z.ones 4). rewrite Z.ldiff_ones_r by lia.
  rewrite shiftr_div, Z.shiftl_mul_pow2 by lia. change (2 ^ 4) with 16.
  pose proof (Z.div_mod z 16). lia.
Qed.

Lemma lor_low4 a b : 0 <= b < 16 -> Z.lor (16 * a) b = 16 * a + b.
Proof.
  intros Hb. replace (16 * a) with (Z.shiftl a 4) by (rewrite Z.shiftl_mul_pow2; lia).
  rewrite lor_shiftl_add by lia. rewrite Z.shiftl_mul_pow2 by lia. lia.
Qed.

Section facts.
Context {D : Type} `{DoubleOps D} `{HostOS D}.
Notation qmsg := (queue_message D).

Lemma receive_seq_of_exact (sq : serialqueue D) n :
  0 <= sq_receive_seq sq <= n -> n < sq_receive_seq sq + 16 -> n < 18446744073709551616 ->
  receive_seq_of sq (seq_of n) = n.
Proof.
  intros Hr Hn Hw. unfold receive_seq_of, MESSAGE_SEQ_MASK, seq_of.
  rewrite land_mask4, clear_mask4. set (r := sq_receive_seq sq) in *.
  pose proof (Z.div_mod r 16 ltac:(lia)) as Er.
  replace (r - r mod 16) with (16 * (r / 16)) by lia.
  rewrite lor_low4 by (apply Z.mod_pos_bound; lia).
  destruct (Z.ltb_spec (16 * (r / 16) + (16 + n mod 16) mod 16) r);
    rewrite ?u64_small; Z.div_mod_to_equations; lia.
Qed.

(** ** The invariant *)

(** A message that waits for transmission. *)
Definition msg_ok (m : qmsg) : Prop :=
  0 < qm_len m <= MESSAGE_PAYLOAD_MAX /\ zlen (qm_msg m) = qm_len m /\ bytes (qm_msg m) /\
  qm_req_clock m < MAX_CLOCK.

Definition ready_of (queues : gmap Z (command_queue D)) (q : Z) : list qmsg :=
  from_option cq_ready_queue [] (queues !! q).
Definition stalled_of (queues : gmap Z (command_queue D)) (q : Z) : list qmsg :=
  from_option cq_stalled_queue [] (queues !! q).

Definition sumf (f : Z -> Z) (l : list Z) : Z := foldr (fun q n => f q + n) 0 l.

Definition ready_len (queues : gmap Z (command_queue D)) (q : Z) : Z :=
  len_sum (ready_of queues q).
Definition stalled_len (queues : gmap Z (command_queue D)) (q : Z) : Z :=
  len_sum (stalled_of queues q).

Record queues_ok (sq : serialqueue D) : Prop := {
  qo_nodup : NoDup (sq_pending_queues sq);
  qo_pending : forall q, q ∈ sq_pending_queues sq <->
    exists cq, sq_queues sq !! q = Some cq /\ cq_ready_queue cq ++ cq_stalled_queue cq <> [];
  qo_msgs : forall q cq, sq_queues sq !! q = Some cq ->
    Forall msg_ok (cq_ready_queue cq ++ cq_stalled_queue cq);
  qo_ready : sq_ready_bytes sq = sumf (ready_len (sq_queues sq)) (sq_pending_queues sq);
  qo_stalled : sq_stalled_bytes sq = sumf (stalled_len (sq_queues sq)) (sq_pending_queues sq);
  qo_small : sq_ready_bytes sq + sq_stalled_bytes sq < 2147483648;
}.

(** The block of sequence number [n] in the sent queue. *)
Definition sent_block (n : Z) (m : qmsg) : Prop :=
  exists content, qm_msg m = frame (seq_of n) content /\ bytes content /\
    zlen content <= MESSAGE_PAYLOAD_MAX /\ qm_len m = MESSAGE_MIN + zlen content.

Record window_ok (sq : serialqueue D) : Prop := {
  wo_seq : 1 <= sq_receive_seq sq <= sq_send_seq sq;
  wo_small : sq_send_seq sq < 9223372036854775808;
  wo_count : sq_send_seq sq - sq_receive_seq sq = zlen (sq_sent_queue sq);
  wo_limit : zlen (sq_sent_queue sq) <= MAX_PENDING_BLOCKS;
  wo_sent : forall i m, sq_sent_queue sq !! i = Some m ->
    sent_block (sq_receive_seq sq + Z.of_nat i) m;
  wo_bytes : sq_need_ack_bytes sq = len_sum (sq_sent_queue sq);
}.

(** ** Sums over the queues *)

Lemma len_sum_app (l k : list qmsg) : len_sum (l ++ k) = len_sum l + len_sum k.
Proof. induction l as [|m l IH]; simpl; [done|]. unfold len_sum in *. simpl. lia. Qed.

Lemma len_sum_nonneg (l : list qmsg) : Forall msg_ok l -> 0 <= len_sum l.
Proof.
  induction 1 as [|m l Hm Hl IH]; unfold len_sum in *; simpl; [lia|].
  destruct Hm as [Hm _]. lia.
Qed.

Lemma len_sum_pos (l : list qmsg) : Forall msg_ok l -> l <> [] -> 0 < len_sum l.
Proof.
  intros Hl Hne. destruct Hl as [|m l Hm Hl]; [done|]. apply len_sum_nonneg in Hl.
  unfold len_sum in *. simpl. destruct Hm as [Hm _]. lia.
Qed.

Lemma sumf_ext f f' l : (forall q, q ∈ l -> f q = f' q) -> sumf f l = sumf f' l.
Proof.
  intros Hf. induction l as [|q l IH]; simpl; [done|].
  rewrite Hf by set_solver. rewrite IH by (intros; apply Hf; set_solver). done.
Qed.

Lemma filter_ne_id (l : list Z) q : q ∉ l -> filter (fun x => x <> q) l = l.
Proof.
  induction l as [|x l IH]; intros Hq; [done|]. rewrite filter_cons_True by set_solver.
  f_equal. apply IH. set_solver.
Qed.

Lemma sumf_split f l q :
  NoDup l -> q ∈ l -> sumf f l = f q + sumf f (filter (fun x => x <> q) l).
Proof.
  intros Hd. induction Hd as [|x l Hx Hd IH]; intros Hq; [set_solver|].
  rewrite filter_cons. destruct (decide (x <> q)) as [Hne|He%dec_stable].
  - simpl. rewrite IH by set_solver. lia.
  - subst. simpl. by rewrite filter_ne_id.
Qed.

Lemma sumf_app f l k : sumf f (l ++ k) = sumf f l + sumf f k.
Proof. induction l; simpl; [done|]. rewrite IHl. lia. Qed.

(** Changing the value at one key changes the sum by the difference. *)
Lemma sumf_change f f' l q :
  NoDup l -> q ∈ l -> (forall x, x <> q -> f' x = f x) ->
  sumf f' l = sumf f l - f q + f' q.
Proof.
  intros Hd Hq Hf. rewrite (sumf_split f' l q), (sumf_split f l q) by done.
  rewrite (sumf_ext f' f); [lia|]. intros x [Hx _]%list_elem_of_filter. by apply Hf.
Qed.

Lemma sumf_zero f l : (forall q, q ∈ l -> f q = 0) -> sumf f l = 0.
Proof.
  intros Hf. rewrite (sumf_ext f (fun _ => 0)) by done. clear Hf. induction l; simpl; lia.
Qed.

Lemma sumf_nonneg f l : (forall q, 0 <= f q) -> 0 <= sumf f l.
Proof. intros Hf. induction l; simpl; [done|]. specialize (Hf a). lia. Qed.

Lemma sumf_member f l q : (forall q, 0 <= f q) -> q ∈ l -> f q <= sumf f l.
Proof.
  intros Hf. induction l as [|x l IH]; simpl; [set_solver|].
  intros [->|Hq]%elem_of_cons; [pose proof (sumf_nonneg f l Hf)|specialize (Hf x); apply IH in Hq];
    lia.
Qed.

#[local] Arguments sumf : simpl never.
#[local] Arguments len_sum : simpl never.

(** ** Running the operations *)

Lemma bind_sqget {A B} (f : serialqueue D -> A) (k : A -> M (sqworld D) B) w :
  bind (sqget f) k w = k (f (w_sq w)) w.
Proof. done. Qed.

Lemma bind_sqmod {B} f (k : unit -> M (sqworld D) B) w :
  bind (sqmod f) k w = k tt (w <| w_sq ::= f |>).
Proof. done. Qed.

Lemma sqmod_run f (w : sqworld D) : sqmod f w = Ret tt (w <| w_sq := f (w_sq w) |>).
Proof. done. Qed.

(** The state after a change of the queues and of their counters only. *)
Definition requeue (Q : gmap Z (command_queue D)) (r s : Z) (sq : serialqueue D) : serialqueue D :=
  sq <| sq_queues := Q |> <| sq_stalled_bytes := s |> <| sq_ready_bytes := r |>.

Lemma unstall_spec (stalled : list qmsg) ack_clock ms still now_ready ms' :
  unstall stalled ack_clock ms = (still, now_ready, ms') ->
  stalled = now_ready ++ still /\ Forall (fun m : qmsg => qm_min_clock m <= ack_clock) now_ready.
Proof.
  revert still now_ready ms'. induction stalled as [|m l IH]; intros still nr ms'; simpl.
  - intros [= <- <- <-]. done.
  - destruct (Z.ltb_spec ack_clock (qm_min_clock m)); [by intros [= <- <- <-]|].
    destruct (unstall l ack_clock ms) as [[st nr'] ms''] eqn:E. intros [= <- <- <-].
    destruct (IH _ _ _ eq_refl) as [-> HF]. split; [done|]. by constructor; [lia|].
Qed.

(** A change of one queue. *)
Lemma ready_len_insert queues q cq x :
  ready_len (<[q := cq]> queues) x
  = if decide (x = q) then len_sum (cq_ready_queue cq) else ready_len queues x.
Proof.
  unfold ready_len, ready_of. destruct decide as [->|]; by rewrite ?lookup_insert_eq, ?lookup_insert_ne.
Qed.

Lemma stalled_len_insert queues q cq x :
  stalled_len (<[q := cq]> queues) x
  = if decide (x = q) then len_sum (cq_stalled_queue cq) else stalled_len queues x.
Proof.
  unfold stalled_len, stalled_of. destruct decide as [->|]; by rewrite ?lookup_insert_eq, ?lookup_insert_ne.
Qed.

Lemma queues_ok_nonneg sq : queues_ok sq ->
  (forall q, 0 <= ready_len (sq_queues sq) q) /\ (forall q, 0 <= stalled_len (sq_queues sq) q).
Proof.
  intros Hq. split; intros q; unfold ready_len, ready_of, stalled_len, stalled_of;
    destruct (sq_queues sq !! q) as [cq|] eqn:E; simpl; try done;
    apply len_sum_nonneg; pose proof (qo_msgs _ Hq _ _ E) as HF;
    apply Forall_app in HF as [??]; done.
Qed.

Lemma queues_ok_bounds sq : queues_ok sq ->
  0 <= sq_ready_bytes sq /\ 0 <= sq_stalled_bytes sq.
Proof.
  intros Hq. destruct (queues_ok_nonneg sq Hq).
  rewrite (qo_ready _ Hq), (qo_stalled _ Hq). split; by apply sumf_nonneg.
Qed.

(** The sums after the replacement of a pending queue. *)
Lemma sumf_insert_pending sq q cq cq' :
  queues_ok sq -> q ∈ sq_pending_queues sq -> sq_queues sq !! q = Some cq ->
  sumf (ready_len (<[q := cq']> (sq_queues sq))) (sq_pending_queues sq)
  = sq_ready_bytes sq - len_sum (cq_ready_queue cq) + len_sum (cq_ready_queue cq') /\
  sumf (stalled_len (<[q := cq']> (sq_queues sq))) (sq_pending_queues sq)
  = sq_stalled_bytes sq - len_sum (cq_stalled_queue cq) + len_sum (cq_stalled_queue cq').
Proof.
  intros Hq Hp Hcq. split.
  - rewrite (sumf_change (ready_len (sq_queues sq)) _ _ q), <- (qo_ready _ Hq);
      [| apply (qo_nodup _ Hq) | done |];
      [|intros x Hx; by rewrite ready_len_insert, decide_False].
    rewrite ready_len_insert, decide_True by done. unfold ready_len, ready_of. by rewrite Hcq.
  - rewrite (sumf_change (stalled_len (sq_queues sq)) _ _ q), <- (qo_stalled _ Hq);
      [| apply (qo_nodup _ Hq) | done |];
      [|intros x Hx; by rewrite stalled_len_insert, decide_False].
    rewrite stalled_len_insert, decide_True by done. unfold stalled_len, stalled_of. by rewrite Hcq.
Qed.

(** A pending queue holds no more bytes than are counted. *)
Lemma pending_bound sq q cq :
  queues_ok sq -> q ∈ sq_pending_queues sq -> sq_queues sq !! q = Some cq ->
  len_sum (cq_ready_queue cq) <= sq_ready_bytes sq /\
  len_sum (cq_stalled_queue cq) <= sq_stalled_bytes sq.
Proof.
  intros Hq Hp Hcq. destruct (queues_ok_nonneg sq Hq) as [Hr Hs].
  rewrite (qo_ready _ Hq), (qo_stalled _ Hq).
  pose proof (sumf_member _ _ q Hr Hp) as H1. pose proof (sumf_member _ _ q Hs Hp) as H2.
  unfold ready_len at 1, ready_of in H1. unfold stalled_len at 1, stalled_of in H2.
  by rewrite Hcq in H1, H2.
Qed.

(** Messages that become ready move from the front of the stalled queue to the end of the
    ready queue. *)
Lemma queues_ok_unstall sq q cq still now_ready :
  queues_ok sq -> q ∈ sq_pending_queues sq -> sq_queues sq !! q = Some cq ->
  cq_stalled_queue cq = now_ready ++ still ->
  queues_ok (requeue (<[q := mk_cq still (cq_ready_queue cq ++ now_ready)]> (sq_queues sq))
               (i32 (sq_ready_bytes sq + len_sum now_ready))
               (i32 (sq_stalled_bytes sq - len_sum now_ready)) sq).
Proof.
  intros Hq Hp Hcq Hst. pose proof (qo_msgs _ Hq _ _ Hcq) as HF.
  pose proof (queues_ok_bounds sq Hq) as [Hb1 Hb2]. pose proof (qo_small _ Hq) as Hsm.
  destruct (pending_bound sq q cq Hq Hp Hcq) as [_ Hlen].
  rewrite Hst in HF, Hlen. rewrite len_sum_app in Hlen.
  rewrite !Forall_app in HF. destruct HF as (HF1 & HF2 & HF3).
  pose proof (len_sum_nonneg _ HF2). pose proof (len_sum_nonneg _ HF3).
  rewrite !i32_small by lia.
  destruct (sumf_insert_pending sq q cq (mk_cq still (cq_ready_queue cq ++ now_ready)) Hq Hp Hcq)
    as [Er Es].
  split; cbn [requeue upd sq_queues sq_pending_queues sq_ready_bytes sq_stalled_bytes eta_sq].
  - apply (qo_nodup _ Hq).
  - intros x. rewrite (qo_pending _ Hq). destruct (decide (x = q)) as [->|Hne].
    + rewrite lookup_insert_eq, Hcq. split; intros (c & [= <-] & Hc); eexists;
        (split; [done|]); cbn in *; rewrite ?Hst, <- ?app_assoc in *; done.
    + by rewrite lookup_insert_ne.
  - intros x c. destruct (decide (x = q)) as [->|Hne].
    + rewrite lookup_insert_eq. intros [= <-]. cbn. rewrite !Forall_app. done.
    + rewrite lookup_insert_ne by done. apply (qo_msgs _ Hq).
  - rewrite Er. cbn. rewrite len_sum_app. lia.
  - rewrite Es, Hst, len_sum_app. cbn. lia.
  - lia.
Qed.

(** The messages of a queue in the order of transmission. *)
Definition queue_of (sq : serialqueue D) (q : Z) : list qmsg :=
  ready_of (sq_queues sq) q ++ stalled_of (sq_queues sq) q.

Lemma stalled_loop_run pending ack_clock bgtime ms mr w :
  queues_ok (w_sq w) -> (forall q, q ∈ pending -> q ∈ sq_pending_queues (w_sq w)) ->
  exists ms' mr' Q r s,
    let sq' := requeue Q r s (w_sq w) in
    stalled_loop pending ack_clock bgtime ms mr w = Ret (ms', mr') (w <| w_sq := sq' |>) /\
    queues_ok sq' /\ forall q, queue_of sq' q = queue_of (w_sq w) q.
Proof.
  revert ms mr w. induction pending as [|q pending IH]; intros ms mr w Hq Hin.
  { exists ms, mr, (sq_queues (w_sq w)), (sq_ready_bytes (w_sq w)), (sq_stalled_bytes (w_sq w)).
    unfold requeue. destruct w as [[] ??]. done. }
  cbn [stalled_loop]. rewrite bind_sqget.
  destruct (proj1 (qo_pending _ Hq q) (Hin q ltac:(set_solver))) as (cq & Hcq & Hne).
  rewrite Hcq. cbn [deref]. rewrite bind_ret_l.
  destruct (unstall _ _ _) as [[still nr] ms'] eqn:Eu.
  apply unstall_spec in Eu as [Est _]. rewrite bind_sqmod.
  pose proof (queues_ok_unstall (w_sq w) q cq still nr Hq (Hin q ltac:(set_solver)) Hcq Est) as Hq'.
  set (w1 := w <| w_sq ::= _ |>).
  change (w_sq w1) with (requeue (<[q := mk_cq still (cq_ready_queue cq ++ nr)]> (sq_queues (w_sq w)))
    (i32 (sq_ready_bytes (w_sq w) + len_sum nr)) (i32 (sq_stalled_bytes (w_sq w) - len_sum nr)) (w_sq w)) in *.
  match goal with |- context [stalled_loop pending _ _ ms' ?mr' w1] =>
    destruct (IH ms' mr' w1) as (ms2 & mr2 & Q & r & s & Hrun & Hok & Hfifo);
      [exact Hq'|intros x Hx; apply Hin; set_solver|] end.
  exists ms2, mr2, Q, r, s. rewrite Hrun. split; [done|]. split; [done|].
  intros x. etrans; [apply Hfifo|]. unfold queue_of, ready_of, stalled_of, requeue. cbn.
  destruct (decide (x = q)) as [->|Hx];
    [rewrite lookup_insert_eq, Hcq; simpl; by rewrite Est, app_assoc | by rewrite lookup_insert_ne].
Qed.

(** The invariants depend on the fields they mention only. *)
Lemma queues_ok_view sq sq' :
  (sq_queues sq', sq_pending_queues sq', sq_ready_bytes sq', sq_stalled_bytes sq')
  = (sq_queues sq, sq_pending_queues sq, sq_ready_bytes sq, sq_stalled_bytes sq) ->
  queues_ok sq -> queues_ok sq'.
Proof. intros [= E1 E2 E3 E4] []. split; rewrite ?E1, ?E2, ?E3, ?E4; done. Qed.

Lemma window_ok_view sq sq' :
  (sq_send_seq sq', sq_receive_seq sq', sq_sent_queue sq', sq_need_ack_bytes sq')
  = (sq_send_seq sq, sq_receive_seq sq, sq_sent_queue sq, sq_need_ack_bytes sq) ->
  window_ok sq -> window_ok sq'.
Proof. intros [= E1 E2 E3 E4] []. split; rewrite ?E1, ?E2, ?E3, ?E4; done. Qed.

(** The state after [check_send_command]. *)
Definition checked (Q : gmap Z (command_queue D)) (r s k : Z) (sq : serialqueue D) : serialqueue D :=
  requeue Q r s sq <| sq_need_kick_clock := k |>.

Lemma checked_same sq :
  checked (sq_queues sq) (sq_ready_bytes sq) (sq_stalled_bytes sq) (sq_need_kick_clock sq) sq = sq.
Proof. by destruct sq. Qed.

Section check_send.
Context (Hnever : (PR_NEVER =? PR_NOW)%D = false).

(** What [check_send_command] promises: it keeps the queues in order, and asks for a
    transmission only while the window is open. *)
Definition check_post (w : sqworld D) (res : outcome (sqworld D) D) : Prop :=
  exists t Q r s k,
    let sq' := checked Q r s k (w_sq w) in
    res = Ret t (w <| w_sq := sq' |>) /\
    queues_ok sq' /\ (forall q, queue_of sq' q = queue_of (w_sq w) q) /\
    ((t =? PR_NOW)%D = true ->
     zlen (sq_sent_queue (w_sq w)) < MAX_PENDING_BLOCKS /\ window_full (w_sq w) = false).

Lemma check_post_wait w : queues_ok (w_sq w) -> check_post w (ret PR_NEVER w).
Proof using Hnever.
  intros Hq. exists PR_NEVER, (sq_queues (w_sq w)), (sq_ready_bytes (w_sq w)),
    (sq_stalled_bytes (w_sq w)), (sq_need_kick_clock (w_sq w)). cbv zeta.
  rewrite checked_same. split; [by destruct w|]. split; [done|]. split; [done|].
  intros E. by rewrite E in Hnever.
Qed.

Lemma check_send_run pending eventtime w :
  queues_ok (w_sq w) -> window_ok (w_sq w) ->
  check_post w (check_send_command pending eventtime w).
Proof using Hnever.
  intros Hq Hw. unfold check_send_command. rewrite bind_sqget.
  pose proof (wo_seq _ Hw). pose proof (wo_small _ Hw). pose proof (wo_count _ Hw).
  rewrite u64_small by lia. unfold UINT64_MAX.
  destruct (Z.leb_spec MAX_PENDING_BLOCKS (sq_send_seq (w_sq w) - sq_receive_seq (w_sq w)))
    as [Hl|Hl]; cbn [andb].
  { rewrite (proj2 (Z.eqb_neq _ _)) by lia. by apply check_post_wait. }
  destruct (window_full (w_sq w)) eqn:Ewin; [by apply check_post_wait|].
  match goal with |- context [stalled_loop _ ?ac ?bg ?a ?b] =>
    destruct (stalled_loop_run (sq_pending_queues (w_sq w)) ac bg a b w Hq)
      as (ms & mr & Q & r & s & Hrun & Hok & Hfifo); [done|] end.
  rewrite (bind_Ret _ _ _ _ _ Hrun), bind_sqget.
  assert (Hend : forall t k, check_post w (Ret t (w <| w_sq := checked Q r s k (w_sq w) |>))).
  { intros t k. exists t, Q, r, s, k. split; [done|]. split; [by eapply queues_ok_view, Hok|].
    split; [exact Hfifo|]. intros _. split; [lia|done]. }
  repeat case_match; try apply (Hend _ (sq_need_kick_clock (w_sq w))); apply Hend.
Qed.

End check_send.

(** ** Building a block *)

(** The ready message with the lowest [req_clock] of all queues. *)
Definition best_head (g : Z -> list qmsg) (q : Z) (m : qmsg) : Prop :=
  head (g q) = Some m /\
  forall q' m', head (g q') = Some m' -> qm_req_clock m <= qm_req_clock m'.

(** Filling a block with [room] bytes left from the ready queues [g]: always the message
    with the lowest [req_clock], until the queues are empty or it does not fit. *)
Inductive fills : Z -> (Z -> list qmsg) -> list qmsg -> (Z -> list qmsg) -> Prop :=
| fills_empty room g : (forall q, g q = []) -> fills room g [] g
| fills_full room g q m : best_head g q m -> room < qm_len m -> fills room g [] g
| fills_take room g q m rest g1 ms g' :
    best_head g q m -> g q = m :: rest -> qm_len m <= room ->
    (forall x, g1 x = if decide (x = q) then rest else g x) ->
    fills (room - qm_len m) g1 ms g' -> fills room g (m :: ms) g'.

Lemma find_ready_spec queues pending mc best :
  (forall q, q ∈ pending -> is_Some (queues !! q)) ->
  exists res, find_ready queues pending mc best = Some res /\
    ((res = best /\ forall q m, q ∈ pending -> head (ready_of queues q) = Some m -> mc <= qm_req_clock m) \/
     exists q m, res = Some (q, m) /\ q ∈ pending /\ head (ready_of queues q) = Some m /\
       qm_req_clock m < mc /\
       forall q' m', q' ∈ pending -> head (ready_of queues q') = Some m' ->
         qm_req_clock m <= qm_req_clock m').
Proof.
  revert mc best. induction pending as [|q pending IH]; intros mc best Hin.
  { exists best. split; [done|]. left. set_solver. }
  destruct (Hin q ltac:(set_solver)) as [cq Hcq]. cbn [find_ready]. rewrite Hcq. cbn.
  assert (Hq : ready_of queues q = cq_ready_queue cq) by (unfold ready_of; by rewrite Hcq).
  assert (Hin' : forall q, q ∈ pending -> is_Some (queues !! q)) by (intros; apply Hin; set_solver).
  destruct (cq_ready_queue cq) as [|m ready] eqn:Er.
  { destruct (IH mc best Hin') as (res & -> & Hres). exists res. split; [done|].
    destruct Hres as [[-> Hall]|(q1 & m1 & -> & Hq1 & Hh & Hlt & Hall)]; [left|right].
    - split; [done|]. intros x m [->|Hx]%elem_of_cons; [by rewrite Hq|by apply Hall].
    - exists q1, m1. split_and!; [done|set_solver|done|done|].
      intros x m [->|Hx]%elem_of_cons; [by rewrite Hq|by apply Hall]. }
  destruct (Z.ltb_spec (qm_req_clock m) mc).
  - destruct (IH (qm_req_clock m) (Some (q, m)) Hin') as (res & -> & Hres). exists res.
    split; [done|]. right.
    destruct Hres as [[-> Hall]|(q1 & m1 & -> & Hq1 & Hh & Hlt & Hall)].
    + exists q, m. split_and!; [done|set_solver|by rewrite Hq|done|].
      intros x m' [->|Hx]%elem_of_cons; [rewrite Hq; by intros [= ->]|by apply Hall].
    + exists q1, m1. split_and!; [done|set_solver|done|lia|].
      intros x m' [->|Hx]%elem_of_cons; [rewrite Hq; intros [= <-]; lia|by apply Hall].
  - destruct (IH mc best Hin') as (res & -> & Hres). exists res. split; [done|].
    destruct Hres as [[-> Hall]|(q1 & m1 & -> & Hq1 & Hh & Hlt & Hall)]; [left|right].
    + split; [done|]. intros x m' [->|Hx]%elem_of_cons; [rewrite Hq; by intros [= <-]|by apply Hall].
    + exists q1, m1. split_and!; [done|set_solver|done|done|].
      intros x m' [->|Hx]%elem_of_cons; [rewrite Hq; intros [= <-]; lia|by apply Hall].
Qed.

(** The state after messages left the ready queues. *)
Definition drained (Q : gmap Z (command_queue D)) (P : list Z) (r : Z) (N : list qmsg)
    (sq : serialqueue D) : serialqueue D :=
  sq <| sq_queues := Q |> <| sq_pending_queues := P |> <| sq_ready_bytes := r |>
     <| sq_notify_queue := N |>.

(** The entries of [notify_queue] for messages sent in block [seq]. *)
Definition notes (seq : Z) (taken : list qmsg) : list qmsg :=
  map (fun m => qm_set_clocks (qm_min_clock m) seq m)
    (filter (fun m => Is_true (z2b (qm_notify_id m))) taken).

Lemma notes_one seq (m : qmsg) :
  notes seq [m] = if z2b (qm_notify_id m) then [qm_set_clocks (qm_min_clock m) seq m] else [].
Proof. unfold notes. cbn. by destruct (z2b (qm_notify_id m)). Qed.

Lemma queue_pending sq q cq m :
  queues_ok sq -> sq_queues sq !! q = Some cq -> head (cq_ready_queue cq) = Some m ->
  q ∈ sq_pending_queues sq.
Proof.
  intros Hq Hcq Hh. apply (qo_pending _ Hq). exists cq. split; [done|].
  by destruct (cq_ready_queue cq).
Qed.

Lemma queues_ok_take sq q cq m rest P :
  queues_ok sq -> sq_queues sq !! q = Some cq -> cq_ready_queue cq = m :: rest ->
  P = (if bool_decide (rest = [] /\ cq_stalled_queue cq = [])
       then filter (fun x => x <> q) (sq_pending_queues sq) else sq_pending_queues sq) ->
  queues_ok (drained (<[q := mk_cq (cq_stalled_queue cq) rest]> (sq_queues sq)) P
               (sq_ready_bytes sq - qm_len m) (sq_notify_queue sq) sq).
Proof.
  intros Hq Hcq Hr ->. assert (Hp : q ∈ sq_pending_queues sq).
  { apply (queue_pending sq q cq m Hq Hcq). by rewrite Hr. }
  pose proof (qo_msgs _ Hq _ _ Hcq) as HF. rewrite Hr in HF. cbn in HF.
  apply Forall_cons in HF as [Hm HF].
  pose proof (qo_small _ Hq). destruct Hm as (Hlen & _).
  set (cq' := mk_cq (cq_stalled_queue cq) rest).
  destruct (sumf_insert_pending sq q cq cq' Hq Hp Hcq) as [Er Es].
  rewrite Hr in Er. unfold len_sum at 1 in Er. cbn [foldr] in Er. fold (len_sum rest) in Er.
  cbn [cq' cq_ready_queue cq_stalled_queue] in Er, Es.
  split; cbn [drained upd sq_queues sq_pending_queues sq_ready_bytes sq_stalled_bytes eta_sq].
  - case_bool_decide; [apply NoDup_filter|]; apply (qo_nodup _ Hq).
  - intros x. destruct (decide (x = q)) as [->|Hne].
    + rewrite lookup_insert_eq. case_bool_decide as Hb.
      * destruct Hb as [-> Hb]. rewrite list_elem_of_filter.
        split; [naive_solver|]. intros (c & [= <-] & Hc). cbn in Hc. by rewrite Hb in Hc.
      * split; [|done]. intros _. exists cq'. split; [done|]. cbn. intros He.
        apply Hb. by apply app_eq_nil in He.
    + rewrite lookup_insert_ne by done. rewrite <- (qo_pending _ Hq).
      case_bool_decide; [rewrite list_elem_of_filter; naive_solver|done].
  - intros x c. destruct (decide (x = q)) as [->|Hne].
    + rewrite lookup_insert_eq. by intros [= <-].
    + rewrite lookup_insert_ne by done. apply (qo_msgs _ Hq).
  - case_bool_decide as Hb; [|lia]. destruct Hb as [Hb _].
    rewrite (sumf_split _ _ q (qo_nodup _ Hq) Hp), ready_len_insert, decide_True in Er by done.
    change (cq_ready_queue cq') with rest in Er. rewrite Hb in Er.
    change (len_sum (@nil qmsg)) with 0 in Er. lia.
  - case_bool_decide as Hb; [|lia]. destruct Hb as [_ Hb].
    rewrite (sumf_split _ _ q (qo_nodup _ Hq) Hp), stalled_len_insert, decide_True in Es by done.
    change (cq_stalled_queue cq') with (cq_stalled_queue cq) in Es. rewrite Hb in Es.
    change (len_sum (@nil qmsg)) with 0 in Es. lia.
  - lia.
Qed.

Lemma take_ready_run sq q cq m rest :
  queues_ok sq -> sq_queues sq !! q = Some cq -> cq_ready_queue cq = m :: rest ->
  exists P, take_ready q m cq sq
    = drained (<[q := mk_cq (cq_stalled_queue cq) rest]> (sq_queues sq)) P
        (sq_ready_bytes sq - qm_len m) (sq_notify_queue sq ++ notes (sq_send_seq sq) [m]) sq /\
    queues_ok (take_ready q m cq sq).
Proof.
  intros Hq Hcq Hr. pose proof (queues_ok_take sq q cq m rest _ Hq Hcq Hr eq_refl) as Hok.
  pose proof (queues_ok_bounds _ Hok) as [Hb _]. pose proof (qo_small _ Hq) as Hsm.
  pose proof (queues_ok_bounds _ Hq) as [_ Hb'].
  pose proof (qo_msgs _ Hq _ _ Hcq) as HF. rewrite Hr in HF. apply Forall_cons in HF as [(Hl & _) _].
  cbn in Hb.
  assert (E : exists P, take_ready q m cq sq
    = drained (<[q := mk_cq (cq_stalled_queue cq) rest]> (sq_queues sq)) P
        (sq_ready_bytes sq - qm_len m) (sq_notify_queue sq ++ notes (sq_send_seq sq) [m]) sq /\
    P = (if bool_decide (rest = [] /\ cq_stalled_queue cq = [])
         then filter (fun x => x <> q) (sq_pending_queues sq) else sq_pending_queues sq)).
  { eexists. split; [|reflexivity]. unfold take_ready, drained. rewrite Hr, notes_one. cbn [tail].
    destruct sq, cq. cbn in *. destruct (z2b (qm_notify_id m));
      cbn; rewrite ?app_nil_r; case_bool_decide; cbn; rewrite i32_small by lia; done. }
  destruct E as (P & E & EP). exists P. split; [done|]. rewrite E, EP.
  by eapply queues_ok_view, Hok.
Qed.

Lemma queued_msgs_sum (sq : serialqueue D) :
  Z.of_nat (queued_msgs sq) = sumf (fun q => zlen (queue_of sq q)) (sq_pending_queues sq).
Proof.
  unfold queued_msgs. induction (sq_pending_queues sq) as [|q l IH]; [done|].
  unfold sumf in *. cbn [foldr]. rewrite <- IH. unfold queue_of, ready_of, stalled_of.
  destruct (sq_queues sq !! q); simpl; unfold zlen; rewrite ?length_app; simpl; lia.
Qed.

Lemma queue_of_insert Q P r N sq q cq x :
  queue_of (drained (<[q := cq]> Q) P r N sq) x
  = if decide (x = q) then cq_ready_queue cq ++ cq_stalled_queue cq
    else queue_of (drained Q P r N sq) x.
Proof.
  unfold queue_of, ready_of, stalled_of. cbn.
  destruct decide as [->|]; by rewrite ?lookup_insert_eq, ?lookup_insert_ne.
Qed.

Lemma queued_take sq q cq m rest :
  queues_ok sq -> sq_queues sq !! q = Some cq -> cq_ready_queue cq = m :: rest ->
  Z.of_nat (queued_msgs (take_ready q m cq sq)) = Z.of_nat (queued_msgs sq) - 1.
Proof.
  intros Hq Hcq Hr. destruct (take_ready_run sq q cq m rest Hq Hcq Hr) as (P & E & Hok).
  assert (Hp : q ∈ sq_pending_queues sq).
  { apply (queue_pending sq q cq m Hq Hcq). by rewrite Hr. }
  rewrite !queued_msgs_sum. set (f := fun x => zlen (queue_of sq x)).
  set (f' := fun x => zlen (queue_of (take_ready q m cq sq) x)).
  assert (Hf : forall x, x <> q -> f' x = f x).
  { intros x Hx. unfold f', f. rewrite E, queue_of_insert, decide_False by done. done. }
  assert (Hfq : f' q = f q - 1).
  { unfold f', f. rewrite E, queue_of_insert, decide_True by done.
    unfold queue_of, ready_of, stalled_of. rewrite Hcq. cbn [from_option cq_ready_queue cq_stalled_queue].
    rewrite Hr, !zlen_app, zlen_cons. lia. }
  assert (HP : P = (if bool_decide (rest = [] /\ cq_stalled_queue cq = [])
       then filter (fun x => x <> q) (sq_pending_queues sq) else sq_pending_queues sq)).
  { change P with (sq_pending_queues (drained (<[q := mk_cq (cq_stalled_queue cq) rest]> (sq_queues sq)) P
      (sq_ready_bytes sq - qm_len m) (sq_notify_queue sq ++ notes (sq_send_seq sq) [m]) sq)).
    rewrite <- E. unfold take_ready. rewrite Hr. cbn. case_bool_decide; by case_match. }
  rewrite E. change (sq_pending_queues (drained _ P _ _ _)) with P.
  pose proof (sumf_change f f' _ q (qo_nodup _ Hq) Hp Hf) as Hch.
  rewrite HP. case_bool_decide as Hb; [|lia].
  rewrite (sumf_split f' _ q (qo_nodup _ Hq) Hp) in Hch.
  assert (f' q = 0).
  { unfold f'. rewrite E, queue_of_insert, decide_True by done. destruct Hb as [-> Hb].
    cbn [cq_ready_queue cq_stalled_queue]. by rewrite Hb. }
  lia.
Qed.

(** While messages are ready, the search finds the one of the highest priority. *)
Lemma find_ready_best sq :
  queues_ok sq -> sq_ready_bytes sq <> 0 ->
  exists q cq m rest, find_ready (sq_queues sq) (sq_pending_queues sq) MAX_CLOCK None = Some (Some (q, m)) /\
    sq_queues sq !! q = Some cq /\ cq_ready_queue cq = m :: rest /\
    best_head (ready_of (sq_queues sq)) q m.
Proof.
  intros Hq Hne.
  assert (Hdom : forall q, q ∈ sq_pending_queues sq -> is_Some (sq_queues sq !! q)).
  { intros q (cq & Hcq & _)%(qo_pending _ Hq). by exists cq. }
  assert (Hpend : forall q m, head (ready_of (sq_queues sq) q) = Some m ->
    q ∈ sq_pending_queues sq /\ msg_ok m).
  { intros q m Hh. unfold ready_of in Hh. destruct (sq_queues sq !! q) as [cq|] eqn:Ecq; [|done].
    cbn in Hh. split; [by eapply queue_pending|]. pose proof (qo_msgs _ Hq _ _ Ecq) as HF.
    destruct (cq_ready_queue cq); [done|]. injection Hh as ->. by apply Forall_cons in HF as [? _]. }
  destruct (find_ready_spec (sq_queues sq) (sq_pending_queues sq) MAX_CLOCK None Hdom)
    as (res & Hres & [[-> Hall]|(q & m & -> & Hp & Hh & _ & Hall)]).
  - exfalso. apply Hne. rewrite (qo_ready _ Hq). apply sumf_zero. intros q Hp. unfold ready_len. destruct (ready_of (sq_queues sq) q) as [|m l] eqn:Er; [done|].
    assert (Hh : head (ready_of (sq_queues sq) q) = Some m) by by rewrite Er.
    apply Hpend in Hh as Hm. apply Hall in Hh; [|done]. destruct Hm as (_ & _ & _ & _ & Hm). lia.
  - destruct (Hdom q Hp) as [cq Hcq]. assert (Hh' := Hh). unfold ready_of in Hh'. rewrite Hcq in Hh'.
    cbn in Hh'. destruct (cq_ready_queue cq) as [|m' rest] eqn:Er; [done|]. injection Hh' as ->.
    exists q, cq, m, rest. split_and!; [done|done|done|]. split; [done|].
    intros q' m' Hh'. apply (Hall q' m'); [|done]. by apply (Hpend q' m').
Qed.

Lemma drained_drained Q P r N Q' P' r' N' (sq : serialqueue D) :
  drained Q' P' r' N' (drained Q P r N sq) = drained Q' P' r' N' sq.
Proof. done. Qed.

(** No ready bytes: no ready message. *)
Lemma ready_empty sq q : queues_ok sq -> sq_ready_bytes sq = 0 -> ready_of (sq_queues sq) q = [].
Proof.
  intros Hq Hz. destruct (ready_of (sq_queues sq) q) as [|m l] eqn:Er; [done|exfalso].
  unfold ready_of in Er. destruct (sq_queues sq !! q) as [cq|] eqn:Ecq; [|done]. cbn in Er.
  assert (Hp : q ∈ sq_pending_queues sq) by (eapply queue_pending; [done..|by rewrite Er]).
  pose proof (qo_msgs _ Hq _ _ Ecq) as HF. apply Forall_app in HF as [HF _].
  pose proof (pending_bound sq q cq Hq Hp Ecq) as [Hb _].
  apply len_sum_pos in HF; [lia|by rewrite Er].
Qed.

Definition content_of (taken : list qmsg) : list Z := concat (map qm_msg taken).

(** What the loop promises: the messages of the highest priority that fit leave the ready
    queues, their bytes follow [content], and those that ask for it are noted. *)
Definition build_post (content : list Z) (w : sqworld D) (res : outcome (sqworld D) (list Z)) : Prop :=
  exists taken Q P r,
    let sq' := drained Q P r (sq_notify_queue (w_sq w) ++ notes (sq_send_seq (w_sq w)) taken) (w_sq w) in
    res = Ret (content ++ content_of taken) (w <| w_sq := sq' |>) /\
    queues_ok sq' /\ zlen (content ++ content_of taken) <= MESSAGE_PAYLOAD_MAX /\
    Forall msg_ok taken /\
    fills (MESSAGE_PAYLOAD_MAX - zlen content) (ready_of (sq_queues (w_sq w))) taken (ready_of Q) /\
    (forall q, stalled_of Q q = stalled_of (sq_queues (w_sq w)) q).

Lemma build_post_stop content w :
  queues_ok (w_sq w) -> zlen content <= MESSAGE_PAYLOAD_MAX ->
  fills (MESSAGE_PAYLOAD_MAX - zlen content) (ready_of (sq_queues (w_sq w))) []
    (ready_of (sq_queues (w_sq w))) ->
  build_post content w (Ret content w).
Proof.
  intros Hq Hc Hf.
  exists [], (sq_queues (w_sq w)), (sq_pending_queues (w_sq w)), (sq_ready_bytes (w_sq w)).
  cbv zeta. unfold content_of. cbn [map concat notes filter]. rewrite !app_nil_r.
  split; [by destruct w as [[] ??]|]. split; [by eapply queues_ok_view, Hq|].
  split; [done|]. split; [by constructor|]. done.
Qed.

Lemma build_post_take content w q cq m rest res :
  queues_ok (w_sq w) -> sq_queues (w_sq w) !! q = Some cq -> cq_ready_queue cq = m :: rest ->
  best_head (ready_of (sq_queues (w_sq w))) q m ->
  zlen content + qm_len m <= MESSAGE_PAYLOAD_MAX ->
  build_post (content ++ qm_msg m) (w <| w_sq ::= take_ready q m cq |>) res ->
  build_post content w res.
Proof.
  intros Hq Hcq Hr Hbest Hfit (taken & Q' & P' & r' & Hrun & Hok' & Hlen' & Htk & Hfills & Hst).
  assert (Hm : msg_ok m).
  { pose proof (qo_msgs _ Hq _ _ Hcq) as HF. rewrite Hr in HF. by apply Forall_cons in HF as [? _]. }
  destruct (take_ready_run _ q cq m rest Hq Hcq Hr) as (P & E & Hok).
  set (w1 := w <| w_sq ::= take_ready q m cq |>) in *.
  assert (Ew : w_sq w1 = drained (<[q := mk_cq (cq_stalled_queue cq) rest]> (sq_queues (w_sq w))) P
    (sq_ready_bytes (w_sq w) - qm_len m)
    (sq_notify_queue (w_sq w) ++ notes (sq_send_seq (w_sq w)) [m]) (w_sq w)) by exact E.
  rewrite Ew in Hrun, Hok', Hfills, Hst. rewrite drained_drained in Hrun, Hok'.
  cbn [drained upd eta_sq sq_queues sq_notify_queue sq_send_seq] in Hrun, Hok', Hfills, Hst.
  exists (m :: taken), Q', P', r'. cbv zeta.
  assert (En : sq_notify_queue (w_sq w) ++ notes (sq_send_seq (w_sq w)) (m :: taken)
    = (sq_notify_queue (w_sq w) ++ notes (sq_send_seq (w_sq w)) [m]) ++ notes (sq_send_seq (w_sq w)) taken).
  { rewrite <- app_assoc. f_equal. unfold notes. cbn. by destruct (z2b (qm_notify_id m)). }
  rewrite En. unfold content_of in *. cbn [map concat]. rewrite app_assoc.
  split; [exact Hrun|]. split; [done|]. split; [done|]. split; [by constructor|]. split.
  - eapply (fills_take _ _ q m rest); [done|unfold ready_of; by rewrite Hcq|lia| |].
    2: { rewrite zlen_app, Z.sub_add_distr, (proj1 (proj2 Hm)) in Hfills. exact Hfills. }
    intros x. unfold ready_of. destruct decide as [->|]; by rewrite ?lookup_insert_eq, ?lookup_insert_ne.
  - intros x. rewrite Hst. unfold stalled_of. destruct (decide (x = q)) as [->|];
      [by rewrite lookup_insert_eq, Hcq|by rewrite lookup_insert_ne].
Qed.

Lemma build_loop_run fuel content w :
  queues_ok (w_sq w) -> zlen content <= MESSAGE_PAYLOAD_MAX ->
  (queued_msgs (w_sq w) <= fuel)%nat ->
  build_post content w (build_loop fuel content w).
Proof.
  revert content w. induction fuel as [|fuel IH]; intros content w Hq Hc Hf;
    cbn [build_loop]; rewrite bind_sqget; destruct (Z.eqb_spec (sq_ready_bytes (w_sq w)) 0) as [Hz|Hz].
  1, 3: apply build_post_stop; [done..|]; apply fills_empty; intros q; by apply ready_empty.
  all: destruct (find_ready_best (w_sq w) Hq Hz) as (q & cq & m & rest & Hfind & Hcq & Hr & Hbest);
    pose proof (queued_take _ q cq m rest Hq Hcq Hr) as Hcount.
  { lia. }
  rewrite bind_sqget, Hfind. do 2 (cbn [deref]; rewrite bind_ret_l). cbn iota beta.
  assert (Hm : msg_ok m).
  { pose proof (qo_msgs _ Hq _ _ Hcq) as HF. rewrite Hr in HF. by apply Forall_cons in HF as [? _]. }
  destruct Hm as (Hm1 & Hm2 & Hm3).
  unfold MESSAGE_MAX, MESSAGE_TRAILER_SIZE, MESSAGE_HEADER_SIZE, MESSAGE_PAYLOAD_MAX, MESSAGE_MAX, MESSAGE_MIN in *.
  destruct (Z.ltb_spec (64 - 3) (2 + zlen content + qm_len m)) as [Hfull|Hfit].
  { apply build_post_stop; [done..|]. apply (fills_full _ _ q m); [done|].
    unfold MESSAGE_PAYLOAD_MAX, MESSAGE_MAX, MESSAGE_MIN. lia. }
  rewrite Hcq. cbn [deref]. rewrite bind_ret_l, bind_sqmod.
  destruct (take_ready_run _ q cq m rest Hq Hcq Hr) as (P & E & Hok).
  eapply build_post_take; [done..| |].
  { unfold MESSAGE_PAYLOAD_MAX, MESSAGE_MAX, MESSAGE_MIN. lia. }
  apply IH; [exact Hok|rewrite zlen_app; lia|].
  change (w_sq (w <| w_sq ::= take_ready q m cq |>)) with (take_ready q m cq (w_sq w)). lia.
Qed.

(** ** Sending blocks *)

(** The fields that transmission does not touch; [rto] changes with retransmissions. *)
Definition port_static (sq : serialqueue D) :=
  (sq_serial_fd_type sq, sq_client_id sq, sq_input_buf sq, sq_need_sync sq,
   sq_receive_window sq, sq_fast_readers sq).
Definition link_static (sq : serialqueue D) :=
  (port_static sq, sq_receive_seq sq, sq_last_ack_seq sq, sq_last_ack_bytes sq,
   sq_receive_queue sq, sq_rto sq).

Lemma block_sent n content :
  bytes content -> zlen content <= MESSAGE_PAYLOAD_MAX ->
  forall ty rt, sent_block n (qm_set_times ty rt (message_set (block_of n content)
    (zlen (block_of n content)) message_alloc)).
Proof.
  intros Hb Hl ty rt. unfold MESSAGE_PAYLOAD_MAX, MESSAGE_MAX, MESSAGE_MIN in *.
  exists content. cbn [qm_set_times qm_msg qm_len message_set message_alloc].
  rewrite block_of_frame by lia. split_and!; [|done|done|].
  - unfold takeZ, zlen. rewrite Nat2Z.id. apply firstn_all.
  - by rewrite zlen_frame.
Qed.

Lemma len_sum_sent r (l : list qmsg) :
  (forall i m, l !! i = Some m -> sent_block (r + Z.of_nat i) m) ->
  zlen l * 5 <= len_sum l <= zlen l * 64.
Proof.
  revert r. induction l as [|m l IH]; intros r Hl; [done|].
  destruct (Hl 0%nat m eq_refl) as (c & _ & _ & Hc & Hm).
  assert (zlen l * 5 <= len_sum l <= zlen l * 64).
  { apply (IH (r + 1)). intros i x Hx. specialize (Hl (S i) x Hx).
    by replace (r + 1 + Z.of_nat i) with (r + Z.of_nat (S i)) by lia. }
  unfold MESSAGE_PAYLOAD_MAX, MESSAGE_MAX, MESSAGE_MIN in *. pose proof (zlen_nonneg c).
  rewrite zlen_cons. unfold len_sum in *. cbn [foldr]. lia.
Qed.

Lemma bytes_content taken : Forall msg_ok taken -> bytes (content_of taken).
Proof.
  unfold content_of. induction 1 as [|m l Hm Hl IH]; [constructor|]. cbn.
  apply bytes_app. split; [apply Hm|done].
Qed.

(** The window after one more block. *)
Lemma window_ok_send sq sq' m :
  window_ok sq -> zlen (sq_sent_queue sq) < MAX_PENDING_BLOCKS ->
  sq_send_seq sq + 1 < 9223372036854775808 -> sent_block (sq_send_seq sq) m ->
  sq_send_seq sq' = sq_send_seq sq + 1 -> sq_receive_seq sq' = sq_receive_seq sq ->
  sq_sent_queue sq' = sq_sent_queue sq ++ [m] ->
  sq_need_ack_bytes sq' = i32 (sq_need_ack_bytes sq + qm_len m) ->
  window_ok sq'.
Proof.
  intros Hw Hlt Hsm Hm E1 E2 E3 E4. pose proof (wo_seq _ Hw). pose proof (wo_count _ Hw).
  pose proof (len_sum_sent _ _ (wo_sent _ Hw)) as Hls. unfold MAX_PENDING_BLOCKS in *.
  assert (Hml : 5 <= qm_len m <= 64).
  { destruct Hm as (c & _ & _ & Hc & ->). pose proof (zlen_nonneg c).
    unfold MESSAGE_PAYLOAD_MAX, MESSAGE_MAX, MESSAGE_MIN in *. lia. }
  split; rewrite ?E1, ?E2, ?E3, ?zlen_app; change (zlen [m]) with 1; unfold MAX_PENDING_BLOCKS; try lia.
  - intros i x Hx. apply lookup_app_Some in Hx as [Hx|[Hi Hx]]; [by apply (wo_sent _ Hw)|].
    apply list_lookup_singleton_Some in Hx as [Hi' <-].
    replace (sq_receive_seq sq + Z.of_nat i) with (sq_send_seq sq); [done|unfold zlen in *; lia].
  - rewrite E4, (wo_bytes _ Hw), len_sum_app. change (len_sum [m]) with (qm_len m + 0).
    rewrite i32_small by lia. lia.
Qed.

(** The fields of the queues of messages. *)
Definition queue_view (sq : serialqueue D) :=
  (sq_queues sq, sq_pending_queues sq, sq_ready_bytes sq, sq_stalled_bytes sq, sq_notify_queue sq).

Lemma queue_view_ok sq sq' : queue_view sq' = queue_view sq -> queues_ok sq -> queues_ok sq'.
Proof. intros [= ? ? ? ? ?]. apply queues_ok_view. congruence. Qed.

Lemma store_block_run pending eventtime content w :
  window_ok (w_sq w) -> zlen (sq_sent_queue (w_sq w)) < MAX_PENDING_BLOCKS ->
  sq_send_seq (w_sq w) + 1 < 9223372036854775808 ->
  bytes content -> zlen content <= MESSAGE_PAYLOAD_MAX ->
  exists m w', store_block pending eventtime content w = Ret (qm_msg m) w' /\
    qm_msg m = frame (seq_of (sq_send_seq (w_sq w))) content /\
    window_ok (w_sq w') /\ sq_sent_queue (w_sq w') = sq_sent_queue (w_sq w) ++ [m] /\
    sq_send_seq (w_sq w') = sq_send_seq (w_sq w) + 1 /\
    queue_view (w_sq w') = queue_view (w_sq w) /\
    link_static (w_sq w') = link_static (w_sq w) /\ w_out w' = w_out w.
Proof.
  intros Hw Hlt Hsm Hb Hl. unfold store_block. rewrite bind_sqget.
  pose proof (block_sent (sq_send_seq (w_sq w)) content Hb Hl eventtime) as Hblk.
  assert (Hfr := block_of_frame (sq_send_seq (w_sq w)) content Hl).
  assert (Hz := zlen_frame (seq_of (sq_send_seq (w_sq w))) content Hl).
  unfold MESSAGE_PAYLOAD_MAX, MESSAGE_MAX, MESSAGE_MIN in *.
  rewrite (proj2 (Z.ltb_ge _ _)) by (rewrite Hfr, Hz; lia).
  match goal with |- context [qm_set_times eventtime ?rt ?mm] =>
    set (m := qm_set_times eventtime rt mm); specialize (Hblk rt); fold m in Hblk end.
  assert (Hmsg : qm_msg m = block_of (sq_send_seq (w_sq w)) content).
  { unfold m. cbn [qm_set_times qm_msg message_set]. unfold takeZ, zlen.
    rewrite Nat2Z.id. apply firstn_all. }
  assert (Hlenm : qm_len m = zlen (block_of (sq_send_seq (w_sq w)) content)) by done.
  rewrite <- Hlenm, <- Hmsg. rewrite Hfr in Hmsg. clearbody m.
  pose proof (wo_seq _ Hw).
  assert (Hend : forall sq', sq_send_seq sq' = u64 (sq_send_seq (w_sq w) + 1) ->
    sq_receive_seq sq' = sq_receive_seq (w_sq w) -> sq_sent_queue sq' = sq_sent_queue (w_sq w) ++ [m] ->
    sq_need_ack_bytes sq' = i32 (sq_need_ack_bytes (w_sq w) + qm_len m) -> window_ok sq').
  { intros sq' E1 E2 E3 E4. rewrite u64_small in E1 by lia.
    by apply (window_ok_send (w_sq w) sq' m). }
  unfold when, update_timer, pr_mod, modify, sqmod, bind, ret.
  destruct (bool_decide _), (_ =? 0); eexists m, _;
    (split; [reflexivity|]); (split; [done|]); (split; [by apply Hend|]);
    (split; [done|]); (split; [by apply u64_small; lia|]); done.
Qed.

(** One more block: the messages of the highest priority that fit, in the frame of the
    next sequence number, go to the sent queue. *)
Lemma build_and_send_run pending eventtime w :
  queues_ok (w_sq w) -> window_ok (w_sq w) ->
  zlen (sq_sent_queue (w_sq w)) < MAX_PENDING_BLOCKS ->
  sq_send_seq (w_sq w) + 1 < 9223372036854775808 ->
  exists taken m w', build_and_send_command pending eventtime w = Ret (qm_msg m) w' /\
    queues_ok (w_sq w') /\ window_ok (w_sq w') /\
    qm_msg m = frame (seq_of (sq_send_seq (w_sq w))) (content_of taken) /\
    zlen (content_of taken) <= MESSAGE_PAYLOAD_MAX /\ Forall msg_ok taken /\
    sq_sent_queue (w_sq w') = sq_sent_queue (w_sq w) ++ [m] /\
    sq_send_seq (w_sq w') = sq_send_seq (w_sq w) + 1 /\
    link_static (w_sq w') = link_static (w_sq w) /\ w_out w' = w_out w /\
    fills MESSAGE_PAYLOAD_MAX (ready_of (sq_queues (w_sq w))) taken (ready_of (sq_queues (w_sq w'))) /\
    (forall q, stalled_of (sq_queues (w_sq w')) q = stalled_of (sq_queues (w_sq w)) q) /\
    sq_notify_queue (w_sq w') = sq_notify_queue (w_sq w) ++ notes (sq_send_seq (w_sq w)) taken.
Proof.
  intros Hq Hw Hlt Hsm. unfold build_and_send_command. rewrite bind_sqget.
  destruct (build_loop_run (queued_msgs (w_sq w)) [] w Hq ltac:(done) ltac:(done))
    as (taken & Q & P & r & Hrun & Hok & Hlen & Htk & Hfills & Hst).
  rewrite (bind_Ret _ _ _ _ _ Hrun). clear Hrun. cbn [app] in *.
  change (MESSAGE_PAYLOAD_MAX - zlen []) with MESSAGE_PAYLOAD_MAX in Hfills.
  set (w1 := w <| w_sq := drained Q P r _ (w_sq w) |>).
  destruct (store_block_run pending eventtime (content_of taken) w1)
    as (m & w' & Hrun & Hmsg & Hw' & E1 & E2 & Ev & Es & Eo);
    [by eapply window_ok_view, Hw|done|done|by apply bytes_content|done|].
  exists taken, m, w'. split; [exact Hrun|]. split; [by eapply queue_view_ok|].
  split; [done|]. injection Ev as -> _ _ _ ->. done.
Qed.

(** ** Writing *)

(** The bytes the events put on the wire. *)
Definition wire (evs : list sq_event) : list Z :=
  concat (map (fun e => match e with Ev_write d | Ev_can _ d => d | _ => [] end) evs).

Lemma wire_app l k : wire (l ++ k) = wire l ++ wire k.
Proof. unfold wire. by rewrite map_app, concat_app. Qed.

(** The world after events that leave the serial queue alone. *)
Definition emitted (evs : list sq_event) (n : nat) (w : sqworld D) : sqworld D :=
  mk_w (w_sq w) (w_out w ++ evs) n.

Lemma sys_call_run e what w :
  exists evs n, sys_call e what w = Ret tt (emitted evs n w) /\ wire evs = wire [e].
Proof.
  unfold sys_call, emit, sys_ret, when, modify, gets, bind, ret.
  destruct (_ <? 0); cbn [upd eta_w w_sq w_out w_calls].
  - rewrite <- app_assoc. eexists [e; Ev_log what], _. split; [reflexivity|].
    unfold wire. cbn. by rewrite app_nil_r.
  - eexists [e], _. split; reflexivity.
Qed.

(** Frames of a CAN bus carry the bytes in order, all of them unless a write fails. *)
Lemma can_write_run fuel buf w :
  (length buf <= fuel)%nat ->
  exists evs n, can_write_loop fuel buf w = Ret tt (emitted evs n w) /\ wire evs `prefix_of` buf /\
    ((forall k, 0 <= os_ret k) -> wire evs = buf /\
       Forall (fun e => exists d, e = Ev_can (sq_client_id (w_sq w)) d /\ zlen d <= 8) evs).
Proof.
  revert buf w. induction fuel as [|fuel IH]; intros [|b buf] w Hf; cbn [length] in Hf; try lia;
    try (exists [], (w_calls w); split; [unfold emitted; rewrite app_nil_r; by destruct w|];
         split; [by apply prefix_nil|]; by split).
  cbn [can_write_loop]. rewrite bind_sqget. set (d := take 8 (b :: buf)).
  assert (Hd : d ++ drop 8 (b :: buf) = b :: buf) by apply take_drop.
  assert (Hd8 : zlen d <= 8) by (unfold zlen, d; rewrite length_take; lia). clearbody d.
  unfold emit, sys_ret, modify, gets, bind, ret.
  change (w_calls (w <| w_out ::= _ |>)) with (w_calls w).
  set (w1 := _ <| w_calls ::= S |>).
  assert (Ew : w1 = emitted [Ev_can (sq_client_id (w_sq w)) d] (S (w_calls w)) w) by done.
  assert (Hw0 : wire [Ev_can (sq_client_id (w_sq w)) d] = d) by (unfold wire; cbn; apply app_nil_r).
  destruct (Z.ltb_spec (os_ret (w_calls w)) 0) as [Herr|Hok].
  - exists ([Ev_can (sq_client_id (w_sq w)) d] ++ [Ev_log "can write"]), (w_calls w1).
    rewrite Ew. unfold emitted. cbn [upd eta_w w_sq w_out w_calls]. rewrite <- app_assoc. split; [done|].
    rewrite wire_app, Hw0. cbn [wire map concat app]. rewrite app_nil_r. split; [|intros Hall; specialize (Hall (w_calls w)); lia].
    rewrite <- Hd. by apply prefix_app_r.
  - destruct (IH (drop 8 (b :: buf)) w1) as (evs & n & Hrun & Hpre & Hall);
      [rewrite length_drop; cbn; lia|].
    exists ([Ev_can (sq_client_id (w_sq w)) d] ++ evs), n. rewrite Hrun, Ew. unfold emitted. cbn [w_sq w_out].
    rewrite <- app_assoc. split; [done|].
    rewrite wire_app, Hw0. split; [rewrite <- Hd; by apply prefix_app|].
    intros Hos. destruct (Hall Hos) as [-> HF]. split; [done|]. constructor; [|exact HF].
    by exists d.
Qed.

Lemma do_write_run buf w :
  exists evs n, do_write buf w = Ret tt (emitted evs n w) /\ wire evs `prefix_of` buf /\
    (sq_serial_fd_type (w_sq w) <> SQT_CAN -> wire evs = buf).
Proof.
  unfold do_write. rewrite bind_sqget.
  destruct (Z.eqb_spec (sq_serial_fd_type (w_sq w)) SQT_CAN) as [E|E]; cbn [negb].
  - destruct (can_write_run (length buf) buf w ltac:(lia)) as (evs & n & Hrun & Hpre & _).
    by exists evs, n.
  - destruct (sys_call_run (Ev_write buf) "write" w) as (evs & n & Hrun & Hw).
    exists evs, n. split; [done|]. assert (wire evs = buf) as -> by (rewrite Hw; apply app_nil_r).
    done.
Qed.

(** ** Transmission *)

(** The fields of the window. *)
Definition window_view (sq : serialqueue D) :=
  (sq_send_seq sq, sq_receive_seq sq, sq_sent_queue sq, sq_need_ack_bytes sq).

Lemma write_flush_run (b : bool) buf eventtime w :
  exists evs w', when (b && negb (zlen buf =? 0)) (write_blocks buf eventtime) w = Ret tt w' /\
    queue_view (w_sq w') = queue_view (w_sq w) /\ window_view (w_sq w') = window_view (w_sq w) /\
    link_static (w_sq w') = link_static (w_sq w) /\ w_out w' = w_out w ++ evs /\
    (sq_serial_fd_type (w_sq w) <> SQT_CAN -> wire evs ++ (if b then [] else buf) = buf).
Proof.
  destruct (b && negb (zlen buf =? 0)) eqn:Eb; unfold when.
  - apply andb_true_iff in Eb as [-> _]. unfold write_blocks.
    destruct (do_write_run buf w) as (evs & n & Hrun & _ & Hw).
    rewrite (bind_Ret _ _ _ _ _ Hrun), bind_sqmod. exists evs. eexists. split; [reflexivity|].
    do 4 (split; [done|]). intros Hty. by rewrite app_nil_r, Hw.
  - exists [], w. split; [done|]. do 3 (split; [done|]). split; [by rewrite app_nil_r|].
    intros _. destruct b; [|done]. apply negb_false_iff, Z.eqb_eq in Eb.
    destruct buf; [done|]. rewrite zlen_cons in Eb. pose proof (zlen_nonneg buf). lia.
Qed.

Lemma sent_lens sq : window_ok sq -> Forall (fun m => 0 <= qm_len m <= 64) (sq_sent_queue sq).
Proof.
  intros Hw. apply Forall_lookup. intros i m Hm. apply (wo_sent _ Hw) in Hm as (c & _ & _ & Hc & ->).
  pose proof (zlen_nonneg c). unfold MESSAGE_PAYLOAD_MAX, MESSAGE_MAX, MESSAGE_MIN in *. lia.
Qed.


(** The bytes of acknowledged and other blocks that the firmware may still hold: a response
    proves that the blocks before it were received, an acknowledgement that they were
    processed. *)
Definition held (sq : serialqueue D) : Z :=
  sq_need_ack_bytes sq + (if sq_last_ack_seq sq <? sq_receive_seq sq then sq_last_ack_bytes sq else 0).

(** Flow control: what the firmware holds fits into its receive window (a window below two
    blocks is taken for two). *)
Definition flow_ok (sq : serialqueue D) : Prop :=
  0 <= sq_last_ack_bytes sq <= MESSAGE_MAX /\
  (sq_receive_window sq <> 0 -> held sq <= Z.max (2 * MESSAGE_MAX) (sq_receive_window sq)).

Lemma flow_ok_view sq sq' :
  window_view sq' = window_view sq -> link_static sq' = link_static sq -> flow_ok sq -> flow_ok sq'.
Proof.
  unfold window_view, link_static, port_static, flow_ok, held. intros Ev Es.
  injection Ev as E1 E2 E3 E4. injection Es as _ _ _ _ E5 _ _ E6 E7 _ _.
  by rewrite E4, E5, E6, E7, E2.
Qed.

Lemma sent_bytes_bound sq : window_ok sq -> 0 <= sq_need_ack_bytes sq <= 768.
Proof.
  intros Hw. pose proof (sent_lens _ Hw) as HF. pose proof (wo_limit _ Hw) as Hz.
  rewrite (wo_bytes _ Hw). unfold MAX_PENDING_BLOCKS in Hz.
  assert (0 <= len_sum (sq_sent_queue sq) <= zlen (sq_sent_queue sq) * 64); [|lia].
  clear Hz. induction HF as [|x l Hx HF IH]; [done|]. rewrite zlen_cons. unfold len_sum in *. cbn [foldr]. lia.
Qed.

(** A block goes out while the window is not full. *)
Lemma flow_ok_send sq sq' m :
  window_ok sq -> window_full sq = false -> flow_ok sq -> window_ok sq' ->
  sq_sent_queue sq' = sq_sent_queue sq ++ [m] -> link_static sq' = link_static sq -> flow_ok sq'.
Proof.
  intros Hw Hfull [Hb Hf] Hw' Es El. unfold link_static, port_static in El.
  injection El as _ _ _ _ E5 _ E2 E6 E7 _ _. unfold flow_ok, held in *. rewrite E5, E6, E7, E2.
  split; [done|]. intros Hwin. specialize (Hf Hwin).
  assert (Hm : 0 <= qm_len m <= 64).
  { pose proof (sent_lens _ Hw') as HF. rewrite Es in HF. apply Forall_app in HF as [_ HF]; apply Forall_cons in HF as [HF _]. exact HF. }
  pose proof (sent_bytes_bound _ Hw). rewrite (wo_bytes _ Hw'), Es, len_sum_app, <- (wo_bytes _ Hw).
  change (len_sum [m]) with (qm_len m + 0). pose proof (wo_seq _ Hw). pose proof (wo_count _ Hw).
  unfold window_full, z2b, MESSAGE_MAX in *. rewrite (proj2 (Z.eqb_neq _ 0) Hwin) in Hfull.
  destruct (Z.ltb_spec (sq_receive_seq sq) (sq_send_seq sq)) as [Hlt|Hge]; cbn [andb negb] in Hfull.
  - destruct (sq_last_ack_seq sq <? sq_receive_seq sq); rewrite (i32_small (sq_need_ack_bytes sq + 64)), ?i32_small in Hfull by lia;
      apply Z.ltb_ge in Hfull; lia.
  - assert (Enil : sq_sent_queue sq = []).
    { destruct (sq_sent_queue sq); [done|]. rewrite zlen_cons in *. pose proof (zlen_nonneg l). lia. }
    rewrite (wo_bytes _ Hw), Enil in *. change (len_sum []) with 0 in *. destruct (_ <? sq_receive_seq sq); lia.
Qed.

(** What a run of the transmission loop promises: the blocks it appends to the sent queue
    follow [buf] on the wire, the invariants hold, and the rest of the state is the same. *)
Definition send_post (buf : list Z) (w : sqworld D) (res : outcome (sqworld D) D) : Prop :=
  exists t w' new evs, res = Ret t w' /\
    queues_ok (w_sq w') /\ window_ok (w_sq w') /\
    sq_sent_queue (w_sq w') = sq_sent_queue (w_sq w) ++ new /\
    link_static (w_sq w') = link_static (w_sq w) /\
    w_out w' = w_out w ++ evs /\
    (sq_serial_fd_type (w_sq w) <> SQT_CAN -> wire evs = buf ++ concat (map qm_msg new)) /\
    (flow_ok (w_sq w) -> flow_ok (w_sq w')).

Lemma send_post_cons buf buf' m evs w w' res :
  send_post (buf' ++ qm_msg m) w' res ->
  sq_sent_queue (w_sq w') = sq_sent_queue (w_sq w) ++ [m] ->
  link_static (w_sq w') = link_static (w_sq w) -> w_out w' = w_out w ++ evs ->
  (sq_serial_fd_type (w_sq w) <> SQT_CAN -> wire evs ++ buf' = buf) ->
  (flow_ok (w_sq w) -> flow_ok (w_sq w')) ->
  send_post buf w res.
Proof.
  intros (t & w2 & new & evs2 & -> & Hq & Hw & Es & El & Eo & Hwire & Hfl) Es' El' Eo' Hwire' Hfl'.
  exists t, w2, (m :: new), (evs ++ evs2). split; [done|]. split; [done|]. split; [done|].
  split; [by rewrite Es, Es', <- app_assoc|]. split; [congruence|].
  split; [by rewrite Eo, Eo', app_assoc|]. split; [|by auto]. intros Hty.
  assert (Hty' : sq_serial_fd_type (w_sq w') = sq_serial_fd_type (w_sq w)) by (by injection El').
  rewrite wire_app, Hwire by (by rewrite Hty'). cbn [map concat].
  by rewrite !app_assoc, Hwire'.
Qed.

Section sending.
Context (Hnever : (PR_NEVER =? PR_NOW)%D = false).

Lemma command_loop_run fuel buf eventtime w :
  queues_ok (w_sq w) -> window_ok (w_sq w) ->
  MAX_PENDING_BLOCKS - zlen (sq_sent_queue (w_sq w)) < Z.of_nat fuel ->
  sq_send_seq (w_sq w) + Z.of_nat fuel < 9223372036854775808 ->
  zlen buf <= MESSAGE_MAX * MAX_PENDING_BLOCKS ->
  send_post buf w (command_loop fuel buf eventtime w).
Proof using Hnever.
  revert buf w. induction fuel as [|fuel IH]; intros buf w Hq Hw Hf Hsm Hbuf.
  { pose proof (wo_limit _ Hw). lia. }
  cbn [command_loop].
  destruct (check_send_run Hnever (zlen buf) eventtime w Hq Hw)
    as (t & Q & r & s & k & Hrun & Hq1 & _ & Ht).
  rewrite (bind_Ret _ _ _ _ _ Hrun). cbv zeta. clear Hrun.
  set (w1 := w <| w_sq := checked Q r s k (w_sq w) |>).
  assert (Hw1 : window_ok (w_sq w1)) by by eapply window_ok_view, Hw.
  match goal with |- context [when (?b && _) _] => set (fl := b) end.
  destruct (write_flush_run fl buf eventtime w1) as (evs & w2 & Hrun & Hv & Hwv & Hs & Ho & Hwire).
  rewrite (bind_Ret _ _ _ _ _ Hrun). clear Hrun.
  apply (queue_view_ok _ _ Hv) in Hq1. apply (window_ok_view _ _ Hwv) in Hw1.
  injection Hwv as E1 E2 E3 E4. destruct (t =? PR_NOW)%D eqn:Et; cbn [negb].
  2: { exists t, w2, [], evs. split; [done|]. split; [done|]. split; [done|].
       split; [by rewrite E3, app_nil_r|]. split; [done|]. split; [done|].
       split; [|by apply flow_ok_view; [unfold window_view; congruence|]].
       intros Hty. specialize (Hwire Hty). cbn in Hwire |- *. by rewrite !app_nil_r in *. }
  destruct (Ht eq_refl) as [Hlt Hopen].
  set (buf2 := if fl then [] else buf) in *.
  assert (Hbuf2 : zlen buf2 + MESSAGE_MAX <= MESSAGE_MAX * MAX_PENDING_BLOCKS).
  { unfold buf2, fl. cbn [negb orb].
    destruct (Z.ltb_spec (MESSAGE_MAX * MAX_PENDING_BLOCKS) (zlen buf + MESSAGE_MAX)); [done|lia]. }
  destruct (build_and_send_run (zlen buf2) eventtime w2)
    as (taken & m & w3 & Hrun & Hq3 & Hw3 & Hm & Hc & _ & Es & En & El & Eo & _);
    [done|done|by rewrite E3|rewrite E1; cbn; lia|].
  rewrite (bind_Ret _ _ _ _ _ Hrun).
  assert (Hz : zlen (buf2 ++ qm_msg m) <= MESSAGE_MAX * MAX_PENDING_BLOCKS).
  { rewrite zlen_app, Hm, zlen_frame by done.
    unfold MESSAGE_PAYLOAD_MAX, MESSAGE_MAX, MESSAGE_MIN in *. lia. }
  rewrite (proj2 (Z.ltb_ge _ _)) by done.
  apply (send_post_cons buf buf2 m evs w w3); [|by rewrite Es, E3|by rewrite El|by rewrite Eo|exact Hwire|].
  2: { intros Hfl. apply (flow_ok_send (w_sq w) (w_sq w3) m); [done|done|done|done|by rewrite Es, E3|by rewrite El]. }
  apply IH; [done|done| |rewrite En, E1; cbn; lia|done].
  rewrite Es, E3, zlen_app. change (zlen [m]) with 1. cbn. lia.
Qed.

Lemma command_event_run eventtime w :
  queues_ok (w_sq w) -> window_ok (w_sq w) ->
  sq_send_seq (w_sq w) + 14 + Z.of_nat (queued_msgs (w_sq w)) < 9223372036854775808 ->
  send_post [] w (command_event eventtime w).
Proof using Hnever.
  intros Hq Hw Hsm. unfold command_event. rewrite bind_sqget.
  pose proof (zlen_nonneg (sq_sent_queue (w_sq w))).
  apply command_loop_run; [done|done|unfold MAX_PENDING_BLOCKS; lia|lia|done].
Qed.
End sending.

Lemma concat_sent r (l : list qmsg) :
  (forall i m, l !! i = Some m -> sent_block (r + Z.of_nat i) m) ->
  zlen (concat (map qm_msg l)) = len_sum l.
Proof.
  revert r. induction l as [|m l IH]; intros r Hl; [done|].
  destruct (Hl 0%nat m eq_refl) as (c & Hm & _ & Hc & Hlen). cbn [map concat].
  rewrite zlen_app, (IH (r + 1)), Hm, zlen_frame by
    (done || intros i x Hx; specialize (Hl (S i) x Hx);
     by replace (r + 1 + Z.of_nat i) with (r + Z.of_nat (S i)) by lia).
  unfold len_sum. cbn [foldr]. rewrite Hlen. done.
Qed.

(** A retransmission writes a sync byte and every block of the sent queue, in order. *)
Lemma retransmit_run eventtime w :
  window_ok (w_sq w) ->
  exists t w' evs, retransmit_event eventtime w = Ret t w' /\
    queue_view (w_sq w') = queue_view (w_sq w) /\ window_view (w_sq w') = window_view (w_sq w) /\
    port_static (w_sq w') = port_static (w_sq w) /\ w_out w' = w_out w ++ evs /\
    (sq_serial_fd_type (w_sq w) <> SQT_CAN ->
     wire evs = MESSAGE_SYNC :: concat (map qm_msg (sq_sent_queue (w_sq w)))).
Proof.
  intros Hw. unfold retransmit_event. rewrite bind_sqget.
  assert (Hfl : exists evs n, when (sq_serial_fd_type (w_sq w) =? SQT_UART)
    (sys_call Ev_flush "tcflush") w = Ret tt (emitted evs n w) /\ wire evs = []).
  { unfold when. destruct (_ =? SQT_UART); [apply sys_call_run|].
    exists [], (w_calls w). split; [|done]. unfold emitted. rewrite app_nil_r. by destruct w. }
  destruct Hfl as (evs1 & n1 & Hrun & Hw1). rewrite (bind_Ret _ _ _ _ _ Hrun), bind_sqget.
  change (w_sq (emitted evs1 n1 w)) with (w_sq w). cbv zeta.
  set (buf := retransmit_buf (sq_sent_queue (w_sq w))).
  assert (Hbuf : zlen buf <= MESSAGE_MAX * MAX_PENDING_BLOCKS + 1).
  { unfold buf, retransmit_buf. rewrite zlen_cons, (concat_sent _ _ (wo_sent _ Hw)).
    pose proof (len_sum_sent _ _ (wo_sent _ Hw)). pose proof (wo_limit _ Hw).
    unfold MESSAGE_MAX, MAX_PENDING_BLOCKS in *. lia. }
  rewrite (proj2 (Z.ltb_ge _ _)) by done.
  destruct (do_write_run buf (emitted evs1 n1 w)) as (evs2 & n2 & Hrun2 & _ & Hw2).
  rewrite (bind_Ret _ _ _ _ _ Hrun2), bind_sqmod, bind_sqget.
  destruct (_ =? PR_NOW)%D; rewrite !bind_bind, !bind_sqmod; eexists _, _, (evs1 ++ evs2);
    (split; [reflexivity|]); unfold queue_view, window_view, port_static; cbn;
    do 3 (split; [by case_match|]); (split; [by rewrite <- app_assoc|]);
    intros Hty; rewrite wire_app, Hw1, Hw2 by done; done.
Qed.

(** ** Acknowledgements *)

(** The state after the loop over the sent queue. *)
Definition acked (send_seq need : Z) (sent old : list qmsg) (t : D) (b : Z)
    (sq : serialqueue D) : serialqueue D :=
  sq <| sq_send_seq := send_seq |> <| sq_need_ack_bytes := need |> <| sq_sent_queue := sent |>
     <| sq_old_sent := old |> <| sq_last_receive_sent_time := t |> <| sq_last_ack_bytes := b |>.

(** The loop removes [rseq - s] blocks; with fewer blocks it empties the queue and takes
    [rseq] for [send_seq]. *)
Lemma ack_loop_spec sent s rseq sq :
  sq_sent_queue sq = sent -> sq_need_ack_bytes sq = len_sum sent ->
  Forall (fun m => 0 <= qm_len m <= 64) sent -> zlen sent <= 12 ->
  0 <= s < rseq -> s + zlen sent < 9223372036854775808 ->
  let k := Z.to_nat (rseq - s) in
  exists old t b, ack_loop sent s rseq sq
    = acked (if rseq - s <=? zlen sent then sq_send_seq sq else rseq)
        (len_sum (drop k sent)) (drop k sent) old t b sq /\
    (rseq - s <= zlen sent -> exists m, sent !! (k - 1)%nat = Some m /\ b = qm_len m) /\
    (zlen sent < rseq - s -> b = sq_last_ack_bytes sq).
Proof.
  revert s sq. induction sent as [|m sent IH]; intros s sq Hs Hn Hl Hz Hseq Hw k; cbn [ack_loop].
  - unfold zlen. cbn [length Z.of_nat]. rewrite (proj2 (Z.leb_gt _ _)) by lia.
    exists (sq_old_sent sq), dzero, (sq_last_ack_bytes sq). unfold k. rewrite drop_nil.
    split; [|split; [lia|done]]. destruct sq; cbn in *. by subst.
  - rewrite zlen_cons in *. apply Forall_cons in Hl as [Hm Hl].
    assert (Hsum : 0 <= len_sum sent <= zlen sent * 64).
    { clear -Hl. induction Hl as [|x l Hx Hl IH]; [done|]. rewrite zlen_cons.
      unfold len_sum in *. cbn [foldr]. lia. }
    change (len_sum (m :: sent)) with (qm_len m + len_sum sent) in Hn.
    rewrite (u64_small (s + 1)) by (pose proof (zlen_nonneg sent); lia). cbv zeta.
    destruct (Z.eqb_spec rseq (s + 1)) as [E|E].
    + rewrite (proj2 (Z.leb_le _ _)) by (pose proof (zlen_nonneg sent); lia).
      assert (Ek : k = 1%nat) by lia. rewrite Ek. cbn [drop].
      exists (debug_queue_add m (sq_old_sent sq)), (qm_receive_time m), (qm_len m).
      split; [|split; [by exists m|lia]].
      destruct sq; cbn in *. subst. unfold acked. cbn. f_equal. rewrite i32_small by lia. rewrite drop_0. lia.
    + destruct (IH (s + 1) (sq <| sq_need_ack_bytes ::= fun n => i32 (n - qm_len m) |>
                              <| sq_sent_queue := sent |> <| sq_old_sent ::= debug_queue_add m |>))
        as (old & t & b & Hrun & Hf & Hnf); [done| |done|lia|lia|lia|].
      { cbn. rewrite Hn, i32_small by lia. lia. }
      assert (Ek : k = S (Z.to_nat (rseq - (s + 1)))) by lia.
      exists old, t, b. rewrite Hrun, Ek. cbn [drop]. split; [|split].
      * replace (rseq - (s + 1) <=? zlen sent) with (rseq - s <=? 1 + zlen sent); [done|].
        destruct (Z.leb_spec (rseq - s) (1 + zlen sent)), (Z.leb_spec (rseq - (s + 1)) (zlen sent)); lia.
      * intros Hle. destruct Hf as (m' & Hm' & ->); [lia|]. exists m'. split; [|done].
        replace (S (Z.to_nat (rseq - (s + 1))) - 1)%nat
          with (S (Z.to_nat (rseq - (s + 1)) - 1)) by lia. exact Hm'.
      * intros Hgt. rewrite Hnf by lia. done.
Qed.

Lemma receive_seq_of_range (sq : serialqueue D) seq :
  0 <= sq_receive_seq sq < 9223372036854775808 ->
  sq_receive_seq sq <= receive_seq_of sq seq <= sq_receive_seq sq + 15.
Proof.
  intros Hr. unfold receive_seq_of, MESSAGE_SEQ_MASK. rewrite land_mask4, clear_mask4.
  set (r := sq_receive_seq sq) in *. pose proof (Z.div_mod r 16 ltac:(lia)).
  replace (r - r mod 16) with (16 * (r / 16)) by lia.
  rewrite lor_low4 by (apply Z.mod_pos_bound; lia).
  destruct (Z.ltb_spec (16 * (r / 16) + seq mod 16) r);
    rewrite ?u64_small; Z.div_mod_to_equations; lia.
Qed.

(** Reception of the sequence number [rseq]: what is before it leaves the sent queue. *)
Definition receives (rseq : Z) (sq sq' : serialqueue D) : Prop :=
  sq_receive_seq sq' = rseq /\
  sq_sent_queue sq' = drop (Z.to_nat (rseq - sq_receive_seq sq)) (sq_sent_queue sq) /\
  sq_send_seq sq' = Z.max (sq_send_seq sq) rseq.

Lemma window_ok_receive rseq sq sq' :
  window_ok sq -> sq_receive_seq sq <= rseq < 9223372036854775808 -> receives rseq sq sq' ->
  sq_need_ack_bytes sq' = len_sum (sq_sent_queue sq') -> window_ok sq'.
Proof.
  intros Hw Hr (E1 & E2 & E3) E4. pose proof (wo_seq _ Hw). pose proof (wo_small _ Hw).
  pose proof (wo_count _ Hw). pose proof (wo_limit _ Hw). unfold zlen in *.
  split; rewrite ?E1, ?E3; unfold zlen; try lia; try (rewrite E2, length_drop; lia).
  intros i m Hm. rewrite E2, lookup_drop in Hm.
  replace (rseq + Z.of_nat i)
    with (sq_receive_seq sq + Z.of_nat (Z.to_nat (rseq - sq_receive_seq sq) + i)) by lia.
  by apply (wo_sent _ Hw).
Qed.

(** The fields that the reception of an acknowledgement leaves alone. *)
Definition ack_static (sq : serialqueue D) :=
  (port_static sq, queue_view sq, sq_last_ack_seq sq, sq_ignore_nak_seq sq,
   sq_retransmit_seq sq, sq_receive_queue sq, sq_receive_waiting sq).

(** [last_ack_bytes] is the length of the last block acknowledged. *)
Definition acks_bytes (rseq : Z) (sq sq' : serialqueue D) : Prop :=
  if (sq_receive_seq sq <? rseq) && (rseq <=? sq_send_seq sq) then
    exists m, sq_sent_queue sq !! Z.to_nat (rseq - sq_receive_seq sq - 1) = Some m /\
      sq_last_ack_bytes sq' = qm_len m
  else sq_last_ack_bytes sq' = sq_last_ack_bytes sq.

(** The state after [update_receive_seq], up to timers and round trip estimates. *)
Definition after_ack (rseq : Z) (old : list qmsg) (t : D) (b : Z) (p : pollreactor D)
    (srtt rttvar rto : D) (rs : Z) (sq : serialqueue D) : serialqueue D :=
  let sent := drop (Z.to_nat (rseq - sq_receive_seq sq)) (sq_sent_queue sq) in
  acked (if rseq - sq_receive_seq sq <=? zlen (sq_sent_queue sq) then sq_send_seq sq else rseq)
    (len_sum sent) sent old t b sq
    <| sq_receive_seq := rseq |> <| sq_pr := p |> <| sq_srtt := srtt |> <| sq_rttvar := rttvar |>
    <| sq_rto := rto |> <| sq_rtt_sample_seq := rs |>.

Lemma set_pr_twice (sq : serialqueue D) r p0 p srtt rttvar rto rs :
  sq <| sq_receive_seq := r |> <| sq_pr := p0 |> <| sq_srtt := srtt |> <| sq_rttvar := rttvar |>
     <| sq_rto := rto |> <| sq_rtt_sample_seq := rs |> <| sq_pr := p |>
  = sq <| sq_receive_seq := r |> <| sq_pr := p |> <| sq_srtt := srtt |> <| sq_rttvar := rttvar |>
       <| sq_rto := rto |> <| sq_rtt_sample_seq := rs |>.
Proof. by destruct sq. Qed.

Lemma update_rtt_fields eventtime (sq : serialqueue D) :
  exists srtt rttvar rto rs, update_rtt eventtime sq = sq <| sq_srtt := srtt |>
    <| sq_rttvar := rttvar |> <| sq_rto := rto |> <| sq_rtt_sample_seq := rs |>.
Proof.
  unfold update_rtt. cbv zeta. destruct (negb (dnz (sq_srtt sq)));
    repeat match goal with |- context [if ?b then _ else _] => destruct b end;
    eexists _, _, _, _; reflexivity.
Qed.

(** After the loop over the sent queue only [receive_seq], timers and estimates change. *)
Lemma update_receive_shape eventtime rseq (sq : serialqueue D) :
  exists p srtt rttvar rto rs, update_receive_seq eventtime rseq sq
    = ack_loop (sq_sent_queue sq) (sq_receive_seq sq) rseq sq
      <| sq_receive_seq := rseq |> <| sq_pr := p |> <| sq_srtt := srtt |> <| sq_rttvar := rttvar |>
      <| sq_rto := rto |> <| sq_rtt_sample_seq := rs |>.
Proof.
  unfold update_receive_seq. cbv zeta.
  set (sq1 := ack_loop _ _ rseq sq).
  set (sq2 := sq_update_timer SQPT_COMMAND PR_NOW (sq1 <| sq_receive_seq := rseq |>)).
  match goal with |- context [match sq_sent_queue ?x with _ => _ end] => set (sq3 := x) end.
  assert (E3 : exists srtt rttvar rto rs, sq3 = sq2 <| sq_srtt := srtt |> <| sq_rttvar := rttvar |>
    <| sq_rto := rto |> <| sq_rtt_sample_seq := rs |>).
  { unfold sq3. destruct (_ && _); [apply update_rtt_fields|].
    exists (sq_srtt sq2), (sq_rttvar sq2), (sq_rto sq2), (sq_rtt_sample_seq sq2). by destruct sq2. }
  destruct E3 as (srtt & rttvar & rto & rs & E3). clearbody sq3.
  assert (Ht : forall pos wt, exists p, sq_update_timer pos wt sq3
    = sq1 <| sq_receive_seq := rseq |> <| sq_pr := p |> <| sq_srtt := srtt |> <| sq_rttvar := rttvar |>
          <| sq_rto := rto |> <| sq_rtt_sample_seq := rs |>).
  { intros pos wt. rewrite E3. eexists. exact (set_pr_twice sq1 rseq _ _ srtt rttvar rto rs). }
  destruct (sq_sent_queue sq3) as [|x l].
  - destruct (Ht SQPT_RETRANSMIT PR_NEVER) as [p E]. exists p, srtt, rttvar, rto, rs. exact E.
  - destruct (Ht SQPT_RETRANSMIT (eventtime + sq_rto sq3 + calculate_bittime sq3 (qm_len x))%D) as [p E].
    exists p, srtt, rttvar, rto, rs. exact E.
Qed.

Lemma ack_loop_port sent s rseq sq : port_static (ack_loop sent s rseq sq) = port_static sq.
Proof.
  revert s sq. induction sent as [|m sent IH]; intros s sq; cbn [ack_loop]; [reflexivity|].
  cbv zeta. destruct (_ =? _); [reflexivity|]. rewrite IH. reflexivity.
Qed.

Lemma update_receive_port eventtime rseq sq :
  port_static (update_receive_seq eventtime rseq sq) = port_static sq.
Proof.
  destruct (update_receive_shape eventtime rseq sq) as (p & srtt & rttvar & rto & rs & ->).
  transitivity (port_static (ack_loop (sq_sent_queue sq) (sq_receive_seq sq) rseq sq));
    [reflexivity|apply ack_loop_port].
Qed.

Lemma after_ack_run eventtime rseq sq :
  window_ok sq -> sq_receive_seq sq < rseq < 9223372036854775808 ->
  exists old t b p srtt rttvar rto rs,
    update_receive_seq eventtime rseq sq = after_ack rseq old t b p srtt rttvar rto rs sq /\
    (if rseq <=? sq_send_seq sq then
       exists m, sq_sent_queue sq !! Z.to_nat (rseq - sq_receive_seq sq - 1) = Some m /\ b = qm_len m
     else b = sq_last_ack_bytes sq).
Proof.
  intros Hw Hr. pose proof (wo_seq _ Hw). pose proof (wo_count _ Hw). pose proof (wo_small _ Hw).
  destruct (update_receive_shape eventtime rseq sq) as (p & srtt & rttvar & rto & rs & ->).
  destruct (ack_loop_spec (sq_sent_queue sq) (sq_receive_seq sq) rseq sq)
    as (old & t & b & -> & Hf & Hnf);
    [done|apply (wo_bytes _ Hw)|by apply sent_lens|apply (wo_limit _ Hw)|lia|lia|].
  exists old, t, b, p, srtt, rttvar, rto, rs. split; [reflexivity|].
  destruct (Z.leb_spec rseq (sq_send_seq sq)) as [Hle|Hgt]; [|apply Hnf; lia].
  destruct Hf as (m & Hm & ->); [lia|]. exists m. split; [|reflexivity].
  by replace (Z.to_nat (rseq - sq_receive_seq sq - 1))
    with (Z.to_nat (rseq - sq_receive_seq sq) - 1)%nat by lia.
Qed.

Lemma update_receive_seq_run eventtime rseq sq :
  window_ok sq -> sq_receive_seq sq < rseq < 9223372036854775808 ->
  let sq' := update_receive_seq eventtime rseq sq in
  receives rseq sq sq' /\ window_ok sq' /\ ack_static sq' = ack_static sq /\ acks_bytes rseq sq sq'.
Proof.
  intros Hw Hr. destruct (after_ack_run eventtime rseq sq Hw Hr)
    as (old & t & b & p & srtt & rttvar & rto & rs & -> & Hb).
  pose proof (wo_count _ Hw).
  assert (Hrec : receives rseq sq (after_ack rseq old t b p srtt rttvar rto rs sq)).
  { split; [reflexivity|]. split; [reflexivity|]. unfold after_ack. cbn.
    destruct (Z.leb_spec (rseq - sq_receive_seq sq) (zlen (sq_sent_queue sq))); lia. }
  split; [exact Hrec|]. split; [apply (window_ok_receive rseq sq); [exact Hw|lia|exact Hrec|reflexivity]|].
  split; [reflexivity|]. unfold acks_bytes. rewrite (proj2 (Z.ltb_lt _ _)) by lia. exact Hb.
Qed.

(** ** Queueing messages *)

Lemma sumf_insert_other (queues : gmap Z (command_queue D)) q cq l :
  q ∉ l ->
  sumf (ready_len (<[q := cq]> queues)) l = sumf (ready_len queues) l /\
  sumf (stalled_len (<[q := cq]> queues)) l = sumf (stalled_len queues) l.
Proof.
  intros Hq. split; apply sumf_ext; intros x Hx;
    rewrite ?ready_len_insert, ?stalled_len_insert, decide_False by (by intros ->); done.
Qed.

(** The state after messages joined the queue [q]. *)
Definition enqueued (q : Z) (cq : command_queue D) (msgs : list qmsg) (sq : serialqueue D) :
    serialqueue D :=
  sq <| sq_pending_queues := if bool_decide (cq_ready_queue cq = [] /\ cq_stalled_queue cq = [])
                             then sq_pending_queues sq ++ [q] else sq_pending_queues sq |>
     <| sq_queues := <[q := mk_cq (cq_stalled_queue cq ++ msgs) (cq_ready_queue cq)]> (sq_queues sq) |>
     <| sq_stalled_bytes := sq_stalled_bytes sq + len_sum msgs |>.

Lemma queues_ok_enqueue sq q cq msgs :
  queues_ok sq -> sq_queues sq !! q = Some cq -> Forall msg_ok msgs -> msgs <> [] ->
  sq_ready_bytes sq + sq_stalled_bytes sq + len_sum msgs < 2147483648 ->
  queues_ok (enqueued q cq msgs sq).
Proof.
  intros Hq Hcq Hm Hne Hsm. set (cq' := mk_cq (cq_stalled_queue cq ++ msgs) (cq_ready_queue cq)).
  assert (Hp : q ∈ sq_pending_queues sq <-> ~ (cq_ready_queue cq = [] /\ cq_stalled_queue cq = [])).
  { rewrite (qo_pending _ Hq). split.
    - intros (c & E & Hc) [E1 E2]. rewrite Hcq in E. injection E as <-. by rewrite E1, E2 in Hc.
    - intros Hc. exists cq. split; [done|]. intros He. apply Hc. by apply app_eq_nil in He. }
  unfold enqueued. fold cq'.
  split; cbn [upd sq_queues sq_pending_queues sq_ready_bytes sq_stalled_bytes eta_sq].
  - case_bool_decide as Hb; [|apply (qo_nodup _ Hq)]. apply NoDup_app. split; [apply (qo_nodup _ Hq)|].
    split; [|apply NoDup_singleton]. intros x Hx ->%list_elem_of_singleton. by apply Hp in Hx.
  - intros x. destruct (decide (x = q)) as [->|Hx].
    + rewrite lookup_insert_eq. split; [|case_bool_decide; [set_solver|by intros _; apply Hp]].
      intros _. exists cq'. split; [done|]. cbn. rewrite app_assoc.
      intros [_ ?]%app_eq_nil. done.
    + rewrite lookup_insert_ne by done. rewrite <- (qo_pending _ Hq). case_bool_decide; set_solver.
  - intros x c. destruct (decide (x = q)) as [->|Hx].
    + rewrite lookup_insert_eq. intros [= <-]. cbn. pose proof (qo_msgs _ Hq _ _ Hcq) as HF.
      rewrite !Forall_app in *. naive_solver.
    + rewrite lookup_insert_ne by done. apply (qo_msgs _ Hq).
  - case_bool_decide as Hb.
    + rewrite sumf_app, (proj1 (sumf_insert_other _ _ _ _ (fun Hx => proj1 Hp Hx Hb))), <- (qo_ready _ Hq).
      change (sumf ?f [q]) with (f q + 0). rewrite ready_len_insert, decide_True by done. cbn.
      destruct Hb as [-> _]. change (len_sum (@nil qmsg)) with 0. lia.
    + destruct (sumf_insert_pending sq q cq cq' Hq (proj2 Hp Hb) Hcq) as [-> _]. cbn. lia.
  - case_bool_decide as Hb.
    + rewrite sumf_app, (proj2 (sumf_insert_other _ _ _ _ (fun Hx => proj1 Hp Hx Hb))), <- (qo_stalled _ Hq).
      change (sumf ?f [q]) with (f q + 0). rewrite stalled_len_insert, decide_True by done. cbn.
      rewrite len_sum_app. destruct Hb as [_ ->]. change (len_sum (@nil qmsg)) with 0. lia.
    + destruct (sumf_insert_pending sq q cq cq' Hq (proj2 Hp Hb) Hcq) as [_ ->]. cbn.
      rewrite len_sum_app. lia.
  - lia.
Qed.

Lemma set_min_clock_ok (m : qmsg) :
  qm_len (set_min_clock m) = qm_len m /\ qm_msg (set_min_clock m) = qm_msg m /\
  qm_notify_id (set_min_clock m) = qm_notify_id m /\ qm_req_clock (set_min_clock m) = qm_req_clock m.
Proof. unfold set_min_clock. by destruct (_ && _). Qed.

Lemma set_min_clocks (msgs : list qmsg) : Forall msg_ok msgs ->
  Forall msg_ok (map set_min_clock msgs) /\ len_sum (map set_min_clock msgs) = len_sum msgs.
Proof.
  induction 1 as [|m l Hm Hl [IH1 IH2]]; [done|]. destruct (set_min_clock_ok m) as (E1 & E2 & _ & E4).
  cbn [map]. unfold len_sum in *. cbn [foldr]. split; [|by rewrite E1, IH2].
  constructor; [|done]. unfold msg_ok. by rewrite E1, E2, E4.
Qed.

(** Writing to the pipe, when the new messages are due before the thread wakes. *)
Lemma kick_run (b : bool) w :
  exists w' evs k, (if b then sqmod (fun sq => sq <| sq_need_kick_clock := 0 |>) ;; kick_bg_thread
                    else ret tt) w = Ret tt w' /\
    w_sq w' = w_sq w <| sq_need_kick_clock := k |> /\ w_out w' = w_out w ++ evs /\ wire evs = [].
Proof.
  destruct b.
  - rewrite bind_sqmod. unfold kick_bg_thread.
    match goal with |- context [sys_call ?e ?what ?w1] =>
      destruct (sys_call_run e what w1) as (evs & n & -> & Hw) end.
    eexists _, evs, 0. split; [reflexivity|]. split; [reflexivity|]. split; [reflexivity|done].
  - exists w, [], (sq_need_kick_clock (w_sq w)). split; [done|]. split; [by destruct (w_sq w)|].
    by rewrite app_nil_r.
Qed.

Lemma queue_of_enqueued q cq msgs sq x :
  sq_queues sq !! q = Some cq ->
  queue_of (enqueued q cq msgs sq) x = if decide (x = q) then queue_of sq x ++ msgs else queue_of sq x.
Proof.
  intros Hcq. unfold queue_of, ready_of, stalled_of, enqueued. cbn.
  destruct decide as [->|]; [|by rewrite !lookup_insert_ne].
  rewrite lookup_insert_eq, Hcq. cbn. by rewrite app_assoc.
Qed.

Lemma enqueue_run cq q msgs w :
  sq_queues (w_sq w) !! cq = Some q -> 
  -2147483648 <= sq_stalled_bytes (w_sq w) + len_sum msgs < 2147483648 ->
  enqueue cq q msgs (len_sum msgs) w = Ret tt (w <| w_sq := enqueued cq q msgs (w_sq w) |>).
Proof.
  intros Hcq Hb. unfold enqueue, enqueued.
  rewrite <- (i32_small (sq_stalled_bytes (w_sq w) + len_sum msgs)) by done.
  case_bool_decide; cbn [when]; rewrite ?bind_sqmod, ?bind_ret_l; reflexivity.
Qed.

(** [serialqueue_send_batch] appends the batch to the stalled messages of its queue. *)
Lemma send_batch_run cq msgs w :
  queues_ok (w_sq w) -> is_Some (sq_queues (w_sq w) !! cq) -> Forall msg_ok msgs ->
  sq_ready_bytes (w_sq w) + sq_stalled_bytes (w_sq w) + len_sum msgs < 2147483648 ->
  exists w' evs, serialqueue_send_batch cq msgs w = Ret tt w' /\
    queues_ok (w_sq w') /\ window_view (w_sq w') = window_view (w_sq w) /\
    link_static (w_sq w') = link_static (w_sq w) /\
    w_out w' = w_out w ++ evs /\ wire evs = [] /\
    sq_ready_bytes (w_sq w') + sq_stalled_bytes (w_sq w')
    = sq_ready_bytes (w_sq w) + sq_stalled_bytes (w_sq w) + len_sum msgs /\
    (forall q, is_Some (sq_queues (w_sq w) !! q) -> is_Some (sq_queues (w_sq w') !! q)) /\
    forall q, queue_of (w_sq w') q
      = if decide (q = cq) then queue_of (w_sq w) q ++ map set_min_clock msgs else queue_of (w_sq w) q.
Proof.
  intros Hq [q Hcq] Hm Hsm. unfold serialqueue_send_batch. cbv zeta.
  destruct (set_min_clocks msgs Hm) as [Hm' El]. pose proof (len_sum_nonneg _ Hm).
  pose proof (queues_ok_bounds _ Hq). rewrite El, i32_small by lia.
  destruct (Z.eqb_spec (len_sum msgs) 0) as [Hz|Hz].
  { assert (msgs = []) as ->. { destruct msgs; [done|]. apply len_sum_pos in Hm; [lia|done]. }
    exists w, []. rewrite app_nil_r. split; [done|]. do 5 (split; [done|]). change (len_sum []) with 0. split; [lia|]. split; [done|].
    intros x. cbn. rewrite app_nil_r. by destruct decide. }
  assert (Hne : map set_min_clock msgs <> []) by (by destruct msgs).
  rewrite <- El in *. clear El Hm. revert Hm' Hne Hsm Hz. generalize (map set_min_clock msgs) as l.
  intros l Hm Hne Hsm Hz. pose proof (len_sum_nonneg _ Hm). destruct (head l) as [m0|] eqn:Eh; [|by destruct l].
  cbn [deref]. rewrite bind_ret_l, bind_sqget, Hcq. cbn [deref]. rewrite bind_ret_l.
  rewrite (bind_Ret _ _ _ _ _ (enqueue_run cq q l w Hcq ltac:(lia))).
  match goal with |- context [(if ?b then _ else _) ?w1] =>
    destruct (kick_run b w1) as (w' & evs & k & Hrun & Es & Eo & Hwire) end.
  exists w', evs. split; [exact Hrun|]. rewrite Es.
  split; [eapply queues_ok_view, queues_ok_enqueue; [reflexivity|done..]|].
  split; [reflexivity|]. split; [reflexivity|]. split; [done|]. split; [done|].
  split; [cbn; lia|]. split; [|intros x; by apply queue_of_enqueued].
  intros x Hx. cbn. rewrite lookup_insert_is_Some'. by right.
Qed.

(** A new command queue is empty and not pending. *)
Lemma queues_ok_alloc sq q :
  queues_ok sq -> sq_queues sq !! q = None ->
  queues_ok (sq <| sq_queues ::= <[q := mk_cq [] []]> |>).
Proof.
  intros Hq Hn. assert (Hp : q ∉ sq_pending_queues sq).
  { intros (cq & E & _)%(qo_pending _ Hq). by rewrite Hn in E. }
  destruct (sumf_insert_other (sq_queues sq) q (mk_cq [] []) (sq_pending_queues sq) Hp) as [Er Es].
  split; cbn [upd sq_queues sq_pending_queues sq_ready_bytes sq_stalled_bytes eta_sq].
  - apply (qo_nodup _ Hq).
  - intros x. rewrite (qo_pending _ Hq). destruct (decide (x = q)) as [->|Hx].
    + rewrite lookup_insert_eq, Hn. naive_solver.
    + by rewrite lookup_insert_ne.
  - intros x c. destruct (decide (x = q)) as [->|Hx].
    + rewrite lookup_insert_eq. intros [= <-]. constructor.
    + rewrite lookup_insert_ne by done. apply (qo_msgs _ Hq).
  - rewrite Er. apply (qo_ready _ Hq).
  - rewrite Es. apply (qo_stalled _ Hq).
  - apply (qo_small _ Hq).
Qed.
End facts.
