(* ===== verification/ReceiveFacts.v ===== *)
(** * Reception of messages by the serial queue (klippy/chelper/serialqueue.c)

    [handle_message] and the input callback: acknowledged blocks leave the sent queue,
    notifications follow their blocks, data arrives in order, and the input buffer is never
    overrun. *)

From S2P Require Import Prelude Double Wire Command CommandFacts Msgblock Stepcompress Pollreactor Serialqueue SerialqueueFacts.

Section receive.
Context {D : Type} `{DoubleOps D} `{HostOS D}.
Notation qmsg := (queue_message D).

(** ** Received messages *)

(** The notification for a message of [notify_queue]. *)
Definition notified (sent_time eventtime : D) (qm : qmsg) : qmsg :=
  qm_set_times sent_time eventtime
    {| qm_len := 0; qm_msg := []; qm_when := qm_when qm; qm_notify_id := qm_notify_id qm |}.

(** The loop over [notify_queue] moves the messages sent up to [wake_seq], in order. *)
Lemma notify_loop_spec notify wake_seq eventtime sq :
  sq_notify_queue sq = notify ->
  exists now later, notify = now ++ later /\
    Forall (fun m => qm_req_clock m <= wake_seq) now /\
    (forall m, head later = Some m -> wake_seq < qm_req_clock m) /\
    notify_loop notify wake_seq eventtime sq
    = (bool_decide (now <> []),
       sq <| sq_notify_queue := later |>
          <| sq_receive_queue ::= fun l =>
               l ++ map (notified (sq_last_receive_sent_time sq) eventtime) now |>).
Proof.
  revert sq. induction notify as [|m notify IH]; intros sq Hn; cbn [notify_loop].
  - exists [], []. split; [done|]. split; [done|]. split; [done|].
    destruct sq; cbn in *. subst. by rewrite app_nil_r.
  - destruct (Z.ltb_spec wake_seq (qm_req_clock m)).
    + exists [], (m :: notify). split; [done|]. split; [done|]. split; [by intros ? [= <-]|].
      destruct sq; cbn in *. subst. by rewrite app_nil_r.
    + match goal with |- context [notify_loop notify wake_seq eventtime ?s] =>
        destruct (IH s eq_refl) as (now & later & -> & HF & Hh & E) end.
      rewrite E. exists (m :: now), later. split; [done|]. split; [by constructor|].
      split; [done|]. cbn [snd]. f_equal. destruct sq; cbn. by rewrite <- app_assoc.
Qed.

(** The fields that the reception of a message leaves alone. *)
Definition rx_static (sq : serialqueue D) :=
  (port_static sq, sq_queues sq, sq_pending_queues sq, sq_ready_bytes sq, sq_stalled_bytes sq).

(** The step of [handle_message] that follows the sequence numbers. *)
Lemma handle_seq_run eventtime rseq w :
  window_ok (w_sq w) -> sq_receive_seq (w_sq w) <= rseq < 9223372036854775808 ->
  exists sq1, when (negb (rseq =? sq_receive_seq (w_sq w))) (sqmod (update_receive_seq eventtime rseq)) w
    = Ret tt (w <| w_sq := sq1 |>) /\
    receives rseq (w_sq w) sq1 /\ window_ok sq1 /\ ack_static sq1 = ack_static (w_sq w) /\
    acks_bytes rseq (w_sq w) sq1.
Proof.
  intros Hw Hr. destruct (Z.eqb_spec rseq (sq_receive_seq (w_sq w))) as [E|E]; cbn [negb when].
  - exists (w_sq w). split; [by destruct w|]. split; [|split; [done|split; [done|]]].
    2: { unfold acks_bytes. by rewrite (proj2 (Z.ltb_ge _ _)) by lia. }
    split; [done|]. rewrite E, Z.sub_diag. split; [done|]. pose proof (wo_seq _ Hw). lia.
  - exists (update_receive_seq eventtime rseq (w_sq w)). split; [apply sqmod_run|].
    apply update_receive_seq_run; [done|lia].
Qed.

Lemma check_wake_run (b : bool) (w : sqworld D) :
  exists evs n, when b check_wake_receive w
    = Ret tt (mk_w (w_sq w <| sq_receive_waiting := n |>) (w_out w ++ evs) (w_calls w)) /\ wire evs = [].
Proof.
  assert (Hsame : exists evs n, Ret tt w
    = Ret tt (mk_w (w_sq w <| sq_receive_waiting := n |>) (w_out w ++ evs) (w_calls w)) /\ wire evs = []).
  { exists [], (sq_receive_waiting (w_sq w)). split; [|done]. rewrite app_nil_r.
    f_equal. destruct w as [sq ??]. cbn. f_equal. by destruct sq. }
  destruct b; cbn [when]; [|exact Hsame]. unfold check_wake_receive. rewrite bind_sqget.
  destruct (z2b (sq_receive_waiting (w_sq w))); cbn [when]; [|exact Hsame].
  exists [Ev_signal], 0. split; reflexivity.
Qed.

Lemma handle_data_run rseq len msg must_wake (w : sqworld D) :
  exists b w', handle_data rseq len msg (w_sq w) must_wake w = Ret b w' /\
    window_view (w_sq w') = window_view (w_sq w) /\ rx_static (w_sq w') = rx_static (w_sq w) /\
    sq_notify_queue (w_sq w') = sq_notify_queue (w_sq w) /\ w_out w' = w_out w /\
    sq_last_ack_bytes (w_sq w') = sq_last_ack_bytes (w_sq w) /\
    sq_last_ack_seq (w_sq w') = (if len =? MESSAGE_MIN then Z.max (sq_last_ack_seq (w_sq w)) rseq
                                 else sq_last_ack_seq (w_sq w)) /\
    exists data, sq_receive_queue (w_sq w') = sq_receive_queue (w_sq w) ++ data /\
    (if len =? MESSAGE_MIN then data = [] else
     exists m, data = [m] /\ qm_msg m = takeZ len msg /\ qm_len m = len).
Proof.
  unfold handle_data. destruct (len =? MESSAGE_MIN).
  - destruct (Z.ltb_spec (sq_last_ack_seq (w_sq w)) rseq) as [Hl|Hl].
    + eexists _, _. split; [reflexivity|]. do 5 (split; [reflexivity|]).
      split; [cbn; lia|]. exists []. split; [symmetry; apply app_nil_r|done].
    + unfold when, update_timer, pr_mod, modify, bind, ret.
      destruct (_ && _); eexists _, _; (split; [reflexivity|]); do 5 (split; [reflexivity|]);
        (split; [cbn; lia|]); exists []; (split; [symmetry; apply app_nil_r|done]).
  - unfold get_monotonic, gets, modify, bind, ret. eexists _, _. split; [reflexivity|].
    do 6 (split; [reflexivity|]). eexists. split; [reflexivity|]. eexists. split; [reflexivity|]. done.
Qed.

(** What the content of a message adds to the receive queue. *)
Definition delivers (rseq len : Z) (msg : list Z) (eventtime : D) (sq sq' : serialqueue D) : Prop :=
  exists now later sent_time data,
    sq_notify_queue sq = now ++ later /\ sq_notify_queue sq' = later /\
    Forall (fun m => qm_req_clock m <= u64 (rseq - 1 - (if MESSAGE_MIN <? len then 1 else 0))) now /\
    sq_receive_queue sq'
    = sq_receive_queue sq ++ map (notified sent_time eventtime) now ++ data /\
    (if len =? MESSAGE_MIN then data = [] else
     exists m, data = [m] /\ qm_msg m = takeZ len msg /\ qm_len m = len).

Lemma handle_content_run rseq len msg eventtime (w : sqworld D) :
  exists w' evs, handle_content rseq len msg eventtime w
    = Ret (find_fastreader msg len (sq_fast_readers (w_sq w))) w' /\
    window_view (w_sq w') = window_view (w_sq w) /\ rx_static (w_sq w') = rx_static (w_sq w) /\
    sq_last_ack_bytes (w_sq w') = sq_last_ack_bytes (w_sq w) /\
    w_out w' = w_out w ++ evs /\ wire evs = [] /\
    sq_last_ack_seq (w_sq w') = (if len =? MESSAGE_MIN then Z.max (sq_last_ack_seq (w_sq w)) rseq
                                 else sq_last_ack_seq (w_sq w)) /\
    delivers rseq len msg eventtime (w_sq w) (w_sq w').
Proof.
  unfold handle_content. rewrite bind_sqget. cbv zeta.
  destruct (notify_loop_spec (sq_notify_queue (w_sq w)) (u64 (rseq - 1 - (if MESSAGE_MIN <? len then 1 else 0)))
    eventtime (w_sq w) eq_refl) as (now & later & En & HFn & _ & E).
  rewrite E, bind_sqmod. clear E. set (st := sq_last_receive_sent_time (w_sq w)).
  set (w3 := w <| w_sq ::= _ |>).
  match goal with |- context [handle_data rseq len msg ?q ?b] =>
    change q with (w_sq w3); destruct (handle_data_run rseq len msg b w3)
      as (b4 & w4 & Hrun4 & Ev4 & Es4 & En4 & Eo4 & Eb4 & Ea4 & data & Ed4 & Hdata) end.
  rewrite (bind_Ret _ _ _ _ _ Hrun4). clear Hrun4.
  change (sq_notify_queue (w_sq w3)) with later in En4.
  change (sq_receive_queue (w_sq w3)) with (sq_receive_queue (w_sq w) ++ map (notified st eventtime) now) in Ed4.
  destruct (check_wake_run b4 w4) as (evs & n & Hrun5 & Hwire).
  rewrite (bind_Ret _ _ _ _ _ Hrun5), bind_sqget. clear Hrun5.
  eexists _, evs. split.
  { unfold ret. f_equal. f_equal.
    change (sq_fast_readers (w_sq w)) with (sq_fast_readers (w_sq w3)).
    unfold rx_static, port_static in Es4. by injection Es4. }
  split; [exact Ev4|]. split; [exact Es4|]. split; [exact Eb4|]. split; [cbn [w_out]; rewrite Eo4; reflexivity|].
  split; [done|]. split; [exact Ea4|].
  exists now, later, st, data. split; [done|]. split; [exact En4|]. split; [done|].
  split; [|exact Hdata]. rewrite app_assoc. exact Ed4.
Qed.

(** What the reception of a message with sequence number [rseq] promises. *)
Record received (rseq len : Z) (msg : list Z) (eventtime : D) (w w' : sqworld D) : Prop := {
  rcv_seq : receives rseq (w_sq w) (w_sq w');
  rcv_window : window_ok (w_sq w');
  rcv_static : rx_static (w_sq w') = rx_static (w_sq w);
  rcv_bytes : acks_bytes rseq (w_sq w) (w_sq w');
  rcv_wire : exists evs, w_out w' = w_out w ++ evs /\ wire evs = [];
  rcv_ack : sq_last_ack_seq (w_sq w')
    = if len =? MESSAGE_MIN then Z.max (sq_last_ack_seq (w_sq w)) rseq else sq_last_ack_seq (w_sq w);
  rcv_queue : delivers rseq len msg eventtime (w_sq w) (w_sq w');
}.

(** [handle_message] on a message with the sequence number of a block that was sent, or on
    the first message of a connection. *)
Lemma handle_message_accept eventtime len w :
  let msg := takeZ len (sq_input_buf (w_sq w)) in
  let rseq := receive_seq_of (w_sq w) (nthZ msg MESSAGE_POS_SEQ) in
  window_ok (w_sq w) -> rseq <= sq_send_seq (w_sq w) \/ sq_receive_seq (w_sq w) = 1 ->
  exists w', handle_message eventtime len w
    = Ret (find_fastreader msg len (sq_fast_readers (w_sq w))) w' /\
    received rseq len msg eventtime w w'.
Proof.
  intros msg rseq Hw Hcond. pose proof (wo_seq _ Hw). pose proof (wo_small _ Hw).
  pose proof (receive_seq_of_range (w_sq w) (nthZ msg MESSAGE_POS_SEQ) ltac:(lia)) as Hrange.
  fold rseq in Hrange. unfold handle_message. rewrite bind_sqget. cbv zeta. fold msg. fold rseq.
  assert (Hguard : negb (rseq =? sq_receive_seq (w_sq w)) && (sq_send_seq (w_sq w) <? rseq)
    && negb (sq_receive_seq (w_sq w) =? 1) = false).
  { apply andb_false_iff. destruct Hcond as [Hle| ->]; [left; apply andb_false_iff; right; by apply Z.ltb_ge|by right]. }
  rewrite Hguard.
  destruct (handle_seq_run eventtime rseq w Hw) as (sq1 & Hrun & Hrec & Hw1 & Hst & Hb); [lia|].
  rewrite (bind_Ret _ _ _ _ _ Hrun), bind_sqmod. set (w2 := _ <| w_sq ::= _ |>).
  destruct (handle_content_run rseq len msg eventtime w2)
    as (w' & evs & Hrun' & Ev & Es & Eb & Eo & Hwire & Ea & Hdel).
  change (window_view (w_sq w2)) with (window_view sq1) in Ev.
  change (rx_static (w_sq w2)) with (rx_static sq1) in Es.
  unfold ack_static, queue_view in Hst. unfold window_view in Ev.
  exists w'. split.
  { rewrite Hrun'. do 2 f_equal. change (sq_fast_readers (w_sq w2)) with (sq_fast_readers sq1).
    unfold port_static in Hst. congruence. }
  split.
  - destruct Hrec as (R1 & R2 & R3). split_and!; congruence.
  - eapply window_ok_view, Hw1. congruence.
  - rewrite Es. unfold rx_static. congruence.
  - unfold acks_bytes in *. rewrite Eb. exact Hb.
  - exists evs. split; [exact Eo|done].
  - rewrite Ea. change (sq_last_ack_seq (w_sq w2)) with (sq_last_ack_seq sq1).
    replace (sq_last_ack_seq sq1) with (sq_last_ack_seq (w_sq w)) by congruence. done.
  - destruct Hdel as (now & later & st & data & En & En' & HF & Eq & Hd).
    exists now, later, st, data.
    change (sq_notify_queue (w_sq w2)) with (sq_notify_queue sq1) in En.
    change (sq_receive_queue (w_sq w2)) with (sq_receive_queue sq1) in Eq.
    replace (sq_notify_queue (w_sq w)) with (sq_notify_queue sq1) by congruence.
    replace (sq_receive_queue (w_sq w)) with (sq_receive_queue sq1) by congruence. done.
Qed.

(** A message that acknowledges a block never sent is counted and dropped. *)
Lemma handle_message_ignore eventtime len w :
  let rseq := receive_seq_of (w_sq w) (nthZ (takeZ len (sq_input_buf (w_sq w))) MESSAGE_POS_SEQ) in
  window_ok (w_sq w) -> sq_send_seq (w_sq w) < rseq -> sq_receive_seq (w_sq w) <> 1 ->
  handle_message eventtime len w
  = Ret None (w <| w_sq := w_sq w <| sq_bytes_invalid ::= fun n => u32 (n + len) |> |>).
Proof.
  intros rseq Hw Hlt Hne. pose proof (wo_seq _ Hw). unfold handle_message. rewrite bind_sqget.
  cbv zeta. fold rseq. rewrite (proj2 (Z.eqb_neq _ _)), (proj2 (Z.ltb_lt _ _)), (proj2 (Z.eqb_neq _ _)) by lia.
  reflexivity.
Qed.

(** In every state [handle_message] returns, and leaves the input buffer alone. *)
Lemma handle_message_port eventtime len (w : sqworld D) :
  exists fr w', handle_message eventtime len w = Ret fr w' /\ port_static (w_sq w') = port_static (w_sq w).
Proof.
  unfold handle_message. rewrite bind_sqget. cbv zeta.
  destruct (_ && negb (sq_receive_seq (w_sq w) =? 1)).
  { rewrite bind_sqmod. eexists _, _. split; reflexivity. }
  set (rseq := receive_seq_of _ _).
  assert (Hseq : exists sq1, when (negb (rseq =? sq_receive_seq (w_sq w)))
      (sqmod (update_receive_seq eventtime rseq)) w = Ret tt (w <| w_sq := sq1 |>) /\
    port_static sq1 = port_static (w_sq w)).
  { destruct (negb _); cbn [when].
    - exists (update_receive_seq eventtime rseq (w_sq w)). split; [apply sqmod_run|apply update_receive_port].
    - exists (w_sq w). split; [by destruct w|reflexivity]. }
  destruct Hseq as (sq1 & Hrun & Hp). rewrite (bind_Ret _ _ _ _ _ Hrun), bind_sqmod.
  match goal with |- context [handle_content rseq len ?msg eventtime ?w2] =>
    destruct (handle_content_run rseq len msg eventtime w2) as (w' & evs & Hrun' & _ & Es & _) end.
  eexists _, w'. split; [exact Hrun'|]. rewrite <- Hp.
  unfold rx_static in Es. by apply (f_equal (fun t => t.1.1.1.1)) in Es.
Qed.
End receive.

(** ** The input buffer *)

Lemma need_more_short buf : need_more buf = true -> zlen buf < MESSAGE_MAX.
Proof.
  unfold need_more, MESSAGE_MAX. intros Hm. apply orb_true_iff in Hm as [Hm%Z.ltb_lt|Hm]; [lia|].
  rewrite !andb_true_iff, !Z.leb_le, Z.ltb_lt in Hm. lia.
Qed.

Section input.
Context {D : Type} `{DoubleOps D} `{HostOS D}.
Context {W : Type} {HP : Part W (sqworld D)}.
Context (call_fastreader : fastreader -> list Z -> Z -> M W unit).

(** The serial queue in a world. *)
Definition the_sq (w : W) : serialqueue D := w_sq (part_get w).

(** A fast reader returns and leaves the serial port alone. *)
Definition reader_ok : Prop := forall fr msg len w,
  exists w', call_fastreader fr msg len w = Ret tt w' /\ port_static (the_sq w') = port_static (the_sq w).

Lemma bind_zget {A B} (f : serialqueue D -> A) (k : A -> M W B) w :
  bind (zsq (sqget f)) k w = k (f (the_sq w)) w.
Proof. unfold zsq, zoom, sqget, gets, bind. by rewrite part_set_get. Qed.

Lemma bind_zmod {B} f (k : unit -> M W B) w :
  bind (zsq (sqmod f)) k w
  = k tt (part_set ((part_get w : sqworld D) <| w_sq ::= f |>) w).
Proof. done. Qed.

Lemma take_input_run eventtime buf len w :
  reader_ok -> exists w', take_input call_fastreader eventtime buf len w = Ret (Z.abs len) w' /\
    port_static (the_sq w') = port_static (the_sq w).
Proof.
  intros Hfr. unfold take_input. destruct (Z.ltb_spec 0 len) as [Hl|Hl].
  - destruct (handle_message_port eventtime len (part_get w)) as (fr & s & Hrun & Hp).
    rewrite (bind_Ret (zsq _) _ w fr (part_set s w)) by (unfold zsq; by apply zoom_Ret).
    assert (E : port_static (the_sq (part_set s w)) = port_static (the_sq w)).
    { unfold the_sq. by rewrite part_get_set. }
    rewrite Z.abs_eq by lia. destruct fr as [fr|].
    + destruct (Hfr fr buf len (part_set s w)) as (w' & Hr & E').
      rewrite (bind_Ret _ _ _ _ _ Hr). exists w'. split; [done|congruence].
    + rewrite bind_ret_l. by eexists.
  - rewrite bind_zmod, Z.abs_neq by lia. eexists. split; [reflexivity|].
    unfold the_sq. by rewrite part_get_set.
Qed.

Lemma input_loop_run fuel eventtime w :
  reader_ok -> bytes (sq_input_buf (the_sq w)) ->
  (length (sq_input_buf (the_sq w)) < fuel)%nat ->
  exists w' k, input_loop call_fastreader fuel eventtime w = Ret tt w' /\
    sq_input_buf (the_sq w') = drop k (sq_input_buf (the_sq w)) /\
    zlen (sq_input_buf (the_sq w')) < MESSAGE_MAX /\
    sq_serial_fd_type (the_sq w') = sq_serial_fd_type (the_sq w).
Proof.
  intros Hfr. revert w. induction fuel as [|fuel IH]; intros w Hb Hf; [lia|].
  cbn [input_loop]. rewrite bind_zget.
  destruct (msgblock_check (sq_need_sync (the_sq w)) (sq_input_buf (the_sq w))) as [len ns] eqn:Ec.
  destruct (msgblock_check_spec _ _ _ _ Hb Ec) as (_ & _ & Hzero & Hrange).
  rewrite bind_zmod. set (w1 := part_set _ w).
  assert (E1 : sq_input_buf (the_sq w1) = sq_input_buf (the_sq w) /\
    sq_serial_fd_type (the_sq w1) = sq_serial_fd_type (the_sq w)).
  { unfold w1, the_sq. by rewrite part_get_set. }
  destruct E1 as [Eb1 Et1].
  destruct (Z.eqb_spec len 0) as [->|Hne].
  { exists w1, 0%nat. rewrite drop_0. split; [done|]. split; [done|]. split; [|done].
    rewrite Eb1. by apply need_more_short, Hzero. }
  destruct (take_input_run eventtime (sq_input_buf (the_sq w)) len w1 Hfr) as (w2 & Hrun & Hp).
  rewrite (bind_Ret _ _ _ _ _ Hrun), bind_zmod. set (w3 := part_set _ w2).
  assert (E3 : sq_input_buf (the_sq w3) = drop (Z.to_nat (Z.abs len)) (sq_input_buf (the_sq w)) /\
    sq_serial_fd_type (the_sq w3) = sq_serial_fd_type (the_sq w)).
  { unfold port_static in Hp. unfold w3, the_sq in *. rewrite part_get_set. cbn.
    unfold dropZ. split; [f_equal|]; congruence. }
  destruct E3 as [Eb3 Et3].
  destruct (IH w3) as (w' & k & Hrun' & Eb' & Hs' & Et').
  { rewrite Eb3. by apply bytes_drop. }
  { rewrite Eb3, length_drop. unfold zlen in Hrange. lia. }
  exists w', (Z.to_nat (Z.abs len) + k)%nat. split; [exact Hrun'|]. split; [|split; [done|congruence]].
  by rewrite Eb', Eb3, drop_drop.
Qed.

(** What [read] may return: on a serial line at most the free part of the buffer, on a CAN
    bus frames of up to eight bytes. *)
Definition read_ok (w : W) (rd : read_result) : Prop :=
  match rd with
  | Rd_fail _ => True
  | Rd_bytes data => bytes data /\ zlen (sq_input_buf (the_sq w)) + zlen data <= INPUT_BUF_SIZE
  | Rd_can _ data => bytes data /\ zlen data <= 8
  end.

Lemma input_blocks_run data eventtime w :
  reader_ok -> bytes (sq_input_buf (the_sq w)) -> bytes data ->
  zlen (sq_input_buf (the_sq w)) + zlen data <= INPUT_BUF_SIZE ->
  exists w' k, (zsq (store_input data) ;; input_blocks call_fastreader eventtime) w = Ret tt w' /\
    sq_input_buf (the_sq w') = drop k (sq_input_buf (the_sq w) ++ data) /\
    zlen (sq_input_buf (the_sq w')) < MESSAGE_MAX.
Proof.
  intros Hfr Hb Hd Hl. set (s1 := (part_get w : sqworld D) <| w_sq ::= fun sq => sq <| sq_input_buf ::= fun l => l ++ data |> |>).
  assert (Hst : store_input data (part_get w) = Ret tt s1).
  { unfold store_input. rewrite bind_sqget. fold (the_sq w). rewrite (proj2 (Z.ltb_ge _ _)) by done. done. }
  rewrite (bind_Ret (zsq _) _ w tt (part_set s1 w)) by (unfold zsq; by apply zoom_Ret).
  unfold input_blocks. rewrite bind_zget.
  assert (E1 : sq_input_buf (the_sq (part_set s1 w)) = sq_input_buf (the_sq w) ++ data).
  { unfold the_sq. by rewrite part_get_set. }
  destruct (input_loop_run (S (length (sq_input_buf (the_sq (part_set s1 w))))) eventtime (part_set s1 w))
    as (w' & k & Hrun & Eb & Hs & _); [done|rewrite E1; by apply bytes_app|lia|].
  exists w', k. split; [done|]. by rewrite <- E1.
Qed.

(** Between two calls of the input callback fewer than [MESSAGE_MAX] bytes of its buffer are
    in use. *)
Lemma input_event_run rd eventtime w :
  reader_ok -> bytes (sq_input_buf (the_sq w)) -> zlen (sq_input_buf (the_sq w)) < MESSAGE_MAX ->
  read_ok w rd ->
  exists w', input_event call_fastreader rd eventtime w = Ret tt w' /\
    bytes (sq_input_buf (the_sq w')) /\ zlen (sq_input_buf (the_sq w')) < MESSAGE_MAX.
Proof.
  intros Hfr Hb Hs Hrd. unfold input_event. rewrite bind_zget.
  assert (Hlog : forall what, exists w', zsq (emit (Ev_log what) ;; pr_mod pollreactor_do_exit) w = Ret tt w' /\
    bytes (sq_input_buf (the_sq w')) /\ zlen (sq_input_buf (the_sq w')) < MESSAGE_MAX).
  { intros what. eexists. split; [reflexivity|]. unfold the_sq. by rewrite part_get_set. }
  assert (Hdata : forall data, bytes data -> zlen (sq_input_buf (the_sq w)) + zlen data <= INPUT_BUF_SIZE ->
    exists w', (zsq (store_input data) ;; input_blocks call_fastreader eventtime) w = Ret tt w' /\
    bytes (sq_input_buf (the_sq w')) /\ zlen (sq_input_buf (the_sq w')) < MESSAGE_MAX).
  { intros data Hd Hl. destruct (input_blocks_run data eventtime w Hfr Hb Hd Hl) as (w' & k & Hrun & Eb & Hs').
    exists w'. split; [done|]. split; [|done]. rewrite Eb. by apply bytes_drop, bytes_app. }
  destruct (_ =? SQT_CAN), rd as [r|data|can_id data]; try apply Hlog; destruct Hrd as [Hd Hl].
  - destruct (negb _); [by exists w|]. apply Hdata; [done|]. unfold INPUT_BUF_SIZE, MESSAGE_MAX in *. lia.
  - destruct data as [|b data]; [apply Hlog|by apply Hdata].
Qed.

End input.
