(* ===== verification/Session.v ===== *)
(** * A host and a micro-controller on a serial line

    The serial queue of the host ([Serialqueue]) and the command parser of the firmware
    ([Command]) joined by a line that keeps the order of the blocks and may lose any of
    them, in both directions (a damaged block is discarded by the receiver, see
    [corrupted_block_rejected]).  The firmware behind the parser is an interface,
    [Firmware_link]: its console and its command handlers. *)

From S2P Require Import Prelude Double Wire Command CommandFacts Msgblock Stepcompress Pollreactor Serialqueue SerialqueueFacts ReceiveFacts.

(** ** Blocks on the line *)

(** The complete blocks in a string of bytes; sync bytes between blocks are skipped. *)
Fixpoint split_blocks (fuel : nat) (data : list Z) : list (list Z) :=
  match fuel, data with
  | S fuel, len :: rest =>
      if len =? MESSAGE_SYNC then split_blocks fuel rest
      else if (len <? MESSAGE_MIN) || (zlen data <? len) then []
      else takeZ len data :: split_blocks fuel (dropZ len data)
  | _, _ => []
  end.

Definition wire_blocks (data : list Z) : list (list Z) := split_blocks (length data) data.

(** The content of a block. *)
Definition payload (block : list Z) : list Z :=
  takeZ (zlen block - MESSAGE_MIN) (dropZ MESSAGE_HEADER_SIZE block).

(** ** The firmware *)

Section session.
Context {D : Type} `{DoubleOps D} `{HostOS D}.
Context {W : Type} {PC : Part W cmd_state} {CE : CommandEnv W}.

(** The blocks the firmware has sent so far. *)
Context (uplink : W -> list (list Z)).

(** A block sent while the firmware expects sequence byte [seq]. *)
Definition response (seq : Z) (block : list Z) : Prop :=
  exists content, block = frame seq content /\ bytes content /\ zlen content <= MESSAGE_PAYLOAD_MAX.

(** Code that leaves the parser alone and may send responses. *)
Definition responds (w w' : W) : Prop :=
  next_sequence (part_get w') = next_sequence (part_get w) /\
  sync_state (part_get w') = sync_state (part_get w) /\
  exists out, uplink w' = uplink w ++ out /\
    Forall (response (next_sequence (part_get w))) out.

(** What the console and the command handlers promise. *)
Class Firmware_link := {
  fl_acknak : forall w, exists w', env_console_sendf encode_acknak [] w = Ret tt w' /\
    part_get w' = part_get w /\
    exists out, uplink w' = uplink w ++ out /\
      Forall (response (next_sequence (part_get w))) out;
  fl_parser : forall f w, uplink (part_set f w) = uplink w;
  fl_dispatch : forall buf w, bytes buf -> block_ok buf = true -> exists w',
    (command_dispatch buf (nthZ buf 0) w = Ret tt w' \/
     exists reason, command_dispatch buf (nthZ buf 0) w = Shut reason w') /\
    responds w w';
}.

(** The firmware receives a block; a shutdown ends the command, and the system goes on. *)
Definition mcu_receive (block : list Z) (w : W) : option (Z * W) :=
  match command_find_block block w with
  | Ret (r, n) w1 =>
      if 0 <? r then
        match (command_dispatch block n ;; command_send_ack) w1 with
        | Ret _ w2 | Shut _ w2 => Some (r, w2)
        | Stuck => None
        end
      else Some (r, w1)
  | Shut _ w1 => Some (-1, w1)
  | Stuck => None
  end.

(** ** The session *)

(** [ses_down] and [ses_up]: the blocks on the line.  [ses_built] lists the contents of the blocks
    the host has built since it knows the sequence number of the firmware, and
    [ses_accepted] those the firmware has accepted. *)
Record session := mk_session {
  ses_host : sqworld D; ses_mcu : W;
  ses_down : list (list Z); ses_up : list (list Z);
  ses_built : list (list Z); ses_accepted : list (list Z) }.

Context (call_fastreader : fastreader -> list Z -> Z -> M (sqworld D) unit).

(** What the host wrote to the line from state [h] to state [h']. *)
Definition written (h h' : sqworld D) : list (list Z) :=
  wire_blocks (wire (drop (length (w_out h)) (w_out h'))).

(** The host ran an operation that ended in state [h']. *)
Definition host_ran (h' : sqworld D) (s : session) : session :=
  let h := ses_host s in
  let new := drop (length (sq_sent_queue (w_sq h))) (sq_sent_queue (w_sq h')) in
  mk_session h' (ses_mcu s) (ses_down s ++ written h h') (ses_up s)
    (if sq_receive_seq (w_sq h) =? 1 then ses_built s
     else ses_built s ++ map (fun m => payload (qm_msg m)) new)
    (ses_accepted s).

(** The first block on the line reaches the firmware. *)
Definition deliver_down (s : session) : option session :=
  match ses_down s with
  | [] => None
  | block :: down =>
      match mcu_receive block (ses_mcu s) with
      | Some (r, w) =>
          Some (mk_session (ses_host s) w down
                  (ses_up s ++ drop (length (uplink (ses_mcu s))) (uplink w)) (ses_built s)
                  (if 0 <? r then ses_accepted s ++ [payload block] else ses_accepted s))
      | None => None
      end
  end.

(** The next [n] blocks on the line reach the firmware. *)
Fixpoint deliver_all (n : nat) (s : session) : option session :=
  match n with
  | O => Some s
  | S n => match deliver_down s with Some s' => deliver_all n s' | None => None end
  end.

(** The first block on the line reaches the host. *)
Definition deliver_up (t : D) (s : session) : option session :=
  match ses_up s with
  | [] => None
  | block :: up =>
      match input_event call_fastreader (Rd_bytes block) t (ses_host s) with
      | Ret _ h => Some (mk_session h (ses_mcu s) (ses_down s) up (ses_built s) (ses_accepted s))
      | _ => None
      end
  end.

(** Sequence numbers stay below 2^63: the host has sent fewer than about 10^18 blocks. *)
Definition seq_room (h : sqworld D) : Prop :=
  sq_send_seq (w_sq h) + 14 + Z.of_nat (queued_msgs (w_sq h)) < 9223372036854775808.

(** The other operations of the serial queue. *)
Inductive host_api : Type :=
| Api_pull
| Api_kick (t : D)
| Api_wire_frequency (frequency : D)
| Api_receive_window (receive_window : Z)
| Api_clock_est (freq ctime : D) (cclock lclock : Z)
| Api_extract_old (sentq : bool) (max : Z).

Definition run_api (op : host_api) : M (sqworld D) unit :=
  match op with
  | Api_pull => serialqueue_pull ;; ret tt
  | Api_kick t => kick_event t
  | Api_wire_frequency f => serialqueue_set_wire_frequency f
  | Api_receive_window n => serialqueue_set_receive_window n
  | Api_clock_est f ct cc lc => serialqueue_set_clock_est f ct cc lc
  | Api_extract_old sentq max => serialqueue_extract_old sentq max ;; ret tt
  end.

Inductive session_step : session -> session -> Prop :=
| ss_transmit s t r h' :
    seq_room (ses_host s) -> command_event t (ses_host s) = Ret r h' ->
    session_step s (host_ran h' s)
| ss_retransmit s t r h' :
    retransmit_event t (ses_host s) = Ret r h' -> session_step s (host_ran h' s)
| ss_alloc s cq h' :
    sq_queues (w_sq (ses_host s)) !! cq = None ->
    serialqueue_alloc_commandqueue cq (ses_host s) = Ret tt h' -> session_step s (host_ran h' s)
| ss_queue s cq msgs h' :
    is_Some (sq_queues (w_sq (ses_host s)) !! cq) -> Forall msg_ok msgs ->
    sq_ready_bytes (w_sq (ses_host s)) + sq_stalled_bytes (w_sq (ses_host s)) + len_sum msgs < 2147483648 ->
    serialqueue_send_batch cq msgs (ses_host s) = Ret tt h' -> session_step s (host_ran h' s)
| ss_api s op h' :
    run_api op (ses_host s) = Ret tt h' -> session_step s (host_ran h' s)
| ss_deliver_down s s' : deliver_down s = Some s' -> session_step s s'
| ss_deliver_up s t s' : deliver_up t s = Some s' -> session_step s s'
| ss_lose_down s down :
    down `sublist_of` ses_down s ->
    session_step s (mk_session (ses_host s) (ses_mcu s) down (ses_up s) (ses_built s) (ses_accepted s))
| ss_lose_up s up :
    up `sublist_of` ses_up s ->
    session_step s (mk_session (ses_host s) (ses_mcu s) (ses_down s) up (ses_built s) (ses_accepted s)).

(** A host that just opened the line and a firmware after a reset. *)
Definition session_init (sq : serialqueue D) (w : W) (n : nat) : session :=
  mk_session (mk_w sq [] n) w [] [] [] [].
End session.

#[global] Arguments fl_acknak {W PC CE uplink _}.
#[global] Arguments fl_parser {W PC CE uplink _}.
#[global] Arguments fl_dispatch {W PC CE uplink _}.
