(* ===== verification/SessionFacts.v ===== *)
(** * Reliable transmission over a lossy line

    The commands of the host reach the handlers of the firmware in order, each exactly
    once, whatever the line loses; and a retransmission over a line that loses nothing
    brings everything through. *)

From S2P Require Import Prelude Double Wire Command CommandFacts Msgblock Stepcompress Pollreactor Serialqueue SerialqueueFacts ReceiveFacts Session.
From Stdlib Require Import Sorted.

(** ** Blocks on the line *)

Lemma payload_frame seq content :
  zlen content <= MESSAGE_PAYLOAD_MAX -> payload (frame seq content) = content.
Proof.
  intros Hl. unfold payload, MESSAGE_MIN, MESSAGE_HEADER_SIZE. rewrite zlen_frame by done.
  rewrite frame_unfold by done.
  match goal with |- context [dropZ 2 (?a :: ?b :: ?l)] => change (dropZ 2 (a :: b :: l)) with l end.
  apply takeZ_app_exact. lia.
Qed.

(** The bytes of blocks are split into the blocks again. *)
Definition is_block (b : list Z) : Prop :=
  exists seq content, b = frame seq content /\ bytes content /\ zlen content <= MESSAGE_PAYLOAD_MAX.

Lemma split_blocks_concat blocks fuel :
  Forall is_block blocks -> (length (concat blocks) <= fuel)%nat ->
  split_blocks fuel (concat blocks) = blocks.
Proof.
  intros HF. revert fuel. induction HF as [|b blocks Hb HF IH]; intros fuel Hf.
  - by destruct fuel.
  - cbn [concat] in *. destruct Hb as (seq & c & Eb & _ & Hc).
    assert (Hz : zlen b = 5 + zlen c) by (subst; by apply zlen_frame).
    pose proof (zlen_nonneg c).
    assert (Hhd : exists rest, b = (5 + zlen c) :: rest).
    { subst. rewrite frame_unfold by done. by eexists. }
    destruct Hhd as [rest Ehd]. rewrite length_app in Hf.
    destruct fuel as [|fuel]; [unfold zlen in *; lia|].
    assert (Hall : zlen (b ++ concat blocks) = 5 + zlen c + zlen (concat blocks)) by (rewrite zlen_app; lia).
    pose proof (zlen_nonneg (concat blocks)).
    unfold MESSAGE_PAYLOAD_MAX, MESSAGE_MAX, MESSAGE_MIN in *.
    rewrite Ehd at 1. cbn [split_blocks app]. unfold MESSAGE_SYNC, MESSAGE_MIN.
    change ((5 + zlen c) :: rest ++ concat blocks) with (((5 + zlen c) :: rest) ++ concat blocks).
    rewrite <- Ehd. rewrite Hall, (proj2 (Z.eqb_neq _ _)), !(proj2 (Z.ltb_ge _ _)) by lia. cbn [orb].
    rewrite takeZ_app_exact, dropZ_app_exact by lia. f_equal. apply IH. unfold zlen in *. lia.
Qed.

Lemma wire_blocks_concat blocks : Forall is_block blocks -> wire_blocks (concat blocks) = blocks.
Proof. intros HF. by apply split_blocks_concat. Qed.

Lemma wire_blocks_sync blocks :
  Forall is_block blocks -> wire_blocks (MESSAGE_SYNC :: concat blocks) = blocks.
Proof. intros HF. unfold wire_blocks. cbn [length split_blocks]. by apply split_blocks_concat. Qed.

Lemma bytes_frame n c : bytes c -> zlen c <= MESSAGE_PAYLOAD_MAX -> bytes (frame (seq_of n) c).
Proof.
  intros Hb Hl. pose proof (seq_of_byte n). unfold seq_byte in *. pose proof (zlen_nonneg c).
  unfold MESSAGE_PAYLOAD_MAX, MESSAGE_MAX, MESSAGE_MIN in *.
  rewrite frame_unfold by done. unfold MESSAGE_MIN.
  pose proof (crc16_range ((5 + zlen c) :: seq_of n :: c) (2 + zlen c)).
  constructor; [lia|]. constructor; [lia|]. apply bytes_app. split; [done|].
  repeat constructor; Z.div_mod_to_equations; lia.
Qed.

(** ** The firmware *)

Section firmware.
Context {W : Type} {PC : Part W cmd_state} {CE : CommandEnv W}.
Context (uplink : W -> list (list Z)) {FL : Firmware_link uplink}.

Lemma send_ack_run w : exists w', command_send_ack w = Ret tt w' /\ responds uplink w w'.
Proof using FL.
  unfold command_send_ack, command_sendf, cmd_gets, gets, cmd_modify, modify, bind, ret.
  destruct (z2b (in_sendf (part_get w))).
  { exists w. split; [done|]. split; [done|]. split; [done|]. exists []. by rewrite app_nil_r. }
  destruct (fl_acknak (part_set (set_in_sendf 1 (part_get w)) w)) as (w' & -> & Hp & out & Eo & HF). eexists. split; [reflexivity|].
  unfold responds. rewrite part_get_set, Hp, part_get_set. split; [done|]. split; [done|].
  exists out. rewrite fl_parser, Eo, fl_parser. split; [done|]. by rewrite part_get_set in HF.
Qed.

Lemma responds_trans w1 w2 w3 : responds uplink w1 w2 -> responds uplink w2 w3 -> responds uplink w1 w3.
Proof.
  intros (E1 & S1 & o1 & U1 & F1) (E2 & S2 & o2 & U2 & F2). split; [congruence|]. split; [congruence|].
  exists (o1 ++ o2). split; [by rewrite U2, U1, app_assoc|]. apply Forall_app. split; [done|].
  by rewrite <- E1.
Qed.

Lemma nthZ_frame_seq seq content : zlen content <= 59 -> nthZ (frame seq content) 1 = seq.
Proof. intros. by rewrite frame_unfold. Qed.

Lemma nthZ_frame_len seq content : zlen content <= 59 -> nthZ (frame seq content) 0 = 5 + zlen content.
Proof. intros. by rewrite frame_unfold. Qed.

(** The firmware is in step when it does not search for a sync byte and expects [n]. *)
Definition expects (n : Z) (w : W) : Prop :=
  next_sequence (part_get w) = seq_of n /\ has (sync_state (part_get w)) CF_NEED_SYNC = false.

Lemma seq_of_succ n : Z.lor (Z.land (seq_of n + 1) MESSAGE_SEQ_MASK) MESSAGE_DEST = seq_of (n + 1).
Proof.
  rewrite next_seq_value by apply seq_of_byte. unfold seq_of. f_equal.
  Z.div_mod_to_equations. lia.
Qed.

Lemma has_clear s : has s CF_NEED_SYNC = false -> has (clear s CF_NEED_VALID) CF_NEED_SYNC = false.
Proof.
  unfold has, clear, CF_NEED_SYNC, CF_NEED_VALID. rewrite !negb_false_iff, !Z.eqb_eq. intros Hs.
  apply Z.bits_inj'. intros i Hi. apply (f_equal (fun z => Z.testbit z i)) in Hs.
  cbn beta in Hs. rewrite Z.land_spec, Z.bits_0 in Hs. rewrite Z.land_spec, Z.ldiff_spec, Z.bits_0.
  destruct (Z.testbit s i), (Z.testbit 1 i), (Z.testbit 2 i); done.
Qed.

Lemma find_block_frame n c w :
  bytes c -> zlen c <= MESSAGE_PAYLOAD_MAX -> has (sync_state (part_get w)) CF_NEED_SYNC = false ->
  command_find_block (frame (seq_of n) c) w = take_block (frame (seq_of n) c) w.
Proof.
  intros Hb Hl Hs. rewrite find_block_eq, Hs, andb_false_r.
  rewrite <- (app_nil_r (frame (seq_of n) c)), block_ok_frame by (done || apply seq_of_byte). done.
Qed.

(** A block with another sequence number is answered with the expected one. *)
Lemma mcu_rejects n r c w :
  bytes c -> zlen c <= MESSAGE_PAYLOAD_MAX -> expects r w -> seq_of n <> seq_of r ->
  exists w', mcu_receive (frame (seq_of n) c) w = Some (-1, w') /\ expects r w' /\
    exists out, uplink w' = uplink w ++ out /\ Forall (response (seq_of r)) out.
Proof using FL.
  intros Hb Hl [Hn Hs] Hne. unfold mcu_receive. rewrite find_block_frame by done.
  unfold take_block, find_block_nak, cmd_modify, cmd_gets, gets, modify, ret, bind.
  rewrite part_get_set. cbn [set_sync_state next_sequence]. rewrite nthZ_frame_seq, nthZ_frame_len by done.
  rewrite Hn, (proj2 (Z.eqb_neq _ _)) by done. cbn [negb].
  set (w1 := part_set _ w).
  assert (E1 : part_get w1 = set_sync_state (clear (sync_state (part_get w)) CF_NEED_VALID) (part_get w))
    by (unfold w1; by rewrite part_get_set).
  destruct (send_ack_run w1) as (w' & Hrun & E & S & out & U & HF).
  unfold command_send_ack in Hrun. rewrite Hrun. exists w'. split; [done|].
  rewrite E1 in E, S, HF. cbn in E, S, HF. rewrite Hn in E, HF. split.
  - split; [done|]. rewrite S. by apply has_clear.
  - exists out. split; [|done]. rewrite U. unfold w1. by rewrite fl_parser.
Qed.

(** The block with the expected sequence number is accepted; what is sent from then on
    carries the next one. *)
Lemma mcu_accepts r c w :
  bytes c -> zlen c <= MESSAGE_PAYLOAD_MAX -> expects r w ->
  exists w', mcu_receive (frame (seq_of r) c) w = Some (1, w') /\ expects (r + 1) w' /\
    exists out, uplink w' = uplink w ++ out /\ Forall (response (seq_of (r + 1))) out.
Proof using FL.
  intros Hb Hl [Hn Hs]. unfold mcu_receive. rewrite find_block_frame by done.
  unfold take_block. set (buf := frame (seq_of r) c).
  set (w2 := part_set (set_next_sequence (seq_of (r + 1))
    (set_sync_state (clear (sync_state (part_get w)) CF_NEED_VALID) (part_get w))) w).
  assert (Hfind : (cmd_modify (fun s => set_sync_state (clear (sync_state s) CF_NEED_VALID) s) ;;
    seq <- cmd_gets next_sequence ;;
    if negb (nthZ buf 1 =? seq) then find_block_nak (nthZ buf 0)
    else cmd_modify (set_next_sequence (Z.lor (Z.land (nthZ buf 1 + 1) MESSAGE_SEQ_MASK) MESSAGE_DEST)) ;;
         ret (1, nthZ buf 0)) w = Ret (1, nthZ buf 0) w2).
  { unfold cmd_modify, cmd_gets, gets, modify, ret, bind. rewrite part_get_set.
    cbn [set_sync_state next_sequence]. unfold buf. rewrite nthZ_frame_seq by done.
    rewrite Hn, Z.eqb_refl. cbn [negb]. by rewrite part_get_set, part_set_set, seq_of_succ. }
  rewrite Hfind. cbn iota beta. change (0 <? 1) with true. cbn iota.
  assert (E2 : expects (r + 1) w2 /\ uplink w2 = uplink w).
  { unfold expects, w2. rewrite part_get_set, fl_parser. cbn. split; [|done]. split; [done|].
    by apply has_clear. }
  destruct E2 as [[N2 S2] U2].
  destruct (fl_dispatch buf w2) as (w3 & Hdisp & Hresp).
  { by apply bytes_frame. }
  { unfold buf. rewrite <- (app_nil_r (frame _ c)). apply block_ok_frame; [apply seq_of_byte|done|done]. }
  assert (Hend : forall w', responds uplink w2 w' -> expects (r + 1) w' /\
    exists out, uplink w' = uplink w ++ out /\ Forall (response (seq_of (r + 1))) out).
  { intros w' (E & S & out & U & HF). rewrite N2 in E, HF. rewrite <- U2. split; [|by exists out].
    split; [done|]. by rewrite S. }
  destruct Hdisp as [Hdisp|[reason Hdisp]]; unfold bind; rewrite Hdisp.
  - destruct (send_ack_run w3) as (w' & -> & Hresp'). exists w'. split; [done|].
    apply Hend. by eapply responds_trans.
  - exists w3. split; [done|]. by apply Hend.
Qed.
End firmware.

(** ** Command tables

    A firmware is a link when its console answers, and when its handlers neither get stuck
    nor touch the state of the parser. *)
Section table.
Context {W : Type} {PC : Part W cmd_state} {CE : CommandEnv W}.
Context (uplink : W -> list (list Z)).

#[export] Instance responds_preorder : PreOrder (responds uplink).
Proof.
  split; [|intros w1 w2 w3; apply responds_trans].
  intros w. split; [done|]. split; [done|]. exists []. by rewrite app_nil_r.
Qed.

Lemma firmware_link_of_table :
  (forall w, exists w', env_console_sendf encode_acknak [] w = Ret tt w' /\
     part_get w' = part_get w /\
     exists out, uplink w' = uplink w ++ out /\ Forall (response (next_sequence (part_get w))) out) ->
  (forall f w, uplink (part_set f w) = uplink w) ->
  table_safe -> table_keeps (responds uplink) -> Firmware_link uplink.
Proof.
  intros Hack Hpart Hsafe Hkeeps. split; [exact Hack|exact Hpart|]. intros buf w Hb Hok.
  by apply (dispatch_outcome (responds uplink)).
Qed.
End table.

Lemma msgblock_check_frame n c : bytes c -> zlen c <= MESSAGE_PAYLOAD_MAX ->
  msgblock_check 0 (frame (seq_of n) c) = (zlen (frame (seq_of n) c), 0).
Proof.
  intros Hb Hl. rewrite msgblock_check_eq by (by apply bytes_frame).
  pose proof (zlen_nonneg c). rewrite zlen_frame by done.
  rewrite (proj2 (Z.ltb_ge _ _)) by lia. cbn [z2b Z.eqb negb].
  assert (Hok : block_ok (frame (seq_of n) c) = true).
  { rewrite <- (app_nil_r (frame (seq_of n) c)). apply block_ok_frame; [apply seq_of_byte|done|done]. }
  by rewrite Hok, nthZ_frame_len.
Qed.

(** ** The host *)

Section host.
Context {D : Type} `{DoubleOps D} `{HostOS D}.
Context (call_fastreader : fastreader -> list Z -> Z -> M (sqworld D) unit).

(** A fast reader may queue messages; it does not touch the line. *)
Definition reader_quiet : Prop := forall fr msg len w, exists w',
  call_fastreader fr msg len w = Ret tt w' /\
  window_view (w_sq w') = window_view (w_sq w) /\
  (sq_serial_fd_type (w_sq w'), sq_input_buf (w_sq w'), sq_need_sync (w_sq w'))
  = (sq_serial_fd_type (w_sq w), sq_input_buf (w_sq w), sq_need_sync (w_sq w)) /\
  (queues_ok (w_sq w) -> queues_ok (w_sq w')) /\
  exists evs, w_out w' = w_out w ++ evs /\ wire evs = [].

(** The state of a host with [buf] in the input buffer; between events it is empty. *)
Record host_with (buf : list Z) (h : sqworld D) : Prop := {
  ho_queues : queues_ok (w_sq h);
  ho_window : window_ok (w_sq h);
  ho_type : sq_serial_fd_type (w_sq h) <> SQT_CAN;
  ho_input : sq_input_buf (w_sq h) = buf;
  ho_sync : sq_need_sync (w_sq h) = 0;
}.
Definition host_ok : sqworld D -> Prop := host_with [].

(** Storing and removing input. *)
Lemma host_with_buf buf buf' h h' :
  host_with buf h -> window_view (w_sq h') = window_view (w_sq h) ->
  queue_view (w_sq h') = queue_view (w_sq h) ->
  sq_serial_fd_type (w_sq h') = sq_serial_fd_type (w_sq h) ->
  sq_input_buf (w_sq h') = buf' -> sq_need_sync (w_sq h') = 0 -> host_with buf' h'.
Proof.
  intros [Hq Hw Ht _ _] Ev Eq Et Ei Es. split; [by eapply queue_view_ok|by eapply window_ok_view|congruence|done..].
Qed.

Lemma zsq_refl {A} (m : M (sqworld D) A) w : zsq m w = m w.
Proof. unfold zsq, zoom. cbn. by destruct (m w). Qed.

(** The sequence number [a] of a message of the firmware is in the window, or it is the
    first one. *)
Definition seq_fits (a : Z) (sq : serialqueue D) : Prop :=
  sq_receive_seq sq <= a < sq_receive_seq sq + 16 /\
  (a <= sq_send_seq sq \/ sq_receive_seq sq = 1).

(** The effect of a message on the line. *)
Definition line_effect (a : Z) (h h' : sqworld D) : Prop :=
  receives a (w_sq h) (w_sq h') /\ exists evs, w_out h' = w_out h ++ evs /\ wire evs = [].

Lemma line_effect_view a h h1 h2 h' :
  window_view (w_sq h1) = window_view (w_sq h) -> w_out h1 = w_out h -> line_effect a h1 h2 ->
  window_view (w_sq h') = window_view (w_sq h2) -> w_out h' = w_out h2 -> line_effect a h h'.
Proof.
  unfold window_view. intros Ev1 Eo1 [(R1 & R2 & R3) (evs & Eo & Hw)] Ev2 Eo2. split.
  - split_and!; congruence.
  - exists evs. split; [congruence|done].
Qed.

(** The message in the buffer is handled, and a fast reader may follow. *)
Lemma take_frame_run a c t h :
  reader_quiet -> host_with (frame (seq_of a) c) h -> zlen c <= MESSAGE_PAYLOAD_MAX -> seq_fits a (w_sq h) ->
  exists h', take_input call_fastreader t (frame (seq_of a) c) (zlen (frame (seq_of a) c)) h
    = Ret (zlen (frame (seq_of a) c)) h' /\
    host_with (frame (seq_of a) c) h' /\ line_effect a h h'.
Proof.
  intros Hfr [Hq Hw Hty Hin Hsy] Hl [Ha Hcond]. set (len := zlen (frame (seq_of a) c)).
  assert (Hlen : 0 < len) by (unfold len; rewrite zlen_frame by done; pose proof (zlen_nonneg c); lia).
  pose proof (wo_seq _ Hw). pose proof (wo_small _ Hw).
  unfold take_input. rewrite (proj2 (Z.ltb_lt _ _)) by done.
  assert (Eseq : receive_seq_of (w_sq h) (nthZ (takeZ len (sq_input_buf (w_sq h))) MESSAGE_POS_SEQ) = a).
  { rewrite Hin. unfold takeZ, len, zlen. rewrite Nat2Z.id, firstn_all.
    unfold MESSAGE_POS_SEQ. rewrite nthZ_frame_seq by done. apply receive_seq_of_exact; lia. }
  destruct (handle_message_accept t len h Hw) as (h1 & Hrun & Hrcv); [by rewrite Eseq|].
  rewrite Eseq in Hrcv. destruct Hrcv as [Hrec Hw1 Hst1 _ (evs1 & Eo1 & Hwire1) _ _].
  rewrite (bind_Ret _ _ h _ h1) by (by rewrite zsq_refl).
  unfold rx_static, port_static in Hst1.
  assert (Hh1 : host_with (frame (seq_of a) c) h1).
  { split; [eapply queues_ok_view, Hq; congruence|done|congruence..]. }
  destruct (find_fastreader _ _ _) as [fr|].
  - destruct (Hfr fr (frame (seq_of a) c) len h1) as (h2 & Hrun2 & Ev2 & Hp2 & Hq2 & evs2 & Eo2 & Hwire2).
    rewrite (bind_Ret _ _ _ _ _ Hrun2). exists h2. split; [done|]. split.
    + destruct Hh1. split; [auto|by eapply window_ok_view, Hw1|congruence..].
    + unfold window_view in Ev2. split; [destruct Hrec as (R1 & R2 & R3); split_and!; congruence|].
      exists (evs1 ++ evs2). rewrite wire_app, Hwire1, Hwire2, app_assoc, <- Eo1. done.
  - rewrite bind_ret_l. exists h1. split; [done|]. split; [done|]. split; [done|]. eauto.
Qed.

Lemma input_loop_empty fuel t h :
  host_ok h -> exists h', input_loop call_fastreader (S fuel) t h = Ret tt h' /\
    host_ok h' /\ window_view (w_sq h') = window_view (w_sq h) /\ w_out h' = w_out h.
Proof.
  intros Hh. cbn [input_loop]. rewrite bind_zget. change (the_sq h) with (w_sq h).
  rewrite (ho_input _ _ Hh), (ho_sync _ _ Hh). change (msgblock_check 0 []) with (0, 0).
  cbn iota beta. rewrite bind_zmod. eexists. split; [reflexivity|].
  split; [|split; reflexivity]. eapply host_with_buf; [exact Hh|reflexivity..|apply (ho_input _ _ Hh)|reflexivity].
Qed.

Lemma input_loop_frame fuel a c t h :
  reader_quiet -> host_with (frame (seq_of a) c) h -> bytes c -> zlen c <= MESSAGE_PAYLOAD_MAX ->
  seq_fits a (w_sq h) ->
  exists h', input_loop call_fastreader (S (S fuel)) t h = Ret tt h' /\ host_ok h' /\ line_effect a h h'.
Proof.
  intros Hfr Hh Hb Hl Ha. remember (S fuel) as fuel1 eqn:Ef. cbn [input_loop]. rewrite bind_zget.
  change (the_sq h) with (w_sq h). rewrite (ho_input _ _ Hh), (ho_sync _ _ Hh).
  set (f := frame (seq_of a) c) in *.
  assert (Hz : zlen f = 5 + zlen c) by (by apply zlen_frame). pose proof (zlen_nonneg c).
  unfold f at 1. rewrite msgblock_check_frame by done. fold f. rewrite bind_zmod.
  set (h2 := part_set _ h). rewrite (proj2 (Z.eqb_neq _ _)) by lia.
  assert (Hh2 : host_with f h2).
  { eapply host_with_buf; [exact Hh|reflexivity..|apply (ho_input _ _ Hh)|reflexivity]. }
  destruct (take_frame_run a c t h2 Hfr Hh2 Hl Ha) as (h3 & Hrun & Hh3 & Heff).
  fold f in Hrun. rewrite (bind_Ret _ _ _ _ _ Hrun), bind_zmod. set (h4 := part_set _ h3).
  assert (Hh4 : host_ok h4).
  { eapply host_with_buf; [exact Hh3|reflexivity..| |apply (ho_sync _ _ Hh3)].
    change (dropZ (zlen f) (sq_input_buf (w_sq h3)) = []). rewrite (ho_input _ _ Hh3).
    unfold dropZ, zlen. by rewrite Nat2Z.id, drop_all. }
  destruct (input_loop_empty fuel t h4 Hh4) as (h' & Hrun' & Hh' & Ev & Eo). subst fuel1.
  exists h'. split; [exact Hrun'|]. split; [done|].
  apply (line_effect_view a h h2 h3 h'); [reflexivity|reflexivity|done|exact Ev|exact Eo].
Qed.

(** A block from the firmware, on an empty input buffer. *)
Lemma input_frame_run a c t h :
  reader_quiet -> host_ok h -> bytes c -> zlen c <= MESSAGE_PAYLOAD_MAX -> seq_fits a (w_sq h) ->
  exists h', input_event call_fastreader (Rd_bytes (frame (seq_of a) c)) t h = Ret tt h' /\
    host_ok h' /\ line_effect a h h'.
Proof.
  intros Hfr Hh Hb Hl Ha. unfold input_event. rewrite bind_zget.
  change (the_sq h) with (w_sq h). rewrite (proj2 (Z.eqb_neq _ _)) by apply (ho_type _ _ Hh).
  set (f := frame (seq_of a) c).
  assert (Hz : zlen f = 5 + zlen c) by (by apply zlen_frame).
  assert (Hf : exists b l, f = b :: l) by (unfold f; rewrite frame_unfold by done; by eexists _, _).
  destruct Hf as (b & l & Ef). rewrite Ef. rewrite <- Ef.
  set (h1 := h <| w_sq ::= fun sq => sq <| sq_input_buf ::= fun l => l ++ f |> |>).
  assert (Hst : zsq (store_input f) h = Ret tt h1).
  { rewrite zsq_refl. unfold store_input. rewrite bind_sqget, (ho_input _ _ Hh), (proj2 (Z.ltb_ge _ _)); [done|].
    unfold INPUT_BUF_SIZE, MESSAGE_PAYLOAD_MAX, MESSAGE_MAX, MESSAGE_MIN in *.
    change (zlen (@nil Z)) with 0. lia. }
  rewrite (bind_Ret _ _ _ _ _ Hst). clear Hst.
  unfold input_blocks. rewrite bind_zget. change (the_sq h1) with (w_sq h1).
  assert (E1 : sq_input_buf (w_sq h1) = f)
    by (change (sq_input_buf (w_sq h) ++ f = f); by rewrite (ho_input _ _ Hh)).
  rewrite E1, Ef. cbn [length].
  apply (input_loop_frame (length l) a c t h1 Hfr); [|done|done|exact Ha].
  eapply host_with_buf; [exact Hh|reflexivity..|exact E1|apply (ho_sync _ _ Hh)].
Qed.
End host.

Section start.
Context {D : Type} `{DoubleOps D}.

(** A new serial queue. *)
Lemma alloc_ok rets ty client sq n :
  serialqueue_alloc rets ty client = Some sq -> ty <> SQT_CAN -> ty <> SQT_DEBUGFILE ->
  host_ok (mk_w sq [] n) /\ sq_receive_seq sq = 1.
Proof.
  intros Ha Hcan Hfile. unfold serialqueue_alloc in Ha. destruct (negb _); [done|].
  injection Ha as <-. cbn. rewrite (proj2 (Z.eqb_neq _ _)) by done.
  split; [|done]. split; cbn; [| |done|done|done].
  - split; cbn; [constructor| | |done|done|done].
    + intros q. split; [set_solver|]. intros (cq & E & _). by rewrite lookup_empty in E.
    + intros q cq E. by rewrite lookup_empty in E.
  - split; cbn; [lia|lia|done|done| |done]. intros i m Hi. by rewrite lookup_nil in Hi.
Qed.

End start.

(** ** Lists of sequence numbers *)

Lemma Forall2_sublist {A B} (P : A -> B -> Prop) l l' k :
  l' `sublist_of` l -> Forall2 P l k -> exists k', k' `sublist_of` k /\ Forall2 P l' k'.
Proof.
  intros Hs. revert k. induction Hs as [|x l' l Hs IH|x l' l Hs IH]; intros k Hk.
  - exists []. split; [apply sublist_nil_l|constructor].
  - inversion Hk as [|? y ? k0 Hxy Hk0]; subst. destruct (IH k0 Hk0) as (k' & Hs' & HF).
    exists (y :: k'). split; [by constructor|by constructor].
  - inversion Hk as [|? y ? k0 Hxy Hk0]; subst. destruct (IH k0 Hk0) as (k' & Hs' & HF).
    exists k'. split; [by constructor|done].
Qed.

Lemma StronglySorted_sublist {A} (R : A -> A -> Prop) l l' :
  l' `sublist_of` l -> StronglySorted R l -> StronglySorted R l'.
Proof.
  intros Hs. induction Hs as [|x l' l Hs IH|x l' l Hs IH]; intros HR; [done| |].
  - apply StronglySorted_inv in HR as [HR HF]. constructor; [auto|].
    apply Forall_forall. intros y Hy. rewrite Forall_forall in HF. apply HF. by eapply elem_of_sublist.
  - apply StronglySorted_inv in HR as [HR HF]. auto.
Qed.

Lemma StronglySorted_join {A} (R : A -> A -> Prop) l k :
  StronglySorted R l -> StronglySorted R k -> (forall a b, a ∈ l -> b ∈ k -> R a b) ->
  StronglySorted R (l ++ k).
Proof.
  intros Hl Hk Hlk. induction Hl as [|x l Hl IH HF]; [done|]. cbn. constructor.
  - apply IH. intros a b Ha. apply Hlk. set_solver.
  - apply Forall_app. split; [done|]. apply Forall_forall. intros b Hb. apply Hlk; set_solver.
Qed.

Lemma StronglySorted_seqZ (R : Z -> Z -> Prop) m n :
  (forall a b, a <= b -> R a b) -> StronglySorted R (seqZ m n).
Proof.
  intros HR. destruct (Z.le_gt_cases 0 n) as [Hn|Hn].
  - revert m. pattern n. apply natlike_ind; [intros m; constructor| |done].
    intros k Hk IH m. rewrite seqZ_cons by lia. rewrite Z.pred_succ. constructor; [apply IH|].
    apply Forall_forall. intros b Hb%elem_of_seqZ. apply HR. lia.
  - rewrite seqZ_nil by lia. constructor.
Qed.

(** ** The invariant of a session *)

Section invariant.
Context {D : Type} `{DoubleOps D} `{HostOS D}.
Context {W : Type} {PC : Part W cmd_state} {CE : CommandEnv W}.
Context (uplink : W -> list (list Z)) {FL : Firmware_link uplink}.
Context (call_fastreader : fastreader -> list Z -> Z -> M (sqworld D) unit).
Context (Hreader : reader_quiet call_fastreader).
Context (Hnever : (PR_NEVER (D := D) =? PR_NOW)%D = false).
Notation session := (session (D := D) (W := W)).

(** The firmware starts with sequence number 16 (as a host that starts with 1 reads it); a
    block before it is never accepted. *)
Definition first_seq : Z := 16.

(** A block with sequence number [n] on the way to the firmware, which expects [r]. *)
Definition flying (send r : Z) (built : list (list Z)) (b : list Z) (n : Z) : Prop :=
  exists c, b = frame (seq_of n) c /\ bytes c /\ zlen c <= MESSAGE_PAYLOAD_MAX /\
    1 <= n < send /\ r <= n + 15 /\
    (first_seq <= n -> built !! Z.to_nat (n - first_seq) = Some c).

(** A block on the way to the host, sent when the firmware expected [a]. *)
Definition returning (receive r : Z) (b : list Z) (a : Z) : Prop :=
  exists c, b = frame (seq_of a) c /\ bytes c /\ zlen c <= MESSAGE_PAYLOAD_MAX /\ receive <= a <= r /\
    first_seq <= a.

(** The phases of a session: before the host knows the sequence number of the firmware,
    and after. *)
Inductive phase (send receive r : Z) (built accepted : list (list Z)) : Prop :=
| connecting : receive = 1 -> r = first_seq -> built = [] -> accepted = [] ->
    phase send receive r built accepted
| connected : first_seq <= receive <= r -> r <= send -> zlen built = send - first_seq ->
    accepted = take (Z.to_nat (r - first_seq)) built ->
    phase send receive r built accepted.

Record session_inv (r : Z) (s : session) : Prop := {
  si_host : host_ok (ses_host s);
  si_mcu : expects r (ses_mcu s);
  si_phase : let sq := w_sq (ses_host s) in
    phase (sq_send_seq sq) (sq_receive_seq sq) r (ses_built s) (ses_accepted s);
  si_sent : let sq := w_sq (ses_host s) in
    forall i m, sq_sent_queue sq !! i = Some m -> first_seq <= sq_receive_seq sq ->
      ses_built s !! Z.to_nat (sq_receive_seq sq + Z.of_nat i - first_seq) = Some (payload (qm_msg m));
  si_down : let sq := w_sq (ses_host s) in
    exists ns, Forall2 (flying (sq_send_seq sq) r (ses_built s)) (ses_down s) ns /\
      StronglySorted (fun a b => a <= b + 14) ns;
  si_up : let sq := w_sq (ses_host s) in
    exists ns, Forall2 (returning (sq_receive_seq sq) r) (ses_up s) ns /\ StronglySorted Z.le ns;
}.

(** The blocks of the sent queue, as blocks on the way. *)
Lemma sent_flying send r receive built (l : list (queue_message D)) :
  (forall i m, l !! i = Some m -> sent_block (receive + Z.of_nat i) m) ->
  (forall i m, l !! i = Some m -> first_seq <= receive + Z.of_nat i ->
     built !! Z.to_nat (receive + Z.of_nat i - first_seq) = Some (payload (qm_msg m))) ->
  1 <= receive -> receive + zlen l <= send -> r <= receive + 15 ->
  Forall2 (flying send r built) (map qm_msg l) (seqZ receive (zlen l)).
Proof.
  revert receive. induction l as [|m l IH]; intros receive Hs Hb H1 H2 H3; [constructor|].
  pose proof (zlen_nonneg l). rewrite zlen_cons in *. rewrite seqZ_cons by lia. cbn [map]. constructor.
  - destruct (Hs 0%nat m eq_refl) as (c & Em & Hc & Hl & _). rewrite Z.add_0_r in Em.
    exists c. split; [done|]. split; [done|]. split; [done|]. split; [lia|]. split; [lia|].
    intros Hf. specialize (Hb 0%nat m eq_refl ltac:(lia)). rewrite Z.add_0_r in Hb.
    by rewrite Hb, Em, payload_frame.
  - replace (Z.pred (1 + zlen l)) with (zlen l) by lia. apply (IH (Z.succ receive)); [| |lia..].
    + intros i x Hx. replace (Z.succ receive + Z.of_nat i) with (receive + Z.of_nat (S i)) by lia. by apply Hs.
    + intros i x Hx. replace (Z.succ receive + Z.of_nat i) with (receive + Z.of_nat (S i)) by lia. by apply Hb.
Qed.

(** A block on the way stays one while more blocks are built. *)
Lemma flying_weaken send send' r r' built more b n :
  flying send r built b n -> send <= send' -> r' <= n + 15 -> flying send' r' (built ++ more) b n.
Proof.
  intros (c & Eb & Hc & Hl & Hn & Hr & Hbuilt) Hs Hr'. exists c. do 3 (split; [done|]).
  split; [lia|]. split; [done|]. intros Hf. by apply lookup_app_l_Some, Hbuilt.
Qed.

Lemma flying_tags send r built bs ns :
  Forall2 (flying send r built) bs ns -> forall n, n ∈ ns -> 1 <= n < send /\ r <= n + 15.
Proof.
  intros HF n Hn. apply list_elem_of_lookup in Hn as [i Hi].
  destruct (Forall2_lookup_r _ _ _ _ _ HF Hi) as (b & _ & c & _ & _ & _ & ? & ? & _). lia.
Qed.

(** What the host has built after it sent the blocks [new]. *)
Definition built_after (receive : Z) (built : list (list Z)) (new : list (queue_message D)) :=
  if receive =? 1 then built else built ++ map (fun m => payload (qm_msg m)) new.

Lemma built_after_app receive built new : exists more, built_after receive built new = built ++ more.
Proof.
  unfold built_after. destruct (receive =? 1); [exists []; by rewrite app_nil_r|by eexists].
Qed.

(** The contents of the sent queue are the last ones built. *)
Lemma sent_built r s new :
  session_inv r s -> let sq := w_sq (ses_host s) in
  zlen (sq_sent_queue sq ++ new) <= MAX_PENDING_BLOCKS ->
  forall i m, (sq_sent_queue sq ++ new) !! i = Some m -> first_seq <= sq_receive_seq sq + Z.of_nat i ->
    built_after (sq_receive_seq sq) (ses_built s) new !! Z.to_nat (sq_receive_seq sq + Z.of_nat i - first_seq)
    = Some (payload (qm_msg m)).
Proof.
  intros [Hh _ Hph Hsent _ _] sq Hlim i m Hi Hf. fold sq in Hph, Hsent.
  pose proof (wo_count _ (ho_window _ _ Hh)) as Hcount. fold sq in Hcount.
  unfold MAX_PENDING_BLOCKS, first_seq in *.
  assert (Hi' := Hi). apply lookup_lt_Some in Hi'. unfold zlen in *.
  destruct Hph as [E _ _ _|Hrec Hr Hz _]; unfold first_seq, zlen in *; [lia|]. unfold built_after.
  rewrite (proj2 (Z.eqb_neq _ _)) by lia.
  apply lookup_app_Some in Hi as [Hi|[Hge Hi]].
  - apply lookup_app_l_Some. apply Hsent; [done|lia].
  - rewrite lookup_app_r by lia.
    change (map (fun m => payload (qm_msg m)) new) with ((fun m => payload (qm_msg m)) <$> new).
    rewrite list_lookup_fmap. replace (Z.to_nat (sq_receive_seq sq + Z.of_nat i - 16) - length (ses_built s))%nat
      with (i - length (sq_sent_queue sq))%nat by lia. by rewrite Hi.
Qed.

(** Blocks of the sent queue on their way, new ones or again. *)
Lemma host_ran_down r s h' new k :
  session_inv r s -> host_ok h' ->
  sq_receive_seq (w_sq h') = sq_receive_seq (w_sq (ses_host s)) ->
  sq_sent_queue (w_sq h') = sq_sent_queue (w_sq (ses_host s)) ++ new ->
  exists ns, Forall2 (flying (sq_send_seq (w_sq h')) r
      (built_after (sq_receive_seq (w_sq (ses_host s))) (ses_built s) new))
      (ses_down s ++ map qm_msg (drop k (sq_sent_queue (w_sq h')))) ns /\
    StronglySorted (fun a b => a <= b + 14) ns.
Proof.
  intros Hinv Hh' Erec Esent. pose proof (sent_built r s new Hinv) as Hbuilt.
  destruct Hinv as [Hh _ Hph _ (ns & HF & Hsort) _].
  set (sq := w_sq (ses_host s)) in *. set (sq' := w_sq h') in *.
  pose proof (ho_window _ _ Hh) as Hw. fold sq in Hw. pose proof (ho_window _ _ Hh') as Hw'. fold sq' in Hw'.
  pose proof (wo_seq _ Hw). pose proof (wo_count _ Hw). pose proof (wo_limit _ Hw).
  pose proof (wo_count _ Hw') as Hc'. pose proof (wo_limit _ Hw') as Hlim'.
  cbv zeta in Hbuilt. rewrite <- Esent in Hbuilt. specialize (Hbuilt Hlim').
  assert (Hsend : sq_send_seq sq <= sq_send_seq sq').
  { rewrite Esent, zlen_app, Erec in Hc'. pose proof (zlen_nonneg new). lia. }
  assert (Hr : r <= sq_receive_seq sq + 15).
  { unfold MAX_PENDING_BLOCKS, first_seq in *. destruct Hph; unfold first_seq in *; lia. }
  set (l := drop k (sq_sent_queue sq')).
  exists (ns ++ seqZ (sq_receive_seq sq + Z.of_nat k) (zlen l)). split.
  - apply Forall2_app.
    + destruct (built_after_app (sq_receive_seq sq) (ses_built s) new) as [more ->].
      eapply Forall2_impl; [exact HF|]. intros b n Hb. eapply flying_weaken; [exact Hb|lia|].
      destruct Hb as (c & _ & _ & _ & _ & Hb & _). lia.
    + destruct (decide (k <= length (sq_sent_queue sq'))%nat) as [Hk|Hk].
      2: { unfold l. rewrite drop_ge by lia. constructor. }
      apply sent_flying.
      * intros i m Hm. unfold l in Hm. rewrite lookup_drop in Hm.
        replace (sq_receive_seq sq + Z.of_nat k + Z.of_nat i) with (sq_receive_seq sq' + Z.of_nat (k + i)) by lia.
        by apply (wo_sent _ Hw').
      * intros i m Hm Hf. unfold l in Hm. rewrite lookup_drop in Hm.
        replace (sq_receive_seq sq + Z.of_nat k + Z.of_nat i) with (sq_receive_seq sq + Z.of_nat (k + i)) in * by lia.
        by apply Hbuilt.
      * lia.
      * unfold l, zlen in *. rewrite length_drop. lia.
      * lia.
  - apply StronglySorted_join; [done|apply StronglySorted_seqZ; intros; lia|].
    intros a b Ha Hb%elem_of_seqZ. apply (flying_tags _ _ _ _ _ HF) in Ha.
    unfold MAX_PENDING_BLOCKS in *. lia.
Qed.

(** Every operation of the host that keeps [receive_seq], appends to the sent queue and
    writes the blocks of a part of it preserves the invariant. *)
Lemma host_ran_inv r s h' new k :
  session_inv r s -> host_ok h' ->
  sq_receive_seq (w_sq h') = sq_receive_seq (w_sq (ses_host s)) ->
  sq_sent_queue (w_sq h') = sq_sent_queue (w_sq (ses_host s)) ++ new ->
  written (ses_host s) h' = map qm_msg (drop k (sq_sent_queue (w_sq h'))) ->
  session_inv r (host_ran h' s).
Proof.
  intros Hinv Hh' Erec Esent Ewr.
  pose proof (host_ran_down r s h' new k Hinv Hh' Erec Esent) as Hdown.
  pose proof (sent_built r s new Hinv) as Hbuilt.
  assert (Enew : drop (length (sq_sent_queue (w_sq (ses_host s)))) (sq_sent_queue (w_sq h')) = new)
    by (rewrite Esent; apply drop_app_length).
  destruct Hinv as [Hh Hm Hph Hsent _ Hup].
  pose proof (ho_window _ _ Hh) as Hw. pose proof (ho_window _ _ Hh') as Hw'.
  pose proof (wo_count _ Hw). pose proof (wo_count _ Hw') as Hc'. pose proof (wo_limit _ Hw').
  split; cbn [host_ran ses_host ses_mcu ses_down ses_up ses_built ses_accepted]; cbv zeta.
  - done.
  - done.
  - rewrite Enew, Erec. fold (built_after (sq_receive_seq (w_sq (ses_host s))) (ses_built s) new).
    destruct Hph as [E1 E2 E3 E4|Hr1 Hr2 Hz Hacc].
    + apply connecting; [done|done| |done]. unfold built_after. by rewrite E1.
    + rewrite Esent, zlen_app in Hc'. pose proof (zlen_nonneg new). unfold first_seq in *.
      apply connected; [done|lia| |].
      * unfold built_after. rewrite (proj2 (Z.eqb_neq _ _)) by lia. rewrite zlen_app.
        unfold zlen in *. rewrite length_map. unfold first_seq. lia.
      * destruct (built_after_app (sq_receive_seq (w_sq (ses_host s))) (ses_built s) new) as [more ->].
        rewrite take_app_le; [done|]. unfold zlen, first_seq in *. lia.
  - rewrite Enew, Erec. intros i m Hi Hf. rewrite Esent in Hi.
    apply (Hbuilt ltac:(by rewrite <- Esent)); [done|lia].
  - rewrite Enew, Ewr. exact Hdown.
  - rewrite Erec. exact Hup.
Qed.

(** ** Steps of the host *)

Lemma sent_is_block (sq : serialqueue D) k :
  window_ok sq -> Forall is_block (map qm_msg (drop k (sq_sent_queue sq))).
Proof.
  intros Hw. apply Forall_map, Forall_drop, Forall_lookup. intros i m Hm.
  apply (wo_sent _ Hw) in Hm as (c & Em & Hc & Hl & _). cbn. rewrite Em.
  by exists (seq_of (sq_receive_seq sq + Z.of_nat i)), c.
Qed.

Lemma written_eq (h h' : sqworld D) evs k (sq : serialqueue D) :
  window_ok sq -> w_out h' = w_out h ++ evs ->
  wire evs = concat (map qm_msg (drop k (sq_sent_queue sq))) \/
  wire evs = MESSAGE_SYNC :: concat (map qm_msg (drop k (sq_sent_queue sq))) ->
  written h h' = map qm_msg (drop k (sq_sent_queue sq)).
Proof.
  intros Hw Eo Hwire. unfold written. rewrite Eo, drop_app_length.
  destruct Hwire as [-> | ->]; [apply wire_blocks_concat|apply wire_blocks_sync]; by apply sent_is_block.
Qed.

Lemma transmit_inv r s t res h' :
  session_inv r s -> seq_room (ses_host s) -> command_event t (ses_host s) = Ret res h' ->
  session_inv r (host_ran h' s).
Proof using Hnever.
  intros Hinv Hroom Hrun. destruct (si_host _ _ Hinv) as [Hq Hw Hty Hin Hsy].
  destruct (command_event_run Hnever t (ses_host s) Hq Hw Hroom)
    as (t' & h1 & new & evs & E & Hq' & Hw' & Esent & Est & Eo & Hwire & _).
  rewrite Hrun in E. injection E as <- <-. unfold link_static, port_static in Est.
  apply (host_ran_inv r s h' new (length (sq_sent_queue (w_sq (ses_host s))))); [done| |congruence|done|].
  - split; [done|done|congruence..].
  - apply (written_eq _ _ evs); [done|done|]. left. rewrite Esent, drop_app_length. by apply Hwire.
Qed.

Lemma retransmit_inv r s t res h' :
  session_inv r s -> retransmit_event t (ses_host s) = Ret res h' -> session_inv r (host_ran h' s).
Proof.
  intros Hinv Hrun. destruct (si_host _ _ Hinv) as [Hq Hw Hty Hin Hsy].
  destruct (retransmit_run t (ses_host s) Hw) as (t' & h1 & evs & E & Eq & Ev & Est & Eo & Hwire).
  rewrite Hrun in E. injection E as <- <-. unfold window_view, port_static in *.
  assert (Hw' : window_ok (w_sq h')) by by eapply window_ok_view, Hw.
  apply (host_ran_inv r s h' [] 0); [done| |congruence|rewrite app_nil_r; congruence|].
  - split; [by eapply queue_view_ok|done|congruence..].
  - apply (written_eq _ _ evs); [done|done|]. right. rewrite drop_0.
    replace (sq_sent_queue (w_sq h')) with (sq_sent_queue (w_sq (ses_host s))) by congruence. by apply Hwire.
Qed.

(** Operations that write nothing to the line. *)
Lemma silent_inv r s h' evs :
  session_inv r s -> queues_ok (w_sq h') ->
  window_view (w_sq h') = window_view (w_sq (ses_host s)) ->
  (sq_serial_fd_type (w_sq h'), sq_input_buf (w_sq h'), sq_need_sync (w_sq h'))
  = (sq_serial_fd_type (w_sq (ses_host s)), sq_input_buf (w_sq (ses_host s)), sq_need_sync (w_sq (ses_host s))) ->
  w_out h' = w_out (ses_host s) ++ evs -> wire evs = [] ->
  session_inv r (host_ran h' s).
Proof.
  intros Hinv Hq' Ev Est Eo Hwire. destruct (si_host _ _ Hinv) as [Hq Hw Hty Hin Hsy].
  assert (Hw' : window_ok (w_sq h')) by by eapply window_ok_view, Hw.
  unfold window_view in Ev.
  apply (host_ran_inv r s h' [] (length (sq_sent_queue (w_sq h')))); [done| |congruence|rewrite app_nil_r; congruence|].
  - split; [done|done|congruence..].
  - apply (written_eq _ _ evs); [done|done|]. left. by rewrite drop_all.
Qed.

Lemma api_run op (h h' : sqworld D) :
  run_api op h = Ret tt h' ->
  queue_view (w_sq h') = queue_view (w_sq h) /\ window_view (w_sq h') = window_view (w_sq h) /\
  (sq_serial_fd_type (w_sq h'), sq_input_buf (w_sq h'), sq_need_sync (w_sq h'))
  = (sq_serial_fd_type (w_sq h), sq_input_buf (w_sq h), sq_need_sync (w_sq h)) /\
  exists evs, w_out h' = w_out h ++ evs /\ wire evs = [].
Proof.
  assert (Hnil : forall l : list sq_event, exists evs, l = l ++ evs /\ wire evs = [])
    by (intros l; exists []; by rewrite app_nil_r).
  destruct op; cbn [run_api].
  - unfold serialqueue_pull, sqget, sqmod, gets, modify, when, bind, ret.
    destruct (sq_receive_queue (w_sq h)) as [|m rest]; [destruct (z2b _)|destruct (negb _)];
      intros [= <-]; do 3 (split; [reflexivity|]); apply Hnil.
  - unfold kick_event, sys_ret, update_timer, pr_mod, emit, gets, modify, when, bind, ret.
    destruct (_ <? 0); intros [= <-]; do 3 (split; [reflexivity|]); [|apply Hnil].
    by exists [Ev_log "pipe read"].
  - intros [= <-]. do 3 (split; [reflexivity|]). apply Hnil.
  - intros [= <-]. do 3 (split; [reflexivity|]). apply Hnil.
  - intros [= <-]. do 3 (split; [reflexivity|]). apply Hnil.
  - unfold serialqueue_extract_old, sqget, sqmod, gets, modify, bind, ret.
    destruct sentq; intros [= <-]; do 3 (split; [reflexivity|]); apply Hnil.
Qed.

(** ** The line *)

(** The firmware accepts exactly the block it expects. *)
Lemma flying_expected send receive r built accepted b n c :
  phase send receive r built accepted -> send <= receive + MAX_PENDING_BLOCKS ->
  flying send r built b n -> b = frame (seq_of n) c -> seq_of n = seq_of r -> 
  n = r /\ first_seq <= receive.
Proof.
  intros Hph Hlim (c' & _ & _ & _ & Hn & Hr & _) _ Hs. unfold seq_of, MAX_PENDING_BLOCKS in *.
  destruct Hph as [E1 E2 _ _|Hrec Hr2 _ _]; unfold first_seq in *; Z.div_mod_to_equations; lia.
Qed.

Lemma returning_out receive r out :
  receive <= r -> first_seq <= r -> Forall (response (seq_of r)) out ->
  Forall2 (returning receive r) out (replicate (length out) r).
Proof.
  intros Hr Hf. induction 1 as [|b out (c & Eb & Hb & Hl) HF IH]; [constructor|]. cbn. constructor; [|done].
  exists c. split; [done|]. split; [done|]. split; [done|]. lia.
Qed.

(** More responses of the firmware, which now expects [r']. *)
Lemma up_grows receive r r' up out ns :
  Forall2 (returning receive r) up ns -> StronglySorted Z.le ns ->
  receive <= r <= r' -> first_seq <= r' -> Forall (response (seq_of r')) out ->
  exists ns', Forall2 (returning receive r') (up ++ out) ns' /\ StronglySorted Z.le ns'.
Proof.
  intros HF Hs Hr Hf Hout. exists (ns ++ replicate (length out) r'). split.
  - apply Forall2_app; [|apply returning_out; [lia|lia|done]].
    eapply Forall2_impl; [exact HF|]. intros b a (c & Eb & Hb & Hl & Ha & Ha'). exists c.
    split; [done|]. split; [done|]. split; [done|]. lia.
  - apply StronglySorted_join; [done| |].
    + clear. induction out; cbn; constructor; [done|]. apply Forall_replicate. done.
    + intros a b Ha Hb. apply elem_of_replicate in Hb as [-> _].
      apply list_elem_of_lookup in Ha as [i Hi].
      destruct (Forall2_lookup_r _ _ _ _ _ HF Hi) as (x & _ & c & _ & _ & _ & Ha & _). lia.
Qed.

Lemma phase_receive send receive r built accepted :
  phase send receive r built accepted -> receive <= r /\ first_seq <= r.
Proof. intros [-> -> _ _|? _ _ _]; unfold first_seq in *; lia. Qed.

Lemma flying_next send r r' built bs ns :
  Forall2 (flying send r built) bs ns -> Forall (fun n => r' <= n + 15) ns ->
  Forall2 (flying send r' built) bs ns.
Proof.
  induction 1 as [|b n bs ns Hb HF IH]; intros Hn; [constructor|].
  apply Forall_cons in Hn as [Hn Hns]. constructor; [|auto].
  destruct Hb as (c & Eb & Hc & Hl & Hr & _ & Hbuilt). exists c. auto 10.
Qed.

(** The block the firmware expects. *)
Lemma deliver_expected r s c down ns :
  session_inv r s -> ses_down s = frame (seq_of r) c :: down -> bytes c -> zlen c <= MESSAGE_PAYLOAD_MAX ->
  first_seq <= sq_receive_seq (w_sq (ses_host s)) -> r < sq_send_seq (w_sq (ses_host s)) ->
  ses_built s !! Z.to_nat (r - first_seq) = Some c ->
  Forall2 (flying (sq_send_seq (w_sq (ses_host s))) r (ses_built s)) down ns ->
  StronglySorted (fun a b => a <= b + 14) (r :: ns) ->
  exists s', deliver_down uplink s = Some s' /\ session_inv (r + 1) s' /\ ses_down s' = down /\
    ses_host s' = ses_host s /\ ses_built s' = ses_built s.
Proof using FL.
  intros Hinv Ed Hb Hl Hf Hlt Hbuilt HF [Hs Hs0]%StronglySorted_inv.
  destruct Hinv as [Hh Hm Hph Hsent _ (us & HU & HS)].
  destruct (mcu_accepts uplink r c (ses_mcu s) Hb Hl Hm) as (w' & Hrun & Hm' & out & Eo & Hout).
  unfold deliver_down. rewrite Ed, Hrun. eexists. split; [reflexivity|].
  cbn [ses_host ses_mcu ses_down ses_up ses_built ses_accepted].
  change (0 <? 1) with true. cbn iota. rewrite Eo, drop_app_length, payload_frame by done.
  split; [|done]. destruct Hph as [E1 _ _ _|Hrec Hr2 Hz Hacc]; [unfold first_seq in *; lia|].
  split; cbn [ses_host ses_mcu ses_down ses_up ses_built ses_accepted]; cbv zeta.
  - done.
  - done.
  - apply connected; [lia|lia|done|]. rewrite Hacc.
    replace (Z.to_nat (r + 1 - first_seq)) with (S (Z.to_nat (r - first_seq))) by lia.
    symmetry. by apply take_S_r.
  - exact Hsent.
  - exists ns. split; [|done]. eapply flying_next; [exact HF|].
    eapply Forall_impl; [exact Hs0|]. cbn. lia.
  - apply (up_grows _ r (r + 1) (ses_up s) out us); [done|done|lia|lia|done].
Qed.

(** Any other block: the firmware answers with the sequence number it expects. *)
Lemma deliver_other r s n c down ns :
  session_inv r s -> ses_down s = frame (seq_of n) c :: down -> bytes c -> zlen c <= MESSAGE_PAYLOAD_MAX ->
  seq_of n <> seq_of r ->
  Forall2 (flying (sq_send_seq (w_sq (ses_host s))) r (ses_built s)) down ns ->
  StronglySorted (fun a b => a <= b + 14) ns ->
  exists s', deliver_down uplink s = Some s' /\ session_inv r s' /\ ses_down s' = down /\
    ses_host s' = ses_host s /\ ses_built s' = ses_built s.
Proof using FL.
  intros Hinv Ed Hb Hl Hne HF Hs. destruct Hinv as [Hh Hm Hph Hsent _ (us & HU & HS)].
  destruct (mcu_rejects uplink n r c (ses_mcu s) Hb Hl Hm Hne) as (w' & Hrun & Hm' & out & Eo & Hout).
  unfold deliver_down. rewrite Ed, Hrun. eexists. split; [reflexivity|].
  change (0 <? -1) with false. cbn iota. rewrite Eo, drop_app_length. split; [|done].
  split; cbn [ses_host ses_mcu ses_down ses_up ses_built ses_accepted]; cbv zeta; try done.
  - by exists ns.
  - pose proof (phase_receive _ _ _ _ _ Hph).
    apply (up_grows _ r r (ses_up s) out us); [done|done|lia|lia|done].
Qed.

(** The first block on the line reaches the firmware. *)
Lemma deliver_down_run r s b down :
  session_inv r s -> ses_down s = b :: down ->
  exists r' s', deliver_down uplink s = Some s' /\ session_inv r' s' /\ r <= r' /\ ses_down s' = down /\
    ses_host s' = ses_host s /\ ses_built s' = ses_built s /\
    (first_seq <= sq_receive_seq (w_sq (ses_host s)) ->
     forall n, flying (sq_send_seq (w_sq (ses_host s))) r (ses_built s) b n -> n + 1 <= r' \/ r < n).
Proof using FL.
  intros Hinv Ed. pose proof Hinv as [Hh Hm Hph Hsent (ns & HF & Hs) Hup].
  rewrite Ed in HF. inversion HF as [|? n ? ns0 Hn HF0]; subst.
  pose proof (ho_window _ _ Hh) as Hw. pose proof (wo_count _ Hw). pose proof (wo_limit _ Hw).
  assert (Hlim : sq_send_seq (w_sq (ses_host s)) <= sq_receive_seq (w_sq (ses_host s)) + MAX_PENDING_BLOCKS) by lia.
  pose proof Hn as (c & Eb & Hc & Hl & Hn1 & Hn2 & Hbuilt). rewrite Eb in Ed.
  destruct (decide (seq_of n = seq_of r)) as [Eseq|Hne].
  - destruct (flying_expected _ _ _ _ _ _ _ c Hph Hlim Hn Eb Eseq) as [-> Hf].
    destruct Hph as [E1 _ _ _|Hrec Hr2 _ _]; [unfold first_seq in *; lia|].
    destruct (deliver_expected r s c down ns0) as (s' & Hrun & Hinv' & Ed' & Eh & Ebuilt);
      [done|done|done|done|done|lia|apply Hbuilt; lia|done|done|].
    exists (r + 1), s'. split; [done|]. split; [done|]. split; [lia|]. do 3 (split; [done|]).
    intros _ n' (c' & _ & _ & _ & ? & ? & _). lia.
  - destruct (deliver_other r s n c down ns0) as (s' & Hrun & Hinv' & Ed' & Eh & Ebuilt);
      [done|done|done|done|done|done|by apply StronglySorted_inv in Hs as [? _]|].
    exists r, s'. split; [done|]. split; [done|]. split; [lia|]. do 3 (split; [done|]).
    intros Hf n' (c' & Eb' & _ & Hl' & Hn' & Hr' & _).
    assert (Es : seq_of n' = seq_of n).
    { rewrite <- (nthZ_frame_seq (seq_of n') c'), <- (nthZ_frame_seq (seq_of n) c) by done. congruence. }
    assert (n' <> r) by (intros ->; by rewrite Es in Hne). lia.
Qed.

(** The first block on the line reaches the host. *)
Lemma deliver_up_run r s t b up :
  session_inv r s -> ses_up s = b :: up ->
  exists s' a, deliver_up call_fastreader t s = Some s' /\ session_inv r s' /\ ses_up s' = up /\
    ses_down s' = ses_down s /\ ses_built s' = ses_built s /\ ses_accepted s' = ses_accepted s /\
    ses_mcu s' = ses_mcu s /\
    returning (sq_receive_seq (w_sq (ses_host s))) r b a /\ sq_receive_seq (w_sq (ses_host s')) = a.
Proof using Hreader.
  intros Hinv Eu. pose proof Hinv as [Hh Hm Hph Hsent (ns & HF & Hs) (us & HU & HS)].
  rewrite Eu in HU. inversion HU as [|? a ? us0 Ha HU0]; subst.
  apply StronglySorted_inv in HS as [HS Hle]. pose proof Ha as (c & Eb & Hc & Hl & Har & Ha16). subst b.
  set (sq := w_sq (ses_host s)) in *.
  pose proof (ho_window _ _ Hh) as Hw. fold sq in Hw. pose proof (wo_seq _ Hw). pose proof (wo_count _ Hw).
  pose proof (wo_limit _ Hw). unfold MAX_PENDING_BLOCKS, first_seq in *.
  assert (Hfits : seq_fits a sq).
  { destruct Hph as [E1 E2 _ _|Hrec Hr2 _ _]; unfold seq_fits, first_seq in *; lia. }
  destruct (input_frame_run call_fastreader a c t (ses_host s) Hreader Hh Hc Hl Hfits)
    as (h' & Hrun & Hh' & (R1 & R2 & R3) & _). fold sq in R2, R3.
  unfold deliver_up. rewrite Eu, Hrun. eexists _, a. split; [reflexivity|].
  split; [|do 5 (split; [done|]); split; done].
  split; cbn [ses_host ses_mcu ses_down ses_up ses_built ses_accepted]; cbv zeta; rewrite ?R1, ?R2, ?R3.
  - done.
  - done.
  - destruct Hph as [E1 E2 E3 E4|Hrec Hr2 Hz Hacc]; unfold first_seq in *.
    + assert (a = 16) as -> by lia. rewrite E3, E4, E2. rewrite Z.max_r by lia.
      by apply connected.
    + rewrite Z.max_l by lia. apply connected; [unfold first_seq; lia|done|done|done].
  - intros i m Hi Hf. rewrite lookup_drop in Hi.
    destruct Hph as [E1 _ _ _|Hrec _ _ _]; unfold first_seq in *.
    + apply lookup_lt_Some in Hi. unfold zlen in *. lia.
    + replace (a + Z.of_nat i) with (sq_receive_seq sq + Z.of_nat (Z.to_nat (a - sq_receive_seq sq) + i)) by lia.
      apply Hsent; [done|lia].
  - exists ns. split; [|done]. eapply Forall2_impl; [exact HF|]. intros x n Hx.
    rewrite <- (app_nil_r (ses_built s)). eapply flying_weaken; [exact Hx|lia|].
    by destruct Hx as (? & _ & _ & _ & _ & ? & _).
  - exists us0. split; [|done]. clear -HU0 Hle. induction HU0 as [|x n up us Hx HU IH]; [constructor|].
    apply Forall_cons in Hle as [Hn Hle]. constructor; [|auto].
    destruct Hx as (c & ? & ? & ? & ? & ?). exists c. split_and!; (done || lia).
Qed.

Lemma lose_inv r s down up :
  session_inv r s -> down `sublist_of` ses_down s -> up `sublist_of` ses_up s ->
  session_inv r (mk_session (ses_host s) (ses_mcu s) down up (ses_built s) (ses_accepted s)).
Proof.
  intros [Hh Hm Hph Hsent (ns & HF & Hs) (us & HU & HS)] Hd Hu.
  destruct (Forall2_sublist _ _ _ _ Hd HF) as (ns' & Hns & HF').
  destruct (Forall2_sublist _ _ _ _ Hu HU) as (us' & Hus & HU').
  split; cbn [ses_host ses_mcu ses_down ses_up ses_built ses_accepted]; try done.
  - exists ns'. split; [done|]. by eapply StronglySorted_sublist.
  - exists us'. split; [done|]. by eapply StronglySorted_sublist.
Qed.

Lemma session_step_inv r s s' :
  session_inv r s -> session_step uplink call_fastreader s s' -> exists r', session_inv r' s'.
Proof using FL Hreader Hnever.
  intros Hinv Hstep. pose proof (si_host _ _ Hinv) as Hh.
  destruct Hstep as [s t res h' Hroom Hrun|s t res h' Hrun|s cq h' Hnew Hrun|s cq msgs h' Hcq Hm Hlen Hrun
    |s op h' Hrun|s s' Hrun|s t s' Hrun|s down Hl|s up Hl].
  - exists r. by eapply transmit_inv.
  - exists r. by eapply retransmit_inv.
  - exists r. injection Hrun as <-. eapply silent_inv; [done| |reflexivity|reflexivity|symmetry; apply app_nil_r|done].
    apply queues_ok_alloc; [apply (ho_queues _ _ Hh)|done].
  - destruct (send_batch_run cq msgs (ses_host s) (ho_queues _ _ Hh) Hcq Hm Hlen)
      as (w' & evs & E & Hq & Ev & Es & Eo & Hw & _). rewrite Hrun in E. injection E as <-.
    exists r. eapply silent_inv; [done|done|done| |done|done]. unfold link_static, port_static in Es. congruence.
  - destruct (api_run op _ _ Hrun) as (Eq & Ev & Es & evs & Eo & Hw). exists r.
    eapply silent_inv; [done| |done|done|done|done]. eapply queue_view_ok; [done|apply (ho_queues _ _ Hh)].
  - destruct (ses_down s) as [|b down] eqn:Ed; [unfold deliver_down in Hrun; by rewrite Ed in Hrun|].
    destruct (deliver_down_run r s b down Hinv Ed) as (r' & s1 & E & Hinv' & _).
    rewrite Hrun in E. injection E as <-. by exists r'.
  - destruct (ses_up s) as [|b up] eqn:Eu; [unfold deliver_up in Hrun; by rewrite Eu in Hrun|].
    destruct (deliver_up_run r s t b up Hinv Eu) as (s1 & a & E & Hinv' & _).
    rewrite Hrun in E. injection E as <-. by exists r.
  - exists r. by apply lose_inv.
  - exists r. by apply lose_inv.
Qed.

(** ** The beginning *)

Lemma session_init_inv rets ty client sq w n :
  serialqueue_alloc rets ty client = Some sq -> ty <> SQT_CAN -> ty <> SQT_DEBUGFILE ->
  part_get w = cmd_init -> session_inv first_seq (session_init sq w n).
Proof.
  intros Ha Hcan Hfile Hw. destruct (alloc_ok _ _ _ _ n Ha Hcan Hfile) as [Hh E1].
  split; cbn [session_init ses_host ses_mcu ses_down ses_up ses_built ses_accepted w_sq]; cbv zeta.
  - done.
  - unfold expects. by rewrite Hw.
  - by apply connecting.
  - intros i m Hi Hf. rewrite E1 in Hf. unfold first_seq in Hf. lia.
  - exists []. split; constructor.
  - exists []. split; constructor.
Qed.

(** What the invariant says of the contents: all that was built is accepted or waits in the
    sent queue. *)
Lemma inv_contents r s : session_inv r s ->
  let sq := w_sq (ses_host s) in
  (sq_receive_seq sq = 1 /\ ses_built s = [] /\ ses_accepted s = []) \/
  (sq_receive_seq sq <> 1 /\ exists k, ses_built s = ses_accepted s
     ++ map (fun m => payload (qm_msg m)) (drop k (sq_sent_queue sq))).
Proof.
  intros [Hh _ Hph Hsent _ _] sq. fold sq in Hph, Hsent.
  pose proof (wo_count _ (ho_window _ _ Hh)) as Hc. fold sq in Hc.
  destruct Hph as [E1 _ E3 E4|Hrec Hr Hz Hacc]; [by left|right].
  split; [unfold first_seq in *; lia|]. exists (Z.to_nat (r - sq_receive_seq sq)).
  rewrite Hacc, <- (take_drop (Z.to_nat (r - first_seq)) (ses_built s)) at 1. f_equal.
  apply list_eq_same_length with (length (drop (Z.to_nat (r - first_seq)) (ses_built s))); [|done|].
  { rewrite length_map, !length_drop. unfold zlen, first_seq in *. lia. }
  intros i x y Hi Hx Hy. change (map ?f ?l) with (f <$> l) in Hy.
  rewrite list_lookup_fmap, lookup_drop in Hy. rewrite lookup_drop in Hx.
  destruct (sq_sent_queue sq !! _) as [m|] eqn:Em; [|done]. injection Hy as <-.
  apply Hsent in Em; [|lia]. replace (Z.to_nat (sq_receive_seq sq + _ - first_seq))
    with (Z.to_nat (r - first_seq) + i)%nat in Em by lia. congruence.
Qed.

(** ** Loss-free delivery *)

(** A block of the sent queue, seen as a block on the way. *)
Lemma sent_on_its_way r s j m :
  session_inv r s -> let sq := w_sq (ses_host s) in
  first_seq <= sq_receive_seq sq -> sq_receive_seq sq <= j ->
  sq_sent_queue sq !! Z.to_nat (j - sq_receive_seq sq) = Some m ->
  flying (sq_send_seq sq) r (ses_built s) (qm_msg m) j.
Proof.
  intros [Hh _ Hph Hsent _ _] sq Hf Hj Hm. fold sq in Hph, Hsent.
  pose proof (ho_window _ _ Hh) as Hw. fold sq in Hw.
  pose proof (wo_count _ Hw). pose proof (wo_limit _ Hw). pose proof (lookup_lt_Some _ _ _ Hm).
  destruct Hph as [E1 _ _ _|Hrec Hr _ _]; unfold first_seq, MAX_PENDING_BLOCKS, zlen in *; [lia|].
  pose proof (Hsent _ _ Hm ltac:(lia)) as Hb. apply (wo_sent _ Hw) in Hm as (c & Em & Hc & Hl & _).
  rewrite Z2Nat.id, Zplus_minus in Em, Hb by lia. exists c. do 3 (split; [done|]).
  split; [lia|]. split; [lia|]. intros _. unfold first_seq. by rewrite Hb, Em, payload_frame.
Qed.

(** Delivery of what is on the line: blocks [pre], then the sent queue from number [j] on. *)
Lemma deliver_all_run pre l r s j :
  session_inv r s -> let sq := w_sq (ses_host s) in
  first_seq <= sq_receive_seq sq <= j -> j <= r ->
  l = drop (Z.to_nat (j - sq_receive_seq sq)) (sq_sent_queue sq) ->
  ses_down s = pre ++ map qm_msg l ->
  exists r' s', deliver_all uplink (length pre + length l) s = Some s' /\ session_inv r' s' /\
    ses_host s' = ses_host s /\ ses_built s' = ses_built s /\ ses_down s' = [] /\ j + zlen l <= r'.
Proof using FL.
  revert r s. induction pre as [|b pre IH].
  - revert j. induction l as [|m l IH]; intros j r s Hinv sq Hj Hr El Ed.
    + exists r, s. split; [done|]. do 4 (split; [done|]). change (zlen _) with 0. lia.
    + destruct (deliver_down_run r s (qm_msg m) (map qm_msg l) Hinv Ed)
        as (r1 & s1 & E1 & Hinv1 & Hle & Ed1 & Eh & Eb & Hgot).
      assert (Hm : sq_sent_queue sq !! Z.to_nat (j - sq_receive_seq sq) = Some m).
      { rewrite <- (Nat.add_0_r (Z.to_nat _)), <- lookup_drop, <- El. done. }
      pose proof (sent_on_its_way r s j m Hinv (proj1 Hj) (proj2 Hj) Hm) as Hfly.
      destruct (Hgot (proj1 Hj) j Hfly) as [Hr1|]; [|lia].
      destruct (IH (j + 1) r1 s1) as (r' & s' & E & Hinv' & Eh' & Eb' & Ed' & Hend);
        [done|rewrite Eh; fold sq; lia|done| |done|].
      { rewrite Eh. fold sq. replace (Z.to_nat (j + 1 - _)) with (1 + Z.to_nat (j - sq_receive_seq sq))%nat by lia.
        by rewrite (Nat.add_comm 1), <- drop_drop, <- El. }
      exists r', s'. cbn [length Nat.add deliver_all]. rewrite E1. split; [done|].
      split; [done|]. split; [congruence|]. split; [congruence|]. split; [done|]. rewrite zlen_cons. lia.
  - intros r s Hinv sq Hj Hr El Ed.
    destruct (deliver_down_run r s b _ Hinv Ed) as (r1 & s1 & E1 & Hinv1 & Hle & Ed1 & Eh & Eb & _).
    destruct (IH r1 s1) as (r' & s' & E & Hinv' & Eh' & Eb' & Ed' & Hend);
      [done|by rewrite Eh|lia|by rewrite Eh|done|].
    exists r', s'. cbn [length Nat.add deliver_all]. rewrite E1. split; [done|].
    split; [done|]. split; [congruence|]. split; [congruence|]. by split.
Qed.

(** When the firmware has everything, the contents agree. *)
Lemma all_accepted r s : session_inv r s -> let sq := w_sq (ses_host s) in
  first_seq <= sq_receive_seq sq -> sq_send_seq sq <= r -> ses_accepted s = ses_built s.
Proof.
  intros [_ _ Hph _ _ _] sq Hf Hr. fold sq in Hph. destruct Hph as [E1 _ _ _|_ _ Hz ->].
  - unfold first_seq in *. lia.
  - apply take_ge. unfold zlen in *. lia.
Qed.

Lemma retransmit_delivers t r s :
  session_inv r s -> sq_receive_seq (w_sq (ses_host s)) <> 1 ->
  exists t' h' s', retransmit_event t (ses_host s) = Ret t' h' /\
    let s1 := host_ran h' s in
    deliver_all uplink (length (ses_down s1)) s1 = Some s' /\
    ses_built s' = ses_built s /\ ses_accepted s' = ses_built s.
Proof using FL.
  intros Hinv H1. destruct (si_host _ _ Hinv) as [Hq Hw Hty Hin Hsy].
  destruct (retransmit_run t (ses_host s) Hw) as (t' & h' & evs & E & Eq & Ev & Est & Eo & Hwire).
  pose proof (retransmit_inv r s t t' h' Hinv E) as Hinv1. unfold window_view in Ev.
  injection Ev as Esend Erec Esent Ebytes. set (sq := w_sq (ses_host s)) in *.
  assert (Hf : first_seq <= sq_receive_seq sq <= r).
  { destruct (si_phase _ _ Hinv) as [? _ _ _|? _ _ _]; done. }
  assert (Ed : ses_down (host_ran h' s) = ses_down s ++ map qm_msg (sq_sent_queue sq)).
  { cbn. f_equal. rewrite <- (drop_0 (sq_sent_queue sq)).
    apply (written_eq _ _ evs); [done|done|]. right. rewrite drop_0. auto. }
  assert (Eb : ses_built (host_ran h' s) = ses_built s).
  { cbn. fold sq. rewrite Esent, drop_all, app_nil_r. by destruct (_ =? 1). }
  destruct (deliver_all_run (ses_down s) (sq_sent_queue sq) r (host_ran h' s) (sq_receive_seq sq))
    as (r' & s' & Erun & Hinv' & Eh' & Eb' & Ed' & Hend); [done|cbn; lia|lia| |done|].
  { cbn. rewrite Erec, Z.sub_diag, Esent. symmetry. apply drop_0. }
  exists t', h', s'. split; [done|]. cbv zeta. rewrite Ed, length_app, length_map.
  split; [done|]. split; [congruence|]. rewrite <- Eb, <- Eb'. apply (all_accepted r' s' Hinv').
  - rewrite Eh'. cbn. lia.
  - rewrite Eh'. cbn. pose proof (wo_count _ Hw). lia.
Qed.

Lemma reachable_inv rets ty client sq w n s :
  serialqueue_alloc rets ty client = Some sq -> ty <> SQT_CAN -> ty <> SQT_DEBUGFILE ->
  part_get w = cmd_init ->
  reach (session_step uplink call_fastreader) (session_init sq w n) s -> exists r, session_inv r s.
Proof using FL Hreader Hnever.
  intros Ha Hcan Hfile Hw. apply (reach_invariant _ (fun s => exists r, session_inv r s)).
  - exists first_seq. by eapply session_init_inv.
  - intros s1 s2 [r Hinv] Hstep. by eapply session_step_inv.
Qed.

(** ** Properties *)

(** C5: whatever the host queues and sends, whatever the line loses in either direction and
    however transmissions, retransmissions and answers interleave, the firmware accepts the
    blocks of the host in the order they were built, each exactly once: what it has
    accepted, followed by the contents of the last blocks of the sent queue, is all that was
    built.  (Blocks built before the first answer of the firmware serve to find its sequence
    number.) *)
Theorem session_delivers_in_order rets ty client sq w n s :
  serialqueue_alloc rets ty client = Some sq -> ty <> SQT_CAN -> ty <> SQT_DEBUGFILE ->
  part_get w = cmd_init ->
  reach (session_step uplink call_fastreader) (session_init sq w n) s ->
  let sent := sq_sent_queue (w_sq (ses_host s)) in
  (sq_receive_seq (w_sq (ses_host s)) = 1 /\ ses_built s = [] /\ ses_accepted s = []) \/
  (sq_receive_seq (w_sq (ses_host s)) <> 1 /\ exists k,
     ses_built s = ses_accepted s ++ map (fun m => payload (qm_msg m)) (drop k sent)).
Proof using FL Hreader Hnever.
  intros Ha Hcan Hfile Hw Hreach. destruct (reachable_inv rets ty client sq w n s) as [r Hinv]; [done..|].
  by apply (inv_contents r).
Qed.

(** C6: nothing is lost for good: from every state of a session in which the host knows the
    sequence number of the firmware, one retransmission whose blocks reach the firmware
    brings everything built so far to the command handlers. *)
Theorem retransmission_completes rets ty client sq w n s t :
  serialqueue_alloc rets ty client = Some sq -> ty <> SQT_CAN -> ty <> SQT_DEBUGFILE ->
  part_get w = cmd_init ->
  reach (session_step uplink call_fastreader) (session_init sq w n) s ->
  sq_receive_seq (w_sq (ses_host s)) <> 1 ->
  exists t' h' s', retransmit_event t (ses_host s) = Ret t' h' /\
    let s1 := host_ran h' s in
    deliver_all uplink (length (ses_down s1)) s1 = Some s' /\
    ses_built s' = ses_built s /\ ses_accepted s' = ses_built s.
Proof using FL Hreader Hnever.
  intros Ha Hcan Hfile Hw Hreach Hconn. destruct (reachable_inv rets ty client sq w n s) as [r Hinv]; [done..|].
  by apply (retransmit_delivers t r).
Qed.
End invariant.

(** ** Instances of the properties *)

(** A firmware whose console keeps the blocks it frames, with one command without
    parameters. *)
Module Demo.
Definition W : Type := cmd_state * list (list Z).
#[export] Instance part : Part W cmd_state := Part_fst cmd_state (list (list Z)).

#[export] Instance env : CommandEnv W := {|
  env_console := {| env_console_sendf ce args w :=
    Ret tt (fst w, snd w ++ [frame (next_sequence (fst w)) []]) |};
  env_sched_is_shutdown := ret false;
  env_sched_report_shutdown := ret tt;
  env_irq_poll := ret tt;
  env_command_index :=
    let nop := {| cp_num_args := 0; cp_flags := 0; cp_param_types := [];
                  cp_func _ := ret tt |} in [nop; nop];
  env_sizeof_size_t := 4;
  env_receive_base := 0;
|}.

Definition uplink (w : W) : list (list Z) := snd w.

#[export] Instance link : Firmware_link uplink.
Proof.
  apply firmware_link_of_table.
  - intros w. eexists. split; [reflexivity|]. split; [done|]. eexists. split; [reflexivity|].
    constructor; [|constructor]. exists []. split; [reflexivity|]. split; [constructor|discriminate].
  - done.
  - split; [|repeat split; intros w; discriminate].
    intros [|[|i]] cp Hcp; simpl in Hcp; try discriminate; injection Hcp as <-;
      (split; [vm_compute; discriminate|intros args w; discriminate]).
  - split; [|split_and!; apply op_keeps_ret, _].
    intros [|[|i]] cp Hcp; simpl in Hcp; try discriminate; injection Hcp as <-;
      intros args; apply op_keeps_ret, _.
Qed.

#[export] Instance os : HostOS binary64 := {| os_ret _ := 0; os_monotonic _ := dzero |}.

Definition reader (fr : fastreader) (msg : list Z) (len : Z) : M (sqworld binary64) unit := ret tt.

Lemma reader_is_quiet : reader_quiet reader.
Proof.
  intros fr msg len w. exists w. split; [reflexivity|]. split; [reflexivity|]. split; [reflexivity|].
  split; [exact id|]. exists []. by rewrite app_nil_r.
Qed.

Lemma never_now : (PR_NEVER (D := binary64) =? PR_NOW)%D = false.
Proof. vm_compute. reflexivity. Qed.

(** The steps of a session: a message of three commands is queued and sent, the firmware
    answers with its sequence number, a second message is queued and sent, and lost. *)
Notation session := (session (D := binary64) (W := W)).
Definition now : binary64 := dofZ 5.
Definition final {A} (h : sqworld binary64) (o : outcome (sqworld binary64) A) :=
  match o with Ret _ h' | Shut _ h' => h' | Stuck => h end.
Definition msg : queue_message binary64 := message_fill [1; 1; 1] 3.

Definition sq0 : serialqueue binary64 :=
  match serialqueue_alloc (D := binary64) [0] SQT_UART 0 as o
    return match o with Some _ => serialqueue binary64 | None => unit end with
  | Some sq => sq | None => tt end.
Definition s0 : session := session_init sq0 (cmd_init, []) 0.
Definition host (op : M (sqworld binary64) unit) (s : session) : session :=
  host_ran (final (ses_host s) (op (ses_host s))) s.
Definition transmit (s : session) : session :=
  host_ran (final (ses_host s) (command_event now (ses_host s))) s.
Definition down (s : session) : session := default s (deliver_down uplink s).
Definition up (s : session) : session := default s (deliver_up reader now s).
Definition lose (s : session) : session :=
  mk_session (ses_host s) (ses_mcu s) [] (ses_up s) (ses_built s) (ses_accepted s).

Definition queued (s : session) : session := host (serialqueue_send_batch 0 [msg]) s.
Definition s1 : session := host (serialqueue_alloc_commandqueue 0) s0.
Definition s2 : session := transmit (queued s1).
Definition s3 : session := up (down s2).
Definition s4 : session := lose (transmit (queued s3)).

Lemma msgs_ok : Forall msg_ok [msg].
Proof.
  constructor; [|constructor]. split; [split; [reflexivity|discriminate]|]. split; [reflexivity|].
  split; [|reflexivity]. vm_compute. repeat (constructor; [split; [discriminate|reflexivity]|]). constructor.
Qed.

Notation step := (session_step uplink reader).

Lemma step_queued s :
  is_Some (sq_queues (w_sq (ses_host s)) !! 0) ->
  sq_ready_bytes (w_sq (ses_host s)) + sq_stalled_bytes (w_sq (ses_host s)) + 3 < 2147483648 ->
  serialqueue_send_batch 0 [msg] (ses_host s)
  = Ret tt (final (ses_host s) (serialqueue_send_batch 0 [msg] (ses_host s))) -> step s (queued s).
Proof. intros Hq Hlen E. eapply ss_queue; [exact Hq|apply msgs_ok|exact Hlen|exact E]. Qed.

Lemma step_transmit s (r : binary64) :
  seq_room (ses_host s) ->
  command_event now (ses_host s) = Ret r (final (ses_host s) (command_event now (ses_host s))) ->
  step s (transmit s).
Proof. intros Hroom E. eapply ss_transmit; [exact Hroom|exact E]. Qed.

Lemma step_lose s : step s (lose s).
Proof. apply ss_lose_down, sublist_nil_l. Qed.

Lemma reach_s2 : reach step s0 s2.
Proof.
  apply reach_step with (queued s1); [apply reach_step with s1; [apply reach_step with s0|]|].
  - constructor.
  - eapply ss_alloc with (cq := 0); reflexivity.
  - apply step_queued; [vm_compute; by eexists|vm_compute; reflexivity|vm_compute; reflexivity].
  - eapply step_transmit; vm_compute; reflexivity.
Qed.

Lemma reach_s4 : reach step s0 s4.
Proof.
  apply reach_step with (transmit (queued s3)); [apply reach_step with (queued s3);
    [apply reach_step with s3; [apply reach_step with (down s2); [apply reach_step with s2|]|]|]|].
  - apply reach_s2.
  - apply ss_deliver_down. vm_compute. reflexivity.
  - apply ss_deliver_up with (t := now). vm_compute. reflexivity.
  - apply step_queued; [vm_compute; by eexists|vm_compute; reflexivity|vm_compute; reflexivity].
  - eapply step_transmit; vm_compute; reflexivity.
  - apply step_lose.
Qed.
End Demo.
Import Demo.

Lemma session_delivers_in_order_witness :
  exists k, ses_built Demo.s4 = ses_accepted Demo.s4
    ++ map (fun m => payload (qm_msg m)) (drop k (sq_sent_queue (w_sq (ses_host Demo.s4)))).
Proof.
  destruct (session_delivers_in_order Demo.uplink Demo.reader Demo.reader_is_quiet Demo.never_now
    [0] SQT_UART 0 Demo.sq0 (cmd_init, []) 0 Demo.s4) as [[H _]|[_ H]].
  - reflexivity.
  - discriminate.
  - discriminate.
  - reflexivity.
  - apply Demo.reach_s4.
  - exfalso. vm_compute in H. discriminate.
  - exact H.
Defined.

Lemma retransmission_completes_witness :
  ses_accepted Demo.s4 = [] /\ exists t' h' s',
    retransmit_event Demo.now (ses_host Demo.s4) = Ret t' h' /\
    deliver_all Demo.uplink (length (ses_down (host_ran h' Demo.s4))) (host_ran h' Demo.s4) = Some s' /\
    ses_accepted s' = [[1; 1; 1]].
Proof.
  split; [reflexivity|].
  destruct (retransmission_completes Demo.uplink Demo.reader Demo.reader_is_quiet Demo.never_now
    [0] SQT_UART 0 Demo.sq0 (cmd_init, []) 0 Demo.s4 Demo.now) as (t' & h' & s' & E & Ed & _ & Ea).
  - reflexivity.
  - discriminate.
  - discriminate.
  - reflexivity.
  - apply Demo.reach_s4.
  - vm_compute. discriminate.
  - exists t', h', s'. split; [exact E|]. split; [exact Ed|]. rewrite Ea. vm_compute. reflexivity.
Defined.
