(* ===== verification/SerialProps.v ===== *)
(** * Properties of the serial queue (klippy/chelper/serialqueue.c)

    Which messages a block carries, how much may be on the way at once, and how the
    retransmission timeout follows the round trip times. *)

From S2P Require Import Prelude Double Wire Command CommandFacts Msgblock Stepcompress Pollreactor Serialqueue SerialqueueFacts ReceiveFacts Session SessionFacts.
From Stdlib Require Import Reals Lra.

(** ** Flow control *)

Section flow.
Context {D : Type} `{DoubleOps D} `{HostOS D}.

Lemma len_sum_drop (l : list (queue_message D)) k m :
  Forall (fun m => 0 <= qm_len m <= 64) l -> l !! k = Some m ->
  len_sum (drop (S k) l) + qm_len m <= len_sum l.
Proof.
  intros HF Hk. rewrite <- (take_drop_middle _ _ _ Hk) at 2.
  rewrite len_sum_app. change (len_sum (m :: ?l)) with (qm_len m + len_sum l).
  assert (0 <= len_sum (take k l)); [|lia].
  apply (Forall_take _ k) in HF. revert HF. generalize (take k l). clear. intros l HF.
  induction HF as [|x l Hx HF IH]; [done|]. unfold len_sum in *. cbn [foldr]. lia.
Qed.

(** Reception of a message keeps the flow control. *)
Lemma flow_ok_receive rseq len msg t (w w' : sqworld D) :
  window_ok (w_sq w) -> sq_receive_seq (w_sq w) <= rseq -> flow_ok (w_sq w) ->
  received rseq len msg t w w' -> flow_ok (w_sq w').
Proof.
  intros Hw Hr [Hb Hf] [(R1 & R2 & R3) Hw' Hst Hbytes _ Hack _].
  set (sq := w_sq w) in *. set (sq' := w_sq w') in *.
  pose proof (sent_lens _ Hw) as HF. pose proof (wo_count _ Hw). pose proof (wo_seq _ Hw).
  assert (Ewin : sq_receive_window sq' = sq_receive_window sq).
  { unfold rx_static, port_static in Hst. by injection Hst. }
  assert (Hge : sq_last_ack_seq sq <= sq_last_ack_seq sq') by (rewrite Hack; destruct (_ =? _); lia).
  unfold flow_ok, held in *. rewrite Ewin, R1, (wo_bytes _ Hw'), R2, (wo_bytes _ Hw) in *.
  clear Hack. unfold acks_bytes in Hbytes. unfold MESSAGE_MAX in *.
  destruct (Z.ltb_spec (sq_receive_seq sq) rseq) as [Hlt|Hle], (Z.leb_spec rseq (sq_send_seq sq)) as [Hs|Hs];
    cbn [andb] in Hbytes.
  - destruct Hbytes as (m & Hm & Eb). pose proof (len_sum_drop _ _ _ HF Hm) as Hsum.
    replace (S (Z.to_nat (rseq - sq_receive_seq sq - 1))) with (Z.to_nat (rseq - sq_receive_seq sq)) in Hsum by lia.
    rewrite Forall_lookup in HF. apply HF in Hm. rewrite Eb. split; [lia|]. intros Hwin. specialize (Hf Hwin).
    destruct (_ <? sq_receive_seq sq), (_ <? rseq); lia.
  - rewrite Hbytes, drop_ge by (unfold zlen in *; lia). change (len_sum []) with 0. split; [done|].
    intros _. destruct (_ <? rseq); lia.
  - rewrite Hbytes. assert (rseq = sq_receive_seq sq) as -> by lia. rewrite Z.sub_diag, drop_0.
    split; [done|]. intros Hwin. specialize (Hf Hwin).
    destruct (Z.ltb_spec (sq_last_ack_seq sq') (sq_receive_seq sq)), (Z.ltb_spec (sq_last_ack_seq sq) (sq_receive_seq sq)); lia.
  - lia.
Qed.
End flow.

(** ** Properties *)

Section props.
Context {D : Type} `{DoubleOps D} `{HostOS D}.

(** C9: [build_and_send_command] fills a block by priority: it takes, again and again, the
    message with the lowest [req_clock] among the first messages of all command queues, so
    that each queue is served in order, until no message is left or the next one does not
    fit; the block is framed with the next sequence number, joins the sent queue, and every
    message that wants a notification waits for that sequence number. *)
Theorem blocks_filled_by_priority pending eventtime (w : sqworld D) :
  queues_ok (w_sq w) -> window_ok (w_sq w) ->
  zlen (sq_sent_queue (w_sq w)) < MAX_PENDING_BLOCKS ->
  sq_send_seq (w_sq w) + 1 < 9223372036854775808 ->
  exists taken m w',
    build_and_send_command pending eventtime w = Ret (qm_msg m) w' /\
    qm_msg m = frame (seq_of (sq_send_seq (w_sq w))) (content_of taken) /\
    fills MESSAGE_PAYLOAD_MAX (ready_of (sq_queues (w_sq w))) taken (ready_of (sq_queues (w_sq w'))) /\
    (forall q, stalled_of (sq_queues (w_sq w')) q = stalled_of (sq_queues (w_sq w)) q) /\
    sq_sent_queue (w_sq w') = sq_sent_queue (w_sq w) ++ [m] /\
    sq_send_seq (w_sq w') = sq_send_seq (w_sq w) + 1 /\
    sq_notify_queue (w_sq w') = sq_notify_queue (w_sq w) ++ notes (sq_send_seq (w_sq w)) taken /\
    queues_ok (w_sq w') /\ window_ok (w_sq w').
Proof.
  intros Hq Hw Hlt Hsm.
  destruct (build_and_send_run pending eventtime w Hq Hw Hlt Hsm)
    as (taken & m & w' & Hrun & Hq' & Hw' & Hm & _ & _ & Es & En & _ & _ & Hf & Hst & Hn).
  exists taken, m, w'. do 8 (split; [assumption|]). exact Hw'.
Qed.

(** C8: every event keeps the number of blocks on the way and the bytes the firmware may
    hold within bounds: transmission returns without an overflow of its buffer, leaves at
    most [MAX_PENDING_BLOCKS] blocks unacknowledged and respects the receive window of the
    firmware; so does the reception of any message. *)
Theorem flow_control eventtime len (w : sqworld D) :
  (PR_NEVER (D := D) =? PR_NOW)%D = false ->
  queues_ok (w_sq w) -> window_ok (w_sq w) -> seq_room w -> flow_ok (w_sq w) ->
  (exists t w', command_event eventtime w = Ret t w' /\
     zlen (sq_sent_queue (w_sq w')) <= MAX_PENDING_BLOCKS /\ window_ok (w_sq w') /\ flow_ok (w_sq w')) /\
  (exists fr w', handle_message eventtime len w = Ret fr w' /\
     zlen (sq_sent_queue (w_sq w')) <= MAX_PENDING_BLOCKS /\ window_ok (w_sq w') /\ flow_ok (w_sq w')).
Proof.
  intros Hnever Hq Hw Hroom Hflow. split.
  - destruct (command_event_run Hnever eventtime w Hq Hw Hroom)
      as (t & w' & new & evs & E & _ & Hw' & _ & _ & _ & _ & Hfl).
    exists t, w'. split; [done|]. split; [by apply wo_limit|auto].
  - set (rseq := receive_seq_of (w_sq w) (nthZ (takeZ len (sq_input_buf (w_sq w))) MESSAGE_POS_SEQ)).
    pose proof (wo_seq _ Hw). pose proof (wo_small _ Hw).
    destruct (decide (rseq <= sq_send_seq (w_sq w) \/ sq_receive_seq (w_sq w) = 1)) as [Hcond|Hcond].
    + destruct (handle_message_accept eventtime len w Hw Hcond) as (w' & E & Hrcv).
      eexists _, w'. split; [exact E|]. pose proof Hrcv as [_ Hw' _ _ _ _ _].
      split; [by apply wo_limit|]. split; [done|].
      eapply flow_ok_receive; [exact Hw| |exact Hflow|exact Hrcv].
      apply receive_seq_of_range. lia.
    + eexists _, _. split; [apply (handle_message_ignore eventtime len w Hw); fold rseq; lia|].
      split; [exact (wo_limit _ Hw)|]. split; [by eapply window_ok_view, Hw|exact Hflow].
Qed.
End props.

Section input.
Context {D : Type} `{DoubleOps D} `{HostOS D}.
Context {W : Type} {HP : Part W (sqworld D)}.
Context (call_fastreader : fastreader -> list Z -> Z -> M W unit).

(** A call of the input callback. *)
Definition input_step (w w' : W) : Prop :=
  exists rd eventtime, read_ok w rd /\ input_event call_fastreader rd eventtime w = Ret tt w'.

(** the input callback never stores outside of its buffer and always returns, whatever
    the line delivers: it starts with an empty buffer, and after any number of calls (with
    any split of the stream into reads, damaged blocks and CAN frames included) fewer than
    [MESSAGE_MAX] of its 4096 bytes are in use and the next call succeeds. *)
Theorem input_buffer_safe (w0 w : W) :
  reader_ok call_fastreader -> sq_input_buf (the_sq w0) = [] -> reach input_step w0 w ->
  zlen (sq_input_buf (the_sq w)) < MESSAGE_MAX /\
  forall rd eventtime, read_ok w rd -> exists w', input_event call_fastreader rd eventtime w = Ret tt w'.
Proof.
  intros Hfr Hnil Hreach.
  set (I w := bytes (sq_input_buf (the_sq w)) /\ zlen (sq_input_buf (the_sq w)) < MESSAGE_MAX).
  assert (HI : I w).
  { refine (reach_invariant _ I w0 w _ _ Hreach).
    - unfold I. rewrite Hnil. split; [constructor|reflexivity].
    - intros a b [Hb Hl] (rd & t & Hrd & E).
      destruct (input_event_run call_fastreader rd t a Hfr Hb Hl Hrd) as (w' & E' & HI').
      rewrite E in E'. injection E' as <-. exact HI'. }
  destruct HI as [Hb Hl]. split; [exact Hl|]. intros rd t Hrd.
  destruct (input_event_run call_fastreader rd t w Hfr Hb Hl Hrd) as (w' & E & _). by exists w'.
Qed.
End input.

(** ** Instances of the properties *)

Import Demo.

(** A connected host with a receive window of 192 bytes and a message in each of two queues, the more urgent one in the second,
    after [check_send_command] found them ready. *)
Definition clock_msg (c : Z) : queue_message binary64 := qm_set_clocks 0 c (message_fill [c; c] 2).
Definition s3w : session := host (serialqueue_set_receive_window 192) s3.
Definition s5 : session := host (serialqueue_alloc_commandqueue 1) s3w.
Definition s6 : session := host (serialqueue_send_batch 0 [clock_msg 20]) s5.
Definition s7 : session := host (serialqueue_send_batch 1 [clock_msg 10]) s6.
Definition w7 : sqworld binary64 := final (ses_host s7) (check_send_command 0 now (ses_host s7)).

Lemma clock_msg_ok c : 0 <= c < 100 -> Forall msg_ok [clock_msg c].
Proof.
  intros Hc. constructor; [|constructor]. split; [split; [reflexivity|discriminate]|]. split; [reflexivity|].
  split; [by repeat (constructor; [lia|])|]. cbn. unfold MAX_CLOCK. lia.
Qed.

Lemma host_s7 : host_ok (ses_host s7).
Proof.
  assert (Hreach : reach step s0 s7).
  { apply reach_step with s6; [apply reach_step with s5; [apply reach_step with s3w; [apply reach_step with s3;
      [apply reach_step with (down s2); [apply reach_step with s2|]|]|]|]|].
    - apply reach_s2.
    - apply ss_deliver_down. vm_compute. reflexivity.
    - apply ss_deliver_up with (t := now). vm_compute. reflexivity.
    - apply ss_api with (op := Api_receive_window 192). reflexivity.
    - eapply ss_alloc with (cq := 1); reflexivity.
    - eapply ss_queue with (cq := 0) (msgs := [clock_msg 20]); [vm_compute; by eexists|by apply clock_msg_ok|..];
        vm_compute; reflexivity.
    - eapply ss_queue with (cq := 1) (msgs := [clock_msg 10]); [vm_compute; by eexists|by apply clock_msg_ok|..];
        vm_compute; reflexivity. }
  destruct (reachable_inv uplink reader reader_is_quiet never_now [0] SQT_UART 0 sq0 (cmd_init, []) 0 s7)
    as [r Hinv]; [reflexivity|discriminate|discriminate|reflexivity|exact Hreach|]. apply (si_host _ _ Hinv).
Qed.

Lemma host_w7 : queues_ok (w_sq w7) /\ window_ok (w_sq w7).
Proof.
  unfold w7. generalize host_s7. generalize (ses_host s7). intros h [Hq Hw _ _ _].
  destruct (check_send_run never_now 0 now h Hq Hw) as (t & Q & r & s & k & E & Hq' & _).
  rewrite E. cbn [final]. split; [exact Hq'|]. by eapply window_ok_view, Hw.
Qed.

Lemma blocks_filled_by_priority_witness :
  exists taken w', build_and_send_command 0 now w7 = Ret (frame 16 (content_of taken)) w' /\
    fills MESSAGE_PAYLOAD_MAX (ready_of (sq_queues (w_sq w7))) taken (ready_of (sq_queues (w_sq w'))).
Proof.
  destruct (blocks_filled_by_priority 0 now w7) as (taken & m & w' & E & Em & Hf & _).
  - apply host_w7.
  - apply host_w7.
  - reflexivity.
  - reflexivity.
  - exists taken, w'. split; [|exact Hf]. rewrite E, Em. reflexivity.
Defined.

(** The urgent message comes first. *)
Lemma urgent_first :
  match build_and_send_command 0 now w7 with
  | Ret block _ => block = frame 16 [10; 10; 20; 20] | _ => False end.
Proof. vm_compute. reflexivity. Qed.

Lemma flow_control_witness :
  exists t w', command_event now (ses_host s7) = Ret t w' /\
    sq_receive_window (w_sq (ses_host s7)) = 192 /\ flow_ok (w_sq w').
Proof.
  destruct (flow_control now 5 (ses_host s7)) as [(t & w' & E & _ & _ & Hf) _].
  - apply never_now.
  - apply host_s7.
  - apply host_s7.
  - reflexivity.
  - split; [vm_compute; split; discriminate|]. intros _. vm_compute. discriminate.
  - exists t, w'. split; [exact E|]. split; [reflexivity|exact Hf].
Defined.

Lemma input_buffer_safe_witness :
  exists w', input_event Demo.reader (Rd_bytes [7; 126; 9]) now (ses_host s7) = Ret tt w'.
Proof.
  apply (input_buffer_safe Demo.reader (ses_host s7) (ses_host s7)).
  - intros fr msg len w. exists w. split; reflexivity.
  - vm_compute. reflexivity.
  - constructor.
  - split; [repeat (constructor; [lia|]); constructor|vm_compute; discriminate].
Defined.
