(* ===== verification/Trdispatch.v ===== *)
(** * Trigger dispatch of the host (klippy/chelper/trdispatch.c)

    During a homing move the micro-controllers report the state of their trsync objects.  The
    dispatcher propagates the first trigger to all of them, and otherwise extends the timeout
    of each as long as the others report.

    The [struct trdispatch_mcu] objects are the elements of a list, in the order of
    [tdm_list]; an object is named by its position, which is also the [fr_func] of its fast
    reader.  Serial queues are named by keys; a mutex section is one step. *)

From S2P Require Import Prelude Double Wire Msgblock Stepcompress Pollreactor Serialqueue.

Record trdispatch := mk_td { td_is_active : Z; td_can_trigger : Z; td_dispatch_reason : Z }.
#[export] Instance eta_td : Settable trdispatch := fun t =>
  mk_td (td_is_active t) (td_can_trigger t) (td_dispatch_reason t).

Record trdispatch_mcu (D : Type) := mk_tdm {
  tdm_fr : fastreader;
  tdm_sq : Z;
  tdm_cq : Z;
  tdm_trsync_oid : Z;
  tdm_set_timeout_msgtag : Z;
  tdm_trigger_msgtag : Z;
  tdm_last_status_clock : Z;
  tdm_expire_clock : Z;
  tdm_expire_ticks : Z;
  tdm_min_extend_ticks : Z;
  tdm_ce : clock_estimate D;
}.
Arguments mk_tdm {D}.
Arguments tdm_fr {D}.
Arguments tdm_sq {D}.
Arguments tdm_cq {D}.
Arguments tdm_trsync_oid {D}.
Arguments tdm_set_timeout_msgtag {D}.
Arguments tdm_trigger_msgtag {D}.
Arguments tdm_last_status_clock {D}.
Arguments tdm_expire_clock {D}.
Arguments tdm_expire_ticks {D}.
Arguments tdm_min_extend_ticks {D}.
Arguments tdm_ce {D}.
#[export] Instance eta_tdm {D} : Settable (trdispatch_mcu D) := fun m =>
  mk_tdm (tdm_fr m) (tdm_sq m) (tdm_cq m) (tdm_trsync_oid m) (tdm_set_timeout_msgtag m)
    (tdm_trigger_msgtag m) (tdm_last_status_clock m) (tdm_expire_clock m) (tdm_expire_ticks m)
    (tdm_min_extend_ticks m) (tdm_ce m).

(** The dispatcher, its micro-controllers and the serial queues. *)
Record tdworld (D : Type) := mk_tw {
  tw_td : trdispatch; tw_mcus : list (trdispatch_mcu D); tw_sqs : gmap Z (sqworld D) }.
Arguments mk_tw {D}.
Arguments tw_td {D}.
Arguments tw_mcus {D}.
Arguments tw_sqs {D}.
#[export] Instance eta_tw {D} : Settable (tdworld D) := fun w =>
  mk_tw (tw_td w) (tw_mcus w) (tw_sqs w).

Section trdispatch.
Context {D : Type} `{DoubleOps D} `{HostOS D}.
Notation MT := (M (tdworld D)).
Notation mcu := (trdispatch_mcu D).

Definition td_mod (f : trdispatch -> trdispatch) : MT unit :=
  modify (fun w => w <| tw_td ::= f |>).
Definition tdm_get (i : nat) : MT mcu := ms <- gets tw_mcus ;; deref (ms !! i).
Definition tdm_mod (i : nat) (f : mcu -> mcu) : MT unit :=
  modify (fun w => w <| tw_mcus ::= alter f i |>).

(** Run an operation on a serial queue. *)
Definition on_sq {A} (s : Z) (m : M (sqworld D) A) : MT A := fun w =>
  match tw_sqs w !! s with
  | None => Stuck
  | Some h =>
      match m h with
      | Ret a h => Ret a (w <| tw_sqs ::= <[s := h]> |>)
      | Shut r h => Shut r (w <| tw_sqs ::= <[s := h]> |>)
      | Stuck => Stuck
      end
  end.

(** Encode a message of three integers and send it; [req_clock] is set when given. *)
Definition send_encoded (m : mcu) (msg : list Z) (req_clock : option Z) : MT unit :=
  '(qm, err) <- deref (message_alloc_and_encode msg) ;;
  on_sq (tdm_sq m) (
    when err (emit (Ev_log "Encode error")) ;;
    serialqueue_send_one (tdm_cq m)
      match req_clock with
      | Some c => qm_set_clocks (qm_min_clock qm) c qm
      | None => qm
      end).

Definition send_trsync_trigger (i : nat) : MT unit :=
  m <- tdm_get i ;;
  td <- gets tw_td ;;
  send_encoded m [tdm_trigger_msgtag m; tdm_trsync_oid m; td_dispatch_reason td] None.

Definition send_trsync_set_timeout (i : nat) : MT unit :=
  m <- tdm_get i ;;
  send_encoded m [tdm_set_timeout_msgtag m; tdm_trsync_oid m; u32 (tdm_expire_clock m)]
    (Some (tdm_expire_clock m)).

(** [list_for_each_entry] over [tdm_list], from object [i] on with [n] left. *)
Fixpoint for_each (body : nat -> MT unit) (n i : nat) : MT unit :=
  match n with
  | O => ret tt
  | S n => body i ;; for_each body n (S i)
  end.

(** [min_time], [next_min_time] and [min_tdm]. *)
Fixpoint min_loop (i : nat) (ms : list mcu) (min_time next_min_time : D) (min_tdm : option nat) :
    D * D * option nat :=
  match ms with
  | [] => (min_time, next_min_time, min_tdm)
  | m :: ms =>
      let status_time := clock_to_time (tdm_ce m) (tdm_last_status_clock m) in
      if (status_time <? next_min_time)%D then
        if (status_time <? min_time)%D
        then min_loop (S i) ms status_time min_time (Some i)
        else min_loop (S i) ms min_time status_time min_tdm
      else min_loop (S i) ms min_time next_min_time min_tdm
  end.

(** The new timeout of a micro-controller, and the message when it extends the old one enough.
    The comparison with the unsigned [min_extend_ticks] is unsigned, despite the cast of the
    difference to a signed type. *)
Definition set_timeout (min_time next_min_time : D) (min_tdm : option nat) (i : nat) : MT unit :=
  m <- tdm_get i ;;
  let status_time := if bool_decide (min_tdm = Some i) then next_min_time else min_time in
  let expire := u64 (clock_from_time (tdm_ce m) status_time + tdm_expire_ticks m) in
  when (tdm_min_extend_ticks m <=? u64 (i64 (expire - tdm_expire_clock m)))
    (tdm_mod i (fun m => m <| tdm_expire_clock := expire |>) ;;
     send_trsync_set_timeout i).

(** The part of [handle_trsync_state] for a micro-controller that still works. *)
Definition extend_timeouts (i : nat) (clock : Z) : MT unit :=
  m <- tdm_get i ;;
  ce <- on_sq (tdm_sq m) serialqueue_get_clock_est ;;
  tdm_mod i (fun m => m <| tdm_ce := ce |>
                        <| tdm_last_status_clock := clock_from_clock32 ce clock |>) ;;
  ms <- gets tw_mcus ;;
  let '(min_time, next_min_time, min_tdm) := min_loop 0 ms PR_NEVER PR_NEVER None in
  let next_min_time := if (next_min_time =? PR_NEVER)%D then min_time else next_min_time in
  for_each (set_timeout min_time next_min_time min_tdm) (length ms) 0.

(** The body of [handle_trsync_state] under the lock. *)
Definition process_state (i : nat) (can_trigger clock : Z) : MT unit :=
  td <- gets tw_td ;;
  if negb (z2b (td_can_trigger td)) then ret tt
  else if negb (z2b can_trigger) then
    td_mod (fun td => td <| td_can_trigger := 0 |>) ;;
    ms <- gets tw_mcus ;;
    for_each send_trsync_trigger (length ms) 0
  else extend_timeouts i clock.

Definition handle_trsync_state (fr : fastreader) (data : list Z) (len : Z) : MT unit :=
  let i := Z.to_nat (fr_func fr) in
  m <- tdm_get i ;;
  '(r, fields) <- deref (msgblock_decode 5 data len) ;;
  if z2b r || negb (nthZ fields 1 =? tdm_trsync_oid m) then ret tt
  else process_state i (nthZ fields 2) (nthZ fields 4).

Definition register (add : bool) (i : nat) : MT unit :=
  m <- tdm_get i ;;
  on_sq (tdm_sq m) (if add then serialqueue_add_fastreader (tdm_fr m)
                    else serialqueue_rm_fastreader (tdm_fr m)).

Definition trdispatch_start (dispatch_reason : Z) : MT unit :=
  td <- gets tw_td ;;
  ms <- gets tw_mcus ;;
  if z2b (td_is_active td) || bool_decide (ms = []) then ret tt
  else
    td_mod (fun td => td <| td_dispatch_reason := dispatch_reason |>
                         <| td_is_active := 1 |> <| td_can_trigger := 1 |>) ;;
    for_each (register true) (length ms) 0.

Definition trdispatch_stop : MT unit :=
  td <- gets tw_td ;;
  if negb (z2b (td_is_active td)) then ret tt
  else
    td_mod (fun td => td <| td_is_active := 0 |>) ;;
    ms <- gets tw_mcus ;;
    for_each (register false) (length ms) 0.

(** [ret]: the result of [pthread_mutex_init]. *)
Definition trdispatch_alloc (ret : Z) : option trdispatch :=
  if z2b ret then None else Some (mk_td 0 0 0).

Definition trdispatch_mcu_alloc (sq cq trsync_oid set_timeout_msgtag trigger_msgtag state_msgtag : Z) :
    MT nat :=
  '(dummy, err) <- deref (message_alloc_and_encode (D := D) [state_msgtag; trsync_oid]) ;;
  i <- gets (fun w => length (tw_mcus w)) ;;
  let m := mk_tdm (mk_fr (Z.of_nat i) (qm_msg dummy)) sq cq trsync_oid set_timeout_msgtag
             trigger_msgtag 0 0 0 0
             {| last_clock := 0; conv_clock := 0; conv_time := dzero; est_freq := dzero |} in
  modify (fun w => w <| tw_mcus ::= fun l => l ++ [m] |>) ;;
  ret i.

Definition trdispatch_mcu_setup (i : nat) (last_status_clock expire_clock expire_ticks min_extend_ticks : Z) :
    MT unit :=
  m <- tdm_get i ;;
  tdm_mod i (fun m => m <| tdm_last_status_clock := last_status_clock |>
    <| tdm_expire_clock := expire_clock |> <| tdm_expire_ticks := expire_ticks |>
    <| tdm_min_extend_ticks := min_extend_ticks |>) ;;
  ce <- on_sq (tdm_sq m) serialqueue_get_clock_est ;;
  tdm_mod i (fun m => m <| tdm_ce := ce |>).
End trdispatch.
