(* ===== verification/TrdispatchFacts.v ===== *)
(** * Triggers and timeouts of the trigger dispatch (klippy/chelper/trdispatch.c)

    The first trigger is sent to every micro-controller, once; and the timeout of each
    micro-controller follows the last report of the slowest of the others. *)

From S2P Require Import Prelude Double Wire Command CommandFacts Msgblock Stepcompress Pollreactor Serialqueue SerialqueueFacts ReceiveFacts Session SessionFacts Trdispatch.
From Stdlib Require Import Reals Lra.

Section facts.
Context {D : Type} `{DoubleOps D} `{HostOS D}.
Notation mcu := (trdispatch_mcu D).
Notation qmsg := (queue_message D).

(** ** The serial queues *)

(** The messages in command queue [c] of serial queue [s]. *)
Definition queued (w : tdworld D) (s c : Z) : list qmsg :=
  match tw_sqs w !! s with Some h => queue_of (w_sq h) c | None => [] end.

(** The queues of a micro-controller exist. *)
Definition connected_mcu (sqs : gmap Z (sqworld D)) (m : mcu) : Prop :=
  exists h, sqs !! tdm_sq m = Some h /\ is_Some (sq_queues (w_sq h) !! tdm_cq m).

Definition mcu_ok (m : mcu) : Prop :=
  is_u32 (tdm_trigger_msgtag m) /\ is_u32 (tdm_set_timeout_msgtag m) /\ is_u32 (tdm_trsync_oid m).

(** Room for [k] more messages in every serial queue. *)
Record tdworld_ok (k : nat) (w : tdworld D) : Prop := {
  tw_mcu_ok : Forall mcu_ok (tw_mcus w);
  tw_connected : Forall (connected_mcu (tw_sqs w)) (tw_mcus w);
  tw_queues : forall s h, tw_sqs w !! s = Some h -> queues_ok (w_sq h) /\
    sq_ready_bytes (w_sq h) + sq_stalled_bytes (w_sq h)
    + Z.of_nat k * MESSAGE_PAYLOAD_MAX < 2147483648;
}.

(** A message with integers [msg] and [req_clock] [clock], as it is queued. *)
Definition out_msg (msg : list Z) (clock : Z) : qmsg :=
  set_min_clock (qm_set_clocks 0 clock (message_fill (encode_args msg) (zlen (encode_args msg)))).

(** The part of [l] for command queue [c] of serial queue [s]. *)
Definition addressed (s c : Z) (m : mcu) (l : list qmsg) : list qmsg :=
  if decide (tdm_sq m = s /\ tdm_cq m = c) then l else [].

Lemma encode_args_3 a b c : is_u32 a -> is_u32 b -> is_u32 c ->
  3 <= zlen (encode_args [a; b; c]) <= 15 /\ bytes (encode_args [a; b; c]).
Proof.
  intros Ha Hb Hc. unfold encode_args. cbn [map concat]. rewrite app_nil_r, !zlen_app.
  pose proof (encode_int_length_bound a Ha). pose proof (encode_int_length_bound b Hb).
  pose proof (encode_int_length_bound c Hc). split; [lia|].
  rewrite !bytes_app. auto using encode_int_bytes.
Qed.

Lemma encode_3 a b c : is_u32 a -> is_u32 b -> is_u32 c ->
  message_alloc_and_encode (D := D) [a; b; c]
  = Some (message_fill (encode_args [a; b; c]) (zlen (encode_args [a; b; c])), false).
Proof.
  intros Ha Hb Hc. pose proof (encode_args_3 a b c Ha Hb Hc) as [Hl _].
  unfold message_alloc_and_encode. rewrite encode_loop_spec; [|by auto using Forall_cons_2, Forall_nil_2|done].
  change (zlen []) with 0. rewrite decide_True by lia. reflexivity.
Qed.

Lemma out_msg_ok a b c clock : is_u32 a -> is_u32 b -> is_u32 c -> clock < MAX_CLOCK ->
  Forall msg_ok [qm_set_clocks 0 clock (message_fill (D := D) (encode_args [a; b; c]) (zlen (encode_args [a; b; c])))].
Proof.
  intros Ha Hb Hc Hk. pose proof (encode_args_3 a b c Ha Hb Hc) as [Hl Hby].
  assert (Et : takeZ (zlen (encode_args [a; b; c])) (encode_args [a; b; c]) = encode_args [a; b; c]).
  { unfold takeZ, zlen. rewrite Nat2Z.id. apply firstn_all. }
  constructor; [|constructor]. unfold msg_ok, MESSAGE_PAYLOAD_MAX, MESSAGE_MAX, MESSAGE_MIN.
  cbn [qm_len qm_msg qm_set_clocks message_fill message_set]. rewrite Et. split; [lia|]. done.
Qed.

(** ** Sending *)

Lemma on_sq_run {A} s (m : M (sqworld D) A) w h a h' :
  tw_sqs w !! s = Some h -> m h = Ret a h' -> on_sq s m w = Ret a (w <| tw_sqs ::= <[s := h']> |>).
Proof. intros Es E. unfold on_sq. by rewrite Es, E. Qed.

Lemma connected_insert sqs s h h' (m : mcu) :
  sqs !! s = Some h -> (forall q, is_Some (sq_queues (w_sq h) !! q) -> is_Some (sq_queues (w_sq h') !! q)) ->
  connected_mcu sqs m -> connected_mcu (<[s := h']> sqs) m.
Proof.
  intros Hs Hq (h0 & E & Hc). unfold connected_mcu. destruct (decide (tdm_sq m = s)) as [Em|Hne]; [rewrite Em in *|].
  - rewrite lookup_insert_eq. exists h'. split; [done|]. apply Hq. assert (h0 = h) as -> by congruence. done.
  - rewrite lookup_insert_ne by done. by exists h0.
Qed.

(** What an operation on micro-controller [m] promises: the messages [out] join its queue. *)
Definition sends (k : nat) (m : mcu) (out : list qmsg) (w : tdworld D) (res : outcome (tdworld D) unit)
    (td : trdispatch) (ms : list mcu) : Prop :=
  exists w', res = Ret tt w' /\ tdworld_ok k w' /\ tw_td w' = td /\ tw_mcus w' = ms /\
    forall s c, queued w' s c = queued w s c ++ addressed s c m out.

Lemma send_encoded_run k w m a b c rc :
  tdworld_ok (S k) w -> connected_mcu (tw_sqs w) m -> is_u32 a -> is_u32 b -> is_u32 c ->
  default 0 rc < MAX_CLOCK ->
  sends k m [out_msg [a; b; c] (default 0 rc)] w (send_encoded m [a; b; c] rc w) (tw_td w) (tw_mcus w).
Proof.
  intros [Hm Hc Hq] (h & Es & Hcq) Ha Hb Hcc Hrc. unfold send_encoded. rewrite encode_3 by done.
  cbn [deref]. rewrite bind_ret_l. set (len := zlen (encode_args [a; b; c])).
  set (fill := message_fill (D := D) (encode_args [a; b; c]) len).
  set (qm := qm_set_clocks 0 (default 0 rc) fill).
  assert (Eqm : match rc with Some c0 => qm_set_clocks (qm_min_clock fill) c0 fill | None => fill end = qm)
    by (destruct rc; reflexivity).
  rewrite Eqm. cbn [when]. destruct (Hq _ _ Es) as [Hok Hroom].
  pose proof (out_msg_ok a b c (default 0 rc) Ha Hb Hcc Hrc) as Hmsg. fold len in Hmsg. fold fill qm in Hmsg.
  pose proof (encode_args_3 a b c Ha Hb Hcc) as [Hl _]. fold len in Hl.
  assert (El : len_sum [qm] = len) by (change (len_sum [qm]) with (len + 0); lia).
  unfold MESSAGE_PAYLOAD_MAX, MESSAGE_MAX, MESSAGE_MIN in Hroom.
  destruct (send_batch_run (tdm_cq m) [qm] h Hok Hcq Hmsg) as (h' & evs & E & Hok' & _ & _ & _ & _ & Eb & Hkeys & Equeue);
    [lia|].
  eexists. split; [apply (on_sq_run _ _ _ h tt h'); [done|exact E]|].
  split; [split; cbn [tw_mcus tw_sqs upd eta_tw]|].
  - done.
  - eapply Forall_impl; [exact Hc|]. intros x. by apply connected_insert with h.
  - intros s h0. rewrite lookup_insert. destruct (decide _) as [_|_]; intros Hs; [injection Hs as <-|].
    + split; [done|]. unfold MESSAGE_PAYLOAD_MAX, MESSAGE_MAX, MESSAGE_MIN. lia.
    + destruct (Hq _ _ Hs). split; [done|]. unfold MESSAGE_PAYLOAD_MAX, MESSAGE_MAX, MESSAGE_MIN in *. lia.
  - split; [done|]. split; [done|]. intros s c0. unfold queued, addressed. cbn [tw_sqs upd eta_tw].
    rewrite lookup_insert. destruct (decide (tdm_sq m = s)) as [<-|Hne].
    + rewrite Es, Equeue. destruct (decide (c0 = tdm_cq m)) as [->|]; destruct (decide _) as [[? ?]|Hno]; try done.
      * by destruct Hno.
      * by rewrite app_nil_r.
    + rewrite (decide_False (P := _ /\ _)) by tauto. by rewrite app_nil_r.
Qed.

(** The loop over the micro-controllers: each object is updated and its messages join the
    queues, in the order of the list. *)
Lemma for_each_run (body : nat -> M (tdworld D) unit) (upd : nat -> mcu -> mcu) (out : nat -> mcu -> list qmsg)
    (P : nat -> mcu -> Prop) td :
  (forall k i m w, tdworld_ok (S k) w -> tw_td w = td -> tw_mcus w !! i = Some m -> P i m ->
     sends k m (out i m) w (body i w) td (<[i := upd i m]> (tw_mcus w))) ->
  forall n i k w, tdworld_ok (n + k) w -> tw_td w = td -> (i + n)%nat = length (tw_mcus w) ->
    (forall j m, (i <= j)%nat -> tw_mcus w !! j = Some m -> P j m) ->
  exists w', for_each body n i w = Ret tt w' /\ tdworld_ok k w' /\ tw_td w' = td /\
    (forall j, tw_mcus w' !! j = (fun m => if decide (i <= j)%nat then upd j m else m) <$> tw_mcus w !! j) /\
    forall s c, queued w' s c
      = queued w s c ++ concat (imap (fun j m => addressed s c m (out (i + j)%nat m)) (drop i (tw_mcus w))).
Proof.
  intros Hbody. induction n as [|n IH]; intros i k w Hok Htd Hlen HP; cbn [for_each].
  { exists w. split; [done|]. split; [done|]. split; [done|]. split.
    - intros j. destruct (tw_mcus w !! j) as [m|] eqn:Ej; [|done]. cbn.
      apply lookup_lt_Some in Ej. destruct decide; [lia|done].
    - intros s c. rewrite drop_ge by lia. cbn. by rewrite app_nil_r. }
  destruct (lookup_lt_is_Some_2 (tw_mcus w) i) as [m Em]; [lia|].
  destruct (Hbody (n + k)%nat i m w Hok Htd Em (HP i m ltac:(lia) Em)) as (w1 & E1 & Hok1 & Htd1 & Ems1 & Eq1).
  destruct (IH (S i) k w1 Hok1 Htd1) as (w' & E & Hok' & Htd' & Ems & Eq).
  { rewrite Ems1, length_insert. lia. }
  { intros j x Hj Hx. rewrite Ems1, list_lookup_insert_ne in Hx by lia. apply HP; [lia|done]. }
  exists w'. rewrite (bind_Ret _ _ _ _ _ E1). split; [done|]. split; [done|]. split; [done|]. split.
  - intros j. rewrite Ems, Ems1. destruct (decide (j = i)) as [->|Hj].
    + rewrite list_lookup_insert_eq by lia. rewrite Em. cbn. by rewrite decide_False, decide_True by lia.
    + rewrite list_lookup_insert_ne by done. destruct (tw_mcus w !! j); [|done]. cbn.
      destruct (decide (S i <= j)%nat), (decide (i <= j)%nat); (done || lia).
  - intros s c. rewrite Eq, Eq1, Ems1, drop_insert_lt by lia. rewrite (drop_S _ _ _ Em). cbn [imap concat].
    rewrite Nat.add_0_r, <- app_assoc. do 3 f_equal. apply imap_ext. intros j x _. cbn. by rewrite Nat.add_succ_r.
Qed.

(** ** Triggers *)

Definition trigger_msg (td : trdispatch) (m : mcu) : qmsg :=
  out_msg [tdm_trigger_msgtag m; tdm_trsync_oid m; td_dispatch_reason td] 0.

Lemma bind_tdm_get {B} i m (k : mcu -> M (tdworld D) B) w :
  tw_mcus w !! i = Some m -> bind (tdm_get i) k w = k m w.
Proof. intros E. unfold tdm_get, gets, bind. by rewrite E. Qed.

Lemma send_trigger_run td k i m w :
  is_u32 (td_dispatch_reason td) ->
  tdworld_ok (S k) w -> tw_td w = td -> tw_mcus w !! i = Some m -> True ->
  sends k m [trigger_msg td m] w (send_trsync_trigger i w) td (<[i := m]> (tw_mcus w)).
Proof.
  intros Hr Hok <- Em _. unfold send_trsync_trigger. rewrite (bind_tdm_get _ _ _ _ Em).
  rewrite list_insert_id by done. pose proof Hok as [Hm Hc _]. rewrite Forall_lookup in Hm, Hc.
  destruct (Hm _ _ Em) as (H1 & _ & H3). apply (send_encoded_run k w m _ _ _ None); try done.
  by apply (Hc i).
Qed.

Lemma trigger_run w k :
  tdworld_ok (length (tw_mcus w) + k) w -> is_u32 (td_dispatch_reason (tw_td w)) ->
  exists w', for_each send_trsync_trigger (length (tw_mcus w)) 0 w = Ret tt w' /\ tdworld_ok k w' /\
    tw_td w' = tw_td w /\ tw_mcus w' = tw_mcus w /\
    forall s c, queued w' s c
      = queued w s c ++ concat (map (fun m => addressed s c m [trigger_msg (tw_td w) m]) (tw_mcus w)).
Proof.
  intros Hok Hr. destruct (for_each_run send_trsync_trigger (fun _ m => m) (fun _ m => [trigger_msg (tw_td w) m])
    (fun _ _ => True) (tw_td w) (fun k i m w0 => send_trigger_run (tw_td w) k i m w0 Hr)
    (length (tw_mcus w)) 0 k w Hok eq_refl eq_refl) as (w' & E & Hok' & Htd & Ems & Eq); [done|].
  exists w'. split; [done|]. split; [done|]. split; [done|]. split.
  - apply list_eq. intros j. rewrite Ems. destruct (tw_mcus w !! j); [|done]. cbn. by destruct decide.
  - intros s c. rewrite Eq, drop_0. do 2 f_equal.
    apply (imap_const (fun m => addressed s c m [trigger_msg (tw_td w) m])).
Qed.

(** A report: the block that carries a [trsync_state] message, and what is behind it in the
    input buffer. *)
Definition report (seq : Z) (fields rest : list Z) : list Z := frame seq (encode_args fields) ++ rest.

Lemma encode_args_bound data : Forall is_u32 data -> 0 <= zlen (encode_args data) <= 5 * zlen data.
Proof.
  induction 1 as [|x l Hx _ IH]; [done|]. unfold encode_args in *. cbn [map concat].
  rewrite zlen_app, zlen_cons. pose proof (encode_int_length_bound x Hx). lia.
Qed.

Lemma report_decoded seq fields rest :
  length fields = 5%nat -> Forall is_u32 fields ->
  msgblock_decode 5 (report seq fields rest) (MESSAGE_MIN + zlen (encode_args fields)) = Some (0, fields).
Proof.
  intros Hl HF. pose proof (encode_args_bound fields HF) as Hb. unfold zlen in Hb at 3. rewrite Hl in Hb.
  unfold report, msgblock_decode. rewrite frame_unfold by lia. cbn [app]. rewrite <- Hl, <- app_assoc.
  apply (decode_loop_encoded fields [_; _]); [done|].
  change (zlen [_; _]) with 2. unfold MESSAGE_MIN, MESSAGE_TRAILER_SIZE. lia.
Qed.

Lemma handle_report w i m seq tag can_trigger reason clock rest :
  tw_mcus w !! i = Some m -> fr_func (tdm_fr m) = Z.of_nat i ->
  let fields := [tag; tdm_trsync_oid m; can_trigger; reason; clock] in Forall is_u32 fields ->
  handle_trsync_state (tdm_fr m) (report seq fields rest) (MESSAGE_MIN + zlen (encode_args fields)) w
  = process_state i can_trigger clock w.
Proof.
  intros Em Efr fields HF. unfold handle_trsync_state. rewrite Efr, Nat2Z.id, (bind_tdm_get _ _ _ _ Em).
  rewrite report_decoded by done. cbn [deref]. rewrite bind_ret_l. unfold fields, nthZ. cbn [nth Z.to_nat].
  by rewrite Z.eqb_refl.
Qed.

(** C7: the first report of a trigger or timeout reaches every micro-controller of the
    homing move: one [trsync_trigger] with the reason of the dispatch joins the command
    queue of each of them, in the order of the list, and every later report (of any
    micro-controller) is without effect. *)
Theorem trigger_reaches_every_mcu w i m seq tag reason clock rest :
  tdworld_ok (length (tw_mcus w)) w -> is_u32 (td_dispatch_reason (tw_td w)) ->
  z2b (td_can_trigger (tw_td w)) = true ->
  tw_mcus w !! i = Some m -> fr_func (tdm_fr m) = Z.of_nat i ->
  let fields := [tag; tdm_trsync_oid m; 0; reason; clock] in Forall is_u32 fields ->
  exists w', handle_trsync_state (tdm_fr m) (report seq fields rest) (MESSAGE_MIN + zlen (encode_args fields)) w
    = Ret tt w' /\
    tw_td w' = tw_td w <| td_can_trigger := 0 |> /\ tw_mcus w' = tw_mcus w /\
    (forall s c, queued w' s c
       = queued w s c ++ concat (map (fun m => addressed s c m [trigger_msg (tw_td w) m]) (tw_mcus w))) /\
    forall i' can_trigger' clock', process_state i' can_trigger' clock' w' = Ret tt w'.
Proof.
  intros Hok Hr Hct Em Efr fields HF. unfold fields. rewrite (handle_report w i m) by done.
  unfold process_state at 1. unfold gets, bind at 1. rewrite Hct. cbn [negb z2b Z.eqb].
  set (w1 := w <| tw_td ::= fun td => td <| td_can_trigger := 0 |> |>).
  rewrite (bind_Ret (td_mod _) _ w tt w1) by done.
  destruct (trigger_run w1 0) as (w' & E & _ & Htd & Ems & Eq); [|done|].
  { rewrite Nat.add_0_r. by destruct Hok. }
  exists w'. split; [exact E|]. split; [exact Htd|]. split; [exact Ems|]. split; [exact Eq|].
  intros i' ct' clock'. unfold process_state, gets, bind. by rewrite Htd.
Qed.

(** ** Timeouts *)

(** The clock of micro-controller [m] at time [u], plus its timeout. *)
Definition expire_of (u : D) (m : mcu) : Z := u64 (clock_from_time (tdm_ce m) u + tdm_expire_ticks m).
Definition extends (u : D) (m : mcu) : bool :=
  tdm_min_extend_ticks m <=? u64 (i64 (expire_of u m - tdm_expire_clock m)).
Definition extended (u : D) (m : mcu) : mcu :=
  if extends u m then m <| tdm_expire_clock := expire_of u m |> else m.
Definition timeout_msgs (u : D) (m : mcu) : list qmsg :=
  if extends u m
  then [out_msg [tdm_set_timeout_msgtag m; tdm_trsync_oid m; u32 (expire_of u m)] (expire_of u m)] else [].

(** The time that [set_timeout] uses for object [i]. *)
Definition used (min_time next_min_time : D) (min_tdm : option nat) (i : nat) : D :=
  if bool_decide (min_tdm = Some i) then next_min_time else min_time.

Lemma tdworld_ok_weaken k w : tdworld_ok (S k) w -> tdworld_ok k w.
Proof.
  intros [Hm Hc Hq]. split; [done|done|]. intros s h Hs. destruct (Hq s h Hs). split; [done|].
  unfold MESSAGE_PAYLOAD_MAX, MESSAGE_MAX, MESSAGE_MIN in *. lia.
Qed.

Lemma tdworld_ok_mcu k w i m m' :
  tdworld_ok k w -> tw_mcus w !! i = Some m -> mcu_ok m' -> tdm_sq m' = tdm_sq m -> tdm_cq m' = tdm_cq m ->
  tdworld_ok k (w <| tw_mcus := <[i := m']> (tw_mcus w) |>).
Proof.
  intros [Hm Hc Hq] Em Hm' Es Ec. split; cbn [tw_mcus tw_sqs upd eta_tw]; [by apply Forall_insert| |done].
  apply Forall_insert; [done|]. rewrite Forall_lookup in Hc. apply Hc in Em. unfold connected_mcu in *.
  by rewrite Es, Ec.
Qed.

Lemma alter_mcus i (f : mcu -> mcu) w m :
  tw_mcus w !! i = Some m -> tdm_mod i f w = Ret tt (w <| tw_mcus := <[i := f m]> (tw_mcus w) |>).
Proof.
  intros Em. unfold tdm_mod, modify. f_equal.
  change (mk_tw (tw_td w) (alter f i (tw_mcus w)) (tw_sqs w) = mk_tw (tw_td w) (<[i := f m]> (tw_mcus w)) (tw_sqs w)).
  f_equal.
  apply list_eq. intros j. destruct (decide (j = i)) as [->|].
  - rewrite list_lookup_alter_eq, list_lookup_insert_eq, Em by (by eapply lookup_lt_Some). done.
  - by rewrite list_lookup_alter_ne, list_lookup_insert_ne.
Qed.

Lemma set_timeout_run mn nx mt td k i m w :
  tdworld_ok (S k) w -> tw_td w = td -> tw_mcus w !! i = Some m ->
  expire_of (used mn nx mt i) m < MAX_CLOCK ->
  sends k m (timeout_msgs (used mn nx mt i) m) w (set_timeout mn nx mt i w) td
    (<[i := extended (used mn nx mt i) m]> (tw_mcus w)).
Proof.
  intros Hok <- Em Hmax. unfold set_timeout. rewrite (bind_tdm_get _ _ _ _ Em). cbv zeta.
  change (if bool_decide (mt = Some i) then nx else mn) with (used mn nx mt i).
  set (u := used mn nx mt i) in *. fold (expire_of u m). fold (extends u m).
  unfold timeout_msgs, extended. destruct (extends u m); cbn [when].
  2: { exists w. split; [done|]. split; [by apply tdworld_ok_weaken|]. split; [done|].
       split; [by rewrite list_insert_id|]. intros s c. unfold addressed. destruct decide; by rewrite app_nil_r. }
  rewrite (bind_Ret _ _ _ _ _ (alter_mcus i _ w m Em)). set (m' := m <| tdm_expire_clock := expire_of u m |>).
  set (w1 := w <| tw_mcus := <[i := m']> (tw_mcus w) |>).
  assert (Hm : mcu_ok m). { destruct Hok as [Hm _ _]. rewrite Forall_lookup in Hm. by eapply Hm. }
  assert (Hok1 : tdworld_ok (S k) w1) by by apply tdworld_ok_mcu with m.
  assert (Em1 : tw_mcus w1 !! i = Some m') by (apply list_lookup_insert_eq; by eapply lookup_lt_Some).
  unfold send_trsync_set_timeout. rewrite (bind_tdm_get _ _ _ _ Em1).
  destruct Hm as (_ & H2 & H3).
  destruct (send_encoded_run k w1 m' (tdm_set_timeout_msgtag m) (tdm_trsync_oid m) (u32 (expire_of u m))
    (Some (expire_of u m))) as (w' & E & Hok' & Htd & Ems & Eq); [done| |done|done|apply u32_range|done|].
  { destruct Hok1 as [_ Hc _]. rewrite Forall_lookup in Hc. by eapply Hc. }
  exists w'. split; [exact E|]. split; [done|]. split; [done|]. split; [done|]. exact Eq.
Qed.

(** The second half of [extend_timeouts]. *)
Lemma timeouts_run mn nx mt k w :
  tdworld_ok (length (tw_mcus w) + k) w ->
  (forall j m, tw_mcus w !! j = Some m -> expire_of (used mn nx mt j) m < MAX_CLOCK) ->
  exists w', for_each (set_timeout mn nx mt) (length (tw_mcus w)) 0 w = Ret tt w' /\ tdworld_ok k w' /\
    tw_td w' = tw_td w /\ tw_mcus w' = imap (fun j m => extended (used mn nx mt j) m) (tw_mcus w) /\
    forall s c, queued w' s c = queued w s c
      ++ concat (imap (fun j m => addressed s c m (timeout_msgs (used mn nx mt j) m)) (tw_mcus w)).
Proof.
  intros Hok Hmax. destruct (for_each_run (set_timeout mn nx mt) (fun j => extended (used mn nx mt j))
    (fun j => timeout_msgs (used mn nx mt j)) (fun j m => expire_of (used mn nx mt j) m < MAX_CLOCK)
    (tw_td w) (fun k i m w0 => set_timeout_run mn nx mt (tw_td w) k i m w0)
    (length (tw_mcus w)) 0 k w Hok eq_refl eq_refl) as (w' & E & Hok' & Htd & Ems & Eq); [auto|].
  exists w'. split; [done|]. split; [done|]. split; [done|]. split; [|exact Eq].
  apply list_eq. intros j. rewrite Ems, list_lookup_imap. destruct (tw_mcus w !! j); [|done]. cbn.
  by destruct decide; [|lia].
Qed.
End facts.

(** ** The slowest of the others *)

Section slowest.
Context `{HostOS R}.
Notation mcu := (trdispatch_mcu R).
#[local] Open Scope R_scope.

(** The time of the last report of a micro-controller. *)
Definition status_time (m : mcu) : R := clock_to_time (tdm_ce m) (tdm_last_status_clock m).

(** [min_time], [next_min_time] and [min_tdm] after the loop over objects with these times. *)
Definition two_least (ts : list R) (mn nx : R) (mt : option nat) : Prop :=
  match mt with
  | None => ts = [] /\ mn = PR_NEVER /\ nx = PR_NEVER
  | Some k => ts !! k = Some mn /\ (forall j t, ts !! j = Some t -> mn <= t) /\
      (forall j t, j <> k -> ts !! j = Some t -> nx <= t) /\
      (length ts = 1%nat /\ nx = PR_NEVER \/ exists j, j <> k /\ ts !! j = Some nx)
  end.

Lemma two_least_step ts mn nx mt t :
  t < PR_NEVER -> Forall (fun t => t < PR_NEVER) ts -> two_least ts mn nx mt ->
  if Rlt_dec t nx then
    if Rlt_dec t mn then two_least (ts ++ [t]) t mn (Some (length ts)) else two_least (ts ++ [t]) mn t mt
  else two_least (ts ++ [t]) mn nx mt.
Proof.
  intros Ht HF. destruct mt as [k|]; cbn [two_least].
  - intros (Hk & Hmn & Hnx & Hex).
    assert (Hklt := lookup_lt_Some _ _ _ Hk).
    assert (Hnew : (ts ++ [t]) !! length ts = Some t) by (by rewrite lookup_app_r, Nat.sub_diag by lia).
    assert (Hold : forall j u, (ts ++ [t]) !! j = Some u -> ts !! j = Some u \/ (j = length ts /\ u = t)).
    { intros j u [?|[Hge Hu]]%lookup_app_Some; [by left|]. right. apply list_lookup_singleton_Some in Hu as [? <-]. split; [lia|done]. }
    assert (Hkeep : forall j u, ts !! j = Some u -> (ts ++ [t]) !! j = Some u)
      by (intros j u Hu; by apply lookup_app_l_Some).
    destruct (Rlt_dec t nx) as [H1|H1%Rnot_lt_le]; [destruct (Rlt_dec t mn) as [H2|H2%Rnot_lt_le]|].
    + split; [done|]. split; [|split].
      * intros j u [Hu|[_ ->]]%Hold; [apply Hmn in Hu|]; lra.
      * intros j u Hj [Hu|[? _]]%Hold; [by apply Hmn in Hu|done].
      * right. exists k. split; [lia|]. by apply Hkeep.
    + split; [by apply Hkeep|]. split; [|split].
      * intros j u [Hu|[_ ->]]%Hold; [by apply Hmn in Hu|done].
      * intros j u Hj [Hu|[_ ->]]%Hold; [apply Hnx in Hu; [lra|done]|lra].
      * right. exists (length ts). split; [lia|done].
    + destruct Hex as [[_ ->]|(j & Hj & Ej)]; [lra|]. pose proof (Hmn _ _ Ej).
      split; [by apply Hkeep|]. split; [|split].
      * intros i u [Hu|[_ ->]]%Hold; [by apply Hmn in Hu|lra].
      * intros i u Hi [Hu|[_ ->]]%Hold; [by apply (Hnx i)|done].
      * right. exists j. split; [done|]. by apply Hkeep.
  - intros (-> & -> & ->). destruct (Rlt_dec t PR_NEVER); [|lra]. cbn.
    split; [done|]. split; [|split; [|by left]].
    + intros [|j] u Hu; [injection Hu as <-; lra|done].
    + intros [|j] u Hj Hu; [done|done].
Qed.

Lemma min_loop_spec ms ts mn nx mt :
  Forall (fun t => t < PR_NEVER) (ts ++ map status_time ms) -> two_least ts mn nx mt ->
  let '(mn', nx', mt') := min_loop (length ts) ms mn nx mt in
  two_least (ts ++ map status_time ms) mn' nx' mt'.
Proof.
  revert ts mn nx mt. induction ms as [|m ms IH]; intros ts mn nx mt HF Hinv; cbn [min_loop map].
  { by rewrite app_nil_r. }
  cbn [map] in HF. rewrite cons_middle, app_assoc in HF |- *. pose proof HF as [[HF1 HF2]%Forall_app _]%Forall_app.
  assert (Ht : status_time m < PR_NEVER) by by inversion HF2.
  pose proof (two_least_step ts mn nx mt (status_time m) Ht HF1 Hinv) as Hstep.
  assert (El : S (length ts) = length (ts ++ [status_time m])) by (rewrite length_app; cbn; lia).
  fold (status_time m). cbn [dltb real_ops]. rewrite El.
  destruct (Rlt_dec (status_time m) nx); [destruct (Rlt_dec (status_time m) mn)|]; by apply IH.
Qed.

(** [u] is the earliest of the times but that of object [i]; its own time when it is alone. *)
Definition slowest_other (ts : list R) (i : nat) (u : R) : Prop :=
  (forall j t, j <> i -> ts !! j = Some t -> u <= t) /\
  exists j, ts !! j = Some u /\ (j <> i \/ length ts = 1%nat).

Lemma used_slowest ts mn nx mt i :
  Forall (fun t => t < PR_NEVER) ts -> two_least ts mn nx mt -> (i < length ts)%nat ->
  slowest_other ts i (used mn (if (nx =? PR_NEVER)%D then mn else nx) mt i).
Proof.
  intros HF Hinv Hi. destruct mt as [k|]; [|destruct Hinv as (-> & _); cbn in Hi; lia].
  destruct Hinv as (Hk & Hmn & Hnx & Hex). unfold used, slowest_other. cbn [deqb real_ops].
  assert (Hklt := lookup_lt_Some _ _ _ Hk).
  case_bool_decide as Hki; [injection Hki as ->|].
  - destruct Hex as [[Hl ->]|(j & Hj & Ej)].
    + destruct (Req_dec_T PR_NEVER PR_NEVER); [|done]. split; [|exists i; auto].
      intros j t Hj Ht. apply lookup_lt_Some in Ht. lia.
    + destruct (Req_dec_T nx PR_NEVER) as [E|_].
      * rewrite Forall_lookup in HF. apply HF in Ej. lra.
      * split; [exact Hnx|]. exists j. auto.
  - split; [by eauto|]. exists k. split; [done|]. left. congruence.
Qed.

Lemma extend_timeouts_run w i m h clock :
  tdworld_ok (length (tw_mcus w)) w -> tw_mcus w !! i = Some m -> tw_sqs w !! tdm_sq m = Some h ->
  let ce := sq_ce (w_sq h) in
  let ms := <[i := m <| tdm_ce := ce |> <| tdm_last_status_clock := clock_from_clock32 ce clock |>]> (tw_mcus w) in
  let ts := map status_time ms in
  Forall (fun t => t < PR_NEVER) ts ->
  (forall j m' u, ms !! j = Some m' -> u ∈ ts -> (expire_of u m' < MAX_CLOCK)%Z) ->
  exists w' us, extend_timeouts i clock w = Ret tt w' /\ tw_td w' = tw_td w /\
    (forall j, (j < length ms)%nat -> slowest_other ts j (us j)) /\
    tw_mcus w' = imap (fun j m => extended (us j) m) ms /\
    forall s c, queued w' s c = queued w s c
      ++ concat (imap (fun j m => addressed s c m (timeout_msgs (us j) m)) ms).
Proof.
  intros Hok Em Eh ce ms ts HF Hmax. unfold extend_timeouts. rewrite (bind_tdm_get _ _ _ _ Em).
  assert (Ece : on_sq (tdm_sq m) serialqueue_get_clock_est w = Ret ce w).
  { unfold on_sq. rewrite Eh. cbn [serialqueue_get_clock_est sqget gets].
    change (Ret ce (mk_tw (tw_td w) (tw_mcus w) (<[tdm_sq m := h]> (tw_sqs w))) = Ret ce w).
    rewrite insert_id by done. by destruct w. }
  rewrite (bind_Ret _ _ _ _ _ Ece), (bind_Ret _ _ _ _ _ (alter_mcus i _ w m Em)). fold ms.
  set (w1 := w <| tw_mcus := ms |>). unfold gets, bind at 1. change (tw_mcus w1) with ms.
  assert (Hl : length ms = length (tw_mcus w)) by apply length_insert.
  pose proof (min_loop_spec ms [] PR_NEVER PR_NEVER None HF ltac:(done)) as Hmin. cbn [length app] in Hmin.
  destruct (min_loop 0 ms PR_NEVER PR_NEVER None) as [[mn nx] mt].
  set (nx' := if (nx =? PR_NEVER)%D then mn else nx).
  assert (Hus : forall j, (j < length ms)%nat -> slowest_other ts j (used mn nx' mt j)).
  { intros j Hj. apply used_slowest; [done|done|]. unfold ts. by rewrite length_map. }
  destruct (timeouts_run mn nx' mt 0 w1) as (w' & E & _ & Htd & Ems & Eq).
  - change (tw_mcus w1) with ms. rewrite Hl, Nat.add_0_r. apply tdworld_ok_mcu with m; try done.
    destruct Hok as [Hm _ _]. rewrite Forall_lookup in Hm. exact (Hm _ _ Em).
  - intros j m' Hj. apply (Hmax j m'); [done|].
    destruct (Hus j) as [_ (x & Hx & _)]; [by eapply lookup_lt_Some|]. by eapply list_elem_of_lookup_2.
  - exists w', (used mn nx' mt). split; [exact E|]. split; [exact Htd|]. split; [exact Hus|]. split; [exact Ems|exact Eq].
Qed.

(** while the micro-controllers report, the timeout of each follows the slowest of the
    others: after a report, the time that determines the new [expire_clock] of an object is
    the earliest time of the last report of any other object (its own when it is alone),
    [expire_ticks] are added to the clock of its micro-controller at that time, and a
    [trsync_set_timeout] with that clock joins its command queue when it differs enough from
    the last one sent. *)
Theorem timeouts_follow_slowest_mcu w i m h seq tag can_trigger reason clock rest :
  tdworld_ok (length (tw_mcus w)) w -> z2b (td_can_trigger (tw_td w)) = true ->
  tw_mcus w !! i = Some m -> fr_func (tdm_fr m) = Z.of_nat i -> tw_sqs w !! tdm_sq m = Some h ->
  let fields := [tag; tdm_trsync_oid m; can_trigger; reason; clock] in Forall is_u32 fields ->
  z2b can_trigger = true ->
  let ce := sq_ce (w_sq h) in
  let ms := <[i := m <| tdm_ce := ce |> <| tdm_last_status_clock := clock_from_clock32 ce clock |>]> (tw_mcus w) in
  let ts := map status_time ms in
  Forall (fun t => t < PR_NEVER) ts ->
  (forall j m' u, ms !! j = Some m' -> u ∈ ts -> (expire_of u m' < MAX_CLOCK)%Z) ->
  exists w' us,
    handle_trsync_state (tdm_fr m) (report seq fields rest) (MESSAGE_MIN + zlen (encode_args fields)) w
    = Ret tt w' /\ tw_td w' = tw_td w /\
    (forall j, (j < length ms)%nat -> slowest_other ts j (us j)) /\
    tw_mcus w' = imap (fun j m => extended (us j) m) ms /\
    forall s c, queued w' s c = queued w s c
      ++ concat (imap (fun j m => addressed s c m (timeout_msgs (us j) m)) ms).
Proof.
  intros Hok Hact Em Efr Eh fields Hu Hcan ce ms ts HF Hmax. unfold fields.
  rewrite (handle_report w i m) by done. unfold process_state, gets. unfold bind at 1. rewrite Hact, Hcan.
  cbn [negb]. by apply (extend_timeouts_run w i m h clock).
Qed.
End slowest.

(** ** Instances of the properties *)

(** Two micro-controllers with a serial queue each. *)
Module TdDemo.
Section demo.
Context {D : Type} `{DoubleOps D}.

#[export] Instance os : HostOS D := {| os_ret _ := 0; os_monotonic _ := dzero |}.

Definition new_sq : serialqueue D :=
  match serialqueue_alloc (D := D) [0] SQT_UART 0 as o
    return match o with Some _ => serialqueue D | None => unit end with
  | Some sq => sq | None => tt end.

(** A clock that started at time zero, with [freq] ticks per second. *)
Definition clock_at (freq : Z) : clock_estimate D :=
  {| last_clock := 0; conv_clock := 0; conv_time := dzero; est_freq := dofZ freq |}.
Definition host_at (freq : Z) : sqworld D :=
  mk_w (new_sq <| sq_queues ::= <[0 := mk_cq [] []]> |> <| sq_ce := clock_at freq |>) [] 0.
Definition mcu_at (i last_status_clock expire_clock : Z) : trdispatch_mcu D :=
  mk_tdm (mk_fr i [30; 7]) i 0 7 40 41 last_status_clock expire_clock 500 100 (clock_at 1000).

(** Object 0 last reported at clock 1000, object 1 at clock 2000; the clock of the former is
    now estimated to run at [freq]. *)
Definition world_at (freq : Z) : tdworld D :=
  mk_tw (mk_td 1 1 3) [mcu_at 0 1000 2500; mcu_at 1 2000 1500]
    (<[0 := host_at freq]> (<[1 := host_at 1000]> ∅)).

Lemma host_at_ok freq : queues_ok (w_sq (host_at freq)).
Proof.
  apply (queue_view_ok (new_sq <| sq_queues ::= <[0 := mk_cq [] []]> |>)); [reflexivity|].
  apply queues_ok_alloc; [|reflexivity].
  destruct (alloc_ok [0] SQT_UART 0 new_sq 0) as [[Hq _ _ _ _] _]; [reflexivity|discriminate|discriminate|].
  exact Hq.
Qed.

Lemma world_at_ok freq : tdworld_ok 2 (world_at freq).
Proof.
  split.
  - repeat constructor; discriminate.
  - constructor; [|constructor; [|constructor]]; eexists; (split; [reflexivity|by eexists]).
  - intros s h Hs. cbn [tw_sqs world_at] in Hs. rewrite !lookup_insert, lookup_empty in Hs.
    repeat destruct (decide _); try discriminate; injection Hs as <-; (split; [apply host_at_ok|reflexivity]).
Qed.
End demo.
End TdDemo.
Import TdDemo.

Lemma trigger_reaches_every_mcu_witness :
  exists w', handle_trsync_state (mk_fr 0 [30; 7]) (report 17 [30; 7; 0; 1; 1100] [])
      (MESSAGE_MIN + zlen (encode_args [30; 7; 0; 1; 1100])) (world_at (D := binary64) 1000) = Ret tt w' /\
    queued w' 0 0 = [out_msg [41; 7; 3] 0] /\ queued w' 1 0 = [out_msg [41; 7; 3] 0].
Proof.
  destruct (trigger_reaches_every_mcu (world_at (D := binary64) 1000) 0 (mcu_at 0 1000 2500) 17 30 1 1100 [])
    as (w' & E & _ & _ & Eq & _).
  - apply world_at_ok.
  - split; [discriminate|reflexivity].
  - reflexivity.
  - reflexivity.
  - reflexivity.
  - repeat constructor; discriminate.
  - exists w'. split; [exact E|]. rewrite !Eq. split; vm_compute; reflexivity.
Defined.

(** Clocks of the instance, over the real numbers. *)
Lemma expire_at (n : Z) i a b : 0 <= n < 1000000 ->
  expire_of (D := R) (IZR n / 1000)%R (mcu_at i a b) = n + 500.
Proof.
  intros Hn. unfold expire_of, clock_from_time, dlit. cbn [tdm_ce mcu_at clock_at conv_time est_freq conv_clock
    tdm_expire_ticks dadd dsub dmul ddiv dofZ dtruncZ real_ops dzero].
  replace ((IZR n / 1000 - 0) * 1000 + 1 / 2)%R with (IZR n + / 2)%R by field.
  rewrite (R_trunc_pos _ n) by (lia || lra). wrap_lia.
Qed.

Lemma status_at i a b : 0 <= a < 1000000 -> status_time (mcu_at i a b) = (IZR a / 1000)%R.
Proof.
  intros Ha. unfold status_time, clock_to_time. cbn [tdm_ce mcu_at clock_at conv_time est_freq conv_clock
    tdm_last_status_clock dadd ddiv dofZ real_ops dzero]. rewrite Z.sub_0_r.
  replace (i64 a) with a by wrap_lia. lra.
Qed.

Lemma timeouts_follow_slowest_mcu_witness :
  exists w' us, handle_trsync_state (mk_fr 0 [30; 7]) (report 17 [30; 7; 1; 0; 2600] [])
      (MESSAGE_MIN + zlen (encode_args [30; 7; 1; 0; 2600])) (world_at (D := R) 1000) = Ret tt w' /\
    tw_mcus w' = imap (fun j m => extended (us j) m) [mcu_at 0 2600 2500; mcu_at 1 2000 1500].
Proof.
  destruct (timeouts_follow_slowest_mcu (world_at (D := R) 1000) 0 (mcu_at 0 1000 2500) (host_at 1000)
    17 30 1 0 2600 []) as (w' & us & E & _ & _ & Ems & _).
  - apply world_at_ok.
  - reflexivity.
  - reflexivity.
  - reflexivity.
  - reflexivity.
  - repeat constructor; discriminate.
  - reflexivity.
  - change (Forall (fun t => (t < PR_NEVER)%R) [status_time (mcu_at 0 2600 2500); status_time (mcu_at 1 2000 1500)]).
    rewrite !status_at by lia. unfold PR_NEVER. cbn [dofZ real_ops].
    constructor; [lra|]. constructor; [lra|constructor].
  - intros j m' u Hj Hu.
    change (u ∈ [status_time (mcu_at 0 2600 2500); status_time (mcu_at 1 2000 1500)]) in Hu.
    rewrite !status_at in Hu by lia.
    change ([mcu_at 0 2600 2500; mcu_at 1 2000 1500] !! j = Some m') in Hj.
    assert (Hm : exists i a b, m' = mcu_at i a b).
    { destruct j as [|[|j]]; [injection Hj as <-|injection Hj as <-|discriminate]; by eexists _, _, _. }
    destruct Hm as (i & a & b & ->).
    rewrite !elem_of_cons in Hu. destruct Hu as [->|[->|Hu]]; [| |by apply not_elem_of_nil in Hu];
      rewrite expire_at by lia; reflexivity.
  - exists w', us. split; [exact E|exact Ems].
Defined.

(** The comparison of [set_timeout] counts a decrease as an extension: object 0 reports the
    same clock again while its frequency estimate went up from 1000 to 1001 Hz, so that the
    time of its report moves back by a millisecond; the timeout of object 1 then moves back
    by one tick, although only changes of 100 ticks or more are to be sent. *)
Theorem timeout_can_move_back :
  match handle_trsync_state (mk_fr 0 [30; 7]) (report 17 [30; 7; 1; 0; 1000] [])
    (MESSAGE_MIN + zlen (encode_args [30; 7; 1; 0; 1000])) (world_at (D := binary64) 1001) with
  | Ret _ w' =>
      tdm_expire_clock <$> tw_mcus (world_at (D := binary64) 1001) !! 1%nat = Some 1500 /\
      tdm_expire_clock <$> tw_mcus w' !! 1%nat = Some 1499 /\
      queued w' 1 0 = [out_msg [40; 7; 1499] 1499]
  | _ => False
  end.
Proof. vm_compute. done. Qed.
