(* ===== verification/Rxbuf.v ===== *)
(** * Receive buffers shared with an interrupt

    The serial and the CAN console keep the received bytes at the front of an array of 192
    bytes; an interrupt appends to it while the console task removes parsed blocks from the
    front.  Both remove with the same loop (console_pop_input in src/generic/serial_irq.c
    and in src/generic/canserial.c), which is defined and proved here against what a
    console promises: the class [RxBuf] of its operations and [RxLaws] of their laws.
    [rx_irq] is a point at which interrupts may run. *)

From S2P Require Import Prelude.

Definition RX_SIZE : Z := 192.

(** [rx_diff] is the conversion of the difference [rpos - len] to its C type. *)
Class RxBuf (S : Type) := {
  rx_buf : S -> list Z;
  rx_pos : S -> Z;
  rx_put : nat -> Z -> S -> S;
  rx_set_pos : Z -> S -> S;
  rx_irq : M S unit;
  rx_wake : M S unit;
  rx_diff : Z -> Z;
}.

Section pop.
Context {S : Type} `{RxBuf S}.

(** [memmove(&receive_buf[dst], &receive_buf[src], n)] with [dst] at or before [src], byte by
    byte. *)
Fixpoint rx_memmove (n : nat) (dst src : Z) : M S unit :=
  match n with
  | O => ret tt
  | Datatypes.S n =>
      rx_irq ;;
      buf <- gets rx_buf ;;
      d <- deref (buf !! Z.to_nat src) ;;
      modify (rx_put (Z.to_nat dst) d) ;;
      rx_memmove n (dst + 1) (src + 1)
  end.

(** Every retry follows the arrival of a byte that was stored, so that one more turn than the
    buffer has bytes is enough. *)
Fixpoint pop_loop (fuel : nat) (len copied : Z) : M S unit :=
  match fuel with
  | O => stuck
  | Datatypes.S fuel =>
      rx_irq ;;
      rpos <- gets rx_pos ;;
      let needcopy := rx_diff (rpos - len) in
      copied <-
        (if z2b needcopy then
           (if needcopy <? copied then stuck
            else rx_memmove (Z.to_nat (needcopy - copied)) copied (copied + len)) ;;
           rx_wake ;;
           ret needcopy
         else ret copied) ;;
      rx_irq ;;
      rpos' <- gets rx_pos ;;
      if negb (rpos =? rpos') then pop_loop fuel len copied
      else modify (rx_set_pos needcopy)
  end.

Definition rx_pop_input (len : Z) : M S unit := pop_loop (Datatypes.S (Z.to_nat RX_SIZE)) len 0.

(** The bytes received and not yet removed. *)
Definition rx_held (s : S) : list Z := takeZ (rx_pos s) (rx_buf s).
End pop.

(** ** What a console promises

    [rx_ran k s s'] states that [s'] follows from [s] by interruptions that appended the bytes
    [k] and by changes of the removal; what else it says is up to the console. *)
Class RxLaws (S : Type) `{RxBuf S} := {
  rx_ok : S -> Prop;
  rx_ran : list Z -> S -> S -> Prop;
  rx_ok_len s : rx_ok s -> length (rx_buf s) = 192%nat /\ 0 <= rx_pos s <= 192;
  rx_ran_refl s : rx_ran [] s s;
  rx_ran_trans a b s1 s2 s3 : rx_ran a s1 s2 -> rx_ran b s2 s3 -> rx_ran (a ++ b) s1 s3;
  rx_irq_law s : rx_ok s -> exists k s', rx_irq s = Ret tt s' /\ rx_ok s' /\
    rx_held s' = rx_held s ++ k /\ rx_ran k s s';
  rx_put_law s i d : rx_ok s -> rx_ok (rx_put i d s) /\ rx_buf (rx_put i d s) = <[i := d]> (rx_buf s) /\
    rx_pos (rx_put i d s) = rx_pos s /\ rx_ran [] s (rx_put i d s);
  rx_wake_law s : rx_ok s -> exists s', rx_wake s = Ret tt s' /\ rx_ok s' /\
    rx_buf s' = rx_buf s /\ rx_pos s' = rx_pos s /\ rx_ran [] s s';
  rx_set_law s p : rx_ok s -> 0 <= p <= 192 -> rx_ok (rx_set_pos p s) /\
    rx_buf (rx_set_pos p s) = rx_buf s /\ rx_pos (rx_set_pos p s) = p;
  rx_diff_law z : 0 <= z <= 192 -> rx_diff z = z;
}.

Section popping.
Context {S : Type} `{RxLaws S}.

Lemma length_held s : rx_ok s -> length (rx_held s) = Z.to_nat (rx_pos s).
Proof. intros [Hl Hp]%rx_ok_len. unfold rx_held, takeZ. rewrite length_take. lia. Qed.

Lemma held_lookup s p : (p < Z.to_nat (rx_pos s))%nat -> rx_held s !! p = rx_buf s !! p.
Proof. intros Hp. unfold rx_held, takeZ. by apply lookup_take_lt. Qed.

(** The state while [len] bytes are removed: [T] is what was in the buffer at the start and
    what arrived since, and [j] bytes are already at their new place. *)
Record popping (len j : nat) (T : list Z) (s : S) : Prop := {
  po_ok : rx_ok s;
  po_len : rx_pos s = zlen T;
  po_le : (len + j <= length T)%nat;
  po_moved : forall p, (p < j)%nat -> rx_buf s !! p = T !! (len + p)%nat;
  po_rest : forall p, (j + len <= p < length T)%nat -> rx_buf s !! p = T !! p;
}.

Lemma popping_irq len j T s :
  popping len j T s -> exists k s', rx_irq s = Ret tt s' /\ popping len j (T ++ k) s' /\ rx_ran k s s'.
Proof.
  intros [Hok Hl Hle Hmoved Hrest].
  destruct (rx_irq_law s Hok) as (k & s' & E & Hok' & Hh & Hran). exists k, s'.
  split; [done|]. split; [|done]. pose proof (length_held s Hok) as Lc. pose proof (length_held s' Hok') as Lc'.
  pose proof (rx_ok_len s Hok). pose proof (rx_ok_len s' Hok'). rewrite Hh, length_app in Lc'.
  assert (ET : length T = length (rx_held s)) by (unfold zlen in *; lia).
  assert (Hkeep : forall p, (p < length T)%nat -> rx_buf s' !! p = rx_buf s !! p).
  { intros p Hp. rewrite <- (held_lookup s'), <- (held_lookup s), Hh by lia. by rewrite lookup_app_l by lia. }
  split.
  - done.
  - rewrite zlen_app. unfold zlen in *. lia.
  - rewrite length_app. lia.
  - intros p Hp. rewrite Hkeep by lia. rewrite lookup_app_l by lia. by apply Hmoved.
  - intros p Hp. rewrite length_app in Hp. destruct (decide (p < length T)%nat) as [Hlt|Hge].
    + rewrite Hkeep by done. rewrite lookup_app_l by lia. apply Hrest. lia.
    + rewrite <- held_lookup, Hh by lia. rewrite !lookup_app_r by lia. by rewrite ET.
Qed.

(** One byte moves to its place. *)
Lemma popping_move len j T s d :
  popping len j T s -> (len + j < length T)%nat -> rx_buf s !! (j + len)%nat = Some d ->
  popping len (Datatypes.S j) T (rx_put j d s).
Proof.
  intros [Hok Hl Hle Hmoved Hrest] Hlt Hd. destruct (rx_put_law s j d Hok) as (Hok' & Hb & Hp & _).
  pose proof (rx_ok_len s Hok). split.
  - done.
  - by rewrite Hp.
  - lia.
  - intros p Hpj. rewrite Hb. destruct (decide (p = j)) as [->|Hne].
    + rewrite list_lookup_insert_eq by (unfold zlen in *; lia). rewrite <- Hd, Hrest by lia. f_equal. lia.
    + rewrite list_lookup_insert_ne by done. apply Hmoved. lia.
  - intros p Hpj. rewrite Hb, list_lookup_insert_ne by lia. apply Hrest. lia.
Qed.

Lemma memmove_run n len j T s :
  popping len j T s -> (len + j + n <= length T)%nat ->
  exists k s', rx_memmove n (Z.of_nat j) (Z.of_nat (j + len)) s = Ret tt s' /\
    popping len (j + n) (T ++ k) s' /\ rx_ran k s s'.
Proof.
  revert j T s. induction n as [|n IH]; intros j T s Hp Hn; cbn [rx_memmove].
  { exists [], s. rewrite app_nil_r, Nat.add_0_r. split; [done|]. split; [done|]. apply rx_ran_refl. }
  destruct (popping_irq _ _ _ _ Hp) as (k & s1 & E1 & Hp1 & Hr1). rewrite (bind_Ret _ _ _ _ _ E1).
  assert (Hl : (len + j + Datatypes.S n <= length (T ++ k))%nat) by (rewrite length_app; lia).
  assert (Hd : exists d, rx_buf s1 !! (j + len)%nat = Some d).
  { rewrite (po_rest _ _ _ _ Hp1) by lia. apply lookup_lt_is_Some_2. lia. }
  destruct Hd as [d Hd]. unfold gets, modify, deref. unfold bind at 1. rewrite Nat2Z.id, Hd. unfold bind, ret.
  rewrite Nat2Z.id. pose proof (popping_move _ _ _ _ d Hp1 ltac:(lia) Hd) as Hp2.
  destruct (IH (Datatypes.S j) (T ++ k) _ Hp2 ltac:(lia)) as (k' & s' & E & Hp' & Hst).
  replace (Z.of_nat j + 1) with (Z.of_nat (Datatypes.S j)) by lia.
  replace (Z.of_nat (j + len) + 1) with (Z.of_nat (Datatypes.S j + len)) by lia.
  exists (k ++ k'), s'. split; [exact E|]. rewrite app_assoc, Nat.add_succ_r. split; [exact Hp'|].
  apply rx_ran_trans with s1; [done|]. eapply (rx_ran_trans []); [|exact Hst].
  by apply rx_put_law, (po_ok _ _ _ _ Hp1).
Qed.

(** The removal is complete. *)
Lemma popping_done len T s :
  popping len (length T - len) T s ->
  let s' := rx_set_pos (Z.of_nat (length T - len)) s in rx_ok s' /\ rx_held s' = drop len T.
Proof.
  intros [Hok Hl Hle Hmoved _] s'. pose proof (rx_ok_len s Hok). unfold zlen in *.
  destruct (rx_set_law s (Z.of_nat (length T - len)) Hok ltac:(lia)) as (Hok' & Hb & Hp). split; [done|].
  unfold rx_held, takeZ, s'. rewrite Hb, Hp, Nat2Z.id. apply list_eq_same_length with (length T - len)%nat.
  - rewrite length_drop. lia.
  - rewrite length_take. lia.
  - intros i x y Hi Hx Hy. rewrite lookup_take_lt in Hx by done. rewrite lookup_drop in Hy.
    rewrite Hmoved in Hx by done. congruence.
Qed.

(** The move of one turn: the bytes known at its start are at their place. *)
Lemma rx_move_run len j T s :
  popping len j T s ->
  exists k s', (if z2b (rx_diff (zlen T - Z.of_nat len)) then
       (if rx_diff (zlen T - Z.of_nat len) <? Z.of_nat j then stuck
        else rx_memmove (Z.to_nat (rx_diff (zlen T - Z.of_nat len) - Z.of_nat j)) (Z.of_nat j)
               (Z.of_nat j + Z.of_nat len)) ;;
       rx_wake ;; ret (rx_diff (zlen T - Z.of_nat len))
     else ret (Z.of_nat j)) s = Ret (zlen T - Z.of_nat len) s' /\
    popping len (length T - len) (T ++ k) s' /\ rx_ran k s s'.
Proof.
  intros Hp. pose proof (po_le _ _ _ _ Hp) as Hle. pose proof (po_len _ _ _ _ Hp) as Hlen.
  pose proof (rx_ok_len _ (po_ok _ _ _ _ Hp)). unfold zlen in *. rewrite rx_diff_law by lia.
  unfold z2b. destruct (Z.eqb_spec (Z.of_nat (length T) - Z.of_nat len) 0) as [Hz|Hz]; cbn [negb].
  - exists [], s. rewrite app_nil_r. replace (length T - len)%nat with j by lia.
    split; [unfold ret; f_equal; lia|]. split; [done|apply rx_ran_refl].
  - rewrite (proj2 (Z.ltb_ge _ _)) by lia.
    destruct (memmove_run (length T - len - j) len j T s Hp) as (k & s2 & E2 & Hp2 & Hs2); [lia|].
    rewrite Nat2Z.inj_add in E2.
    replace (Z.to_nat (Z.of_nat (length T) - Z.of_nat len - Z.of_nat j)) with (length T - len - j)%nat by lia.
    rewrite (bind_Ret _ _ _ _ _ E2).
    replace (j + (length T - len - j))%nat with (length T - len)%nat in Hp2 by lia.
    destruct Hp2 as [Hok2 L2 Le2 M2 R2]. destruct (rx_wake_law s2 Hok2) as (s3 & E3 & Hok3 & Hb3 & Hp3 & Hr3).
    rewrite (bind_Ret _ _ _ _ _ E3). exists k, s3. split; [reflexivity|]. split.
    + split; rewrite ?Hb3, ?Hp3; done.
    + rewrite <- (app_nil_r k). by apply rx_ran_trans with s2.
Qed.

Lemma pop_loop_run fuel len j T s :
  popping len j T s -> (192 - length T < fuel)%nat ->
  exists k s1 s', pop_loop fuel (Z.of_nat len) (Z.of_nat j) s = Ret tt s' /\ rx_ok s' /\
    rx_held s' = drop len (T ++ k) /\ rx_ran k s s1 /\ s' = rx_set_pos (zlen (T ++ k) - Z.of_nat len) s1.
Proof.
  revert j T s. induction fuel as [|fuel IH]; intros j T s Hp Hf; [lia|]. cbn [pop_loop].
  destruct (popping_irq _ _ _ _ Hp) as (k1 & s1 & E1 & Hp1 & Hr1). rewrite (bind_Ret _ _ _ _ _ E1).
  unfold gets at 1. unfold bind at 1. rewrite (po_len _ _ _ _ Hp1). cbv zeta.
  destruct (rx_move_run _ _ _ _ Hp1) as (k2 & s2 & E2 & Hp2 & Hr2). rewrite (bind_Ret _ _ _ _ _ E2).
  destruct (popping_irq _ _ _ _ Hp2) as (k3 & s3 & E3 & Hp3 & Hr3). rewrite (bind_Ret _ _ _ _ _ E3).
  unfold gets, bind. pose proof (po_len _ _ _ _ Hp3) as Hpos. rewrite Hpos.
  pose proof (po_le _ _ _ _ Hp1) as Hle. pose proof (rx_ok_len _ (po_ok _ _ _ _ Hp3)) as [_ Hp192].
  assert (Hran : rx_ran (k1 ++ k2 ++ k3) s s3) by (eapply rx_ran_trans; [exact Hr1|by eapply rx_ran_trans]).
  rewrite (zlen_app ((T ++ k1) ++ k2)), (zlen_app (T ++ k1)) in *. unfold zlen in *.
  destruct (Z.eqb_spec (Z.of_nat (length (T ++ k1)))
    (Z.of_nat (length (T ++ k1)) + Z.of_nat (length k2) + Z.of_nat (length k3))) as [Eq|Hne]; cbn [negb].
  - destruct k2; [|cbn in Eq; lia]. destruct k3; [|cbn in Eq; lia]. rewrite !app_nil_r in *.
    destruct (popping_done len (T ++ k1) s3 Hp3) as [Hok Hc]. rewrite rx_diff_law by lia.
    replace (Z.of_nat (length (T ++ k1)) - Z.of_nat len) with (Z.of_nat (length (T ++ k1) - len)) by lia.
    exists k1, s3. eexists. split; [reflexivity|]. split; [exact Hok|]. split; [exact Hc|]. split; [done|].
    f_equal. lia.
  - replace (Z.of_nat (length (T ++ k1)) - Z.of_nat len) with (Z.of_nat (length (T ++ k1) - len)) by lia.
    destruct (IH _ _ _ Hp3) as (k4 & s4 & s' & E & Hok & Hc & Hst & Es); [rewrite !length_app in *; lia|].
    exists ((k1 ++ k2 ++ k3) ++ k4), s4, s'. split; [exact E|]. split; [done|].
    rewrite <- !app_assoc in *. split; [exact Hc|]. split; [|exact Es]. rewrite !app_assoc in *.
    by eapply rx_ran_trans.
Qed.

(** The removal ends, and the buffer holds the old content and what was appended
    meanwhile, without the [len] bytes at the front. *)
Lemma rx_pop_input_run len s :
  rx_ok s -> 0 <= len <= rx_pos s ->
  exists k s1 s', rx_pop_input len s = Ret tt s' /\ rx_ok s' /\
    rx_held s' = dropZ len (rx_held s ++ k) /\ rx_ran k s s1 /\
    s' = rx_set_pos (zlen (rx_held s ++ k) - len) s1.
Proof.
  intros Hok Hlen. pose proof (rx_ok_len s Hok). pose proof (length_held s Hok) as Hl.
  destruct (pop_loop_run (Datatypes.S (Z.to_nat RX_SIZE)) (Z.to_nat len) 0 (rx_held s) s)
    as (k & s1 & s' & E & Hok' & Hc & Hr & Es).
  - split; [done|unfold zlen; lia|lia|lia|]. intros p Hp. by rewrite held_lookup by lia.
  - unfold RX_SIZE. lia.
  - rewrite Z2Nat.id in E, Es by lia. by exists k, s1, s'.
Qed.
End popping.
