(* ===== verification/SerialIrq.v ===== *)
(** * The serial console of the firmware (src/generic/serial_irq.c)

    The receive buffer is filled and the transmit buffer is emptied by interrupts.  [irq]
    stands for a point at which interrupts may run: an oracle in the state lists, for each
    such point, the bytes that arrive and the number of bytes the transmitter asks for, so
    that a statement for all oracles is a statement for all interleavings.  The interrupt
    that finds nothing to transmit disables itself, as on every board. *)

From S2P Require Import Prelude Wire Command Rxbuf.

Definition RX_BUFFER_SIZE : Z := 192.
Definition TX_BUFFER_SIZE : Z := 96.

(** [ss_uart]: the bytes handed to the transmitter.  [ss_wakes]: calls of
    [sched_wake_tasks]. *)
Record serial_state := mk_ss {
  receive_buf : list Z; receive_pos : Z;
  transmit_buf : list Z; transmit_pos : Z; transmit_max : Z;
  ss_tx_irq : bool; ss_uart : list Z; ss_irqs : list (list Z * nat); ss_wakes : Z }.
#[export] Instance eta_ss : Settable serial_state := fun s =>
  mk_ss (receive_buf s) (receive_pos s) (transmit_buf s) (transmit_pos s) (transmit_max s)
    (ss_tx_irq s) (ss_uart s) (ss_irqs s) (ss_wakes s).

Definition serial_init (irqs : list (list Z * nat)) : serial_state :=
  mk_ss (replicate 192 0) 0 (replicate 96 0) 0 0 false [] irqs 0.

(** ** Interrupt handlers *)

Notation MS := (M serial_state).

Definition sched_wake_tasks : MS unit := modify (fun s => s <| ss_wakes ::= Z.succ |>).

Definition serial_rx_byte (data : Z) : MS unit :=
  when (data =? MESSAGE_SYNC) sched_wake_tasks ;;
  pos <- gets receive_pos ;;
  if RX_BUFFER_SIZE <=? pos then ret tt
  else modify (fun s => s <| receive_buf ::= <[Z.to_nat pos := data]> |>
                          <| receive_pos := u8 (pos + 1) |>).

(** [None] is the return value -1. *)
Definition serial_get_tx_byte : MS (option Z) :=
  pos <- gets transmit_pos ;;
  max <- gets transmit_max ;;
  if max <=? pos then ret None
  else
    buf <- gets transmit_buf ;;
    data <- deref (buf !! Z.to_nat pos) ;;
    modify (fun s => s <| transmit_pos := u8 (pos + 1) |>) ;;
    ret (Some data).

Definition serial_enable_tx_irq : MS unit := modify (fun s => s <| ss_tx_irq := true |>).

(** The transmit interrupt of a board, [n] times. *)
Fixpoint tx_irqs (n : nat) : MS unit :=
  match n with
  | O => ret tt
  | S n =>
      enabled <- gets ss_tx_irq ;;
      if enabled : bool then
        data <- serial_get_tx_byte ;;
        match data with
        | Some d => modify (fun s => s <| ss_uart ::= fun l => l ++ [d] |>)
        | None => modify (fun s => s <| ss_tx_irq := false |>)
        end ;;
        tx_irqs n
      else ret tt
  end.

Fixpoint rx_irqs (data : list Z) : MS unit :=
  match data with
  | [] => ret tt
  | d :: data => serial_rx_byte d ;; rx_irqs data
  end.

Definition irq : MS unit :=
  l <- gets ss_irqs ;;
  match l with
  | [] => ret tt
  | (data, n) :: l =>
      modify (fun s => s <| ss_irqs := l |>) ;; rx_irqs data ;; tx_irqs n
  end.

(** ** The receive buffer *)

(** [console_pop_input] is the removal of [Rxbuf]; [rpos - len] is a [uint_fast8_t]. *)
#[export] Instance serial_rx : RxBuf serial_state := {
  rx_buf := receive_buf;
  rx_pos := receive_pos;
  rx_put i d s := s <| receive_buf ::= <[i := d]> |>;
  rx_set_pos p s := s <| receive_pos := p |>;
  rx_irq := irq;
  rx_wake := sched_wake_tasks;
  rx_diff := u8 }.

Definition console_pop_input (len : Z) : MS unit := rx_pop_input len.

(** ** Transmission *)

(** [memmove(&transmit_buf[0], &transmit_buf[src], n)]. *)
Definition tx_memmove (src n : Z) : MS unit :=
  buf <- gets transmit_buf ;;
  if (src <? 0) || (n <? 0) || (zlen buf <? src + n) then stuck
  else modify (fun s => s <| transmit_buf := takeZ n (dropZ src buf) ++ dropZ n buf |>).

(** The checks and the move at the start of [console_sendf]; the position for the message, or
    [None] when there is not enough space. *)
Definition sendf_space (max_size : Z) : MS (option Z) :=
  irq ;; tpos <- gets transmit_pos ;;
  irq ;; tmax <- gets transmit_max ;;
  '(tpos, tmax) <-
    (if tmax <=? tpos then
       irq ;; modify (fun s => s <| transmit_max := 0 |>) ;;
       irq ;; modify (fun s => s <| transmit_pos := 0 |>) ;;
       ret (0, 0)
     else ret (tpos, tmax)) ;;
  if TX_BUFFER_SIZE <? tmax + max_size then
    if TX_BUFFER_SIZE <? tmax + max_size - tpos then ret None
    else
      irq ;; modify (fun s => s <| transmit_max := 0 |>) ;;
      irq ;; tpos <- gets transmit_pos ;;
      let tmax := u8 (tmax - tpos) in
      irq ;; tx_memmove tpos tmax ;;
      irq ;; modify (fun s => s <| transmit_pos := 0 |>) ;;
      irq ;; modify (fun s => s <| transmit_max := tmax |>) ;;
      serial_enable_tx_irq ;;
      ret (Some tmax)
  else ret (Some tmax).

(** The encoded message is stored at [tmax]; a store past the end of the buffer is stuck. *)
Definition sendf_store (tmax msglen : Z) (block : list Z) : MS unit :=
  buf <- gets transmit_buf ;;
  if zlen buf <? tmax + zlen block then stuck
  else
    modify (fun s => s <| transmit_buf :=
      takeZ tmax buf ++ block ++ dropZ (tmax + zlen block) buf |>) ;;
    irq ;;
    modify (fun s => s <| transmit_max := u8 (tmax + msglen) |>) ;;
    serial_enable_tx_irq.

Section console.
Context {W : Type} {PC : Part W cmd_state} {PS : Part W serial_state}.

(** [sizeof_int]: the size of [int], for the variable arguments. *)
Definition console_sendf (sizeof_int : Z) (ce : command_encoder) (args : list va_arg) : M W unit :=
  space <- zoom (sendf_space (ce_max_size ce)) ;;
  match space with
  | None => ret tt
  | Some tmax =>
      '(msglen, block) <- command_encode_and_frame sizeof_int ce args ;;
      zoom (sendf_store tmax msglen block)
  end.

(** ** The task *)

(** The bytes of [" \x1c Request Serial Bootloader!! ~"]. *)
Definition bootloader_magic : list Z :=
  [32; 28; 32; 82; 101; 113; 117; 101; 115; 116; 32; 83; 101; 114; 105; 97; 108; 32; 66; 111;
   111; 116; 108; 111; 97; 100; 101; 114; 33; 33; 32; 126].

Context {CE : CommandEnv W}.
(** [CONFIG_SERIAL_BOOTLOADER_SIDECHANNEL], and the function of the board. *)
Context (sidechannel : bool) (bootloader_request : M W unit).

Definition console_task : M W unit :=
  zoom irq ;;
  s <- gets (fun w => part_get w : serial_state) ;;
  let buf := takeZ (receive_pos s) (receive_buf s) in
  '(r, pop_count) <- command_find_block buf ;;
  when (0 <? r) (command_dispatch buf pop_count) ;;
  if r =? 0 then ret tt
  else
    when (sidechannel && (r <? 0) && (pop_count =? 32)
          && bool_decide (takeZ 32 (receive_buf s) = bootloader_magic)) bootloader_request ;;
    zoom (console_pop_input pop_count) ;;
    when (0 <? r) command_send_ack.
End console.
