(* ===== verification/SerialIrqFacts.v ===== *)
(** * The serial console keeps both streams (src/generic/serial_irq.c)

    For every interleaving with the interrupts: removing a block from the receive buffer loses
    no byte that arrives meanwhile, and messages leave the transmit buffer whole and in
    order. *)

From S2P Require Import Prelude Wire Command Rxbuf SerialIrq.

(** ** States *)

Record serial_ok (s : serial_state) : Prop := {
  so_rxlen : length (receive_buf s) = 192%nat;
  so_rxpos : 0 <= receive_pos s <= 192;
  so_txlen : length (transmit_buf s) = 96%nat;
  so_txpos : 0 <= transmit_pos s <= 96;
  so_txmax : 0 <= transmit_max s <= 96;
}.

(** The bytes received and not yet removed, and those not yet transmitted. *)
Definition rx_content (s : serial_state) : list Z := takeZ (receive_pos s) (receive_buf s).
Definition pending (s : serial_state) : list Z :=
  takeZ (transmit_max s - transmit_pos s) (dropZ (transmit_pos s) (transmit_buf s)).
Definition tx_stream (s : serial_state) : list Z := ss_uart s ++ pending s.

(** The bytes that will arrive. *)
Definition arrivals (s : serial_state) : list Z := concat (map fst (ss_irqs s)).

(** Bytes arriving at a buffer with content [c]: what exceeds its size is lost. *)
Definition fill (c arr : list Z) : list Z := c ++ take (192 - length c) arr.

Lemma fill_nil c : fill c [] = c.
Proof. unfold fill. rewrite take_nil. apply app_nil_r. Qed.

Lemma fill_app c a b : fill (fill c a) b = fill c (a ++ b).
Proof.
  unfold fill. rewrite <- app_assoc, take_app, length_app, length_take. do 3 f_equal. lia.
Qed.

Lemma length_fill c arr : (length c <= length (fill c arr))%nat.
Proof. unfold fill. rewrite length_app. lia. Qed.

Lemma length_content s : serial_ok s -> length (rx_content s) = Z.to_nat (receive_pos s).
Proof. intros [Hl Hp _ _ _]. unfold rx_content, takeZ. rewrite length_take. lia. Qed.

(** ** Interrupts *)

(** The fields of each direction. *)
Definition rx_view (s : serial_state) := (receive_buf s, receive_pos s).
Definition tx_view (s : serial_state) := (transmit_buf s, transmit_pos s, transmit_max s, ss_uart s, ss_tx_irq s).

Lemma rx_byte_run d s : serial_ok s ->
  exists s', serial_rx_byte d s = Ret tt s' /\ serial_ok s' /\ rx_content s' = fill (rx_content s) [d] /\
    tx_view s' = tx_view s /\ ss_irqs s' = ss_irqs s.
Proof.
  intros Hok. pose proof Hok as [Hl Hp Ht1 Ht2 Ht3].
  assert (Hlc := length_content s Hok).
  unfold serial_rx_byte, sched_wake_tasks, gets, modify, when, bind, ret, RX_BUFFER_SIZE.
  assert (Hend : forall s1, rx_view s1 = rx_view s -> tx_view s1 = tx_view s -> ss_irqs s1 = ss_irqs s ->
    exists s', (if 192 <=? receive_pos s1 then Ret tt s1
      else Ret tt (s1 <| receive_buf ::= <[Z.to_nat (receive_pos s1) := d]> |>
                      <| receive_pos := u8 (receive_pos s1 + 1) |>)) = Ret tt s' /\
      serial_ok s' /\ rx_content s' = fill (rx_content s) [d] /\
      tx_view s' = tx_view s /\ ss_irqs s' = ss_irqs s).
  { intros s1 Er Et Ei. unfold rx_view, tx_view in *. injection Er as Er1 Er2. injection Et as Et1 Et2 Et3 Et4 Et5.
    rewrite Er2. destruct (Z.leb_spec 192 (receive_pos s)) as [Hfull|Hfree].
    - exists s1. split; [done|]. split; [split; congruence|]. split; [|split; congruence].
      unfold fill. rewrite Hlc. replace (192 - Z.to_nat (receive_pos s))%nat with 0%nat by lia.
      rewrite app_nil_r. unfold rx_content. congruence.
    - eexists. split; [reflexivity|]. rewrite u8_small by lia.
      split; [split; cbn; rewrite ?length_insert, ?Er1, ?Et1, ?Et2, ?Et3; (done || lia)|].
      split; [|split; cbn; congruence]. unfold fill. rewrite Hlc.
      destruct (192 - Z.to_nat (receive_pos s))%nat eqn:E; [lia|]. rewrite firstn_cons, firstn_nil.
      unfold rx_content, takeZ. cbn. rewrite Er1.
      replace (Z.to_nat (receive_pos s + 1)) with (S (Z.to_nat (receive_pos s))) by lia.
      rewrite (take_S_r _ _ d) by (apply list_lookup_insert_eq; lia).
      f_equal. by rewrite take_insert_ge by lia. }
  destruct (d =? MESSAGE_SYNC);
    [destruct (Hend (s <| ss_wakes ::= Z.succ |>)) as (s' & E & Hs); [done..|]
    |destruct (Hend s) as (s' & E & Hs); [done..|]];
    exists s'; (split; [rewrite <- E; by destruct (192 <=? _)|exact Hs]).
Qed.

(** The received bytes are stored, as long as there is space. *)
Lemma rx_irqs_run data s : serial_ok s ->
  exists s', rx_irqs data s = Ret tt s' /\ serial_ok s' /\ rx_content s' = fill (rx_content s) data /\
    tx_view s' = tx_view s /\ ss_irqs s' = ss_irqs s.
Proof.
  revert s. induction data as [|d data IH]; intros s Hok; cbn [rx_irqs].
  { exists s. by rewrite fill_nil. }
  destruct (rx_byte_run d s Hok) as (s1 & E1 & Hok1 & Ec1 & Et1 & Ei1). rewrite (bind_Ret _ _ _ _ _ E1).
  destruct (IH s1 Hok1) as (s' & E & Hok' & Ec & Et & Ei). exists s'.
  split; [done|]. split; [done|]. split; [|split; congruence]. by rewrite Ec, Ec1, fill_app.
Qed.

Lemma pending_cons s d :
  serial_ok s -> transmit_pos s < transmit_max s ->
  transmit_buf s !! Z.to_nat (transmit_pos s) = Some d ->
  pending s = d :: pending (s <| transmit_pos := transmit_pos s + 1 |>).
Proof.
  intros [_ _ Hl Hp Hm] Hlt Hd. unfold pending. cbn. unfold takeZ, dropZ. rewrite (drop_S _ _ _ Hd).
  replace (Z.to_nat (transmit_max s - transmit_pos s))
    with (S (Z.to_nat (transmit_max s - (transmit_pos s + 1)))) by lia.
  rewrite firstn_cons. do 2 f_equal. f_equal. lia.
Qed.

(** What the transmit interrupt may do. *)
Record tx_ran (s s' : serial_state) : Prop := {
  tr_ok : serial_ok s';
  tr_rx : rx_view s' = rx_view s;
  tr_irqs : ss_irqs s' = ss_irqs s;
  tr_buf : transmit_buf s' = transmit_buf s;
  tr_max : transmit_max s' = transmit_max s;
  tr_pos : transmit_pos s <= transmit_pos s' <= Z.max (transmit_pos s) (transmit_max s);
  tr_stream : tx_stream s' = tx_stream s;
  tr_enabled : transmit_pos s' < transmit_max s' -> ss_tx_irq s = true -> ss_tx_irq s' = true;
}.

Lemma tx_irqs_run n s : serial_ok s -> exists s', tx_irqs n s = Ret tt s' /\ tx_ran s s'.
Proof.
  revert s. induction n as [|n IH]; intros s Hok; cbn [tx_irqs].
  { exists s. split; [done|]. split; (done || lia). }
  assert (Hsame : exists s', ret tt s = Ret tt s' /\ tx_ran s s').
  { exists s. split; [done|]. split; (done || lia). }
  pose proof Hok as [Hl1 Hp1 Hl Hp Hm]. unfold gets at 1. unfold bind at 1.
  destruct (ss_tx_irq s) eqn:Een; [|exact Hsame].
  unfold serial_get_tx_byte, gets, modify, bind, ret, deref.
  destruct (Z.leb_spec (transmit_max s) (transmit_pos s)) as [Hge|Hlt].
  - destruct (IH (s <| ss_tx_irq := false |>)) as (s' & E & Hs); [by split|].
    exists s'. split; [exact E|]. destruct Hs as [Hok' Hrx Hi Hb Hmx Hps Hst Hen]. cbn in *.
    split; try done. lia.
  - destruct (lookup_lt_is_Some_2 (transmit_buf s) (Z.to_nat (transmit_pos s))) as [d Hd]; [lia|].
    rewrite Hd, u8_small by lia.
    set (s1 := s <| transmit_pos := transmit_pos s + 1 |> <| ss_uart ::= fun l => l ++ [d] |>).
    assert (Hok1 : serial_ok s1) by (split; cbn; (done || lia)).
    destruct (IH s1 Hok1) as (s' & E & [Hok' Hrx Hi Hb Hmx Hps Hst Hen]).
    exists s'. split; [exact E|]. split; try done.
    + cbn in Hps. lia.
    + rewrite Hst. unfold tx_stream. rewrite (pending_cons s d) by done. cbn. by rewrite <- app_assoc.
Qed.

(** An interruption: the bytes [arr] arrive. *)
Record irq_ran (arr : list Z) (s s' : serial_state) : Prop := {
  ir_ok : serial_ok s';
  ir_rx : rx_content s' = fill (rx_content s) arr;
  ir_arr : arrivals s = arr ++ arrivals s';
  ir_buf : transmit_buf s' = transmit_buf s;
  ir_max : transmit_max s' = transmit_max s;
  ir_pos : transmit_pos s <= transmit_pos s' <= Z.max (transmit_pos s) (transmit_max s);
  ir_stream : tx_stream s' = tx_stream s;
  ir_enabled : transmit_pos s' < transmit_max s' -> ss_tx_irq s = true -> ss_tx_irq s' = true;
}.

Lemma irq_run s : serial_ok s -> exists arr s', irq s = Ret tt s' /\ irq_ran arr s s'.
Proof.
  intros Hok. unfold irq, gets. unfold bind at 1. destruct (ss_irqs s) as [|[data n] l] eqn:Ei.
  { exists [], s. split; [done|]. split; rewrite ?fill_nil; (done || lia). }
  unfold modify. unfold bind at 1. set (s1 := s <| ss_irqs := l |>).
  assert (Hok1 : serial_ok s1) by (by destruct Hok).
  destruct (rx_irqs_run data s1 Hok1) as (s2 & E2 & Hok2 & Ec2 & Et2 & Ei2). rewrite (bind_Ret _ _ _ _ _ E2).
  destruct (tx_irqs_run n s2 Hok2) as (s' & E & [Hok' Hrx Hi Hb Hmx Hps Hst Hen]).
  unfold tx_view, rx_view in *. injection Et2 as T1 T2 T3 T4 T5. injection Hrx as R1 R2. cbn in T1, T2, T3, T4, T5.
  exists data, s'. split; [exact E|]. split.
  - done.
  - transitivity (rx_content s2); [unfold rx_content; congruence|exact Ec2].
  - unfold arrivals. rewrite Hi, Ei2, Ei. reflexivity.
  - congruence.
  - congruence.
  - lia.
  - rewrite Hst. unfold tx_stream, pending. congruence.
  - intros Hlt Hen0. apply Hen; [done|congruence].
Qed.

(** ** The receive buffer *)

(** The console keeps the promise of a receive buffer: the appended bytes are the arriving
    ones as far as they fit, and transmission is not disturbed. *)
Definition serial_ran (k : list Z) (s s' : serial_state) : Prop :=
  exists arr, k = take (Z.to_nat (192 - receive_pos s)) arr /\ receive_pos s' = receive_pos s + zlen k /\
    arrivals s = arr ++ arrivals s' /\ tx_stream s' = tx_stream s.

Lemma serial_ran_trans a b s1 s2 s3 :
  serial_ran a s1 s2 -> serial_ran b s2 s3 -> serial_ran (a ++ b) s1 s3.
Proof.
  intros (x & Ea & Hp & Hx & Ht) (y & Eb & Hp' & Hy & Ht'). exists (x ++ y). split; [|split; [|split]].
  - rewrite Ea, Eb, take_app, Hp, Ea. unfold zlen. rewrite length_take. do 2 f_equal. lia.
  - rewrite zlen_app. lia.
  - by rewrite Hx, Hy, app_assoc.
  - congruence.
Qed.

Lemma serial_irq_law s :
  serial_ok s -> exists k s', irq s = Ret tt s' /\ serial_ok s' /\
    rx_content s' = rx_content s ++ k /\ serial_ran k s s'.
Proof.
  intros Hok. destruct (irq_run s Hok) as (arr & s' & E & [Hok' Hrx Harr _ _ _ Hst _]).
  pose proof (length_content s Hok) as Hl. pose proof (length_content s' Hok') as Hl'.
  pose proof (so_rxpos _ Hok). pose proof (so_rxpos _ Hok').
  exists (take (192 - length (rx_content s)) arr), s'. split; [done|]. split; [done|]. split; [exact Hrx|].
  exists arr. rewrite Hl. split; [f_equal; lia|]. split; [|done].
  rewrite Hrx in Hl'. unfold fill in Hl'. rewrite length_app, Hl in Hl'. unfold zlen. lia.
Qed.

#[export, program] Instance serial_rx_laws : RxLaws serial_state := {
  rx_ok := serial_ok; rx_ran := serial_ran }.
Next Obligation. intros s [? ? _ _ _]. done. Qed.
Next Obligation.
  intros s. exists []. rewrite take_nil. unfold zlen. cbn. split; [done|]. split; [lia|done].
Qed.
Next Obligation. exact serial_ran_trans. Qed.
Next Obligation. exact serial_irq_law. Qed.
Next Obligation.
  intros s i d [H1 H2 H3 H4 H5]. split; [split; cbn; rewrite ?length_insert; done|].
  split; [done|]. split; [done|]. exists []. rewrite take_nil. unfold zlen. cbn. split; [done|]. split; [lia|done].
Qed.
Next Obligation.
  intros s [H1 H2 H3 H4 H5]. eexists. split; [reflexivity|]. split; [by split|]. split; [done|]. split; [done|].
  exists []. rewrite take_nil. unfold zlen. cbn. split; [done|]. split; [lia|done].
Qed.
Next Obligation. intros s p [H1 H2 H3 H4 H5] Hp. by split; [split|]. Qed.
Next Obligation. intros z Hz. apply u8_small. lia. Qed.

(** C10: removing a block from the receive buffer is correct under every interleaving with the
    receive interrupt: [console_pop_input] terminates, and afterwards the buffer holds the old
    content and the bytes that arrived meanwhile (as far as they fit), without the [len]
    bytes at the front; nothing is lost, repeated or reordered, and the transmitted stream
    is not disturbed. *)
Theorem pop_input_keeps_stream len s :
  serial_ok s -> 0 <= len <= receive_pos s ->
  exists arr s', console_pop_input len s = Ret tt s' /\ serial_ok s' /\
    arrivals s = arr ++ arrivals s' /\
    rx_content s' = dropZ len (rx_content s ++ take (Z.to_nat (RX_BUFFER_SIZE - receive_pos s)) arr) /\
    tx_stream s' = tx_stream s.
Proof.
  intros Hok Hlen. destruct (@rx_pop_input_run _ serial_rx serial_rx_laws len s Hok Hlen)
    as (k & s1 & s' & E & Hok' & Hc & (arr & -> & _ & Ha & Ht) & ->).
  exists arr. eexists. split; [exact E|]. split; [exact Hok'|]. split; [exact Ha|]. split; [exact Hc|exact Ht].
Qed.

(** ** The transmit buffer *)

(** What [console_sendf] sees: [irq_ran] without the receive buffer. *)
Lemma irq_tx s : serial_ok s -> exists s', irq s = Ret tt s' /\ serial_ok s' /\
  transmit_buf s' = transmit_buf s /\ transmit_max s' = transmit_max s /\
  transmit_pos s <= transmit_pos s' <= Z.max (transmit_pos s) (transmit_max s) /\
  tx_stream s' = tx_stream s.
Proof.
  intros Hok. destruct (irq_run s Hok) as (arr & s' & E & [H1 _ _ H4 H5 H6 H7 _]). by exists s'.
Qed.

(** While [transmit_max] is zero nothing is transmitted. *)
Lemma irq_masked s : serial_ok s -> transmit_max s = 0 -> exists s', irq s = Ret tt s' /\ serial_ok s' /\
  transmit_buf s' = transmit_buf s /\ transmit_max s' = 0 /\ transmit_pos s' = transmit_pos s /\
  ss_uart s' = ss_uart s.
Proof.
  intros Hok Hm. destruct (irq_tx s Hok) as (s' & E & Hok' & Hb & Hm' & Hp & Hs).
  pose proof (so_txpos _ Hok). rewrite Hm in *. assert (Ep : transmit_pos s' = transmit_pos s) by lia.
  exists s'. do 4 (split; [done|]). split; [done|]. unfold tx_stream, pending in Hs. rewrite Hm, Hm', Ep, Hb in Hs.
  by apply app_inv_tail in Hs.
Qed.

Lemma pending_empty s : transmit_max s <= transmit_pos s -> pending s = [].
Proof. intros Hle. unfold pending, takeZ. replace (Z.to_nat (transmit_max s - transmit_pos s)) with 0%nat by lia. done. Qed.

Lemma length_pending s : serial_ok s -> zlen (pending s) = Z.max 0 (transmit_max s - transmit_pos s).
Proof.
  intros [_ _ Hl Hp Hm]. unfold pending, takeZ, dropZ, zlen. rewrite length_take, length_drop. lia.
Qed.

(** The move of the pending bytes to the start of the buffer. *)
Lemma move_run s :
  serial_ok s -> transmit_max s = 0 -> forall tmax, 0 <= transmit_pos s <= tmax -> tmax <= 96 ->
  let n := tmax - transmit_pos s in
  exists s', (irq ;; tpos <- gets transmit_pos ;;
      let tmax := u8 (tmax - tpos) in
      irq ;; tx_memmove tpos tmax ;;
      irq ;; modify (fun s => s <| transmit_pos := 0 |>) ;;
      irq ;; modify (fun s => s <| transmit_max := tmax |>) ;;
      serial_enable_tx_irq ;;
      ret (Some tmax)) s = Ret (Some n) s' /\ serial_ok s' /\
    transmit_max s' = n /\ transmit_pos s' = 0 /\ ss_uart s' = ss_uart s /\
    pending s' = takeZ n (dropZ (transmit_pos s) (transmit_buf s)).
Proof.
  intros Hok Hm tmax Hp Ht n.
  destruct (irq_masked s Hok Hm) as (s1 & E1 & Hok1 & B1 & M1 & P1 & U1). rewrite (bind_Ret _ _ _ _ _ E1).
  unfold gets at 1. unfold bind at 1. rewrite P1. cbv zeta. rewrite u8_small by lia. fold n.
  destruct (irq_masked s1 Hok1 M1) as (s2 & E2 & Hok2 & B2 & M2 & P2 & U2). rewrite (bind_Ret _ _ _ _ _ E2).
  assert (Hmv : tx_memmove (transmit_pos s) n s2
    = Ret tt (s2 <| transmit_buf := takeZ n (dropZ (transmit_pos s) (transmit_buf s)) ++ dropZ n (transmit_buf s) |>)).
  { unfold tx_memmove, gets, bind. rewrite B2, B1. pose proof (so_txlen _ Hok).
    rewrite (proj2 (orb_false_iff _ _)); [done|]. unfold zlen.
    rewrite orb_false_iff, !Z.ltb_ge. unfold n. lia. }
  rewrite (bind_Ret _ _ _ _ _ Hmv). set (s3 := s2 <| transmit_buf := _ |>).
  pose proof (so_txlen _ Hok) as Hlen.
  assert (Hok3 : serial_ok s3).
  { destruct Hok2. split; cbn; try done. unfold takeZ, dropZ. rewrite length_app, length_take, !length_drop. lia. }
  destruct (irq_masked s3 Hok3 M2) as (s4 & E4 & Hok4 & B4 & M4 & P4 & U4). rewrite (bind_Ret _ _ _ _ _ E4).
  unfold modify at 1. unfold bind at 1. set (s5 := s4 <| transmit_pos := 0 |>).
  assert (Hok5 : serial_ok s5) by (destruct Hok4; split; cbn; (done || lia)).
  destruct (irq_masked s5 Hok5 M4) as (s6 & E6 & Hok6 & B6 & M6 & P6 & U6). rewrite (bind_Ret _ _ _ _ _ E6).
  eexists. split; [reflexivity|]. cbn.
  split; [destruct Hok6; split; cbn; (done || (unfold n; lia))|]. split; [done|]. split; [exact P6|].
  split; [rewrite U6; cbn; rewrite U4; cbn; congruence|].
  unfold pending. cbn. rewrite P6. cbn. rewrite Z.sub_0_r, B6. cbn. rewrite B4. cbn.
  unfold takeZ, dropZ. rewrite drop_0, take_app_le by (rewrite length_take, length_drop; unfold n; lia).
  rewrite take_take. f_equal. lia.
Qed.

(** Space for a message: the stream is as before. *)
Definition space_post (max_size : Z) (s : serial_state) (r : option Z) (s' : serial_state) : Prop :=
  serial_ok s' /\ transmit_pos s' <= transmit_max s' /\ tx_stream s' = tx_stream s /\
  match r with
  | Some tmax => transmit_max s' = tmax /\ tmax + max_size <= TX_BUFFER_SIZE
  | None => TX_BUFFER_SIZE < zlen (pending s) + max_size
  end.

(** The reset of an empty buffer. *)
Lemma reset_run s :
  serial_ok s -> transmit_max s <= transmit_pos s ->
  exists s', (irq ;; modify (fun s => s <| transmit_max := 0 |>) ;;
      irq ;; modify (fun s => s <| transmit_pos := 0 |>) ;; ret (0, 0)) s = Ret (0, 0) s' /\
    serial_ok s' /\ transmit_pos s' = 0 /\ transmit_max s' = 0 /\ tx_stream s' = tx_stream s.
Proof.
  intros Hok Hle. destruct (irq_tx s Hok) as (s1 & E1 & Hok1 & B1 & M1 & P1 & S1).
  rewrite (bind_Ret _ _ _ _ _ E1). unfold modify at 1. unfold bind at 1. set (s2 := s1 <| transmit_max := 0 |>).
  assert (Hok2 : serial_ok s2) by (destruct Hok1; split; cbn; (done || lia)).
  destruct (irq_masked s2 Hok2 eq_refl) as (s3 & E3 & Hok3 & B3 & M3 & P3 & U3). rewrite (bind_Ret _ _ _ _ _ E3).
  eexists. split; [reflexivity|]. split; [destruct Hok3; split; cbn; (done || lia)|].
  split; [done|]. split; [exact M3|]. rewrite <- S1. unfold tx_stream.
  rewrite pending_empty by (cbn; lia). rewrite (pending_empty s1) by lia. cbn. by rewrite U3.
Qed.

Lemma sendf_space_run max_size s :
  serial_ok s -> transmit_pos s <= transmit_max s -> 0 <= max_size <= 64 ->
  exists r s', sendf_space max_size s = Ret r s' /\ space_post max_size s r s'.
Proof.
  intros Hok Hle Hms. unfold sendf_space, TX_BUFFER_SIZE.
  destruct (irq_tx s Hok) as (s1 & E1 & Hok1 & B1 & M1 & P1 & S1). rewrite (bind_Ret _ _ _ _ _ E1).
  unfold gets at 1. unfold bind at 1.
  destruct (irq_tx s1 Hok1) as (s2 & E2 & Hok2 & B2 & M2 & P2 & S2). rewrite (bind_Ret _ _ _ _ _ E2).
  unfold gets at 1. unfold bind at 1. pose proof (length_pending s Hok) as Hpend.
  destruct (Z.leb_spec (transmit_max s2) (transmit_pos s1)) as [Hempty|Hfull].
  - destruct (reset_run s2 Hok2 ltac:(lia)) as (s3 & E3 & Hok3 & P3 & M3 & S3). rewrite (bind_Ret _ _ _ _ _ E3).
    rewrite (proj2 (Z.ltb_ge _ _)) by lia. eexists _, s3. split; [reflexivity|].
    split; [done|]. split; [lia|]. split; [congruence|]. unfold TX_BUFFER_SIZE. lia.
  - rewrite bind_ret_l.
    destruct (Z.ltb_spec 96 (transmit_max s2 + max_size)) as [Hno|Hroom].
    2: { eexists _, s2. split; [reflexivity|]. split; [done|]. split; [lia|]. split; [congruence|].
         unfold TX_BUFFER_SIZE. lia. }
    destruct (Z.ltb_spec 96 (transmit_max s2 + max_size - transmit_pos s1)) as [Hnone|Hmove].
    { eexists _, s2. split; [reflexivity|]. split; [done|]. split; [lia|]. split; [congruence|].
      unfold TX_BUFFER_SIZE. lia. }
    destruct (irq_tx s2 Hok2) as (s3 & E3 & Hok3 & B3 & M3 & P3 & S3). rewrite (bind_Ret _ _ _ _ _ E3).
    unfold modify at 1. unfold bind at 1. set (s4 := s3 <| transmit_max := 0 |>).
    assert (Hok4 : serial_ok s4) by (destruct Hok3; split; cbn; (done || lia)).
    pose proof (so_txpos _ Hok3). pose proof (so_txmax _ Hok2).
    destruct (move_run s4 Hok4 eq_refl (transmit_max s2)) as (s' & E & Hok' & M' & P' & U' & Pe'); [cbn; lia|lia|].
    eexists _, s'. split; [exact E|]. split; [done|]. cbn in M', Pe', U'. split; [lia|]. split.
    + transitivity (tx_stream s3); [|congruence]. unfold tx_stream. rewrite U', Pe', <- M3. reflexivity.
    + unfold TX_BUFFER_SIZE. split; [done|]. cbn. lia.
Qed.

(** A buffer with [block] at [tmax]. *)
Lemma stored_pending (b block rest : list Z) p tmax :
  0 <= p <= tmax -> tmax <= zlen b ->
  takeZ (tmax - p) (dropZ p (takeZ tmax b ++ block ++ rest)) = takeZ (tmax - p) (dropZ p b) /\
  takeZ (tmax + zlen block - p) (dropZ p (takeZ tmax b ++ block ++ rest)) = takeZ (tmax - p) (dropZ p b) ++ block.
Proof.
  intros Hp Hb. unfold takeZ, dropZ, zlen in *.
  rewrite drop_app_le by (rewrite length_take; lia). rewrite skipn_firstn_comm.
  replace (Z.to_nat tmax - Z.to_nat p)%nat with (Z.to_nat (tmax - p)) by lia.
  set (Y := take (Z.to_nat (tmax - p)) (drop (Z.to_nat p) b)).
  assert (HY : length Y = Z.to_nat (tmax - p)) by (unfold Y; rewrite length_take, length_drop; lia).
  split.
  - rewrite take_app_le by lia. apply take_ge. lia.
  - rewrite take_app_ge by lia. f_equal.
    replace (Z.to_nat (tmax + Z.of_nat (length block) - p) - length Y)%nat with (length block) by lia.
    apply take_app_length.
Qed.

(** The message joins the stream. *)
Lemma sendf_store_run tmax block s :
  serial_ok s -> transmit_pos s <= transmit_max s -> transmit_max s = tmax ->
  tmax + zlen block <= TX_BUFFER_SIZE ->
  exists s', sendf_store tmax (zlen block) block s = Ret tt s' /\ serial_ok s' /\
    transmit_pos s' <= transmit_max s' /\ tx_stream s' = tx_stream s ++ block /\ ss_tx_irq s' = true.
Proof.
  intros Hok Hle Hmax Hsz. unfold TX_BUFFER_SIZE in *. pose proof Hok as [_ _ Hl Hp Hm].
  unfold sendf_store, gets, modify. unfold bind at 1. pose proof (zlen_nonneg block).
  rewrite (proj2 (Z.ltb_ge _ _)) by (unfold zlen in *; lia). unfold bind at 1.
  set (rest := dropZ (tmax + zlen block) (transmit_buf s)).
  set (s1 := s <| transmit_buf := takeZ tmax (transmit_buf s) ++ block ++ rest |>).
  assert (Hlb : tmax <= zlen (transmit_buf s)) by (unfold zlen in *; lia).
  assert (Hok1 : serial_ok s1).
  { destruct Hok. split; cbn; try done. unfold rest, takeZ, dropZ, zlen in *.
    rewrite !length_app, length_take, length_drop. lia. }
  assert (S1 : tx_stream s1 = tx_stream s).
  { unfold tx_stream, pending. cbn. f_equal. rewrite Hmax. apply stored_pending; lia. }
  destruct (irq_tx s1 Hok1) as (s2 & E2 & Hok2 & B2 & M2 & P2 & S2). rewrite (bind_Ret _ _ _ _ _ E2).
  eexists. split; [reflexivity|]. cbn in M2, P2, B2. rewrite u8_small by lia. pose proof Hok2 as [_ _ _ Hp2 _].
  split; [destruct Hok2; split; cbn; (done || lia)|]. split; [cbn; lia|]. split; [|done].
  rewrite <- S1, <- S2. unfold tx_stream, pending. cbn. rewrite <- app_assoc. f_equal. rewrite B2.
  destruct (stored_pending (transmit_buf s) block rest (transmit_pos s2) tmax) as [E1 E3]; [lia|done|].
  rewrite E3, M2, Hmax, E1. done.
Qed.

(** ** Messages *)

Section console.
Context {W : Type} {PC : Part W cmd_state} {PS : Part W serial_state}.
Notation ser w := (part_get w : serial_state).
Notation cmd w := (part_get w : cmd_state).

(** The parser and the console are different parts of the world. *)
Context (disjoint : forall (s : serial_state) (w : W), cmd (part_set s w) = cmd w).

Lemma zoom_serial {A} (m : MS A) (w : W) a s : m (ser w) = Ret a s -> zoom m w = Ret a (part_set s w).
Proof. intros E. unfold zoom. by rewrite E. Qed.

Lemma zlen_add_frame seq len content :
  len = MESSAGE_MIN + zlen content -> zlen (command_add_frame seq len content) = len.
Proof.
  intros ->. unfold command_add_frame. rewrite !zlen_app, !zlen_cons. change (zlen [_; _; _]) with 3.
  unfold MESSAGE_MIN. change (zlen (@nil Z)) with 0. lia.
Qed.

(** C11: messages of the firmware leave the console whole and in order, under every
    interleaving with the transmit interrupt: [console_sendf] either appends the complete
    block to the stream (bytes transmitted, followed by bytes waiting), with the interrupt
    enabled, or drops it when the waiting bytes leave no space for the largest message of
    its kind; bytes that were waiting, also those moved inside the buffer, are never lost,
    repeated or changed. *)
Theorem console_sendf_keeps_stream sizeof_int ce args len content (w : W) :
  serial_ok (ser w) -> transmit_pos (ser w) <= transmit_max (ser w) ->
  (forall w1 : W, command_encodef sizeof_int ce args w1 = Ret (len, content) w1) ->
  len = MESSAGE_MIN + zlen content -> len <= ce_max_size ce <= MESSAGE_MAX ->
  exists w', console_sendf sizeof_int ce args w = Ret tt w' /\ cmd w' = cmd w /\
    serial_ok (ser w') /\ transmit_pos (ser w') <= transmit_max (ser w') /\
    (tx_stream (ser w') = tx_stream (ser w) ++ command_add_frame (next_sequence (cmd w)) len content /\
     ss_tx_irq (ser w') = true \/
     tx_stream (ser w') = tx_stream (ser w) /\ TX_BUFFER_SIZE < zlen (pending (ser w)) + ce_max_size ce).
Proof using disjoint.
  intros Hok Hle Henc Hlen Hmax. unfold MESSAGE_MAX in *. pose proof (zlen_nonneg content).
  destruct (sendf_space_run (ce_max_size ce) (ser w) Hok Hle) as (r & s1 & E1 & Hok1 & Hle1 & S1 & Hr);
    [unfold MESSAGE_MIN in *; lia|].
  unfold console_sendf. rewrite (bind_Ret _ _ _ _ _ (zoom_serial _ _ _ _ E1)).
  destruct r as [tmax|].
  2: { exists (part_set s1 w). rewrite !part_get_set. split; [done|]. split; [apply disjoint|]. auto. }
  destruct Hr as [Hm Hsz]. set (block := command_add_frame (next_sequence (cmd w)) len content).
  assert (Ef : command_encode_and_frame sizeof_int ce args (part_set s1 w) = Ret (len, block) (part_set s1 w)).
  { unfold command_encode_and_frame. rewrite (bind_Ret _ _ _ _ _ (Henc _)).
    unfold cmd_gets, gets, bind, ret. by rewrite disjoint. }
  rewrite (bind_Ret _ _ _ _ _ Ef). assert (Hz : zlen block = len) by by apply zlen_add_frame. rewrite <- Hz.
  destruct (sendf_store_run tmax block s1 Hok1 Hle1 Hm) as (s2 & E2 & Hok2 & Hle2 & S2 & En2); [lia|].
  exists (part_set s2 (part_set s1 w)). rewrite !part_get_set, !disjoint.
  split; [apply zoom_serial; by rewrite part_get_set|]. split; [done|]. split; [done|]. split; [done|].
  left. rewrite S2, S1. done.
Qed.
End console.

(** ** Instances of the properties *)

(** Eight bytes are in the buffer; three more arrive while the first five are removed, and
    one after that. *)
Definition demo_rx : serial_state :=
  serial_init [([9], 0%nat); ([10; 11], 1%nat); ([12], 0%nat)]
  <| receive_buf := [1; 2; 3; 4; 5; 6; 7; 8] ++ replicate 184 0 |> <| receive_pos := 8 |>.

Lemma demo_rx_ok : serial_ok demo_rx.
Proof. split; vm_compute; first [reflexivity|split; discriminate]. Qed.

Lemma pop_input_keeps_stream_witness :
  exists arr s', console_pop_input 5 demo_rx = Ret tt s' /\
    rx_content s' = dropZ 5 ([1; 2; 3; 4; 5; 6; 7; 8] ++ take 184 arr).
Proof.
  destruct (pop_input_keeps_stream 5 demo_rx) as (arr & s' & E & _ & _ & Hc & _).
  - exact demo_rx_ok.
  - split; discriminate.
  - exists arr, s'. split; [exact E|exact Hc].
Defined.

(** All of them are kept. *)
Lemma pop_example :
  match console_pop_input 5 demo_rx with Ret _ s' => rx_content s' = [6; 7; 8; 9; 10; 11; 12] | _ => False end.
Proof. vm_compute. reflexivity. Qed.

(** Ninety bytes wait, fourteen of which leave while an acknowledgement is sent. *)
Definition demo_tx : serial_state :=
  serial_init [([], 4%nat); ([], 0%nat); ([], 4%nat); ([], 3%nat)]
  <| transmit_buf := replicate 94 7 ++ [0; 0] |> <| transmit_pos := 4 |> <| transmit_max := 94 |> <| ss_tx_irq := true |>.

#[local] Instance demo_cmd : Part (cmd_state * serial_state) cmd_state := Part_fst _ _.
#[local] Instance demo_ser : Part (cmd_state * serial_state) serial_state := Part_snd _ _.

Lemma demo_disjoint (s : serial_state) (w : cmd_state * serial_state) :
  (part_get (part_set s w) : cmd_state) = part_get w.
Proof. reflexivity. Qed.

Lemma console_sendf_keeps_stream_witness :
  exists w', console_sendf 4 encode_acknak [] (cmd_init, demo_tx) = Ret tt w' /\
    (tx_stream w'.2 = replicate 90 7 ++ [5; 16; 158; 129; 126] \/ tx_stream w'.2 = replicate 90 7).
Proof.
  destruct (console_sendf_keeps_stream (W := cmd_state * serial_state) demo_disjoint 4 encode_acknak [] 5 []
    (cmd_init, demo_tx)) as (w' & E & _ & _ & _ & Hs).
  - split; vm_compute; first [reflexivity|split; discriminate].
  - discriminate.
  - reflexivity.
  - reflexivity.
  - split; discriminate.
  - exists w'. split; [exact E|]. destruct Hs as [[Hs _]|[Hs _]]; [left|right];
      (etransitivity; [exact Hs|vm_compute; reflexivity]).
Defined.

(** The waiting bytes are moved to make space, and the acknowledgement follows them. *)
Lemma sendf_example :
  match console_sendf 4 encode_acknak [] (cmd_init, demo_tx) with
  | Ret _ w' => tx_stream w'.2 = replicate 90 7 ++ [5; 16; 158; 129; 126] /\ transmit_pos w'.2 = 0
  | _ => False
  end.
Proof. vm_compute. done. Qed.
