(* ===== verification/Canserial.v ===== *)
(** * The CAN console of the firmware (src/generic/canserial.c, canbus.h, canbus.c)

    Commands and responses travel in the data of CAN frames with the node's own pair of
    identifiers, which the host assigns with admin frames.  Frames are received in an
    interrupt, which appends to the receive buffer and to the ring of admin frames; [can_irq]
    is a point at which interrupts may run, and an oracle in the state lists the frames that
    arrive at each such point.  A second oracle decides which frames the controller accepts
    for transmission. *)

From S2P Require Import Prelude Wire Command Sched Basecmd Rxbuf.

(** ** Data *)

(** [struct canbus_msg]; [data] has eight bytes in a received frame, and [dlc] in a sent one. *)
Record canbus_msg := mk_can { cm_id : Z; cm_dlc : Z; cm_data : list Z }.
Definition CANMSG_DATA_LEN (m : canbus_msg) : Z := if 8 <? cm_dlc m then 8 else cm_dlc m.

Definition CANBUS_ID_ADMIN : Z := 1008.
Definition CANBUS_ID_ADMIN_RESP : Z := 1009.
Definition CANBUS_UUID_LEN : Z := 6.

(** [struct canbus_data].  [cd_wakes] counts calls of [sched_wake_tasks], [cd_irqs] and
    [cd_accepts] are the oracles, [cd_sent] the transmitted frames and [cd_filters] the calls of
    [canserial_set_filter]. *)
Record canbus_data := mk_cd {
  cd_assigned_id : Z; cd_uuid : list Z;
  cd_tx_wake : Z; cd_transmit_pos : Z; cd_transmit_max : Z;
  cd_rx_wake : Z; cd_receive_pos : Z;
  cd_admin_pull_pos : Z; cd_admin_push_pos : Z;
  cd_admin_queue : list canbus_msg; cd_transmit_buf : list Z; cd_receive_buf : list Z;
  cd_wakes : Z; cd_irqs : list (list canbus_msg); cd_accepts : list bool;
  cd_sent : list canbus_msg; cd_filters : list Z }.
#[export] Instance eta_cd : Settable canbus_data := fun s =>
  mk_cd (cd_assigned_id s) (cd_uuid s) (cd_tx_wake s) (cd_transmit_pos s) (cd_transmit_max s)
    (cd_rx_wake s) (cd_receive_pos s) (cd_admin_pull_pos s) (cd_admin_push_pos s)
    (cd_admin_queue s) (cd_transmit_buf s) (cd_receive_buf s) (cd_wakes s) (cd_irqs s)
    (cd_accepts s) (cd_sent s) (cd_filters s).

Notation MC := (M canbus_data).

(** [sched_wake_task] and [sched_check_wake]. *)
Definition can_wake_task (set_wake : Z -> canbus_data -> canbus_data) : MC unit :=
  modify (fun s => set_wake 1 (s <| cd_wakes ::= Z.succ |>)).
Definition can_check_wake (wake : canbus_data -> Z) (set_wake : Z -> canbus_data -> canbus_data) : MC bool :=
  v <- gets wake ;;
  if v =? 0 then ret false else modify (set_wake 0) ;; ret true.

Definition canserial_notify_tx : MC unit := can_wake_task (fun v s => s <| cd_tx_wake := v |>).
Definition canserial_notify_rx : MC unit := can_wake_task (fun v s => s <| cd_rx_wake := v |>).

(** The CAN controller: the length of an accepted frame, -1 when there is no space. *)
Definition canserial_send (m : canbus_msg) : MC Z :=
  l <- gets cd_accepts ;;
  let '(ok, l) := match l with [] => (true, []) | ok :: l => (ok, l) end in
  modify (fun s => s <| cd_accepts := l |>) ;;
  if ok : bool then modify (fun s => s <| cd_sent ::= fun l => l ++ [m] |>) ;; ret (cm_dlc m)
  else ret (-1).
Definition canserial_set_filter (id : Z) : MC unit := modify (fun s => s <| cd_filters ::= fun l => l ++ [id] |>).

(** ** Data transmission over CAN *)

(** The loop of [canserial_tx_task]: the new [tpos].  Every turn sends at least one byte. *)
Fixpoint tx_loop (fuel : nat) (id tpos tmax : Z) : MC Z :=
  match fuel with
  | O => stuck
  | S fuel =>
      let avail := tmax - tpos in
      let now := if 8 <? avail then 8 else avail in
      if avail <=? 0 then ret tpos
      else
        buf <- gets cd_transmit_buf ;;
        if zlen buf <? tpos + now then stuck
        else
          r <- canserial_send (mk_can id now (takeZ now (dropZ tpos buf))) ;;
          if r <=? 0 then ret tpos
          else tx_loop fuel id (tpos + now) tmax
  end.

Definition canserial_tx_task : MC unit :=
  woken <- can_check_wake cd_tx_wake (fun v s => s <| cd_tx_wake := v |>) ;;
  if negb woken then ret tt
  else
    id <- gets cd_assigned_id ;;
    if id =? 0 then modify (fun s => s <| cd_transmit_max := 0 |> <| cd_transmit_pos := 0 |>)
    else
      tpos <- gets cd_transmit_pos ;;
      tmax <- gets cd_transmit_max ;;
      tpos <- tx_loop (S (Z.to_nat (tmax - tpos))) (u32 (id + 1)) tpos tmax ;;
      modify (fun s => s <| cd_transmit_pos := u8 tpos |>).

(** The checks and the move at the start of [console_sendf]; the position for the message, or
    [None] when there is not enough space. *)
Definition can_sendf_space (max_size : Z) : MC (option Z) :=
  tpos <- gets cd_transmit_pos ;;
  tmax <- gets cd_transmit_max ;;
  '(tpos, tmax) <-
    (if tmax <=? tpos then
       modify (fun s => s <| cd_transmit_max := 0 |> <| cd_transmit_pos := 0 |>) ;; ret (0, 0)
     else ret (tpos, tmax)) ;;
  if 96 <? tmax + max_size then
    if 96 <? tmax + max_size - tpos then ret None
    else
      let tmax := tmax - tpos in
      buf <- gets cd_transmit_buf ;;
      if zlen buf <? tpos + tmax then stuck
      else
        modify (fun s => s <| cd_transmit_buf := takeZ tmax (dropZ tpos buf) ++ dropZ tmax buf |>) ;;
        modify (fun s => s <| cd_transmit_pos := 0 |>) ;;
        modify (fun s => s <| cd_transmit_max := u8 tmax |>) ;;
        ret (Some tmax)
  else ret (Some tmax).

(** The encoded message is stored at [tmax]; a store past the end of the buffer is stuck. *)
Definition can_sendf_store (tmax msglen : Z) (block : list Z) : MC unit :=
  buf <- gets cd_transmit_buf ;;
  if zlen buf <? tmax + zlen block then stuck
  else
    modify (fun s => s <| cd_transmit_buf := takeZ tmax buf ++ block ++ dropZ (tmax + zlen block) buf |>) ;;
    modify (fun s => s <| cd_transmit_max := u8 (tmax + msglen) |>) ;;
    canserial_notify_tx.

(** ** CAN admin command handling *)

Definition CANBUS_CMD_QUERY_UNASSIGNED : Z := 0.
Definition CANBUS_CMD_SET_KLIPPER_NODEID : Z := 1.
Definition CANBUS_CMD_REQUEST_BOOTLOADER : Z := 2.
Definition CANBUS_RESP_NEED_NODEID : Z := 32.

Definition can_check_uuid (m : canbus_msg) (s : canbus_data) : bool :=
  (7 <=? cm_dlc m) && bool_decide (takeZ CANBUS_UUID_LEN (dropZ 1 (cm_data m)) = cd_uuid s).

Definition can_get_nodeid (s : canbus_data) : Z :=
  if cd_assigned_id s =? 0 then 0 else i32 (Z.shiftr (u32 (cd_assigned_id s - 256)) 1).
Definition can_decode_nodeid (nodeid : Z) : Z := u32 (Z.shiftl nodeid 1 + 256).

(** The retries of [can_process_query_unassigned]; there is one more than refusals to come. *)
Fixpoint send_retry (fuel : nat) (m : canbus_msg) : MC unit :=
  match fuel with
  | O => stuck
  | S fuel =>
      r <- canserial_send m ;;
      if 0 <=? r then ret tt else send_retry fuel m
  end.

Definition can_process_query_unassigned : MC unit :=
  id <- gets cd_assigned_id ;;
  if negb (id =? 0) then ret tt
  else
    uuid <- gets cd_uuid ;;
    refusals <- gets (fun s => length (cd_accepts s)) ;;
    send_retry (S refusals) (mk_can CANBUS_ID_ADMIN_RESP 8
      (CANBUS_RESP_NEED_NODEID :: uuid ++ [CANBUS_CMD_SET_KLIPPER_NODEID])).

Definition can_id_conflict : MC unit :=
  modify (fun s => s <| cd_assigned_id := 0 |>) ;;
  id <- gets cd_assigned_id ;;
  canserial_set_filter id ;;
  shutdown "Another CAN node assigned this ID".

Definition can_process_set_klipper_nodeid (m : canbus_msg) : MC unit :=
  if cm_dlc m <? 8 then ret tt
  else
    let newid := can_decode_nodeid (nthZ (cm_data m) 7) in
    s <- gets (fun s => s) ;;
    if can_check_uuid m s then
      if negb (newid =? cd_assigned_id s) then
        modify (fun s => s <| cd_assigned_id := newid |>) ;;
        canserial_set_filter newid
      else ret tt
    else if newid =? cd_assigned_id s then can_id_conflict
    else ret tt.

Section admin.
(** The function of the board. *)
Context (bootloader_request : MC unit).

Definition can_process_request_bootloader (m : canbus_msg) : MC unit :=
  s <- gets (fun s => s) ;;
  if negb (can_check_uuid m s) then ret tt else bootloader_request.

Definition can_process_admin (m : canbus_msg) : MC unit :=
  if cm_dlc m =? 0 then ret tt
  else
    let cmd := nthZ (cm_data m) 0 in
    if cmd =? CANBUS_CMD_QUERY_UNASSIGNED then can_process_query_unassigned
    else if cmd =? CANBUS_CMD_SET_KLIPPER_NODEID then can_process_set_klipper_nodeid m
    else if cmd =? CANBUS_CMD_REQUEST_BOOTLOADER then can_process_request_bootloader m
    else ret tt.
End admin.

(** ** CAN packet reading *)

Definition admin_zero : canbus_msg := mk_can 0 0 (repeat 0 8).

(** [canserial_process_data]: the return value. *)
Definition canserial_process_data (m : canbus_msg) : MC Z :=
  s <- gets (fun s => s) ;;
  let id := cm_id m in
  let aid := cd_assigned_id s in
  if negb (aid =? 0) && (id =? aid) then
    let rpos := cd_receive_pos s in
    let len := CANMSG_DATA_LEN m in
    if u32 (RX_SIZE - rpos) <? len then ret (-1)
    else
      modify (fun s => s <| cd_receive_buf ::= fun b =>
        takeZ rpos b ++ takeZ len (cm_data m) ++ dropZ (rpos + len) b |>) ;;
      modify (fun s => s <| cd_receive_pos := u8 (rpos + len) |>) ;;
      canserial_notify_rx ;;
      ret 0
  else if (id =? CANBUS_ID_ADMIN) || (negb (aid =? 0) && (id =? u32 (aid + 1))) then
    let pushp := cd_admin_push_pos s in
    if u32 (cd_admin_pull_pos s + 8) <=? pushp then ret (-1)
    else
      modify (fun s => s <| cd_admin_queue ::= <[Z.to_nat (pushp mod 8) := m]> |>) ;;
      modify (fun s => s <| cd_admin_push_pos := u32 (pushp + 1) |>) ;;
      canserial_notify_rx ;;
      ret 0
  else ret 0.

(** [canbus_process_data] of canbus.c, for every frame. *)
Fixpoint can_frames (l : list canbus_msg) : MC unit :=
  match l with [] => ret tt | m :: l => canserial_process_data m ;; can_frames l end.

Definition can_irq : MC unit :=
  l <- gets cd_irqs ;;
  match l with
  | [] => ret tt
  | fs :: l => modify (fun s => s <| cd_irqs := l |>) ;; can_frames fs
  end.

(** [console_pop_input] is the removal of [Rxbuf]; [rpos - len] is an [int]. *)
#[export] Instance can_rx : RxBuf canbus_data := {
  rx_buf := cd_receive_buf;
  rx_pos := cd_receive_pos;
  rx_put i d s := s <| cd_receive_buf ::= <[i := d]> |>;
  rx_set_pos p s := s <| cd_receive_pos := p |>;
  rx_irq := can_irq;
  rx_wake := canserial_notify_rx;
  rx_diff := i32 }.

Definition console_pop_input (len : Z) : MC unit := rx_pop_input len.

Section task.
Context (bootloader_request : MC unit).

(** The loop over the pending admin frames: one turn more than frames to come. *)
Fixpoint admin_loop (fuel : nat) : MC unit :=
  match fuel with
  | O => stuck
  | S fuel =>
      can_irq ;;
      pushp <- gets cd_admin_push_pos ;;
      pullp <- gets cd_admin_pull_pos ;;
      if pushp =? pullp then ret tt
      else
        queue <- gets cd_admin_queue ;;
        m <- deref (queue !! Z.to_nat (pullp mod 8)) ;;
        aid <- gets cd_assigned_id ;;
        (if negb (aid =? 0) && (cm_id m =? u32 (aid + 1)) then can_id_conflict
         else if cm_id m =? CANBUS_ID_ADMIN then can_process_admin bootloader_request m
         else ret tt) ;;
        modify (fun s => s <| cd_admin_pull_pos := u32 (pullp + 1) |>) ;;
        admin_loop fuel
  end.

(** The pending admin frames and all frames of the oracle. *)
Definition admin_fuel (s : canbus_data) : nat :=
  S (Z.to_nat (cd_admin_push_pos s - cd_admin_pull_pos s) + length (concat (cd_irqs s))).

Context {W : Type} {PC : Part W cmd_state} {PD : Part W canbus_data}.

Definition console_sendf (sizeof_int : Z) (ce : command_encoder) (args : list va_arg) : M W unit :=
  space <- zoom (can_sendf_space (ce_max_size ce)) ;;
  match space with
  | None => ret tt
  | Some tmax =>
      '(msglen, block) <- command_encode_and_frame sizeof_int ce args ;;
      zoom (can_sendf_store tmax msglen block)
  end.

Context {CE : CommandEnv W}.

Definition canserial_rx_task : M W unit :=
  woken <- zoom (can_check_wake cd_rx_wake (fun v s => s <| cd_rx_wake := v |>)) ;;
  if negb woken then ret tt
  else
    zoom (fun s => admin_loop (admin_fuel s) s) ;;
    zoom can_irq ;;
    s <- gets (fun w => part_get w : canbus_data) ;;
    let buf := takeZ (cd_receive_pos s) (cd_receive_buf s) in
    '(r, pop_count) <- command_find_block buf ;;
    when (0 <? r) (command_dispatch buf pop_count) ;;
    if r =? 0 then ret tt
    else
      zoom (console_pop_input pop_count) ;;
      when (0 <? r) command_send_ack.

(** ** Setup and shutdown *)

Context {tgt : Target}.

Definition command_get_canbus_id (args : list Z) : M W unit :=
  s <- gets (fun w => part_get w : canbus_data) ;;
  command_sendf (ctr_lookup_encoder "canbus_id canbus_uuid=%.*s canbus_nodeid=%u")
    [VA_buffer CANBUS_UUID_LEN (cd_uuid s); VA_int (can_get_nodeid s)].
End task.

(** [fasthash64] is vendored; the hash is stored in little-endian order. *)
Definition canserial_set_uuid (fasthash64 : list Z -> Z -> Z -> Z) (raw_uuid : list Z) : MC unit :=
  let hash := fasthash64 raw_uuid (zlen raw_uuid) 2707567015 in
  modify (fun s => s <| cd_uuid :=
    (fun i => u8 (Z.shiftr hash (8 * Z.of_nat i))) <$> seq 0 6 |>) ;;
  canserial_notify_rx.

Definition canserial_shutdown : MC unit := canserial_notify_tx ;; canserial_notify_rx.
