(* ===== verification/CanserialFacts.v ===== *)
(** * Properties of the CAN console (src/generic/canserial.c)

    Reception under every interleaving with the interrupts, transmission in frames, the ring
    of admin frames, and the assignment of node ids on a bus. *)

From S2P Require Import Prelude Wire Command Sched Basecmd Rxbuf SerialIrqFacts Canserial.

(** ** Received frames *)

(** The bytes of the frames that an interrupt appends to a buffer that holds [pos] bytes, and
    the admin frames in the ring after them; a frame that does not fit is dropped. *)
Definition data_frame (aid : Z) (m : canbus_msg) : bool := negb (aid =? 0) && (cm_id m =? aid).
Definition admin_frame (aid : Z) (m : canbus_msg) : bool :=
  (cm_id m =? CANBUS_ID_ADMIN) || (negb (aid =? 0) && (cm_id m =? u32 (aid + 1))).

Fixpoint data_of (aid pos : Z) (fs : list canbus_msg) : list Z :=
  match fs with
  | [] => []
  | m :: fs =>
      if data_frame aid m && (pos + CANMSG_DATA_LEN m <=? 192)
      then takeZ (CANMSG_DATA_LEN m) (cm_data m) ++ data_of aid (pos + CANMSG_DATA_LEN m) fs
      else data_of aid pos fs
  end.

Definition add_admin (aid : Z) (adm : list canbus_msg) (m : canbus_msg) : list canbus_msg :=
  if negb (data_frame aid m) && admin_frame aid m && (length adm <? 8)%nat then adm ++ [m] else adm.

(** A frame of the controller has eight data bytes. *)
Definition frame_ok (m : canbus_msg) : Prop := length (cm_data m) = 8%nat /\ 0 <= cm_dlc m.

Lemma data_len_range m : frame_ok m -> 0 <= CANMSG_DATA_LEN m <= 8.
Proof. intros [_ Hd]. unfold CANMSG_DATA_LEN. destruct (Z.ltb_spec 8 (cm_dlc m)); lia. Qed.

Lemma data_taken m : frame_ok m -> zlen (takeZ (CANMSG_DATA_LEN m) (cm_data m)) = CANMSG_DATA_LEN m.
Proof.
  intros Hm. pose proof (data_len_range m Hm). destruct Hm as [Hl _].
  unfold zlen, takeZ. rewrite length_take. lia.
Qed.

Lemma data_of_app aid pos a b :
  Forall frame_ok a ->
  data_of aid pos (a ++ b) = data_of aid pos a ++ data_of aid (pos + zlen (data_of aid pos a)) b.
Proof.
  intros Ha. revert pos. induction Ha as [|m a Hm _ IH]; intros pos; cbn [data_of app].
  { unfold zlen. cbn. by rewrite Z.add_0_r. }
  destruct (data_frame aid m && (pos + CANMSG_DATA_LEN m <=? 192)); [|apply IH].
  rewrite IH, app_assoc, zlen_app, data_taken by done. do 2 f_equal. lia.
Qed.

(** ** States *)

(** The admin frames in the ring. *)
Definition pending_admin (s : canbus_data) : list canbus_msg :=
  (fun i : nat => default admin_zero (cd_admin_queue s !! Z.to_nat ((cd_admin_pull_pos s + Z.of_nat i) mod 8)))
  <$> seq 0 (Z.to_nat (cd_admin_push_pos s - cd_admin_pull_pos s)).

(** The frames still to come, and room for them in the counters of the ring. *)
Definition to_come (s : canbus_data) : list canbus_msg := concat (cd_irqs s).

Record can_ok (s : canbus_data) : Prop := {
  co_rxlen : length (cd_receive_buf s) = 192%nat;
  co_rxpos : 0 <= cd_receive_pos s <= 192;
  co_queue : length (cd_admin_queue s) = 8%nat;
  co_pull : 0 <= cd_admin_pull_pos s <= cd_admin_push_pos s;
  co_push : cd_admin_push_pos s <= cd_admin_pull_pos s + 8;
  co_frames : Forall frame_ok (to_come s);
  co_room : cd_admin_push_pos s + zlen (to_come s) < 4294967288;
}.

Lemma length_admin s : can_ok s -> length (pending_admin s) = Z.to_nat (cd_admin_push_pos s - cd_admin_pull_pos s).
Proof. intros _. unfold pending_admin. by rewrite length_fmap, length_seq. Qed.

(** What an interruption leaves alone. *)
Definition can_rest (s : canbus_data) :=
  (cd_assigned_id s, cd_uuid s, cd_tx_wake s, cd_transmit_pos s, cd_transmit_max s, cd_transmit_buf s,
   cd_accepts s, cd_sent s, cd_filters s, cd_admin_pull_pos s).

(** Storing the next admin frame in the ring. *)
Lemma push_admin s m :
  can_ok s -> cd_admin_push_pos s < cd_admin_pull_pos s + 8 ->
  let s' := s <| cd_admin_queue ::= <[Z.to_nat (cd_admin_push_pos s mod 8) := m]> |>
              <| cd_admin_push_pos := cd_admin_push_pos s + 1 |> in
  pending_admin s' = pending_admin s ++ [m].
Proof.
  intros [_ _ Hq Hpl Hps _ _] Hlt s'. unfold pending_admin, s'. cbn [upd cd_admin_queue cd_admin_push_pos cd_admin_pull_pos].
  replace (Z.to_nat (cd_admin_push_pos s + 1 - cd_admin_pull_pos s))
    with (S (Z.to_nat (cd_admin_push_pos s - cd_admin_pull_pos s))) by lia.
  rewrite seq_S, fmap_app. cbn [fmap list_fmap Nat.add]. f_equal.
  - apply list_fmap_ext. intros j i Hi%lookup_seq. cbn. rewrite list_lookup_insert_ne; [done|].
    intros E. apply Z2Nat.inj in E; Z.div_mod_to_equations; lia.
  - f_equal. replace (cd_admin_pull_pos s + Z.of_nat (Z.to_nat (cd_admin_push_pos s - cd_admin_pull_pos s)))
      with (cd_admin_push_pos s) by lia.
    rewrite list_lookup_insert_eq; [done|]. rewrite Hq. Z.div_mod_to_equations. lia.
Qed.

(** The interrupt on one frame. *)
Lemma process_run s m l :
  can_ok s -> frame_ok m -> to_come s = l ->
  cd_admin_push_pos s + 1 + zlen l < 4294967288 ->
  exists r s', canserial_process_data m s = Ret r s' /\ can_ok s' /\
    rx_held s' = rx_held s ++ data_of (cd_assigned_id s) (cd_receive_pos s) [m] /\
    cd_receive_pos s' = cd_receive_pos s + zlen (data_of (cd_assigned_id s) (cd_receive_pos s) [m]) /\
    pending_admin s' = add_admin (cd_assigned_id s) (pending_admin s) m /\
    cd_admin_push_pos s' <= cd_admin_push_pos s + 1 /\
    can_rest s' = can_rest s /\ cd_irqs s' = cd_irqs s.
Proof.
  intros Hok Hm Hl Hroom. pose proof Hok as [H1 H2 H3 H4 H5 H6 H7].
  pose proof (data_len_range m Hm) as Hlen. pose proof (data_taken m Hm) as Htk.
  pose proof (length_admin s Hok) as Hadm.
  assert (Hsame : forall r, exists s', ret r s = Ret (r : Z) s' /\ can_ok s' /\
    rx_held s' = rx_held s ++ [] /\ cd_receive_pos s' = cd_receive_pos s + zlen (A := Z) [] /\
    pending_admin s' = pending_admin s /\ cd_admin_push_pos s' <= cd_admin_push_pos s + 1 /\
    can_rest s' = can_rest s /\ cd_irqs s' = cd_irqs s).
  { intros r. exists s. rewrite app_nil_r. unfold zlen. cbn. split_and!; done || lia. }
  unfold canserial_process_data, gets. unfold bind at 1. unfold add_admin. cbn [data_of].
  fold (data_frame (cd_assigned_id s) m) (admin_frame (cd_assigned_id s) m). unfold RX_SIZE.
  destruct (data_frame (cd_assigned_id s) m); cbn [andb negb].
  - rewrite u32_small by lia.
    destruct (Z.ltb_spec (192 - cd_receive_pos s) (CANMSG_DATA_LEN m)),
      (Z.leb_spec (cd_receive_pos s + CANMSG_DATA_LEN m) 192); try lia.
    { exists (-1). apply Hsame. }
    rewrite app_nil_r, Htk. unfold modify, canserial_notify_rx, can_wake_task, bind, ret.
    eexists _, _. split; [reflexivity|].
    cbn [upd cd_receive_buf cd_receive_pos cd_admin_queue cd_admin_push_pos cd_admin_pull_pos cd_irqs].
    rewrite u8_small by lia. split; [|split; [|split; [|split; [done|split; [lia|done]]]]].
    + split; cbn; try done; [|lia].
      rewrite !length_app. unfold takeZ, dropZ, zlen in *. rewrite !length_take, length_drop in *. lia.
    + unfold rx_held. cbn. unfold takeZ, dropZ in *. unfold zlen in Htk.
      rewrite app_assoc, take_app_le, take_ge; [done| |];
        rewrite !length_app, !length_take in *; lia.
    + done.
  - destruct (admin_frame (cd_assigned_id s) m); cbn [andb]; [|exists 0; apply Hsame].
    pose proof (zlen_nonneg l). rewrite u32_small by lia.
    destruct (Z.leb_spec (cd_admin_pull_pos s + 8) (cd_admin_push_pos s)), (Nat.ltb_spec (length (pending_admin s)) 8);
      try lia; [exists (-1); apply Hsame|].
    unfold modify, canserial_notify_rx, can_wake_task, bind, ret. eexists _, _. split; [reflexivity|].
    cbn [upd cd_receive_buf cd_receive_pos cd_admin_queue cd_admin_push_pos cd_admin_pull_pos cd_irqs].
    rewrite u32_small by lia. split; [|split; [|split; [|split; [|split; [lia|done]]]]].
    + split; cbn; rewrite ?length_insert; try done; try lia. unfold to_come in *. cbn. rewrite Hl. lia.
    + by rewrite app_nil_r.
    + unfold zlen. cbn. lia.
    + by rewrite <- push_admin by done.
Qed.

Lemma frames_run fs s :
  can_ok s -> Forall frame_ok fs ->
  cd_admin_push_pos s + zlen fs + zlen (to_come s) < 4294967288 ->
  exists s', can_frames fs s = Ret tt s' /\ can_ok s' /\
    rx_held s' = rx_held s ++ data_of (cd_assigned_id s) (cd_receive_pos s) fs /\
    cd_receive_pos s' = cd_receive_pos s + zlen (data_of (cd_assigned_id s) (cd_receive_pos s) fs) /\
    pending_admin s' = foldl (add_admin (cd_assigned_id s)) (pending_admin s) fs /\
    can_rest s' = can_rest s /\ cd_irqs s' = cd_irqs s.
Proof.
  intros Hok Hfs. revert s Hok. induction Hfs as [|m fs Hm Hfs IH]; intros s Hok Hroom; cbn [can_frames].
  { exists s. cbn. rewrite app_nil_r. unfold zlen. cbn. split; [done|]. split; [done|]. split; [done|]. split; [lia|done]. }
  rewrite zlen_cons in Hroom. pose proof (zlen_nonneg fs).
  destruct (process_run s m _ Hok Hm eq_refl ltac:(lia)) as (r & s1 & E1 & Hok1 & Hh1 & Hp1 & Ha1 & Hps1 & Hr1 & Hi1).
  rewrite (bind_Ret _ _ _ _ _ E1).
  assert (Hto : to_come s1 = to_come s) by (unfold to_come; by rewrite Hi1).
  destruct (IH s1 Hok1) as (s2 & E2 & Hok2 & Hh2 & Hp2 & Ha2 & Hr2 & Hi2); [rewrite Hto; lia|].
  assert (Haid : cd_assigned_id s1 = cd_assigned_id s) by (unfold can_rest in Hr1; congruence).
  change (m :: fs) with ([m] ++ fs). rewrite data_of_app by (constructor; [exact Hm|constructor]).
  exists s2. split; [exact E2|]. split; [done|]. rewrite <- Hp1, <- Haid.
  split; [by rewrite Hh2, Hh1, Haid, app_assoc|].
  split; [rewrite Hp2, Hp1, zlen_app, Haid; lia|].
  split; [by rewrite Ha2, Ha1, Haid|]. split; congruence.
Qed.

(** An interruption appends the data frames to the receive buffer and the admin frames to the
    ring, in order and as far as they fit. *)
Definition can_ran (k : list Z) (s s' : canbus_data) : Prop :=
  exists fs, Forall frame_ok fs /\ to_come s = fs ++ to_come s' /\
    k = data_of (cd_assigned_id s) (cd_receive_pos s) fs /\
    cd_receive_pos s' = cd_receive_pos s + zlen k /\
    pending_admin s' = foldl (add_admin (cd_assigned_id s)) (pending_admin s) fs /\
    can_rest s' = can_rest s.

Lemma can_irq_run s :
  can_ok s -> exists k s', can_irq s = Ret tt s' /\ can_ok s' /\ rx_held s' = rx_held s ++ k /\ can_ran k s s'.
Proof.
  intros Hok. pose proof Hok as [H1 H2 H3 H4 H5 H6 H7]. unfold can_irq, gets. unfold bind at 1.
  destruct (cd_irqs s) as [|fs l] eqn:Ei.
  - exists [], s. split; [done|]. split; [done|]. rewrite app_nil_r. split; [done|].
    exists []. unfold to_come. rewrite Ei. unfold zlen. cbn. split_and!; done || lia.
  - set (s0 := s <| cd_irqs := l |>). unfold to_come in H6, H7. rewrite Ei in H6, H7. cbn [concat] in *.
    apply Forall_app in H6 as [Hf Hl]. rewrite zlen_app in H7. pose proof (zlen_nonneg fs).
    assert (Hok0 : can_ok s0) by (split; try done; unfold to_come; cbn; lia).
    destruct (frames_run fs s0 Hok0 Hf) as (s' & E & Hok' & Hh & Hp & Ha & Hr & Hi).
    { unfold to_come. cbn. lia. }
    exists (data_of (cd_assigned_id s) (cd_receive_pos s) fs), s'. unfold modify, bind. fold s0.
    split; [exact E|]. split; [done|]. split; [exact Hh|]. exists fs. split; [done|].
    split; [unfold to_come; rewrite Hi, Ei; done|]. split; [done|]. split; [exact Hp|]. split; [exact Ha|].
    by rewrite Hr.
Qed.

Lemma can_ran_trans a b s1 s2 s3 : can_ran a s1 s2 -> can_ran b s2 s3 -> can_ran (a ++ b) s1 s3.
Proof.
  intros (x & Fx & Tx & Ea & Px & Ax & Rx) (y & Fy & Ty & Eb & Py & Ay & Ry). exists (x ++ y).
  assert (Haid : cd_assigned_id s2 = cd_assigned_id s1) by (unfold can_rest in Rx; congruence).
  split; [by apply Forall_app|]. split; [by rewrite Tx, Ty, app_assoc|].
  split; [rewrite data_of_app by done; rewrite <- Ea, <- Px, <- Haid; by rewrite <- Eb|].
  split; [rewrite zlen_app; lia|]. split; [by rewrite foldl_app, <- Ax, <- Haid|]. congruence.
Qed.

Lemma can_ran_same s s' :
  cd_irqs s' = cd_irqs s -> cd_receive_pos s' = cd_receive_pos s -> cd_admin_queue s' = cd_admin_queue s ->
  cd_admin_push_pos s' = cd_admin_push_pos s -> can_rest s' = can_rest s -> can_ran [] s s'.
Proof.
  intros Hi Hp Hq Hps Hr. exists []. split; [constructor|]. unfold to_come. rewrite Hi. split; [done|].
  split; [done|]. unfold zlen. cbn. split; [lia|]. split; [|done].
  unfold pending_admin. rewrite Hq, Hps. unfold can_rest in Hr. by replace (cd_admin_pull_pos s') with (cd_admin_pull_pos s) by congruence.
Qed.

#[export, program] Instance can_rx_laws : RxLaws canbus_data := {
  rx_ok := can_ok; rx_ran := can_ran }.
Next Obligation. intros s [? ? _ _ _ _ _]. done. Qed.
Next Obligation. intros s. by apply can_ran_same. Qed.
Next Obligation. exact can_ran_trans. Qed.
Next Obligation. exact can_irq_run. Qed.
Next Obligation.
  intros s i d [H1 H2 H3 H4 H5 H6 H7]. split; [split; cbn; rewrite ?length_insert; done|].
  split; [done|]. split; [done|]. by apply can_ran_same.
Qed.
Next Obligation.
  intros s [H1 H2 H3 H4 H5 H6 H7]. eexists. split; [reflexivity|]. split; [by split|]. split; [done|].
  split; [done|]. by apply can_ran_same.
Qed.
Next Obligation. intros s p [H1 H2 H3 H4 H5 H6 H7] Hp. by split; [split|]. Qed.
Next Obligation. intros z Hz. apply i32_small. lia. Qed.

(** Removing a block from the receive buffer of the CAN console is correct under every
    interleaving with the receive interrupt: the removal ends, the buffer then holds the old
    content and the data of the frames that arrived meanwhile, whole frames and in order as
    far as they fit, without the [len] bytes at the front, and the admin frames that arrived
    are in the ring, in order. *)
Theorem can_pop_input_keeps_frames len s :
  can_ok s -> 0 <= len <= cd_receive_pos s ->
  exists fs s', console_pop_input len s = Ret tt s' /\ can_ok s' /\ to_come s = fs ++ to_come s' /\
    rx_held s' = dropZ len (rx_held s ++ data_of (cd_assigned_id s) (cd_receive_pos s) fs) /\
    pending_admin s' = foldl (add_admin (cd_assigned_id s)) (pending_admin s) fs /\
    can_rest s' = can_rest s.
Proof.
  intros Hok Hlen. destruct (@rx_pop_input_run _ can_rx can_rx_laws len s Hok Hlen)
    as (k & s1 & s' & E & Hok' & Hc & (fs & _ & Ht & -> & _ & Ha & Hr) & ->).
  exists fs. eexists. split; [exact E|]. split; [exact Hok'|]. split; [exact Ht|]. split; [exact Hc|].
  split; [exact Ha|exact Hr].
Qed.

(** ** Transmission *)

Record can_tx_ok (s : canbus_data) : Prop := {
  ct_len : length (cd_transmit_buf s) = 96%nat;
  ct_pos : 0 <= cd_transmit_pos s <= cd_transmit_max s;
  ct_max : cd_transmit_max s <= 96;
}.

(** The bytes waiting for transmission. *)
Definition can_pending (s : canbus_data) : list Z :=
  takeZ (cd_transmit_max s - cd_transmit_pos s) (dropZ (cd_transmit_pos s) (cd_transmit_buf s)).

(** A frame of the transmitted stream. *)
Definition stream_frame (id : Z) (m : canbus_msg) : Prop :=
  cm_id m = id /\ cm_dlc m = zlen (cm_data m) /\ 0 < cm_dlc m <= 8.

(** What a sequence of sends leaves alone. *)
Definition tx_rest (s : canbus_data) :=
  (cd_assigned_id s, cd_uuid s, cd_transmit_pos s, cd_transmit_max s, cd_transmit_buf s, cd_receive_pos s, cd_receive_buf s,
   cd_admin_pull_pos s, cd_admin_push_pos s, cd_admin_queue s).

Lemma can_send_run m s :
  exists s' (ok : bool), canserial_send m s = Ret (if ok then cm_dlc m else -1) s' /\ tx_rest s' = tx_rest s /\
    cd_sent s' = cd_sent s ++ (if ok then [m] else []) /\
    (Forall (eq true) (cd_accepts s) -> ok = true /\ Forall (eq true) (cd_accepts s')).
Proof.
  unfold canserial_send, gets, modify. unfold bind at 1. destruct (cd_accepts s) as [|ok l]; cbn.
  - eexists _, true. split; [reflexivity|]. split; [done|]. split; [done|]. intros _. split; [done|constructor].
  - destruct ok; [eexists _, true|eexists _, false]; (split; [reflexivity|]); (split; [done|]);
      (split; [cbn; by rewrite ?app_nil_r|]); intros Hf; apply Forall_cons in Hf as [? ?]; done.
Qed.

Lemma split_take (l : list Z) p n m :
  0 <= p -> 0 <= n <= m -> takeZ n (dropZ p l) ++ takeZ (m - n) (dropZ (p + n) l) = takeZ m (dropZ p l).
Proof.
  intros Hp Hn. unfold takeZ, dropZ. replace (Z.to_nat (p + n)) with (Z.to_nat p + Z.to_nat n)%nat by lia.
  rewrite <- drop_drop. replace (Z.to_nat m) with (Z.to_nat n + Z.to_nat (m - n))%nat by lia.
  apply take_take_drop.
Qed.

Lemma tx_loop_run fuel id tpos tmax s :
  length (cd_transmit_buf s) = 96%nat -> 0 <= tpos <= tmax -> tmax <= 96 -> (Z.to_nat (tmax - tpos) < fuel)%nat ->
  exists fs tpos' s', tx_loop fuel id tpos tmax s = Ret tpos' s' /\ tpos <= tpos' <= tmax /\
    tx_rest s' = tx_rest s /\ cd_sent s' = cd_sent s ++ fs /\ Forall (stream_frame id) fs /\
    (fs ≫= cm_data) ++ takeZ (tmax - tpos') (dropZ tpos' (cd_transmit_buf s))
    = takeZ (tmax - tpos) (dropZ tpos (cd_transmit_buf s)) /\
    (Forall (eq true) (cd_accepts s) -> tpos' = tmax).
Proof.
  revert tpos s. induction fuel as [|fuel IH]; intros tpos s Hl Hp Hm Hf; [lia|]. cbn [tx_loop].
  assert (Hend : exists fs tpos' s', ret tpos s = Ret tpos' s' /\ tpos <= tpos' <= tmax /\
    tx_rest s' = tx_rest s /\ cd_sent s' = cd_sent s ++ fs /\ Forall (stream_frame id) fs /\
    (fs ≫= cm_data) ++ takeZ (tmax - tpos') (dropZ tpos' (cd_transmit_buf s))
    = takeZ (tmax - tpos) (dropZ tpos (cd_transmit_buf s)) /\ (tpos = tmax -> tpos' = tmax)).
  { exists [], tpos, s. rewrite app_nil_r. split; [done|]. split; [lia|]. done. }
  destruct (Z.leb_spec (tmax - tpos) 0) as [Hz|Hz].
  { destruct Hend as (fs & tp & s' & ? & ? & ? & ? & ? & ? & He). exists fs, tp, s'.
    split_and!; try done; try lia; intros _; apply He; lia. }
  set (now := if 8 <? tmax - tpos then 8 else tmax - tpos).
  assert (Hnow : 0 < now <= 8 /\ now <= tmax - tpos) by (unfold now; destruct (Z.ltb_spec 8 (tmax - tpos)); lia).
  unfold gets at 1. unfold bind at 1. rewrite (proj2 (Z.ltb_ge _ _)) by (unfold zlen; lia).
  set (m := mk_can id now (takeZ now (dropZ tpos (cd_transmit_buf s)))).
  assert (Hsf : stream_frame id m).
  { split; [done|]. split; [|cbn; lia]. cbn. unfold zlen, takeZ, dropZ. rewrite length_take, length_drop. lia. }
  destruct (can_send_run m s) as (s1 & ok & E1 & Hr1 & Hs1 & Ha1). rewrite (bind_Ret _ _ _ _ _ E1).
  assert (Hb1 : cd_transmit_buf s1 = cd_transmit_buf s) by (unfold tx_rest in Hr1; congruence).
  destruct ok.
  - rewrite (proj2 (Z.leb_gt _ _)) by (cbn; lia).
    destruct (IH (tpos + now) s1) as (fs & tpos' & s' & E & Hle & Hr & Hs & Hfs & Hc & Hall); [by rewrite Hb1|lia|lia|lia|].
    exists (m :: fs), tpos', s'. split; [exact E|]. split; [lia|]. split; [congruence|].
    split; [by rewrite Hs, Hs1, <- app_assoc|]. split; [by constructor|]. split.
    + cbn [mbind list_bind]. rewrite <- app_assoc. rewrite Hb1 in Hc. change (fs ≫= cm_data) with (mbind cm_data fs) in Hc.
      rewrite Hc. cbn [cm_data m]. replace (tmax - (tpos + now)) with (tmax - tpos - now) by lia.
      apply split_take; lia.
    + intros H. apply Hall. by apply Ha1.
  - cbn. exists [], tpos, s1. split; [done|]. split; [lia|]. split; [done|]. split; [by rewrite Hs1|].
    split; [constructor|]. split; [done|]. intros H. by destruct (Ha1 H).
Qed.

(** The transmit task sends the waiting bytes in order.  Its frames carry the identifier of
    the node and one to eight bytes each; the bytes of the frames followed by those still
    waiting are the bytes that waited before, and nothing waits any more unless the
    controller refused a frame. *)
Theorem can_tx_sends_in_order s :
  can_tx_ok s -> cd_tx_wake s <> 0 -> cd_assigned_id s <> 0 ->
  exists fs s', canserial_tx_task s = Ret tt s' /\ can_tx_ok s' /\ cd_sent s' = cd_sent s ++ fs /\
    Forall (stream_frame (u32 (cd_assigned_id s + 1))) fs /\
    (fs ≫= cm_data) ++ can_pending s' = can_pending s /\
    (Forall (eq true) (cd_accepts s) -> can_pending s' = []).
Proof.
  intros [Hl Hp Hm] Hw Hid. unfold canserial_tx_task, can_check_wake, gets, modify.
  apply Z.eqb_neq in Hw, Hid. unfold bind, ret. rewrite Hw. cbn [negb].
  change (cd_assigned_id (s <| cd_tx_wake := 0 |>)) with (cd_assigned_id s). rewrite Hid.
  set (s0 := s <| cd_tx_wake := 0 |>).
  destruct (tx_loop_run (S (Z.to_nat (cd_transmit_max s - cd_transmit_pos s))) (u32 (cd_assigned_id s + 1))
    (cd_transmit_pos s) (cd_transmit_max s) s0) as (fs & tpos' & s1 & E & Hle & Hr & Hs & Hfs & Hc & Hall);
    [done|lia|lia|lia|].
  change (cd_transmit_max s0) with (cd_transmit_max s). change (cd_transmit_pos s0) with (cd_transmit_pos s).
  rewrite E. unfold tx_rest in Hr. injection Hr as _ _ _ Hmax Hbuf _ _ _ _ _.
  cbn [cd_transmit_max cd_transmit_buf upd s0] in Hmax, Hbuf.
  exists fs. eexists. split; [reflexivity|]. rewrite u8_small by lia. unfold can_pending.
  cbn [upd cd_transmit_max cd_transmit_pos cd_transmit_buf cd_sent]. rewrite Hmax, Hbuf.
  split; [split; cbn; rewrite ?Hmax, ?Hbuf; done || lia|]. split; [exact Hs|]. split; [exact Hfs|].
  split; [exact Hc|]. intros H. rewrite (Hall H), Z.sub_diag. done.
Qed.

Lemma length_can_pending s : can_tx_ok s -> zlen (can_pending s) = cd_transmit_max s - cd_transmit_pos s.
Proof.
  intros [Hl Hp Hm]. unfold can_pending, takeZ, dropZ, zlen. rewrite length_take, length_drop. lia.
Qed.

Lemma can_space_run max_size s :
  can_tx_ok s -> 0 <= max_size ->
  exists r s', can_sendf_space max_size s = Ret r s' /\ can_tx_ok s' /\
    can_pending s' = can_pending s /\ cd_sent s' = cd_sent s /\
    match r with
    | Some tmax => cd_transmit_max s' = tmax /\ tmax + max_size <= 96
    | None => 96 < zlen (can_pending s) + max_size
    end.
Proof.
  intros Hok Hms. pose proof Hok as [Hl Hp Hm]. pose proof (length_can_pending s Hok) as Hlp.
  unfold can_sendf_space, gets, modify, bind, ret.
  destruct (Z.leb_spec (cd_transmit_max s) (cd_transmit_pos s)) as [Hge|Hlt].
  - assert (Hnil : can_pending s = []).
    { unfold can_pending. by replace (cd_transmit_max s - cd_transmit_pos s) with 0 by lia. }
    set (s0 := s <| cd_transmit_max := 0 |> <| cd_transmit_pos := 0 |>).
    assert (Hok0 : can_tx_ok s0) by (split; cbn; done || lia). rewrite Hnil. unfold zlen. cbn [length Z.of_nat].
    rewrite !Z.add_0_l, Z.sub_0_r. destruct (Z.ltb_spec 96 max_size).
    + exists None, s0. do 4 (split; [done|]). lia.
    + exists (Some 0), s0. do 4 (split; [done|]). split; [done|lia].
  - destruct (Z.ltb_spec 96 (cd_transmit_max s + max_size)) as [Hbig|Hsmall].
    2: { exists (Some (cd_transmit_max s)), s. do 4 (split; [done|]). done. }
    destruct (Z.ltb_spec 96 (cd_transmit_max s + max_size - cd_transmit_pos s)) as [Hno|Hfit].
    { exists None, s. do 4 (split; [done|]). lia. }
    rewrite (proj2 (Z.ltb_ge _ _)) by (unfold zlen; lia).
    set (n := cd_transmit_max s - cd_transmit_pos s). eexists (Some n), _. split; [reflexivity|].
    rewrite u8_small by lia.
    assert (Hlen : length (takeZ n (dropZ (cd_transmit_pos s) (cd_transmit_buf s))) = Z.to_nat n).
    { unfold takeZ, dropZ. rewrite length_take, length_drop. lia. }
    split; [split; cbn; try lia; rewrite length_app, Hlen; unfold dropZ; rewrite length_drop; lia|].
    split; [|split; [done|cbn; lia]]. unfold can_pending. cbn. rewrite Z.sub_0_r. unfold dropZ at 1.
    rewrite drop_0. unfold takeZ at 1. rewrite take_app_le, take_ge by lia. done.
Qed.

Lemma can_store_run tmax block s :
  can_tx_ok s -> cd_transmit_max s = tmax -> tmax + zlen block <= 96 ->
  exists s', can_sendf_store tmax (zlen block) block s = Ret tt s' /\ can_tx_ok s' /\
    can_pending s' = can_pending s ++ block /\ cd_sent s' = cd_sent s /\ cd_tx_wake s' = 1.
Proof.
  intros Hok <- Hsz. pose proof Hok as [Hl Hp Hm]. pose proof (zlen_nonneg block).
  unfold can_sendf_store, canserial_notify_tx, can_wake_task, gets, modify, bind, ret.
  rewrite (proj2 (Z.ltb_ge _ _)) by (unfold zlen in *; lia). eexists. split; [reflexivity|].
  rewrite u8_small by lia. split; [|split; [|done]].
  - split; cbn; try lia. unfold takeZ, dropZ, zlen in *. rewrite !length_app, length_take, length_drop. lia.
  - unfold can_pending. cbn. apply stored_pending; unfold zlen in *; lia.
Qed.

Section console.
Context {W : Type} {PC : Part W cmd_state} {PD : Part W canbus_data}.
Notation can w := (part_get w : canbus_data).
Notation cmd w := (part_get w : cmd_state).

(** The parser and the console are different parts of the world. *)
Context (disjoint : forall (s : canbus_data) (w : W), cmd (part_set s w) = cmd w).

(** Responses join the waiting bytes whole and in order: [console_sendf] appends the complete
    block and wakes the transmit task, or drops it when the waiting bytes leave no space for
    the largest message of its kind. *)
Theorem can_sendf_keeps_stream sizeof_int ce args len content (w : W) :
  can_tx_ok (can w) ->
  (forall w1 : W, command_encodef sizeof_int ce args w1 = Ret (len, content) w1) ->
  len = MESSAGE_MIN + zlen content -> len <= ce_max_size ce <= MESSAGE_MAX ->
  exists w', console_sendf sizeof_int ce args w = Ret tt w' /\ cmd w' = cmd w /\ can_tx_ok (can w') /\
    cd_sent (can w') = cd_sent (can w) /\
    (can_pending (can w') = can_pending (can w) ++ command_add_frame (next_sequence (cmd w)) len content /\
     cd_tx_wake (can w') = 1 \/
     can_pending (can w') = can_pending (can w) /\ 96 < zlen (can_pending (can w)) + ce_max_size ce).
Proof using disjoint.
  intros Hok Henc Hlen Hmax. unfold MESSAGE_MAX in *. pose proof (zlen_nonneg content).
  destruct (can_space_run (ce_max_size ce) (can w) Hok) as (r & s1 & E1 & Hok1 & P1 & S1 & Hr);
    [unfold MESSAGE_MIN in *; lia|].
  unfold console_sendf. rewrite (bind_Ret _ _ _ _ _ (zoom_Ret _ w _ _ E1)).
  destruct r as [tmax|].
  2: { exists (part_set s1 w). rewrite !part_get_set. split; [done|]. split; [apply disjoint|]. auto. }
  destruct Hr as [Hm Hsz]. set (block := command_add_frame (next_sequence (cmd w)) len content).
  assert (Ef : command_encode_and_frame sizeof_int ce args (part_set s1 w) = Ret (len, block) (part_set s1 w)).
  { unfold command_encode_and_frame. rewrite (bind_Ret _ _ _ _ _ (Henc _)).
    unfold cmd_gets, gets, bind, ret. by rewrite disjoint. }
  rewrite (bind_Ret _ _ _ _ _ Ef). assert (Hz : zlen block = len) by by apply zlen_add_frame. rewrite <- Hz.
  destruct (can_store_run tmax block s1 Hok1 Hm) as (s2 & E2 & Hok2 & P2 & S2 & En2); [lia|].
  exists (part_set s2 (part_set s1 w)). rewrite !part_get_set, !disjoint.
  split; [apply zoom_Ret; by rewrite part_get_set|]. split; [done|]. split; [done|]. split; [congruence|].
  left. by rewrite P2, P1.
Qed.
End console.

(** ** Node ids on a bus *)

(** The state a computation leaves behind, also when it shuts down. *)
Definition left_by {A} (o : outcome canbus_data A) (s : canbus_data) : canbus_data :=
  match o with Ret _ s' => s' | Shut _ s' => s' | Stuck => s end.

Section ids.
Context (bootloader_request : MC unit).

(** The boot loader request of a board resets the chip or does nothing. *)
Definition boot_ok : Prop := forall s,
  let s' := left_by (bootloader_request s) s in
  cd_uuid s' = cd_uuid s /\ (cd_assigned_id s' = cd_assigned_id s \/ cd_assigned_id s' = 0).

(** An admin frame is processed by every node of the bus. *)
Definition broadcast (nodes : list canbus_data) (m : canbus_msg) : list canbus_data :=
  (fun s => left_by (can_process_admin bootloader_request m s) s) <$> nodes.

Definition assigns (m : canbus_msg) : bool :=
  (8 <=? cm_dlc m) && (nthZ (cm_data m) 0 =? CANBUS_CMD_SET_KLIPPER_NODEID).
Definition named_id (m : canbus_msg) : Z := can_decode_nodeid (nthZ (cm_data m) 7).

Lemma named_id_range m : bytes (cm_data m) -> named_id m = 256 + 2 * nthZ (cm_data m) 7 /\ 256 <= named_id m < 768.
Proof.
  intros Hb%(bytes_nthZ _ 7). unfold named_id, can_decode_nodeid.
  rewrite Z.shiftl_mul_pow2 by lia. rewrite u32_small by lia. lia.
Qed.

Lemma send_retry_rest fuel m s :
  let s' := left_by (send_retry fuel m s) s in
  cd_uuid s' = cd_uuid s /\ cd_assigned_id s' = cd_assigned_id s.
Proof.
  revert s. induction fuel as [|fuel IH]; intros s; [done|]. cbn [send_retry]. unfold bind.
  destruct (can_send_run m s) as (s1 & ok & E & Hr & _ & _). rewrite E. unfold tx_rest in Hr.
  injection Hr as Ha Hu _ _ _ _ _ _ _ _.
  destruct (0 <=? (if ok then cm_dlc m else -1)); [cbn; done|].
  specialize (IH s1). cbn in IH |- *. destruct (send_retry fuel m s1); cbn in *; intuition congruence.
Qed.

(** The uuid and the id of a node after an admin frame. *)
Lemma admin_id m s :
  boot_ok ->
  let s' := left_by (can_process_admin bootloader_request m s) s in
  cd_uuid s' = cd_uuid s /\
  if assigns m then
    cd_assigned_id s' = if can_check_uuid m s then named_id m
                        else if named_id m =? cd_assigned_id s then 0 else cd_assigned_id s
  else cd_assigned_id s' = cd_assigned_id s \/ cd_assigned_id s' = 0.
Proof.
  intros Hboot. unfold can_process_admin, assigns.
  destruct (Z.eqb_spec (cm_dlc m) 0) as [E0|E0]; [rewrite E0; cbn; auto|].
  destruct (Z.eqb_spec (nthZ (cm_data m) 0) CANBUS_CMD_QUERY_UNASSIGNED) as [E1|E1].
  { rewrite E1, andb_false_r. unfold can_process_query_unassigned, gets, bind, ret.
    destruct (negb (cd_assigned_id s =? 0)); [cbn; auto|].
    destruct (send_retry_rest (S (length (cd_accepts s))) (mk_can CANBUS_ID_ADMIN_RESP 8
      (CANBUS_RESP_NEED_NODEID :: cd_uuid s ++ [CANBUS_CMD_SET_KLIPPER_NODEID])) s) as [Hu Ha].
    cbn in Hu, Ha |- *. auto. }
  destruct (Z.eqb_spec (nthZ (cm_data m) 0) CANBUS_CMD_SET_KLIPPER_NODEID) as [E2|E2]; rewrite ?andb_true_r, ?andb_false_r.
  - unfold can_process_set_klipper_nodeid. fold (named_id m).
    destruct (Z.ltb_spec (cm_dlc m) 8), (Z.leb_spec 8 (cm_dlc m)); try lia; [cbn; auto|].
    unfold gets, bind, modify, canserial_set_filter. destruct (can_check_uuid m s).
    + destruct (Z.eqb_spec (named_id m) (cd_assigned_id s)) as [E|E]; cbn; auto.
    + destruct (named_id m =? cd_assigned_id s); cbn; auto.
  - destruct (nthZ (cm_data m) 0 =? CANBUS_CMD_REQUEST_BOOTLOADER); [|cbn; auto].
    unfold can_process_request_bootloader, gets, bind. destruct (negb (can_check_uuid m s)); [cbn; auto|].
    apply Hboot.
Qed.

(** No two nodes have the same id. *)
Definition ids_unique (nodes : list canbus_data) : Prop :=
  forall i j a b, nodes !! i = Some a -> nodes !! j = Some b -> i <> j ->
    cd_assigned_id a <> 0 -> cd_assigned_id a <> cd_assigned_id b.

Lemma broadcast_uuids nodes m : boot_ok -> cd_uuid <$> broadcast nodes m = cd_uuid <$> nodes.
Proof.
  intros Hboot. unfold broadcast. rewrite <- list_fmap_compose. apply list_fmap_ext. intros i s _.
  apply (admin_id m s Hboot).
Qed.

Lemma broadcast_unique nodes m :
  boot_ok -> NoDup (cd_uuid <$> nodes) -> bytes (cm_data m) -> ids_unique nodes -> ids_unique (broadcast nodes m).
Proof.
  intros Hboot Hnd Hb Hu i j a' b' Ha Hb' Hne Ha0. unfold broadcast in *.
  rewrite list_lookup_fmap in Ha, Hb'.
  destruct (nodes !! i) as [a|] eqn:Ei; [|done]. destruct (nodes !! j) as [b|] eqn:Ej; [|done].
  injection Ha as <-. injection Hb' as <-. pose proof (named_id_range m Hb) as [_ Hr].
  assert (Huu : can_check_uuid m a = true -> can_check_uuid m b = true -> False).
  { unfold can_check_uuid. rewrite !andb_true_iff, !bool_decide_eq_true. intros [_ Ea] [_ Eb]. apply Hne.
    apply (NoDup_lookup (cd_uuid <$> nodes) i j (cd_uuid a)); [done| |];
      rewrite list_lookup_fmap, ?Ei, ?Ej; cbn; congruence. }
  pose proof (Hu i j a b Ei Ej Hne) as Hab. pose proof (Hu j i b a Ej Ei (not_eq_sym Hne)) as Hba.
  destruct (admin_id m a Hboot) as [_ Hia], (admin_id m b Hboot) as [_ Hib].
  destruct (assigns m).
  - rewrite Hia in *. rewrite Hib. destruct (can_check_uuid m a), (can_check_uuid m b); try (by exfalso; auto).
    + destruct (Z.eqb_spec (named_id m) (cd_assigned_id b)); [lia|congruence].
    + destruct (Z.eqb_spec (named_id m) (cd_assigned_id a)); [lia|congruence].
    + destruct (named_id m =? cd_assigned_id a), (named_id m =? cd_assigned_id b); auto; lia.
  - destruct Hia as [Hia|Hia], Hib as [Hib|Hib]; rewrite Hia in Ha0 |- *; rewrite Hib; auto; done.
Qed.

(** C14: Node ids are unique.  On a bus whose nodes have different uuids and no ids at the start,
    after any sequence of admin frames that all nodes have processed no two nodes have the
    same id. *)
Theorem node_ids_unique nodes ms :
  boot_ok -> NoDup (cd_uuid <$> nodes) -> Forall (fun s => cd_assigned_id s = 0) nodes ->
  Forall (fun m => bytes (cm_data m)) ms -> ids_unique (foldl broadcast nodes ms).
Proof.
  intros Hboot Hnd H0 Hms.
  assert (Hu : ids_unique nodes).
  { intros i j a b Ha _ _ Hne. rewrite Forall_lookup in H0. by destruct Hne; eapply H0. }
  clear H0. revert nodes Hnd Hu. induction Hms as [|m ms Hm _ IH]; intros nodes Hnd Hu; [done|].
  cbn [foldl]. apply IH; [by rewrite broadcast_uuids|by apply broadcast_unique].
Qed.

(** An assignment reaches the node it names, which then reports that id, and a node that had
    the id before gives it up and shuts down. *)
Theorem assignment_takes_effect m s :
  assigns m = true -> bytes (cm_data m) ->
  (can_check_uuid m s = true -> exists s', can_process_admin bootloader_request m s = Ret tt s' /\
     cd_assigned_id s' = named_id m /\ can_get_nodeid s' = nthZ (cm_data m) 7) /\
  (can_check_uuid m s = false -> cd_assigned_id s = named_id m ->
   exists s', can_process_admin bootloader_request m s = Shut "Another CAN node assigned this ID" s' /\
     cd_assigned_id s' = 0).
Proof.
  intros Ha Hb. pose proof (named_id_range m Hb) as [En Hr]. pose proof (bytes_nthZ _ 7 Hb) as H7.
  unfold assigns in Ha. apply andb_true_iff in Ha as [H8 H1]. apply Z.leb_le in H8. apply Z.eqb_eq in H1.
  assert (Hid : forall s', cd_assigned_id s' = named_id m -> can_get_nodeid s' = nthZ (cm_data m) 7).
  { intros s' E. unfold can_get_nodeid. rewrite E, En. rewrite (proj2 (Z.eqb_neq _ _)) by lia.
    rewrite u32_small, Z.shiftr_div_pow2 by lia. rewrite i32_small; change (2 ^ 1) with 2; Z.div_mod_to_equations; lia. }
  unfold can_process_admin. rewrite (proj2 (Z.eqb_neq (cm_dlc m) 0)) by lia. rewrite H1. cbn [Z.eqb].
  unfold can_process_set_klipper_nodeid. fold (named_id m). rewrite (proj2 (Z.ltb_ge (cm_dlc m) 8)) by lia.
  split.
  - intros Hc. unfold gets, bind, modify, canserial_set_filter, ret. cbn. rewrite Hc.
    destruct (Z.eqb_spec (named_id m) (cd_assigned_id s)) as [E|E]; cbn [negb]; eexists; (split; [reflexivity|]);
      split; auto.
  - intros Hc E. unfold gets, bind, modify, canserial_set_filter, can_id_conflict, shutdown. cbn.
    rewrite Hc, E, Z.eqb_refl. eexists. split; [reflexivity|done].
Qed.
End ids.

(** ** The admin frames are all handled *)

Section admin.
Context (bootloader_request : MC unit).

Definition ring_rest (s : canbus_data) :=
  (cd_receive_buf s, cd_receive_pos s, cd_admin_queue s, cd_admin_pull_pos s, cd_admin_push_pos s, cd_irqs s).

(** A computation that returns with the buffers as they were, or shuts down. *)
Definition keeps_ring (m : MC unit) : Prop := forall s,
  match m s with Ret _ s' => ring_rest s' = ring_rest s | Shut _ _ => True | Stuck => False end.

Lemma send_ring m s : exists r s', canserial_send m s = Ret r s' /\ ring_rest s' = ring_rest s /\
  length (cd_accepts s') = (length (cd_accepts s) - 1)%nat /\ (cd_accepts s = [] -> r = cm_dlc m).
Proof.
  unfold canserial_send, gets, modify, bind, ret. destruct (cd_accepts s) as [|[] l]; cbn;
    eexists _, _; (split; [reflexivity|]); (split; [done|]); (split; [cbn; lia|done]).
Qed.

Lemma send_retry_ring m : 0 <= cm_dlc m -> keeps_ring (fun s => send_retry (S (length (cd_accepts s))) m s).
Proof.
  intros Hd s. assert (Hgo : forall n s0, (length (cd_accepts s0) < n)%nat ->
    match send_retry n m s0 with Ret _ s' => ring_rest s' = ring_rest s0 | Shut _ _ => True | Stuck => False end).
  { induction n as [|n IH]; intros s0 Hn; [lia|]. cbn [send_retry].
    destruct (send_ring m s0) as (r & s1 & E & Hr & Hl & Hnil). rewrite (bind_Ret _ _ _ _ _ E).
    destruct (Z.leb_spec 0 r); [done|]. destruct (cd_accepts s0) as [|o l]; [rewrite Hnil in * by done; lia|].
    specialize (IH s1). cbn in *. destruct (send_retry n m s1); [rewrite IH; [done|lia]|done|apply IH; lia]. }
  apply Hgo. lia.
Qed.

Lemma admin_keeps_ring m : keeps_ring bootloader_request -> keeps_ring (can_process_admin bootloader_request m).
Proof.
  intros Hboot s. unfold can_process_admin. destruct (cm_dlc m =? 0); [done|].
  destruct (nthZ (cm_data m) 0 =? CANBUS_CMD_QUERY_UNASSIGNED).
  { unfold can_process_query_unassigned, gets, bind. destruct (negb (cd_assigned_id s =? 0)); [done|].
    apply (send_retry_ring (mk_can CANBUS_ID_ADMIN_RESP 8
      (CANBUS_RESP_NEED_NODEID :: cd_uuid s ++ [CANBUS_CMD_SET_KLIPPER_NODEID]))). cbn. lia. }
  destruct (nthZ (cm_data m) 0 =? CANBUS_CMD_SET_KLIPPER_NODEID).
  - unfold can_process_set_klipper_nodeid, gets, bind, modify, canserial_set_filter, can_id_conflict, shutdown.
    destruct (cm_dlc m <? 8); [done|]. destruct (can_check_uuid m s).
    + by destruct (negb (can_decode_nodeid (nthZ (cm_data m) 7) =? cd_assigned_id s)).
    + by destruct (can_decode_nodeid (nthZ (cm_data m) 7) =? cd_assigned_id s).
  - destruct (nthZ (cm_data m) 0 =? CANBUS_CMD_REQUEST_BOOTLOADER); [|done].
    unfold can_process_request_bootloader, gets, bind. destruct (negb (can_check_uuid m s)); [done|apply Hboot].
Qed.

(** The first pending frame, and the ring without it. *)
Lemma pop_admin s :
  can_ok s -> cd_admin_push_pos s <> cd_admin_pull_pos s ->
  exists m l, cd_admin_queue s !! Z.to_nat (cd_admin_pull_pos s mod 8) = Some m /\ pending_admin s = m :: l /\
    forall s', ring_rest s' = ring_rest s ->
      let s2 := s' <| cd_admin_pull_pos := cd_admin_pull_pos s + 1 |> in can_ok s2 /\ pending_admin s2 = l.
Proof.
  intros [H1 H2 H3 H4 H5 H6 H7] Hne.
  destruct (lookup_lt_is_Some_2 (cd_admin_queue s) (Z.to_nat (cd_admin_pull_pos s mod 8))) as [m Hm].
  { rewrite H3. Z.div_mod_to_equations. lia. }
  assert (Hlen : Z.to_nat (cd_admin_push_pos s - cd_admin_pull_pos s)
    = S (Z.to_nat (cd_admin_push_pos s - (cd_admin_pull_pos s + 1)))) by lia.
  eexists m, _. split; [done|]. split.
  { unfold pending_admin. rewrite Hlen. cbn [seq fmap list_fmap]. by rewrite Z.add_0_r, Hm. }
  intros s' Hr s2. unfold ring_rest in Hr. injection Hr as E1 E2 E3 E4 E5 E6. split.
  - split; unfold to_come, s2 in *; cbn; rewrite ?E1, ?E2, ?E3, ?E5, ?E6; try done; lia.
  - unfold pending_admin, s2. cbn [upd cd_admin_queue cd_admin_pull_pos cd_admin_push_pos]. rewrite E3, E5.
    rewrite <- fmap_S_seq, <- list_fmap_compose. apply list_fmap_ext. intros j i _. cbn. do 4 f_equal. lia.
Qed.

Lemma to_come_ran k s s' : can_ran k s s' ->
  (length (pending_admin s') + length (to_come s') <= length (pending_admin s) + length (to_come s))%nat.
Proof.
  intros (fs & _ & -> & _ & _ & -> & _). rewrite length_app.
  assert (forall l, length (foldl (add_admin (cd_assigned_id s)) l fs) <= length l + length fs)%nat as H.
  { clear. induction fs as [|m fs IH]; intros l; cbn; [lia|]. specialize (IH (add_admin (cd_assigned_id s) l m)).
    assert (length (add_admin (cd_assigned_id s) l m) <= length l + 1)%nat; [|lia].
    unfold add_admin. destruct (_ && _ && _); rewrite ?length_app; cbn; lia. }
  specialize (H (pending_admin s)). lia.
Qed.

(** The admin frames are all handled: the loop of [canserial_rx_task] ends, with an empty ring
    or with a shutdown, also when frames keep arriving while it runs. *)
Theorem admin_loop_ends s :
  keeps_ring bootloader_request -> can_ok s ->
  match admin_loop bootloader_request (admin_fuel s) s with
  | Ret _ s' => pending_admin s' = [] /\ can_ok s'
  | Shut _ _ => True
  | Stuck => False
  end.
Proof.
  intros Hboot Hok. assert (Hgo : forall n s0, can_ok s0 ->
    (length (pending_admin s0) + length (to_come s0) < n)%nat ->
    match admin_loop bootloader_request n s0 with
    | Ret _ s' => pending_admin s' = [] /\ can_ok s' | Shut _ _ => True | Stuck => False end).
  2: { apply Hgo; [done|]. rewrite length_admin by done. unfold admin_fuel, to_come. lia. }
  induction n as [|n IH]; intros s0 Hok0 Hn; [lia|]. cbn [admin_loop].
  destruct (can_irq_run s0 Hok0) as (k & s1 & E & Hok1 & _ & Hran). rewrite (bind_Ret _ _ _ _ _ E).
  pose proof (to_come_ran _ _ _ Hran) as Hle. unfold gets. unfold bind at 1 2.
  destruct (Z.eqb_spec (cd_admin_push_pos s1) (cd_admin_pull_pos s1)) as [Heq|Hne].
  { split; [|done]. apply length_zero_iff_nil. rewrite length_admin by done. lia. }
  destruct (pop_admin s1 Hok1 Hne) as (m & l & Hm & Hp & Hpop). unfold bind at 1. unfold bind at 1.
  rewrite Hm. cbn [deref ret]. unfold bind at 1. rewrite Hp in Hle. cbn [length] in Hle.
  assert (Hcont : forall s2, ring_rest s2 = ring_rest s1 ->
    match (modify (fun s => s <| cd_admin_pull_pos := u32 (cd_admin_pull_pos s1 + 1) |>) ;;
           admin_loop bootloader_request n) s2 with
    | Ret _ s' => pending_admin s' = [] /\ can_ok s' | Shut _ _ => True | Stuck => False end).
  { intros s2 Hr. unfold modify, bind. destruct Hok1 as [_ _ _ ? ? _ ?]. pose proof (zlen_nonneg (to_come s1)).
    rewrite u32_small by lia. destruct (Hpop s2 Hr) as [Hok2 Hp2]. apply IH; [done|]. rewrite Hp2.
    unfold to_come in *. cbn. unfold ring_rest in Hr. injection Hr as _ _ _ _ _ ->. lia. }
  unfold bind at 1. destruct (negb (cd_assigned_id s1 =? 0) && (cm_id m =? u32 (cd_assigned_id s1 + 1))); [done|].
  destruct (cm_id m =? CANBUS_ID_ADMIN); [|by apply Hcont].
  pose proof (admin_keeps_ring m Hboot s1) as Hk. destruct (can_process_admin bootloader_request m s1); [by apply Hcont|done|done].
Qed.
End admin.

(** The ring stalls: when its counters reach the last eight values of their type, the test for
    space wraps around, and every further admin frame is dropped although the ring is empty. *)
Lemma admin_ring_stalls m s :
  4294967288 <= cd_admin_pull_pos s < 4294967296 -> cd_admin_push_pos s = cd_admin_pull_pos s ->
  data_frame (cd_assigned_id s) m = false -> admin_frame (cd_assigned_id s) m = true ->
  canserial_process_data m s = Ret (-1) s.
Proof.
  intros Hp He Hd Ha. unfold canserial_process_data, gets, bind. fold (data_frame (cd_assigned_id s) m).
  fold (admin_frame (cd_assigned_id s) m). rewrite Hd, Ha, He.
  replace (u32 (cd_admin_pull_pos s + 8) <=? cd_admin_pull_pos s) with true; [done|].
  symmetry. apply Z.leb_le. wrap_lia.
Qed.

(** ** Witnesses: nodes on a bus *)

Definition demo_node (uuid : list Z) (aid : Z) (irqs : list (list canbus_msg)) : canbus_data :=
  mk_cd aid uuid 1 2 14 0 4 0 0 (replicate 8 admin_zero) ([0; 0; 1; 2; 3; 4; 5; 6; 7; 8; 9; 10; 11; 12] ++ replicate 82 0)
    ([1; 2; 3; 4] ++ replicate 188 0) 0 irqs [] [] [].

(** A data frame of three bytes, an admin frame and a frame of another node arrive while the
    first three bytes are removed. *)
Definition demo_frames : list canbus_msg :=
  [mk_can 260 3 [5; 6; 7; 0; 0; 0; 0; 0]; mk_can 1008 1 (repeat 0 8); mk_can 262 8 (repeat 9 8)].

Lemma can_pop_input_keeps_frames_witness :
  exists fs s', console_pop_input 3 (demo_node [1; 2; 3; 4; 5; 6] 260 [[]; demo_frames]) = Ret tt s' /\
    rx_held s' = dropZ 3 ([1; 2; 3; 4] ++ data_of 260 4 fs).
Proof.
  destruct (can_pop_input_keeps_frames 3 (demo_node [1; 2; 3; 4; 5; 6] 260 [[]; demo_frames]))
    as (fs & s' & E & _ & _ & Hc & _).
  - split; try (vm_compute; first [reflexivity|split; congruence|congruence]).
    repeat (apply Forall_cons; split; [split; [reflexivity|cbn; lia]|]). constructor.
  - cbn. lia.
  - exists fs, s'. split; [exact E|exact Hc].
Defined.

Lemma can_pop_example :
  match console_pop_input 3 (demo_node [1; 2; 3; 4; 5; 6] 260 [[]; demo_frames]) with
  | Ret _ s' => rx_held s' = [4; 5; 6; 7] /\ pending_admin s' = [mk_can 1008 1 (repeat 0 8)]
  | _ => False
  end.
Proof. vm_compute. by split. Qed.

Lemma can_tx_sends_in_order_witness :
  exists fs s', canserial_tx_task (demo_node [1; 2; 3; 4; 5; 6] 260 []) = Ret tt s' /\
    (fs ≫= cm_data) ++ can_pending s' = [1; 2; 3; 4; 5; 6; 7; 8; 9; 10; 11; 12] /\ can_pending s' = [].
Proof.
  destruct (can_tx_sends_in_order (demo_node [1; 2; 3; 4; 5; 6] 260 [])) as (fs & s' & E & _ & _ & _ & Hc & Hall).
  - split; vm_compute; first [reflexivity|split; congruence|congruence].
  - discriminate.
  - discriminate.
  - exists fs, s'. split; [exact E|]. split; [exact Hc|]. apply Hall. constructor.
Defined.

(** Two nodes are given the same id; the first one gives it up. *)
Definition demo_assign (uuid : list Z) (nodeid : Z) : canbus_msg := mk_can 1008 8 (1 :: uuid ++ [nodeid]).

Lemma node_ids_unique_witness :
  ids_unique (foldl (broadcast (ret tt))
    [demo_node [1; 2; 3; 4; 5; 6] 0 []; demo_node [1; 2; 3; 4; 5; 7] 0 []]
    [demo_assign [1; 2; 3; 4; 5; 6] 4; demo_assign [1; 2; 3; 4; 5; 7] 4]).
Proof.
  apply node_ids_unique.
  - intros s. cbn. auto.
  - repeat constructor; set_solver.
  - repeat constructor.
  - repeat constructor; lia.
Defined.

Lemma node_ids_example :
  cd_assigned_id <$> foldl (broadcast (ret tt))
    [demo_node [1; 2; 3; 4; 5; 6] 0 []; demo_node [1; 2; 3; 4; 5; 7] 0 []]
    [demo_assign [1; 2; 3; 4; 5; 6] 4; demo_assign [1; 2; 3; 4; 5; 7] 4] = [0; 264].
Proof. vm_compute. reflexivity. Qed.
