(* ===== verification/Usbcdc.v ===== *)
(** * The USB console of the firmware (src/generic/usb_cdc.c)

    A board gives access to its USB controller through the functions of usb_cdc.h.  Their
    results are oracles in the state: what the bulk endpoints accept and deliver, and what
    endpoint 0 answers.  A statement for all oracles is a statement for all behaviours of the
    controller and of the host.  The bulk endpoints carry the message blocks; endpoint 0
    serves the requests by which the host identifies and configures the device. *)

From S2P Require Import Prelude Wire Command.

(** ** The standard (src/generic/usbstd.h, usbstd_cdc.h, usb_cdc.h) *)

Definition USB_DIR_IN : Z := 128.
Definition USB_REQ_SET_ADDRESS : Z := 5.
Definition USB_REQ_GET_DESCRIPTOR : Z := 6.
Definition USB_REQ_SET_CONFIGURATION : Z := 9.
Definition USB_DT_DEVICE : Z := 1.
Definition USB_DT_CONFIG : Z := 2.
Definition USB_DT_STRING : Z := 3.
Definition USB_DT_INTERFACE : Z := 4.
Definition USB_DT_ENDPOINT : Z := 5.
Definition USB_CLASS_COMM : Z := 2.
Definition USB_ENDPOINT_XFER_BULK : Z := 2.
Definition USB_ENDPOINT_XFER_INT : Z := 3.
Definition USB_LANGID_ENGLISH_US : Z := 1033.
Definition USB_CDC_SUBCLASS_ACM : Z := 2.
Definition USB_CDC_ACM_PROTO_AT_V25TER : Z := 1.
Definition USB_CDC_HEADER_TYPE : Z := 0.
Definition USB_CDC_ACM_TYPE : Z := 2.
Definition USB_CDC_UNION_TYPE : Z := 6.
Definition USB_CDC_CS_INTERFACE : Z := 36.
Definition USB_CDC_REQ_SET_LINE_CODING : Z := 32.
Definition USB_CDC_REQ_GET_LINE_CODING : Z := 33.
Definition USB_CDC_REQ_SET_CONTROL_LINE_STATE : Z := 34.

Definition USB_CDC_EP0_SIZE : Z := 16.
Definition USB_CDC_EP_ACM_SIZE : Z := 8.
Definition USB_CDC_EP_BULK_OUT_SIZE : Z := 64.
Definition USB_CDC_EP_BULK_IN_SIZE : Z := 64.

Record usb_ctrlrequest := mk_req {
  bRequestType : Z; bRequest : Z; wValue : Z; wIndex : Z; wLength : Z }.

(** A value of 16 bits in the order of the bus, which is that of the supported processors. *)
Definition le16 (v : Z) : list Z := [u8 v; u8 (Z.shiftr v 8)].

(** ** The board and its configuration *)

(** [fast8_is_byte]: whether [uint_fast8_t] has 8 bits (AVR) or 32.  The strings are those of
    CONFIG_MCU and CONFIG_USB_SERIAL_NUMBER in 16-bit units; [usbserial_get_serialid] is the
    descriptor that a board makes of its chip id. *)
Class UsbBoard := {
  fast8_is_byte : bool;
  NEED_PROGMEM : bool;
  CONFIG_USB_SERIAL_NUMBER_CHIPID : bool;
  CONFIG_USB_VENDOR_ID : Z;
  CONFIG_USB_DEVICE_ID : Z;
  USB_STR_PRODUCT : list Z;
  USB_STR_SERIAL : list Z;
  usbserial_get_serialid : list Z;
  USB_CDC_EP_BULK_IN : Z;
  USB_CDC_EP_BULK_OUT : Z;
  USB_CDC_EP_ACM : Z;
}.

Definition uint_fast8 `{UsbBoard} (z : Z) : Z := if fast8_is_byte then u8 z else u32 z.

(** ** The state *)

(** The answer of endpoint 0 to a call: -1, success (with the data of a read), or -2. *)
Inductive ep0_answer := EA_busy | EA_done (data : list Z) | EA_error.

(** What the firmware does with endpoint 0 and the device. *)
Inductive usb_event :=
| Ue_packet (data : list Z) | Ue_stall | Ue_address (addr : Z) | Ue_configure | Ue_bootloader.

(** [usb_xfer_data]: the rest of a constant, or a position in the variable [obj]. *)
Inductive xfer_ptr := XP_const (l : list Z) | XP_var (obj : nat) (pos : Z).

(** [us_sent]: the bytes taken by the bulk endpoint.  [us_in_answers]: results of
    [usb_send_bulk_in], -1 when there are no more.  [us_packets]: results of
    [usb_read_bulk_out], [None] for -1.  [us_setup]: results of [usb_read_ep0_setup].
    [us_vars]: the bytes of the variables that requests access. *)
Record usb_state := mk_usb {
  transmit_buf : list Z; transmit_pos : Z; usb_bulk_in_wake : Z;
  receive_buf : list Z; receive_pos : Z; usb_bulk_out_wake : Z;
  usb_xfer_data : xfer_ptr; usb_xfer_size : Z; usb_xfer_flags : Z; usb_ep0_wake : Z;
  us_vars : list (list Z); line_control_state : Z;
  us_sent : list Z; us_in_answers : list Z; us_packets : list (option (list Z));
  us_ep0 : list ep0_answer; us_setup : list (option (list Z)); us_log : list usb_event }.
#[export] Instance eta_usb : Settable usb_state := fun s =>
  mk_usb (transmit_buf s) (transmit_pos s) (usb_bulk_in_wake s)
    (receive_buf s) (receive_pos s) (usb_bulk_out_wake s)
    (usb_xfer_data s) (usb_xfer_size s) (usb_xfer_flags s) (usb_ep0_wake s)
    (us_vars s) (line_control_state s)
    (us_sent s) (us_in_answers s) (us_packets s) (us_ep0 s) (us_setup s) (us_log s).

Notation MU := (M usb_state).

Definition usb_emit (e : usb_event) : MU unit := modify (fun s => s <| us_log ::= fun l => l ++ [e] |>).

(** ** The functions of the board *)

(** At most what it is given is taken. *)
Definition usb_send_bulk_in (data : list Z) : MU Z :=
  l <- gets us_in_answers ;;
  match l with
  | [] => ret (-1)
  | r :: l =>
      let r := Z.min r (zlen data) in
      modify (fun s => s <| us_in_answers := l |> <| us_sent ::= fun k => k ++ takeZ r data |>) ;; ret r
  end.

Definition usb_read_bulk_out : MU (option (list Z)) :=
  l <- gets us_packets ;;
  match l with
  | [] => ret None
  | p :: l => modify (fun s => s <| us_packets := l |>) ;; ret p
  end.

Definition usb_read_ep0_setup : MU (option (list Z)) :=
  l <- gets us_setup ;;
  match l with
  | [] => ret None
  | p :: l => modify (fun s => s <| us_setup := l |>) ;; ret p
  end.

Definition ep0_next : MU ep0_answer :=
  l <- gets us_ep0 ;;
  match l with
  | [] => ret EA_busy
  | a :: l => modify (fun s => s <| us_ep0 := l |>) ;; ret a
  end.

(** [usb_send_ep0] and [usb_send_ep0_progmem], which differ in where the data is. *)
Definition usb_send_ep0 (data : list Z) : MU Z :=
  a <- ep0_next ;;
  match a with
  | EA_busy => ret (-1)
  | EA_done _ => usb_emit (Ue_packet data) ;; ret (zlen data)
  | EA_error => ret (-2)
  end.

(** The result of [usb_read_ep0] and the bytes it stores. *)
Definition usb_read_ep0 (max_len : Z) : MU (Z * list Z) :=
  a <- ep0_next ;;
  match a with
  | EA_busy => ret (-1, [])
  | EA_done data => let data := takeZ max_len data in ret (zlen data, data)
  | EA_error => ret (-2, [])
  end.

(** ** Wakes *)

Definition usb_notify_bulk_in : MU unit := modify (fun s => s <| usb_bulk_in_wake := 1 |>).
Definition usb_notify_bulk_out : MU unit := modify (fun s => s <| usb_bulk_out_wake := 1 |>).
Definition usb_notify_ep0 : MU unit := modify (fun s => s <| usb_ep0_wake := 1 |>).

(** [sched_check_wake]. *)
Definition usb_check_wake (get : usb_state -> Z) (put : Z -> usb_state -> usb_state) : MU bool :=
  w <- gets get ;;
  if z2b w then modify (put 0) ;; ret true else ret false.

(** ** Message block sending *)

Section device.
Context {board : UsbBoard}.

(** [memmove(buf, &buf[src], n)]. *)
Definition move_front (src n : Z) (buf : list Z) : option (list Z) :=
  if (src <? 0) || (zlen buf <? src + n) then None
  else Some (takeZ n (dropZ src buf) ++ dropZ n buf).

Definition usb_bulk_in_task : MU unit :=
  woken <- usb_check_wake usb_bulk_in_wake (fun v s => s <| usb_bulk_in_wake := v |>) ;;
  if negb woken then ret tt
  else
    tpos <- gets transmit_pos ;;
    if tpos =? 0 then ret tt
    else
      let max_tpos := if USB_CDC_EP_BULK_IN_SIZE <? tpos then USB_CDC_EP_BULK_IN_SIZE else tpos in
      buf <- gets transmit_buf ;;
      r <- usb_send_bulk_in (takeZ max_tpos buf) ;;
      if r <=? 0 then ret tt
      else
        let needcopy := uint_fast8 (tpos - r) in
        when (z2b needcopy)
          (buf' <- deref (move_front r needcopy buf) ;;
           modify (fun s => s <| transmit_buf := buf' |>) ;;
           usb_notify_bulk_in) ;;
        modify (fun s => s <| transmit_pos := u8 needcopy |>).

(** The message is stored at [tpos]; a store past the end of the buffer is stuck. *)
Definition usb_sendf_store (tpos msglen : Z) (block : list Z) : MU unit :=
  buf <- gets transmit_buf ;;
  if zlen buf <? tpos + zlen block then stuck
  else
    modify (fun s => s <| transmit_buf := takeZ tpos buf ++ block ++ dropZ (tpos + zlen block) buf |>) ;;
    modify (fun s => s <| transmit_pos := u8 (tpos + msglen) |>) ;;
    usb_notify_bulk_in.

(** [sizeof(transmit_buf)] and [sizeof(receive_buf)]. *)
Definition TRANSMIT_SIZE : Z := 192.
Definition RECEIVE_SIZE : Z := 128.

Section console.
Context {W : Type} {PC : Part W cmd_state} {PU : Part W usb_state}.

Definition console_sendf (sizeof_int : Z) (ce : command_encoder) (args : list va_arg) : M W unit :=
  s <- gets (fun w => part_get w : usb_state) ;;
  let tpos := transmit_pos s in
  if TRANSMIT_SIZE <? tpos + ce_max_size ce then ret tt
  else
    '(msglen, block) <- command_encode_and_frame sizeof_int ce args ;;
    zoom (usb_sendf_store tpos msglen block).

(** ** Message block reading *)

(** The read at the start of [usb_bulk_out_task]: the new [rpos]. *)
Definition bulk_out_read : MU Z :=
  rpos <- gets receive_pos ;;
  if rpos + USB_CDC_EP_BULK_OUT_SIZE <=? RECEIVE_SIZE then
    p <- usb_read_bulk_out ;;
    match p with
    | Some data =>
        buf <- gets receive_buf ;;
        if zlen buf <? rpos + zlen data then stuck
        else
          modify (fun s => s <| receive_buf := takeZ rpos buf ++ data ++ dropZ (rpos + zlen data) buf |>) ;;
          when (0 <? zlen data) usb_notify_bulk_out ;;
          ret (rpos + zlen data)
    | None => ret rpos
    end
  else usb_notify_bulk_out ;; ret rpos.

(** The move at its end: the new [receive_pos]. *)
Definition bulk_out_pop (rpos r pop_count : Z) : MU unit :=
  rpos <- (if r =? 0 then ret rpos
           else
             let needcopy := uint_fast8 (rpos - pop_count) in
             when (z2b needcopy)
               (buf <- gets receive_buf ;;
                buf' <- deref (move_front pop_count needcopy buf) ;;
                modify (fun s => s <| receive_buf := buf' |>) ;;
                usb_notify_bulk_out) ;;
             ret needcopy) ;;
  modify (fun s => s <| receive_pos := u8 rpos |>).

Context {CE : CommandEnv W}.

Definition usb_bulk_out_task : M W unit :=
  woken <- zoom (usb_check_wake usb_bulk_out_wake (fun v s => s <| usb_bulk_out_wake := v |>)) ;;
  if negb woken then ret tt
  else
    rpos <- zoom bulk_out_read ;;
    s <- gets (fun w => part_get w : usb_state) ;;
    '(r, pop_count) <- command_find_and_dispatch (takeZ rpos (receive_buf s)) ;;
    zoom (bulk_out_pop rpos r pop_count).
End console.

(** ** Descriptors *)

Definition USB_STR_ID_MANUFACTURER : Z := 1.
Definition USB_STR_ID_PRODUCT : Z := 2.
Definition USB_STR_ID_SERIAL : Z := 3.

(** A string descriptor: two bytes and then 16-bit units. *)
Definition string_descriptor (units : list Z) : list Z :=
  [u8 (2 + 2 * zlen units); USB_DT_STRING] ++ (units ≫= le16).

(** ["Klipper"]. *)
Definition USB_STR_MANUFACTURER : list Z := [75; 108; 105; 112; 112; 101; 114].

Definition cdc_string_langids : list Z := string_descriptor [USB_LANGID_ENGLISH_US].
Definition cdc_string_manufacturer : list Z := string_descriptor USB_STR_MANUFACTURER.
Definition cdc_string_product : list Z := string_descriptor USB_STR_PRODUCT.
Definition cdc_string_serial : list Z := string_descriptor USB_STR_SERIAL.

(** The packed bytes of [struct usb_device_descriptor]; fields without an initialiser are 0. *)
Definition cdc_device_descriptor : list Z :=
  [18; USB_DT_DEVICE] ++ le16 512 ++ [USB_CLASS_COMM; 0; 0; USB_CDC_EP0_SIZE] ++
  le16 CONFIG_USB_VENDOR_ID ++ le16 CONFIG_USB_DEVICE_ID ++ le16 256 ++
  [USB_STR_ID_MANUFACTURER; USB_STR_ID_PRODUCT; USB_STR_ID_SERIAL; 1].

Definition endpoint_descriptor (address attributes size interval : Z) : list Z :=
  [7; USB_DT_ENDPOINT; address; attributes] ++ le16 size ++ [interval].

(** The parts of [struct config_s] behind the first. *)
Definition config_parts : list (list Z) :=
  [ [9; USB_DT_INTERFACE; 0; 0; 1; USB_CLASS_COMM; USB_CDC_SUBCLASS_ACM; USB_CDC_ACM_PROTO_AT_V25TER; 0];
    [5; USB_CDC_CS_INTERFACE; USB_CDC_HEADER_TYPE] ++ le16 272;
    [4; USB_CDC_CS_INTERFACE; USB_CDC_ACM_TYPE; 6];
    [5; USB_CDC_CS_INTERFACE; USB_CDC_UNION_TYPE; 0; 1];
    endpoint_descriptor (Z.lor USB_CDC_EP_ACM USB_DIR_IN) USB_ENDPOINT_XFER_INT USB_CDC_EP_ACM_SIZE 255;
    [9; USB_DT_INTERFACE; 1; 0; 2; 10; 0; 0; 0];
    endpoint_descriptor USB_CDC_EP_BULK_OUT USB_ENDPOINT_XFER_BULK USB_CDC_EP_BULK_OUT_SIZE 0;
    endpoint_descriptor (Z.lor USB_CDC_EP_BULK_IN USB_DIR_IN) USB_ENDPOINT_XFER_BULK USB_CDC_EP_BULK_IN_SIZE 0 ].

Definition cdc_config_descriptor : list Z :=
  [9; USB_DT_CONFIG] ++ le16 62 ++ [2; 1; 0; 192; 50] ++ concat config_parts.

(** [struct descriptor_s]; its size is that of the bytes. *)
Record descriptor_s := mk_descriptor { d_wValue : Z; d_wIndex : Z; d_desc : list Z }.

Definition string_id (id : Z) : Z := Z.lor (Z.shiftl USB_DT_STRING 8) id.

Definition cdc_descriptors : list descriptor_s :=
  [ mk_descriptor (Z.shiftl USB_DT_DEVICE 8) 0 cdc_device_descriptor;
    mk_descriptor (Z.shiftl USB_DT_CONFIG 8) 0 cdc_config_descriptor;
    mk_descriptor (Z.shiftl USB_DT_STRING 8) 0 cdc_string_langids;
    mk_descriptor (string_id USB_STR_ID_MANUFACTURER) USB_LANGID_ENGLISH_US cdc_string_manufacturer;
    mk_descriptor (string_id USB_STR_ID_PRODUCT) USB_LANGID_ENGLISH_US cdc_string_product ] ++
  (if CONFIG_USB_SERIAL_NUMBER_CHIPID then []
   else [mk_descriptor (string_id USB_STR_ID_SERIAL) USB_LANGID_ENGLISH_US cdc_string_serial]).

(** The character [i] that [usb_fill_serial] makes of the chip id, and the descriptor. *)
Definition serial_char (id : list Z) (i : Z) : Z :=
  let b := nthZ id (i / 2) in
  let c := if has i 1 then Z.land b 15 else Z.shiftr b 4 in
  if c <? 10 then c + 48 else c - 10 + 65.

Definition usb_fill_serial (strlen : nat) (id : list Z) : list Z :=
  [u8 (2 + 2 * Z.of_nat strlen); USB_DT_STRING]
    ++ (((fun i => serial_char id (Z.of_nat i)) <$> seq 0 strlen) ≫= le16).

(** ** Endpoint 0 *)

Definition UX_READ : Z := 1.
Definition UX_SEND : Z := 2.
Definition UX_SEND_PROGMEM : Z := 4.
Definition UX_SEND_ZLP : Z := 8.

Definition usb_stall_ep0 : MU unit := usb_emit Ue_stall.

Definition usb_do_stall : MU unit :=
  usb_stall_ep0 ;; modify (fun s => s <| usb_xfer_flags := 0 |>).

(** Access through [data]; outside of the object it is stuck. *)
Definition ptr_load (p : xfer_ptr) (n : Z) : MU (list Z) :=
  vars <- gets us_vars ;;
  let l := match p with XP_const l => l | XP_var obj pos => dropZ pos (nth obj vars []) end in
  if zlen l <? n then stuck else ret (takeZ n l).

Definition ptr_store (p : xfer_ptr) (data : list Z) : MU unit :=
  match data, p with
  | [], _ => ret tt
  | _, XP_const _ => stuck
  | _, XP_var obj pos =>
      vars <- gets us_vars ;;
      let l := nth obj vars [] in
      if zlen l <? pos + zlen data then stuck
      else modify (fun s => s <| us_vars ::= <[obj := takeZ pos l ++ data ++ dropZ (pos + zlen data) l]> |>)
  end.

Definition ptr_add (p : xfer_ptr) (n : Z) : xfer_ptr :=
  match p with XP_const l => XP_const (dropZ n l) | XP_var obj pos => XP_var obj (pos + n) end.

(** The call of the board in [usb_do_xfer]: the result for [xs] bytes. *)
Definition xfer_call (data : xfer_ptr) (xs flags : Z) : MU Z :=
  if has flags UX_READ then
    '(r, l) <- usb_read_ep0 xs ;; ptr_store data l ;; ret r
  else l <- ptr_load data xs ;; usb_send_ep0 l.

(** Every turn but the last moves 16 of at most 255 bytes, ends a read, or has sent the last
    full packet, so that 18 turns are enough. *)
Fixpoint usb_do_xfer (fuel : nat) (data : xfer_ptr) (size flags : Z) : MU unit :=
  match fuel with
  | O => stuck
  | S fuel =>
      let xs := if USB_CDC_EP0_SIZE <? size then USB_CDC_EP0_SIZE else size in
      r <- xfer_call data xs flags ;;
      if r =? xs then
        let data := ptr_add data xs in
        let size := size - xs in
        if size =? 0 then
          if has flags UX_READ then usb_do_xfer fuel data size UX_SEND
          else if (xs =? USB_CDC_EP0_SIZE) && has flags UX_SEND_ZLP then usb_do_xfer fuel data size flags
          else modify (fun s => s <| usb_xfer_flags := 0 |>) ;; usb_notify_ep0
        else usb_do_xfer fuel data size flags
      else if r =? -1 then
        modify (fun s => s <| usb_xfer_data := data |> <| usb_xfer_size := size |> <| usb_xfer_flags := flags |>)
      else usb_do_stall
  end.

Definition XFER_FUEL : nat := 18.

(** [usb_do_xfer] of a [uint_fast8_t] size. *)
Definition usb_xfer (data : xfer_ptr) (size flags : Z) : MU unit := usb_do_xfer XFER_FUEL data size flags.

(** The loop over the table of descriptors and the serial number of the chip: the descriptor,
    its size and the flags. *)
Definition find_descriptor (table : list descriptor_s) (req : usb_ctrlrequest) : option (list Z * Z * Z) :=
  let const :=
    foldl (fun found d =>
             if (d_wValue d =? wValue req) && (d_wIndex d =? wIndex req)
             then Some (d_desc d, zlen (d_desc d), if NEED_PROGMEM then UX_SEND_PROGMEM else UX_SEND)
             else found) None table in
  if CONFIG_USB_SERIAL_NUMBER_CHIPID && (wValue req =? string_id USB_STR_ID_SERIAL)
     && (wIndex req =? USB_LANGID_ENGLISH_US)
  then Some (usbserial_get_serialid, nthZ usbserial_get_serialid 0, UX_SEND)
  else const.

Definition usb_req_get_descriptor (table : list descriptor_s) (req : usb_ctrlrequest) : MU unit :=
  if negb (bRequestType req =? USB_DIR_IN) then usb_do_stall
  else
    match find_descriptor table req with
    | Some (desc, size, flags) =>
        let '(size, flags) :=
          if wLength req <? size then (wLength req, flags)
          else if size <? wLength req then (size, Z.lor flags UX_SEND_ZLP)
          else (size, flags) in
        usb_xfer (XP_const desc) size flags
    | None => usb_do_stall
    end.

Definition usb_req_set_address (req : usb_ctrlrequest) : MU unit :=
  if z2b (bRequestType req) || z2b (wIndex req) || z2b (wLength req) then usb_do_stall
  else usb_emit (Ue_address (uint_fast8 (wValue req))).

Definition usb_req_set_configuration (req : usb_ctrlrequest) : MU unit :=
  if z2b (bRequestType req) || negb (wValue req =? 1) || z2b (wIndex req) || z2b (wLength req)
  then usb_do_stall
  else
    usb_emit Ue_configure ;;
    usb_notify_bulk_in ;;
    usb_notify_bulk_out ;;
    usb_xfer (XP_const []) 0 UX_SEND.

(** The variable [line_coding], and its [sizeof]. *)
Definition LINE_CODING : nat := 0.
Definition LINE_CODING_SIZE : Z := 7.
Definition line_coding (s : usb_state) : list Z := nth LINE_CODING (us_vars s) [].

(** [line_coding.dwDTERate]. *)
Definition dwDTERate (l : list Z) : Z :=
  nthZ l 0 + 256 * nthZ l 1 + 65536 * nthZ l 2 + 16777216 * nthZ l 3.

Definition check_reboot : MU unit :=
  s <- gets id ;;
  when ((dwDTERate (line_coding s) =? 1200) && negb (has (line_control_state s) 1)) (usb_emit Ue_bootloader).

Definition usb_req_set_line_coding (req : usb_ctrlrequest) : MU unit :=
  if negb (bRequestType req =? 33) || z2b (wValue req) || z2b (wIndex req)
     || negb (wLength req =? LINE_CODING_SIZE) then usb_do_stall
  else usb_xfer (XP_var LINE_CODING 0) LINE_CODING_SIZE UX_READ ;; check_reboot.

Definition usb_req_get_line_coding (req : usb_ctrlrequest) : MU unit :=
  if negb (bRequestType req =? 161) || z2b (wValue req) || z2b (wIndex req)
     || (wLength req <? LINE_CODING_SIZE) then usb_do_stall
  else usb_xfer (XP_var LINE_CODING 0) LINE_CODING_SIZE UX_SEND.

Definition usb_req_set_line (req : usb_ctrlrequest) : MU unit :=
  if negb (bRequestType req =? 33) || z2b (wIndex req) || z2b (wLength req) then usb_do_stall
  else
    modify (fun s => s <| line_control_state := u8 (wValue req) |>) ;;
    usb_xfer (XP_const []) 0 UX_SEND ;;
    check_reboot.

(** [struct usb_ctrlrequest] from its eight bytes. *)
Definition req_of (l : list Z) : usb_ctrlrequest :=
  mk_req (nthZ l 0) (nthZ l 1) (nthZ l 2 + 256 * nthZ l 3) (nthZ l 4 + 256 * nthZ l 5)
    (nthZ l 6 + 256 * nthZ l 7).

(** The [switch] of [usb_state_ready]. *)
Definition usb_request (req : usb_ctrlrequest) : MU unit :=
  let r := bRequest req in
  if r =? USB_REQ_GET_DESCRIPTOR then usb_req_get_descriptor cdc_descriptors req
  else if r =? USB_REQ_SET_ADDRESS then usb_req_set_address req
  else if r =? USB_REQ_SET_CONFIGURATION then usb_req_set_configuration req
  else if r =? USB_CDC_REQ_SET_LINE_CODING then usb_req_set_line_coding req
  else if r =? USB_CDC_REQ_GET_LINE_CODING then usb_req_get_line_coding req
  else if r =? USB_CDC_REQ_SET_CONTROL_LINE_STATE then usb_req_set_line req
  else usb_do_stall.

(** [usb_state_ready] and [usb_ep0_task], over the [switch] on a request. *)
Definition state_ready (request : usb_ctrlrequest -> MU unit) : MU unit :=
  p <- usb_read_ep0_setup ;;
  match p with
  | Some l => if zlen l =? 8 then request (req_of l) else ret tt
  | None => ret tt
  end.

Definition ep0_task (request : usb_ctrlrequest -> MU unit) : MU unit :=
  woken <- usb_check_wake usb_ep0_wake (fun v s => s <| usb_ep0_wake := v |>) ;;
  if negb woken then ret tt
  else
    s <- gets id ;;
    if z2b (usb_xfer_flags s) then usb_xfer (usb_xfer_data s) (usb_xfer_size s) (usb_xfer_flags s)
    else state_ready request.

Definition usb_state_ready : MU unit := state_ready usb_request.
Definition usb_ep0_task : MU unit := ep0_task usb_request.

Definition usb_shutdown : MU unit :=
  usb_notify_bulk_in ;; usb_notify_bulk_out ;; usb_notify_ep0.
End device.
