(* ===== verification/UsbcdcFacts.v ===== *)
(** * The USB console: streams and transfers

    The receive buffer has room for one packet more than the largest message block needs, so
    that it never blocks the endpoint; what the bulk endpoints carry is the stream of message
    blocks.  A descriptor reaches the host in packets from which it can tell the end. *)

From S2P Require Import Prelude Wire Command CommandFacts Usbcdc.

(** ** Buffers *)

Lemma zlen_takeZ {A} n (l : list A) : 0 <= n <= zlen l -> zlen (takeZ n l) = n.
Proof. intros H. unfold zlen, takeZ in *. rewrite length_take. lia. Qed.

Lemma zlen_dropZ {A} n (l : list A) : 0 <= n <= zlen l -> zlen (dropZ n l) = zlen l - n.
Proof. intros H. unfold zlen, dropZ in *. rewrite length_drop. lia. Qed.

Lemma takeZ_app_zlen {A} (l k : list A) : takeZ (zlen l) (l ++ k) = l.
Proof. unfold takeZ, zlen. rewrite Nat2Z.id. apply take_app_length. Qed.

Lemma takeZ_all {A} (l : list A) : takeZ (zlen l) l = l.
Proof. unfold takeZ, zlen. rewrite Nat2Z.id. apply firstn_all. Qed.

Lemma takeZ_takeZ {A} n m (l : list A) : 0 <= n <= m -> takeZ n (takeZ m l) = takeZ n l.
Proof. intros H. unfold takeZ. rewrite take_take. f_equal. lia. Qed.

Lemma take_drop_Z {A} n (l : list A) : takeZ n l ++ dropZ n l = l.
Proof. apply take_drop. Qed.

(** What is in front of [rpos + n] moves to the front. *)
Lemma move_front_run src n buf :
  0 <= src -> 0 <= n -> src + n <= zlen buf ->
  exists buf', move_front src n buf = Some buf' /\ length buf' = length buf /\
    takeZ n buf' = dropZ src (takeZ (src + n) buf).
Proof.
  intros Hs Hn Hl. unfold move_front. destruct (Z.ltb_spec src 0); [lia|].
  destruct (Z.ltb_spec (zlen buf) (src + n)); [lia|]. eexists. split; [done|].
  unfold takeZ, dropZ, zlen in *. split.
  - rewrite length_app, length_take, !length_drop. lia.
  - rewrite take_app_length' by (rewrite length_take, length_drop; lia).
    rewrite skipn_firstn_comm. f_equal. lia.
Qed.

(** Bytes stored at [pos]. *)
Lemma store_front pos (l buf : list Z) :
  0 <= pos -> pos + zlen l <= zlen buf ->
  let buf' := takeZ pos buf ++ l ++ dropZ (pos + zlen l) buf in
  length buf' = length buf /\ takeZ (pos + zlen l) buf' = takeZ pos buf ++ l /\ takeZ pos buf' = takeZ pos buf.
Proof.
  intros Hp Hl. pose proof (zlen_nonneg l). cbn zeta.
  assert (Hz : zlen (takeZ pos buf) = pos) by (apply zlen_takeZ; lia). split; [|split].
  - unfold takeZ, dropZ, zlen in *. rewrite !length_app, length_take, length_drop. lia.
  - rewrite app_assoc. rewrite <- Hz at 1. rewrite <- zlen_app. apply takeZ_app_zlen.
  - rewrite <- Hz at 1. apply takeZ_app_zlen.
Qed.

(** ** Code that leaves a part of the world alone *)

Definition same {W X : Type} (f : W -> X) (w w' : W) : Prop := f w' = f w.
#[export] Instance same_preorder {W X} (f : W -> X) : PreOrder (same f).
Proof. split; [done|]. intros w1 w2 w3 H1 H2. unfold same in *. congruence. Qed.
Notation frames f m := (op_keeps (same f) m).

Lemma frames_gets {W X A} (f : W -> X) (g : W -> A) : frames f (gets g).
Proof. by intros w. Qed.

Lemma frames_bind {W X A B} (f : W -> X) (m : M W A) (k : A -> M W B) :
  frames f m -> (forall a, frames f (k a)) -> frames f (bind m k).
Proof. apply op_keeps_bind, _. Qed.

Section bulk.
Context {board : UsbBoard}.

(** *** The endpoint to the firmware *)

Definition held (s : usb_state) : list Z := takeZ (receive_pos s) (receive_buf s).

Definition packet_ok (p : option (list Z)) : Prop :=
  match p with Some l => zlen l <= USB_CDC_EP_BULK_OUT_SIZE /\ bytes l | None => True end.

(** What the task relies on, and when it runs: a full buffer wakes it. *)
Record rx_core (s : usb_state) : Prop := {
  rx_len : length (receive_buf s) = 128%nat;
  rx_range : 0 <= receive_pos s <= RECEIVE_SIZE;
  rx_bytes : bytes (held s);
  rx_packets : Forall packet_ok (us_packets s) }.
Definition rx_ok (s : usb_state) : Prop :=
  rx_core s /\ (64 < receive_pos s -> usb_bulk_out_wake s = 1).

(** Room for a packet. *)
Definition has_room (s : usb_state) : bool := receive_pos s <=? 64.

(** The packet that the next pass reads, and the packets that are left. *)
Definition next_packet (s : usb_state) : list Z :=
  if has_room s then match us_packets s with Some p :: _ => p | _ => [] end else [].
Definition packets_left (s : usb_state) : list (option (list Z)) :=
  if has_room s then tail (us_packets s) else us_packets s.

Lemma next_packet_ok s : rx_core s -> zlen (next_packet s) <= 64 /\ bytes (next_packet s) /\
  receive_pos s + zlen (next_packet s) <= 128 /\ Forall packet_ok (packets_left s).
Proof.
  intros [_ Hr _ Hp]. unfold next_packet, packets_left, has_room, RECEIVE_SIZE in *.
  assert (Hnil : zlen (@nil Z) = 0) by done.
  destruct (Z.leb_spec (receive_pos s) 64).
  - destruct (us_packets s) as [|[p|] l]; cbn [tail]; try (apply Forall_cons in Hp as [[Hl Hb] Hp]);
      try (apply Forall_cons in Hp as [_ Hp]); unfold USB_CDC_EP_BULK_OUT_SIZE in *; rewrite ?Hnil;
      (split; [lia|]); (split; [first [done|apply Forall_nil_2]|]); (split; [lia|done]).
  - rewrite Hnil. split; [lia|]. split; [apply Forall_nil_2|]. split; [lia|done].
Qed.

Lemma bulk_out_read_run s :
  rx_core s ->
  exists s', bulk_out_read s = Ret (receive_pos s + zlen (next_packet s)) s' /\
    length (receive_buf s') = 128%nat /\ receive_pos s' = receive_pos s /\ held s' = held s /\
    takeZ (receive_pos s + zlen (next_packet s)) (receive_buf s') = held s ++ next_packet s /\
    us_packets s' = packets_left s /\
    (64 < receive_pos s + zlen (next_packet s) -> usb_bulk_out_wake s' = 1) /\
    (usb_bulk_out_wake s = 1 -> usb_bulk_out_wake s' = 1).
Proof.
  intros Hok. pose proof Hok as [Hl Hr _ _]. pose proof (next_packet_ok s Hok) as (_ & _ & Hfit & _).
  unfold bulk_out_read, next_packet, packets_left, has_room, usb_read_bulk_out, RECEIVE_SIZE,
    USB_CDC_EP_BULK_OUT_SIZE in *.
  unfold bind at 1, gets at 1. assert (Hz : zlen (receive_buf s) = 128) by (unfold zlen; by rewrite Hl).
  assert (Hsame : takeZ (receive_pos s + zlen (@nil Z)) (receive_buf s) = held s ++ []).
  { rewrite app_nil_r. unfold held. f_equal. apply Z.add_0_r. }
  destruct (Z.leb_spec (receive_pos s + 64) 128), (Z.leb_spec (receive_pos s) 64); try lia.
  - unfold bind, gets, modify, ret. destruct (us_packets s) as [|[p|] l] eqn:Ep.
    + cbn beta iota in *. change (zlen (@nil Z)) with 0 in *. rewrite Z.add_0_r in *. exists s.
      do 6 (split; [done|]). split; [intros; lia|done].
    + cbn [upd receive_buf].
      destruct (Z.ltb_spec (zlen (receive_buf s)) (receive_pos s + zlen p)); [lia|].
      destruct (store_front (receive_pos s) p (receive_buf s)) as (L1 & L2 & L3); [lia|lia|].
      unfold when, usb_notify_bulk_out, modify, ret. destruct (Z.ltb_spec 0 (zlen p)).
      all: eexists; split; [reflexivity|]; cbn [upd receive_buf receive_pos us_packets usb_bulk_out_wake tail].
      all: split; [by rewrite L1|]; split; [done|]; split; [exact L3|]; split; [exact L2|].
      all: split; [done|]; split; [intros; first [done|lia]|done].
    + cbn beta iota in *. change (zlen (@nil Z)) with 0 in *. rewrite Z.add_0_r in *. eexists.
      do 6 (split; [done|]). split; [intros; lia|done].
  - cbn beta iota in *. change (zlen (@nil Z)) with 0 in *. rewrite Z.add_0_r in *. eexists. do 6 (split; [done|]). done.
Qed.

Lemma uint_fast8_small z : 0 <= z < 256 -> uint_fast8 z = z.
Proof. intros Hz. unfold uint_fast8. destruct fast8_is_byte; [apply u8_small|apply u32_small]; lia. Qed.

(** The bytes [l] were found in the buffer, and [n] of them are removed when [r] is not 0. *)
Lemma bulk_out_pop_run s rpos r n l :
  length (receive_buf s) = 128%nat -> takeZ rpos (receive_buf s) = l -> 0 <= rpos <= 128 -> bytes l ->
  Forall packet_ok (us_packets s) ->
  (r = 0 -> n = 0) -> (r <> 0 -> 1 <= n <= rpos) -> (r = 0 -> 64 < rpos -> usb_bulk_out_wake s = 1) ->
  exists s', bulk_out_pop rpos r n s = Ret tt s' /\ rx_ok s' /\ held s' = dropZ n l /\
    us_packets s' = us_packets s.
Proof.
  intros Hl Ht Hr Hb Hp H0 Hn Hw. assert (Hz : zlen (receive_buf s) = 128) by (unfold zlen; by rewrite Hl).
  unfold bulk_out_pop. destruct (Z.eqb_spec r 0) as [->|Hr0].
  - rewrite (H0 eq_refl). eexists. split; [reflexivity|]. cbn [upd]. rewrite (u8_small rpos) by lia.
    match goal with |- rx_ok ?x /\ _ => assert (Hh : held x = l) by exact Ht end.
    split; [|by split]. split; [|cbn; intros; by apply Hw].
    constructor; [done|unfold RECEIVE_SIZE; cbn; lia|by rewrite Hh|done].
  - specialize (Hn Hr0). rewrite uint_fast8_small by lia.
    assert (Hd : dropZ n l = takeZ (rpos - n) (dropZ n (receive_buf s))).
    { rewrite <- Ht. unfold takeZ, dropZ. rewrite skipn_firstn_comm. f_equal. lia. }
    assert (Hbd : bytes (dropZ n l)) by by apply Forall_drop.
    destruct (z2b (rpos - n)) eqn:Hz2; cbn [when].
    + destruct (move_front_run n (rpos - n) (receive_buf s)) as (buf' & E & L1 & L2); [lia..|].
      unfold bind, gets, modify, ret, usb_notify_bulk_out. rewrite E. cbn [deref].
      eexists. split; [reflexivity|]. cbn [upd]. rewrite (u8_small (rpos - n)) by lia.
      replace (n + (rpos - n)) with rpos in L2 by lia. rewrite Ht in L2.
      match goal with |- rx_ok ?x /\ _ => assert (Hh : held x = dropZ n l) by exact L2 end.
      split; [|by split]. split; [|done].
      constructor; [by rewrite <- Hl|unfold RECEIVE_SIZE; cbn; lia|by rewrite Hh|done].
    + assert (rpos = n) as -> by (unfold z2b in Hz2; apply negb_false_iff, Z.eqb_eq in Hz2; lia).
      rewrite Z.sub_diag in *. eexists. split; [reflexivity|].
      match goal with |- rx_ok ?x /\ _ => assert (Hh : held x = dropZ n l) by (by rewrite Hd) end.
      split; [|by split]. split; [|done]. by constructor; rewrite ?Hh.
Qed.

Section world.
Context {W : Type} {PC : Part W cmd_state} {PU : Part W usb_state} {CE : CommandEnv W}.
Notation usb w := (part_get w : usb_state).
Notation cmd w := (part_get w : cmd_state).

(** What reading is about. *)
Definition rx_part (w : W) : list Z * Z * Z * list (option (list Z)) :=
  (receive_buf (usb w), receive_pos (usb w), usb_bulk_out_wake (usb w), us_packets (usb w)).

(** What the rest of the firmware promises: the parser is another part of the world, and
    neither the console nor the command handlers touch the receive buffer. *)
Class Usb_link := {
  ul_parser : forall (c : cmd_state) (w : W), rx_part (part_set c w) = rx_part w;
  ul_usb : forall (s : usb_state) (w : W), cmd (part_set s w) = cmd w;
  ul_acknak : forall w : W, exists w', env_console_sendf encode_acknak [] w = Ret tt w' /\
    cmd w' = cmd w /\ rx_part w' = rx_part w;
  ul_dispatch : forall buf (w : W), bytes buf -> block_ok buf = true -> exists w',
    (command_dispatch buf (nthZ buf 0) w = Ret tt w' \/
     exists reason, command_dispatch buf (nthZ buf 0) w = Shut reason w') /\
    next_sequence (cmd w') = next_sequence (cmd w) /\ rx_part w' = rx_part w;
}.

Lemma usb_link_of_table :
  (forall (c : cmd_state) (w : W), rx_part (part_set c w) = rx_part w) ->
  (forall (s : usb_state) (w : W), cmd (part_set s w) = cmd w) ->
  (forall w : W, exists w', env_console_sendf encode_acknak [] w = Ret tt w' /\
    cmd w' = cmd w /\ rx_part w' = rx_part w) ->
  table_safe -> table_keeps (same (fun w : W => (next_sequence (cmd w), rx_part w))) -> Usb_link.
Proof.
  intros Hp Hu Ha Hs Hk. split; [done..|]. intros buf w Hb Hok.
  destruct (dispatch_outcome _ buf w Hs Hk Hb Hok) as (w' & Ho & Hr). exists w'. split; [done|].
  split; [exact (f_equal fst Hr)|exact (f_equal snd Hr)].
Qed.

Context {link : Usb_link}.

Lemma link_acknak : acknak_ok.
Proof using link. intros w. destruct (ul_acknak w) as (w' & E & Hc & _). by exists w'. Qed.

Lemma frames_modify (f : cmd_state -> cmd_state) : frames rx_part (cmd_modify f).
Proof using link. intros w. apply ul_parser. Qed.

Lemma frames_sendf : frames rx_part (command_sendf encode_acknak []).
Proof using link.
  unfold command_sendf. apply frames_bind; [apply frames_gets|]. intros b. destruct (z2b b); [done|].
  apply frames_bind; [apply frames_modify|]. intros _. apply frames_bind; [|intros _; apply frames_modify].
  intros w. destruct (ul_acknak w) as (w' & -> & _ & H). exact H.
Qed.

Lemma frames_nak n : frames rx_part (find_block_nak n).
Proof using link. apply frames_bind; [apply frames_sendf|done]. Qed.

Lemma frames_need_sync buf : frames rx_part (find_block_need_sync buf).
Proof using link.
  apply frames_bind.
  - destruct (list_find _ buf) as [[i x]|]; [|done]. by apply frames_bind; [apply frames_modify|].
  - intros n. apply frames_bind; [apply frames_gets|]. intros st. destruct (has st CF_NEED_VALID); [done|].
    apply frames_bind; [apply frames_modify|]. intros _. apply frames_nak.
Qed.

Lemma frames_find_block buf : frames rx_part (command_find_block buf).
Proof using link.
  intros w. rewrite find_block_eq. destruct (_ && _); [apply frames_need_sync|].
  match goal with |- match ?m w with _ => _ end => enough (H : frames rx_part m) by apply H end.
  destruct (block_ok buf); [|destruct (need_more buf); [done|]].
  - apply frames_bind; [apply frames_modify|]. intros _. apply frames_bind; [apply frames_gets|]. intros seq.
    destruct (negb _); [apply frames_nak|]. by apply frames_bind; [apply frames_modify|].
  - unfold find_block_error. destruct (_ =? _); [done|].
    apply frames_bind; [apply frames_modify|]. intros _. apply frames_need_sync.
Qed.

(** A block of at least 64 bytes is enough to decide. *)
Lemma need_more_bound buf : need_more buf = true -> zlen buf < 64.
Proof.
  unfold need_more. intros H. apply orb_true_iff in H as [H|H].
  - apply Z.ltb_lt in H. lia.
  - rewrite !andb_true_iff, ?Z.leb_le, ?Z.ltb_lt in H. lia.
Qed.

Lemma next_seq_differs b :
  0 <= b < 256 -> clear b 15 = 16 -> Z.lor (Z.land (b + 1) MESSAGE_SEQ_MASK) MESSAGE_DEST <> b.
Proof.
  intros Hb Hc.
  assert (H : negb (clear b 15 =? 16)
              || negb (Z.lor (Z.land (b + 1) MESSAGE_SEQ_MASK) MESSAGE_DEST =? b) = true).
  { exact (forall_below 256 (fun b => negb (clear b 15 =? 16)
      || negb (Z.lor (Z.land (b + 1) MESSAGE_SEQ_MASK) MESSAGE_DEST =? b)) ltac:(by vm_compute) b Hb). }
  rewrite Hc in H. by apply negb_true_iff, Z.eqb_neq in H.
Qed.

(** The outcome of the parser on the received bytes: a number of bytes to remove, or a
    shutdown in a command handler, after which the block counts as a repeated one. *)
Definition parsed (buf : list Z) (w w' : W) : Prop :=
  (exists r n, command_find_and_dispatch buf w = Ret (r, n) w' /\ (r = 0 -> n = 0) /\
     (r <> 0 -> 1 <= n <= zlen buf) /\ (64 <= zlen buf -> r <> 0)) \/
  ((exists reason, command_find_and_dispatch buf w = Shut reason w') /\
   nthZ buf 1 = next_sequence (cmd w) /\ nthZ buf 1 <> next_sequence (cmd w')).

Lemma find_and_dispatch_run buf w :
  bytes buf -> exists w', parsed buf w w' /\ rx_part w' = rx_part w.
Proof using link.
  intros Hb. destruct (find_block_total_aux buf w link_acknak Hb) as (r & n & w1 & E & Hr).
  pose proof (frames_find_block buf w) as F. rewrite E in F. unfold parsed, command_find_and_dispatch.
  rewrite !(bind_Ret _ _ _ _ _ E).
  destruct Hr as [(-> & -> & ->)|[(-> & Hn & _)|(-> & -> & Hbk & Hs & Hns & Hnext)]].
  - exists w. split; [|done]. left. exists 0, 0. do 3 (split; [done|]). intros H64 _.
    rewrite find_block_eq in E. destruct (_ && _).
    { assert (buf <> []) by (intros ->; change (zlen (@nil Z)) with 0 in H64; lia).
      destruct (find_block_need_sync_Ret buf w link_acknak) as (? & ? & E' & _); [done|]. congruence. }
    destruct (block_ok buf) eqn:Hbk; [|destruct (need_more buf) eqn:Hm].
    + unfold take_block, cmd_gets, cmd_modify, gets, modify, bind at 1 2 in E.
      destruct (negb _); [|done]. 
      match type of E with ?m ?x = _ => destruct (find_block_nak_Ret (nthZ buf 0) x link_acknak) as (? & E' & _) end.
      congruence.
    + apply need_more_bound in Hm. lia.
    + destruct (find_block_error_Ret buf w link_acknak) as (? & ? & E' & _); [intros ->; change (zlen (@nil Z)) with 0 in H64; lia|]. congruence.
  - exists w1. split; [|done]. left. exists (-1), n. split; [done|]. split; [done|]. by split.
  - pose proof Hbk as Hbk'. unfold block_ok in Hbk'. rewrite !andb_true_iff, !Z.leb_le, !Z.eqb_eq in Hbk'.
    destruct (ul_dispatch buf w1 Hb Hbk) as (w2 & [E2|[reason E2]] & Hn2 & F2); cbn [Z.ltb Z.compare].
    + destruct (command_sendf_acknak w2 link_acknak) as (w3 & E3 & _).
      pose proof (frames_sendf w2) as F3. rewrite E3 in F3. exists w3. split; [|congruence]. left.
      exists 1, (nthZ buf 0). rewrite (bind_Ret _ _ _ _ _ E2). unfold command_send_ack.
      rewrite (bind_Ret _ _ _ _ _ E3). split; [done|]. split; [done|]. split; [lia|done].
    + exists w2. split; [|congruence]. right. split; [exists reason; unfold bind; by rewrite E2|].
      split; [done|]. rewrite Hn2, Hnext. apply not_eq_sym, next_seq_differs; [by apply bytes_nthZ|].
      unfold MESSAGE_SEQ_MASK, MESSAGE_DEST in *. tauto.
Qed.

(** A pass of the task; after a shutdown the system goes on, with [usb_shutdown] run. *)
Definition usb_pass (w : W) : option W :=
  match usb_bulk_out_task w with
  | Ret _ w' => Some w'
  | Shut _ w' => match zoom usb_shutdown w' with Ret _ w'' => Some w'' | _ => None end
  | Stuck => None
  end.

(** What a pass does with the bytes [l]: it removes [n] of them, or a command handler shuts
    down and only those that were there before are left. *)
Definition pass_removes (l : list Z) (w w' : W) (n : Z) : Prop :=
  usb_bulk_out_task w = Ret tt w' /\ 0 <= n <= zlen l /\ held (usb w') = dropZ n l /\ (64 <= zlen l -> 1 <= n).
Definition pass_shuts (l : list Z) (w w' : W) : Prop :=
  (exists reason w1, usb_bulk_out_task w = Shut reason w1) /\ held (usb w') = held (usb w) /\
  usb_bulk_out_wake (usb w') = 1 /\
  nthZ l 1 = next_sequence (cmd w) /\ nthZ l 1 <> next_sequence (cmd w').

Lemma pass_run w :
  rx_ok (usb w) -> usb_bulk_out_wake (usb w) = 1 ->
  let l := held (usb w) ++ next_packet (usb w) in
  exists w', usb_pass w = Some w' /\ rx_ok (usb w') /\ us_packets (usb w') = packets_left (usb w) /\
    ((exists n, pass_removes l w w' n) \/ pass_shuts l w w').
Proof using link.
  intros [Hcore _] Hwk l. set (s0 := usb w) in *.
  set (s1 := s0 <| usb_bulk_out_wake := 0 |>).
  assert (Hc1 : rx_core s1) by (destruct Hcore; by constructor).
  destruct (bulk_out_read_run s1 Hc1) as (s2 & E2 & L2 & P2 & H2 & T2 & K2 & W2 & _).
  destruct (next_packet_ok s1 Hc1) as (_ & Hb & Hfit & Hleft). pose proof Hcore as [_ Hr Hby _].
  change (next_packet s1) with (next_packet s0) in *. change (receive_pos s1) with (receive_pos s0) in *.
  change (held s1) with (held s0) in *. change (packets_left s1) with (packets_left s0) in *. fold l in T2.
  set (rpos := receive_pos s0 + zlen (next_packet s0)) in *.
  pose proof (zlen_nonneg (next_packet s0)). unfold RECEIVE_SIZE in *.
  assert (Hlen : zlen l = rpos).
  { unfold l, rpos. rewrite zlen_app. f_equal. apply zlen_takeZ. destruct Hcore as [Hl _ _ _].
    unfold zlen. rewrite Hl. lia. }
  assert (Hbl : bytes l) by by apply Forall_app.
  assert (Ewake : zoom (usb_check_wake usb_bulk_out_wake (fun v s => s <| usb_bulk_out_wake := v |>)) w
                  = Ret true (part_set s1 w)).
  { apply zoom_Ret. unfold usb_check_wake, bind, gets. fold s0. by rewrite Hwk. }
  assert (Eread : zoom bulk_out_read (part_set s1 w) = Ret rpos (part_set s2 w)).
  { rewrite (zoom_Ret _ _ rpos s2) by by rewrite part_get_set. by rewrite part_set_set. }
  set (w2 := part_set s2 w) in *. assert (Hu2 : usb w2 = s2) by apply part_get_set.
  destruct (find_and_dispatch_run l w2 Hbl) as (w3 & Hp & F3).
  unfold rx_part in F3. rewrite Hu2 in F3. injection F3 as F1 F2 F3 F4.
  unfold usb_pass, pass_removes, pass_shuts, usb_bulk_out_task.
  rewrite !(bind_Ret _ _ _ _ _ Ewake). cbn [negb]. rewrite !(bind_Ret _ _ _ _ _ Eread).
  unfold bind at 1 3 5, gets. rewrite Hu2, T2.
  destruct Hp as [(r & n & E3 & Hn0 & Hn & H64)|((reason & E3) & Hq & Hq')].
  - rewrite !(bind_Ret _ _ _ _ _ E3).
    destruct (bulk_out_pop_run (usb w3) rpos r n l) as (s4 & E4 & Hok4 & Hh4 & Hk4);
      try done; try congruence; [unfold rpos; lia|lia|rewrite F3; auto|].
    rewrite (zoom_Ret _ _ tt s4) by done. exists (part_set s4 w3). rewrite part_get_set.
    split; [done|]. split; [done|]. split; [congruence|]. left. exists n.
    split; [done|]. split; [destruct (Z.eq_dec r 0); [rewrite Hn0|]; lia|]. split; [done|]. intros. apply Hn, H64. lia.
  - unfold bind. rewrite E3. eexists. split; [reflexivity|]. rewrite part_get_set.
    cbn [upd]. split; [|split; [cbn; congruence|]].
    + split; [|done]. constructor; cbn; [congruence|unfold RECEIVE_SIZE; lia| |by rewrite F4, K2].
      unfold held in *. cbn. rewrite F1, F2. by rewrite H2.
    + right. split; [by exists reason, w3|]. unfold held. cbn. rewrite F1, F2.
      split; [exact H2|]. split; [done|]. rewrite ul_usb in *. split; [|done]. unfold w2 in Hq. by rewrite ul_usb in Hq.
Qed.

Fixpoint usb_passes (n : nat) (w : W) : option W :=
  match n with
  | O => Some w
  | S n => match usb_pass w with Some w' => usb_passes n w' | None => None end
  end.

Lemma zlen_held s : rx_core s -> zlen (held s) = receive_pos s.
Proof using Type.
  intros [Hl Hr _ _]. unfold RECEIVE_SIZE in *. apply zlen_takeZ. unfold zlen. rewrite Hl. lia.
Qed.

(** Without room for a packet, at least one byte is removed in two passes. *)
Lemma full_passes w :
  rx_ok (usb w) -> has_room (usb w) = false ->
  exists n w' k, (n <= 2)%nat /\ usb_passes n w = Some w' /\ rx_ok (usb w') /\
    us_packets (usb w') = us_packets (usb w) /\ 1 <= k <= receive_pos (usb w) /\
    held (usb w') = dropZ k (held (usb w)).
Proof using link.
  intros Hok Hroom. assert (Hwk : usb_bulk_out_wake (usb w) = 1).
  { apply Hok. unfold has_room in Hroom. by apply Z.leb_gt in Hroom. }
  assert (Hnp : forall s, has_room s = false -> next_packet s = [] /\ packets_left s = us_packets s).
  { intros s Hs. unfold next_packet, packets_left. by rewrite Hs. }
  assert (H64 : 64 <= zlen (held (usb w))).
  { rewrite zlen_held by apply Hok. apply Z.leb_gt in Hroom. lia. }
  destruct (pass_run w Hok Hwk) as (w1 & E1 & Hok1 & Hk1 & [(n & _ & Hn & Hh & Hpos)|Hs]).
  - exists 1%nat, w1, n. destruct (Hnp _ Hroom) as [Hp0 Hl0]. rewrite Hp0, app_nil_r in *.
    rewrite zlen_held in Hn by apply Hok. cbn. rewrite E1. split; [lia|]. split; [done|]. split; [done|].
    split; [congruence|]. split; [split; [auto|lia]|done].
  - destruct Hs as (_ & Hh1 & Hw1 & _ & Hq). destruct (Hnp _ Hroom) as [Hp0 Hl0]. rewrite Hp0, app_nil_r in *.
    assert (Hpos1 : receive_pos (usb w1) = receive_pos (usb w)).
    { rewrite <- !zlen_held by first [apply Hok|apply Hok1]. by rewrite Hh1. }
    assert (Hroom1 : has_room (usb w1) = false) by (unfold has_room in *; by rewrite Hpos1).
    destruct (Hnp _ Hroom1) as [Hp1 Hl1].
    destruct (pass_run w1 Hok1 Hw1) as (w2 & E2 & Hok2 & Hk2 & Hr). rewrite Hp1, app_nil_r, Hh1 in Hr.
    destruct Hr as [(n & _ & Hn & Hh & Hpos)|Hs]; [|by destruct Hs as (_ & _ & _ & Hq' & _)].
    exists 2%nat, w2, n. rewrite zlen_held in Hn by apply Hok. cbn. rewrite E1, E2.
    split; [lia|]. split; [done|]. split; [done|]. split; [congruence|]. split; [split; [auto|lia]|done].
Qed.

Lemma usb_passes_app n m w w' :
  usb_passes n w = Some w' -> usb_passes (n + m) w = usb_passes m w'.
Proof using Type.
  revert w. induction n as [|n IH]; intros w E; cbn in *; [by injection E as ->|].
  destruct (usb_pass w); [by apply IH|done].
Qed.


(** *** The endpoint to the host *)

Definition pending (s : usb_state) : list Z := takeZ (transmit_pos s) (transmit_buf s).
Definition tx_stream (s : usb_state) : list Z := us_sent s ++ pending s.
Definition tx_ok (s : usb_state) : Prop := length (transmit_buf s) = 192%nat /\ 0 <= transmit_pos s <= TRANSMIT_SIZE.

Lemma zlen_pending s : tx_ok s -> zlen (pending s) = transmit_pos s.
Proof using Type. intros [Hl Hr]. unfold TRANSMIT_SIZE in Hr. apply zlen_takeZ. unfold zlen. rewrite Hl. lia. Qed.

Lemma send_bulk_in_run data s :
  exists r s', usb_send_bulk_in data s = Ret r s' /\ r <= zlen data /\
    transmit_buf s' = transmit_buf s /\ transmit_pos s' = transmit_pos s /\ us_sent s' = us_sent s ++ takeZ r data.
Proof using Type.
  unfold usb_send_bulk_in, bind, gets. pose proof (zlen_nonneg data). destruct (us_in_answers s) as [|r l].
  - exists (-1), s. split; [done|]. split; [lia|]. by rewrite app_nil_r.
  - eexists _, _. split; [reflexivity|]. split; [apply Z.le_min_r|done].
Qed.

(** The bytes that were not taken move to the front. *)
Lemma bulk_in_rest s r :
  tx_ok s -> 0 < r <= transmit_pos s ->
  exists s', (when (z2b (uint_fast8 (transmit_pos s - r)))
                (buf' <- deref (move_front r (uint_fast8 (transmit_pos s - r)) (transmit_buf s)) ;;
                 modify (fun s => s <| transmit_buf := buf' |>) ;;
                 usb_notify_bulk_in) ;;
              modify (fun s0 => s0 <| transmit_pos := u8 (uint_fast8 (transmit_pos s - r)) |>)) s = Ret tt s' /\
    tx_ok s' /\ us_sent s' = us_sent s /\ pending s' = dropZ r (pending s).
Proof using Type.
  intros [Hl Hr] Hn. unfold TRANSMIT_SIZE in *. assert (Hz : zlen (transmit_buf s) = 192) by (unfold zlen; by rewrite Hl).
  rewrite uint_fast8_small, u8_small by lia. set (n := transmit_pos s - r).
  destruct (move_front_run r n (transmit_buf s)) as (buf' & E & L1 & L2); [lia..|]. rewrite E.
  replace (r + n) with (transmit_pos s) in L2 by lia.
  destruct (z2b n) eqn:Hz2; cbn [when].
  - eexists. split; [reflexivity|]. split; [|by split].
    split; [by rewrite <- Hl, <- L1|]. change (0 <= n <= 192). lia.
  - assert (n = 0) as Hn0 by (unfold z2b in Hz2; by apply negb_false_iff, Z.eqb_eq in Hz2). rewrite Hn0 in *.
    eexists. split; [reflexivity|]. split; [by split|]. split; [done|].
    transitivity (@nil Z); [done|]. symmetry. apply drop_ge. pose proof (zlen_pending s (conj Hl Hr)) as Hp.
    unfold zlen in Hp. lia.
Qed.

Lemma bulk_in_run s :
  tx_ok s -> exists s', usb_bulk_in_task s = Ret tt s' /\ tx_ok s' /\ tx_stream s' = tx_stream s.
Proof using Type.
  intros Hok. unfold usb_bulk_in_task, USB_CDC_EP_BULK_IN_SIZE.
  assert (exists b s1, usb_check_wake usb_bulk_in_wake (fun v s => s <| usb_bulk_in_wake := v |>) s = Ret b s1 /\
    tx_ok s1 /\ tx_stream s1 = tx_stream s) as (b & s1 & E1 & Hok1 & <-).
  { unfold usb_check_wake, bind, gets. destruct (z2b (usb_bulk_in_wake s)); by eexists _, _. }
  rewrite (bind_Ret _ _ _ _ _ E1). clear E1 Hok s. destruct b; cbn [negb]; [|by exists s1].
  unfold bind at 1, gets at 1. destruct (Z.eqb_spec (transmit_pos s1) 0); [by exists s1|].
  set (m := if 64 <? transmit_pos s1 then 64 else transmit_pos s1).
  pose proof Hok1 as [Hl Hr]. unfold TRANSMIT_SIZE in Hr.
  assert (Hm : 0 < m <= transmit_pos s1) by (unfold m; destruct (Z.ltb_spec 64 (transmit_pos s1)); lia).
  assert (Hzm : zlen (takeZ m (transmit_buf s1)) = m) by (apply zlen_takeZ; unfold zlen; rewrite Hl; lia).
  unfold bind at 1, gets at 1.
  destruct (send_bulk_in_run (takeZ m (transmit_buf s1)) s1) as (r & s2 & E2 & Hle & B2 & P2 & S2).
  rewrite (bind_Ret _ _ _ _ _ E2). rewrite Hzm in Hle.
  assert (Hok2 : tx_ok s2) by (by unfold tx_ok; rewrite B2, P2).
  assert (Hp2 : pending s2 = pending s1) by (unfold pending; by rewrite B2, P2).
  destruct (Z.leb_spec r 0).
  - exists s2. split; [done|]. split; [done|]. unfold tx_stream. rewrite S2, Hp2.
    replace (takeZ r (takeZ m (transmit_buf s1))) with (@nil Z); [by rewrite app_nil_r|].
    unfold takeZ. by replace (Z.to_nat r) with 0%nat by lia.
  - rewrite <- P2, <- B2. destruct (bulk_in_rest s2 r Hok2) as (s3 & E3 & Hok3 & S3 & Hp3); [lia|].
    exists s3. split; [exact E3|]. split; [done|]. unfold tx_stream. rewrite S3, Hp3, S2, Hp2, <- app_assoc. f_equal.
    unfold pending. rewrite takeZ_takeZ by lia. rewrite <- (take_drop_Z r (takeZ (transmit_pos s1) _)) at 2.
    by rewrite takeZ_takeZ by lia.
Qed.

(** The task runs, or the firmware sends a message whose content is [content]. *)
Inductive tx_op := Tx_task | Tx_send (ce : command_encoder) (args : list va_arg) (content : list Z).

Definition run_op (sizeof_int : Z) (op : tx_op) : M W unit :=
  match op with
  | Tx_task => zoom usb_bulk_in_task
  | Tx_send ce args _ => console_sendf sizeof_int ce args
  end.
Fixpoint tx_run (sizeof_int : Z) (ops : list tx_op) : M W unit :=
  match ops with [] => ret tt | op :: ops => run_op sizeof_int op ;; tx_run sizeof_int ops end.

Definition op_ok (sizeof_int : Z) (op : tx_op) : Prop :=
  match op with
  | Tx_task => True
  | Tx_send ce args content =>
      (forall w : W, command_encodef sizeof_int ce args w = Ret (MESSAGE_MIN + zlen content, content) w) /\
      MESSAGE_MIN + zlen content <= ce_max_size ce <= MESSAGE_MAX
  end.
Definition op_block (seq : Z) (op : tx_op) : list (list Z) :=
  match op with
  | Tx_task => []
  | Tx_send _ _ content => [command_add_frame seq (MESSAGE_MIN + zlen content) content]
  end.

Lemma add_frame_zlen seq content :
  zlen (command_add_frame seq (MESSAGE_MIN + zlen content) content) = MESSAGE_MIN + zlen content.
Proof using Type.
  unfold command_add_frame. rewrite !zlen_app, !zlen_cons. change (zlen [_; _; _]) with 3.
  unfold MESSAGE_MIN. change (zlen (@nil Z)) with 0. lia.
Qed.

Lemma run_op_run sizeof_int op w :
  tx_ok (usb w) -> op_ok sizeof_int op ->
  exists w' blocks, run_op sizeof_int op w = Ret tt w' /\ cmd w' = cmd w /\ tx_ok (usb w') /\
    tx_stream (usb w') = tx_stream (usb w) ++ concat blocks /\
    blocks `sublist_of` op_block (next_sequence (cmd w)) op.
Proof using link.
  intros Hok Hop. destruct op as [|ce args content]; cbn [run_op op_block].
  { destruct (bulk_in_run (usb w) Hok) as (s' & E & Hok' & Hst). exists (part_set s' w), [].
    rewrite (zoom_Ret _ _ _ _ E), part_get_set, ul_usb. cbn [concat]. rewrite app_nil_r. do 4 (split; [done|]). constructor. }
  destruct Hop as [Henc Hmax]. unfold console_sendf, bind at 1, gets.
  destruct (Z.ltb_spec TRANSMIT_SIZE (transmit_pos (usb w) + ce_max_size ce)).
  { exists w, []. cbn [concat]. rewrite app_nil_r. do 4 (split; [done|]). apply sublist_nil_l. }
  set (block := command_add_frame (next_sequence (cmd w)) (MESSAGE_MIN + zlen content) content).
  assert (Ef : command_encode_and_frame sizeof_int ce args w = Ret (MESSAGE_MIN + zlen content, block) w).
  { unfold command_encode_and_frame. by rewrite (bind_Ret _ _ _ _ _ (Henc _)). }
  rewrite (bind_Ret _ _ _ _ _ Ef). pose proof (add_frame_zlen (next_sequence (cmd w)) content) as Hz. fold block in Hz.
  rewrite <- Hz in *. pose proof Hok as [Hl Hr]. unfold TRANSMIT_SIZE, MESSAGE_MAX in *.
  pose proof (zlen_nonneg block). set (s := usb w) in *.
  destruct (store_front (transmit_pos s) block (transmit_buf s)) as (L1 & L2 & _);
    [lia|unfold zlen at 2; rewrite Hl; lia|].
  assert (E : usb_sendf_store (transmit_pos s) (zlen block) block s
    = Ret tt (s <| transmit_buf := takeZ (transmit_pos s) (transmit_buf s) ++ block
                     ++ dropZ (transmit_pos s + zlen block) (transmit_buf s) |>
                <| transmit_pos := u8 (transmit_pos s + zlen block) |> <| usb_bulk_in_wake := 1 |>)).
  { unfold usb_sendf_store, bind, gets, modify. assert (zlen (transmit_buf s) = 192) as -> by (unfold zlen; by rewrite Hl).
    by destruct (Z.ltb_spec 192 (transmit_pos s + zlen block)); [lia|]. }
  rewrite (zoom_Ret _ _ _ _ E). eexists _, [block]. split; [reflexivity|]. rewrite part_get_set, ul_usb.
  split; [done|]. split; [split; cbn [upd transmit_buf transmit_pos]; [by rewrite L1|unfold TRANSMIT_SIZE; rewrite u8_small; lia]|]. split; [|done].
  unfold tx_stream, pending. cbn [upd us_sent transmit_pos transmit_buf concat].
  rewrite u8_small, L2, app_nil_r, app_assoc by lia. done.
Qed.

(** Messages of the firmware leave the USB console whole and in order: over any sequence of
    messages and passes of the task, and whatever part of the waiting bytes the endpoint takes
    each time, what was taken and then what is waiting grows by complete blocks of the
    messages sent; a message for which there is no space is dropped as a whole. *)
Theorem usb_transmit_keeps_stream sizeof_int ops w :
  tx_ok (usb w) -> Forall (op_ok sizeof_int) ops ->
  exists w' blocks, tx_run sizeof_int ops w = Ret tt w' /\ cmd w' = cmd w /\ tx_ok (usb w') /\
    tx_stream (usb w') = tx_stream (usb w) ++ concat blocks /\
    blocks `sublist_of` (ops ≫= op_block (next_sequence (cmd w))).
Proof using link.
  intros Hok Hops. revert w Hok. induction Hops as [|op ops Hop _ IH]; intros w Hok; cbn [tx_run mbind list_bind].
  { exists w, []. cbn [concat]. rewrite app_nil_r. do 4 (split; [done|]). constructor. }
  destruct (run_op_run sizeof_int op w Hok Hop) as (w1 & b1 & E1 & Hc1 & Hok1 & Hs1 & Hb1).
  rewrite (bind_Ret _ _ _ _ _ E1). destruct (IH w1 Hok1) as (w2 & b2 & E2 & Hc2 & Hok2 & Hs2 & Hb2).
  exists w2, (b1 ++ b2). split; [done|]. split; [congruence|]. split; [done|]. split.
  - by rewrite Hs2, Hs1, concat_app, app_assoc.
  - rewrite Hc1 in Hb2. by apply sublist_app.
Qed.
End world.

(** ** Endpoint 0 *)

Section ep0.
Context (request : usb_ctrlrequest -> MU unit).

(** The controller calls back when the endpoint is free again. *)
Definition ep0_pass : MU unit := usb_notify_ep0 ;; ep0_task request.
Fixpoint ep0_passes (n : nat) : MU unit :=
  match n with O => ret tt | S n => ep0_pass ;; ep0_passes n end.

(** The endpoint is busy [b] times before it takes the packet [i], for [b] at [i] in [bs]. *)
Definition answers (bs : list nat) : list ep0_answer := bs ≫= fun b => replicate b EA_busy ++ [EA_done []].

(** What [usb_do_xfer] does after a packet was taken. *)
Definition xfer_next (fuel : nat) (data : xfer_ptr) (xs size flags : Z) : MU unit :=
  if size =? 0 then
    if (xs =? USB_CDC_EP0_SIZE) && has flags UX_SEND_ZLP then usb_do_xfer fuel data size flags
    else modify (fun s => s <| usb_xfer_flags := 0 |>) ;; usb_notify_ep0
  else usb_do_xfer fuel data size flags.

Definition packet_size (size : Z) : Z := if USB_CDC_EP0_SIZE <? size then USB_CDC_EP0_SIZE else size.

Lemma xfer_packet fuel m size flags s as' d :
  has flags UX_READ = false -> 0 <= size <= zlen m -> us_ep0 s = EA_done d :: as' ->
  exists s', us_log s' = us_log s ++ [Ue_packet (takeZ (packet_size size) m)] /\ us_ep0 s' = as' /\
    usb_do_xfer (S fuel) (XP_const m) size flags s
    = xfer_next fuel (XP_const (dropZ (packet_size size) m)) (packet_size size) (size - packet_size size) flags s'.
Proof using Type.
  intros Hf Hs Ha. cbn [usb_do_xfer]. fold (packet_size size). set (xs := packet_size size).
  assert (Hxs : 0 <= xs <= size).
  { unfold xs, packet_size, USB_CDC_EP0_SIZE. destruct (Z.ltb_spec 16 size); lia. }
  exists (s <| us_ep0 := as' |> <| us_log ::= fun l => l ++ [Ue_packet (takeZ xs m)] |>).
  split; [done|]. split; [done|].
  assert (E : xfer_call (XP_const m) xs flags s
    = Ret xs (s <| us_ep0 := as' |> <| us_log ::= fun l => l ++ [Ue_packet (takeZ xs m)] |>)).
  { unfold xfer_call. rewrite Hf. unfold ptr_load, bind, gets.
    destruct (Z.ltb_spec (zlen m) xs); [lia|]. unfold ret, usb_send_ep0, ep0_next, bind, gets. rewrite Ha.
    unfold usb_emit, modify, ret. by rewrite zlen_takeZ by lia. }
  rewrite (bind_Ret _ _ _ _ _ E), Z.eqb_refl. unfold xfer_next. rewrite Hf. done.
Qed.

Lemma xfer_busy fuel m size flags n s as' :
  has flags UX_READ = false -> z2b flags = true -> 0 <= size <= zlen m -> us_ep0 s = EA_busy :: as' ->
  exists s', us_log s' = us_log s /\ us_ep0 s' = as' /\
    (usb_do_xfer (S fuel) (XP_const m) size flags ;; ep0_passes (S n)) s
    = (usb_xfer (XP_const m) size flags ;; ep0_passes n) s'.
Proof using Type.
  intros Hf Hz Hs Ha. cbn [usb_do_xfer]. fold (packet_size size). set (xs := packet_size size).
  assert (Hxs : 0 <= xs <= size).
  { unfold xs, packet_size, USB_CDC_EP0_SIZE. destruct (Z.ltb_spec 16 size); lia. }
  set (s1 := s <| us_ep0 := as' |>).
  assert (E : xfer_call (XP_const m) xs flags s = Ret (-1) s1).
  { unfold xfer_call. rewrite Hf. unfold ptr_load, bind, gets.
    destruct (Z.ltb_spec (zlen m) xs); [lia|]. unfold ret, usb_send_ep0, ep0_next, bind, gets. by rewrite Ha. }
  rewrite bind_bind, (bind_Ret _ _ _ _ _ E). destruct (Z.eqb_spec (-1) xs); [lia|]. cbn [Z.eqb Z.opp].
  set (s2 := s1 <| usb_xfer_data := XP_const m |> <| usb_xfer_size := size |> <| usb_xfer_flags := flags |>).
  set (s3 := s2 <| usb_ep0_wake := 1 |>). set (s4 := s3 <| usb_ep0_wake := 0 |>).
  exists s4. split; [done|]. split; [done|].
  assert (Et : ep0_task request s3 = usb_xfer (XP_const m) size flags s4).
  { unfold ep0_task. rewrite (bind_Ret _ _ s3 true s4) by done. cbn [negb]. unfold bind, gets, id.
    change (usb_xfer_flags s4) with flags. rewrite Hz.
    change (usb_xfer_data s4) with (XP_const m). by change (usb_xfer_size s4) with size. }
  rewrite (bind_Ret _ _ s1 tt s2) by done. cbn [ep0_passes]. unfold ep0_pass. rewrite !bind_bind.
  rewrite (bind_Ret _ _ s2 tt s3) by done. unfold bind. by rewrite Et.
Qed.

Lemma xfer_taken b fuel m size flags n s as' :
  has flags UX_READ = false -> z2b flags = true -> 0 <= size <= zlen m ->
  us_ep0 s = (replicate b EA_busy ++ [EA_done []]) ++ as' ->
  exists fuel' s', (fuel' = fuel \/ fuel' = 17%nat) /\
    us_log s' = us_log s ++ [Ue_packet (takeZ (packet_size size) m)] /\ us_ep0 s' = as' /\
    (usb_do_xfer (S fuel) (XP_const m) size flags ;; ep0_passes (b + n)) s
    = (xfer_next fuel' (XP_const (dropZ (packet_size size) m)) (packet_size size) (size - packet_size size) flags
       ;; ep0_passes n) s'.
Proof using Type.
  intros Hf Hz Hs. revert fuel s. induction b as [|b IH]; intros fuel s Ha.
  - destruct (xfer_packet fuel m size flags s as' [] Hf Hs Ha) as (s' & L & A & E).
    exists fuel, s'. split; [by left|]. split; [done|]. split; [done|]. cbn [Nat.add]. unfold bind. by rewrite E.
  - destruct (xfer_busy fuel m size flags (b + n) s _ Hf Hz Hs Ha) as (s1 & L1 & A1 & E1).
    destruct (IH 17%nat s1 A1) as (fuel' & s' & Hfl & L & A & E).
    exists fuel', s'. split; [destruct Hfl; by right|]. split; [by rewrite L, L1|]. split; [done|].
    by rewrite Nat.add_succ_l, E1.
Qed.

(** The packets of [l]: all but the last have 16 bytes, and with [zlp] a full last one is
    followed by an empty one. *)
Inductive sends (zlp : bool) : list Z -> list (list Z) -> Prop :=
| sends_last l : zlen l < 16 \/ (zlen l = 16 /\ zlp = false) -> sends zlp l [l]
| sends_zlp l : zlen l = 16 -> zlp = true -> sends zlp l [l; []]
| sends_more l k ps : zlen l = 16 -> 0 < zlen k -> sends zlp k ps -> sends zlp (l ++ k) (l :: ps).

Lemma sends_exists zlp n : forall l, (length l <= n)%nat -> exists ps, sends zlp l ps.
Proof using Type.
  induction n as [n IH] using lt_wf_ind. intros l Hl.
  destruct (Z.lt_trichotomy (zlen l) 16) as [H|[H|H]].
  - exists [l]. apply sends_last. by left.
  - destruct zlp; [exists [l; []]; by apply sends_zlp|exists [l]; apply sends_last; by right].
  - destruct (IH (n - 16)%nat) with (l := dropZ 16 l) as [ps Hps]; [unfold zlen in H; lia..| |].
    { unfold dropZ, zlen in *. rewrite length_drop. lia. }
    exists (takeZ 16 l :: ps). rewrite <- (take_drop_Z 16 l) at 1.
    apply sends_more; [apply zlen_takeZ; lia|rewrite zlen_dropZ by lia; lia|done].
Qed.

(** A transfer from a constant, with the passes of the task for the times it was busy. *)
Lemma sends_run zlp : forall l ps, sends zlp l ps -> forall bs rest fuel junk flags s,
  length bs = length ps -> us_ep0 s = answers bs ++ rest ->
  has flags UX_READ = false -> has flags UX_SEND_ZLP = zlp -> z2b flags = true ->
  zlen l <= 255 -> zlen l < 16 * Z.of_nat fuel ->
  exists s', (usb_do_xfer (S fuel) (XP_const (l ++ junk)) (zlen l) flags ;; ep0_passes (sum_list bs)) s = Ret tt s' /\
    us_log s' = us_log s ++ map Ue_packet ps /\ usb_xfer_flags s' = 0 /\ us_ep0 s' = rest.
Proof using Type.
  assert (Hfin : forall s flags xs p fuel, (xs =? USB_CDC_EP0_SIZE) && has flags UX_SEND_ZLP = false ->
    exists s', (xfer_next fuel p xs 0 flags ;; ep0_passes 0) s = Ret tt s' /\ us_log s' = us_log s /\
      usb_xfer_flags s' = 0 /\ us_ep0 s' = us_ep0 s).
  { intros s flags xs p fuel H. unfold xfer_next. rewrite H. by eexists. }
  assert (Htake : forall l junk k : list Z, zlen l <= 16 -> (zlen k = 0 \/ zlen l = 16) ->
    packet_size (zlen (l ++ k)) = zlen l /\ takeZ (zlen l) (l ++ junk) = l /\ dropZ (zlen l) (l ++ junk) = junk).
  { intros l junk k H1 H2. rewrite zlen_app. pose proof (zlen_nonneg k). split; [|split; [apply takeZ_app_zlen|]].
    - unfold packet_size, USB_CDC_EP0_SIZE. destruct (Z.ltb_spec 16 (zlen l + zlen k)); lia.
    - unfold dropZ, zlen. rewrite Nat2Z.id. apply drop_app_length. }
  induction 1 as [l Hl|l Hl Hz|l k ps Hl Hk Hps IH]; intros bs rest fuel junk flags s Hlen Ha Hr Hzlp Hfl Hmax Hfuel.
  - destruct bs as [|b [|]]; [done| |done]. unfold answers in Ha. cbn [mbind list_bind] in Ha.
    rewrite app_nil_r in Ha. pose proof (zlen_nonneg l). pose proof (zlen_nonneg junk).
    destruct (xfer_taken b fuel (l ++ junk) (zlen l) flags 0 s rest Hr Hfl) as (fuel' & s1 & _ & L1 & A1 & E1);
      [rewrite zlen_app; lia|done|].
    destruct (Htake l junk []) as (P1 & P2 & P3); [lia|by left|]. rewrite app_nil_r in P1. rewrite P1, Z.sub_diag, P2 in *.
    destruct (Hfin s1 flags (zlen l) (XP_const (dropZ (zlen l) (l ++ junk))) fuel') as (s2 & E2 & L2 & F2 & A2).
    { rewrite Hzlp. unfold USB_CDC_EP0_SIZE. destruct (Z.eqb_spec (zlen l) 16); [|done]. destruct Hl as [|[_ ->]]; [lia|done]. }
    exists s2. change (sum_list [b]) with (b + 0)%nat. rewrite E1, E2. split; [done|]. split; [by rewrite L2, L1|].
    split; [done|]. congruence.
  - destruct bs as [|b1 [|b2 [|]]]; [done|done| |done]. unfold answers in Ha. cbn [mbind list_bind] in Ha.
    rewrite app_nil_r, <- app_assoc in Ha. pose proof (zlen_nonneg junk).
    destruct (xfer_taken b1 fuel (l ++ junk) (zlen l) flags (b2 + 0) s ((replicate b2 EA_busy ++ [EA_done []]) ++ rest) Hr Hfl) as (fuel1 & s1 & Hf1 & L1 & A1 & E1);
      [rewrite zlen_app; lia|exact Ha|].
    destruct (Htake l junk []) as (P1 & P2 & P3); [lia|by left|]. rewrite app_nil_r in P1. rewrite P1, Z.sub_diag, P2, P3 in *.
    unfold xfer_next in E1. rewrite Hzlp, Hz, Hl in E1. cbn [Z.eqb Pos.eqb andb USB_CDC_EP0_SIZE] in E1.
    destruct fuel1 as [|fuel1]; [lia|].
    destruct (xfer_taken b2 fuel1 junk 0 flags 0 s1 rest Hr Hfl) as (fuel2 & s2 & _ & L2 & A2 & E2); [lia|done|].
    destruct (Hfin s2 flags 0 (XP_const (dropZ 0 junk)) fuel2) as (s3 & E3 & L3 & F3 & A3); [done|].
    exists s3. change (sum_list [b1; b2]) with (b1 + (b2 + 0))%nat. rewrite Hl, E1, E2. split; [exact E3|].
    split; [by rewrite L3, L2, L1, <- app_assoc|]. split; [done|]. congruence.
  - destruct bs as [|b bs]; [done|]. unfold answers in Ha. cbn [mbind list_bind] in Ha. fold (answers bs) in Ha.
    rewrite <- app_assoc in Ha. rewrite zlen_app in Hmax, Hfuel. pose proof (zlen_nonneg junk).
    destruct (xfer_taken b fuel ((l ++ k) ++ junk) (zlen (l ++ k)) flags (sum_list bs) s (answers bs ++ rest) Hr Hfl)
      as (fuel1 & s1 & Hf1 & L1 & A1 & E1); [rewrite !zlen_app; lia|exact Ha|].
    destruct (Htake l (k ++ junk) k) as (P1 & P2 & P3); [lia|by right|]. rewrite <- app_assoc in E1, L1 |- *.
    rewrite P1, P2, P3 in *. rewrite zlen_app in E1. replace (zlen l + zlen k - zlen l) with (zlen k) in E1 by lia.
    unfold xfer_next in E1. destruct (Z.eqb_spec (zlen k) 0); [lia|]. destruct fuel1 as [|fuel1]; [lia|].
    destruct (IH bs rest fuel1 junk flags s1) as (s2 & E2 & L2 & F2 & A2); try done; [by injection Hlen|lia|lia|].
    exists s2. change (sum_list (b :: bs)) with (b + sum_list bs)%nat. rewrite zlen_app, E1. split; [done|].
    split; [by rewrite L2, L1, <- app_assoc|done].
Qed.

(** How a host that asked for [n] bytes reads [desc] from packets: it gets the bytes of the
    descriptor up to [n], in packets of 16; it stops at a short packet or when it has [n]
    bytes, which happens with the last packet and not before. *)
Record host_reads (n : Z) (desc : list Z) (ps : list (list Z)) : Prop := {
  hr_data : concat ps = takeZ n desc;
  hr_size : forall i p, ps !! i = Some p -> zlen p <= 16 /\ ((S i < length ps)%nat -> zlen p = 16);
  hr_stop : exists p, last ps = Some p /\ (zlen p < 16 \/ zlen (concat ps) = n);
  hr_early : 0 < n -> zlen (concat (removelast ps)) < n }.

Lemma sends_host zlp l ps n :
  sends zlp l ps -> (if zlp then zlen l < n else zlen l = n) ->
  concat ps = l /\ (forall i p, ps !! i = Some p -> zlen p <= 16 /\ ((S i < length ps)%nat -> zlen p = 16)) /\
  (exists p, last ps = Some p /\ (zlen p < 16 \/ zlen l = n)) /\ (0 < n -> zlen (concat (removelast ps)) < n).
Proof using Type.
  intros H. revert n. induction H as [l Hl|l Hl Hz|l k ps Hl Hk Hps IH]; intros n Hn.
  - cbn [concat removelast last length]. rewrite app_nil_r. split; [done|]. split; [|split].
    + intros [|i] p Hp; [|done]. injection Hp as <-. split; [lia|]. intros. lia.
    + exists l. split; [done|]. destruct Hl as [|[H ->]]; [by left|right]. done.
    + intros. change (zlen (@nil Z)) with 0. done.
  - cbn [concat removelast last length]. rewrite !app_nil_r. subst zlp. split; [done|]. split; [|split].
    + intros [|[|i]] p Hp; [| |done]; injection Hp as <-; (split; [change (zlen (@nil Z)) with 0; lia|]); intros; lia.
    + exists []. split; [done|]. left. by change (zlen (@nil Z)) with 0.
    + done.
  - rewrite zlen_app in *. destruct (IH (n - zlen l)) as (Hc & Hs & (p & Hp & Hst) & He);
      [destruct zlp; lia|]. destruct ps as [|p0 ps]; [done|].
    split; [cbn [concat] in *; by rewrite Hc|]. split; [|split].
    + intros [|i] q Hq; [injection Hq as <-; split; [lia|done]|]. destruct (Hs i q Hq) as [H1 H2]. split; [done|].
      intros. apply H2. cbn [length] in *. lia.
    + exists p. split; [done|]. destruct Hst; [by left|right; lia].
    + intros Hpos. change (removelast (l :: p0 :: ps)) with (l :: removelast (p0 :: ps)). cbn [concat].
      rewrite zlen_app. destruct (Z.eq_dec (n - zlen l) 0); [destruct zlp; lia|]. destruct zlp; lia.
Qed.

Context (table : list descriptor_s).

Lemma descriptor_flags req desc size flags :
  find_descriptor table req = Some (desc, size, flags) -> flags = UX_SEND \/ flags = UX_SEND_PROGMEM.
Proof using Type.
  assert (H : forall l found, (match found with Some (_, _, f) => f = UX_SEND \/ f = UX_SEND_PROGMEM | None => True end) ->
    match foldl (fun found d => if (d_wValue d =? wValue req) && (d_wIndex d =? wIndex req)
             then Some (d_desc d, zlen (d_desc d), if NEED_PROGMEM then UX_SEND_PROGMEM else UX_SEND)
             else found) found l with Some (_, _, f) => f = UX_SEND \/ f = UX_SEND_PROGMEM | None => True end).
  { induction l as [|d l IH]; intros found Hf; [done|]. cbn [foldl]. apply IH.
    destruct (_ && _); [destruct NEED_PROGMEM; auto|done]. }
  unfold find_descriptor. destruct (_ && _); [intros E; injection E as <- <- <-; by left|].
  intros E. specialize (H table None I). by rewrite E in H.
Qed.

(** C16: A descriptor reaches the host whole.  Whatever the length the host asks for and however
    often the endpoint is busy in between, the answer to GET_DESCRIPTOR of each of the two USB
    devices (its [table] and [request]), together with the passes of the task that continue it, sends packets from which the host reads the
    descriptor, cut at that length; the transfer ends, and endpoint 0 is ready for the next
    request. *)
Theorem usb_descriptor_reaches_host req desc size flags :
  bRequestType req = USB_DIR_IN -> find_descriptor table req = Some (desc, size, flags) ->
  size = zlen desc -> size <= 255 -> 0 <= wLength req ->
  exists ps, host_reads (wLength req) desc ps /\
    forall bs rest s, length bs = length ps -> us_ep0 s = answers bs ++ rest ->
      exists s', (usb_req_get_descriptor table req ;; ep0_passes (sum_list bs)) s = Ret tt s' /\
        us_log s' = us_log s ++ map Ue_packet ps /\ usb_xfer_flags s' = 0 /\ us_ep0 s' = rest.
Proof using Type.
  intros Hty Hd Hsz Hmax Hn. set (n := wLength req) in *. pose proof (descriptor_flags _ _ _ _ Hd) as Hfl.
  pose proof (zlen_nonneg desc). set (zlp := zlen desc <? n). set (l := takeZ n desc).
  assert (Hl : zlen l = Z.min n (zlen desc)).
  { unfold l, takeZ, zlen in *. rewrite length_take. lia. }
  destruct (sends_exists zlp (length l) l (le_n _)) as [ps Hps].
  destruct (sends_host zlp l ps n Hps) as (H1 & H2 & H3 & H4).
  { unfold zlp. destruct (Z.ltb_spec (zlen desc) n); lia. }
  exists ps. split; [constructor; [done..|by rewrite H1|done]|].
  intros bs rest s Hlen Ha. set (fl := if zlp then Z.lor flags UX_SEND_ZLP else flags).
  destruct (sends_run zlp l ps Hps bs rest 17 (dropZ n desc) fl s Hlen Ha) as (s' & E & L & F & A).
  1-3: unfold fl; destruct zlp, Hfl as [-> | ->]; reflexivity.
  1-2: lia.
  exists s'. split; [|done]. rewrite <- E. unfold usb_req_get_descriptor. rewrite Hty, Hd. cbn [negb Z.eqb Pos.eqb USB_DIR_IN].
  fold n. rewrite Hl. replace (l ++ dropZ n desc) with desc by (symmetry; apply take_drop_Z). unfold bind. subst size.
  replace (if n <? zlen desc then (n, flags) else if zlen desc <? n then (zlen desc, Z.lor flags UX_SEND_ZLP) else (zlen desc, flags))
    with (Z.min n (zlen desc), fl); [done|].
  unfold fl, zlp. destruct (Z.ltb_spec n (zlen desc)), (Z.ltb_spec (zlen desc) n); try lia; f_equal; lia.
Qed.

End ep0.

(** ** Descriptors *)

(** The descriptors in a row of them, as a host walks over it by the lengths in front. *)
Fixpoint walk (fuel : nat) (l : list Z) : option (list (list Z)) :=
  match fuel, l with
  | _, [] => Some []
  | O, _ => None
  | S fuel, n :: _ =>
      if (2 <=? n) && (n <=? zlen l) then (takeZ n l ::.) <$> walk fuel (dropZ n l) else None
  end.

(** The configuration descriptor is consistent: its total length is that of all its bytes,
    the lengths lead from part to part, and it has as many interfaces, and each of them as
    many endpoints, as they say. *)
Theorem config_descriptor_well_formed :
  exists head, walk 10 cdc_config_descriptor = Some (head :: config_parts) /\
    zlen cdc_config_descriptor = nthZ cdc_config_descriptor 2 + 256 * nthZ cdc_config_descriptor 3 /\
    nthZ head 4 = Z.of_nat (length (filter (fun p => nthZ p 1 = USB_DT_INTERFACE) config_parts)) /\
    foldr Z.add 0 ((fun p => nthZ p 4) <$> filter (fun p => nthZ p 1 = USB_DT_INTERFACE) config_parts)
    = Z.of_nat (length (filter (fun p => nthZ p 1 = USB_DT_ENDPOINT) config_parts)).
Proof using Type. eexists. split; [reflexivity|]. by repeat split. Qed.

Lemma le16_length units : length (units ≫= le16) = (2 * length units)%nat.
Proof using Type. induction units as [|u units IH]; [done|]. cbn. rewrite IH. lia. Qed.

Lemma string_descriptor_length units :
  zlen units <= 126 -> nthZ (string_descriptor units) 0 = zlen (string_descriptor units).
Proof using Type.
  intros H. transitivity (u8 (2 + 2 * zlen units)); [done|]. pose proof (zlen_nonneg units).
  rewrite u8_small by lia. unfold string_descriptor. rewrite zlen_app. change (zlen [_; _]) with 2.
  unfold zlen. rewrite le16_length. lia.
Qed.

(** The serial number of a chip shows the hexadecimal digits of its id. *)
Definition hex_digit (c : Z) : Z := if c <? 58 then c - 48 else c - 55.

Lemma serial_shows_id id k :
  0 <= nthZ id k < 256 -> 0 <= k ->
  16 * hex_digit (serial_char id (2 * k)) + hex_digit (serial_char id (2 * k + 1)) = nthZ id k.
Proof using Type.
  intros Hb Hk. unfold serial_char.
  replace (2 * k / 2) with k by (symmetry; rewrite Z.mul_comm; apply Z.div_mul; lia).
  replace ((2 * k + 1) / 2) with k by (apply (Z.div_unique (2 * k + 1) 2 k 1); lia).
  assert (has (2 * k) 1 = false) as ->.
  { unfold has. change 1 with (Z.ones 1). rewrite Z.land_ones by lia. rewrite Z.mul_comm.
    change (2 ^ 1) with 2. by rewrite Z_mod_mult. }
  assert (has (2 * k + 1) 1 = true) as ->.
  { unfold has. change 1 with (Z.ones 1) at 2. rewrite Z.land_ones by lia. change (2 ^ 1) with 2.
    rewrite Z.add_comm, Z.mul_comm, Z_mod_plus_full. done. }
  set (b := nthZ id k) in *. apply Z.eqb_eq.
  exact (forall_below 256 (fun b => 16 * hex_digit (if Z.shiftr b 4 <? 10 then Z.shiftr b 4 + 48 else Z.shiftr b 4 - 10 + 65)
    + hex_digit (if Z.land b 15 <? 10 then Z.land b 15 + 48 else Z.land b 15 - 10 + 65) =? b) ltac:(by vm_compute) b Hb).
Qed.
End bulk.

(** ** Witnesses *)

#[local] Instance demo_board : UsbBoard := {|
  fast8_is_byte := false; NEED_PROGMEM := false; CONFIG_USB_SERIAL_NUMBER_CHIPID := false;
  CONFIG_USB_VENDOR_ID := 7504; CONFIG_USB_DEVICE_ID := 24910;
  USB_STR_PRODUCT := [115; 116; 109; 51; 50]; USB_STR_SERIAL := [49; 50; 51; 52; 53];
  usbserial_get_serialid := []; USB_CDC_EP_BULK_IN := 1; USB_CDC_EP_BULK_OUT := 2; USB_CDC_EP_ACM := 3 |}.

Definition usb_init : usb_state :=
  mk_usb (replicate 192 0) 0 0 (replicate 128 0) 0 0 (XP_const []) 0 0 0 [replicate 7 0] 0 [] [] [] [] [] [].

(** The language descriptor has 4 bytes; the manufacturer's name has 16, and takes an empty
    packet for the host that asked for 255.  The endpoint is busy twice. *)
Definition demo_request : usb_ctrlrequest := mk_req 128 6 769 1033 255.

Lemma usb_descriptor_reaches_host_witness :
  exists ps, host_reads 255 cdc_string_manufacturer ps /\
    forall bs rest s, length bs = length ps -> us_ep0 s = answers bs ++ rest ->
      exists s', (usb_req_get_descriptor cdc_descriptors demo_request ;; ep0_passes usb_request (sum_list bs)) s = Ret tt s' /\
        us_log s' = us_log s ++ map Ue_packet ps /\ usb_xfer_flags s' = 0 /\ us_ep0 s' = rest.
Proof.
  apply (usb_descriptor_reaches_host usb_request cdc_descriptors demo_request cdc_string_manufacturer 16 UX_SEND).
  - reflexivity.
  - reflexivity.
  - reflexivity.
  - lia.
  - cbn. lia.
Defined.

Example manufacturer_packets :
  match (usb_req_get_descriptor cdc_descriptors demo_request ;; ep0_passes usb_request 2) (usb_init <| us_ep0 := answers [1; 1]%nat |>) with
  | Ret _ s => us_log s = [Ue_packet cdc_string_manufacturer; Ue_packet []]
  | _ => False
  end.
Proof. vm_compute. reflexivity. Qed.

(** A firmware with a command that shuts down (1) and one that does nothing (2). *)
Module UsbDemo.
Definition W : Type := cmd_state * usb_state.
#[export] Instance part_cmd : Part W cmd_state := Part_fst _ _.
#[export] Instance part_usb : Part W usb_state := Part_snd _ _.

#[export] Instance env : CommandEnv W := {|
  env_console := {| env_console_sendf _ _ := ret tt |};
  env_sched_is_shutdown := ret false;
  env_sched_report_shutdown := ret tt;
  env_irq_poll := ret tt;
  env_command_index :=
    let op f := {| cp_num_args := 0; cp_flags := 0; cp_param_types := []; cp_func _ := f |} in
    [op (ret tt); op (shutdown "halt"); op (ret tt)];
  env_sizeof_size_t := 4;
  env_receive_base := 0;
|}.

#[export] Instance link : Usb_link (W := W).
Proof.
  apply usb_link_of_table.
  - done.
  - done.
  - intros w. by exists w.
  - split; [|repeat split; intros w; discriminate].
    intros [|[|[|i]]] cp Hcp; simpl in Hcp; try discriminate; injection Hcp as <-;
      (split; [vm_compute; discriminate|intros args w; discriminate]).
  - split; [|by split_and!].
    intros [|[|[|i]]] cp Hcp; simpl in Hcp; try discriminate; injection Hcp as <-; by intros args.
Qed.

(** A full buffer: a block with the command that shuts down, and then no block at all. *)
Definition full : usb_state :=
  usb_init <| receive_buf := frame 16 [1] ++ replicate 122 9 |> <| receive_pos := 128 |> <| usb_bulk_out_wake := 1 |>
           <| us_packets := [Some [1; 2; 3]] |>.
End UsbDemo.
Import UsbDemo.


(** The first pass shuts down and leaves the block, the second rejects it as a repeated one. *)
Example shutdown_block_not_repeated :
  match usb_passes 2 ((cmd_init, full) : UsbDemo.W) with
  | Some w => receive_pos (snd w) = 122 /\ next_sequence (fst w) = 17
  | None => False
  end.
Proof. vm_compute. split; reflexivity. Qed.

Lemma usb_transmit_keeps_stream_witness :
  exists w' blocks,
    tx_run (W := UsbDemo.W) 4 [Tx_send encode_acknak [] []; Tx_task; Tx_send encode_acknak [] []]
      (cmd_init, usb_init <| us_in_answers := [3] |>) = Ret tt w' /\
    tx_stream (snd w') = concat blocks /\
    blocks `sublist_of` [[5; 16; 158; 129; 126]; [5; 16; 158; 129; 126]].
Proof.
  destruct (usb_transmit_keeps_stream (W := UsbDemo.W) 4 [Tx_send encode_acknak [] []; Tx_task; Tx_send encode_acknak [] []]
    (cmd_init, usb_init <| us_in_answers := [3] |>)) as (w' & blocks & E & _ & _ & Hs & Hb).
  - split; [reflexivity|]. split; discriminate.
  - repeat (constructor; [first [exact I|split; [reflexivity|split; discriminate]]|]). constructor.
  - exists w', blocks. split; [exact E|]. split; [exact Hs|exact Hb].
Defined.
