(* ===== verification/Usbcan.v ===== *)
(** * The USB to CAN bridge (src/generic/usb_canbus.c)

    A micro-controller with both interfaces shows itself to the host as a CAN adapter.  It
    hands the frames of the host to the bus, and to its own console (canserial.c) when they
    are meant for it, and echoes them to the host; it hands the frames of the bus and those of
    its own console to the host.  Frames of the bus are received in an interrupt, which
    appends to a ring; [br_irq] is a point at which it may run, and an oracle in the state
    lists the frames that arrive at each.  Three more oracles tell which frames the endpoint
    to the host and the CAN controller accept, and what the host sends.

    The requests of endpoint 0 are those of [Usbcdc] with other descriptors and are not
    repeated here. *)

From S2P Require Import Prelude Wire Command Sched Basecmd Rxbuf Canserial.

(** [struct gs_host_frame]. *)
Record gs_host_frame := mk_gs {
  gs_echo_id : Z; gs_can_id : Z; gs_can_dlc : Z; gs_channel : Z; gs_flags : Z; gs_reserved : Z;
  gs_data : list Z }.

(** What leaves the bridge: frames of the bus or the console to the host, echoes to the host,
    frames to the bus and to the console. *)
Inductive bridge_event :=
| BE_frame (gs : gs_host_frame) | BE_echo (gs : gs_host_frame)
| BE_hw (m : canbus_msg) | BE_local (m : canbus_msg).

(** [struct usbcan_data], the console, and the oracles: the frames of the bus, the answers
    of [usb_send_bulk_in] and of [canbus_send] (busy when there are no more), and the contents
    of [host_frame] after [usb_read_bulk_out], [None] for -1. *)
Record usbcan_data := mk_uc {
  uc_wake : Z; uc_host_frame : gs_host_frame; uc_host_status : Z;
  uc_notify_local : Z; uc_assigned_id : Z;
  uc_pull_pos : Z; uc_push_pos : Z; uc_queue : list canbus_msg;
  uc_local : canbus_data;
  uc_irqs : list (list canbus_msg); uc_in : list bool; uc_hw : list bool;
  uc_packets : list (option gs_host_frame); uc_events : list bridge_event }.
#[export] Instance eta_uc : Settable usbcan_data := fun s =>
  mk_uc (uc_wake s) (uc_host_frame s) (uc_host_status s) (uc_notify_local s) (uc_assigned_id s)
    (uc_pull_pos s) (uc_push_pos s) (uc_queue s) (uc_local s)
    (uc_irqs s) (uc_in s) (uc_hw s) (uc_packets s) (uc_events s).

Notation MB := (M usbcan_data).

#[export, program] Instance part_local : Part usbcan_data canbus_data := {
  part_get := uc_local;
  part_set c s := s <| uc_local := c |>;
}.
Solve Obligations with by intros; repeat match goal with s : usbcan_data |- _ => destruct s end.

Definition HS_TX_ECHO : Z := 1.
Definition HS_TX_HW : Z := 2.
Definition HS_TX_LOCAL : Z := 4.

(** [ARRAY_SIZE(UsbCan.queue)]. *)
Definition QUEUE_SIZE : Z := 8.

Definition br_emit (e : bridge_event) : MB unit := modify (fun s => s <| uc_events ::= fun l => l ++ [e] |>).

(** [canbus_notify_tx], [usb_notify_bulk_out] and [usb_notify_bulk_in] of this file. *)
Definition canbus_notify_tx : MB unit := modify (fun s => s <| uc_wake := 1 |>).

(** ** The interrupt *)

Definition canbus_process_data (m : canbus_msg) : MB unit :=
  s <- gets (fun s => s) ;;
  let pushp := uc_push_pos s in
  if QUEUE_SIZE <=? u32 (pushp - uc_pull_pos s) then ret tt
  else if negb (uc_assigned_id s =? 0) && (clear (cm_id m) 1 =? uc_assigned_id s) then ret tt
  else
    modify (fun s => s <| uc_queue ::= <[Z.to_nat (pushp mod QUEUE_SIZE) := m]> |>) ;;
    modify (fun s => s <| uc_push_pos := u32 (pushp + 1) |>) ;;
    canbus_notify_tx.

Fixpoint bus_frames (l : list canbus_msg) : MB unit :=
  match l with [] => ret tt | m :: l => canbus_process_data m ;; bus_frames l end.

Definition br_irq : MB unit :=
  l <- gets uc_irqs ;;
  match l with
  | [] => ret tt
  | fs :: l => modify (fun s => s <| uc_irqs := l |>) ;; bus_frames fs
  end.

(** ** The functions of the board *)

(** Whether the endpoint takes the event. *)
Definition usb_send_bulk_in (e : bridge_event) : MB Z :=
  l <- gets uc_in ;;
  match l with
  | [] => ret (-1)
  | ok :: l =>
      modify (fun s => s <| uc_in := l |>) ;;
      if ok : bool then br_emit e ;; ret 0 else ret (-1)
  end.

Definition canbus_send (m : canbus_msg) : MB Z :=
  l <- gets uc_hw ;;
  match l with
  | [] => ret (-1)
  | ok :: l =>
      modify (fun s => s <| uc_hw := l |>) ;;
      if ok : bool then br_emit (BE_hw m) ;; ret (cm_dlc m) else ret (-1)
  end.

(** Whether a frame was read. *)
Definition usb_read_bulk_out : MB bool :=
  l <- gets uc_packets ;;
  match l with
  | [] => ret false
  | None :: l => modify (fun s => s <| uc_packets := l |>) ;; ret false
  | Some f :: l => modify (fun s => s <| uc_packets := l |> <| uc_host_frame := f |>) ;; ret true
  end.

(** ** Message sending *)

Definition frame_of (m : canbus_msg) : gs_host_frame :=
  mk_gs 4294967295 (cm_id m) (u8 (cm_dlc m)) 0 0 0 (cm_data m).
Definition send_frame (m : canbus_msg) : MB Z := usb_send_bulk_in (BE_frame (frame_of m)).

(** Every turn takes an answer of the endpoint. *)
Fixpoint drain_loop (fuel : nat) : MB Z :=
  match fuel with
  | O => stuck
  | S fuel =>
      br_irq ;;
      push_pos <- gets uc_push_pos ;;
      pull_pos <- gets uc_pull_pos ;;
      if negb (push_pos =? pull_pos) then
        br_irq ;;
        queue <- gets uc_queue ;;
        m <- deref (queue !! Z.to_nat (pull_pos mod QUEUE_SIZE)) ;;
        r <- send_frame m ;;
        br_irq ;;
        if r <? 0 then ret (-1)
        else
          modify (fun s => s <| uc_pull_pos := u32 (pull_pos + 1) |>) ;;
          drain_loop fuel
      else ret 0
  end.

Definition drain_hw_queue : MB Z := fun s => drain_loop (S (length (uc_in s))) s.

(** The frame of the host as one for the bus; [can_dlc] is a byte. *)
Definition msg_of (gs : gs_host_frame) : canbus_msg := mk_can (gs_can_id gs) (u8 (gs_can_dlc gs)) (gs_data gs).

(** [canserial_process_data] of the console. *)
Definition process_local (m : canbus_msg) : MB Z :=
  r <- zoom (canserial_process_data m) ;;
  when (0 <=? r) (br_emit (BE_local m)) ;;
  ret r.

(** The transmission of a frame of the host: whether the loop of [usbcan_task] goes on. *)
Definition host_transmit (host_status : Z) : MB bool :=
  gs <- gets uc_host_frame ;;
  let m := msg_of gs in
  go <- (if has host_status HS_TX_HW then
           r <- canbus_send m ;;
           if r <? 0 then ret None
           else
             let host_status := clear host_status HS_TX_HW in
             modify (fun s => s <| uc_host_status := host_status |>) ;; ret (Some host_status)
         else ret (Some host_status)) ;;
  match go with
  | None => ret false
  | Some host_status =>
      if has host_status HS_TX_LOCAL then
        r <- process_local m ;;
        if r <? 0 then canbus_notify_tx ;; ret false
        else modify (fun s => s <| uc_host_status := clear host_status HS_TX_LOCAL |>) ;; ret true
      else ret true
  end.

(** Where a frame of the host goes. *)
Definition new_status (assigned_id id : Z) : Z :=
  if id =? CANBUS_ID_ADMIN then Z.lor (Z.lor HS_TX_ECHO HS_TX_HW) HS_TX_LOCAL
  else if negb (assigned_id =? 0) && (assigned_id =? id) then Z.lor HS_TX_ECHO HS_TX_LOCAL
  else Z.lor HS_TX_ECHO HS_TX_HW.

(** A frame of the host takes three turns: it is read, transmitted, and echoed. *)
Fixpoint usbcan_loop (fuel : nat) : MB unit :=
  match fuel with
  | O => stuck
  | S fuel =>
      r <- drain_hw_queue ;;
      if r <? 0 then ret tt
      else
        host_status <- gets uc_host_status ;;
        if has host_status (Z.lor HS_TX_HW HS_TX_LOCAL) then
          go <- host_transmit host_status ;;
          if go : bool then usbcan_loop fuel else ret tt
        else if negb (host_status =? 0) then
          gs <- gets uc_host_frame ;;
          r <- usb_send_bulk_in (BE_echo gs) ;;
          if r <? 0 then ret tt
          else modify (fun s => s <| uc_host_status := 0 |>) ;; usbcan_loop fuel
        else
          got <- usb_read_bulk_out ;;
          if got : bool then
            s <- gets (fun s => s) ;;
            modify (fun s => s <| uc_host_status := new_status (uc_assigned_id s) (gs_can_id (uc_host_frame s)) |>) ;;
            usbcan_loop fuel
          else
            local <- gets uc_notify_local ;;
            when (negb (local =? 0))
              (modify (fun s => s <| uc_notify_local := 0 |>) ;; zoom canserial_notify_tx)
  end.

Definition usbcan_fuel (s : usbcan_data) : nat := 3 + 3 * length (uc_packets s).

Definition usbcan_task : MB unit :=
  w <- gets uc_wake ;;
  if w =? 0 then ret tt
  else
    modify (fun s => s <| uc_wake := 0 |>) ;;
    fun s => usbcan_loop (usbcan_fuel s) s.

(** ** The console's side *)

Definition canserial_send (m : canbus_msg) : MB Z :=
  r <- drain_hw_queue ;;
  let retry_later := modify (fun s => s <| uc_notify_local := 1 |>) ;; ret (-1) in
  if r <? 0 then retry_later
  else
    r <- send_frame m ;;
    if r <? 0 then retry_later
    else modify (fun s => s <| uc_notify_local := 0 |>) ;; ret (cm_dlc m).

Definition canserial_set_filter (id : Z) : MB unit := modify (fun s => s <| uc_assigned_id := id |>).
