(* ===== verification/UsbcanFacts.v ===== *)
(** * The USB to CAN bridge loses and reorders nothing

    The positions of the ring run through all 32-bit values, and every test of them is one of
    their difference; the frames of the host pass the stations that their status names. *)

From S2P Require Import Prelude Wire Command Sched Basecmd Rxbuf Canserial Usbcan.

(** ** The ring *)

Definition slot (s : usbcan_data) (pos : Z) : canbus_msg := nth (Z.to_nat (pos mod 8)) (uc_queue s) admin_zero.

(** The frames of the bus that wait for the host. *)
Definition waiting (s : usbcan_data) : list canbus_msg :=
  (fun i => slot s (uc_pull_pos s + Z.of_nat i)) <$> seq 0 (Z.to_nat (u32 (uc_push_pos s - uc_pull_pos s))).

Record ring_ok (s : usbcan_data) : Prop := {
  ro_len : length (uc_queue s) = 8%nat;
  ro_pull : 0 <= uc_pull_pos s < 4294967296;
  ro_push : 0 <= uc_push_pos s < 4294967296;
  ro_fill : u32 (uc_push_pos s - uc_pull_pos s) <= 8 }.

Lemma u32_mod8 z : u32 z mod 8 = z mod 8.
Proof.
  unfold u32. rewrite (Z.div_mod z 4294967296) at 2 by lia.
  replace (4294967296 * (z / 4294967296)) with (536870912 * (z / 4294967296) * 8) by ring.
  by rewrite Z.add_comm, Z_mod_plus_full.
Qed.

(** The host's side of the bridge, which the interrupt leaves alone. *)
Definition host_side (s : usbcan_data) :=
  (uc_host_frame s, uc_host_status s, uc_assigned_id s, uc_pull_pos s, uc_packets s, uc_events s, uc_in s, uc_local s).

(** A frame of the bus is dropped when eight are waiting, or when it has an identifier of the
    console. *)
Definition accepted (m : canbus_msg) (s : usbcan_data) : list canbus_msg :=
  if (8 <=? zlen (waiting s)) || (negb (uc_assigned_id s =? 0) && (clear (cm_id m) 1 =? uc_assigned_id s))
  then [] else [m].

Lemma zlen_waiting s : zlen (waiting s) = u32 (uc_push_pos s - uc_pull_pos s).
Proof.
  unfold zlen, waiting. rewrite length_fmap, length_seq. pose proof (u32_range (uc_push_pos s - uc_pull_pos s)). lia.
Qed.

Lemma push_run m s :
  ring_ok s -> exists s', canbus_process_data m s = Ret tt s' /\ ring_ok s' /\
    waiting s' = waiting s ++ accepted m s /\ host_side s' = host_side s /\ uc_irqs s' = uc_irqs s.
Proof.
  intros [Hl Hp1 Hp2 Hf]. unfold canbus_process_data, bind, gets, modify. cbn beta zeta.
  unfold accepted. rewrite zlen_waiting. fold QUEUE_SIZE.
  destruct (Z.leb_spec QUEUE_SIZE (u32 (uc_push_pos s - uc_pull_pos s))); cbn [orb].
  { exists s. rewrite app_nil_r. split; [done|]. split; [by constructor|done]. }
  destruct (negb _ && _).
  { exists s. rewrite app_nil_r. split; [done|]. split; [by constructor|done]. }
  unfold QUEUE_SIZE in *. set (n := u32 (uc_push_pos s - uc_pull_pos s)) in *.
  assert (Hn : 0 <= n < 8) by (pose proof (u32_range (uc_push_pos s - uc_pull_pos s)); lia).
  assert (Hpush : (uc_push_pos s) mod 8 = (uc_pull_pos s + n) mod 8).
  { unfold n. rewrite <- (u32_mod8 (uc_pull_pos s + _)).
    assert (u32 (uc_pull_pos s + u32 (uc_push_pos s - uc_pull_pos s)) = uc_push_pos s) as -> by wrap_lia. done. }
  assert (Hnext : u32 (u32 (uc_push_pos s + 1) - uc_pull_pos s) = n + 1) by (unfold n in *; wrap_lia).
  eexists. split; [reflexivity|]. split; [|split; [|by split_and!]].
  - constructor; cbn; [by rewrite length_insert|done|apply u32_range|]. rewrite Hnext. lia.
  - unfold waiting. cbn [upd uc_pull_pos uc_push_pos]. rewrite Hnext. fold n.
    replace (Z.to_nat (n + 1)) with (S (Z.to_nat n)) by lia. rewrite seq_S, fmap_app. f_equal.
    + apply list_fmap_ext. intros i x Hx. apply lookup_seq in Hx as [-> Hi]. unfold slot. cbn [upd uc_queue].
      rewrite !nth_lookup, list_lookup_insert_ne; [done|]. rewrite Hpush.
      pose proof (Z.mod_pos_bound (uc_pull_pos s + n) 8 ltac:(lia)).
      pose proof (Z.mod_pos_bound (uc_pull_pos s + Z.of_nat (0 + i)) 8 ltac:(lia)).
      intros E. assert (E' : (uc_pull_pos s + n) mod 8 = (uc_pull_pos s + Z.of_nat (0 + i)) mod 8) by lia.
      Z.div_mod_to_equations. lia.
    + cbn [fmap list_fmap]. f_equal. unfold slot. cbn [upd uc_queue].
      rewrite nth_lookup, Hpush, Nat.add_0_l, Z2Nat.id by lia. rewrite list_lookup_insert_eq; [done|].
      pose proof (Z.mod_pos_bound (uc_pull_pos s + n) 8 ltac:(lia)). rewrite Hl. lia.
Qed.

Lemma bus_frames_run l s :
  ring_ok s -> exists s' k, bus_frames l s = Ret tt s' /\ ring_ok s' /\
    waiting s' = waiting s ++ k /\ host_side s' = host_side s /\
    uc_irqs s' = uc_irqs s /\ k `sublist_of` l.
Proof.
  revert s. induction l as [|m l IH]; intros s Hok; cbn [bus_frames].
  { exists s, []. rewrite app_nil_r. do 5 (split; [done|]). constructor. }
  destruct (push_run m s Hok) as (s1 & E1 & Hok1 & W1 & S1 & I1). rewrite (bind_Ret _ _ _ _ _ E1).
  destruct (IH s1 Hok1) as (s2 & k2 & E2 & Hok2 & W2 & S2 & I2 & L2). exists s2, (accepted m s ++ k2).
  split; [done|]. split; [done|]. split; [by rewrite W2, W1, app_assoc|]. split; [congruence|].
  split; [congruence|]. apply (sublist_app (accepted m s) [m] k2 l); [|done].
  unfold accepted. destruct (_ || _); [apply sublist_nil_l|done].
Qed.

(** The frames [k] are some of those that arrived from [s] to [s']. *)
Definition arrived (k : list canbus_msg) (s s' : usbcan_data) : Prop :=
  exists t, uc_irqs s = t ++ uc_irqs s' /\ k `sublist_of` concat t.

Lemma arrived_none s s' : uc_irqs s' = uc_irqs s -> arrived [] s s'.
Proof. intros E. exists []. by rewrite E. Qed.

Lemma arrived_trans k1 k2 s1 s2 s3 : arrived k1 s1 s2 -> arrived k2 s2 s3 -> arrived (k1 ++ k2) s1 s3.
Proof.
  intros (t1 & E1 & L1) (t2 & E2 & L2). exists (t1 ++ t2). rewrite concat_app. split; [by rewrite E1, E2, app_assoc|].
  by apply sublist_app.
Qed.

Lemma br_irq_run s :
  ring_ok s -> exists s' k, br_irq s = Ret tt s' /\ ring_ok s' /\
    waiting s' = waiting s ++ k /\ host_side s' = host_side s /\ arrived k s s'.
Proof.
  intros Hok. unfold br_irq, bind, gets, modify. destruct (uc_irqs s) as [|fs l] eqn:Hi.
  { exists s, []. rewrite app_nil_r. do 4 (split; [done|]). by apply arrived_none. }
  destruct (bus_frames_run fs (s <| uc_irqs := l |>)) as (s' & k & E & Hok' & W & S & I & L); [by destruct Hok|].
  exists s', k. do 4 (split; [done|]). exists [fs]. cbn [concat]. rewrite app_nil_r, I, Hi. done.
Qed.

(** The first waiting frame is taken. *)
Lemma waiting_pop s :
  ring_ok s -> uc_push_pos s <> uc_pull_pos s ->
  let s' := s <| uc_pull_pos := u32 (uc_pull_pos s + 1) |> in
  ring_ok s' /\ waiting s = slot s (uc_pull_pos s) :: waiting s'.
Proof.
  intros [Hl Hp1 Hp2 Hf] Hne s'. unfold waiting.
  assert (Hn : 1 <= u32 (uc_push_pos s - uc_pull_pos s)) by wrap_lia.
  assert (Hn' : u32 (uc_push_pos s' - uc_pull_pos s') = u32 (uc_push_pos s - uc_pull_pos s) - 1) by (cbn; wrap_lia).
  split; [constructor; [done|apply u32_range|done|lia]|]. rewrite Hn'.
  destruct (Z.to_nat (u32 (uc_push_pos s - uc_pull_pos s))) as [|n] eqn:En; [lia|].
  replace (Z.to_nat _) with n by lia. cbn [seq fmap list_fmap]. rewrite Z.add_0_r. f_equal.
  rewrite <- (fmap_S_seq 0 n), <- list_fmap_compose. apply list_fmap_ext. intros i x _.
  unfold slot. cbn [upd uc_queue uc_pull_pos s' compose].
  f_equal. f_equal. rewrite <- (u32_mod8 (uc_pull_pos s + _)), <- (u32_mod8 (u32 _ + _)). f_equal.
  rewrite Nat2Z.inj_succ. wrap_lia.
Qed.

Lemma waiting_nonempty s : ring_ok s -> waiting s <> [] -> uc_push_pos s <> uc_pull_pos s.
Proof.
  intros _ Hw E. apply Hw. unfold waiting. rewrite E, Z.sub_diag. done.
Qed.

(** ** Frames to the host *)

Definition frames (evs : list bridge_event) : list gs_host_frame :=
  omap (fun e => match e with BE_frame f => Some f | _ => None end) evs.
(** What becomes of the frames of the host. *)
Definition is_route (e : bridge_event) : bool := match e with BE_frame _ => false | _ => true end.
Definition routed (evs : list bridge_event) : list bridge_event :=
  filter (fun e => is_route e = true) evs.

(** The state of the host's side without the ring and the events. *)
Definition host_part (s : usbcan_data) :=
  (uc_host_frame s, uc_host_status s, uc_assigned_id s, uc_packets s, uc_local s).

(** The frames [hw] of the ring went to the host, while [arr] were added to it. *)
Record drained (arr hw : list canbus_msg) (s s' : usbcan_data) : Prop := {
  dr_ok : ring_ok s';
  dr_ring : waiting s ++ arr = hw ++ waiting s';
  dr_arrived : arrived arr s s';
  dr_events : uc_events s' = uc_events s ++ ((fun m => BE_frame (frame_of m)) <$> hw);
  dr_host : host_part s' = host_part s }.

Lemma drained_trans a1 h1 a2 h2 s1 s2 s3 :
  drained a1 h1 s1 s2 -> drained a2 h2 s2 s3 -> drained (a1 ++ a2) (h1 ++ h2) s1 s3.
Proof.
  intros [O1 R1 A1 E1 P1] [O2 R2 A2 E2 P2]. constructor; [done| |by eapply arrived_trans| |congruence].
  - by rewrite app_assoc, R1, <- app_assoc, R2, app_assoc.
  - by rewrite E2, E1, fmap_app, app_assoc.
Qed.

Lemma drained_irq s :
  ring_ok s -> exists s' arr, br_irq s = Ret tt s' /\ drained arr [] s s' /\
    uc_in s' = uc_in s /\ uc_pull_pos s' = uc_pull_pos s.
Proof.
  intros Hok. destruct (br_irq_run s Hok) as (s' & k & E & Hok' & W & S & A). unfold host_side in S. simplify_eq S.
  exists s', k. split; [done|]. split; [|done]. constructor; [done|by rewrite W|done| |unfold host_part; congruence].
  cbn. by rewrite app_nil_r.
Qed.

Lemma send_frame_run m s :
  exists r s', send_frame m s = Ret r s' /\ waiting s' = waiting s /\ (ring_ok s -> ring_ok s') /\
    uc_pull_pos s' = uc_pull_pos s /\ (host_part s' = host_part s /\ uc_irqs s' = uc_irqs s) /\
    ((r = -1 /\ uc_events s' = uc_events s) \/
     (r = 0 /\ uc_events s' = uc_events s ++ [BE_frame (frame_of m)] /\ (length (uc_in s') < length (uc_in s))%nat)).
Proof.
  unfold send_frame, usb_send_bulk_in, bind, gets, modify. destruct (uc_in s) as [|[] l].
  - exists (-1), s. do 5 (split; [done|]). by left.
  - eexists 0, _. split; [reflexivity|]. split; [done|]. split; [by intros []|]. do 2 (split; [done|]).
    right. split; [done|]. split; [done|]. cbn. lia.
  - eexists (-1), _. split; [reflexivity|]. split; [done|]. split; [by intros []|]. do 2 (split; [done|]). by left.
Qed.

Lemma drain_loop_run fuel s :
  ring_ok s -> (length (uc_in s) < fuel)%nat ->
  exists r s' arr hw, drain_loop fuel s = Ret r s' /\ drained arr hw s s' /\ (r = 0 \/ r = -1).
Proof.
  revert s. induction fuel as [|fuel IH]; intros s Hok Hf; [lia|]. cbn [drain_loop].
  destruct (drained_irq s Hok) as (s1 & a1 & E1 & D1 & I1 & P1). rewrite (bind_Ret _ _ _ _ _ E1).
  unfold bind at 1 2, gets. destruct (Z.eqb_spec (uc_push_pos s1) (uc_pull_pos s1)); cbn [negb].
  { exists 0, s1, a1, []. split; [done|]. split; [done|by left]. }
  destruct (waiting_pop s1 (dr_ok _ _ _ _ D1) n) as [_ Hw1].
  destruct (drained_irq s1 (dr_ok _ _ _ _ D1)) as (s2 & a2 & E2 & D2 & I2 & P2). rewrite (bind_Ret _ _ _ _ _ E2).
  assert (Hw2 : waiting s2 = slot s1 (uc_pull_pos s1) :: waiting (s1 <| uc_pull_pos := u32 (uc_pull_pos s1 + 1) |>) ++ a2).
  { pose proof (dr_ring _ _ _ _ D2) as R. cbn [app] in R. by rewrite <- R, Hw1. }
  pose proof (waiting_nonempty s2 (dr_ok _ _ _ _ D2) ltac:(by rewrite Hw2)) as Hne2.
  destruct (waiting_pop s2 (dr_ok _ _ _ _ D2) Hne2) as [_ Hs2]. rewrite Hw2 in Hs2. injection Hs2 as Hm _.
  set (m := slot s1 (uc_pull_pos s1)) in *. unfold bind at 1, gets.
  assert (Hq : uc_queue s2 !! Z.to_nat (uc_pull_pos s1 mod QUEUE_SIZE) = Some m).
  { rewrite Hm. unfold slot, QUEUE_SIZE. rewrite P2.
    destruct (dr_ok _ _ _ _ D2) as [Hl _ _ _]. pose proof (Z.mod_pos_bound (uc_pull_pos s1) 8 ltac:(lia)).
    destruct (lookup_lt_is_Some_2 (uc_queue s2) (Z.to_nat (uc_pull_pos s1 mod 8))) as [x Hx]; [lia|].
    by rewrite nth_lookup, Hx. }
  rewrite Hq. cbn [deref]. rewrite bind_ret_l.
  destruct (send_frame_run m s2) as (r & s3 & E3 & W3 & O3 & P3 & [H3 Ir3] & Hr). rewrite (bind_Ret _ _ _ _ _ E3).
  specialize (O3 (dr_ok _ _ _ _ D2)). destruct (drained_irq s3 O3) as (s4 & a4 & E4 & D4 & I4 & P4).
  rewrite (bind_Ret _ _ _ _ _ E4). pose proof (drained_trans _ _ _ _ _ _ _ D1 D2) as D12.
  destruct Hr as [[-> Ev]|(-> & Ev & Hin)]; cbn [Z.ltb Z.compare].
  - exists (-1), s4, ((a1 ++ a2) ++ a4), []. split; [done|]. split; [|by right].
    change [] with ([] ++ [] : list canbus_msg). eapply drained_trans; [exact D12|].
    destruct D4 as [O4 R4 A4 V4 K4]. constructor; [done|by rewrite <- W3| | |congruence]; [|by rewrite V4, Ev].
    unfold arrived in *. by rewrite <- Ir3.
  - assert (Hw3 : waiting s4 = m :: waiting (s1 <| uc_pull_pos := u32 (uc_pull_pos s1 + 1) |>) ++ a2 ++ a4).
    { pose proof (dr_ring _ _ _ _ D4) as R. cbn [app] in R. by rewrite <- R, W3, Hw2, <- app_comm_cons, app_assoc. }
    pose proof (waiting_nonempty s4 (dr_ok _ _ _ _ D4) ltac:(by rewrite Hw3)) as Hne4.
    destruct (waiting_pop s4 (dr_ok _ _ _ _ D4) Hne4) as [O5 Hs5].
    assert (P5 : uc_pull_pos s1 = uc_pull_pos s4) by congruence. rewrite P5.
    set (s5 := s4 <| uc_pull_pos := u32 (uc_pull_pos s4 + 1) |>) in *.
    assert (D5 : drained a4 [m] s2 s5).
    { destruct D4 as [O4 R4 A4 V4 K4]. constructor; [done| |unfold arrived in *; by rewrite <- Ir3| |].
      - rewrite <- W3, R4, Hs5. cbn [app]. f_equal. congruence.
      - change (uc_events s5) with (uc_events s4). by rewrite V4, Ev, app_nil_r.
      - change (host_part s5) with (host_part s4). congruence. }
    destruct (IH s5 O5) as (r & s6 & a6 & h6 & E6 & D6 & Hr6).
    { change (uc_in s5) with (uc_in s4). rewrite I4. rewrite I2, I1 in Hin. lia. }
    unfold bind, modify. fold s5. exists r, s6, (((a1 ++ a2) ++ a4) ++ a6), (([] ++ [m]) ++ h6).
    split; [done|]. split; [|done]. eapply drained_trans; [|exact D6]. eapply drained_trans; [exact D12|exact D5].
Qed.

Lemma bridge_drain_run s :
  ring_ok s -> exists r s' arr hw, drain_hw_queue s = Ret r s' /\ drained arr hw s s' /\ (r = 0 \/ r = -1).
Proof. intros Hok. apply drain_loop_run; [done|]. lia. Qed.

(** ** Frames of the host *)

(** Where a frame with status [st] still has to go: to the bus, to the console, and back to
    the host. *)
Definition todo (st : Z) (f : gs_host_frame) : list bridge_event :=
  (if has st HS_TX_HW then [BE_hw (msg_of f)] else []) ++
  (if has st HS_TX_LOCAL then [BE_local (msg_of f)] else []) ++
  (if st =? 0 then [] else [BE_echo f]).
Definition todo_now (s : usbcan_data) : list bridge_event := todo (uc_host_status s) (uc_host_frame s).
(** The way of a frame of the host: admin frames go to the bus and to the console, those for
    the console only to it, the others to the bus; all are echoed. *)
Definition route (assigned_id : Z) (f : gs_host_frame) : list bridge_event :=
  let m := msg_of f in
  if gs_can_id f =? CANBUS_ID_ADMIN then [BE_hw m; BE_local m; BE_echo f]
  else if negb (assigned_id =? 0) && (assigned_id =? gs_can_id f) then [BE_local m; BE_echo f]
  else [BE_hw m; BE_echo f].

Definition status_ok (s : usbcan_data) : Prop := uc_host_status s ∈ [0; 1; 3; 5; 7].

(** From [s] to [s'] the frames [arr] of the bus were accepted and [hw] were sent to the host,
    in order; the frames [reads] were read from the host, and they and the one before take
    their ways one after the other. *)
Record bridged (arr hw : list canbus_msg) (reads : list gs_host_frame) (s s' : usbcan_data) : Prop := {
  br_ok : ring_ok s';
  br_status : status_ok s';
  br_ring : waiting s ++ arr = hw ++ waiting s';
  br_arrived : arrived arr s s';
  br_events : exists evs, uc_events s' = uc_events s ++ evs /\ frames evs = frame_of <$> hw /\
    routed evs ++ todo_now s' = todo_now s ++ (reads ≫= route (uc_assigned_id s));
  br_id : uc_assigned_id s' = uc_assigned_id s;
  br_packets : omap id (uc_packets s) = reads ++ omap id (uc_packets s') }.

Lemma bridged_trans a1 h1 r1 a2 h2 r2 s1 s2 s3 :
  bridged a1 h1 r1 s1 s2 -> bridged a2 h2 r2 s2 s3 -> bridged (a1 ++ a2) (h1 ++ h2) (r1 ++ r2) s1 s3.
Proof.
  intros [O1 T1 R1 A1 (e1 & E1 & F1 & U1) I1 P1] [O2 T2 R2 A2 (e2 & E2 & F2 & U2) I2 P2].
  constructor; [done|done| |by eapply arrived_trans| |congruence|by rewrite P1, P2, app_assoc].
  - by rewrite app_assoc, R1, <- app_assoc, R2, app_assoc.
  - exists (e1 ++ e2). split; [by rewrite E2, E1, app_assoc|]. split.
    + unfold frames in *. rewrite omap_app. by rewrite F1, F2, fmap_app.
    + unfold routed in *. rewrite filter_app, <- app_assoc, U2, I1, bind_app, !app_assoc. by rewrite U1, <- app_assoc.
Qed.

Lemma bridged_drained arr hw s s' : status_ok s -> drained arr hw s s' -> bridged arr hw [] s s'.
Proof.
  intros Hs [O R A E P]. unfold host_part in P. injection P as Pf Ps Pi Pp Pl.
  constructor; [done|unfold status_ok; by rewrite Ps|done|done| |done|by rewrite Pp].
  exists ((fun m => BE_frame (frame_of m)) <$> hw). split; [done|]. split; [|].
  - clear. unfold frames. induction hw as [|m hw IH]; [done|]. cbn. by f_equal.
  - unfold todo_now. rewrite Ps, Pf, app_nil_r. clear. unfold routed.
    induction hw as [|m hw IH]; [done|]. cbn [fmap list_fmap]. by rewrite filter_cons.
Qed.

(** Steps that touch neither the ring nor the packets. *)
Lemma bridged_step s s' evs :
  ring_ok s -> uc_queue s' = uc_queue s -> uc_pull_pos s' = uc_pull_pos s -> uc_push_pos s' = uc_push_pos s ->
  uc_assigned_id s' = uc_assigned_id s -> uc_packets s' = uc_packets s -> uc_irqs s' = uc_irqs s -> status_ok s' ->
  uc_events s' = uc_events s ++ evs -> frames evs = [] -> routed evs ++ todo_now s' = todo_now s ->
  bridged [] [] [] s s'.
Proof.
  intros [Hl Hp1 Hp2 Hf] Q Pl Pu A K J T E F U.
  constructor; [by constructor; rewrite ?Q, ?Pl, ?Pu|done| |by apply arrived_none| |done|by rewrite K].
  - rewrite app_nil_r. cbn [app]. unfold waiting, slot. by rewrite Q, Pl, Pu.
  - exists evs. split; [done|]. split; [done|]. cbn [mbind list_bind]. by rewrite app_nil_r.
Qed.

Lemma process_data_run m c : exists r c', canserial_process_data m c = Ret r c'.
Proof.
  unfold canserial_process_data, bind, gets, modify, ret.
  repeat match goal with |- context [if ?b then _ else _] => destruct b end; by eexists _, _.
Qed.

Lemma process_local_run m s :
  exists r s' evs, process_local m s = Ret r s' /\ uc_events s' = uc_events s ++ evs /\
    evs = (if 0 <=? r then [BE_local m] else []) /\
    exists c, s' = s <| uc_local := c |> <| uc_events := uc_events s' |>.
Proof.
  destruct (process_data_run m (uc_local s)) as (r & c & E). unfold process_local.
  rewrite (bind_Ret _ _ _ _ _ (zoom_Ret _ s _ _ E)). destruct (0 <=? r) eqn:Hr; cbn [when].
  - eexists r, _, [BE_local m]. split; [reflexivity|]. split; [done|]. rewrite Hr. split; [done|].
    exists c. by destruct s.
  - exists r, (s <| uc_local := c |>), []. split; [done|]. split; [by rewrite app_nil_r|]. rewrite Hr. split; [done|].
    exists c. by destruct s.
Qed.

Lemma canbus_send_run f s :
  exists r s', canbus_send (msg_of f) s = Ret r s' /\
    ((r < 0 /\ exists l, s' = s <| uc_hw := l |>) \/
     (0 <= r /\ exists l, s' = s <| uc_hw := l |> <| uc_events ::= fun k => k ++ [BE_hw (msg_of f)] |>)).
Proof.
  unfold canbus_send, bind, gets, modify. destruct (uc_hw s) as [|[] l] eqn:Hu.
  - exists (-1), s. split; [done|]. left. split; [lia|]. exists []. by destruct s; cbn in *; subst.
  - eexists _, _. split; [reflexivity|]. right. split; [cbn; apply u8_range|by exists l].
  - eexists _, _. split; [reflexivity|]. left. split; [lia|by exists l].
Qed.

(** The part of [host_transmit] for the console. *)
Lemma transmit_local_run f st s :
  ring_ok s -> uc_host_frame s = f -> uc_host_status s = st -> st = 1 \/ st = 5 ->
  exists go s', (if has st HS_TX_LOCAL then
      r <- process_local (msg_of f) ;;
      if r <? 0 then canbus_notify_tx ;; ret false
      else modify (fun s => s <| uc_host_status := clear st HS_TX_LOCAL |>) ;; ret true
    else ret true) s = Ret go s' /\ bridged [] [] [] s s' /\ uc_packets s' = uc_packets s /\
    (go = true -> uc_host_status s' = 1).
Proof.
  intros Hok Hf Hst [->| ->]; cbn [has HS_TX_LOCAL].
  - exists true, s. split; [done|]. split; [|done].
    by apply (bridged_step s s []); rewrite ?app_nil_r; try done; unfold status_ok; rewrite Hst; set_solver.
  - change (has 5 HS_TX_LOCAL) with true. cbn iota.
    destruct (process_local_run (msg_of f) s) as (r & s1 & evs & E & Ev & Hevs & c & Hs1).
    rewrite (bind_Ret _ _ _ _ _ E). rewrite Hs1. set (l := uc_events s1) in *.
    destruct (Z.ltb_spec r 0), (Z.leb_spec 0 r); try lia; subst evs.
    + eexists false, _. split; [reflexivity|]. split; [|by split].
      apply (bridged_step s _ []); try done; unfold status_ok, todo_now; cbn; rewrite ?Hst; try set_solver; done.
    + eexists true, _. split; [reflexivity|]. split; [|by split].
      apply (bridged_step s _ [BE_local (msg_of f)]); try done; unfold status_ok, todo_now; cbn.
      * set_solver.
      * by rewrite Hf, Hst.
Qed.

Lemma host_transmit_run s :
  ring_ok s -> uc_host_status s ∈ [3; 5; 7] ->
  exists go s', host_transmit (uc_host_status s) s = Ret go s' /\ bridged [] [] [] s s' /\
    uc_packets s' = uc_packets s /\ (go = true -> uc_host_status s' = 1).
Proof.
  intros Hok Hst. unfold host_transmit, bind at 1, gets. set (f := uc_host_frame s).
  destruct (has (uc_host_status s) HS_TX_HW) eqn:Hhw.
  - destruct (canbus_send_run f s) as (r & s1 & E & Hr). rewrite bind_bind, (bind_Ret _ _ _ _ _ E).
    destruct Hr as [(Hr & l & ->)|(Hr & l & ->)]; destruct (Z.ltb_spec r 0); try lia.
    + eexists false, _. split; [reflexivity|]. split; [|by split].
      apply (bridged_step s _ []); try done; [unfold status_ok; cbn; set_solver|cbn; by rewrite app_nil_r].
    + set (s2 := s <| uc_hw := l |> <| uc_events ::= fun k => k ++ [BE_hw (msg_of f)] |>
                   <| uc_host_status := clear (uc_host_status s) HS_TX_HW |>).
      rewrite bind_bind, (bind_Ret _ _ _ tt s2), bind_ret_l by done.
      assert (Hs2 : uc_host_status s2 = 1 \/ uc_host_status s2 = 5).
      { unfold s2. cbn. rewrite !elem_of_cons in Hst. destruct Hst as [->|[->|[->|H']]]; [by left|by right|by right|].
        by apply not_elem_of_nil in H'. }
      destruct (transmit_local_run f (uc_host_status s2) s2) as (go & s3 & E3 & B3 & P3 & H3);
        [by destruct Hok|done|done|done|].
      exists go, s3. split; [exact E3|]. split; [|done].
      refine (bridged_trans [] [] [] [] [] [] s s2 s3 _ B3). apply (bridged_step s s2 [BE_hw (msg_of f)]); try done.
      * unfold status_ok. destruct Hs2 as [-> | ->]; set_solver.
      * unfold todo_now, todo, s2 in *. cbn in *. rewrite Hhw. fold f.
        rewrite !elem_of_cons in Hst. destruct Hst as [->|[->|[->|H']]]; try done. by apply not_elem_of_nil in H'.
  - rewrite bind_ret_l. apply transmit_local_run; try done. right.
    rewrite !elem_of_cons in Hst. destruct Hst as [H'|[H'|[H'|H']]]; [|done| |by apply not_elem_of_nil in H'];
      rewrite H' in Hhw; done.
Qed.

Lemma todo_route aid f : todo (new_status aid (gs_can_id f)) f = route aid f.
Proof. unfold new_status, route. destruct (gs_can_id f =? _); [done|]. by destruct (negb _ && _). Qed.

Lemma echo_run f s :
  uc_host_frame s = f -> uc_host_status s = 1 -> ring_ok s ->
  exists r s', usb_send_bulk_in (BE_echo f) s = Ret r s' /\
    ((r = -1 /\ bridged [] [] [] s s') \/
     (r = 0 /\ bridged [] [] [] s (s' <| uc_host_status := 0 |>))) /\
    uc_packets s' = uc_packets s.
Proof.
  intros Hf Hst Hok. unfold usb_send_bulk_in, bind, gets, modify. destruct (uc_in s) as [|[] l].
  - exists (-1), s. split; [done|]. split; [|done]. left. split; [done|].
    apply (bridged_step s s []); rewrite ?app_nil_r; try done. unfold status_ok. rewrite Hst. set_solver.
  - eexists 0, _. split; [reflexivity|]. split; [|done]. right. split; [done|].
    apply (bridged_step s _ [BE_echo f]); try done; [unfold status_ok; cbn; set_solver|].
    unfold todo_now. cbn. by rewrite Hst, Hf.
  - eexists (-1), _. split; [reflexivity|]. split; [|done]. left. split; [done|].
    apply (bridged_step s _ []); rewrite ?app_nil_r; try done. unfold status_ok. cbn. rewrite Hst. set_solver.
Qed.

(** A frame is read from the host. *)
Lemma host_read_run s :
  ring_ok s -> uc_host_status s = 0 ->
  exists got s', usb_read_bulk_out s = Ret got s' /\
    (if got : bool then
       bridged [] [] [uc_host_frame s'] s
         (s' <| uc_host_status := new_status (uc_assigned_id s') (gs_can_id (uc_host_frame s')) |>) /\
       (length (uc_packets s') < length (uc_packets s))%nat
     else bridged [] [] [] s s').
Proof.
  intros Hok Hst. unfold usb_read_bulk_out, bind, gets, modify.
  assert (Hok' : forall s', uc_queue s' = uc_queue s -> uc_pull_pos s' = uc_pull_pos s ->
    uc_push_pos s' = uc_push_pos s -> ring_ok s' /\ waiting s ++ [] = [] ++ waiting s').
  { intros s' Q P1 P2. destruct Hok. split; [by constructor; rewrite ?Q, ?P1, ?P2|].
    rewrite app_nil_r. cbn [app]. unfold waiting, slot. by rewrite Q, P1, P2. }
  destruct (uc_packets s) as [|[f|] l] eqn:Hp.
  - exists false, s. split; [done|]. destruct (Hok' s) as [O R]; [done..|].
    constructor; [done|unfold status_ok; rewrite Hst; set_solver|done|by apply arrived_none| |done|done].
    exists []. rewrite app_nil_r. do 2 (split; [done|]). cbn. by rewrite app_nil_r.
  - eexists true, _. split; [reflexivity|]. split; [|cbn; lia].
    set (s' := s <| uc_packets := l |> <| uc_host_frame := f |>).
    set (s'' := s' <| uc_host_status := new_status (uc_assigned_id s') (gs_can_id (uc_host_frame s')) |>).
    destruct (Hok' s'') as [O R]; [done..|]. constructor; [done| |done|by apply arrived_none| |done|by rewrite Hp].
    + unfold status_ok, s''. cbn. unfold new_status. destruct (_ =? _); [set_solver|]. destruct (_ && _); set_solver.
    + exists []. cbn [app]. split; [cbn; by rewrite app_nil_r|]. split; [done|]. cbn [routed mbind list_bind].
      unfold todo_now, s'', s'. cbn [upd uc_host_status uc_host_frame uc_assigned_id].
      rewrite todo_route, Hst. cbn. by rewrite app_nil_r.
  - eexists false, _. split; [reflexivity|]. set (s' := s <| uc_packets := l |>).
    destruct (Hok' s') as [O R]; [done..|].
    constructor; [done|unfold status_ok; cbn; rewrite Hst; set_solver|done|by apply arrived_none| |done|by rewrite Hp].
    exists []. rewrite app_nil_r. do 2 (split; [done|]). unfold todo_now. cbn. by rewrite app_nil_r.
Qed.

Definition weight (st : Z) : nat := if st =? 0 then 0 else if st =? 1 then 1 else 2.

Lemma weight_le st : (weight st <= 2)%nat.
Proof. unfold weight. destruct (st =? 0), (st =? 1); lia. Qed.

Lemma usbcan_loop_run fuel s :
  ring_ok s -> status_ok s -> (3 * length (uc_packets s) + weight (uc_host_status s) < fuel)%nat ->
  exists s' arr hw reads, usbcan_loop fuel s = Ret tt s' /\ bridged arr hw reads s s'.
Proof.
  revert s. induction fuel as [|fuel IH]; intros s Hok Hst Hf; [lia|]. cbn [usbcan_loop].
  destruct (bridge_drain_run s Hok) as (r & s1 & a1 & h1 & E1 & D1 & Hr). rewrite (bind_Ret _ _ _ _ _ E1).
  pose proof (bridged_drained _ _ _ _ Hst D1) as B1. pose proof (br_ok _ _ _ _ _ B1) as O1.
  pose proof (dr_host _ _ _ _ D1) as P1. unfold host_part in P1. injection P1 as Pf Ps Pi Pp Pl.
  rewrite <- Pp, <- Ps in Hf. unfold status_ok in Hst. rewrite <- Ps in Hst. clear Ps Pp Pi Pf Pl E1 D1.
  destruct (Z.ltb_spec r 0); [by exists s1, a1, h1, []|].
  assert (Hstep : forall s2 a2 h2 r2, bridged a2 h2 r2 s1 s2 ->
    (3 * length (uc_packets s2) + weight (uc_host_status s2) < fuel)%nat ->
    exists s' arr hw reads, usbcan_loop fuel s2 = Ret tt s' /\ bridged arr hw reads s s').
  { intros s2 a2 h2 r2 B2 Hf2. destruct (IH s2) as (s3 & a3 & h3 & r3 & E3 & B3);
      [apply B2|apply B2|done|]. exists s3, ((a1 ++ a2) ++ a3), ((h1 ++ h2) ++ h3), (([] ++ r2) ++ r3).
    split; [done|]. eapply bridged_trans; [|exact B3]. eapply bridged_trans; [exact B1|exact B2]. }
  assert (Hstop : forall s2, bridged [] [] [] s1 s2 -> exists arr hw reads, bridged arr hw reads s s2).
  { intros s2 B2. eexists _, _, _. eapply bridged_trans; [exact B1|exact B2]. }
  unfold bind at 1, gets at 1. rewrite !elem_of_cons in Hst.
  destruct (has (uc_host_status s1) (Z.lor HS_TX_HW HS_TX_LOCAL)) eqn:H6.
  - assert (H357 : uc_host_status s1 ∈ [3; 5; 7]).
    { destruct Hst as [H'|[H'|[H'|[H'|[H'|H']]]]]; try (rewrite H' in H6; done); try (rewrite H'; set_solver).
      by apply not_elem_of_nil in H'. }
    destruct (host_transmit_run s1 O1 H357) as (go & s2 & E2 & B2 & P2 & H2). rewrite (bind_Ret _ _ _ _ _ E2).
    destruct go.
    + apply (Hstep s2 _ _ _ B2). rewrite P2, H2 by done.
      rewrite !elem_of_cons in H357. destruct H357 as [H'|[H'|[H'|H']]];
        [rewrite H' in Hf; unfold weight in *; cbn in *; lia..|by apply not_elem_of_nil in H'].
    + destruct (Hstop s2 B2) as (a & h & rd & B). by exists s2, a, h, rd.
  - destruct (Z.eqb_spec (uc_host_status s1) 0) as [H0|H0]; cbn [negb].
    + destruct (host_read_run s1 O1 H0) as (got & s2 & E2 & B2). rewrite (bind_Ret _ _ _ _ _ E2). destruct got.
      * destruct B2 as [B2 Hlt]. unfold bind, gets, modify. apply (Hstep _ _ _ _ B2). rewrite H0 in Hf.
        change (weight 0) with 0%nat in Hf. cbn [upd uc_host_status uc_packets].
        pose proof (weight_le (new_status (uc_assigned_id s2) (gs_can_id (uc_host_frame s2)))). lia.
      * destruct (Hstop s2 B2) as (a & h & rd & B). unfold bind at 1, gets.
        assert (Hn : exists s3, when (negb (uc_notify_local s2 =? 0))
            (modify (fun s => s <| uc_notify_local := 0 |>) ;; zoom canserial_notify_tx) s2 = Ret tt s3 /\
          bridged a h rd s s3).
        { destruct (negb _); cbn [when]; [|by exists s2]. eexists. split; [reflexivity|]. by destruct B as [[] ? ? ? ? ? ?]. }
        destruct Hn as (s3 & E3 & B3). by exists s3, a, h, rd.
    + assert (H1 : uc_host_status s1 = 1).
      { destruct Hst as [H'|[H'|[H'|[H'|[H'|H']]]]]; try done; try (rewrite H' in H6; done). by apply not_elem_of_nil in H'. }
      unfold bind at 1, gets. destruct (echo_run _ s1 eq_refl H1 O1) as (r2 & s2 & E2 & Hr2 & P2).
      rewrite (bind_Ret _ _ _ _ _ E2). destruct Hr2 as [[-> B2]|[-> B2]]; cbn [Z.ltb Z.compare].
      * destruct (Hstop s2 B2) as (a & h & rd & B). by exists s2, a, h, rd.
      * unfold bind, modify. apply (Hstep _ _ _ _ B2). rewrite H1 in Hf.
        cbn [upd uc_packets uc_host_status]. rewrite P2. unfold weight in *. cbn in *. lia.
Qed.

(** C17: The bridge routes every frame once and in order.  A pass of its task ends; under every
    interleaving with the receive interrupt and for every behaviour of the host, the endpoints
    and the CAN controller, the frames accepted from the bus reach the host in the order of
    their arrival or keep waiting in the ring, across the wrap-around of its positions; and
    every frame of the host is sent to the bus, to the console or to both, and then echoed,
    before the next one is read. *)
Theorem bridge_routes_frames s :
  ring_ok s -> status_ok s ->
  exists s' arr hw reads, usbcan_task s = Ret tt s' /\ bridged arr hw reads s s'.
Proof.
  intros Hok Hst. unfold usbcan_task, bind, gets, modify. destruct (uc_wake s =? 0).
  - exists s, [], [], []. split; [done|]. apply (bridged_step s s []); rewrite ?app_nil_r; done.
  - destruct (usbcan_loop_run (usbcan_fuel (s <| uc_wake := 0 |>)) (s <| uc_wake := 0 |>)) as (s' & a & h & r & E & B).
    + by destruct Hok.
    + done.
    + unfold usbcan_fuel. pose proof (weight_le (uc_host_status (s <| uc_wake := 0 |>))). lia.
    + exists s', a, h, r. split; [done|]. by destruct B.
Qed.

(** A frame of the console reaches the host behind those of the bus that were waiting, or
    the console is told to retry. *)
Theorem console_frame_after_waiting m s :
  ring_ok s -> 0 <= cm_dlc m ->
  exists s' r arr hw, canserial_send m s = Ret r s' /\ ring_ok s' /\ waiting s ++ arr = hw ++ waiting s' /\
    arrived arr s s' /\
    ((r = cm_dlc m /\ uc_events s' = uc_events s ++ ((fun m => BE_frame (frame_of m)) <$> hw ++ [m])) \/
     (r = -1 /\ uc_events s' = uc_events s ++ ((fun m => BE_frame (frame_of m)) <$> hw) /\ uc_notify_local s' = 1)).
Proof.
  intros Hok Hm. unfold canserial_send. destruct (bridge_drain_run s Hok) as (r & s1 & arr & hw & E1 & [O R A E P] & Hr).
  rewrite (bind_Ret _ _ _ _ _ E1). destruct Hr as [-> | ->]; cbn [Z.ltb Z.compare].
  - destruct (send_frame_run m s1) as (r & s2 & E2 & W2 & O2 & _ & [_ J] & [[-> V]|(-> & V & _)]);
      rewrite (bind_Ret _ _ _ _ _ E2); cbn [Z.ltb Z.compare]; specialize (O2 O).
    + eexists _, (-1), arr, hw. split; [reflexivity|]. split; [by destruct O2|]. split; [rewrite R; by rewrite <- W2|].
      split; [unfold arrived in *; cbn; by rewrite J|].
      right. split; [done|]. split; [|done]. cbn. by rewrite V, E.
    + eexists _, (cm_dlc m), arr, hw. split; [reflexivity|]. split; [by destruct O2|]. split; [rewrite R; by rewrite <- W2|].
      split; [unfold arrived in *; cbn; by rewrite J|].
      left. split; [done|]. cbn [upd uc_events]. by rewrite V, E, fmap_app, app_assoc.
  - eexists _, (-1), arr, hw. split; [reflexivity|]. split; [by destruct O|]. split; [done|]. split; [done|]. right. done.
Qed.

(** The interrupt drops a frame of the bus only when eight are waiting or when its identifier
    is one of the console's; otherwise the frame is behind those that wait. *)
Theorem bus_frame_accepted m s :
  ring_ok s -> exists s', canbus_process_data m s = Ret tt s' /\ ring_ok s' /\
    waiting s' = waiting s ++ accepted m s /\ zlen (waiting s') <= 8.
Proof.
  intros Hok. destruct (push_run m s Hok) as (s' & E & Hok' & W & _). exists s'.
  split; [done|]. split; [done|]. split; [done|]. rewrite zlen_waiting. apply Hok'.
Qed.

(** ** Witnesses *)

Definition can_init : canbus_data :=
  mk_cd 0 (repeat 0 6) 0 0 0 0 0 0 0 (repeat admin_zero 8) (repeat 0 96) (repeat 0 192) 0 [] [] [] [].
Definition bus_frame (id : Z) : canbus_msg := mk_can id 8 (repeat 7 8).
Definition admin_frame : gs_host_frame := mk_gs 5 CANBUS_ID_ADMIN 1 0 0 0 (repeat 0 8).

(** The ring is about to wrap around; the host sends an admin frame, and frames of the bus
    arrive while it is handled. *)
Definition demo_bridge : usbcan_data :=
  mk_uc 1 admin_frame 0 1 0 4294967295 0 (replicate 7 admin_zero ++ [bus_frame 300]) can_init
    [[bus_frame 301]; []; [bus_frame 302]] [true; true; true; true; false] [true] [Some admin_frame] [].

Lemma demo_ring_ok : ring_ok demo_bridge.
Proof. by constructor. Qed.

Lemma bridge_routes_frames_witness :
  exists s' arr hw reads, usbcan_task demo_bridge = Ret tt s' /\ bridged arr hw reads demo_bridge s'.
Proof.
  apply (bridge_routes_frames demo_bridge).
  - constructor; [reflexivity|split; [discriminate|reflexivity]|split; [discriminate|reflexivity]|discriminate].
  - constructor.
Defined.

Example bridge_example :
  match usbcan_task demo_bridge with
  | Ret _ s => uc_events s = [BE_frame (frame_of (bus_frame 300)); BE_frame (frame_of (bus_frame 301));
                              BE_frame (frame_of (bus_frame 302)); BE_hw (msg_of admin_frame);
                              BE_local (msg_of admin_frame); BE_echo admin_frame] /\ waiting s = []
  | _ => False
  end.
Proof. vm_compute. split; reflexivity. Qed.

Lemma console_frame_after_waiting_witness :
  exists s' r arr hw, canserial_send (bus_frame 257) demo_bridge = Ret r s' /\ waiting demo_bridge ++ arr = hw ++ waiting s'.
Proof.
  destruct (console_frame_after_waiting (bus_frame 257) demo_bridge) as (s' & r & arr & hw & E & _ & R & _).
  - exact demo_ring_ok.
  - discriminate.
  - exists s', r, arr, hw. split; [exact E|exact R].
Defined.

Lemma bus_frame_accepted_witness :
  exists s', canbus_process_data (bus_frame 303) demo_bridge = Ret tt s' /\
    waiting s' = [bus_frame 300; bus_frame 303].
Proof.
  destruct (bus_frame_accepted (bus_frame 303) demo_bridge) as (s' & E & _ & W & _).
  - exact demo_ring_ok.
  - exists s'. split; [exact E|]. etransitivity; [exact W|vm_compute; reflexivity].
Defined.
