(* ===== verification/Avrtimer.v ===== *)
(** * The timer of the AVR micro-controllers (src/avr/timer.c)

    The hardware has a counter of 16 bits (TCNT1) with an overflow flag (TOV1); the firmware
    extends it to 32 bits with [timer_high], which a timer event updates at least once in
    every round of the counter.  The registers are functions of the time since the start in
    ticks, which is unbounded: the state has the time and the number of rounds whose overflow
    flag has been cleared, which the hardware does not show. *)

From S2P Require Import Prelude Sched.

(** ** Comparison *)

(** Byte [i] of a 32-bit value. *)
Definition byte_of (i z : Z) : Z := Z.land (Z.shiftr z (8 * i)) 255.

(** The instructions cp and cpc set the carry; sbc subtracts with it. *)
Definition cp (a b : Z) : Z := b2z (a <? b).
Definition cpc (a b carry : Z) : Z := b2z (a - b - carry <? 0).
Definition sbc (a b carry : Z) : Z := u8 (a - b - carry).

(** [timer_is_before], with its four instructions. *)
Definition avr_timer_is_before (time1 time2 : Z) : bool :=
  let carry := cp (byte_of 0 time1) (byte_of 0 time2) in
  let carry := cpc (byte_of 1 time1) (byte_of 1 time2) carry in
  let carry := cpc (byte_of 2 time1) (byte_of 2 time2) carry in
  let f := sbc (byte_of 3 time1) (byte_of 3 time2) carry in
  i8 f <? 0.

(** ** The counter *)

(** [av_now]: the time.  [av_cleared]: the rounds for which TOV1 has been cleared.  [av_wake]:
    [wrap_timer.waketime]. *)
Record avr := mk_avr { av_now : Z; av_cleared : Z; timer_high : Z; av_wake : Z }.
#[export] Instance eta_avr : Settable avr := fun s =>
  mk_avr (av_now s) (av_cleared s) (timer_high s) (av_wake s).

(** [TCNT1] and [TIFR1 & (1<<TOV1)]. *)
Definition timer_get (now : Z) : Z := u16 now.
Definition overflowed (cleared now : Z) : bool := cleared <? now / 65536.

(** [union u32_u] from its halves. *)
Definition u32_of (hi lo : Z) : Z := u32 (Z.shiftl (u16 hi) 16 + u16 lo).

(** [timer_read_time]; the flag is read [delay] ticks after the counter. *)
Definition timer_read_time (delay : Z) (s : avr) : Z :=
  let lo := timer_get (av_now s) in
  let hi := timer_high s in
  if overflowed (av_cleared s) (av_now s + delay) then
    let hi := if Z.shiftr lo 8 <? 255 then u16 (hi + 1) else hi in
    u32_of hi lo
  else u32_of hi lo.

(** [timer_event]; clearing the flag clears it for all rounds so far. *)
Definition timer_event (s : avr) : avr :=
  if overflowed (av_cleared s) (av_now s) then
    let high := u16 (timer_high s + 1) in
    s <| av_cleared := av_now s / 65536 |> <| timer_high := high |> <| av_wake := u32_of high 32768 |>
  else s <| av_wake := u32_of (u16 (timer_high s + 1)) 0 |>.

(** After [timer_init]. *)
Definition avr_init : avr := mk_avr 0 0 0 32768.

(** How late the event may run: the counter must not come to its last 256 ticks, which
    [timer_read_time] takes for the end of the round before. *)
Definition LATE : Z := 32512.

(** Time passes, and the event runs when it is due, less than [LATE] ticks late. *)
Inductive avr_step (s : avr) : avr -> Prop :=
| avr_pass n : 0 <= n < 65536 -> i32 (av_now s + n - av_wake s) < LATE -> avr_step s (s <| av_now := av_now s + n |>)
| avr_event : timer_is_before (u32 (av_now s)) (av_wake s) = false -> avr_step s (timer_event s).
