(* ===== verification/AvrtimerFacts.v ===== *)
(** * The 32-bit time of the AVR is exact *)

From S2P Require Import Prelude Sched Avrtimer.

Lemma byte_of_div i z : 0 <= i -> byte_of i z = z / 2 ^ (8 * i) mod 256.
Proof.
  intros Hi. unfold byte_of. change 255 with (Z.ones 8). rewrite Z.land_ones, Z.shiftr_div_pow2 by lia. done.
Qed.

Lemma u32_of_sum hi lo : u32_of hi lo = 65536 * u16 hi + u16 lo.
Proof.
  unfold u32_of. rewrite Z.shiftl_mul_pow2 by lia. change (2 ^ 16) with 65536.
  pose proof (u16_range hi). pose proof (u16_range lo). rewrite u32_small by lia. lia.
Qed.

(** The bytes of a value. *)
Lemma four_bytes z : 0 <= z < 4294967296 ->
  z = byte_of 0 z + 256 * byte_of 1 z + 65536 * byte_of 2 z + 16777216 * byte_of 3 z /\
  0 <= byte_of 0 z < 256 /\ 0 <= byte_of 1 z < 256 /\ 0 <= byte_of 2 z < 256 /\ 0 <= byte_of 3 z < 256.
Proof.
  intros Hz. rewrite !byte_of_div by lia.
  change (2 ^ (8 * 0)) with 1. change (2 ^ (8 * 1)) with 256. change (2 ^ (8 * 2)) with 65536. change (2 ^ (8 * 3)) with 16777216.
  Z.div_mod_to_equations. lia.
Qed.

(** The four instructions of the AVR compare 32-bit times as the C code of the other boards
    does: the sign of the difference, across wrap-around. *)
Theorem avr_comparison_matches time1 time2 :
  0 <= time1 < 4294967296 -> 0 <= time2 < 4294967296 ->
  avr_timer_is_before time1 time2 = timer_is_before time1 time2.
Proof.
  intros H1 H2. destruct (four_bytes time1 H1) as (E1 & A0 & A1 & A2 & A3).
  destruct (four_bytes time2 H2) as (E2 & B0 & B1 & B2 & B3).
  unfold avr_timer_is_before, timer_is_before, sbc, cpc, cp, b2z.
  set (a0 := byte_of 0 time1) in *. set (a1 := byte_of 1 time1) in *. set (a2 := byte_of 2 time1) in *.
  set (a3 := byte_of 3 time1) in *. set (b0 := byte_of 0 time2) in *. set (b1 := byte_of 1 time2) in *.
  set (b2 := byte_of 2 time2) in *. set (b3 := byte_of 3 time2) in *. clearbody a0 a1 a2 a3 b0 b1 b2 b3. subst time1 time2.
  destruct (Z.ltb_spec a0 b0);
    match goal with |- context [a1 - b1 - ?c <? 0] => destruct (Z.ltb_spec (a1 - b1 - c) 0) end;
    match goal with |- context [a2 - b2 - ?c <? 0] => destruct (Z.ltb_spec (a2 - b2 - c) 0) end;
    unfold i8, u8, i32, u32;
    match goal with |- (?a <? 0) = (?b <? 0) => destruct (Z.ltb_spec a 0), (Z.ltb_spec b 0); try done end.
  all: exfalso; Z.div_mod_to_equations; lia.
Qed.

(** [av_cleared] rounds are counted, and the event is due in the middle or at the end of the
    next one. *)
Definition avr_ok (s : avr) : Prop :=
  exists n d, av_cleared s = n /\ 0 <= n /\ timer_high s = u16 n /\ av_wake s = u32 d /\
    (d = 65536 * n + 32768 \/ d = 65536 * (n + 1)) /\ 65536 * n <= av_now s < d + LATE.

Lemma overflowed_spec n t : 65536 * n <= t -> t < 65536 * (n + 2) -> overflowed n t = (65536 * (n + 1) <=? t).
Proof.
  intros H1 H2. unfold overflowed. destruct (Z.ltb_spec n (t / 65536)), (Z.leb_spec (65536 * (n + 1)) t); try done.
  all: exfalso; Z.div_mod_to_equations; lia.
Qed.

Lemma i32_sub_u32 a d : -2147483648 <= a - d < 2147483648 -> i32 (a - u32 d) = a - d.
Proof.
  intros H. assert (E : i32 (a - u32 d) = i32 (a - d)).
  { unfold i32, u32. f_equal. replace (a - d mod 4294967296 + 2147483648) with (a + 2147483648 - d mod 4294967296) by lia.
    rewrite Zminus_mod_idemp_r. f_equal. lia. }
  rewrite E. apply i32_small. lia.
Qed.

Lemma avr_ok_step s s' : avr_ok s -> avr_step s s' -> avr_ok s'.
Proof.
  unfold LATE. intros (n & d & Hc & Hn & Hh & Hw & Hd & Hr) [k Hk Hl|Hdue]; unfold LATE in *.
  - exists n, d. unfold LATE. cbn. do 5 (split; [done|]). split; [lia|]. rewrite Hw, i32_sub_u32 in Hl by lia. lia.
  - assert (Hnow : d <= av_now s).
    { unfold timer_is_before in Hdue. apply Z.ltb_ge in Hdue. rewrite Hw in Hdue.
      assert (E : i32 (u32 (u32 (av_now s) - u32 d)) = i32 (av_now s - u32 d)) by (unfold i32, u32; Z.div_mod_to_equations; lia).
      rewrite E, i32_sub_u32 in Hdue by lia. lia. }
    unfold timer_event. rewrite Hc, overflowed_spec by lia. destruct (Z.leb_spec (65536 * (n + 1)) (av_now s)).
    + assert (Hq : av_now s / 65536 = n + 1) by (symmetry; apply (Z.div_unique_pos _ _ _ (av_now s - 65536 * (n + 1))); lia).
      assert (Hu : u16 (timer_high s + 1) = u16 (n + 1)) by (rewrite Hh; wrap_lia).
      exists (n + 1), (65536 * (n + 1) + 32768). unfold LATE. cbn. rewrite Hq, Hu. split; [done|]. split; [lia|]. split; [done|].
      split; [|split; [by left|lia]]. rewrite u32_of_sum. wrap_lia.
    + exists n, (65536 * (n + 1)). unfold LATE. cbn. do 3 (split; [done|]). split; [|split; [by right|lia]].
      rewrite u32_of_sum, Hh. wrap_lia.
Qed.

Lemma avr_ok_init : avr_ok avr_init.
Proof. exists 0, 32768. unfold LATE. cbn. split_and!; first [done|by left|lia]. Qed.

(** C35: The time is exact.  Whenever the firmware reads it, at most 255 ticks lie between the
    reads of the counter and of its overflow flag, and the event that counts the overflows
    runs less than [LATE] ticks after its time, the 32-bit time is the number of ticks since
    the start, modulo 2^32: neither an overflow that is not counted yet nor one between the two
    reads shifts it. *)
Theorem avr_time_exact s delay :
  reach avr_step avr_init s -> 0 <= delay < 256 -> timer_read_time delay s = u32 (av_now s).
Proof.
  intros Hr Hdel. apply (reach_invariant avr_step avr_ok) in Hr; [|apply avr_ok_init|intros; by eapply avr_ok_step].
  destruct Hr as (n & d & Hc & Hn & Hh & Hw & Hd & Hr). unfold LATE in Hr.
  unfold timer_read_time, timer_get. rewrite Hc, overflowed_spec, Hh by lia.
  rewrite Z.shiftr_div_pow2 by lia. change (2 ^ 8) with 256.
  destruct (Z.leb_spec (65536 * (n + 1)) (av_now s + delay)); [|rewrite u32_of_sum; wrap_lia].
  destruct (Z.ltb_spec (u16 (av_now s) / 256) 255); rewrite u32_of_sum; unfold u16, u32 in *; Z.div_mod_to_equations; lia.
Qed.

(** ** Witnesses *)

Lemma avr_comparison_matches_witness : avr_timer_is_before 4294967290 5 = timer_is_before 4294967290 5.
Proof. apply (avr_comparison_matches 4294967290 5); split; first [discriminate|reflexivity]. Defined.

(** The counter has overflowed, which is not counted yet. *)
Definition late_state : avr :=
  timer_event (avr_init <| av_now := av_now avr_init + 40000 |>).

Lemma avr_time_exact_witness : timer_read_time 3 (late_state <| av_now := av_now late_state + 25600 |>) = 65600.
Proof.
  change 65600 with (u32 (av_now (late_state <| av_now := av_now late_state + 25600 |>))).
  apply (avr_time_exact (late_state <| av_now := av_now late_state + 25600 |>) 3).
  - eapply reach_step; [eapply reach_step; [eapply reach_step; [apply reach_refl|]|]|].
    + apply (avr_pass avr_init 40000); [lia|reflexivity].
    + apply avr_event. reflexivity.
    + apply (avr_pass late_state 25600); [lia|reflexivity].
  - lia.
Defined.

(** In the last 256 ticks before an overflow a late flag is recognised; an event that is
    [65280] ticks late would break the time. *)
Example overflow_between_reads : timer_read_time 200 (mk_avr 65500 0 0 65536) = 65500.
Proof. reflexivity. Qed.
Example too_late : timer_read_time 0 (mk_avr (65536 + 65280) 0 0 65536) = 65280.
Proof. reflexivity. Qed.
